(* ===== verification/_CoqProject ===== *)
-Q . S2P
Prelude.v
Samples.v
Wire.v
Get.v
Flows.v
Csum.v
IncChecksum.v
Checksum.v
UniqueIp.v
Cidr.v
TcpeditTypes.v
Remap.v
MapLoop.v
EditIPv4.v
EditIPv6.v
EditArp.v
CString.v
Portmap.v
Dlt.v
En10mb.v
DltPlugins.v
EditLen.v
Tcpedit.v
Replay.v
Cache.v
SendPackets.v
SendDual.v
SendSplit.v
Cpp.v
Keyed.v
FlowMatch.v
HighLevel.v
HLGraph.v
GraphSamples.v
HLUpdate.v
LowLevel.v
Lsi.v
Vlinks.v
VlinksOk.v
Translator.v
Controller.v
Forwarding.v
NFManagers.v
Json.v
ComputeController.v
GraphManager.v
SwitchSample.v
Deploy.v
InternalOk.v
ComputeOk.v
NameResolver.v
Validator.v
CidrParse.v
MatchParser.v
GraphParser.v
GraphJson.v
ParserOk.v
MatchRoundtrip.v
GraphRoundtrip.v
UserDb.v
UserDbOk.v
RestServer.v
RestOk.v
RestManager.v
RestAuth.v
RestSample.v
Ovsdb.v
OvsdbOk.v
OvsdbLinks.v
OvsdbSync.v
OvsdbLsi.v
OvsdbDelete.v
OvsdbRuns.v
OvsdbSample.v
