(* ===== verification/Prelude.v ===== *)
(** * The Universal Node repository: a verification library

    The repository holds three programs this library is about.

    - The _un-orchestrator_ (orchestrator/, C++): it receives network function
      forwarding graphs (NF-FGs), starts their network functions and steers
      traffic between them with OpenFlow.  A graph is deployed on its own
      logical switch instance (the tenant LSI), joined to the switch that owns
      the physical ports (LSI-0) by virtual links.
    - _DDTCPReplay_ (use-cases/elastic_router/ddtcpreplay/, C): a tcpreplay
      driven over a message bus, with the packet editor (tcpedit) that rewrites
      addresses, ports, VLAN tags, lengths and checksums.
    - The _name resolver_ (name-resolver/, C++): it tells the orchestrator the
      implementations of a network function.

    ** How the files correspond to the sources

    Shared: [Prelude] (machine integers, byte buffers, the buffer monad and its
    weakest preconditions), [Samples] (packets for examples), [CString] (strtok,
    strtol, ...), [Cpp] (exceptions, asserts, programs over a state, std::map
    and std::list), [Keyed] (lists searched by a key), [Json] (JSON values).

    DDTCPReplay (paths under ddtcpreplay/src/):
    [Wire], [Get] common/get.c and tcpr.h;  [Flows] common/flows.c and the flow
    statistics of send_packets.c;  [Csum], [IncChecksum], [Checksum]
    tcpedit/checksum.c and incremental_checksum.[ch];  [Cidr] and [CidrParse]
    common/cidr.c, list.c and xX.c;
    [TcpeditTypes] tcpedit_types.h;  [Remap], [MapLoop], [EditIPv4],
    [EditIPv6], [EditArp], [EditLen] tcpedit/edit_packet.c;  [Portmap]
    tcpedit/portmap.c;  [Dlt], [En10mb], [DltPlugins] tcpedit/plugins/;
    [Tcpedit] tcpedit/tcpedit.c;  [UniqueIp], [SendPackets], [SendDual]
    send_packets.c;
    [Replay] tcpreplay.c, replay.c and the loop
    of tcpreplay_api.c;  [Cache] common/cache.c.

    un-orchestrator (paths under orchestrator/):
    [FlowMatch] graph/match.cc;  [HighLevel], [HLGraph] graph/high_level_graph/;
    [LowLevel] graph/low_level_graph/;  [Lsi] graph_manager/lsi.cc and
    virtual_link.cc;  [Vlinks] the virtual-link parts of
    graph_manager/graph_manager.cc;  [Translator] graph_manager/
    graph_translator.cc;  [Controller] network_controller/openflow_controller/;
    [NFManagers], [ComputeController] compute_controller/;  [GraphManager]
    graph_manager/graph_manager.cc;  [Validator], [MatchParser], [GraphParser]
    graph/graph-parser/;  [GraphJson] the toJSON methods of graph/;  [UserDb]
    database_manager/SQLite/, security_manager/ and db_initializer/;
    [RestServer] rest_server/rest_server.cc;  [Ovsdb] network_controller/
    switch_manager/plugins/ovs-ovsdb/.  [NameResolver] name-resolver/.
    [GraphSamples], [SwitchSample], [RestSample] and [OvsdbSample] hold a graph,
    a switch, a host, clients and an OVSDB server to run them.

    The other files hold results only: [SendSplit], [HLUpdate], [VlinksOk], [Forwarding],
    [Deploy], [InternalOk], [ComputeOk], [ParserOk], [MatchRoundtrip],
    [GraphRoundtrip], [UserDbOk], [RestOk], [RestManager], [RestAuth], and, for
    the OVSDB plugin, [OvsdbOk] (the laws of the server and the agreement of the
    plugin's maps with the database), [OvsdbLinks], [OvsdbSync], [OvsdbLsi],
    [OvsdbDelete] (its operations) and [OvsdbRuns] (sequences of calls).

    State is a record per class, an operation is a function on it; code with
    many effects is a program [prog S A] that keeps the state it reached when it
    throws or aborts.  A failed assert, a null or dangling access and other
    undefined behaviour are the outcomes [Halt]; a C++ exception is [Throw].

    ** Interfaces

    [Vlinks.LinkSwitch] (with [VlinksOk.LinkSwitchLaws]) and
    [GraphManager.SwitchOps] stand for the virtual switch; they are
    implemented by the model of the OVSDB plugin ([OvsdbLinks.ovsdb_link_laws],
    [Ovsdb.ovsdb_manager]) on a server given by [Ovsdb.Ovsdb] with the laws
    [OvsdbOk.OvsdbLaws], and by [SwitchSample.toy_switch].
    [ComputeController.ComputeOps]
    is what the graph manager asks of a compute controller; the model of
    compute_controller.cc, [ComputeController.compute_ops], implements it, on a
    host given by [NFManagers.Host].  [RestServer.GraphOps] (with
    [RestOk.GraphLaws]) is what the REST server asks of the graph manager;
    [RestManager.manager_laws] discharges it for the model of
    graph_manager.cc.

    ** What is shown

    The conditions of each theorem are in its comment; where the sources misbehave
    outside them, the manifest has a finding and, mostly, the library an example
    ([HLUpdate.changed_rule_aborts], [Controller.equal_rule_flow_lost],
    [GraphRoundtrip.vlan_actions_abort], [Get.ipv6_walks_spec]).

    - Deployment: [Deploy.deployed_graph_forwards] (the two rule tables forward
      as the graph says), [VlinksOk.update_vlinks_invariant] and
      [VlinksOk.vlink_count_bounds] (links follow the rules of a graph),
      [HLUpdate.update_graph_spec] (the effect of an update on the graph),
      [InternalOk.internal_endpoints_invariant] (the sharing of internal end
      points by graphs that come and go; one virtual link per graph), [Controller.connected_rules_installed]
      (rules reach the datapath whenever it connects).
    - The switch: after any calls that return, the plugin's lists are those of
      the database ([OvsdbRuns.lists_match_database]) and the pairs of patch
      ports are the virtual links the calls promise
      ([OvsdbRuns.plugin_implements_switch]); what the removal of an LSI does to
      the bridges ([OvsdbRuns.destroyed_lsi_bridge]) and a refused insertion to
      the lists ([OvsdbRuns.refused_port_recorded]).
    - Network functions: [ComputeOk].
    - Documents: a graph that is printed and parsed again is the same graph
      ([GraphRoundtrip.graph_roundtrip]), accepted documents give well-formed
      graphs ([ParserOk.parsed_graph_accepted]), what the name resolver prints is
      what the compute controller reads ([NameResolver.resolver_roundtrip]), and
      [Validator.netmask_spec].
    - The REST server: every deployed graph is registered, through any calls for
      any connections ([RestOk.deployed_graphs_registered]); who is not logged in
      changes nothing ([RestAuth.unauthenticated_rejected]); a login records a
      token of its user ([RestAuth.login_authenticates]); listing follows the
      columns of the permissions and is all or nothing
      ([UserDbOk.listing_all_or_nothing]); bodies are put together
      ([RestAuth.message_reassembled]).  The permissions of single resources are
      not enforced ([RestAuth.permissions_not_enforced]), and two requests stop
      the process ([RestAuth.deleted_user_token_aborts],
      [RestAuth.listing_without_users_aborts]).
    - Replay: order of the captures under every interleaving of the two threads
      ([Replay.replay_order], [Replay.stop_finishes_pass]), and the refinement of
      the sequential reading by single accesses ([Replay.pass_refines]).
    - Sending: a replay sends its captures in order
      ([SendPackets.plain_replay_sends_all], and the merge of two at a time
      [SendDual.dual_replay_merges]), each packet on the interface tcpprep chose
      for it ([SendSplit.cache_file_splits_replay]), not faster than its rate
      ([SendPackets.rate_never_exceeded]; the rate is lost after an overflow,
      [SendPackets.rate_lost_after_overflow]) and within its limit
      ([SendPackets.limit_send_respected]); the addresses of each pass keep the
      checksums ([UniqueIp.unique_ip_keeps_checksums]) and are unique
      ([UniqueIp.unique_ip_passes_differ]) unless the capture is preloaded
      ([UniqueIp.preloaded_addresses_repeat]).
    - Flow statistics: the hash table is the history of the packets
      ([Flows.flow_table_refines_history]), what makes
      two packets one flow ([Flows.flow_is_five_tuple]) and the IP packets the
      decoder does not know ([Flows.ip_frames_not_flows]).
    - Packet editing: every edit keeps or restores the checksums and touches
      only the fields it names ([EditIPv4], [EditIPv6], [EditArp], [EditLen],
      [Portmap], [DltPlugins]), up to whole packets ([Tcpedit]).
    - Options: filters and packet lists decide as their texts say
      ([CidrParse.filter_spec], [CidrParse.list_spec]; -X is the complement of -x).
    - IPv6 headers: what the walks over them return, and where they read out of
      bounds ([Get.ipv6_walks_spec]).
    - Round trips: VLAN tags, port maps, netblock maps, the tcpprep cache, graphs.
    - Defects of the sources, each with a packet or a graph that shows it.

    ** Choices

    The platform is little-endian LP64 with asserts compiled in; DDTCPReplay
    without DEBUG and FORCE_ALIGN; the orchestrator with its default options
    (RUN_NFS and one thread per function start, UNIFY options off, OpenFlow
    1.2, the OVSDB switch), and any choice of execution environments.
    Integers are [Z] with their wrap-around written out; the counters of the
    OVSDB plugin are unbounded.  Fuel, where recursion
    follows the bytes of a packet or the characters of a string, is the length
    of that input, and a theorem shows it suffices ([Get.ipv6_walks_terminate],
    [CidrParse.parse_cidr_loop_enough]);
    other loops are structural.  Requests to the orchestrator are handled one
    at a time, as the REST server does; the threads that start functions are
    run one after the other (they only share the core allocator, which locks).
    What is uninitialised or dangling in the sources is a parameter of the
    model ([stale], [garbage], [no_dpid], [junk]).  A JSON object is the list of
    its members, in the order of the keys where the library keeps a map.  SQL
    statements have their meaning on tables with keys; the order of the rows of
    a query is a parameter ([scan]).  SHA256 writes past the array the handlers
    give it (rest_server.cc:218 and 323, db_initializer.cc:25); whether that
    reaches memory in use is a parameter too ([RestServer.memory]), and what does
    is undefined behaviour.  The clock and the sleeps of a replay are arbitrary
    ([SendPackets.outside]); that the clock does not go back and sleeps are not
    cut short is a hypothesis of the theorem on the rate only.  A datapath
    disconnects between two calls of its controller.

    ** Not modelled

    Text that only goes to a log; the xDPd and ERFS plugins, which lack two
    operations of the interface and do not compile at this commit; the
    dialogue of libvirt with its daemon, and the DPDK build of the OVSDB plugin; sockets, the HTTP library and errors of
    the database file; start-up and option parsing (generated by AutoGen in
    DDTCPReplay); network devices; the bus and monitoring clients, which are
    compiled out by default; fragroute and the other programs of the tcpreplay suite.
    The manifest lists them with their reasons. *)

From Stdlib Require Import ZArith Lia.
From stdpp Require Import base list gmap strings numbers.

#[global] Open Scope Z_scope.

(** ** Machine integers

    A w-bit C integer is a [Z]; the wrap-around of the conversions that the
    sources perform is written out with the functions below.  The platform is
    the one the repository targets: little-endian, LP64 (32-bit [int], 64-bit
    [long]). *)

Definition u8 (x : Z) : Z := x mod 256.
Definition u16 (x : Z) : Z := x mod 65536.
Definition u32 (x : Z) : Z := x mod 4294967296.
Definition u64 (x : Z) : Z := x mod 18446744073709551616.
Definition i32 (x : Z) : Z := (x + 2147483648) mod 4294967296 - 2147483648.

(** Bitwise complement at a width. *)
Definition not16 (x : Z) : Z := u16 (Z.lnot x).
Definition not32 (x : Z) : Z := u32 (Z.lnot x).

(** [htons]/[ntohs] and [htonl]/[ntohl] on a little-endian host. *)
Definition bswap16 (x : Z) : Z := (x mod 256) * 256 + (x / 256) mod 256.
Definition bswap32 (x : Z) : Z :=
  (x mod 256) * 16777216 + ((x / 256) mod 256) * 65536
  + ((x / 65536) mod 256) * 256 + (x / 16777216) mod 256.

Definition is_u8 (x : Z) : Prop := 0 <= x < 256.
Definition is_u16 (x : Z) : Prop := 0 <= x < 65536.
Definition is_u32 (x : Z) : Prop := 0 <= x < 4294967296.

#[export] Instance is_u8_dec x : Decision (is_u8 x).
Proof. unfold is_u8. apply _. Defined.
#[export] Instance is_u16_dec x : Decision (is_u16 x).
Proof. unfold is_u16. apply _. Defined.
#[export] Instance is_u32_dec x : Decision (is_u32 x).
Proof. unfold is_u32. apply _. Defined.

(** Closed decidable goals, by evaluation. *)
Ltac concrete :=
  first [ done | by vm_compute | apply (bool_decide_unpack _); vm_compute; exact I ].

(** [lia] with the quotients and remainders of the goal turned into equations. *)
Ltac dlia := Z.div_mod_to_equations; lia.
#[local] Ltac Zify.zify_post_hook ::= Z.div_mod_to_equations.

Lemma u8_range x : is_u8 (u8 x).
Proof. unfold is_u8, u8. apply Z.mod_pos_bound. lia. Qed.
Lemma u16_range x : is_u16 (u16 x).
Proof. unfold is_u16, u16. apply Z.mod_pos_bound. lia. Qed.
Lemma u32_range x : is_u32 (u32 x).
Proof. unfold is_u32, u32. apply Z.mod_pos_bound. lia. Qed.
Lemma u8_id x : is_u8 x -> u8 x = x.
Proof. unfold is_u8, u8. intros. apply Z.mod_small. lia. Qed.
Lemma u16_id x : is_u16 x -> u16 x = x.
Proof. unfold is_u16, u16. intros. apply Z.mod_small. lia. Qed.
Lemma u32_id x : is_u32 x -> u32 x = x.
Proof. unfold is_u32, u32. intros. apply Z.mod_small. lia. Qed.

Lemma not16_alt x : not16 x = 65535 - u16 x.
Proof. unfold not16, u16, Z.lnot. lia. Qed.
Lemma not32_alt x : not32 x = 4294967295 - u32 x.
Proof. unfold not32, u32, Z.lnot. lia. Qed.
Lemma not16_range x : is_u16 (not16 x).
Proof. apply u16_range. Qed.
Lemma not32_range x : is_u32 (not32 x).
Proof. apply u32_range. Qed.

Lemma bswap16_range x : is_u16 (bswap16 x).
Proof. unfold is_u16, bswap16. lia. Qed.
Lemma bswap16_involutive x : is_u16 x -> bswap16 (bswap16 x) = x.
Proof. unfold is_u16, bswap16. lia. Qed.
Lemma bswap32_range x : is_u32 (bswap32 x).
Proof. unfold is_u32, bswap32. lia. Qed.
Lemma bytes_of x :
  is_u32 x -> exists a b c d, is_u8 a /\ is_u8 b /\ is_u8 c /\ is_u8 d /\ x = a + 256 * b + 65536 * c + 16777216 * d.
Proof.
  unfold is_u32, is_u8. intros Hx. exists (x mod 256), ((x / 256) mod 256), ((x / 256 / 256) mod 256), (x / 256 / 256 / 256).
  pose proof (Z.div_mod x 256). pose proof (Z.mod_pos_bound x 256). set (q := x / 256) in *.
  pose proof (Z.div_mod q 256). pose proof (Z.mod_pos_bound q 256). set (r := q / 256) in *.
  pose proof (Z.div_mod r 256). pose proof (Z.mod_pos_bound r 256). lia.
Qed.
Lemma bswap32_bytes a b c d :
  is_u8 a -> is_u8 b -> is_u8 c -> is_u8 d ->
  bswap32 (a + 256 * b + 65536 * c + 16777216 * d) = d + 256 * c + 65536 * b + 16777216 * a.
Proof.
  unfold is_u8. intros Ha Hb Hc Hd. unfold bswap32. set (x := _ + 16777216 * d).
  rewrite <- (Z.mod_unique x 256 (b + 256 * c + 65536 * d) a), <- (Z.div_unique x 256 (b + 256 * c + 65536 * d) a),
    <- (Z.div_unique x 65536 (c + 256 * d) (a + 256 * b)), <- (Z.div_unique x 16777216 d (a + 256 * b + 65536 * c)) by lia.
  rewrite <- (Z.mod_unique (b + _ + _) 256 (c + 256 * d) b), <- (Z.mod_unique (c + _) 256 d c), (Z.mod_small d) by lia. lia.
Qed.
Lemma bswap32_involutive x : is_u32 x -> bswap32 (bswap32 x) = x.
Proof.
  intros (a & b & c & d & Ha & Hb & Hc & Hd & ->)%bytes_of. rewrite bswap32_bytes by done. rewrite bswap32_bytes by done. lia.
Qed.

Create HintDb cint discriminated.
#[export] Hint Resolve u8_range u16_range u32_range not16_range not32_range
  bswap16_range bswap32_range : cint.

Lemma lor_add a b : Z.land a b = 0 -> Z.lor a b = a + b.
Proof. intros H. by rewrite Z.add_nocarry_lxor, Z.lxor_lor. Qed.

(** ** Faults and results

    [Oob] is an access outside the buffer, [Undef] other undefined behaviour
    of C (a shift by the width or more, a null dereference, ...), [Assert] a
    failed [assert], [Exit] a call of [exit]/[err]/[errx] and [Diverge] a loop
    that exhausted the fuel of the model. *)
Inductive fault := Oob | Undef | Assert | Exit (code : Z) | Diverge.

Inductive res (A : Type) :=
| Ok (a : A)
| Err (f : fault).
Arguments Ok {A} a.
Arguments Err {A} f.

#[export] Instance fault_eq_dec : EqDecision fault.
Proof. solve_decision. Defined.
#[export] Instance res_eq_dec `{EqDecision A} : EqDecision (res A).
Proof. solve_decision. Defined.

#[export] Instance res_ret : MRet res := fun _ a => Ok a.
#[export] Instance res_bind : MBind res := fun _ _ k m =>
  match m with Ok a => k a | Err f => Err f end.
#[export] Instance res_fmap : FMap res := fun _ _ k m =>
  match m with Ok a => Ok (k a) | Err f => Err f end.

Definition c_assert (c : bool) : res unit := if c then Ok tt else Err Assert.

(** ** Buffers

    The memory a packet routine works on is one buffer of bytes; a pointer
    into it is an offset.  [get*]/[put*] are the total accessors used in
    specifications; [ld*]/[st*] are the loads and stores of the program, which
    fault outside the buffer.  Multi-byte accesses are little-endian. *)

Abbreviation buf := (list Z).

Definition blen (b : buf) : Z := Z.of_nat (length b).
Definition get8 (b : buf) (o : Z) : Z := nth (Z.to_nat o) b 0.
Definition get16 (b : buf) (o : Z) : Z := get8 b o + 256 * get8 b (o + 1).
Definition get32 (b : buf) (o : Z) : Z := get16 b o + 65536 * get16 b (o + 2).
Definition put8 (b : buf) (o v : Z) : buf := <[Z.to_nat o := u8 v]> b.
Definition put16 (b : buf) (o v : Z) : buf := put8 (put8 b o v) (o + 1) (v / 256).
Definition put32 (b : buf) (o v : Z) : buf := put16 (put16 b o v) (o + 2) (v / 65536).
Definition slice (b : buf) (o n : Z) : buf := take (Z.to_nat n) (drop (Z.to_nat o) b).

Definition put_bytes (b : buf) (o : Z) (l : list Z) : buf :=
  take (Z.to_nat o) b ++ l ++ drop (Z.to_nat o + length l) b.

Definition bytes_ok (b : buf) : Prop := Forall is_u8 b.
#[export] Instance bytes_ok_dec b : Decision (bytes_ok b).
Proof. unfold bytes_ok. apply _. Defined.

Definition in_bounds (b : buf) (o n : Z) : bool := (0 <=? o) && (o + n <=? blen b).

(** The state monad of a routine that works on one buffer. *)
Definition M (A : Type) : Type := buf -> res (A * buf).
#[export] Instance M_ret : MRet M := fun _ a b => Ok (a, b).
#[export] Instance M_bind : MBind M := fun _ _ k m b =>
  match m b with Ok (a, b') => k a b' | Err f => Err f end.

Definition fault_with {A} (f : fault) : M A := fun _ => Err f.
Definition lift {A} (r : res A) : M A := fun b =>
  match r with Ok a => Ok (a, b) | Err f => Err f end.
(** Loops whose every iteration consumes input run on the buffer length as fuel. *)
Definition with_fuel {A} (f : nat -> M A) : M A := fun b => f (S (length b)) b.
Definition assertM (c : bool) : M unit := fun b => if c then Ok (tt, b) else Err Assert.
Definition ld8 (o : Z) : M Z := fun b =>
  if in_bounds b o 1 then Ok (get8 b o, b) else Err Oob.
Definition ld16 (o : Z) : M Z := fun b =>
  if in_bounds b o 2 then Ok (get16 b o, b) else Err Oob.
Definition ld32 (o : Z) : M Z := fun b =>
  if in_bounds b o 4 then Ok (get32 b o, b) else Err Oob.
Definition st8 (o v : Z) : M unit := fun b =>
  if in_bounds b o 1 then Ok (tt, put8 b o v) else Err Oob.
Definition st16 (o v : Z) : M unit := fun b =>
  if in_bounds b o 2 then Ok (tt, put16 b o v) else Err Oob.
Definition st32 (o v : Z) : M unit := fun b =>
  if in_bounds b o 4 then Ok (tt, put32 b o v) else Err Oob.

(** Copies of byte strings out of and into the buffer (memcpy). *)
Definition ld_bytes (o n : Z) : M (list Z) := fun b =>
  if in_bounds b o n && (0 <=? n) then Ok (slice b o n, b) else Err Oob.
Definition st_bytes (o : Z) (l : list Z) : M unit := fun b =>
  if in_bounds b o (blen l) then Ok (tt, put_bytes b o l) else Err Oob.

(** *** Laws of the accessors *)

Lemma blen_put8 b o v : blen (put8 b o v) = blen b.
Proof. unfold blen, put8. by rewrite length_insert. Qed.
Lemma blen_put16 b o v : blen (put16 b o v) = blen b.
Proof. unfold put16. by rewrite !blen_put8. Qed.
Lemma blen_put32 b o v : blen (put32 b o v) = blen b.
Proof. unfold put32. by rewrite !blen_put16. Qed.
Lemma blen_nonneg b : 0 <= blen b.
Proof. unfold blen. lia. Qed.

Create Rewrite HintDb blen.
#[export] Hint Rewrite blen_put8 blen_put16 blen_put32 : blen.

Lemma get8_lookup b o : 0 <= o -> get8 b o = default 0 (b !! Z.to_nat o).
Proof.
  intros _. unfold get8. generalize (Z.to_nat o) as n. clear o.
  induction b as [|x b IH]; intros [|n]; simpl; auto.
Qed.

Lemma get8_put8 b o v o' :
  0 <= o < blen b -> 0 <= o' ->
  get8 (put8 b o v) o' = if o' =? o then u8 v else get8 b o'.
Proof.
  intros Ho Ho'. unfold put8, blen in *. rewrite !get8_lookup by lia.
  destruct (Z.eqb_spec o' o) as [->|Hne].
  - rewrite list_lookup_insert_eq by lia. done.
  - rewrite list_lookup_insert_ne by lia. done.
Qed.

Lemma get8_put8_eq b o v : 0 <= o < blen b -> get8 (put8 b o v) o = u8 v.
Proof. intros. rewrite get8_put8 by lia. by rewrite Z.eqb_refl. Qed.
Lemma get8_put8_ne b o v o' :
  0 <= o < blen b -> 0 <= o' -> o' <> o -> get8 (put8 b o v) o' = get8 b o'.
Proof. intros. rewrite get8_put8 by lia. by destruct (Z.eqb_spec o' o). Qed.

Lemma get8_put16 b o v o' :
  0 <= o -> o + 2 <= blen b -> 0 <= o' ->
  get8 (put16 b o v) o' =
    if o' =? o then u8 v else if o' =? o + 1 then u8 (v / 256) else get8 b o'.
Proof.
  intros. unfold put16. rewrite get8_put8 by (rewrite ?blen_put8; lia).
  rewrite get8_put8 by lia.
  destruct (Z.eqb_spec o' o), (Z.eqb_spec o' (o + 1)); try lia; done.
Qed.

Lemma get16_put16_eq b o v :
  0 <= o -> o + 2 <= blen b -> get16 (put16 b o v) o = u16 v.
Proof.
  intros. unfold get16. rewrite !get8_put16 by lia.
  rewrite Z.eqb_refl. replace (o + 1 =? o) with false by lia. rewrite Z.eqb_refl.
  unfold u8, u16. lia.
Qed.
Lemma get8_put16_ne b o v o' :
  0 <= o -> o + 2 <= blen b -> 0 <= o' -> (o' < o \/ o + 2 <= o') ->
  get8 (put16 b o v) o' = get8 b o'.
Proof.
  intros. rewrite get8_put16 by lia.
  destruct (Z.eqb_spec o' o), (Z.eqb_spec o' (o + 1)); try lia; done.
Qed.
Lemma get16_put16_ne b o v o' :
  0 <= o -> o + 2 <= blen b -> 0 <= o' -> (o' + 2 <= o \/ o + 2 <= o') ->
  get16 (put16 b o v) o' = get16 b o'.
Proof. intros. unfold get16. rewrite !get8_put16_ne by lia. done. Qed.

Lemma get8_put32_ne b o v o' :
  0 <= o -> o + 4 <= blen b -> 0 <= o' -> (o' < o \/ o + 4 <= o') ->
  get8 (put32 b o v) o' = get8 b o'.
Proof.
  intros. unfold put32. rewrite get8_put16_ne by (rewrite ?blen_put16; lia).
  by rewrite get8_put16_ne by lia.
Qed.
Lemma get16_put32_ne b o v o' :
  0 <= o -> o + 4 <= blen b -> 0 <= o' -> (o' + 2 <= o \/ o + 4 <= o') ->
  get16 (put32 b o v) o' = get16 b o'.
Proof. intros. unfold get16. rewrite !get8_put32_ne by lia. done. Qed.
Lemma get32_put16_ne b o v o' :
  0 <= o -> o + 2 <= blen b -> 0 <= o' -> (o' + 4 <= o \/ o + 2 <= o') ->
  get32 (put16 b o v) o' = get32 b o'.
Proof. intros. unfold get32. rewrite !get16_put16_ne by lia. done. Qed.
Lemma get32_put32_ne b o v o' :
  0 <= o -> o + 4 <= blen b -> 0 <= o' -> (o' + 4 <= o \/ o + 4 <= o') ->
  get32 (put32 b o v) o' = get32 b o'.
Proof. intros. unfold get32. rewrite !get16_put32_ne by lia. done. Qed.
Lemma get32_put32_eq b o v :
  0 <= o -> o + 4 <= blen b -> get32 (put32 b o v) o = u32 v.
Proof.
  intros. unfold get32, put32.
  rewrite get16_put16_eq by (rewrite ?blen_put16; lia).
  rewrite get16_put16_ne by (rewrite ?blen_put16; lia).
  rewrite get16_put16_eq by lia. unfold u16, u32. lia.
Qed.

Lemma get8_range b o : bytes_ok b -> is_u8 (get8 b o).
Proof.
  unfold bytes_ok, get8. generalize (Z.to_nat o) as n. clear o.
  induction b as [|x b IH]; intros n Hb.
  - destruct n; unfold is_u8; simpl; lia.
  - inversion Hb as [|? ? Hx Hb']; subst. destruct n; simpl; auto.
Qed.
Lemma get16_range b o : bytes_ok b -> is_u16 (get16 b o).
Proof.
  intros Hb. pose proof (get8_range b o Hb). pose proof (get8_range b (o + 1) Hb).
  unfold is_u8, is_u16, get16 in *. lia.
Qed.
Lemma get32_range b o : bytes_ok b -> is_u32 (get32 b o).
Proof.
  intros Hb. pose proof (get16_range b o Hb). pose proof (get16_range b (o + 2) Hb).
  unfold is_u16, is_u32, get32 in *. lia.
Qed.

Lemma bytes_ok_put8 b o v : bytes_ok b -> bytes_ok (put8 b o v).
Proof. intros Hb. apply Forall_insert; auto using u8_range. Qed.
Lemma bytes_ok_put16 b o v : bytes_ok b -> bytes_ok (put16 b o v).
Proof. intros Hb. unfold put16. by repeat apply bytes_ok_put8. Qed.
Lemma bytes_ok_put32 b o v : bytes_ok b -> bytes_ok (put32 b o v).
Proof. intros Hb. unfold put32. by repeat apply bytes_ok_put16. Qed.
#[export] Hint Resolve get8_range get16_range get32_range
  bytes_ok_put8 bytes_ok_put16 bytes_ok_put32 : cint.

(** *** Byte strings *)

Section put_bytes.
Context (b : buf) (o : Z) (l : list Z) (Ho : 0 <= o) (Hl : o + blen l <= blen b).

Lemma blen_put_bytes : blen (put_bytes b o l) = blen b.
Proof using Ho Hl.
  unfold put_bytes, blen in *. rewrite !length_app, length_take, length_drop. lia.
Qed.
Lemma get8_put_bytes_out i :
  0 <= i -> i < o \/ o + blen l <= i -> get8 (put_bytes b o l) i = get8 b i.
Proof using Ho Hl.
  intros H0 Hi. rewrite !get8_lookup by lia. unfold put_bytes, blen in *. f_equal.
  destruct Hi as [Hi|Hi].
  - rewrite lookup_app_l by (rewrite length_take; lia). rewrite lookup_take_lt by lia. done.
  - rewrite lookup_app_r by (rewrite length_take; lia).
    rewrite lookup_app_r by (rewrite length_take; lia). rewrite lookup_drop, length_take.
    f_equal. lia.
Qed.
Lemma get8_put_bytes_in i :
  o <= i < o + blen l -> get8 (put_bytes b o l) i = get8 l (i - o).
Proof using Ho Hl.
  intros Hi. rewrite !get8_lookup by lia. unfold put_bytes, blen in *. f_equal.
  rewrite lookup_app_r by (rewrite length_take; lia). rewrite length_take.
  rewrite lookup_app_l by lia. f_equal. lia.
Qed.
Lemma slice_put_bytes : slice (put_bytes b o l) o (blen l) = l.
Proof using Ho Hl.
  unfold slice, put_bytes, blen in *. rewrite drop_app_length' by (rewrite length_take; lia).
  rewrite Nat2Z.id. apply take_app_length.
Qed.
Lemma bytes_ok_put_bytes : bytes_ok b -> bytes_ok l -> bytes_ok (put_bytes b o l).
Proof using.
  intros. unfold put_bytes. apply Forall_app; split; [by apply Forall_take|].
  apply Forall_app; split; [done|by apply Forall_drop].
Qed.
End put_bytes.

Lemma bytes_ok_slice b o n : bytes_ok b -> bytes_ok (slice b o n).
Proof. intros. by apply Forall_take, Forall_drop. Qed.
Lemma blen_slice b o n : 0 <= o -> 0 <= n -> o + n <= blen b -> blen (slice b o n) = n.
Proof. unfold slice, blen. intros. rewrite length_take, length_drop. lia. Qed.
Lemma get8_slice b o n i : 0 <= o -> 0 <= i < n -> get8 (slice b o n) i = get8 b (o + i).
Proof.
  intros Ho Hi. rewrite !get8_lookup by lia. unfold slice. rewrite lookup_take_lt by lia.
  rewrite lookup_drop. do 2 f_equal. lia.
Qed.
Lemma get16_slice b o n i : 0 <= o -> 0 <= i -> i + 2 <= n -> get16 (slice b o n) i = get16 b (o + i).
Proof. intros. unfold get16. rewrite !get8_slice by lia. by rewrite Z.add_assoc. Qed.
Lemma get32_slice b o n i : 0 <= o -> 0 <= i -> i + 4 <= n -> get32 (slice b o n) i = get32 b (o + i).
Proof. intros. unfold get32. rewrite !get16_slice by lia. by rewrite Z.add_assoc. Qed.
Lemma slice_ext b b' o n :
  0 <= o -> blen b = blen b' -> (forall i, o <= i < o + n -> get8 b i = get8 b' i) ->
  slice b o n = slice b' o n.
Proof.
  intros Ho Hl He. unfold slice, blen in *. apply list_eq. intros i.
  destruct (decide (i < Z.to_nat n)%nat) as [Hi|Hi]; [|by rewrite !lookup_take_ge by lia].
  rewrite !lookup_take_lt, !lookup_drop by lia.
  specialize (He (Z.of_nat (Z.to_nat o + i)) ltac:(lia)). rewrite !get8_lookup, Nat2Z.id in He by lia.
  destruct (b !! _) eqn:E1, (b' !! _) eqn:E2; cbn in He; try congruence.
  - apply lookup_lt_Some in E1. apply lookup_ge_None in E2. lia.
  - apply lookup_lt_Some in E2. apply lookup_ge_None in E1. lia.
Qed.
#[export] Hint Resolve bytes_ok_put_bytes bytes_ok_slice : cint.

(** ** Total weakest preconditions

    [wp m Q b]: run from [b], the routine [m] finishes without fault and its
    result and final buffer satisfy [Q]. *)

Definition wp {A} (m : M A) (Q : A -> buf -> Prop) (b : buf) : Prop :=
  match m b with Ok (a, b') => Q a b' | Err _ => False end.

Section wp_rules.
Context {A B : Type}.
Implicit Types (m : M A) (k : A -> M B) (b : buf).

Lemma wp_bind m k Q b :
  wp m (fun a b' => wp (k a) Q b') b -> wp (m ≫= k) Q b.
Proof. unfold wp, mbind, M_bind. by destruct (m b) as [[a b']|]. Qed.
Lemma wp_mono m Q Q' b :
  (forall a b', Q a b' -> Q' a b') -> wp m Q b -> wp m Q' b.
Proof. unfold wp. intros H. destruct (m b) as [[a b']|]; auto. Qed.
Lemma wp_ret (a : A) Q b : Q a b -> wp (mret a) Q b.
Proof. done. Qed.
Lemma wp_lift (r : res A) a Q b : r = Ok a -> Q a b -> wp (lift r) Q b.
Proof. intros ->. done. Qed.
Lemma wp_run m Q b :
  wp m Q b <-> exists a b', m b = Ok (a, b') /\ Q a b'.
Proof.
  unfold wp. destruct (m b) as [[a b']|f]; split; try done.
  - eauto.
  - by intros (? & ? & [= <- <-] & ?).
  - by intros (? & ? & ? & ?).
Qed.
End wp_rules.

Lemma wp_with_fuel {A} (f : nat -> M A) Q b :
  wp (f (S (length b))) Q b -> wp (with_fuel f) Q b.
Proof. done. Qed.
Lemma wp_assert c Q b : c = true -> Q tt b -> wp (assertM c) Q b.
Proof. intros ->. done. Qed.

#[local] Ltac solve_mem :=
  intros; unfold wp, ld8, ld16, ld32, st8, st16, st32, in_bounds;
  match goal with |- context [?c && ?d] => replace (c && d) with true by lia end; auto.

Lemma wp_ld8 o Q b : 0 <= o -> o + 1 <= blen b -> Q (get8 b o) b -> wp (ld8 o) Q b.
Proof. solve_mem. Qed.
Lemma wp_ld16 o Q b : 0 <= o -> o + 2 <= blen b -> Q (get16 b o) b -> wp (ld16 o) Q b.
Proof. solve_mem. Qed.
Lemma wp_ld32 o Q b : 0 <= o -> o + 4 <= blen b -> Q (get32 b o) b -> wp (ld32 o) Q b.
Proof. solve_mem. Qed.
Lemma wp_st8 o v Q b : 0 <= o -> o + 1 <= blen b -> Q tt (put8 b o v) -> wp (st8 o v) Q b.
Proof. solve_mem. Qed.
Lemma wp_st16 o v Q b : 0 <= o -> o + 2 <= blen b -> Q tt (put16 b o v) -> wp (st16 o v) Q b.
Proof. solve_mem. Qed.
Lemma wp_st32 o v Q b : 0 <= o -> o + 4 <= blen b -> Q tt (put32 b o v) -> wp (st32 o v) Q b.
Proof. solve_mem. Qed.

Lemma wp_ld_bytes o n Q b :
  0 <= o -> 0 <= n -> o + n <= blen b -> Q (slice b o n) b -> wp (ld_bytes o n) Q b.
Proof. intros. unfold wp, ld_bytes, in_bounds. by replace (_ && _ && _) with true by lia. Qed.
Lemma wp_st_bytes o l Q b :
  0 <= o -> o + blen l <= blen b -> Q tt (put_bytes b o l) -> wp (st_bytes o l) Q b.
Proof. intros. unfold wp, st_bytes, in_bounds. by replace (_ && _) with true by lia. Qed.

(** [bnd] discharges the bounds of an access; [wp_step] takes one step of a
    routine, [wp_steps] as many as it can. *)
Ltac bnd := autorewrite with blen in *; try assumption; first [lia | dlia].
Ltac wp_step :=
  match goal with
  | |- wp (mbind _ _) _ _ => apply wp_bind
  | |- wp (mret _) _ _ => apply wp_ret
  | |- wp (assertM _) _ _ => apply wp_assert; [reflexivity|]
  | |- wp (ld8 _) _ _ => apply wp_ld8; [bnd|bnd|]
  | |- wp (ld16 _) _ _ => apply wp_ld16; [bnd|bnd|]
  | |- wp (ld32 _) _ _ => apply wp_ld32; [bnd|bnd|]
  | |- wp (st8 _ _) _ _ => apply wp_st8; [bnd|bnd|]
  | |- wp (st16 _ _) _ _ => apply wp_st16; [bnd|bnd|]
  | |- wp (st32 _ _) _ _ => apply wp_st32; [bnd|bnd|]
  | |- wp (ld_bytes _ _) _ _ => apply wp_ld_bytes; [bnd|bnd|bnd|]
  end.
Ltac wp_steps := repeat (wp_step; cbv beta).

(** [split_if] splits on the first conditional of the goal. *)
Ltac split_if :=
  match goal with |- context [if ?c then _ else _] => destruct c eqn:? end.

(** ** Frames: [b'] differs from [b] at most in the [n] bytes from [o]. *)

Definition only_in (o n : Z) (b b' : buf) : Prop :=
  blen b' = blen b /\ forall i, 0 <= i -> i < o \/ o + n <= i -> get8 b' i = get8 b i.

Lemma only_in_refl o n b : only_in o n b b.
Proof. by split. Qed.
Lemma only_in_trans o n b1 b2 b3 :
  only_in o n b1 b2 -> only_in o n b2 b3 -> only_in o n b1 b3.
Proof.
  intros [H1 H2] [H3 H4]. split; [congruence|]. intros i Hi Ho. by rewrite H4, H2.
Qed.
Lemma only_in_weaken o n o' n' b b' :
  o' <= o -> o + n <= o' + n' -> only_in o n b b' -> only_in o' n' b b'.
Proof. intros ?? [H1 H2]. split; [done|]. intros. apply H2; lia. Qed.
Lemma only_in_put8 b o v : 0 <= o < blen b -> only_in o 1 b (put8 b o v).
Proof. intros. split; [apply blen_put8|]. intros. by rewrite get8_put8_ne by lia. Qed.
Lemma only_in_put16 b o v : 0 <= o -> o + 2 <= blen b -> only_in o 2 b (put16 b o v).
Proof. intros. split; [apply blen_put16|]. intros. by rewrite get8_put16_ne by lia. Qed.
Lemma only_in_put32 b o v : 0 <= o -> o + 4 <= blen b -> only_in o 4 b (put32 b o v).
Proof. intros. split; [apply blen_put32|]. intros. by rewrite get8_put32_ne by lia. Qed.
Lemma only_in_get8 o n b b' i :
  only_in o n b b' -> 0 <= i -> i < o \/ o + n <= i -> get8 b' i = get8 b i.
Proof. intros [_ H]. auto. Qed.
Lemma only_in_get16 o n b b' i :
  only_in o n b b' -> 0 <= i -> i + 2 <= o \/ o + n <= i -> get16 b' i = get16 b i.
Proof. intros H Hi Ho. unfold get16. rewrite !(only_in_get8 _ _ _ _ _ H) by lia. done. Qed.
Lemma only_in_get32 o n b b' i :
  only_in o n b b' -> 0 <= i -> i + 4 <= o \/ o + n <= i -> get32 b' i = get32 b i.
Proof. intros H Hi Ho. unfold get32. rewrite !(only_in_get16 _ _ _ _ _ H) by lia. done. Qed.
