(* ===== verification/Samples.v ===== *)
(** * Sample packets

    Concrete Ethernet frames on which the theorems of the packet components
    are instantiated. *)

From Stdlib Require Import ZArith Lia.
From stdpp Require Import base list.
From S2P Require Import Prelude.

Definition eth_hdr (ethertype : Z) : buf :=
  [2; 0; 0; 0; 0; 1; 2; 0; 0; 0; 0; 2; ethertype / 256; ethertype mod 256].

(** An IPv4 header without options, 192.168.0.1 to 10.0.0.2. *)
Definition ip4_hdr (proto len : Z) : buf :=
  [69; 0; len / 256; len mod 256; 0; 1; 64; 0; 64; proto; 18; 52; 192; 168; 0; 1; 10; 0; 0; 2].

(** TCP from port 80 to 8080 with four bytes of data. *)
Definition sample_tcp : buf :=
  eth_hdr 2048 ++ ip4_hdr 6 44
  ++ [0; 80; 31; 144; 0; 0; 0; 1; 0; 0; 0; 2; 80; 16; 1; 0; 171; 205; 0; 0; 1; 2; 3; 4].

(** UDP from port 53 to 53 with a checksum and two bytes of data. *)
Definition sample_udp : buf :=
  eth_hdr 2048 ++ ip4_hdr 17 30 ++ [0; 53; 0; 53; 0; 10; 171; 205; 7; 9].

Definition sample_icmp : buf :=
  eth_hdr 2048 ++ ip4_hdr 1 28 ++ [8; 0; 0; 0; 0; 1; 0; 1].

(** ARP request for 192.168.0.9 from 192.168.0.1. *)
Definition sample_arp : buf :=
  eth_hdr 2054 ++ [0; 1; 8; 0; 6; 4; 0; 1; 2; 0; 0; 0; 0; 1; 192; 168; 0; 1;
                   0; 0; 0; 0; 0; 0; 192; 168; 0; 9].

(** IPv6 with a TCP segment, 2001:db8::1 to 2001:db8::2. *)
Definition sample_tcp6 : buf :=
  eth_hdr 34525 ++ [96; 0; 0; 0; 0; 20; 6; 64]
  ++ [32; 1; 13; 184; 0; 0; 0; 0; 0; 0; 0; 0; 0; 0; 0; 1]
  ++ [32; 1; 13; 184; 0; 0; 0; 0; 0; 0; 0; 0; 0; 0; 0; 2]
  ++ [0; 80; 31; 144; 0; 0; 0; 1; 0; 0; 0; 2; 80; 16; 1; 0; 171; 205; 0; 0].
