(* ===== verification/Wire.v ===== *)
(** * Wire formats

    The packet headers of [ddtcpreplay/src/tcpr.h]: offsets of the fields the
    editing code touches, the bit-fields that share a byte, and the protocol
    and link-type numbers.  Offsets are abbreviations so that arithmetic sees
    the numbers. *)

From Stdlib Require Import ZArith Lia.
From stdpp Require Import base list.
From S2P Require Import Prelude.

(** struct tcpr_ipv4_hdr *)
Abbreviation o_ip_vhl := 0.
Abbreviation o_ip_len := 2.
Abbreviation o_ip_off := 6.
Abbreviation o_ip_ttl := 8.
Abbreviation o_ip_p := 9.
Abbreviation o_ip_sum := 10.
Abbreviation o_ip_src := 12.
Abbreviation o_ip_dst := 16.

(** struct tcpr_ipv6_hdr; the address fields are 16 bytes each. *)
Abbreviation o_ip6_len := 4.
Abbreviation o_ip6_nh := 6.
Abbreviation o_ip6_hl := 7.
Abbreviation o_ip6_src := 8.
Abbreviation o_ip6_dst := 24.

(** struct tcpr_ipv6_ext_hdr_base *)
Abbreviation o_ext_nh := 0.
Abbreviation o_ext_len := 1.

(** struct tcpr_tcp_hdr, tcpr_udp_hdr, tcpr_icmpv4_hdr, tcpr_icmpv6_hdr *)
Abbreviation o_sport := 0.
Abbreviation o_dport := 2.
Abbreviation o_th_off := 12.
Abbreviation o_th_sum := 16.
Abbreviation o_uh_sum := 6.
Abbreviation o_icmp_type := 0.
Abbreviation o_icmp_code := 1.
Abbreviation o_icmp_sum := 2.

(** struct tcpr_ethernet_hdr, tcpr_802_1q_hdr, sll_header, hdlc and ppp *)
Abbreviation o_ether_type := 12.
Abbreviation o_vlan_tci := 14.
Abbreviation o_vlan_len := 16.
Abbreviation o_sll_protocol := 14.
Abbreviation o_hdlc_protocol := 2.
Abbreviation o_ppp_protocol := 2.

(** struct tcpr_arp_hdr *)
Abbreviation o_ar_pro := 2.
Abbreviation o_ar_hln := 4.
Abbreviation o_ar_pln := 5.
Abbreviation o_ar_op := 6.
Abbreviation sizeof_arp_hdr := 8.

Abbreviation TCPR_IPV4_H := 20.
Abbreviation TCPR_IPV6_H := 40.
Abbreviation TCPR_UDP_H := 8.
Abbreviation TCPR_ETH_H := 14.
Abbreviation SLL_HDR_LEN := 16.
Abbreviation CISCO_HDLC_LEN := 4.

Abbreviation IP_MF := 8192.
Abbreviation IP_OFFMASK := 8191.

Abbreviation IPPROTO_IP := 0.
Abbreviation IPPROTO_ICMP := 1.
Abbreviation IPPROTO_TCP := 6.
Abbreviation IPPROTO_UDP := 17.
Abbreviation IPPROTO_ICMP6 := 58.

Abbreviation TCPR_IPV6_NH_HBH := 0.
Abbreviation TCPR_IPV6_NH_IPV6 := 41.
Abbreviation TCPR_IPV6_NH_ROUTING := 43.
Abbreviation TCPR_IPV6_NH_FRAGMENT := 44.
Abbreviation TCPR_IPV6_NH_ESP := 50.
Abbreviation TCPR_IPV6_NH_AH := 51.
Abbreviation TCPR_IPV6_NH_NO_NEXT := 59.
Abbreviation TCPR_IPV6_NH_DESTOPTS := 60.

Abbreviation ETHERTYPE_IP := 2048.
Abbreviation ETHERTYPE_VLAN := 33024.
Abbreviation ETHERTYPE_IP6 := 34525.
Abbreviation ARPOP_REQUEST := 1.
Abbreviation ARPOP_REPLY := 2.

Abbreviation DLT_EN10MB := 1.
Abbreviation DLT_RAW := 12.
Abbreviation DLT_PPP_SERIAL := 50.
Abbreviation DLT_C_HDLC := 104.
Abbreviation DLT_LINUX_SLL := 113.
Abbreviation DLT_JUNIPER_ETHER := 178.

Abbreviation AF_INET := 2.
Abbreviation AF_INET6 := 10.

(** The bit-fields [ip_hl]/[ip_v] of the first IPv4 byte and [th_off] of TCP,
    in the little-endian layout of the structs. *)
Definition ip_hl_of (x : Z) : Z := x mod 16.
Definition ip_v_of (x : Z) : Z := x / 16.
Definition ld_ip_hl (h : Z) : M Z := x ← ld8 (h + o_ip_vhl); mret (ip_hl_of x).
Definition ld_ip_v (h : Z) : M Z := x ← ld8 (h + o_ip_vhl); mret (ip_v_of x).
Definition ld_th_off (h : Z) : M Z := x ← ld8 (h + o_th_off); mret (x / 16).

(** The same fields as pure functions of the buffer. *)
Definition ip_hl (b : buf) (h : Z) : Z := ip_hl_of (get8 b h).
Definition ip_v (b : buf) (h : Z) : Z := ip_v_of (get8 b h).
Definition ip_p (b : buf) (h : Z) : Z := get8 b (h + o_ip_p).
Definition ip_ttl (b : buf) (h : Z) : Z := get8 b (h + o_ip_ttl).
Definition ip_sum (b : buf) (h : Z) : Z := get16 b (h + o_ip_sum).
Definition ip_src (b : buf) (h : Z) : Z := get32 b (h + o_ip_src).
Definition ip_dst (b : buf) (h : Z) : Z := get32 b (h + o_ip_dst).
Definition ip_off (b : buf) (h : Z) : Z := get16 b (h + o_ip_off).
Definition ip_len (b : buf) (h : Z) : Z := get16 b (h + o_ip_len).

Lemma ip_hl_range b h : 0 <= ip_hl b h <= 15.
Proof. unfold ip_hl, ip_hl_of. dlia. Qed.

Lemma wp_ld_ip_hl h Q b :
  0 <= h -> h + 1 <= blen b -> Q (ip_hl b h) b -> wp (ld_ip_hl h) Q b.
Proof.
  intros Hh Hb HQ. unfold ld_ip_hl. rewrite Z.add_0_r. wp_steps. exact HQ.
Qed.
Lemma wp_ld_ip_v h Q b :
  0 <= h -> h + 1 <= blen b -> Q (ip_v b h) b -> wp (ld_ip_v h) Q b.
Proof.
  intros Hh Hb HQ. unfold ld_ip_v. rewrite Z.add_0_r. wp_steps. exact HQ.
Qed.

(** A fragment with a non-zero offset: the test
    [(htons(ip_off) & IP_OFFMASK) != 0] of the sources. *)
Definition frag_off (off : Z) : Z := Z.land (bswap16 off) IP_OFFMASK.
