(* ===== verification/Get.v ===== *)
(** * Packet dissection: [ddtcpreplay/src/common/get.c]

    Finding the layer-2 length and protocol, the IP header and the layer-4
    header of a packet.  A pointer returned by the C code is an offset into
    the packet buffer, [None] is the null pointer. *)

From Stdlib Require Import ZArith Lia.
From stdpp Require Import base list.
From S2P Require Import Prelude Samples Wire.

(** ** Layer 2 *)

(** [get_l2protocol]: the ether type, in host order for Ethernet and as found
    on the wire for the other link types.  Messages are not modelled. *)
Definition get_l2protocol (datalen datalink : Z) : M Z :=
  _ ← assertM (negb (datalen =? 0));
  let en10mb (eth_hdr_offset : Z) : M Z :=
    t ← ld16 (eth_hdr_offset + o_ether_type);
    if bswap16 t =? ETHERTYPE_VLAN then
      l ← ld16 o_vlan_len; mret (bswap16 l)
    else mret (bswap16 t) in
  if datalink =? DLT_RAW then
    x ← ld8 0;
    mret (if x / 16 =? 4 then ETHERTYPE_IP else if x / 16 =? 6 then ETHERTYPE_IP6 else 0)
  else if datalink =? DLT_JUNIPER_ETHER then
    _ ← ld8 0; _ ← ld8 1; _ ← ld8 2;          (* memcmp(pktdata, "MGC", 3) *)
    f ← ld8 3;
    if Z.land f 128 =? 128 then
      e ← ld16 4; en10mb (u16 (bswap16 e + 6))
    else en10mb 4
  else if datalink =? DLT_EN10MB then en10mb 0
  else if datalink =? DLT_PPP_SERIAL then
    p ← ld16 o_ppp_protocol;
    mret (if bswap16 p =? 33 then bswap16 ETHERTYPE_IP else p)
  else if datalink =? DLT_C_HDLC then ld16 o_hdlc_protocol
  else if datalink =? DLT_LINUX_SLL then ld16 o_sll_protocol
  else fault_with (Exit (-1)).

(** The loop over stacked 802.1q tags of [get_l2len]. *)
Fixpoint vlan_loop (fuel : nat) (ether_type l2_len : Z) : M Z :=
  if ether_type =? ETHERTYPE_VLAN then
    match fuel with
    | O => fault_with Diverge
    | S fuel =>
        t ← ld16 (l2_len + o_vlan_len);
        vlan_loop fuel (bswap16 t) (l2_len + 4)
    end
  else mret l2_len.

Definition get_l2len (datalen datalink : Z) : M Z :=
  _ ← assertM (negb (datalen =? 0));
  let en10mb (l2_len : Z) : M Z :=
    t ← ld16 (l2_len + o_ether_type);
    l ← with_fuel (fun fuel => vlan_loop fuel (bswap16 t) l2_len);
    mret (l + TCPR_ETH_H) in
  if datalink =? DLT_RAW then mret 0
  else if datalink =? DLT_JUNIPER_ETHER then en10mb 24
  else if datalink =? DLT_EN10MB then en10mb 0
  else if datalink =? DLT_PPP_SERIAL then mret 4
  else if datalink =? DLT_C_HDLC then mret CISCO_HDLC_LEN
  else if datalink =? DLT_LINUX_SLL then mret SLL_HDR_LEN
  else fault_with (Exit (-1)).

(** ** Layer 3 (without [FORCE_ALIGN]: a pointer into the packet) *)

Definition get_ipv4 (datalen datalink : Z) : M (option Z) :=
  _ ← assertM (negb (datalen =? 0));
  l2_len ← get_l2len datalen datalink;
  if datalen <? l2_len + TCPR_IPV4_H then mret None
  else
    proto ← get_l2protocol datalen datalink;
    mret (if proto =? ETHERTYPE_IP then Some l2_len else None).

Definition get_ipv6 (datalen datalink : Z) : M (option Z) :=
  _ ← assertM (negb (datalen =? 0));
  l2_len ← get_l2len datalen datalink;
  if datalen <? l2_len + TCPR_IPV6_H then mret None
  else
    proto ← get_l2protocol datalen datalink;
    mret (if proto =? ETHERTYPE_IP6 then Some l2_len else None).

(** ** Layer 4 *)

Definition get_layer4_v4 (ip_hdr len : Z) : M (option Z) :=
  hl ← ld_ip_hl ip_hdr;
  let ptr := ip_hdr + 4 * hl in
  mret (if ip_hdr + len <? ptr then None else Some ptr).

(** [IPV6_EXTLEN_TO_BYTES] of defines.h.in *)
Definition IPV6_EXTLEN_TO_BYTES (x : Z) : Z := x * 4 + 8.

(** A signed 32-bit load, as in [*((int * )p)]. *)
Definition ld_int (o : Z) : M Z := x ← ld32 o; mret (i32 x).

Definition get_ipv6_next (exthdr len : Z) : M (option Z) :=
  maxlen ← ld_int (exthdr + len);
  let bounded (ptr : Z) : M (option Z) :=
    x ← ld_int ptr; mret (if maxlen <? x then None else Some ptr) in
  nh ← ld8 (exthdr + o_ext_nh);
  if (nh =? TCPR_IPV6_NH_NO_NEXT) || (nh =? TCPR_IPV6_NH_ESP) then mret None
  else if nh =? TCPR_IPV6_NH_FRAGMENT then bounded (exthdr + 8)
  else if (nh =? TCPR_IPV6_NH_IPV6) || (nh =? TCPR_IPV6_NH_ROUTING)
          || (nh =? TCPR_IPV6_NH_DESTOPTS) || (nh =? TCPR_IPV6_NH_HBH)
          || (nh =? TCPR_IPV6_NH_AH) then
    l ← ld8 (exthdr + o_ext_len);
    bounded (exthdr + IPV6_EXTLEN_TO_BYTES l)
  else mret (Some exthdr).

(** The extension headers on which both walks below loop again. *)
Definition ext_again (proto : Z) : bool :=
  (proto =? TCPR_IPV6_NH_AH) || (proto =? TCPR_IPV6_NH_ROUTING)
  || (proto =? TCPR_IPV6_NH_DESTOPTS) || (proto =? TCPR_IPV6_NH_HBH).

(** The loop of [get_layer4_v6]; the recursive call for v6-in-v6 restarts it
    with the inner header. *)
Fixpoint get_layer4_v6_loop (fuel : nat) (ip6_hdr next proto len : Z) : M (option Z) :=
  match fuel with
  | O => fault_with Diverge
  | S fuel =>
      if proto =? TCPR_IPV6_NH_IPV6 then
        p ← ld8 (next + o_ip6_nh);
        get_layer4_v6_loop fuel next (next + TCPR_IPV6_H) p len
      else if ext_again proto then
        let maxlen := i32 (u32 (len - (ip6_hdr - next))) in
        e ← get_ipv6_next next maxlen;
        match e with
        | None => fault_with Undef                    (* exthdr->ip_nh of NULL *)
        | Some exthdr =>
            p ← ld8 (exthdr + o_ext_nh);
            get_layer4_v6_loop fuel ip6_hdr exthdr p len
        end
      else if (proto =? TCPR_IPV6_NH_FRAGMENT) || (proto =? TCPR_IPV6_NH_ESP) then
        mret None
      else
        nh0 ← ld8 (ip6_hdr + o_ip6_nh);
        if negb (proto =? nh0) then
          l ← ld8 (next + o_ext_len);
          mret (Some (next + IPV6_EXTLEN_TO_BYTES l))
        else mret (Some next)
  end.

Definition get_layer4_v6 (ip6_hdr len : Z) : M (option Z) :=
  p ← ld8 (ip6_hdr + o_ip6_nh);
  with_fuel (fun fuel => get_layer4_v6_loop fuel ip6_hdr (ip6_hdr + TCPR_IPV6_H) p len).

Fixpoint get_ipv6_l4proto_loop (fuel : nat) (ptr proto len : Z) : M Z :=
  match fuel with
  | O => fault_with Diverge
  | S fuel =>
      if (proto =? TCPR_IPV6_NH_FRAGMENT) || (proto =? TCPR_IPV6_NH_ESP) then mret proto
      else if proto =? TCPR_IPV6_NH_IPV6 then
        p ← ld8 (ptr + o_ip6_nh);
        get_ipv6_l4proto_loop fuel (ptr + TCPR_IPV6_H) p len
      else if ext_again proto then
        e ← get_ipv6_next ptr len;
        match e with
        | None => fault_with Undef
        | Some exthdr =>
            p ← ld8 (exthdr + o_ext_nh);
            get_ipv6_l4proto_loop fuel exthdr p len
        end
      else mret proto
  end.

Definition get_ipv6_l4proto (ip6_hdr len : Z) : M Z :=
  p ← ld8 (ip6_hdr + o_ip6_nh);
  with_fuel (fun fuel => get_ipv6_l4proto_loop fuel (ip6_hdr + TCPR_IPV6_H) p len).

(** ** Stacked VLAN tags *)

(** [vlan_tags b k]: the Ethernet frame [b] carries exactly [k] 802.1q tags. *)
Definition vlan_tags (b : buf) (k : nat) : Prop :=
  (forall i, (i < k)%nat -> bswap16 (get16 b (o_ether_type + 4 * Z.of_nat i)) = ETHERTYPE_VLAN)
  /\ bswap16 (get16 b (o_ether_type + 4 * Z.of_nat k)) <> ETHERTYPE_VLAN.

Lemma vlan_loop_run b k :
  vlan_tags b k -> TCPR_ETH_H + 4 * Z.of_nat k <= blen b ->
  forall n j fuel, (k - j = n)%nat -> (j <= k)%nat -> (n < fuel)%nat ->
  vlan_loop fuel (bswap16 (get16 b (o_ether_type + 4 * Z.of_nat j))) (4 * Z.of_nat j) b
  = Ok (4 * Z.of_nat k, b).
Proof.
  intros [Htags Hend] Hlen n. induction n as [|n IH]; intros j fuel Hn Hj Hf;
    (destruct fuel as [|fuel]; [lia|]); cbn [vlan_loop].
  - assert (j = k) as -> by lia.
    destruct (Z.eqb_spec (bswap16 (get16 b (o_ether_type + 4 * Z.of_nat k))) ETHERTYPE_VLAN);
      [done|reflexivity].
  - rewrite Htags by lia. cbn [Z.eqb Pos.eqb].
    unfold mbind, M_bind, ld16, in_bounds.
    replace (_ && _) with true by lia.
    specialize (IH (S j) fuel ltac:(lia) ltac:(lia) ltac:(lia)).
    replace (4 * Z.of_nat j + 16) with (o_ether_type + 4 * Z.of_nat (S j)) by lia.
    replace (4 * Z.of_nat j + 4) with (4 * Z.of_nat (S j)) by lia. exact IH.
Qed.

Lemma get_l2len_ethernet b k datalen :
  datalen <> 0 -> vlan_tags b k -> TCPR_ETH_H + 4 * Z.of_nat k <= blen b ->
  get_l2len datalen DLT_EN10MB b = Ok (TCPR_ETH_H + 4 * Z.of_nat k, b).
Proof.
  intros Hd Ht Hlen. unfold get_l2len, assertM, mbind, M_bind, ld16, in_bounds.
  replace (negb (datalen =? 0)) with true by lia. cbn [Z.eqb Pos.eqb].
  replace ((0 <=? 0 + 12) && (0 + 12 + 2 <=? blen b)) with true by lia.
  unfold with_fuel.
  pose proof (vlan_loop_run b k Ht Hlen k 0 (S (length b)) ltac:(lia) ltac:(lia)) as Hrun.
  unfold blen in *. specialize (Hrun ltac:(lia)).
  replace (o_ether_type + 4 * Z.of_nat 0) with (0 + 12) in Hrun by lia.
  replace (4 * Z.of_nat 0) with 0 in Hrun by lia. rewrite Hrun.
  unfold mret, M_ret. do 2 f_equal. lia.
Qed.

Lemma get_l2protocol_ethernet b datalen :
  datalen <> 0 -> 18 <= blen b ->
  get_l2protocol datalen DLT_EN10MB b =
    Ok (if bswap16 (get16 b o_ether_type) =? ETHERTYPE_VLAN
        then bswap16 (get16 b o_vlan_len) else bswap16 (get16 b o_ether_type), b).
Proof.
  intros Hd Hlen. unfold get_l2protocol, assertM, mbind, M_bind, ld16, in_bounds.
  replace (negb (datalen =? 0)) with true by lia. cbn [Z.eqb Pos.eqb].
  replace ((0 <=? 0 + 12) && (0 + 12 + 2 <=? blen b)) with true by lia.
  change (0 + 12) with 12. destruct (bswap16 (get16 b 12) =? ETHERTYPE_VLAN); [|done].
  by replace ((0 <=? 16) && (16 + 2 <=? blen b)) with true by lia.
Qed.

(** [get_ipv4] on an Ethernet frame finds the IPv4 header exactly when the
    frame has at most one 802.1q tag, the innermost type is IPv4 and the frame
    is long enough; it never writes to the packet. *)
Theorem get_ipv4_ethernet b k datalen :
  datalen <> 0 -> vlan_tags b k -> datalen <= blen b ->
  TCPR_ETH_H + 4 * Z.of_nat k <= blen b ->
  get_ipv4 datalen DLT_EN10MB b =
    Ok (if (TCPR_ETH_H + 4 * Z.of_nat k + TCPR_IPV4_H <=? datalen) && (k <=? 1)%nat
           && (bswap16 (get16 b (o_ether_type + 4 * Z.of_nat k)) =? ETHERTYPE_IP)
        then Some (TCPR_ETH_H + 4 * Z.of_nat k) else None, b).
Proof.
  intros Hd Ht Hdl Hlen. unfold get_ipv4, assertM, mbind, M_bind.
  replace (negb (datalen =? 0)) with true by lia.
  rewrite (get_l2len_ethernet b k) by done.
  destruct (Z.ltb_spec datalen (14 + 4 * Z.of_nat k + 20)) as [Hs|Hs].
  { by replace (14 + 4 * Z.of_nat k + 20 <=? datalen) with false by lia. }
  replace (14 + 4 * Z.of_nat k + 20 <=? datalen) with true by lia.
  rewrite get_l2protocol_ethernet by lia. unfold mret, M_ret. do 2 f_equal.
  destruct Ht as [Ht Hend]. destruct k as [|[|k]].
  - change (12 + 4 * Z.of_nat 0) with 12 in *.
    by rewrite (proj2 (Z.eqb_neq _ _) Hend).
  - pose proof (Ht 0%nat ltac:(lia)) as H0. change (12 + 4 * Z.of_nat 0) with 12 in *.
    rewrite H0. done.
  - pose proof (Ht 0%nat ltac:(lia)) as H0. pose proof (Ht 1%nat ltac:(lia)) as H1.
    change (12 + 4 * Z.of_nat 0) with 12 in H0. change (12 + 4 * Z.of_nat 1) with 16 in H1.
    rewrite H0, Z.eqb_refl, H1, andb_false_r. done.
Qed.

(** ** Termination of the IPv6 header walks *)

Lemma get_ipv6_next_cases b e len :
  bytes_ok b ->
  match get_ipv6_next e len b with
  | Ok (Some e', b') => b' = b /\ e + 1 <= blen b
      /\ (e' = e /\ ext_again (get8 b e) = false /\ get8 b e <> TCPR_IPV6_NH_IPV6
          \/ e + 8 <= e' /\ e' + 4 <= blen b)
  | Ok (None, b') => b' = b
  | Err f => f = Oob
  end.
Proof.
  intros Hb. pose proof (get8_range b (e + 1) Hb) as Hl. unfold is_u8 in Hl.
  unfold get_ipv6_next, ld_int, mbind, M_bind, mret, M_ret, ld32, ld8, in_bounds,
    ext_again, IPV6_EXTLEN_TO_BYTES.
  rewrite Z.add_0_r.
  repeat case_match; simplify_eq; try done; repeat split; try lia; right; lia.
Qed.

Lemma get_layer4_v6_loop_terminates b ip6 len :
  bytes_ok b ->
  forall fuel next proto, next <= blen b + 40 ->
  8 * Z.of_nat fuel >= blen b - next + 48
    \/ (1 <= fuel)%nat /\ ext_again proto = false /\ proto <> TCPR_IPV6_NH_IPV6 ->
  get_layer4_v6_loop fuel ip6 next proto len b <> Err Diverge.
Proof.
  intros Hb fuel. revert ip6. induction fuel as [|fuel IH]; intros ip6 next proto Hn Hf; [lia|].
  cbn [get_layer4_v6_loop].
  destruct (Z.eqb_spec proto TCPR_IPV6_NH_IPV6) as [->|Hp].
  { unfold mbind, M_bind, ld8, in_bounds. split_if; [|discriminate].
    apply IH; lia. }
  destruct (ext_again proto) eqn:He.
  { unfold mbind at 1, M_bind.
    pose proof (get_ipv6_next_cases b next (i32 (u32 (len - (ip6 - next)))) Hb) as Hnx.
    destruct (get_ipv6_next _ _ b) as [[[e|] b']|f]; [|subst; unfold fault_with; discriminate|subst; discriminate].
    destruct Hnx as (-> & Hin & Hcase).
    unfold mbind, M_bind, ld8, in_bounds. split_if; [|discriminate].
    rewrite Z.add_0_r in *. apply IH; [lia|].
    destruct Hcase as [(-> & H1 & H2)|?]; [right; split; [lia|done]|left; lia]. }
  unfold mbind, M_bind, ld8, in_bounds. repeat split_if; discriminate.
Qed.

Lemma get_ipv6_l4proto_loop_terminates b len :
  bytes_ok b ->
  forall fuel ptr proto, ptr <= blen b + 40 ->
  8 * Z.of_nat fuel >= blen b - ptr + 48
    \/ (1 <= fuel)%nat /\ ext_again proto = false /\ proto <> TCPR_IPV6_NH_IPV6 ->
  get_ipv6_l4proto_loop fuel ptr proto len b <> Err Diverge.
Proof.
  intros Hb fuel. induction fuel as [|fuel IH]; intros ptr proto Hn Hf; [lia|].
  cbn [get_ipv6_l4proto_loop]. case_match; [done|].
  destruct (Z.eqb_spec proto TCPR_IPV6_NH_IPV6) as [->|Hp].
  { unfold mbind, M_bind, ld8, in_bounds. split_if; [|discriminate].
    apply IH; lia. }
  destruct (ext_again proto) eqn:He; [|done].
  unfold mbind at 1, M_bind. pose proof (get_ipv6_next_cases b ptr len Hb) as Hnx.
  destruct (get_ipv6_next _ _ b) as [[[e|] b']|f]; [|subst; unfold fault_with; discriminate|subst; discriminate].
  destruct Hnx as (-> & Hin & Hcase).
  unfold mbind, M_bind, ld8, in_bounds. split_if; [|discriminate].
  rewrite Z.add_0_r in *. apply IH; [lia|].
  destruct Hcase as [(-> & H1 & H2)|?]; [right; split; [lia|done]|left; lia].
Qed.

(** The two walks over IPv6 extension headers, with their recursion into
    v6-in-v6 packets, terminate on every packet, whatever its bytes:
    the fuel they are given is enough. *)
Lemma ipv6_walks_terminate b ip6_hdr len :
  bytes_ok b ->
  get_layer4_v6 ip6_hdr len b <> Err Diverge
  /\ get_ipv6_l4proto ip6_hdr len b <> Err Diverge.
Proof.
  intros Hb. unfold get_layer4_v6, get_ipv6_l4proto, with_fuel, mbind, M_bind, ld8, in_bounds.
  destruct ((0 <=? ip6_hdr + 6) && (ip6_hdr + 6 + 1 <=? blen b)) eqn:Hin; [|done].
  unfold blen in *. split;
    [apply get_layer4_v6_loop_terminates|apply get_ipv6_l4proto_loop_terminates];
    unfold blen; auto; lia.
Qed.

(** ** What the IPv6 header walks return *)

(** [k] IPv6 headers inside the one at [ip6], each the payload of the one
    before, the innermost of which announces [q]. *)
Definition nested_v6 (b : buf) (ip6 : Z) (k : nat) (q : Z) : Prop :=
  (forall i, (i < k)%nat -> get8 b (ip6 + 40 * Z.of_nat i + o_ip6_nh) = TCPR_IPV6_NH_IPV6)
  /\ get8 b (ip6 + 40 * Z.of_nat k + o_ip6_nh) = q
  /\ ip6 + 40 * Z.of_nat k + o_ip6_nh < blen b.

Lemma ld8_in b o : 0 <= o < blen b -> ld8 o b = Ok (get8 b o, b).
Proof. intros H. unfold ld8, in_bounds. split_if; [done|lia]. Qed.

(** The walks reach the innermost header. *)
Lemma nested_v6_walks b len q : forall k ip6 fuel,
  0 <= ip6 -> nested_v6 b ip6 k q -> (k < fuel)%nat ->
  let base := ip6 + 40 * Z.of_nat k in
  get_ipv6_l4proto_loop fuel (ip6 + 40) (get8 b (ip6 + o_ip6_nh)) len b
    = get_ipv6_l4proto_loop (fuel - k) (base + 40) q len b
  /\ get_layer4_v6_loop fuel ip6 (ip6 + 40) (get8 b (ip6 + o_ip6_nh)) len b
    = get_layer4_v6_loop (fuel - k) base (base + 40) q len b.
Proof.
  induction k as [|k IH]; intros ip6 fuel H0 (Hc & Hq & Hl) Hf.
  { cbv zeta. replace (ip6 + 40 * Z.of_nat 0) with ip6 in * by lia.
    rewrite Hq, Nat.sub_0_r. done. }
  destruct fuel as [|fuel]; [lia|].
  pose proof (Hc 0%nat ltac:(lia)) as Hfst.
  replace (ip6 + 40 * Z.of_nat 0) with ip6 in Hfst by lia. rewrite Hfst.
  specialize (IH (ip6 + 40) fuel ltac:(lia)). cbv zeta in IH |- *.
  replace (ip6 + 40 + 40 * Z.of_nat k) with (ip6 + 40 * Z.of_nat (S k)) in IH by lia.
  destruct IH as [IH1 IH2]; [|lia|].
  { repeat split; [|by replace (ip6 + 40 + 40 * Z.of_nat k) with (ip6 + 40 * Z.of_nat (S k)) by lia|lia].
    intros i Hi. replace (ip6 + 40 + 40 * Z.of_nat i) with (ip6 + 40 * Z.of_nat (S i)) by lia.
    apply Hc. lia. }
  cbn [get_ipv6_l4proto_loop get_layer4_v6_loop Nat.sub].
  split.
  - cbn [Z.eqb Pos.eqb orb].
    unfold mbind, M_bind. rewrite ld8_in by lia. exact IH1.
  - cbn [Z.eqb Pos.eqb].
    unfold mbind, M_bind. rewrite ld8_in by lia. exact IH2.
Qed.

(** A protocol that is none of the headers the walks know: TCP, UDP, ICMPv6
    and the like. *)
Definition upper_layer (p : Z) : bool :=
  negb (ext_again p || (p =? TCPR_IPV6_NH_IPV6) || (p =? TCPR_IPV6_NH_FRAGMENT)
        || (p =? TCPR_IPV6_NH_ESP) || (p =? TCPR_IPV6_NH_NO_NEXT)).

(** One step of the walks at an extension header, for both outcomes of the
    load at [exthdr + len]. *)
Lemma get_ipv6_next_oob b e len :
  0 <= e -> 0 <= len -> blen b < e + len + 4 -> get_ipv6_next e len b = Err Oob.
Proof.
  intros. unfold get_ipv6_next, ld_int, mbind, M_bind, ld32, in_bounds.
  split_if; [lia|done].
Qed.

Lemma get_ipv6_next_upper b e len :
  0 <= e -> 0 <= len -> e + len + 4 <= blen b -> upper_layer (get8 b e) = true ->
  get_ipv6_next e len b = Ok (Some e, b).
Proof.
  intros H1 H2 H3 Hu. unfold get_ipv6_next, ld_int, mbind, M_bind, mret, M_ret, ld32, ld8, in_bounds.
  rewrite Z.add_0_r. unfold upper_layer, ext_again in Hu.
  repeat split_if; try lia. done.
Qed.

(** The walks of a packet are those of its innermost IPv6 header, with fuel
    left for two more steps. *)
Lemma nested_v6_start b len k ip6 q :
  0 <= ip6 -> nested_v6 b ip6 k q ->
  let base := ip6 + 40 * Z.of_nat k in
  exists f, get_ipv6_l4proto ip6 len b = get_ipv6_l4proto_loop (S (S f)) (base + 40) q len b
    /\ get_layer4_v6 ip6 len b = get_layer4_v6_loop (S (S f)) base (base + 40) q len b.
Proof.
  intros H0 Hn base. destruct (Hn) as (_ & _ & Hl).
  unfold get_ipv6_l4proto, get_layer4_v6, with_fuel, mbind, M_bind.
  rewrite ld8_in by lia.
  destruct (nested_v6_walks b len q k ip6 (S (length b)) H0 Hn) as [-> ->]; [unfold blen in Hl; lia|].
  exists (length b - k - 1)%nat.
  replace (S (length b) - k)%nat with (S (S (length b - k - 1))) by (unfold blen in Hl; lia). done.
Qed.

(** C39: what the walks over IPv6 headers return, for a packet with [k] IPv6
    headers inside the first (v6 in v6), the innermost announcing [q], and [h]
    the end of that one. With no extension header ([q] is neither AH, routing,
    destination options nor hop-by-hop) the protocol is [q] and the layer-4
    header is at [h], or not there at all for a fragment or ESP. With an
    extension header at [h] the code loads an [int] at [h + len], for the
    layer-4 pointer at [h + len + 40]: when this is past the end of the
    buffer, as it is for the 65536 that edit_packet.c:205 passes, the packet
    is read out of bounds; when it is inside and the extension header
    announces an upper layer, the protocol is that one and layer 4 starts
    behind the header, by the code's own measure of its length. Longer chains
    of extension headers are not covered. *)
Theorem ipv6_walks_spec b ip6_hdr len k q :
  0 <= ip6_hdr -> 0 <= len < 2147483608 -> nested_v6 b ip6_hdr k q -> q <> TCPR_IPV6_NH_IPV6 ->
  let h := ip6_hdr + 40 * Z.of_nat k + 40 in
  (ext_again q = false ->
     get_ipv6_l4proto ip6_hdr len b = Ok (q, b)
     /\ get_layer4_v6 ip6_hdr len b
        = Ok (if (q =? TCPR_IPV6_NH_FRAGMENT) || (q =? TCPR_IPV6_NH_ESP) then None else Some h, b))
  /\ (ext_again q = true ->
     (blen b < h + len + 4 -> get_ipv6_l4proto ip6_hdr len b = Err Oob)
     /\ (blen b < h + len + 44 -> get_layer4_v6 ip6_hdr len b = Err Oob)
     /\ (upper_layer (get8 b h) = true ->
         (h + len + 4 <= blen b -> get_ipv6_l4proto ip6_hdr len b = Ok (get8 b h, b))
         /\ (h + len + 44 <= blen b ->
             get_layer4_v6 ip6_hdr len b
             = Ok (Some (h + IPV6_EXTLEN_TO_BYTES (get8 b (h + 1))), b)))).
Proof.
  intros H0 Hlen Hn Hq h.
  destruct (nested_v6_start b len k ip6_hdr q H0 Hn) as (f & -> & ->). fold h.
  destruct Hn as (_ & Hnq & Hl). apply Z.eqb_neq in Hq.
  assert (i32 (u32 (len - (ip6_hdr + 40 * Z.of_nat k - h))) = len + 40) as Hmax.
  { replace (len - (ip6_hdr + 40 * Z.of_nat k - h)) with (len + 40) by (unfold h; lia).
    unfold i32, u32. rewrite (Z.mod_small (len + 40)), Z.mod_small by lia. lia. }
  cbn [get_ipv6_l4proto_loop get_layer4_v6_loop]. rewrite Hq, Hmax.
  split; intros He; rewrite He.
  - split; [by destruct (_ || _)|]. destruct (_ || _); [done|].
    unfold mbind, M_bind. rewrite ld8_in, Hnq, Z.eqb_refl by lia. done.
  - replace ((q =? TCPR_IPV6_NH_FRAGMENT) || (q =? TCPR_IPV6_NH_ESP)) with false
      by (unfold ext_again in He; lia).
    unfold mbind, M_bind. split; [|split].
    + intros. by rewrite get_ipv6_next_oob by lia.
    + intros. by rewrite get_ipv6_next_oob by lia.
    + intros Hu. pose proof Hu as Hcases. unfold upper_layer in Hcases.
      split; intros Hb; rewrite get_ipv6_next_upper by (done || lia);
        rewrite ld8_in, Z.add_0_r by lia.
      * repeat split_if; try lia. done.
      * unfold ext_again in *. repeat split_if; try lia.
        rewrite ld8_in, Hnq by lia. split_if; [|lia]. by rewrite ld8_in by lia.
Qed.

Lemma get_ipv4_ethernet_witness :
  get_ipv4 (blen sample_tcp) DLT_EN10MB sample_tcp = Ok (Some 14, sample_tcp).
Proof.
  rewrite (get_ipv4_ethernet sample_tcp 0); [reflexivity|concrete| |concrete|concrete].
  split; [intros i Hi; lia|concrete].
Defined.

(** A TCP segment behind a hop-by-hop header, and [sample_tcp6] inside an
    IPv6 packet. *)
Definition sample_hbh6 : buf :=
  take 20 sample_tcp6 ++ [0] ++ take 33 (drop 21 sample_tcp6)
  ++ [6; 0; 1; 4; 0; 0; 0; 0] ++ drop 54 sample_tcp6.

Definition sample_v6_in_v6 : buf :=
  take 20 sample_tcp6 ++ [41] ++ take 33 (drop 21 sample_tcp6) ++ drop 14 sample_tcp6.

Lemma ipv6_walks_spec_witness :
  (get_ipv6_l4proto 14 65536 sample_hbh6 = Err Oob
   /\ get_layer4_v6 14 65535 sample_hbh6 = Err Oob
   /\ get_ipv6_l4proto 14 20 sample_hbh6 = Ok (6, sample_hbh6))
  /\ (get_ipv6_l4proto 14 65536 sample_v6_in_v6 = Ok (6, sample_v6_in_v6)
      /\ get_layer4_v6 14 65536 sample_v6_in_v6 = Ok (Some 94, sample_v6_in_v6)).
Proof.
  assert (nested_v6 sample_hbh6 14 0 TCPR_IPV6_NH_HBH) as Hhbh
    by (split; [intros i Hi; lia|concrete]).
  assert (nested_v6 sample_v6_in_v6 14 1 6) as Hin
    by (split; [intros [|i] Hi; [concrete|lia]|concrete]).
  destruct (ipv6_walks_spec sample_hbh6 14 65536 0 TCPR_IPV6_NH_HBH ltac:(lia) ltac:(lia) Hhbh ltac:(lia))
    as [_ H65536]; [].
  destruct (ipv6_walks_spec sample_hbh6 14 65535 0 TCPR_IPV6_NH_HBH ltac:(lia) ltac:(lia) Hhbh ltac:(lia))
    as [_ H65535]; [].
  destruct (ipv6_walks_spec sample_hbh6 14 20 0 TCPR_IPV6_NH_HBH ltac:(lia) ltac:(lia) Hhbh ltac:(lia))
    as [_ H20]; [].
  destruct (ipv6_walks_spec sample_v6_in_v6 14 65536 1 6 ltac:(lia) ltac:(lia) Hin ltac:(lia))
    as [Hplain _]; [].
  split; [split; [|split]|].
  - apply H65536; concrete.
  - apply H65535; concrete.
  - apply H20; concrete.
  - apply Hplain. concrete.
Defined.
