(* ===== verification/Flows.v ===== *)
(** * Flow statistics: [ddtcpreplay/src/common/flows.c]

    Each packet sent is looked up in a hash table of the flows seen so far, by
    its addresses, protocol, ports and VLAN.  The table answers as if it were the
    history of all packets; the statistics of [send_packets.c] count from it. *)

From Stdlib Require Import ZArith Lia.
From stdpp Require Import base list gmap numbers.
From S2P Require Import Prelude Samples Wire Get.

(** ** Data *)
Record flow_entry_data := {
  fe_src_ip : list Z;   (* a union of 16 bytes *)
  fe_dst_ip : list Z;
  fe_src_port : Z;
  fe_dst_port : Z;
  fe_vlan : Z;
  fe_protocol : Z
}.
#[export] Instance flow_entry_data_eq_dec : EqDecision flow_entry_data.
Proof. solve_decision. Defined.
Inductive flow_entry_type :=
  FLOW_ENTRY_INVALID | FLOW_ENTRY_NON_IP | FLOW_ENTRY_NEW | FLOW_ENTRY_EXISTING | FLOW_ENTRY_EXPIRED.
#[export] Instance flow_entry_type_eq_dec : EqDecision flow_entry_type.
Proof. solve_decision. Defined.

(** The memory of a [flow_entry_data_t]: 40 bytes, the last for padding. *)
Definition le16 (x : Z) : list Z := [u8 x; u8 (x / 256)].
Definition entry_bytes (e : flow_entry_data) : list Z :=
  fe_src_ip e ++ fe_dst_ip e ++ le16 (fe_src_port e) ++ le16 (fe_dst_port e) ++ le16 (fe_vlan e) ++ [u8 (fe_protocol e); 0].

(** The time is that of the last packet; it is not set when there is no expiry.
    A bucket is the chain from its head. *)
Record flow_hash_entry := { he_key : Z; he_data : flow_entry_data; he_ts : option Z }.
Record flow_hash_table := { num_buckets : Z; buckets : list (list flow_hash_entry) }.

Definition is_power_of_2 (n : Z) : bool := negb (n =? 0) && (Z.land n (n - 1) =? 0).
Definition flow_hash_table_init (n : Z) : res flow_hash_table :=
  if is_power_of_2 n then Ok {| num_buckets := n; buckets := repeat [] (Z.to_nat n) |} else Err (Exit (-1)).

Definition hash_step (hv c : Z) : Z :=
  let hv := u32 (hv + c) in
  let hv := u32 (hv + Z.shiftl hv 10) in
  Z.lxor hv (Z.shiftr hv 6).
Definition hash_func (key : list Z) : Z :=
  let hv := fold_left hash_step key 0 in
  let hv := u32 (hv + Z.shiftl hv 3) in
  let hv := Z.lxor hv (Z.shiftr hv 11) in
  u32 (hv + Z.shiftl hv 15).

(** ** The table *)

(** [mem]: whether there is memory for one more entry. *)
Definition hash_add_entry (mem : bool) (t : flow_hash_table) (hv key : Z) (e : flow_entry_data) (ts : option Z)
    : res (option flow_hash_table) :=
  _ ← c_assert (hv <? num_buckets t);
  if mem then
    let he := {| he_key := key; he_data := e; he_ts := ts |} in
    Ok (Some {| num_buckets := num_buckets t; buckets := alter (cons he) (Z.to_nat hv) (buckets t) |})
  else Ok None.

(** [memcmp] compares the bytes of the entries. *)
Definition same_flow (key : Z) (e : flow_entry_data) (he : flow_hash_entry) : bool :=
  (he_key he =? key) && bool_decide (entry_bytes (he_data he) = entry_bytes e).
(** The loop over a chain, and the update of the entry it stops at. *)
Fixpoint chain_find (key : Z) (e : flow_entry_data) (chain : list flow_hash_entry) : option flow_hash_entry :=
  match chain with
  | [] => None
  | he :: chain => if same_flow key e he then Some he else chain_find key e chain
  end.
Fixpoint chain_set (key : Z) (e : flow_entry_data) (ts : Z) (chain : list flow_hash_entry) : list flow_hash_entry :=
  match chain with
  | [] => []
  | he :: chain =>
      if same_flow key e he then {| he_key := he_key he; he_data := he_data he; he_ts := Some ts |} :: chain
      else he :: chain_set key e ts chain
  end.
Definition hash_put_data (mem : bool) (t : flow_hash_table) (key : Z) (e : flow_entry_data) (tv expiry : Z)
    : res (flow_entry_type * flow_hash_table) :=
  let hash_value := Z.land key (num_buckets t - 1) in
  match buckets t !! Z.to_nat hash_value with
  | None => Err Oob
  | Some chain =>
      match chain_find key e chain with
      | Some he =>
          if expiry =? 0 then Ok (FLOW_ENTRY_EXISTING, t)
          else
            match he_ts he with
            | None => Err Undef
            | Some last =>
                let t' := {| num_buckets := num_buckets t;
                             buckets := <[Z.to_nat hash_value := chain_set key e tv chain]> (buckets t) |} in
                Ok (if expiry + last <? tv then FLOW_ENTRY_EXPIRED else FLOW_ENTRY_EXISTING, t')
            end
      | None =>
          r ← hash_add_entry mem t hash_value key e (if expiry =? 0 then None else Some tv);
          match r with
          | Some t' => Ok (FLOW_ENTRY_NEW, t')
          | None => Ok (FLOW_ENTRY_INVALID, t)
          end
      end
  end.

(** ** The key of a packet *)

(** A type that is no flow, or the data of a flow. *)
Inductive decoded := NoFlow (t : flow_entry_type) | Flow (e : flow_entry_data).

(** The loop over VLAN tags: the last tag counts. *)
Fixpoint flow_vlan_loop (fuel : nat) (ether_type l2_len vlan : Z) : M (Z * Z * Z) :=
  if ether_type =? ETHERTYPE_VLAN then
    match fuel with
    | O => fault_with Diverge
    | S fuel =>
        tci ← ld16 (l2_len + o_vlan_tci);
        t ← ld16 (l2_len + o_vlan_len);
        flow_vlan_loop fuel (bswap16 t) (l2_len + 4) (Z.land tci (bswap16 4095))
    end
  else mret (ether_type, l2_len, vlan).
Definition flow_ethernet (l2_len : Z) : M (Z * Z * Z) :=
  t ← ld16 (l2_len + o_ether_type);
  '(ether_type, l2_len, vlan) ← with_fuel (fun fuel => flow_vlan_loop fuel (bswap16 t) l2_len 0);
  mret (ether_type, l2_len + TCPR_ETH_H, vlan).
(** The type, the length of layer 2 and the VLAN; [None] for other link types. *)
Definition flow_l2 (datalink : Z) : M (option (Z * Z * Z)) :=
  if datalink =? DLT_LINUX_SLL then p ← ld16 o_sll_protocol; mret (Some (p, 16, 0))
  else if datalink =? DLT_PPP_SERIAL then
    p ← ld16 o_ppp_protocol; mret (Some (if bswap16 p =? 33 then bswap16 ETHERTYPE_IP else p, 4, 0))
  else if datalink =? DLT_C_HDLC then p ← ld16 o_hdlc_protocol; mret (Some (p, 4, 0))
  else if datalink =? DLT_RAW then
    x ← ld8 0;
    mret (Some (if x / 16 =? 4 then ETHERTYPE_IP else if x / 16 =? 6 then ETHERTYPE_IP6 else 0, 0, 0))
  else if datalink =? DLT_JUNIPER_ETHER then
    _ ← ld8 0; _ ← ld8 1; _ ← ld8 2;          (* memcmp(pktdata, "MGC", 3) *)
    f ← ld8 3;
    if Z.land f 128 =? 128 then
      e ← ld16 4; r ← flow_ethernet (bswap16 e + 6); mret (Some r)
    else r ← flow_ethernet 4; mret (Some r)
  else if datalink =? DLT_EN10MB then r ← flow_ethernet 0; mret (Some r)
  else mret None.

(** Protocol, length of the IP header and addresses; [None] when it is no IP. *)
Definition flow_l3 (ether_type l2_len : Z) : M (option (Z * Z * list Z * list Z)) :=
  if ether_type =? ETHERTYPE_IP then
    v ← ld_ip_v l2_len;
    if negb (v =? 4) then mret None
    else
      hl ← ld_ip_hl l2_len;
      p ← ld8 (l2_len + o_ip_p);
      src ← ld_bytes (l2_len + o_ip_src) 4;
      dst ← ld_bytes (l2_len + o_ip_dst) 4;
      mret (Some (p, hl * 4, src ++ repeat 0 12, dst ++ repeat 0 12))
  else if ether_type =? ETHERTYPE_IP6 then
    x ← ld8 0;
    if negb (x / 16 =? 6) then mret None
    else
      nh ← ld8 (l2_len + o_ip6_nh);
      '(p, len) ← (if nh =? 0 then
                     l ← ld8 (l2_len + TCPR_IPV6_H + o_ext_len);
                     p ← ld8 (l2_len + TCPR_IPV6_H + o_ext_nh);
                     mret (p, TCPR_IPV6_H + (l + 1) * 8)
                   else mret (nh, TCPR_IPV6_H));
      src ← ld_bytes (l2_len + o_ip6_src) 16;
      dst ← ld_bytes (l2_len + o_ip6_dst) 16;
      mret (Some (p, len, src, dst))
  else mret None.
Definition flow_ports (protocol l4 : Z) : M (Z * Z) :=
  if (protocol =? IPPROTO_UDP) || (protocol =? IPPROTO_TCP) then
    s ← ld16 (l4 + o_sport); d ← ld16 (l4 + o_dport); mret (s, d)
  else if (protocol =? IPPROTO_ICMP) || (protocol =? IPPROTO_ICMP6) then
    t ← ld8 (l4 + o_icmp_type); c ← ld8 (l4 + o_icmp_code); mret (t, c)
  else mret (0, 0).
Definition flow_key (datalink : Z) : M decoded :=
  l2 ← flow_l2 datalink;
  match l2 with
  | None => mret (NoFlow FLOW_ENTRY_INVALID)
  | Some (ether_type, l2_len, vlan) =>
      l3 ← flow_l3 ether_type l2_len;
      match l3 with
      | None => mret (NoFlow FLOW_ENTRY_NON_IP)
      | Some (p, ip_len, src, dst) =>
          '(s, d) ← flow_ports p (ip_len + l2_len);
          mret (Flow {| fe_src_ip := src; fe_dst_ip := dst; fe_src_port := s; fe_dst_port := d; fe_vlan := vlan; fe_protocol := p |})
      end
  end.
Definition flow_decode (mem : bool) (t : flow_hash_table) (ts : Z) (pktdata : buf) (datalink expiry : Z)
    : res (flow_entry_type * flow_hash_table) :=
  match flow_key datalink pktdata with
  | Err f => Err f
  | Ok (NoFlow r, _) => Ok (r, t)
  | Ok (Flow e, _) => hash_put_data mem t (hash_func (entry_bytes e)) e ts expiry
  end.
Definition flow_cache_clear (t : flow_hash_table) : flow_hash_table :=
  {| num_buckets := num_buckets t; buckets := (fun _ => []) <$> buckets t |}.

(** The statistics of [update_flow_stats] (send_packets.c), which are kept for the
    whole replay and, when there is one, for the interface. *)
Record flow_stats := {
  st_flows : Z; st_flows_unique : Z; st_flow_packets : Z; st_flows_expired : Z; st_flow_non_flow_packets : Z; st_flows_invalid_packets : Z
}.
Definition no_stats : flow_stats :=
  {| st_flows := 0; st_flows_unique := 0; st_flow_packets := 0; st_flows_expired := 0; st_flow_non_flow_packets := 0; st_flows_invalid_packets := 0 |}.
Definition incr64 (b : bool) (x : Z) : Z := if b then u64 (x + 1) else x.
Definition count_flow (r : flow_entry_type) (s : flow_stats) : flow_stats :=
  let is_ t := bool_decide (r = t) in
  let new := is_ FLOW_ENTRY_NEW in let existing := is_ FLOW_ENTRY_EXISTING in let expired := is_ FLOW_ENTRY_EXPIRED in
  {| st_flows := incr64 (new || expired) (st_flows s);
     st_flows_unique := incr64 new (st_flows_unique s);
     st_flow_packets := incr64 (new || existing || expired) (st_flow_packets s);
     st_flows_expired := incr64 expired (st_flows_expired s);
     st_flow_non_flow_packets := incr64 (is_ FLOW_ENTRY_NON_IP) (st_flow_non_flow_packets s);
     st_flows_invalid_packets := incr64 (is_ FLOW_ENTRY_INVALID) (st_flows_invalid_packets s) |}.
Record flow_ctx := { fc_table : flow_hash_table; fc_stats : flow_stats; fc_sp : option flow_stats }.
Definition update_flow_stats (mem : bool) (expiry datalink : Z) (ts : Z) (pktdata : buf) (c : flow_ctx) : res flow_ctx :=
  '(r, t) ← flow_decode mem (fc_table c) ts pktdata datalink expiry;
  Ok {| fc_table := t; fc_stats := count_flow r (fc_stats c); fc_sp := count_flow r <$> fc_sp c |}.

(** ** The table is the history of the packets

    A history is the list of the keys and times of the packets, the newest first. *)
Definition history : Type := list (list Z * Z).
Fixpoint last_seen (bs : list Z) (h : history) : option Z :=
  match h with
  | [] => None
  | (k, ts) :: h => if bool_decide (k = bs) then Some ts else last_seen bs h
  end.
(** A flow is new when no packet had its key, and expired when the last one was
    more than [expiry] seconds ago.  Without memory a new flow is invalid and
    leaves no trace. *)
Definition verdict (mem : bool) (expiry : Z) (h : history) (bs : list Z) (ts : Z) : flow_entry_type :=
  match last_seen bs h with
  | None => if mem then FLOW_ENTRY_NEW else FLOW_ENTRY_INVALID
  | Some last => if negb (expiry =? 0) && (expiry + last <? ts) then FLOW_ENTRY_EXPIRED else FLOW_ENTRY_EXISTING
  end.
Definition remember (mem : bool) (h : history) (bs : list Z) (ts : Z) : history :=
  if mem || bool_decide (is_Some (last_seen bs h)) then (bs, ts) :: h else h.

Lemma power_of_2 n : 0 <= n -> is_power_of_2 n = true -> exists k, 0 <= k /\ n = 2 ^ k.
Proof.
  unfold is_power_of_2. rewrite andb_true_iff, negb_true_iff, Z.eqb_neq, Z.eqb_eq. intros Hn [H0 Hl].
  exists (Z.log2 n). split; [apply Z.log2_nonneg|]. destruct (Z.log2_spec n) as [Hlo Hhi]; [lia|].
  destruct (decide (n = 2 ^ Z.log2 n)) as [E|E]; [done|]. exfalso.
  assert (E1 : Z.log2 (n - 1) = Z.log2 n) by (apply Z.log2_unique; [apply Z.log2_nonneg|lia]).
  assert (B : Z.testbit (Z.land n (n - 1)) (Z.log2 n) = true).
  { rewrite Z.land_spec, Z.bit_log2 by lia. rewrite <- E1. apply Z.bit_log2. pose proof (Z.pow_pos_nonneg 2 (Z.log2 n)).
    pose proof (Z.log2_nonneg n). lia. }
  by rewrite Hl, Z.testbit_0_l in B.
Qed.
Lemma mask_bound n key : 0 <= n -> is_power_of_2 n = true -> 0 <= Z.land key (n - 1) < n.
Proof.
  intros Hn Hp. destruct (power_of_2 n Hn Hp) as (k & Hk & ->). replace (2 ^ k - 1) with (Z.ones k) by (rewrite Z.ones_equiv; lia).
  rewrite Z.land_ones by done. apply Z.mod_pos_bound. by apply Z.pow_pos_nonneg.
Qed.

(** Chains *)
Lemma chain_find_bytes key e e' chain : entry_bytes e = entry_bytes e' -> chain_find key e chain = chain_find key e' chain.
Proof. intros E. induction chain as [|he chain IH]; cbn; [done|]. unfold same_flow. by rewrite E, IH. Qed.
Lemma chain_find_set key e ts he chain :
  chain_find key e chain = Some he ->
  chain_find key e (chain_set key e ts chain) = Some {| he_key := he_key he; he_data := he_data he; he_ts := Some ts |}.
Proof.
  induction chain as [|x chain IH]; cbn; [done|]. destruct (same_flow key e x) eqn:E; cbn.
  - intros [= <-]. unfold same_flow in *. cbn. by rewrite E.
  - rewrite E. auto.
Qed.
Lemma chain_find_set_ne key e ts key' e' chain :
  entry_bytes e <> entry_bytes e' -> chain_find key' e' (chain_set key e ts chain) = chain_find key' e' chain.
Proof.
  intros Hne. induction chain as [|x chain IH]; cbn; [done|]. destruct (same_flow key e x) eqn:E; cbn; [|by rewrite IH].
  unfold same_flow in *. cbn. apply andb_true_iff in E as [_ E]. apply bool_decide_eq_true in E.
  rewrite E, (bool_decide_false (entry_bytes e = entry_bytes e')) by done. by rewrite andb_false_r.
Qed.

(** What the table holds of a history. *)
Definition slot (t : flow_hash_table) (bs : list Z) : nat := Z.to_nat (Z.land (hash_func bs) (num_buckets t - 1)).
Record tracks (expiry : Z) (t : flow_hash_table) (h : history) : Prop := {
  tr_nonneg : 0 <= num_buckets t;
  tr_pow : is_power_of_2 (num_buckets t) = true;
  tr_len : length (buckets t) = Z.to_nat (num_buckets t);
  tr_find e : (fun he => he_ts he) <$> (buckets t !! slot t (entry_bytes e) ≫= chain_find (hash_func (entry_bytes e)) e)
    = (fun ts => if expiry =? 0 then None else Some ts) <$> last_seen (entry_bytes e) h
}.
Lemma slot_bound expiry t h bs : tracks expiry t h -> (slot t bs < length (buckets t))%nat.
Proof.
  intros Ht. rewrite (tr_len _ _ _ Ht). unfold slot.
  pose proof (mask_bound (num_buckets t) (hash_func bs) (tr_nonneg _ _ _ Ht) (tr_pow _ _ _ Ht)). lia.
Qed.
Lemma init_tracks expiry n t : 0 <= n -> flow_hash_table_init n = Ok t -> tracks expiry t [].
Proof.
  unfold flow_hash_table_init. intros Hn. destruct (is_power_of_2 n) eqn:E; [|done]. intros [= <-]. split; cbn [num_buckets buckets].
  - done.
  - done.
  - apply repeat_length.
  - intros e. cbn [last_seen fmap option_fmap option_map]. destruct (repeat [] (Z.to_nat n) !! _) as [chain|] eqn:L; [|done]. cbn.
    apply list_elem_of_lookup_2, list_elem_of_In, repeat_spec in L as ->. done.
Qed.

Lemma find_last expiry t h e :
  tracks expiry t h ->
  exists chain, buckets t !! slot t (entry_bytes e) = Some chain
    /\ he_ts <$> chain_find (hash_func (entry_bytes e)) e chain
       = (fun ts => if expiry =? 0 then None else Some ts) <$> last_seen (entry_bytes e) h.
Proof.
  intros Ht. destruct (lookup_lt_is_Some_2 (buckets t) (slot t (entry_bytes e)) (slot_bound _ _ _ _ Ht)) as [chain L].
  exists chain. split; [done|]. pose proof (tr_find _ _ _ Ht e) as F. by rewrite L in F.
Qed.

(** Putting a chain back that answers the new history. *)
Lemma tracks_insert expiry t h bs ts chain chain' :
  tracks expiry t h -> buckets t !! slot t bs = Some chain ->
  (forall e, he_ts <$> chain_find (hash_func (entry_bytes e)) e chain'
     = if bool_decide (entry_bytes e = bs) then Some (if expiry =? 0 then None else Some ts)
       else he_ts <$> chain_find (hash_func (entry_bytes e)) e chain) ->
  tracks expiry {| num_buckets := num_buckets t; buckets := <[slot t bs := chain']> (buckets t) |} ((bs, ts) :: h).
Proof.
  intros Ht L Hc. pose proof (slot_bound _ _ _ bs Ht) as B. destruct Ht as [H1 H2 H3 H4]. split; cbn [num_buckets buckets]; try done.
  - by rewrite length_insert.
  - intros e. unfold slot in *. cbn [num_buckets last_seen]. specialize (H4 e). specialize (Hc e).
    destruct (decide (entry_bytes e = bs)) as [E|E].
    + rewrite (bool_decide_true (bs = entry_bytes e)) by done. rewrite bool_decide_true in Hc by done. rewrite <- E in *.
      rewrite list_lookup_insert_eq by done. cbn. exact Hc.
    + rewrite (bool_decide_false (bs = entry_bytes e)) by congruence. rewrite bool_decide_false in Hc by done. rewrite <- H4.
      destruct (decide (Z.to_nat (Z.land (hash_func bs) (num_buckets t - 1))
        = Z.to_nat (Z.land (hash_func (entry_bytes e)) (num_buckets t - 1)))) as [S|S].
      * rewrite <- S in *. rewrite list_lookup_insert_eq, L by done. cbn. exact Hc.
      * by rewrite list_lookup_insert_ne.
Qed.

Lemma alter_is_insert {A} (f : A -> A) i x (l : list A) : l !! i = Some x -> alter f i l = <[i := f x]> l.
Proof. revert i. induction l as [|y l IH]; intros [|i]; cbn; [done..|congruence|]. intros H. f_equal. by apply IH. Qed.

(** One packet: the table answers as the history does, and goes on to. *)
Lemma hash_put_ok mem expiry t h e ts :
  tracks expiry t h ->
  exists t', hash_put_data mem t (hash_func (entry_bytes e)) e ts expiry = Ok (verdict mem expiry h (entry_bytes e) ts, t')
    /\ tracks expiry t' (remember mem h (entry_bytes e) ts).
Proof.
  intros Ht. destruct (find_last expiry t h e Ht) as (chain & L & F). unfold hash_put_data, verdict, remember.
  change (Z.to_nat (Z.land _ _)) with (slot t (entry_bytes e)). rewrite L.
  destruct (chain_find _ e chain) as [he|] eqn:C; destruct (last_seen (entry_bytes e) h) as [last|] eqn:Ls; cbn in F; try discriminate.
  - injection F as F. rewrite bool_decide_true, orb_true_r by done. destruct (expiry =? 0) eqn:X; cbn [negb andb].
    + exists t. split; [done|]. pose proof (tracks_insert expiry t h (entry_bytes e) ts chain chain Ht L) as P.
      rewrite list_insert_id in P by done. destruct t. apply P. intros e'. case_bool_decide as E; [|done].
      rewrite E. rewrite (chain_find_bytes _ e' e) by done. rewrite C. cbn. by rewrite F, X.
    + rewrite F. eexists. split; [reflexivity|]. apply (tracks_insert expiry t h _ ts chain); [done..|]. intros e'.
      case_bool_decide as E.
      * rewrite E, (chain_find_bytes _ e' e), (chain_find_set _ _ _ he) by done. by rewrite X.
      * by rewrite chain_find_set_ne by congruence.
  - unfold hash_add_entry. pose proof (mask_bound (num_buckets t) (hash_func (entry_bytes e)) (tr_nonneg _ _ _ Ht) (tr_pow _ _ _ Ht)).
    rewrite (proj2 (Z.ltb_lt _ _)) by lia. destruct mem; cbn; [|by exists t]. eexists. split; [reflexivity|].
    change (Z.to_nat (Z.land _ _)) with (slot t (entry_bytes e)).
    rewrite (alter_is_insert _ _ chain) by done.
    apply (tracks_insert expiry t h _ ts chain); [done..|]. intros e'. cbn [chain_find]. unfold same_flow. cbn [he_key he_data].
    destruct (decide (entry_bytes e' = entry_bytes e)) as [E|E].
    + rewrite E, Z.eqb_refl, !bool_decide_true by done. cbn. by destruct (expiry =? 0).
    + rewrite !bool_decide_false by congruence. by rewrite andb_false_r.
Qed.

(** ** Runs

    A packet comes with its time and whether there is memory for it. *)
Record packet := { pk_mem : bool; pk_ts : Z; pk_data : buf }.
Fixpoint replay_flows (expiry datalink : Z) (c : flow_ctx) (pkts : list packet) : res flow_ctx :=
  match pkts with
  | [] => Ok c
  | p :: pkts =>
      c ← update_flow_stats (pk_mem p) expiry datalink (pk_ts p) (pk_data p) c;
      replay_flows expiry datalink c pkts
  end.
(** What the packet decodes to. *)
Definition decodes (datalink : Z) (p : packet) (d : decoded) : Prop := exists b, flow_key datalink (pk_data p) = Ok (d, b).

(** The types of the packets of a run, from their history alone. *)
Fixpoint verdicts (expiry : Z) (h : history) (pkts : list packet) (ds : list decoded) : list flow_entry_type :=
  match pkts, ds with
  | p :: pkts, NoFlow r :: ds => r :: verdicts expiry h pkts ds
  | p :: pkts, Flow e :: ds =>
      verdict (pk_mem p) expiry h (entry_bytes e) (pk_ts p)
      :: verdicts expiry (remember (pk_mem p) h (entry_bytes e) (pk_ts p)) pkts ds
  | _, _ => []
  end.
Definition how_many (r : flow_entry_type) (vs : list flow_entry_type) : Z := Z.of_nat (length (filter (fun v => v = r) vs)).
Definition tally (vs : list flow_entry_type) : flow_stats :=
  let new := how_many FLOW_ENTRY_NEW vs in let expired := how_many FLOW_ENTRY_EXPIRED vs in
  {| st_flows := new + expired; st_flows_unique := new;
     st_flow_packets := new + how_many FLOW_ENTRY_EXISTING vs + expired;
     st_flows_expired := expired;
     st_flow_non_flow_packets := how_many FLOW_ENTRY_NON_IP vs;
     st_flows_invalid_packets := how_many FLOW_ENTRY_INVALID vs |}.

Lemma flow_decode_ok expiry datalink t h p d :
  tracks expiry t h -> decodes datalink p d ->
  exists r t' h', flow_decode (pk_mem p) t (pk_ts p) (pk_data p) datalink expiry = Ok (r, t') /\ tracks expiry t' h'
    /\ forall pkts ds, verdicts expiry h (p :: pkts) (d :: ds) = r :: verdicts expiry h' pkts ds.
Proof.
  intros Ht [b D]. unfold flow_decode. rewrite D. destruct d as [r|e].
  - by exists r, t, h.
  - destruct (hash_put_ok (pk_mem p) expiry t h e (pk_ts p) Ht) as (t' & -> & Ht'). by eexists _, t', _.
Qed.
Lemma replay_flows_ok expiry datalink pkts ds t h s sp :
  Forall2 (decodes datalink) pkts ds -> tracks expiry t h ->
  exists t' h', tracks expiry t' h' /\
    let count := fun s => fold_left (fun s r => count_flow r s) (verdicts expiry h pkts ds) s in
    replay_flows expiry datalink {| fc_table := t; fc_stats := s; fc_sp := sp |} pkts
    = Ok {| fc_table := t'; fc_stats := count s; fc_sp := count <$> sp |}.
Proof.
  intros F. revert t h s sp. induction F as [|p d pkts ds D F IH]; intros t h s sp Ht.
  - exists t, h. split; [done|]. cbn. by destruct sp.
  - destruct (flow_decode_ok expiry datalink t h p d Ht D) as (r & t1 & h1 & E & Ht1 & V).
    destruct (IH t1 h1 (count_flow r s) (count_flow r <$> sp) Ht1) as (t2 & h2 & Ht2 & R). exists t2, h2. split; [done|].
    rewrite V. cbn [replay_flows fold_left]. unfold update_flow_stats. cbn [fc_table]. rewrite E. cbn. rewrite R. by destruct sp.
Qed.

Ltac flow_cases v :=
  destruct v; repeat first [rewrite bool_decide_true by reflexivity | rewrite bool_decide_false by discriminate].
Lemma how_many_snoc r vs v : how_many r (vs ++ [v]) = how_many r vs + (if bool_decide (v = r) then 1 else 0).
Proof. unfold how_many. rewrite list.filter_app, length_app. case_bool_decide; [rewrite list.filter_cons_True by done|rewrite list.filter_cons_False by done]; cbn; lia. Qed.
Lemma how_many_sum vs :
  how_many FLOW_ENTRY_NEW vs + how_many FLOW_ENTRY_EXPIRED vs + how_many FLOW_ENTRY_EXISTING vs
  + how_many FLOW_ENTRY_NON_IP vs + how_many FLOW_ENTRY_INVALID vs = Z.of_nat (length vs).
Proof. induction vs as [|v vs IH] using rev_ind; [done|]. rewrite !how_many_snoc, length_app. cbn [length]. flow_cases v; lia. Qed.
Lemma how_many_bound r vs : 0 <= how_many r vs <= Z.of_nat (length vs).
Proof. pose proof (how_many_sum vs). unfold how_many in *. destruct r; lia. Qed.
Lemma count_flow_tally vs :
  Z.of_nat (length vs) < 2 ^ 64 -> fold_left (fun s r => count_flow r s) vs no_stats = tally vs.
Proof.
  induction vs as [|v vs IH] using rev_ind; [done|]. rewrite length_app, fold_left_app. cbn [length fold_left]. intros Hb.
  rewrite IH by lia. pose proof (how_many_sum vs) as S.
  pose proof (fun r => how_many_bound r vs) as B.
  pose proof (B FLOW_ENTRY_NEW). pose proof (B FLOW_ENTRY_EXPIRED). pose proof (B FLOW_ENTRY_EXISTING).
  pose proof (B FLOW_ENTRY_NON_IP). pose proof (B FLOW_ENTRY_INVALID). clear B.
  unfold tally, count_flow. rewrite !how_many_snoc.
  flow_cases v; cbn -[how_many Z.add]; f_equal; unfold u64; rewrite ?Z.mod_small by lia; lia.
Qed.

(** ** Counting flows *)
Definition flow_keys (ds : list decoded) : list (list Z) :=
  omap (fun d => match d with Flow e => Some (entry_bytes e) | NoFlow _ => None end) ds.
Definition seen (l : list (list Z)) : gset (list Z) := list_to_set l.

Lemma last_seen_None bs h : last_seen bs h = None <-> bs ∉ h.*1.
Proof.
  induction h as [|[k ts] h IH]; cbn; [by split; [intros _ ?%elem_of_nil|]|]. rewrite not_elem_of_cons. case_bool_decide as E.
  - split; [done|]. intros [? _]. congruence.
  - rewrite IH. split; [intros ?; split; [congruence|done]|by intros [_ ?]].
Qed.
Lemma how_many_cons r v vs : how_many r (v :: vs) = (if bool_decide (v = r) then 1 else 0) + how_many r vs.
Proof. unfold how_many. case_bool_decide; [rewrite list.filter_cons_True by done|rewrite list.filter_cons_False by done]; cbn; lia. Qed.
Definition flow_packets_in (vs : list flow_entry_type) : Z :=
  how_many FLOW_ENTRY_NEW vs + how_many FLOW_ENTRY_EXISTING vs + how_many FLOW_ENTRY_EXPIRED vs.
(** A packet that is no flow is so for lack of IP or of a known link type. *)
Definition no_flow_type (d : decoded) : Prop :=
  match d with NoFlow r => r = FLOW_ENTRY_INVALID \/ r = FLOW_ENTRY_NON_IP | Flow _ => True end.
Lemma flow_key_type datalink p d : decodes datalink p d -> no_flow_type d.
Proof.
  intros [b E]. revert E. unfold flow_key, mbind, M_bind.
  destruct (flow_l2 datalink (pk_data p)) as [[[[[et l2] vl]|] b1]|f]; [|by intros [= <- <-]; left|done].
  destruct (flow_l3 et l2 b1) as [[[[[[pr il] src] dst]|] b2]|f]; [|by intros [= <- <-]; right|done].
  destruct (flow_ports pr (il + l2) b2) as [[[s' d'] b3]|f]; [|done]. by intros [= <- <-].
Qed.
Lemma never_expired h pkts ds : Forall no_flow_type ds -> how_many FLOW_ENTRY_EXPIRED (verdicts 0 h pkts ds) = 0.
Proof.
  intros F. revert pkts h. induction F as [|d ds Hd F IH]; intros [|p pkts] h; try done.
  destruct d as [r|e]; cbn [verdicts]; rewrite how_many_cons, IH.
  - destruct Hd as [-> | ->]; by rewrite bool_decide_false.
  - unfold verdict. cbn. destruct (last_seen _ _), (pk_mem p); by rewrite bool_decide_false.
Qed.
Lemma verdicts_count expiry pkts ds h :
  length pkts = length ds -> Forall (fun p => pk_mem p = true) pkts -> Forall no_flow_type ds ->
  how_many FLOW_ENTRY_NEW (verdicts expiry h pkts ds) + Z.of_nat (size (seen (h.*1)))
    = Z.of_nat (size (seen (flow_keys ds ++ h.*1)))
  /\ flow_packets_in (verdicts expiry h pkts ds) = Z.of_nat (length (flow_keys ds)).
Proof.
  revert ds h. induction pkts as [|p pkts IH]; intros [|d ds] h; try done.
  intros [= L] Hp Hq. apply Forall_cons_iff in Hp as [Hm Hms]. apply Forall_cons_iff in Hq as [Hd Hds]. destruct d as [r|e].
  - cbn [verdicts]. unfold flow_packets_in. rewrite !how_many_cons. destruct (IH ds h L Hms Hds) as [I1 I2].
    unfold flow_packets_in in I2. change (flow_keys (NoFlow r :: ds)) with (flow_keys ds).
    destruct Hd as [-> | ->]; rewrite !bool_decide_false by discriminate; lia.
  - cbn [verdicts]. rewrite Hm. change (remember true h (entry_bytes e) (pk_ts p)) with ((entry_bytes e, pk_ts p) :: h).
    destruct (IH ds ((entry_bytes e, pk_ts p) :: h) L Hms Hds) as [I1 I2]. unfold flow_packets_in in *. rewrite !how_many_cons.
    change (flow_keys (Flow e :: ds)) with (entry_bytes e :: flow_keys ds). cbn [fmap list_fmap fst length] in *.
    assert (Hs : seen (flow_keys ds ++ entry_bytes e :: h.*1) = seen ((entry_bytes e :: flow_keys ds) ++ h.*1)) by (unfold seen; set_solver).
    rewrite <- Hs. unfold verdict. destruct (last_seen (entry_bytes e) h) eqn:E.
    + assert (Hh : seen (entry_bytes e :: h.*1) = seen (h.*1)).
      { assert (entry_bytes e ∈ h.*1) by (apply dec_stable; rewrite <- last_seen_None; congruence). unfold seen. set_solver. }
      rewrite Hh in I1. destruct (negb _ && _); repeat first [rewrite bool_decide_true by reflexivity | rewrite bool_decide_false by discriminate]; lia.
    + apply last_seen_None in E. unfold seen in I1. cbn [list_to_set] in I1. rewrite size_union, size_singleton in I1 by set_solver.
      unfold seen. repeat first [rewrite bool_decide_true by reflexivity | rewrite bool_decide_false by discriminate]. lia.
Qed.

(** ** Decoding *)

(** The VLAN of the innermost of [k] tags, in network order. *)
Definition tag_vlan (b : buf) (k : nat) : Z :=
  match k with O => 0 | S j => Z.land (get16 b (o_vlan_tci + 4 * Z.of_nat j)) (bswap16 4095) end.
Lemma flow_vlan_loop_run b k n j fuel :
  vlan_tags b k -> TCPR_ETH_H + 4 * Z.of_nat k <= blen b -> (k - j = n)%nat -> (j <= k)%nat -> (n < fuel)%nat ->
  flow_vlan_loop fuel (bswap16 (get16 b (o_ether_type + 4 * Z.of_nat j))) (4 * Z.of_nat j) (tag_vlan b j) b
  = Ok (bswap16 (get16 b (o_ether_type + 4 * Z.of_nat k)), 4 * Z.of_nat k, tag_vlan b k, b).
Proof.
  intros [Htags Hend] Hlen. revert j fuel. induction n as [|n IH]; intros j fuel Hn Hj Hf;
    (destruct fuel as [|fuel]; [lia|]); cbn [flow_vlan_loop].
  - assert (j = k) as -> by lia. by rewrite (proj2 (Z.eqb_neq _ _) Hend).
  - rewrite Htags by lia. rewrite Z.eqb_refl. specialize (IH (S j) fuel ltac:(lia) ltac:(lia) ltac:(lia)).
    unfold mbind, M_bind, ld16, in_bounds.
    replace (_ && _) with true by lia. replace (_ && _) with true by lia.
    replace (4 * Z.of_nat j + 16) with (o_ether_type + 4 * Z.of_nat (S j)) by lia.
    replace (4 * Z.of_nat j + 4) with (4 * Z.of_nat (S j)) by lia.
    replace (4 * Z.of_nat j + 14) with (o_vlan_tci + 4 * Z.of_nat j) by lia. exact IH.
Qed.
Lemma flow_l2_ethernet b k :
  vlan_tags b k -> TCPR_ETH_H + 4 * Z.of_nat k <= blen b ->
  flow_l2 DLT_EN10MB b
  = Ok (Some (bswap16 (get16 b (o_ether_type + 4 * Z.of_nat k)), TCPR_ETH_H + 4 * Z.of_nat k, tag_vlan b k), b).
Proof.
  intros Ht Hlen. unfold flow_l2, flow_ethernet. cbn [Z.eqb Pos.eqb]. unfold mbind, M_bind, ld16, in_bounds, with_fuel.
  replace (_ && _) with true by lia. 
  pose proof (flow_vlan_loop_run b k k 0 (S (length b)) Ht Hlen ltac:(lia) ltac:(lia)) as R. unfold blen in *. specialize (R ltac:(lia)).
  change (0 + 12) with (o_ether_type + 4 * Z.of_nat 0). change (flow_vlan_loop _ _ 0 0 b) with
    (flow_vlan_loop (S (length b)) (bswap16 (get16 b (o_ether_type + 4 * Z.of_nat 0))) (4 * Z.of_nat 0) (tag_vlan b 0) b).
  rewrite R. unfold mret, M_ret. do 4 f_equal. f_equal. lia.
Qed.

Lemma wp_exact {A} (m : M A) b a : wp m (fun a' b' => (a', b') = (a, b)) b -> m b = Ok (a, b).
Proof. rewrite wp_run. intros (a' & b' & -> & E). by injection E as -> ->. Qed.

(** The flow of an IPv4 packet with its header at [h]. *)
Definition ipv4_flow (b : buf) (h vlan : Z) : flow_entry_data :=
  let l4 := h + ip_hl b h * 4 in
  {| fe_src_ip := slice b (h + o_ip_src) 4 ++ repeat 0 12;
     fe_dst_ip := slice b (h + o_ip_dst) 4 ++ repeat 0 12;
     fe_src_port := get16 b (l4 + o_sport);
     fe_dst_port := get16 b (l4 + o_dport);
     fe_vlan := vlan;
     fe_protocol := ip_p b h |}.
Lemma flow_l3_ipv4 b h :
  0 <= h -> h + TCPR_IPV4_H <= blen b -> ip_v b h = 4 ->
  flow_l3 ETHERTYPE_IP h b
  = Ok (Some (ip_p b h, ip_hl b h * 4, slice b (h + o_ip_src) 4 ++ repeat 0 12, slice b (h + o_ip_dst) 4 ++ repeat 0 12), b).
Proof.
  intros Hh Hb Hv. apply wp_exact. unfold flow_l3. cbn [Z.eqb Pos.eqb].
  apply wp_bind, wp_ld_ip_v; [lia|lia|]. rewrite Hv. cbn [Z.eqb Pos.eqb negb]. apply wp_bind, wp_ld_ip_hl; [lia|lia|]. wp_steps. done.
Qed.
Lemma flow_ports_ok b p l4 :
  p = IPPROTO_TCP \/ p = IPPROTO_UDP -> 0 <= l4 -> l4 + 4 <= blen b ->
  flow_ports p l4 b = Ok ((get16 b (l4 + o_sport), get16 b (l4 + o_dport)), b).
Proof. intros Hp Hl Hb. apply wp_exact. unfold flow_ports. by destruct Hp as [-> | ->]; cbn [Z.eqb Pos.eqb orb]; wp_steps. Qed.

(** A TCP or UDP packet over IPv4 in an Ethernet frame with [k] 802.1q tags. *)
Record ports_frame (b : buf) (k : nat) (h : Z) : Prop := {
  pf_bytes : bytes_ok b;
  pf_h : h = TCPR_ETH_H + 4 * Z.of_nat k;
  pf_tags : vlan_tags b k;
  pf_type : bswap16 (get16 b (o_ether_type + 4 * Z.of_nat k)) = ETHERTYPE_IP;
  pf_v : ip_v b h = 4;
  pf_p : ip_p b h = IPPROTO_TCP \/ ip_p b h = IPPROTO_UDP;
  pf_ip : h + TCPR_IPV4_H <= blen b;
  pf_l4 : h + ip_hl b h * 4 + 4 <= blen b
}.
Lemma ports_frame_key b k h : ports_frame b k h -> flow_key DLT_EN10MB b = Ok (Flow (ipv4_flow b h (tag_vlan b k)), b).
Proof.
  intros [Hby -> Ht He Hv Hp Hb Hb']. pose proof (ip_hl_range b (TCPR_ETH_H + 4 * Z.of_nat k)).
  unfold flow_key, mbind, M_bind.
  rewrite (flow_l2_ethernet b k) by (done || lia). rewrite He, flow_l3_ipv4 by (done || lia).
  rewrite flow_ports_ok by (done || lia). unfold mret, M_ret, ipv4_flow. by rewrite (Z.add_comm (_ * 4)).
Qed.
(** What identifies its flow. *)
Definition five_tuple (b : buf) (k : nat) (h : Z) : list Z * list Z * Z * Z * Z * Z :=
  let l4 := h + ip_hl b h * 4 in
  (slice b (h + o_ip_src) 4, slice b (h + o_ip_dst) 4, get16 b (l4 + o_sport), get16 b (l4 + o_dport), tag_vlan b k, ip_p b h).

Record entry_ok (e : flow_entry_data) : Prop := {
  eo_src : length (fe_src_ip e) = 16%nat;
  eo_dst : length (fe_dst_ip e) = 16%nat;
  eo_sport : is_u16 (fe_src_port e);
  eo_dport : is_u16 (fe_dst_port e);
  eo_vlan : is_u16 (fe_vlan e);
  eo_proto : is_u8 (fe_protocol e)
}.
Lemma le16_inj x y : is_u16 x -> is_u16 y -> le16 x = le16 y -> x = y.
Proof. unfold le16, u8, is_u16. intros Hx Hy [= H1 H2]. dlia. Qed.
(** The bytes of an entry tell its fields. *)
Lemma entry_bytes_inj e e' : entry_ok e -> entry_ok e' -> entry_bytes e = entry_bytes e' -> e = e'.
Proof.
  intros [H1 H2 H3 H4 H5 H6] [I1 I2 I3 I4 I5 I6]. destruct e, e'. unfold entry_bytes. cbn -[le16] in *. intros E.
  apply app_inj_1 in E as [-> E]; [|congruence]. apply app_inj_1 in E as [-> E]; [|congruence].
  do 3 (apply app_inj_1 in E as [?%le16_inj E]; [|done..]). injection E as E. unfold u8, is_u8 in *.
  rewrite !Z.mod_small in E by lia. by subst.
Qed.
Lemma tag_vlan_range b k : is_u16 (tag_vlan b k).
Proof.
  destruct k as [|j]; [done|]. cbn [tag_vlan]. change (bswap16 4095) with (Z.land 65295 (Z.ones 16)).
  rewrite Z.land_assoc, Z.land_ones by lia. apply u16_range.
Qed.
Lemma ports_frame_ok b k h : ports_frame b k h -> entry_ok (ipv4_flow b h (tag_vlan b k)).
Proof.
  intros [Hby -> Ht He Hv Hp Hb Hb'].
  assert (L : forall o, 0 <= o -> o + 4 <= blen b -> length (slice b o 4 ++ repeat 0 12) = 16%nat).
  { intros o H1 H2. pose proof (blen_slice b o 4 H1 ltac:(lia) H2) as L. unfold blen in L. rewrite length_app. cbn. lia. }
  split; cbn -[slice repeat tag_vlan]; [apply L; lia|apply L; lia| | | |].
  all: auto using get16_range, tag_vlan_range. by apply get8_range.
Qed.

(** C32: TCP and UDP packets over IPv4, in Ethernet frames with any number of 802.1q
    tags, are decoded without a fault, and two of them have the same entry in the
    table exactly when their addresses, ports, protocol and innermost VLAN agree,
    whatever else they carry. *)
Theorem flow_is_five_tuple b k h b' k' h' :
  ports_frame b k h -> ports_frame b' k' h' ->
  exists e e', flow_key DLT_EN10MB b = Ok (Flow e, b) /\ flow_key DLT_EN10MB b' = Ok (Flow e', b')
    /\ (entry_bytes e = entry_bytes e' <-> five_tuple b k h = five_tuple b' k' h').
Proof.
  intros P P'. exists (ipv4_flow b h (tag_vlan b k)), (ipv4_flow b' h' (tag_vlan b' k')).
  split; [by apply ports_frame_key|]. split; [by apply ports_frame_key|]. split.
  - intros E. apply entry_bytes_inj in E; [|by apply ports_frame_ok..]. unfold ipv4_flow in E. injection E as E1 E2 E3 E4 E5 E6.
    apply app_inj_2 in E1 as [E1 _]; [|done]. apply app_inj_2 in E2 as [E2 _]; [|done]. unfold five_tuple. congruence.
  - unfold five_tuple. intros E. injection E as E1 E2 E3 E4 E5 E6. unfold ipv4_flow. by rewrite E1, E2, E3, E4, E5, E6.
Qed.

Definition start_flows (t : flow_hash_table) : flow_ctx := {| fc_table := t; fc_stats := no_stats; fc_sp := Some no_stats |}.
Lemma decodes_length datalink pkts ds : Forall2 (decodes datalink) pkts ds -> length pkts = length ds.
Proof. apply Forall2_length. Qed.
Lemma verdicts_length expiry h pkts ds : length pkts = length ds -> length (verdicts expiry h pkts ds) = length pkts.
Proof. revert h ds. induction pkts as [|p pkts IH]; intros h [|[r|e] ds]; cbn; auto. Qed.
Lemma replay_tally n expiry datalink pkts ds :
  0 <= n -> is_power_of_2 n = true -> Forall2 (decodes datalink) pkts ds -> Z.of_nat (length pkts) < 2 ^ 64 ->
  exists t t', flow_hash_table_init n = Ok t
    /\ let s := tally (verdicts expiry [] pkts ds) in
       replay_flows expiry datalink (start_flows t) pkts = Ok {| fc_table := t'; fc_stats := s; fc_sp := Some s |}.
Proof.
  intros Hn Hp F L. pose proof (decodes_length _ _ _ F) as E. pose proof (init_tracks expiry n) as I. unfold flow_hash_table_init in *. rewrite Hp in *.
  destruct (replay_flows_ok expiry datalink pkts ds _ [] no_stats (Some no_stats) F (I _ Hn eq_refl)) as (t' & h & _ & R).
  eexists _, t'. split; [done|]. cbn [fmap option_fmap option_map] in R.
  rewrite count_flow_tally in R by (by rewrite verdicts_length). exact R.
Qed.

(** C31: the table of flows refines the history of the packets: for every size that
    is a power of two, every expiry time and every sequence of packets that decode,
    the replay runs to its end without a fault and its statistics, of the replay and
    of the interface, count each packet as its history alone judges it: a flow is new
    when no packet had its key, expired when the last one is longer ago than the
    expiry time, and a packet that finds no memory is invalid and leaves no trace.
    Neither hashes nor collisions show. *)
Theorem flow_table_refines_history n expiry datalink pkts ds :
  0 <= n -> is_power_of_2 n = true -> Forall2 (decodes datalink) pkts ds -> Z.of_nat (length pkts) < 2 ^ 64 ->
  exists t t', flow_hash_table_init n = Ok t
    /\ let s := tally (verdicts expiry [] pkts ds) in
       replay_flows expiry datalink (start_flows t) pkts = Ok {| fc_table := t'; fc_stats := s; fc_sp := Some s |}.
Proof. apply replay_tally. Qed.

(** With memory for every flow, the statistics are those of the packets: the
    unique flows are the distinct keys, the flow packets those that have a key, every
    packet is counted once as flow, non-flow or invalid, and the flows are the unique
    ones and the expired ones; without an expiry time no flow expires. *)
Theorem flow_statistics n expiry datalink pkts ds :
  0 <= n -> is_power_of_2 n = true -> Forall2 (decodes datalink) pkts ds -> Z.of_nat (length pkts) < 2 ^ 64 ->
  Forall (fun p => pk_mem p = true) pkts ->
  exists t c, flow_hash_table_init n = Ok t /\ replay_flows expiry datalink (start_flows t) pkts = Ok c
    /\ let s := fc_stats c in
       st_flows_unique s = Z.of_nat (size (seen (flow_keys ds)))
       /\ st_flow_packets s = Z.of_nat (length (flow_keys ds))
       /\ st_flow_packets s + st_flow_non_flow_packets s + st_flows_invalid_packets s = Z.of_nat (length pkts)
       /\ st_flows s = st_flows_unique s + st_flows_expired s
       /\ (expiry = 0 -> st_flows_expired s = 0).
Proof.
  intros Hn Hp F L M. destruct (replay_tally n expiry datalink pkts ds Hn Hp F L) as (t & t' & I & R).
  exists t. eexists. split; [exact I|]. split; [exact R|]. cbn -[how_many verdicts]. pose proof (decodes_length _ _ _ F) as E.
  assert (Fn : Forall no_flow_type ds) by (clear -F; induction F; constructor; eauto using flow_key_type).
  destruct (verdicts_count expiry pkts ds [] E M Fn) as [C1 C2].
  cbn [fmap list_fmap] in C1. rewrite app_nil_r in C1. unfold flow_packets_in in C2.
  unfold seen at 1 in C1. cbn [list_to_set] in C1. rewrite size_empty in C1.
  pose proof (how_many_sum (verdicts expiry [] pkts ds)) as S. rewrite verdicts_length in S by done.
  split; [|split; [|split; [|split; [done|]]]]; [lia..|]. intros ->. apply never_expired, Fn.
Qed.

(** ** Packets the decoder does not know *)

(** A frame that says it carries IPv4, of the link types without Ethernet header,
    or an Ethernet frame that says it carries IPv6 to an address whose first digit
    is not 6. *)
Inductive unseen_ip (b : buf) : Z -> Prop :=
| unseen_sll : 16 <= blen b -> bswap16 (get16 b o_sll_protocol) = ETHERTYPE_IP -> unseen_ip b DLT_LINUX_SLL
| unseen_ppp : 4 <= blen b -> bswap16 (get16 b o_ppp_protocol) = 33 -> unseen_ip b DLT_PPP_SERIAL
| unseen_hdlc : 4 <= blen b -> bswap16 (get16 b o_hdlc_protocol) = ETHERTYPE_IP -> unseen_ip b DLT_C_HDLC
| unseen_ip6 k : vlan_tags b k -> TCPR_ETH_H + 4 * Z.of_nat k <= blen b ->
    bswap16 (get16 b (o_ether_type + 4 * Z.of_nat k)) = ETHERTYPE_IP6 -> get8 b 0 / 16 <> 6 -> unseen_ip b DLT_EN10MB.

Lemma wrong_order b o l2 : bytes_ok b -> bswap16 (get16 b o) = ETHERTYPE_IP -> flow_l3 (get16 b o) l2 b = Ok (None, b).
Proof.
  intros Hb E. assert (get16 b o = 8) as ->; [|done]. rewrite <- (bswap16_involutive (get16 b o)) by (by apply get16_range). by rewrite E.
Qed.
Lemma unseen_decode datalink b : bytes_ok b -> unseen_ip b datalink -> flow_key datalink b = Ok (NoFlow FLOW_ENTRY_NON_IP, b).
Proof.
  intros Hb [L E|L E|L E|k T L E V]; unfold flow_key, mbind, M_bind.
  4: { rewrite (flow_l2_ethernet b k) by done. rewrite E. unfold flow_l3, mbind, M_bind, ld8, in_bounds. cbn [Z.eqb Pos.eqb].
       replace (_ && _) with true by lia. by rewrite (proj2 (Z.eqb_neq _ _) V). }
  all: unfold flow_l2, mbind, M_bind, ld16, in_bounds; cbn [Z.eqb Pos.eqb]; replace (_ && _) with true by lia.
  - unfold mret, M_ret. by rewrite wrong_order.
  - unfold mret, M_ret. by rewrite E.
  - unfold mret, M_ret. by rewrite wrong_order.
Qed.

(** C33: frames of Linux cooked capture, PPP and HDLC that carry IPv4 are never
    flows, because their type is compared in the wrong byte order, and an IPv6
    packet in an Ethernet frame is none unless the destination address of the
    frame begins with the digit 6, because the version is read from the first byte
    of the frame: all are counted as non-IP packets and leave the table alone. *)
Theorem ip_frames_not_flows mem expiry datalink ts b c :
  bytes_ok b -> unseen_ip b datalink ->
  exists c', update_flow_stats mem expiry datalink ts b c = Ok c' /\ fc_table c' = fc_table c
    /\ fc_stats c' = count_flow FLOW_ENTRY_NON_IP (fc_stats c).
Proof.
  intros Hb U. unfold update_flow_stats, flow_decode. rewrite (unseen_decode datalink b Hb U). cbn. eauto.
Qed.

(** ** Samples *)
Definition pkt (ts : Z) (b : buf) : packet := {| pk_mem := true; pk_ts := ts; pk_data := b |}.
(** TCP, UDP, the TCP flow again after five seconds and after twenty, and ARP. *)
Definition sample_run : list packet :=
  [pkt 0 sample_tcp; pkt 1 sample_udp; pkt 5 sample_tcp; pkt 25 sample_tcp; pkt 26 sample_arp].
Definition tcp_flow : flow_entry_data := ipv4_flow sample_tcp 14 0.
Definition udp_flow : flow_entry_data := ipv4_flow sample_udp 14 0.
Definition sample_decoded : list decoded :=
  [Flow tcp_flow; Flow udp_flow; Flow tcp_flow; Flow tcp_flow; NoFlow FLOW_ENTRY_NON_IP].
Lemma sample_run_decodes : Forall2 (decodes DLT_EN10MB) sample_run sample_decoded.
Proof.
  repeat first [apply Forall2_nil_2 | apply Forall2_cons_2];
    match goal with |- decodes _ {| pk_data := ?b |} _ => exists b | |- decodes _ (pkt _ ?b) _ => exists b end; vm_compute; reflexivity.
Qed.
(** The same TCP segment in a frame with a VLAN tag. *)
Definition tagged_tcp : buf := take 12 sample_tcp ++ [129; 0; 0; 5] ++ drop 12 sample_tcp.
Lemma sample_frame : ports_frame sample_tcp 0 14.
Proof.
  split; try (vm_compute; (reflexivity || (left; reflexivity) || discriminate)).
  - repeat constructor; vm_compute; (discriminate || reflexivity).
  - split; [intros i ?; lia|by vm_compute].
Qed.
Lemma tagged_frame : ports_frame tagged_tcp 1 18.
Proof.
  split; try (vm_compute; (reflexivity || (left; reflexivity) || discriminate)).
  - repeat constructor; vm_compute; (discriminate || reflexivity).
  - split; [intros i ?; replace i with 0%nat by lia; by vm_compute|by vm_compute].
Qed.
Definition sample_sll : buf := [0; 0; 0; 1; 0; 6; 2; 0; 0; 0; 0; 1; 0; 0; 8; 0] ++ drop 14 sample_tcp.
Lemma sample_sll_bytes : bytes_ok sample_sll.
Proof. repeat constructor; vm_compute; (discriminate || reflexivity). Qed.

Lemma flow_is_five_tuple_witness :
  exists e e', flow_key DLT_EN10MB sample_tcp = Ok (Flow e, sample_tcp) /\ flow_key DLT_EN10MB tagged_tcp = Ok (Flow e', tagged_tcp)
    /\ entry_bytes e <> entry_bytes e'.
Proof.
  destruct (flow_is_five_tuple sample_tcp 0 14 tagged_tcp 1 18 sample_frame tagged_frame) as (e & e' & K & K' & I).
  exists e, e'. split; [exact K|]. split; [exact K'|]. rewrite I. vm_compute. discriminate.
Defined.
Lemma flow_table_refines_history_witness :
  exists t t', flow_hash_table_init 4 = Ok t
    /\ let s := {| st_flows := 3; st_flows_unique := 2; st_flow_packets := 4; st_flows_expired := 1;
                   st_flow_non_flow_packets := 1; st_flows_invalid_packets := 0 |} in
       replay_flows 10 DLT_EN10MB (start_flows t) sample_run = Ok {| fc_table := t'; fc_stats := s; fc_sp := Some s |}.
Proof.
  destruct (flow_table_refines_history 4 10 DLT_EN10MB sample_run sample_decoded) as (t & t' & I & R);
    [lia|reflexivity|exact sample_run_decodes|reflexivity|].
  exists t, t'. split; [exact I|]. refine (eq_trans R _). vm_compute. reflexivity.
Defined.
Lemma flow_statistics_witness :
  exists t c, flow_hash_table_init 4 = Ok t /\ replay_flows 0 DLT_EN10MB (start_flows t) sample_run = Ok c
    /\ st_flows_unique (fc_stats c) = 2 /\ st_flow_packets (fc_stats c) = 4 /\ st_flows_expired (fc_stats c) = 0.
Proof.
  destruct (flow_statistics 4 0 DLT_EN10MB sample_run sample_decoded) as (t & c & I & R & S1 & S2 & S3 & S4 & S5);
    [lia|reflexivity|exact sample_run_decodes|reflexivity|repeat constructor|].
  exists t, c. split; [exact I|]. split; [exact R|]. split; [|split]; [by rewrite S1|by rewrite S2|by apply S5].
Defined.
Lemma ip_frames_not_flows_witness :
  exists c', update_flow_stats true 0 DLT_LINUX_SLL 0 sample_sll (start_flows {| num_buckets := 1; buckets := [[]] |}) = Ok c'
    /\ st_flow_non_flow_packets (fc_stats c') = 1.
Proof.
  destruct (ip_frames_not_flows true 0 DLT_LINUX_SLL 0 sample_sll (start_flows {| num_buckets := 1; buckets := [[]] |})
    sample_sll_bytes) as (c' & R & _ & S); [apply unseen_sll; [vm_compute; discriminate|reflexivity]|].
  exists c'. split; [exact R|]. rewrite S. reflexivity.
Defined.
