(* ===== verification/Csum.v ===== *)
(** * One's-complement sums

    The specification side of the Internet checksum (RFC 1071): the sum of the
    little-endian 16-bit words of a region of a buffer, and arithmetic modulo
    65535, in which the carries of one's-complement addition vanish.  The
    checksum components are proved against these definitions. *)

From Stdlib Require Import ZArith Lia Setoid Morphisms.
From stdpp Require Import base list.
From S2P Require Import Prelude.

(** ** Congruence modulo 65535 *)

Definition eqm (x y : Z) : Prop := x mod 65535 = y mod 65535.
Declare Scope csum_scope.
Infix "≈" := eqm (at level 70) : csum_scope.
#[global] Open Scope csum_scope.

#[export] Instance eqm_equiv : Equivalence eqm.
Proof. split; unfold eqm; [by intros x|by intros x y|by intros x y z -> ->]. Qed.
#[export] Instance eqm_add : Proper (eqm ==> eqm ==> eqm) Z.add.
Proof.
  intros x x' Hx y y' Hy. unfold eqm in *.
  rewrite (Z.add_mod x), (Z.add_mod x') by lia. by rewrite Hx, Hy.
Qed.
#[export] Instance eqm_mul : Proper (eqm ==> eqm ==> eqm) Z.mul.
Proof.
  intros x x' Hx y y' Hy. unfold eqm in *.
  rewrite (Z.mul_mod x), (Z.mul_mod x') by lia. by rewrite Hx, Hy.
Qed.
#[export] Instance eqm_opp : Proper (eqm ==> eqm) Z.opp.
Proof.
  intros x x' Hx. replace (- x) with (-1 * x) by lia.
  replace (- x') with (-1 * x') by lia. by rewrite Hx.
Qed.
#[export] Instance eqm_sub : Proper (eqm ==> eqm ==> eqm) Z.sub.
Proof.
  intros x x' Hx y y' Hy. unfold Z.sub. by rewrite Hx, Hy.
Qed.

Lemma eqm_diff x y k : x - y = 65535 * k -> x ≈ y.
Proof.
  intros H. unfold eqm. replace x with (y + k * 65535) by lia.
  apply Z_mod_plus_full.
Qed.
Lemma eqm_exists x y : x ≈ y -> exists k, x - y = 65535 * k.
Proof.
  unfold eqm. intros H. exists (x / 65535 - y / 65535).
  rewrite (Z.div_mod x 65535), (Z.div_mod y 65535) at 1 by lia. lia.
Qed.

(** The rewrite rules of the modulus: [2^16 = 1], [256 * 256 = 1]. *)
Lemma eqm_65536 x : 65536 * x ≈ x.
Proof. apply (eqm_diff _ _ x). lia. Qed.

(** [a] and [b] congruent and both in [0..65534]: equal. *)
Lemma eqm_small x y : 0 <= x < 65535 -> 0 <= y < 65535 -> x ≈ y -> x = y.
Proof. unfold eqm. intros. rewrite !Z.mod_small in * by lia. done. Qed.

(** ** Weighted byte sums *)

(** The weight of the [i]-th byte of a region: even bytes are the low, odd
    bytes the high halves of the 16-bit words. *)
Definition wt (i : nat) : Z := if Nat.even i then 1 else 256.

Fixpoint csum (b : buf) (o : Z) (n : nat) : Z :=
  match n with
  | O => 0
  | S n => csum b o n + wt n * get8 b (o + Z.of_nat n)
  end.

Lemma wt_S i : wt (S i) = if Nat.even i then 256 else 1.
Proof. unfold wt. rewrite Nat.even_succ, <- Nat.negb_even. by destruct (Nat.even i). Qed.
Lemma wt_cases i : wt i = 1 \/ wt i = 256.
Proof. unfold wt. destruct (Nat.even i); auto. Qed.
Lemma wt_add_even i j : Nat.even i = true -> wt (i + j) = wt j.
Proof. intros H. unfold wt. rewrite Nat.even_add, H. by destruct (Nat.even j). Qed.

Lemma even_to_nat i : 0 <= i -> i mod 2 = 0 -> Nat.even (Z.to_nat i) = true.
Proof.
  intros H0 H. apply Nat.even_spec. exists (Z.to_nat (i / 2)). dlia.
Qed.

Lemma csum_ext b b' o n :
  (forall i, (i < n)%nat -> get8 b (o + Z.of_nat i) = get8 b' (o + Z.of_nat i)) ->
  csum b o n = csum b' o n.
Proof.
  induction n as [|n IH]; intros H; [done|]. cbn [csum].
  rewrite IH by auto. by rewrite H by lia.
Qed.

Lemma csum_nonneg b o n : bytes_ok b -> 0 <= csum b o n.
Proof.
  intros Hb. induction n as [|n IH]; [done|]. cbn [csum].
  pose proof (get8_range b (o + Z.of_nat n) Hb). unfold is_u8 in *.
  destruct (wt_cases n) as [-> | ->]; lia.
Qed.

(** No overflow: [n] bytes sum to at most 65535 per word. *)
Lemma csum_bound b o k : bytes_ok b -> csum b o (2 * k) <= 65535 * Z.of_nat k.
Proof.
  intros Hb. induction k as [|k IH]; [done|].
  replace (2 * S k)%nat with (S (S (2 * k))) by lia. cbn [csum].
  pose proof (get8_range b (o + Z.of_nat (2 * k)) Hb).
  pose proof (get8_range b (o + Z.of_nat (S (2 * k))) Hb).
  rewrite wt_S. unfold wt. rewrite Nat.even_mul. cbn [Nat.even orb].
  unfold is_u8 in *. lia.
Qed.

Lemma csum_split b o i j :
  Nat.even i = true -> csum b o (i + j) = csum b o i + csum b (o + Z.of_nat i) j.
Proof.
  intros Hi. induction j as [|j IH].
  - rewrite Nat.add_0_r. cbn [csum]. lia.
  - rewrite Nat.add_succ_r. cbn [csum]. rewrite IH, wt_add_even by done.
    replace (o + Z.of_nat (i + j)) with (o + Z.of_nat i + Z.of_nat j) by lia. lia.
Qed.
Lemma csum_2 b o : csum b o 2 = get16 b o.
Proof.
  cbn [csum]. unfold wt, get16. cbn [Nat.even].
  replace (o + Z.of_nat 0) with o by lia. replace (o + Z.of_nat 1) with (o + 1) by lia. lia.
Qed.
Lemma csum_4 b o : csum b o 4 ≈ get32 b o.
Proof.
  change 4%nat with (2 + 2)%nat. rewrite csum_split, !csum_2 by done.
  unfold get32. change (Z.of_nat 2) with 2. by rewrite (eqm_65536 (get16 b (o + 2))).
Qed.

(** Shifting a region by one byte swaps the weights, which is a multiplication
    by 256 modulo 65535. *)
Lemma csum_shift b o n : 256 * csum b (o + 1) n + get8 b o ≈ csum b o (S n).
Proof.
  induction n as [|n IH].
  - cbn [csum]. unfold wt. cbn [Nat.even]. replace (o + Z.of_nat 0) with o by lia.
    by apply (eqm_diff _ _ 0); lia.
  - cbn [csum] in *. rewrite <- IH. rewrite wt_S. unfold wt.
    replace (o + 1 + Z.of_nat n) with (o + Z.of_nat (S n)) by lia.
    destruct (Nat.even n).
    + apply (eqm_diff _ _ 0). lia.
    + apply (eqm_diff _ _ (get8 b (o + Z.of_nat (S n)))). lia.
Qed.

(** ** Effect of a store on the sum of a region *)

Lemma csum_put8_out b p v o n :
  0 <= p < blen b -> 0 <= o -> p < o \/ o + Z.of_nat n <= p ->
  csum (put8 b p v) o n = csum b o n.
Proof. intros. apply csum_ext. intros i Hi. by rewrite get8_put8_ne by lia. Qed.

Lemma csum_put8_in b p v o n :
  0 <= o -> 0 <= p < blen b -> o <= p < o + Z.of_nat n ->
  csum (put8 b p v) o n = csum b o n + wt (Z.to_nat (p - o)) * (u8 v - get8 b p).
Proof.
  intros Ho Hp. induction n as [|n IH]; intros Hin; [lia|]. cbn [csum].
  destruct (decide (p = o + Z.of_nat n)) as [Heq|Hne].
  - rewrite csum_put8_out by lia. rewrite <- Heq, get8_put8_eq by lia.
    replace (Z.to_nat (p - o)) with n by lia. lia.
  - rewrite IH by lia. rewrite get8_put8_ne by lia. lia.
Qed.

Lemma csum_put16_out b p v o n :
  0 <= p -> p + 2 <= blen b -> 0 <= o -> p + 2 <= o \/ o + Z.of_nat n <= p ->
  csum (put16 b p v) o n = csum b o n.
Proof. intros. apply csum_ext. intros i Hi. by rewrite get8_put16_ne by lia. Qed.

Lemma csum_put16_in b p v o n :
  0 <= o -> 0 <= p -> p + 2 <= blen b -> o <= p -> p + 2 <= o + Z.of_nat n ->
  Nat.even (Z.to_nat (p - o)) = true ->
  csum (put16 b p v) o n = csum b o n + (u16 v - get16 b p).
Proof.
  intros Ho Hp Hl H1 H2 Hev. unfold put16.
  rewrite csum_put8_in by (rewrite ?blen_put8; lia).
  rewrite csum_put8_in by lia. rewrite get8_put8_ne by lia.
  replace (Z.to_nat (p + 1 - o)) with (S (Z.to_nat (p - o))) by lia.
  rewrite wt_S. unfold wt. rewrite Hev. unfold get16, u8, u16. dlia.
Qed.

Lemma csum_put32_out b p v o n :
  0 <= p -> p + 4 <= blen b -> 0 <= o -> p + 4 <= o \/ o + Z.of_nat n <= p ->
  csum (put32 b p v) o n = csum b o n.
Proof. intros. apply csum_ext. intros i Hi. by rewrite get8_put32_ne by lia. Qed.

Lemma csum_put32_in b p v o n :
  0 <= o -> 0 <= p -> p + 4 <= blen b -> o <= p -> p + 4 <= o + Z.of_nat n ->
  Nat.even (Z.to_nat (p - o)) = true ->
  csum (put32 b p v) o n ≈ csum b o n + (u32 v - get32 b p).
Proof.
  intros Ho Hp Hl H1 H2 Hev. unfold put32.
  rewrite csum_put16_in; rewrite ?blen_put16; try lia.
  2:{ replace (Z.to_nat (p + 2 - o)) with (S (S (Z.to_nat (p - o)))) by lia. done. }
  rewrite csum_put16_in by (done || lia). rewrite get16_put16_ne by lia.
  unfold get32, u16, u32.
  apply (eqm_diff _ _ (get16 b (p + 2) - (v / 65536) mod 65536)). dlia.
Qed.

Lemma csum_only_in o n b b' p k :
  only_in o n b b' -> 0 <= p -> p + Z.of_nat k <= o \/ o + n <= p ->
  csum b' p k = csum b p k.
Proof.
  intros H Hp Ho. apply csum_ext. intros i Hi. by rewrite (only_in_get8 _ _ _ _ _ H) by lia.
Qed.
