(* ===== verification/IncChecksum.v ===== *)
(** * Incremental checksum updates

    [ddtcpreplay/src/tcpedit/incremental_checksum.{c,h}]: RFC 1624 updates of
    a 16-bit checksum when a 2-, 4- or 16-byte field changes, and the partial
    checksum of a memory block at any alignment. *)

From Stdlib Require Import ZArith Lia.
From stdpp Require Import base list.
From S2P Require Import Prelude Csum.

(** ** The header-file helpers *)

Definition csum_fold (csum : Z) : Z :=
  let sum := u32 csum in
  let sum := u32 (Z.land sum 65535 + Z.shiftr sum 16) in
  let sum := u32 (Z.land sum 65535 + Z.shiftr sum 16) in
  not16 sum.

Definition csum_add (csum addend : Z) : Z :=
  let res := u32 (csum + addend) in
  u32 (res + (if res <? addend then 1 else 0)).

Definition csum_sub (csum addend : Z) : Z := csum_add csum (not32 addend).

Definition csum16_add (csum addend : Z) : Z :=
  let res := u16 (csum + addend) in
  u16 (res + (if res <? addend then 1 else 0)).

Definition csum16_sub (csum addend : Z) : Z := csum16_add csum (not16 addend).

Definition csum_unfold (n : Z) : Z := n.

(** The three updates return the new value of [*sum]. *)
Definition csum_replace4 (sum from to : Z) : Z :=
  csum_fold (csum_add (csum_sub (not32 (csum_unfold sum)) from) to).

Definition csum_replace2 (sum from to : Z) : Z :=
  not16 (csum16_add (csum16_sub (not16 sum) from) to).

(** ** The partial checksum of a block *)

Definition from32to16 (x : Z) : Z :=
  let x := u32 (Z.land x 65535 + Z.shiftr x 16) in
  let x := u32 (Z.land x 65535 + Z.shiftr x 16) in
  u16 x.

(** The [do ... while] loop over 32-bit words; the result is the final
    [(buff, result, carry)]. *)
Fixpoint do_csum_words (fuel : nat) (buff end_ result carry : Z) : M (Z * Z * Z) :=
  match fuel with
  | O => fault_with Diverge
  | S fuel =>
      w ← ld32 buff;
      let buff := buff + 4 in
      let result := u32 (result + carry) in
      let result := u32 (result + w) in
      let carry := if result <? w then 1 else 0 in
      if buff <? end_ then do_csum_words fuel buff end_ result carry
      else mret (buff, result, carry)
  end.

(** The 32-bit words of the block, from [if (len >= 4)], with the final carry
    and one folding step; returns [(result, buff)]. *)
Definition do_csum_block (buff len result : Z) : M (Z * Z) :=
  if 4 <=? len then
    let end_ := buff + Z.ldiff len 3 in
    '(buff, result, carry) ←
      with_fuel (fun fuel => do_csum_words fuel buff end_ result 0);
    let result := u32 (result + carry) in
    let result := u32 (Z.land result 65535 + Z.shiftr result 16) in
    mret (result, buff)
  else mret (result, buff).

(** From [if (len >= 2)] to the last odd byte.  [base] is the address of the
    buffer, which decides the alignment steps. *)
Definition do_csum_body (base buff len result : Z) : M Z :=
  '(result, len, buff) ←
    (if 2 <=? len then
       '(result, len, buff) ←
         (if Z.land 2 (base + buff) =? 2 then
            x ← ld16 buff; mret (u32 (result + x), len - 2, buff + 2)
          else mret (result, len, buff));
       '(result, buff) ← do_csum_block buff len result;
       (if Z.land len 2 =? 2 then
          x ← ld16 buff; mret (u32 (result + x), len, buff + 2)
        else mret (result, len, buff))
     else mret (result, len, buff));
  if Z.land len 1 =? 1 then x ← ld8 buff; mret (u32 (result + x))
  else mret result.

Definition do_csum (base buff len : Z) : M Z :=
  if len <=? 0 then mret 0
  else
    let odd := Z.land 1 (base + buff) =? 1 in
    if odd then
      x ← ld8 buff;
      result ← do_csum_body base (buff + 1) (len - 1) (u32 (Z.shiftl x 8));
      let result := from32to16 result in
      mret (Z.lor (Z.land (Z.shiftr result 8) 255) (Z.shiftl (Z.land result 255) 8))
    else
      result ← do_csum_body base buff len 0;
      mret (from32to16 result).

Definition csum_partial (base buff len wsum : Z) : M Z :=
  result ← do_csum base buff len;
  let sum := u32 wsum in
  let result := u32 (result + sum) in
  mret (if result <? sum then u32 (result + 1) else result).

(** [csum_replace16]: the array [diff] is a local buffer at address [base]; the
    arguments are the four words of the old and of the new address. *)
Definition le32 (x : Z) : buf :=
  [u8 x; u8 (x / 256); u8 (x / 65536); u8 (x / 16777216)].
Definition diff16 (from to : list Z) : buf :=
  concat (map (fun x => le32 (not32 x)) from) ++ concat (map le32 to).
Definition csum_replace16 (base sum : Z) (from to : list Z) : res Z :=
  match csum_partial base 0 32 (not32 (csum_unfold sum)) (diff16 from to) with
  | Ok (r, _) => Ok (csum_fold r)
  | Err f => Err f
  end.

(** ** Correctness modulo 65535 *)

Lemma land_65535 x : Z.land x 65535 = x mod 65536.
Proof. exact (Z.land_ones x 16 ltac:(lia)). Qed.
Lemma shiftr_16 x : Z.shiftr x 16 = x / 65536.
Proof. exact (Z.shiftr_div_pow2 x 16 ltac:(lia)). Qed.

(** One folding step. *)
Definition fold1 (x : Z) : Z := u32 (Z.land x 65535 + Z.shiftr x 16).

Lemma fold1_alt x : is_u32 x -> fold1 x = x mod 65536 + x / 65536.
Proof.
  unfold is_u32, fold1, u32. rewrite land_65535, shiftr_16. intros. apply Z.mod_small. dlia.
Qed.
Lemma fold1_eqm x : is_u32 x -> fold1 x ≈ x.
Proof.
  intros. rewrite fold1_alt by done. apply (eqm_diff _ _ (- (x / 65536))). dlia.
Qed.
Lemma fold1_range x : is_u32 x -> 0 <= fold1 x <= 131070.
Proof. intros Hx. rewrite fold1_alt by done. unfold is_u32 in *. dlia. Qed.
Lemma fold1_fold1_range x : is_u32 x -> is_u16 (fold1 (fold1 x)).
Proof.
  intros Hx. pose proof (fold1_range x Hx).
  rewrite fold1_alt; unfold is_u16, is_u32 in *; dlia.
Qed.

Lemma from32to16_spec x : is_u32 x -> from32to16 x ≈ x /\ is_u16 (from32to16 x).
Proof.
  intros Hx. change (from32to16 x) with (u16 (fold1 (fold1 x))).
  rewrite u16_id by (by apply fold1_fold1_range). split; [|by apply fold1_fold1_range].
  rewrite fold1_eqm, fold1_eqm; [done| |]; [done|].
  pose proof (fold1_range x Hx). unfold is_u32. lia.
Qed.

Lemma csum_fold_spec s : is_u32 s -> csum_fold s ≈ - s /\ is_u16 (csum_fold s).
Proof.
  intros Hs. split; [|apply not16_range].
  change (csum_fold s) with (not16 (fold1 (fold1 (u32 s)))).
  rewrite not16_alt, (u32_id s), u16_id by (done || by apply fold1_fold1_range).
  rewrite fold1_eqm, fold1_eqm; [by apply (eqm_diff _ _ 1); lia|done|].
  pose proof (fold1_range s Hs). unfold is_u32. lia.
Qed.

Lemma csum_add_spec c a :
  is_u32 c -> is_u32 a -> csum_add c a ≈ c + a /\ is_u32 (csum_add c a).
Proof.
  intros Hc Ha. split; [|apply u32_range]. unfold csum_add, is_u32 in *.
  destruct (Z.ltb_spec (u32 (c + a)) a) as [Hlt|Hge]; unfold u32 in *.
  - apply (eqm_diff _ _ (-65537)). dlia.
  - apply (eqm_diff _ _ 0). dlia.
Qed.

Lemma not32_eqm x : is_u32 x -> not32 x ≈ - x.
Proof. intros. rewrite not32_alt, u32_id by done. apply (eqm_diff _ _ 65537). lia. Qed.
Lemma not16_eqm x : is_u16 x -> not16 x ≈ - x.
Proof. intros. rewrite not16_alt, u16_id by done. apply (eqm_diff _ _ 1). lia. Qed.

Lemma csum16_add_spec c a :
  is_u16 c -> is_u16 a -> csum16_add c a ≈ c + a /\ is_u16 (csum16_add c a).
Proof.
  intros Hc Ha. split; [|apply u16_range]. unfold csum16_add, is_u16 in *.
  destruct (Z.ltb_spec (u16 (c + a)) a) as [Hlt|Hge]; unfold u16 in *.
  - apply (eqm_diff _ _ (-1)). dlia.
  - apply (eqm_diff _ _ 0). dlia.
Qed.

(** RFC 1624: [HC' = ~(~HC + ~m + m')].  The updated checksum compensates the
    change of the field. *)
Lemma csum_replace2_spec sum from to :
  is_u16 sum -> is_u16 from -> is_u16 to ->
  csum_replace2 sum from to + to ≈ sum + from /\ is_u16 (csum_replace2 sum from to).
Proof.
  intros Hs Hf Ht. unfold csum_replace2, csum16_sub. split; [|apply not16_range].
  destruct (csum16_add_spec (not16 sum) (not16 from)) as [H1 R1]; auto with cint.
  destruct (csum16_add_spec _ to R1 Ht) as [H2 R2].
  rewrite not16_eqm, H2, H1, !not16_eqm by done. by apply (eqm_diff _ _ 0); lia.
Qed.

Lemma is_u16_u32 x : is_u16 x -> is_u32 x.
Proof. unfold is_u16, is_u32. lia. Qed.

Lemma csum_replace4_spec sum from to :
  is_u16 sum -> is_u32 from -> is_u32 to ->
  csum_replace4 sum from to + to ≈ sum + from /\ is_u16 (csum_replace4 sum from to).
Proof.
  intros Hs Hf Ht. unfold csum_replace4, csum_sub, csum_unfold.
  destruct (csum_add_spec (not32 sum) (not32 from)) as [H1 R1]; auto with cint.
  destruct (csum_add_spec _ to R1 Ht) as [H2 R2].
  destruct (csum_fold_spec _ R2) as [H3 R3]. split; [|done].
  rewrite H3, H2, H1, !not32_eqm by (done || by apply is_u16_u32).
  by apply (eqm_diff _ _ 0); lia.
Qed.
#[export] Hint Resolve is_u16_u32 : cint.

(** ** The block checksum *)

(** The carry the word loop keeps in a separate variable is never lost: a
    pending carry leaves room for one increment. *)
Definition carry_ok (result carry : Z) : Prop :=
  is_u32 result /\ (carry = 0 \/ carry = 1 /\ result <= 4294967294).

Lemma carry_step result carry w :
  carry_ok result carry -> is_u32 w ->
  let r := u32 (u32 (result + carry) + w) in
  let c := if r <? w then 1 else 0 in
  carry_ok r c /\ r + c ≈ result + carry + w.
Proof.
  intros [Hr Hc] Hw r c. unfold is_u32, carry_ok in *.
  assert (Hrc : u32 (result + carry) = result + carry)
    by (apply u32_id; unfold is_u32; lia).
  subst r c. rewrite Hrc.
  destruct (Z.ltb_spec (u32 (result + carry + w)) w); unfold is_u32, u32 in *.
  - split; [dlia|]. apply (eqm_diff _ _ (-65537)). dlia.
  - split; [dlia|]. apply (eqm_diff _ _ 0). dlia.
Qed.

Lemma do_csum_words_spec b k :
  bytes_ok b ->
  forall fuel buff result carry, (0 < k <= fuel)%nat -> 0 <= buff ->
  buff + 4 * Z.of_nat k <= blen b -> carry_ok result carry ->
  wp (do_csum_words fuel buff (buff + 4 * Z.of_nat k) result carry)
     (fun '(p, r, c) b' => b' = b /\ p = buff + 4 * Z.of_nat k /\ carry_ok r c
        /\ r + c ≈ result + carry + csum b buff (4 * k)) b.
Proof.
  intros Hb. induction k as [|k IH]; intros fuel buff result carry Hk Hp Hl Hc; [lia|].
  destruct fuel as [|fuel]; [lia|]. cbn [do_csum_words]. wp_steps.
  destruct (carry_step result carry (get32 b buff) Hc (get32_range _ _ Hb)) as [Hc' He].
  cbv zeta in *.
  replace (4 * S k)%nat with (4 + 4 * k)%nat by lia. rewrite csum_split by done.
  change (Z.of_nat 4) with 4.
  destruct (Z.ltb_spec (buff + 4) (buff + 4 * Z.of_nat (S k))) as [Hlt|Hge].
  - replace (buff + 4 * Z.of_nat (S k)) with ((buff + 4) + 4 * Z.of_nat k) by lia.
    eapply wp_mono; [|apply (IH fuel (buff + 4)); [lia|lia|lia|done]].
    intros [[p r] c] b' (-> & -> & HC & HE). split; [done|]. split; [done|]. split; [done|].
    rewrite HE, He, csum_4. by apply (eqm_diff _ _ 0); lia.
  - assert (k = 0%nat) as -> by lia. apply wp_ret. split; [done|]. split; [lia|].
    split; [done|]. rewrite He, csum_4. change (csum b (buff + 4) (4 * 0)) with 0.
    by apply (eqm_diff _ _ 0); lia.
Qed.

Lemma ldiff_3 x : 0 <= x -> Z.ldiff x 3 = 4 * (x / 4).
Proof.
  intros. change 3 with (Z.ones 2). rewrite Z.ldiff_ones_r by lia.
  rewrite Z.shiftl_mul_pow2, Z.shiftr_div_pow2 by lia. change (2 ^ 2) with 4. lia.
Qed.
Lemma land_2 x : 0 <= x -> (Z.land x 2 =? 2) = (2 <=? x mod 4).
Proof.
  intros. replace (Z.land x 2) with (Z.land (x mod 4) 2).
  - pose proof (Z.mod_pos_bound x 4 ltac:(lia)).
    assert (x mod 4 = 0 \/ x mod 4 = 1 \/ x mod 4 = 2 \/ x mod 4 = 3)
      as [-> | [-> | [-> | ->]]] by lia; done.
  - change 4 with (2 ^ 2). rewrite <- Z.land_ones by lia.
    rewrite <- Z.land_assoc. done.
Qed.
Lemma land_1 x : (Z.land x 1 =? 1) = (x mod 2 =? 1).
Proof. change 1 with (Z.ones 1) at 1. rewrite Z.land_ones by lia. done. Qed.

Lemma do_csum_block_spec b buff len result :
  bytes_ok b -> is_u32 result -> 0 <= buff -> 0 <= len -> buff + len <= blen b ->
  wp (do_csum_block buff len result)
     (fun '(r, p) b' => b' = b /\ p = buff + 4 * (len / 4)
        /\ r ≈ result + csum b buff (Z.to_nat (4 * (len / 4)))
        /\ 0 <= r <= Z.max result 131070) b.
Proof.
  intros Hb Hr Hp Hl Hbl. unfold do_csum_block. destruct (Z.leb_spec 4 len) as [H4|H4].
  - rewrite ldiff_3 by lia. apply wp_bind, wp_with_fuel.
    replace (4 * (len / 4)) with (4 * Z.of_nat (Z.to_nat (len / 4))) by dlia.
    eapply wp_mono; [|apply do_csum_words_spec; try done].
    2:{ unfold blen in *. split; [dlia|]. dlia. }
    2:{ dlia. }
    2:{ split; [done|by left]. }
    intros [[p r] c] b' (-> & -> & [Hr' Hc] & HE). apply wp_ret. split; [done|]. split; [done|].
    assert (Hu : u32 (r + c) = r + c) by (apply u32_id; unfold is_u32 in *; lia).
    change (u32 (Z.land ?x 65535 + Z.shiftr ?x 16)) with (fold1 x). rewrite Hu.
    assert (Hrc : is_u32 (r + c)) by (unfold is_u32 in *; lia).
    pose proof (fold1_range _ Hrc). split; [|lia].
    rewrite fold1_eqm, HE by done.
    replace (Z.to_nat (4 * Z.of_nat (Z.to_nat (len / 4)))) with (4 * Z.to_nat (len / 4))%nat by lia.
    by apply (eqm_diff _ _ 0); lia.
  - apply wp_ret. assert (len / 4 = 0) as -> by dlia.
    split; [done|]. split; [lia|]. unfold is_u32 in *. split; [|lia].
    change (Z.to_nat (4 * 0)) with 0%nat. cbn [csum].
    by apply (eqm_diff _ _ 0); lia.
Qed.

Lemma csum_pieces b o i n :
  0 <= i <= n -> i mod 2 = 0 ->
  csum b o (Z.to_nat n) = csum b o (Z.to_nat i) + csum b (o + i) (Z.to_nat (n - i)).
Proof.
  intros Hi He. replace (Z.to_nat n) with (Z.to_nat i + Z.to_nat (n - i))%nat by lia.
  rewrite csum_split; [by rewrite Z2Nat.id by lia|]. apply even_to_nat; lia.
Qed.

Lemma do_csum_body_spec base b buff len result :
  bytes_ok b -> 0 <= result <= 65535 -> 0 <= base -> 0 <= buff -> 0 <= len ->
  buff + len <= blen b ->
  wp (do_csum_body base buff len result)
     (fun r b' => b' = b /\ r ≈ result + csum b buff (Z.to_nat len) /\ is_u32 r) b.
Proof.
  intros Hb Hr Hba Hp Hl Hbl. unfold do_csum_body. apply wp_bind.
  (* the state after the words: [r] sums the bytes before [p], one byte is left if [len] is odd *)
  apply (wp_mono _ (fun '(r, l, p) b' => b' = b /\ l mod 2 = len mod 2
      /\ p = buff + (len - len mod 2) /\ 0 <= r <= 262140
      /\ r ≈ result + csum b buff (Z.to_nat (len - len mod 2)))).
  { intros [[r l] p] b' (-> & Hl2 & -> & Hr' & HE). rewrite land_1, Hl2.
    destruct (Z.eqb_spec (len mod 2) 1) as [H1|H1].
    - wp_steps. pose proof (get8_range b (buff + (len - len mod 2)) Hb).
      unfold is_u8 in *. rewrite u32_id by (unfold is_u32; lia).
      split; [done|]. split; [|unfold is_u32; lia]. rewrite HE.
      rewrite (csum_pieces b buff (len - len mod 2) len) by dlia.
      replace (Z.to_nat (len - (len - len mod 2))) with 1%nat by lia.
      cbn [csum]. unfold wt. cbn [Nat.even]. rewrite Z.add_0_r.
      by apply (eqm_diff _ _ 0); lia.
    - apply wp_ret. split; [done|]. split; [|unfold is_u32; lia].
      replace (len - len mod 2) with len in HE by dlia. done. }
  destruct (Z.leb_spec 2 len) as [H2|H2].
  2:{ apply wp_ret. replace (len - len mod 2) with 0 by dlia. change (Z.to_nat 0) with 0%nat; cbn [csum].
      split; [done|]. split; [done|]. split; [lia|]. split; [lia|].
      by apply (eqm_diff _ _ 0); lia. }
  apply wp_bind.
  (* the optional half word that aligns the pointer *)
  apply (wp_mono _ (fun '(r, l, p) b' => b' = b /\ 0 <= l <= len /\ (len - l) mod 2 = 0
      /\ p = buff + (len - l) /\ 0 <= r <= 131070
      /\ r ≈ result + csum b buff (Z.to_nat (len - l)))).
  2:{ destruct (_ =? 2).
      - wp_steps. pose proof (get16_range b buff Hb). unfold is_u16 in *.
        rewrite u32_id by (unfold is_u32; lia).
        replace (len - (len - 2)) with 2 by lia. change (Z.to_nat 2) with 2%nat.
        rewrite csum_2. repeat split; lia || done.
      - apply wp_ret. rewrite Z.sub_diag. change (Z.to_nat 0) with 0%nat; cbn [csum].
        repeat split; try lia. by rewrite Z.add_0_r. }
  intros [[r l] p] b' (-> & Hll & Hpar & -> & Hr' & HE). apply wp_bind.
  eapply wp_mono; [|apply do_csum_block_spec; unfold is_u32; try done; lia].
  intros [r2 p2] b' (-> & -> & HE2 & Hr2). rewrite land_2 by lia.
  assert (Hpieces : r2 ≈ result + csum b buff (Z.to_nat (len - l + 4 * (l / 4)))).
  { rewrite HE2, HE, (csum_pieces b buff (len - l) (len - l + _)) by dlia.
    replace (len - l + 4 * (l / 4) - (len - l)) with (4 * (l / 4)) by lia.
    by apply (eqm_diff _ _ 0); lia. }
  destruct (Z.leb_spec 2 (l mod 4)) as [H3|H3].
  - wp_steps.
    pose proof (get16_range b (buff + (len - l) + 4 * (l / 4)) Hb). unfold is_u16 in *.
    rewrite u32_id by (unfold is_u32; lia).
    split; [done|]. split; [dlia|]. split; [dlia|]. split; [lia|]. rewrite Hpieces.
    rewrite (csum_pieces b buff (len - l + 4 * (l / 4)) (len - len mod 2)) by dlia.
    replace (Z.to_nat (len - len mod 2 - (len - l + 4 * (l / 4)))) with 2%nat by dlia.
    rewrite csum_2. replace (buff + (len - l + 4 * (l / 4))) with (buff + (len - l) + 4 * (l / 4)) by lia.
    by apply (eqm_diff _ _ 0); lia.
  - apply wp_ret. split; [done|]. split; [dlia|]. split; [dlia|]. split; [lia|].
    rewrite Hpieces. by replace (len - l + 4 * (l / 4)) with (len - len mod 2) by dlia.
Qed.

Lemma swap_bytes r :
  is_u16 r ->
  Z.lor (Z.land (Z.shiftr r 8) 255) (Z.shiftl (Z.land r 255) 8) = bswap16 r.
Proof.
  intros Hr. unfold is_u16 in Hr.
  change 255 with (Z.ones 8). rewrite !Z.land_ones by lia.
  rewrite Z.shiftr_div_pow2, Z.shiftl_mul_pow2 by lia. change (2 ^ 8) with 256.
  assert (Hl : Z.land ((r / 256) mod 256) (r mod 256 * 256) = 0).
  { apply Z.bits_inj'. intros n Hn. rewrite Z.land_spec, Z.bits_0.
    change 256 with (2 ^ 8). destruct (Z.ltb_spec n 8).
    - rewrite Z.mul_pow2_bits_low by lia. apply andb_false_r.
    - rewrite Z.mod_pow2_bits_high by lia. done. }
  rewrite lor_add by done. unfold bswap16. lia.
Qed.

(** The block checksum is the word sum of the block, whatever the alignment of
    its address. *)
Lemma do_csum_spec base b buff len :
  bytes_ok b -> 0 <= base -> 0 <= buff -> 0 <= len -> buff + len <= blen b ->
  wp (do_csum base buff len)
     (fun r b' => b' = b /\ r ≈ csum b buff (Z.to_nat len) /\ is_u16 r) b.
Proof.
  intros Hb Hba Hp Hl Hbl. unfold do_csum.
  destruct (Z.leb_spec len 0).
  { apply wp_ret. replace (Z.to_nat len) with 0%nat by lia. by repeat split. }
  destruct (Z.land 1 (base + buff) =? 1).
  - wp_steps. pose proof (get8_range b buff Hb) as H8. unfold is_u8 in H8.
    assert (Hx : u32 (Z.shiftl (get8 b buff) 8) = 256 * get8 b buff).
    { rewrite Z.shiftl_mul_pow2 by lia. change (2 ^ 8) with 256.
      rewrite u32_id; unfold is_u32; lia. }
    rewrite Hx. eapply wp_mono; [|apply do_csum_body_spec; try done; lia].
    intros r b' (-> & HE & Hr). apply wp_ret.
    destruct (from32to16_spec r Hr) as [HF HR]. rewrite swap_bytes by done.
    split; [done|]. split; [|apply bswap16_range].
    assert (HB : bswap16 (from32to16 r) ≈ 256 * from32to16 r).
    { unfold is_u16 in HR. apply (eqm_diff _ _ (- (from32to16 r / 256))).
      unfold bswap16. dlia. }
    rewrite HB, HF, HE. replace (Z.to_nat len) with (S (Z.to_nat (len - 1))) by lia.
    rewrite <- csum_shift. apply (eqm_diff _ _ (get8 b buff)). lia.
  - wp_steps. eapply wp_mono; [|apply do_csum_body_spec; try done; lia].
    intros r b' (-> & HE & Hr). apply wp_ret. destruct (from32to16_spec r Hr) as [HF HR].
    split; [done|]. split; [|done]. by rewrite HF, HE, Z.add_0_l.
Qed.

Lemma csum_partial_spec base b buff len wsum :
  bytes_ok b -> is_u32 wsum -> 0 <= base -> 0 <= buff -> 0 <= len -> buff + len <= blen b ->
  wp (csum_partial base buff len wsum)
     (fun r b' => b' = b /\ r ≈ csum b buff (Z.to_nat len) + wsum /\ is_u32 r) b.
Proof.
  intros Hb Hw Hba Hp Hl Hbl. unfold csum_partial. apply wp_bind.
  eapply wp_mono; [|apply do_csum_spec; done].
  intros r b' (-> & HE & Hr). apply wp_ret. split; [done|]. rewrite <- HE, (u32_id wsum) by done.
  pose proof (csum_add_spec r wsum (is_u16_u32 _ Hr) Hw) as HA. unfold csum_add in HA.
  destruct (u32 (r + wsum) <? wsum); [done|].
  rewrite Z.add_0_r, (u32_id (u32 (r + wsum))) in HA by apply u32_range. done.
Qed.

(** ** Addresses of four words *)

Definition sum4 (l : list Z) : Z := foldr Z.add 0 l.

Lemma le32_get x : is_u32 x -> get32 (le32 x) 0 = x.
Proof.
  intros Hx. unfold is_u32 in Hx. cbv [get32 get16 get8 le32]. simpl. unfold u8. dlia.
Qed.
Lemma csum_app_l b b' o n :
  0 <= o -> o + Z.of_nat n <= blen b -> csum (b ++ b') o n = csum b o n.
Proof.
  intros Ho Hn. apply csum_ext. intros i Hi. rewrite !get8_lookup by lia.
  rewrite lookup_app_l; [done|]. unfold blen in Hn. lia.
Qed.
Lemma csum_app_r b b' n :
  csum (b ++ b') (blen b) n = csum b' 0 n.
Proof.
  induction n as [|n IH]; [done|]. cbn [csum]. rewrite IH. do 2 f_equal.
  pose proof (blen_nonneg b). rewrite !get8_lookup by lia.
  rewrite lookup_app_r by (unfold blen; lia). do 2 f_equal. unfold blen. lia.
Qed.
Lemma csum_le32s l :
  Forall is_u32 l -> csum (concat (map le32 l)) 0 (4 * length l) ≈ sum4 l.
Proof.
  induction l as [|x l IH]; intros Hl; [done|]. inversion Hl as [|? ? Hx Hl']; subst.
  cbn [map concat length sum4 foldr]. replace (4 * S (length l))%nat with (4 + 4 * length l)%nat by lia.
  rewrite csum_split by done. rewrite csum_app_l by (cbv; done).
  change (0 + Z.of_nat 4) with (blen (le32 x)). rewrite csum_app_r, (IH Hl').
  by rewrite csum_4, le32_get by done.
Qed.


Lemma concat_map_comp {A B} (f : A -> list B) (g : A -> A) l :
  concat (map (fun x => f (g x)) l) = concat (map f (map g l)).
Proof. by rewrite map_map. Qed.
Lemma length_le32s l : length (concat (map le32 l)) = (4 * length l)%nat.
Proof. induction l as [|x l IH]; [done|]. cbn [map concat length]. rewrite length_app, IH. cbn. lia. Qed.
Lemma bytes_ok_le32s l : bytes_ok (concat (map le32 l)).
Proof.
  induction l as [|x l IH]; [constructor|]. cbn [map concat]. apply Forall_app; split; [|done].
  repeat constructor; apply u8_range || apply u8_range.
Qed.
Lemma sum4_not32 l :
  Forall is_u32 l -> sum4 (map not32 l) ≈ - sum4 l.
Proof.
  induction 1 as [|x l Hx Hl IH]; [done|].
  change (not32 x + sum4 (map not32 l) ≈ - (x + sum4 l)).
  rewrite IH, not32_eqm by done. by apply (eqm_diff _ _ 0); lia.
Qed.

(** The 16-byte update compensates the change of an IPv6 address. *)
Lemma csum_replace16_spec base sum from to :
  0 <= base -> is_u16 sum -> length from = 4%nat -> length to = 4%nat ->
  Forall is_u32 from -> Forall is_u32 to ->
  exists r, csum_replace16 base sum from to = Ok r
    /\ r + sum4 to ≈ sum + sum4 from /\ is_u16 r.
Proof.
  intros Hba Hs Lf Lt Hf Ht. unfold csum_replace16, csum_unfold.
  assert (Hd : diff16 from to = concat (map le32 (map not32 from ++ to))).
  { unfold diff16. rewrite map_app, concat_app. by rewrite concat_map_comp. }
  assert (Hw : wp (csum_partial base 0 32 (not32 sum))
    (fun r b' => b' = diff16 from to /\ r ≈ csum (diff16 from to) 0 32 + not32 sum /\ is_u32 r)
    (diff16 from to)).
  { apply (csum_partial_spec base _ 0 32); rewrite ?Hd; try lia; auto with cint.
    - apply bytes_ok_le32s.
    - unfold blen. rewrite length_le32s, length_app, length_map. lia. }
  apply wp_run in Hw as (r & b' & -> & _ & HE & Hr).
  destruct (csum_fold_spec r Hr) as [HF HR]. exists (csum_fold r). split; [done|]. split; [|done].
  rewrite HF, HE, Hd. replace 32%nat with (4 * length (map not32 from ++ to))%nat
    by (rewrite length_app, length_map; lia).
  rewrite csum_le32s.
  2:{ apply Forall_app; split; [|done]. apply Forall_map, Forall_true. intros. apply not32_range. }
  assert (Happ : sum4 (map not32 from ++ to) = sum4 (map not32 from) + sum4 to).
  { generalize (map not32 from) as l. intros l.
    induction l as [|x l IH]; [done|]. unfold sum4 in *. cbn [app foldr]. lia. }
  rewrite Happ, sum4_not32, not32_eqm by (done || auto with cint).
  by apply (eqm_diff _ _ 0); lia.
Qed.
