(* ===== verification/Checksum.v ===== *)
(** * Full checksums: [ddtcpreplay/src/tcpedit/checksum.{c,h}]

    [do_checksum] recomputes the IP, TCP, UDP, ICMP or ICMPv6 checksum of the
    packet whose IP header starts at [data]. *)

From Stdlib Require Import ZArith Lia.
From stdpp Require Import base list.
From S2P Require Import Prelude Samples Wire Get Csum IncChecksum.

Abbreviation TCPEDIT_SOFT_ERROR := (-2).
Abbreviation TCPEDIT_ERROR := (-1).
Abbreviation TCPEDIT_OK := 0.
Abbreviation TCPEDIT_WARN := 1.

(** Signed [int] addition: overflow is undefined. *)
Definition add_int (x y : Z) : M Z :=
  lift (if (-2147483648 <=? x + y) && (x + y <=? 2147483647) then Ok (x + y) else Err Undef).

(** The [while (len > 1)] loop, returning [(data, len, sum)]. *)
Fixpoint math_loop (fuel : nat) (data len sum : Z) : M (Z * Z * Z) :=
  if 1 <? len then
    match fuel with
    | O => fault_with Diverge
    | S fuel =>
        w ← ld16 data;
        sum ← add_int sum w;
        math_loop fuel (data + 2) (len - 2) sum
    end
  else mret (data, len, sum).

Definition do_checksum_math (data len : Z) : M Z :=
  '(data, len, sum) ← math_loop (Z.to_nat len) data len 0;
  if len =? 1 then x ← ld8 data; add_int sum x else mret sum.

Definition CHECKSUM_CARRY (x : Z) : Z :=
  let x := Z.shiftr x 16 + Z.land x 65535 in
  Z.land (Z.lnot (x + Z.shiftr x 16)) 65535.

(** The pseudo-header part of a layer-4 checksum: the two addresses and
    [ntohs(proto + len)]. *)
Definition pseudo_sum (ipv6 : bool) (data proto len : Z) : M Z :=
  sum ← (if ipv6 then do_checksum_math (data + o_ip6_src) 32
         else do_checksum_math (data + o_ip_src) 8);
  add_int sum (bswap16 (u16 (proto + len))).

(** [sum += do_checksum_math(l4, len); *field = CHECKSUM_CARRY(sum)] *)
Definition finish_sum (l4 len sum field : Z) : M unit :=
  s ← do_checksum_math l4 len;
  sum ← add_int sum s;
  st16 field (CHECKSUM_CARRY sum).

(** The branches of the [switch (proto)]; [l4] is [data + ip_hl]. *)
Definition do_checksum_switch (ipv6 : bool) (data : Z) (l4 : option Z) (proto len : Z) : M Z :=
  let at_l4 (k : Z -> M Z) : M Z :=
    match l4 with Some p => k p | None => fault_with Undef end in
  if proto =? IPPROTO_TCP then
    at_l4 (fun tcp =>
      _ ← st16 (tcp + o_th_sum) 0;
      sum ← pseudo_sum ipv6 data IPPROTO_TCP len;
      _ ← finish_sum tcp len sum (tcp + o_th_sum);
      mret TCPEDIT_OK)
  else if proto =? IPPROTO_UDP then
    at_l4 (fun udp =>
      s ← ld16 (udp + o_uh_sum);
      if s =? 0 then mret TCPEDIT_OK
      else
        _ ← st16 (udp + o_uh_sum) 0;
        sum ← pseudo_sum ipv6 data IPPROTO_UDP len;
        _ ← finish_sum udp len sum (udp + o_uh_sum);
        mret TCPEDIT_OK)
  else if proto =? IPPROTO_ICMP then
    at_l4 (fun icmp =>
      _ ← st16 (icmp + o_icmp_sum) 0;
      sum ← (if ipv6 then
               sum ← do_checksum_math (data + o_ip6_src) 32;
               let x := Z.shiftr sum 16 + Z.land sum 65535 in   (* the macro assigns its argument *)
               _ ← st16 (icmp + o_icmp_sum) (CHECKSUM_CARRY sum);
               mret x
             else mret 0);
      _ ← finish_sum icmp len sum (icmp + o_icmp_sum);
      mret TCPEDIT_OK)
  else if proto =? IPPROTO_ICMP6 then
    at_l4 (fun icmp6 =>
      _ ← st16 (icmp6 + o_icmp_sum) 0;
      sum ← (if ipv6 then do_checksum_math (data + o_ip6_src) 32 else mret 0);
      sum ← add_int sum (bswap16 (u16 (IPPROTO_ICMP6 + len)));
      _ ← finish_sum icmp6 len sum (icmp6 + o_icmp_sum);
      mret TCPEDIT_OK)
  else if proto =? IPPROTO_IP then
    if ipv6 then fault_with Undef                               (* ipv4 is NULL *)
    else
      at_l4 (fun l4 =>
        _ ← st16 (data + o_ip_sum) 0;
        sum ← do_checksum_math data (l4 - data);
        _ ← st16 (data + o_ip_sum) (CHECKSUM_CARRY sum);
        mret TCPEDIT_OK)
  else mret TCPEDIT_WARN.

Definition do_checksum (data proto len : Z) : M Z :=
  if len <=? 0 then mret TCPEDIT_WARN
  else
    v ← ld_ip_v data;
    if v =? 6 then
      proto ← get_ipv6_l4proto data len;
      l4 ← get_layer4_v6 data len;
      let len := match l4 with Some p => len - (p - data - TCPR_IPV6_H) | None => len end in
      do_checksum_switch true data l4 proto len
    else
      hl ← ld_ip_hl data;
      do_checksum_switch false data (Some (data + 4 * hl)) proto len.

(** ** Correctness *)

(** A folded total of zero is what a receiver checks (RFC 1071). *)
Definition verifies (total : Z) : Prop := csum_fold total = 0.

Lemma fold1_pos x : is_u32 x -> 0 < x -> 0 < fold1 x.
Proof. intros Hx H. rewrite fold1_alt by done. unfold is_u32 in *. dlia. Qed.

Lemma verifies_intro total : 0 < total < 4294967296 -> total ≈ 0 -> verifies total.
Proof.
  intros Hr He. unfold verifies. assert (Hu : is_u32 total) by (unfold is_u32; lia).
  change (csum_fold total) with (not16 (fold1 (fold1 (u32 total)))). rewrite (u32_id total) by done.
  pose proof (fold1_range total Hu) as H1. pose proof (fold1_fold1_range total Hu) as H2.
  assert (Hf : is_u32 (fold1 total)) by (unfold is_u32; lia).
  assert (HE : fold1 (fold1 total) ≈ 0) by (by rewrite fold1_eqm, fold1_eqm).
  assert (Hpos : 0 < fold1 (fold1 total)).
  { apply fold1_pos; [done|]. apply fold1_pos; [done|lia]. }
  rewrite not16_alt, u16_id by done. unfold eqm, is_u16 in *.
  change (0 mod 65535) with 0 in HE. dlia.
Qed.

Lemma CHECKSUM_CARRY_spec x :
  0 <= x <= 2147483647 ->
  is_u16 (CHECKSUM_CARRY x) /\ x + CHECKSUM_CARRY x ≈ 0 /\ 0 < x + CHECKSUM_CARRY x.
Proof.
  intros Hx. assert (x = 0 \/ 0 < x) as [->|Hp] by lia; [by vm_compute|].
  unfold CHECKSUM_CARRY. rewrite !land_65535, !shiftr_16.
  change ((Z.lnot ?y) mod 65536) with (not16 y). rewrite not16_alt.
  assert (Hy : 0 <= x / 65536 + x mod 65536 <= 98302) by dlia.
  assert (HE : x / 65536 + x mod 65536 ≈ x) by (apply (eqm_diff _ _ (- (x / 65536))); dlia).
  revert Hy HE. generalize (x / 65536 + x mod 65536) as y. intros y Hy HE.
  assert (HU : u16 (y + y / 65536) = y mod 65536 + y / 65536) by (unfold u16; dlia).
  rewrite HU. unfold is_u16. split; [dlia|]. split.
  - rewrite <- HE. apply (eqm_diff _ _ (1 + y / 65536)). dlia.
  - dlia.
Qed.

Lemma add_int_ok x y Q b :
  -2147483648 <= x + y <= 2147483647 -> Q (x + y) b -> wp (add_int x y) Q b.
Proof. intros H HQ. unfold add_int. eapply wp_lift; [|exact HQ]. by replace (_ && _) with true by lia. Qed.

Lemma math_loop_spec b n :
  bytes_ok b -> forall data len sum fuel,
  (n <= fuel)%nat -> len / 2 = Z.of_nat n -> 0 <= len -> 0 <= data -> data + len <= blen b ->
  0 <= sum -> sum + 65535 * Z.of_nat n <= 2147483647 ->
  wp (math_loop fuel data len sum)
     (fun '(d, l, s) b' => b' = b /\ d = data + 2 * Z.of_nat n /\ l = len mod 2
        /\ s = sum + csum b data (2 * n)) b.
Proof.
  intros Hb. induction n as [|n IH]; intros data len sum fuel Hf Hn Hl Hd Hbl Hs Hov.
  - destruct fuel; cbn [math_loop]; replace (1 <? len) with false by dlia;
      apply wp_ret; change (csum b data (2 * 0)) with 0; repeat split; dlia.
  - destruct fuel as [|fuel]; [lia|]. cbn [math_loop]. replace (1 <? len) with true by dlia.
    wp_steps. pose proof (get16_range b data Hb). unfold is_u16 in *.
    apply add_int_ok; [lia|].
    eapply wp_mono; [|apply (IH (data + 2) (len - 2)); dlia].
    intros [[d l] s] b' (-> & -> & -> & ->).
    replace (2 * S n)%nat with (2 + 2 * n)%nat by lia. rewrite csum_split, csum_2 by done.
    repeat split; change (Z.of_nat 2) with 2; dlia.
Qed.

Lemma do_checksum_math_spec b data len :
  bytes_ok b -> 0 <= data -> 0 <= len <= 65536 -> data + len <= blen b ->
  wp (do_checksum_math data len)
     (fun s b' => b' = b /\ s = csum b data (Z.to_nat len)) b.
Proof.
  intros Hb Hd Hl Hbl. unfold do_checksum_math. apply wp_bind.
  eapply wp_mono; [|apply (math_loop_spec b (Z.to_nat (len / 2)) Hb data len 0); dlia].
  intros [[d l] s] b' (-> & -> & -> & ->).
  pose proof (csum_bound b data (Z.to_nat (len / 2)) Hb).
  pose proof (csum_nonneg b data (2 * Z.to_nat (len / 2)) Hb).
  destruct (Z.eqb_spec (len mod 2) 1) as [Ho|He].
  - wp_steps. pose proof (get8_range b (data + 2 * Z.of_nat (Z.to_nat (len / 2))) Hb).
    unfold is_u8 in *. apply add_int_ok; [dlia|]. split; [done|].
    replace (Z.to_nat len) with (S (2 * Z.to_nat (len / 2))) by dlia. cbn [csum].
    unfold wt at 1. rewrite Nat.even_mul. cbn [Nat.even orb].
    replace (Z.of_nat (2 * Z.to_nat (len / 2))) with (2 * Z.of_nat (Z.to_nat (len / 2))) by lia.
    lia.
  - apply wp_ret. split; [done|].
    replace (Z.to_nat len) with (2 * Z.to_nat (len / 2))%nat by dlia. lia.
Qed.

(** The quantity a receiver folds for a TCP or UDP segment over IPv4. *)
Definition l4_total (b : buf) (data l4 proto len : Z) : Z :=
  csum b (data + o_ip_src) 8 + bswap16 (u16 (proto + len)) + csum b l4 (Z.to_nat len).

Lemma csum_range b o len :
  bytes_ok b -> 0 <= len <= 65536 -> 0 <= csum b o (Z.to_nat len) <= 65535 * ((len + 1) / 2).
Proof.
  intros Hb Hl. split; [by apply csum_nonneg|].
  pose proof (csum_bound b o (Z.to_nat (len / 2)) Hb).
  destruct (decide (len mod 2 = 0)).
  - replace (Z.to_nat len) with (2 * Z.to_nat (len / 2))%nat by dlia. dlia.
  - replace (Z.to_nat len) with (S (2 * Z.to_nat (len / 2))) by dlia. cbn [csum].
    pose proof (get8_range b (o + Z.of_nat (2 * Z.to_nat (len / 2))) Hb). unfold is_u8 in *.
    unfold wt at 1. rewrite Nat.even_mul. cbn [Nat.even orb]. dlia.
Qed.

(** Storing the complement of the sum computed with the field at zero makes
    the total verify. *)
Lemma finish_sum_spec b l4 len sum off :
  bytes_ok b -> 0 <= l4 -> 0 <= len <= 65515 -> l4 + len <= blen b ->
  0 <= off -> off mod 2 = 0 -> off + 2 <= len -> get16 b (l4 + off) = 0 ->
  0 <= sum <= 327675 ->
  wp (finish_sum l4 len sum (l4 + off))
     (fun _ b' => (exists c, b' = put16 b (l4 + off) c)
        /\ verifies (sum + csum b' l4 (Z.to_nat len))) b.
Proof.
  intros Hb Hl4 Hl Hbl Ho Hoe Hoff Hz Hs. unfold finish_sum. apply wp_bind.
  eapply wp_mono; [|apply do_checksum_math_spec; done || lia].
  intros s b' [-> ->]. pose proof (csum_range b l4 len Hb ltac:(lia)) as Hr.
  apply wp_bind, add_int_ok; [dlia|]. wp_steps.
  destruct (CHECKSUM_CARRY_spec (sum + csum b l4 (Z.to_nat len)) ltac:(dlia)) as (Hc & He & Hp).
  set (c := CHECKSUM_CARRY _) in *. split; [eauto|].
  rewrite csum_put16_in, Hz, u16_id; try (done || lia).
  2:{ replace (l4 + off - l4) with off by lia. by apply even_to_nat. }
  replace (sum + (csum b l4 (Z.to_nat len) + (c - 0)))
    with (sum + csum b l4 (Z.to_nat len) + c) by lia.
  apply verifies_intro; [|done]. unfold is_u16 in Hc. dlia.
Qed.

Lemma pseudo_sum_v4_spec b data proto len :
  bytes_ok b -> 0 <= data -> data + 20 <= blen b ->
  wp (pseudo_sum false data proto len)
     (fun s b' => b' = b /\ s = csum b (data + o_ip_src) 8 + bswap16 (u16 (proto + len))
        /\ 0 <= s <= 327675) b.
Proof.
  intros Hb Hd Hbl. unfold pseudo_sum. apply wp_bind.
  eapply wp_mono; [|apply do_checksum_math_spec; done || lia].
  intros s b' [-> ->]. pose proof (csum_range b (data + 12) 8 Hb ltac:(lia)) as Hr.
  change (Z.to_nat 8) with 8%nat in *. change (65535 * ((8 + 1) / 2)) with 262140 in Hr.
  pose proof (bswap16_range (u16 (proto + len))) as Hw. unfold is_u16 in Hw.
  apply add_int_ok; [lia|]. repeat split; lia.
Qed.

(** The field offset of the layer-4 checksum. *)
Definition l4_sum_off (proto : Z) : Z := if proto =? IPPROTO_TCP then o_th_sum else o_uh_sum.

Lemma do_checksum_switch_l4 b data l4 proto len :
  bytes_ok b -> 0 <= data -> data + 20 <= l4 -> l4 + len <= blen b ->
  proto = IPPROTO_TCP \/ proto = IPPROTO_UDP /\ get16 b (l4 + o_uh_sum) <> 0 ->
  l4_sum_off proto + 2 <= len <= 65515 ->
  wp (do_checksum_switch false data (Some l4) proto len)
     (fun r b' => r = TCPEDIT_OK /\ bytes_ok b' /\ only_in (l4 + l4_sum_off proto) 2 b b'
        /\ verifies (l4_total b' data l4 proto len)) b.
Proof.
  intros Hb Hd Hl4 Hbl Hp Hl.
  assert (Hgen : forall off, 0 <= off -> off mod 2 = 0 -> off + 2 <= len ->
    wp (_ ← st16 (l4 + off) 0; sum ← pseudo_sum false data proto len;
        _ ← finish_sum l4 len sum (l4 + off); mret TCPEDIT_OK)
     (fun r b' => r = TCPEDIT_OK /\ bytes_ok b' /\ only_in (l4 + off) 2 b b'
        /\ verifies (l4_total b' data l4 proto len)) b).
  { intros off Ho He Hof. wp_steps.
    eapply wp_mono; [|apply pseudo_sum_v4_spec; rewrite ?blen_put16; auto with cint; lia].
    intros s b' (-> & -> & Hs). apply wp_bind.
    eapply wp_mono; [|apply (finish_sum_spec _ l4 len _ off); rewrite ?blen_put16;
      auto with cint; try lia; by rewrite get16_put16_eq by lia].
    intros _ b' [[c ->] Hv]. apply wp_ret. split; [done|]. split; [auto with cint|]. split.
    - eapply only_in_trans; apply only_in_put16; rewrite ?blen_put16; lia.
    - unfold l4_total. rewrite csum_put16_out; [done|rewrite ?blen_put16; lia..]. }
  unfold do_checksum_switch, l4_sum_off in *. destruct Hp as [-> | [-> Hu]]; cbn [Z.eqb Pos.eqb] in *.
  - apply (Hgen o_th_sum); lia || done.
  - wp_steps. destruct (Z.eqb_spec (get16 b (l4 + 6)) 0); [done|].
    apply (Hgen o_uh_sum); lia || done.
Qed.

Lemma do_checksum_switch_ip b data len :
  bytes_ok b -> 0 <= data -> 5 <= ip_hl b data -> data + 4 * ip_hl b data <= blen b ->
  wp (do_checksum_switch false data (Some (data + 4 * ip_hl b data)) IPPROTO_IP len)
     (fun r b' => r = TCPEDIT_OK /\ bytes_ok b' /\ only_in (data + o_ip_sum) 2 b b'
        /\ verifies (csum b' data (Z.to_nat (4 * ip_hl b' data)))) b.
Proof.
  intros Hb Hd Hh Hbl. pose proof (ip_hl_range b data).
  unfold do_checksum_switch. cbn [Z.eqb]. wp_steps.
  replace (data + 4 * ip_hl b data - data) with (4 * ip_hl b data) by lia.
  set (b0 := put16 b (data + 10) 0).
  assert (Hb0 : bytes_ok b0) by (apply bytes_ok_put16; done).
  assert (Hbl0 : blen b0 = blen b) by apply blen_put16.
  eapply wp_mono; [|apply do_checksum_math_spec; done || lia].
  intros s b' [-> ->]. pose proof (csum_range b0 data (4 * ip_hl b data) Hb0 ltac:(lia)) as Hr.
  wp_steps. destruct (CHECKSUM_CARRY_spec (csum b0 data (Z.to_nat (4 * ip_hl b data))) ltac:(dlia))
    as (Hc & He & Hpos).
  set (c := CHECKSUM_CARRY _) in *. split; [done|]. split; [auto with cint|].
  assert (Hon : only_in (data + 10) 2 b (put16 b0 (data + 10) c)).
  { eapply only_in_trans; apply only_in_put16; rewrite ?blen_put16; lia. }
  split; [done|]. assert (ip_hl (put16 b0 (data + 10) c) data = ip_hl b data) as ->.
  { unfold ip_hl. by rewrite (only_in_get8 _ _ _ _ _ Hon) by lia. }
  rewrite csum_put16_in; try (lia || done).
  2:{ replace (data + 10 - data) with 10 by lia. done. }
  unfold b0 at 2. rewrite get16_put16_eq, u16_id by (done || lia).
  change (u16 0) with 0. rewrite Z.sub_0_r. apply verifies_intro; [|done].
  unfold is_u16 in Hc. dlia.
Qed.

Lemma do_checksum_v4 b data proto len Q :
  0 <= data -> data + 1 <= blen b -> 0 < len -> ip_v b data <> 6 ->
  wp (do_checksum_switch false data (Some (data + 4 * ip_hl b data)) proto len) Q b ->
  wp (do_checksum data proto len) Q b.
Proof.
  intros Hd Hbl Hl Hv HQ. unfold do_checksum. replace (len <=? 0) with false by lia.
  apply wp_bind, wp_ld_ip_v; [lia..|]. replace (ip_v b data =? 6) with false by lia.
  apply wp_bind, wp_ld_ip_hl; [lia..|]. done.
Qed.

(** after [do_checksum] on an IPv4 TCP packet, or on an IPv4 UDP packet
    that carries a checksum, the segment verifies against its pseudo-header
    and no byte outside the checksum field has changed; no access leaves the
    packet and no [int] addition overflows. *)
Theorem do_checksum_tcp_udp b data proto len :
  bytes_ok b -> 0 <= data -> ip_v b data <> 6 -> 5 <= ip_hl b data ->
  let l4 := data + 4 * ip_hl b data in
  l4 + len <= blen b ->
  proto = IPPROTO_TCP \/ proto = IPPROTO_UDP /\ get16 b (l4 + o_uh_sum) <> 0 ->
  l4_sum_off proto + 2 <= len <= 65515 ->
  wp (do_checksum data proto len)
     (fun r b' => r = TCPEDIT_OK /\ bytes_ok b' /\ only_in (l4 + l4_sum_off proto) 2 b b'
        /\ verifies (l4_total b' data l4 proto len)) b.
Proof.
  intros Hb Hd Hv Hh l4 Hbl Hp Hl.
  assert (0 <= l4_sum_off proto) by (unfold l4_sum_off; case_match; lia).
  apply do_checksum_v4; try lia. apply do_checksum_switch_l4; done || lia.
Qed.

(** [do_checksum] for the IPv4 header itself: the header verifies and only
    its checksum field has changed. *)
Theorem do_checksum_ip b data len :
  bytes_ok b -> 0 <= data -> ip_v b data <> 6 -> 5 <= ip_hl b data -> 0 < len ->
  data + 4 * ip_hl b data <= blen b ->
  wp (do_checksum data IPPROTO_IP len)
     (fun r b' => r = TCPEDIT_OK /\ bytes_ok b' /\ only_in (data + o_ip_sum) 2 b b'
        /\ verifies (csum b' data (Z.to_nat (4 * ip_hl b' data)))) b.
Proof.
  intros Hb Hd Hv Hh Hl Hbl. apply do_checksum_v4; try lia. by apply do_checksum_switch_ip.
Qed.

(** [do_checksum] for an ICMP message over IPv4. *)
Theorem do_checksum_icmp b data len :
  bytes_ok b -> 0 <= data -> ip_v b data <> 6 -> 5 <= ip_hl b data -> 4 <= len <= 65515 ->
  let l4 := data + 4 * ip_hl b data in
  l4 + len <= blen b ->
  wp (do_checksum data IPPROTO_ICMP len)
     (fun r b' => r = TCPEDIT_OK /\ bytes_ok b' /\ only_in (l4 + o_icmp_sum) 2 b b'
        /\ verifies (csum b' l4 (Z.to_nat len))) b.
Proof.
  intros Hb Hd Hv Hh Hl l4 Hbl. apply do_checksum_v4; try lia.
  fold l4. unfold do_checksum_switch. cbn [Z.eqb Pos.eqb]. wp_steps.
  eapply wp_mono; [|apply (finish_sum_spec _ l4 len 0 o_icmp_sum); rewrite ?blen_put16;
      auto with cint; try lia; by rewrite get16_put16_eq by lia].
  intros _ b' [[c ->] Hvf]. apply wp_ret. split; [done|]. split; [auto with cint|].
  split; [|done]. eapply only_in_trans; apply only_in_put16; rewrite ?blen_put16; lia.
Qed.

Lemma do_checksum_tcp_udp_witness :
  wp (do_checksum 14 IPPROTO_TCP 24)
     (fun r b' => r = TCPEDIT_OK /\ verifies (l4_total b' 14 34 IPPROTO_TCP 24)) sample_tcp.
Proof.
  eapply wp_mono; [|apply (do_checksum_tcp_udp sample_tcp 14 IPPROTO_TCP 24);
    [concrete..|by left|concrete]].
  intros r b' (? & _ & _ & ?). by split.
Defined.

Lemma do_checksum_ip_witness :
  wp (do_checksum 14 IPPROTO_IP 44)
     (fun r b' => r = TCPEDIT_OK /\ verifies (csum b' 14 (Z.to_nat (4 * ip_hl b' 14)))) sample_tcp.
Proof.
  eapply wp_mono; [|apply (do_checksum_ip sample_tcp 14 44); concrete].
  intros r b' (? & _ & _ & ?). by split.
Defined.

Lemma do_checksum_icmp_witness :
  wp (do_checksum 14 IPPROTO_ICMP 8)
     (fun r b' => r = TCPEDIT_OK /\ verifies (csum b' 34 8)) sample_icmp.
Proof.
  eapply wp_mono; [|apply (do_checksum_icmp sample_icmp 14 8); concrete].
  intros r b' (? & _ & _ & ?). by split.
Defined.
