(* ===== verification/UniqueIp.v ===== *)
(** * Unique addresses in every pass: the fast editing of [send_packets.c]

    With --unique-ip each pass over a capture moves the two addresses of a packet
    apart by as much as the number of the pass, in a way that keeps their sum and
    with it every checksum.  A preloaded packet is edited in place, one step more
    in each pass. *)

From Stdlib Require Import ZArith Lia.
From stdpp Require Import base list.
From S2P Require Import Prelude Samples Wire Get Csum IncChecksum Checksum.

(** ** Two addresses *)

(** [src_ip] and [dst_ip] in host order; the subtractions wrap around. *)
Definition apart (cached : bool) (iteration src_ip dst_ip : Z) : bool :=
  (negb cached && (src_ip <? dst_ip))
  || (cached && (u32 (u32 (src_ip - 1) - iteration) <? u32 (dst_ip - iteration))).
(** One address goes down and the other up, with the compensation when one of them
    wraps around. *)
Definition move (step down up : Z) : Z * Z :=
  let down' := u32 (down - step) in let up' := u32 (up + step) in
  if (down <? down') && (up <? up') then (u32 (down' - 1), up')
  else if (up' <? up) && (down' <? down) then (down', u32 (up' + 1))
  else (down', up').
Definition shift_pair (cached : bool) (iteration src_ip dst_ip : Z) : Z * Z :=
  let step := if cached then 1 else iteration in
  if apart cached iteration src_ip dst_ip then move step src_ip dst_ip
  else let '(d, s) := move step dst_ip src_ip in (s, d).

(** The words at [p] and [q] of the packet, in network order. *)
Definition shift_at (cached : bool) (iteration p q : Z) : M unit :=
  s ← ld32 p;
  d ← ld32 q;
  let '(s', d') := shift_pair cached iteration (bswap32 s) (bswap32 d) in
  _ ← st32 p (bswap32 s');
  st32 q (bswap32 d').

(** ** Finding them in the packet *)

(** The type and the length of layer 2, for the link types without Ethernet header. *)
Definition dl_l2 (datalink : Z) : M (option (Z * Z)) :=
  if datalink =? DLT_LINUX_SLL then t ← ld16 o_sll_protocol; mret (Some (t, 16))
  else if datalink =? DLT_PPP_SERIAL then
    p ← ld16 o_ppp_protocol; mret (Some (if bswap16 p =? 33 then bswap16 ETHERTYPE_IP else p, 4))
  else if datalink =? DLT_C_HDLC then t ← ld16 o_hdlc_protocol; mret (Some (t, 4))
  else if datalink =? DLT_RAW then
    x ← ld8 0; mret (Some (if x / 16 =? 4 then ETHERTYPE_IP else if x / 16 =? 6 then ETHERTYPE_IP6 else 0, 0))
  else mret None.
(** The new addresses are stored through [src_ptr] and [dst_ptr], which are NULL: they
    are set nowhere. *)
Definition lost_edit (p q : Z) : M unit := _ ← ld32 p; _ ← ld32 q; fault_with Undef.
Definition fast_edit_packet_dl (caplen datalink : Z) : M unit :=
  if caplen <? TCPR_IPV6_H then mret tt
  else
    l2 ← dl_l2 datalink;
    match l2 with
    | None => mret tt
    | Some (ether_type, l2_len) =>
        if ether_type =? ETHERTYPE_IP then
          v ← ld_ip_v l2_len;
          if negb (v =? 4) then mret tt
          else if caplen <? TCPR_IPV4_H then mret tt
          else lost_edit (l2_len + o_ip_src) (l2_len + o_ip_dst)
        else if ether_type =? ETHERTYPE_IP6 then
          x ← ld8 0;
          if negb (x / 16 =? 6) then mret tt
          else lost_edit (l2_len + o_ip6_src + 12) (l2_len + o_ip6_dst + 12)
        else mret tt
    end.

Fixpoint edit_vlan_loop (fuel : nat) (ether_type l2_len : Z) : M (Z * Z) :=
  if ether_type =? ETHERTYPE_VLAN then
    match fuel with
    | O => fault_with Diverge
    | S fuel => t ← ld16 (l2_len + o_vlan_len); edit_vlan_loop fuel (bswap16 t) (l2_len + 4)
    end
  else mret (ether_type, l2_len).
(** After the call for the other link types the function goes on as for Ethernet. *)
Definition fast_edit_packet (caplen iteration : Z) (cached : bool) (datalink : Z) : M unit :=
  _ ← (if negb (datalink =? DLT_EN10MB) && negb (datalink =? DLT_JUNIPER_ETHER)
       then fast_edit_packet_dl caplen datalink else mret tt);
  if caplen <? TCPR_IPV6_H then mret tt
  else
    l2_len ← (if datalink =? DLT_JUNIPER_ETHER then
                _ ← ld8 0; _ ← ld8 1; _ ← ld8 2;          (* memcmp(packet, "MGC", 3) *)
                f ← ld8 3;
                if Z.land f 128 =? 128 then e ← ld16 4; mret (bswap16 e + 6) else mret 4
              else mret 0);
    t ← ld16 (l2_len + o_ether_type);
    '(ether_type, l2_len) ← with_fuel (fun fuel => edit_vlan_loop fuel (bswap16 t) l2_len);
    let l2_len := l2_len + TCPR_ETH_H in
    if ether_type =? ETHERTYPE_IP then shift_at cached iteration (l2_len + o_ip_src) (l2_len + o_ip_dst)
    else if ether_type =? ETHERTYPE_IP6 then
      shift_at cached iteration (l2_len + o_ip6_src + 12) (l2_len + o_ip6_dst + 12)
    else mret tt.

(** ** The sum is kept *)
Lemma u32_sub x n : is_u32 x -> is_u32 n -> u32 (x - n) = if n <=? x then x - n else x - n + 4294967296.
Proof. unfold is_u32, u32. intros Hx Hn. destruct (Z.leb_spec n x); dlia. Qed.
Lemma u32_add x n : is_u32 x -> is_u32 n -> u32 (x + n) = if x + n <? 4294967296 then x + n else x + n - 4294967296.
Proof. unfold is_u32, u32. intros Hx Hn. destruct (Z.ltb_spec (x + n) 4294967296); dlia. Qed.

(** The result of a move, case by case. *)
Lemma move_cases n down up :
  is_u32 n -> is_u32 down -> is_u32 up ->
  move n down up =
    (match n <=? down, up + n <? 4294967296 with
     | true, true => (down - n, up + n)
     | false, true => (down - n + 4294967295, up + n)
     | true, false => (down - n, up + n - 4294967295)
     | false, false => (down - n + 4294967296, up + n - 4294967296)
     end).
Proof.
  intros Hn Hd Hu. unfold move. rewrite u32_sub, u32_add by done. unfold is_u32 in *.
  destruct (Z.leb_spec n down), (Z.ltb_spec (up + n) 4294967296);
    repeat match goal with |- context [?x <? ?y] => destruct (Z.ltb_spec x y); try lia end; cbn [andb];
    try done; unfold u32; f_equal; try dlia.
Qed.
Lemma move_range n down up :
  is_u32 n -> is_u32 down -> is_u32 up -> is_u32 (move n down up).1 /\ is_u32 (move n down up).2.
Proof.
  intros Hn Hd Hu. rewrite move_cases by done. unfold is_u32 in *.
  destruct (Z.leb_spec n down), (Z.ltb_spec (up + n) 4294967296); cbn; lia.
Qed.
Lemma move_sum n down up :
  is_u32 n -> is_u32 down -> is_u32 up -> (move n down up).1 + (move n down up).2 ≈ down + up.
Proof.
  intros Hn Hd Hu. rewrite move_cases by done.
  destruct (Z.leb_spec n down), (Z.ltb_spec (up + n) 4294967296); cbn -[Z.add Z.sub];
    [apply (eqm_diff _ _ 0)|apply (eqm_diff _ _ (-65537))|apply (eqm_diff _ _ 65537)|apply (eqm_diff _ _ 0)]; lia.
Qed.
(** Different steps lead to different pairs. *)
Lemma move_inj n m down up :
  is_u32 n -> is_u32 m -> is_u32 down -> is_u32 up -> move n down up = move m down up -> n = m.
Proof.
  intros Hn Hm Hd Hu. rewrite !move_cases by done. unfold is_u32 in *.
  destruct (Z.leb_spec n down), (Z.ltb_spec (up + n) 4294967296), (Z.leb_spec m down), (Z.ltb_spec (up + m) 4294967296);
    intros [E1 E2]%pair_equal_spec; lia.
Qed.

Lemma shift_pair_range cached n s d :
  is_u32 n -> is_u32 s -> is_u32 d -> is_u32 (shift_pair cached n s d).1 /\ is_u32 (shift_pair cached n s d).2.
Proof.
  intros Hn Hs Hd. assert (Hk : is_u32 (if cached then 1 else n)) by (by destruct cached). unfold shift_pair.
  destruct (apart _ _ _ _); [by apply move_range|]. destruct (move_range _ d s Hk Hd Hs). destruct (move _ d s). done.
Qed.
Lemma shift_pair_sum cached n s d :
  is_u32 n -> is_u32 s -> is_u32 d -> (shift_pair cached n s d).1 + (shift_pair cached n s d).2 ≈ s + d.
Proof.
  intros Hn Hs Hd. assert (Hk : is_u32 (if cached then 1 else n)) by (by destruct cached). unfold shift_pair.
  destruct (apart _ _ _ _); [by apply move_sum|]. pose proof (move_sum _ d s Hk Hd Hs) as E. destruct (move _ d s) as [x y].
  cbn [fst snd] in *. by rewrite Z.add_comm, E, Z.add_comm.
Qed.

(** ** Network order *)
Lemma bswap32_eqm x : is_u32 x -> bswap32 x ≈ 256 * x.
Proof.
  intros (a & b & c & d & Ha & Hb & Hc & Hd & ->)%bytes_of. rewrite bswap32_bytes by done.
  apply (eqm_diff _ _ (256 * a - 256 * c - 65537 * d)). lia.
Qed.
Lemma bswap32_sum x y x' y' :
  is_u32 x -> is_u32 y -> is_u32 x' -> is_u32 y' -> x' + y' ≈ x + y -> bswap32 x' + bswap32 y' ≈ bswap32 x + bswap32 y.
Proof.
  intros Hx Hy Hx' Hy' E. rewrite !bswap32_eqm by done. rewrite <- !Z.mul_add_distr_l. by rewrite E.
Qed.

(** What the edit of the words at [p] and [q] does: the other bytes and every sum
    over both words stay. *)
Record pair_edit (cached : bool) (n p q : Z) (b b' : buf) : Prop := {
  pe_len : blen b' = blen b;
  pe_bytes : bytes_ok b';
  pe_pair : (bswap32 (get32 b' p), bswap32 (get32 b' q)) = shift_pair cached n (bswap32 (get32 b p)) (bswap32 (get32 b q));
  pe_frame i : 0 <= i -> i < p \/ p + 4 <= i -> i < q \/ q + 4 <= i -> get8 b' i = get8 b i;
  pe_sum o k : 0 <= o <= p -> p + 4 <= q -> q + 4 <= o + Z.of_nat k -> (p - o) mod 2 = 0 -> (q - o) mod 2 = 0 ->
    csum b' o k ≈ csum b o k
}.
Lemma shift_at_ok cached n p q b :
  bytes_ok b -> is_u32 n -> 0 <= p -> p + 4 <= q -> q + 4 <= blen b ->
  wp (shift_at cached n p q) (fun _ b' => pair_edit cached n p q b b') b.
Proof.
  intros Hb Hn Hp Hq Hl. unfold shift_at. wp_steps.
  pose proof (bswap32_range (get32 b p)) as Rs. pose proof (bswap32_range (get32 b q)) as Rd.
  pose proof (shift_pair_range cached n _ _ Hn Rs Rd) as [Rs' Rd']. pose proof (shift_pair_sum cached n _ _ Hn Rs Rd) as E.
  destruct (shift_pair cached n _ _) as [s' d'] eqn:SP. cbn [fst snd] in *. wp_steps.
  pose proof (bswap32_range s'). pose proof (bswap32_range d').
  split; autorewrite with blen; [done|auto with cint|..].
  - rewrite SP. rewrite get32_put32_ne by (autorewrite with blen; lia). rewrite !get32_put32_eq by (autorewrite with blen; lia).
    by rewrite !u32_id, !bswap32_involutive.
  - intros i Hi H1 H2. by rewrite !get8_put32_ne by (autorewrite with blen; lia).
  - intros o k Ho _ Hk Ep Eq. rewrite csum_put32_in; autorewrite with blen; try lia; [|by apply even_to_nat; lia].
    rewrite csum_put32_in by (lia || by apply even_to_nat; lia). rewrite get32_put32_ne by (autorewrite with blen; lia).
    rewrite !u32_id by done. apply bswap32_sum in E; [|done..]. rewrite !bswap32_involutive in E by (by apply get32_range).
    transitivity (csum b o k + (bswap32 s' + bswap32 d') - (get32 b p + get32 b q)); [apply (eqm_diff _ _ 0); lia|].
    rewrite E. apply (eqm_diff _ _ 0). lia.
Qed.

Lemma edit_vlan_loop_run b k n j fuel :
  vlan_tags b k -> TCPR_ETH_H + 4 * Z.of_nat k <= blen b -> (k - j = n)%nat -> (j <= k)%nat -> (n < fuel)%nat ->
  edit_vlan_loop fuel (bswap16 (get16 b (o_ether_type + 4 * Z.of_nat j))) (4 * Z.of_nat j) b
  = Ok (bswap16 (get16 b (o_ether_type + 4 * Z.of_nat k)), 4 * Z.of_nat k, b).
Proof.
  intros [Htags Hend] Hlen. revert j fuel. induction n as [|n IH]; intros j fuel Hn Hj Hf;
    (destruct fuel as [|fuel]; [lia|]); cbn [edit_vlan_loop].
  - assert (j = k) as -> by lia. by rewrite (proj2 (Z.eqb_neq _ _) Hend).
  - rewrite Htags by lia. rewrite Z.eqb_refl. specialize (IH (S j) fuel ltac:(lia) ltac:(lia) ltac:(lia)).
    unfold mbind, M_bind, ld16, in_bounds. replace (_ && _) with true by lia.
    replace (4 * Z.of_nat j + 16) with (o_ether_type + 4 * Z.of_nat (S j)) by lia.
    by replace (4 * Z.of_nat j + 4) with (4 * Z.of_nat (S j)) by lia.
Qed.
(** On an Ethernet frame the edit is that of the two addresses of the innermost header. *)
Lemma fast_edit_ethernet b k caplen n cached :
  let h := TCPR_ETH_H + 4 * Z.of_nat k in let ether_type := bswap16 (get16 b (o_ether_type + 4 * Z.of_nat k)) in
  vlan_tags b k -> h <= blen b -> TCPR_IPV6_H <= caplen ->
  fast_edit_packet caplen n cached DLT_EN10MB b =
    (if ether_type =? ETHERTYPE_IP then shift_at cached n (h + o_ip_src) (h + o_ip_dst)
     else if ether_type =? ETHERTYPE_IP6 then shift_at cached n (h + o_ip6_src + 12) (h + o_ip6_dst + 12)
     else mret tt) b.
Proof.
  cbv zeta. intros Ht Hl Hc. unfold fast_edit_packet, mbind, M_bind. cbn [Z.eqb Pos.eqb negb andb mret M_ret].
  rewrite (proj2 (Z.ltb_ge _ _)) by lia. unfold ld16 at 1, in_bounds. replace (_ && _) with true by lia. unfold with_fuel.
  pose proof (edit_vlan_loop_run b k k 0 (S (length b)) Ht Hl ltac:(lia) ltac:(lia)) as R. unfold blen in *. specialize (R ltac:(lia)).
  change (0 + 12) with (o_ether_type + 4 * Z.of_nat 0).
  change (edit_vlan_loop _ _ 0 b) with
    (edit_vlan_loop (S (length b)) (bswap16 (get16 b (o_ether_type + 4 * Z.of_nat 0))) (4 * Z.of_nat 0) b).
  rewrite R. by rewrite (Z.add_comm (4 * Z.of_nat k)).
Qed.

(** ** IP packets in Ethernet frames *)

(** Where the headers are behind [k] tags: the IP header, the words of the
    addresses that are edited, and the addresses as the pseudo header has them. *)
Definition hdr (k : nat) : Z := TCPR_ETH_H + 4 * Z.of_nat k.
Definition src_word (v6 : bool) (k : nat) : Z := hdr k + (if v6 then o_ip6_src + 12 else o_ip_src).
Definition dst_word (v6 : bool) (k : nat) : Z := hdr k + (if v6 then o_ip6_dst + 12 else o_ip_dst).
Definition addr_sum (v6 : bool) (k : nat) (b : buf) : Z :=
  if v6 then csum b (hdr k + o_ip6_src) 32 else csum b (hdr k + o_ip_src) 8.
(** What a receiver folds for a segment of [len] bytes at [l4]. *)
Definition segment_total (v6 : bool) (k : nat) (l4 proto len : Z) (b : buf) : Z :=
  addr_sum v6 k b + bswap16 (u16 (proto + len)) + csum b l4 (Z.to_nat len).
Definition addresses (v6 : bool) (k : nat) (b : buf) : Z * Z :=
  (bswap32 (get32 b (src_word v6 k)), bswap32 (get32 b (dst_word v6 k))).

Record ip_frame (v6 : bool) (k : nat) (b : buf) : Prop := {
  if_bytes : bytes_ok b;
  if_tags : vlan_tags b k;
  if_type : bswap16 (get16 b (o_ether_type + 4 * Z.of_nat k)) = if v6 then ETHERTYPE_IP6 else ETHERTYPE_IP;
  if_len : dst_word v6 k + 4 <= blen b
}.

Lemma fast_edit_ok v6 k caplen n cached b :
  ip_frame v6 k b -> is_u32 n -> TCPR_IPV6_H <= caplen ->
  exists b', fast_edit_packet caplen n cached DLT_EN10MB b = Ok (tt, b')
    /\ pair_edit cached n (src_word v6 k) (dst_word v6 k) b b' /\ ip_frame v6 k b'.
Proof.
  intros [Hb Ht Hty Hl] Hn Hc.
  assert (Hd : src_word v6 k + 4 <= dst_word v6 k /\ hdr k + 12 <= src_word v6 k) by (unfold src_word, dst_word; destruct v6; lia).
  assert (H0 : 14 <= hdr k) by (unfold hdr; lia).
  assert (W : wp (shift_at cached n (src_word v6 k) (dst_word v6 k))
    (fun _ b' => pair_edit cached n (src_word v6 k) (dst_word v6 k) b b') b) by (apply shift_at_ok; (done || lia)).
  apply wp_run in W as ([] & b' & R & P). exists b'. split; [|split; [done|]].
  - rewrite (fast_edit_ethernet b k) by (done || unfold hdr in *; lia). rewrite Hty. unfold src_word, dst_word, hdr in R.
    destruct v6; cbn [Z.eqb Pos.eqb]; rewrite <- ?Z.add_assoc in *; exact R.
  - destruct P as [P1 P2 P3 P4 P5].
    assert (G : forall i, (i <= k)%nat -> get16 b' (o_ether_type + 4 * Z.of_nat i) = get16 b (o_ether_type + 4 * Z.of_nat i)).
    { intros i Hi. unfold get16. unfold hdr in *. rewrite !P4 by lia. done. }
    split; [done| |by rewrite G|by rewrite P1].
    destruct Ht as [T1 T2]. split; [intros i Hi; rewrite G by lia; auto|by rewrite G].
Qed.
Lemma addr_sum_kept v6 k cached n b b' :
  pair_edit cached n (src_word v6 k) (dst_word v6 k) b b' -> addr_sum v6 k b' ≈ addr_sum v6 k b.
Proof.
  intros [P1 P2 P3 P4 P5]. unfold addr_sum, src_word, dst_word, hdr in *. destruct v6; apply P5; try lia; dlia.
Qed.
Lemma pair_edit_out v6 k cached n b b' o len :
  pair_edit cached n (src_word v6 k) (dst_word v6 k) b b' -> dst_word v6 k + 4 <= o -> csum b' o len = csum b o len.
Proof.
  intros [P1 P2 P3 P4 P5] Ho. apply csum_ext. intros i Hi. apply P4; unfold src_word, dst_word, hdr in *; destruct v6; lia.
Qed.
Lemma csum_first b o n : bytes_ok b -> get8 b o <= csum b o (S n).
Proof.
  intros Hb. induction n as [|n IH]; cbn [csum] in *.
  - rewrite Z.add_0_r. unfold wt. cbn. lia.
  - pose proof (get8_range b (o + Z.of_nat (S n)) Hb) as R. destruct (wt_cases (S n)) as [-> | ->]; unfold is_u8 in R; lia.
Qed.
Lemma verifies_kept t t' : 0 <= t < 4294967296 -> 0 < t' < 4294967296 -> t' ≈ t -> verifies t -> verifies t'.
Proof.
  intros R R' E V. apply verifies_intro; [done|]. unfold verifies in V. destruct (csum_fold_spec t) as [F _]; [unfold is_u32; lia|].
  rewrite V in F. rewrite E. transitivity (- - t); [by rewrite Z.opp_involutive|]. by rewrite <- F.
Qed.
Lemma segment_total_range v6 k l4 proto len b :
  bytes_ok b -> 0 <= len -> 0 < proto + len < 65536 -> 0 <= proto -> 0 < segment_total v6 k l4 proto len b < 4294967296.
Proof.
  intros Hb Hl Hp Hp0. unfold segment_total, addr_sum.
  assert (0 <= (if v6 then csum b (hdr k + o_ip6_src) 32 else csum b (hdr k + o_ip_src) 8) <= 65535 * 16).
  { destruct v6; (split; [by apply csum_nonneg|]);
      [pose proof (csum_bound b (hdr k + o_ip6_src) 16 Hb)|pose proof (csum_bound b (hdr k + o_ip_src) 4 Hb)]; cbn [Nat.mul Nat.add] in *; lia. }
  pose proof (csum_range b l4 len Hb ltac:(lia)) as R. rewrite u16_id by (unfold is_u16; lia).
  assert (0 < bswap16 (proto + len) <= 65535) by (unfold bswap16; dlia). dlia.
Qed.
Lemma ip_header_range b h hl : bytes_ok b -> get8 b h <> 0 -> 1 <= hl <= 15 -> 0 < csum b h (Z.to_nat (4 * hl)) < 4294967296.
Proof.
  intros Hb H0 Hh. pose proof (csum_range b h (4 * hl) Hb ltac:(lia)). pose proof (get8_range b h Hb) as R. unfold is_u8 in R.
  pose proof (csum_first b h (Nat.pred (Z.to_nat (4 * hl))) Hb). replace (S _) with (Z.to_nat (4 * hl)) in * by lia. dlia.
Qed.

(** C27: with --unique-ip an IP packet in an Ethernet frame with any number of tags is
    edited without a fault in the words of its two addresses alone, which become
    those of [shift_pair], and for all addresses and all passes, also when an
    address wraps around, every checksum that was valid stays valid: that of the
    IPv4 header and that of the segment, without being recomputed. *)
Theorem unique_ip_keeps_checksums v6 k caplen n cached b :
  ip_frame v6 k b -> is_u32 n -> TCPR_IPV6_H <= caplen ->
  exists b', fast_edit_packet caplen n cached DLT_EN10MB b = Ok (tt, b')
    /\ addresses v6 k b' = (let '(s, d) := addresses v6 k b in shift_pair cached n s d)
    /\ (forall i, 0 <= i -> i < src_word v6 k \/ src_word v6 k + 4 <= i -> i < dst_word v6 k \/ dst_word v6 k + 4 <= i ->
          get8 b' i = get8 b i)
    /\ (v6 = false -> 5 <= ip_hl b (hdr k) -> let header b := csum b (hdr k) (Z.to_nat (4 * ip_hl b (hdr k))) in
          verifies (header b) -> verifies (header b'))
    /\ (forall l4 proto len, dst_word v6 k + 4 <= l4 -> 0 <= len -> 0 <= proto -> 0 < proto + len < 65536 ->
          let total := segment_total v6 k l4 proto len in verifies (total b) -> verifies (total b')).
Proof.
  intros F Hn Hc. destruct (fast_edit_ok v6 k caplen n cached b F Hn Hc) as (b' & R & P & F'). exists b'. split; [done|].
  split; [exact (pe_pair _ _ _ _ _ _ P)|]. split; [exact (pe_frame _ _ _ _ _ _ P)|]. split.
  - intros -> Hh. cbv beta zeta. assert (E : get8 b' (hdr k) = get8 b (hdr k)).
    { apply (pe_frame _ _ _ _ _ _ P); unfold src_word, dst_word, hdr; lia. }
    assert (E' : ip_hl b' (hdr k) = ip_hl b (hdr k)) by (unfold ip_hl; by rewrite E). rewrite E'.
    pose proof (ip_hl_range b (hdr k)). assert (get8 b (hdr k) <> 0) by (intros Z0; unfold ip_hl in Hh; rewrite Z0 in Hh; change (ip_hl_of 0) with 0 in Hh; lia).
    pose proof (ip_header_range b (hdr k) (ip_hl b (hdr k)) (if_bytes _ _ _ F) ltac:(done) ltac:(lia)).
    pose proof (ip_header_range b' (hdr k) (ip_hl b (hdr k)) (if_bytes _ _ _ F') ltac:(congruence) ltac:(lia)).
    apply verifies_kept; [lia|lia|]. apply (pe_sum _ _ _ _ _ _ P); unfold src_word, dst_word, hdr in *; try lia; dlia.
  - intros l4 proto len H4 Hl Hp0 Hp. cbv zeta.
    pose proof (segment_total_range v6 k l4 proto len b (if_bytes _ _ _ F) Hl Hp Hp0).
    pose proof (segment_total_range v6 k l4 proto len b' (if_bytes _ _ _ F') Hl Hp Hp0).
    apply verifies_kept; [lia|done|]. unfold segment_total. rewrite (pair_edit_out v6 k cached n b b') by done.
    by rewrite (addr_sum_kept v6 k cached n b b').
Qed.

(** A raw IPv4 packet makes the process dereference the null pointer. *)
Lemma raw_edit_crashes caplen n cached b :
  TCPR_IPV6_H <= caplen <= blen b -> get8 b 0 / 16 = 4 -> fast_edit_packet caplen n cached DLT_RAW b = Err Undef.
Proof.
  intros Hc Hv. assert (L : forall o k, 0 <= o -> o + k <= 40 -> in_bounds b o k = true) by (intros; unfold in_bounds; lia).
  unfold fast_edit_packet, fast_edit_packet_dl, lost_edit, dl_l2, ld_ip_v, mbind, M_bind, ld8, ld32, mret, M_ret.
  cbn [Z.eqb Pos.eqb negb andb]. rewrite (proj2 (Z.ltb_ge caplen 40)), L by lia. rewrite Hv. cbn [Z.eqb Pos.eqb].
  rewrite L by lia. unfold ip_v_of. change (0 + 0) with 0. rewrite Hv. cbn [Z.eqb Pos.eqb negb].
  by rewrite (proj2 (Z.ltb_ge caplen 20)), !L by lia.
Qed.

(** ** Passes *)

(** A capture that is read again in every pass: pass [n] edits the packet of the file. *)
Lemma shift_pair_0 s d : is_u32 s -> is_u32 d -> shift_pair false 0 s d = (s, d).
Proof.
  intros Hs Hd. unfold shift_pair. unfold is_u32 in *. destruct (apart _ _ _ _); rewrite move_cases by done;
    rewrite (proj2 (Z.leb_le _ _)), (proj2 (Z.ltb_lt _ _)) by lia; f_equal; lia.
Qed.
Lemma shift_pair_inj n m s d :
  is_u32 n -> is_u32 m -> is_u32 s -> is_u32 d -> shift_pair false n s d = shift_pair false m s d -> n = m.
Proof.
  intros Hn Hm Hs Hd. unfold shift_pair, apart. cbn [negb andb orb]. rewrite !orb_false_r. destruct (s <? d).
  - by apply move_inj.
  - intros E. apply (move_inj n m d s); try done. destruct (move n d s), (move m d s). congruence.
Qed.

(** C28: without preloading, any two passes of the first 2^32 send a packet with
    different addresses, the unedited first pass included. *)
Theorem unique_ip_passes_differ v6 k caplen n m b :
  ip_frame v6 k b -> is_u32 n -> is_u32 m -> n <> m -> TCPR_IPV6_H <= caplen ->
  exists bn bm, fast_edit_packet caplen n false DLT_EN10MB b = Ok (tt, bn)
    /\ fast_edit_packet caplen m false DLT_EN10MB b = Ok (tt, bm)
    /\ addresses v6 k bn <> addresses v6 k bm /\ (n <> 0 -> addresses v6 k bn <> addresses v6 k b).
Proof.
  intros F Hn Hm Hne Hc. destruct (fast_edit_ok v6 k caplen n false b F Hn Hc) as (bn & Rn & Pn & _).
  destruct (fast_edit_ok v6 k caplen m false b F Hm Hc) as (bm & Rm & Pm & _). exists bn, bm. split; [done|]. split; [done|].
  unfold addresses. rewrite (pe_pair _ _ _ _ _ _ Pn), (pe_pair _ _ _ _ _ _ Pm).
  pose proof (bswap32_range (get32 b (src_word v6 k))). pose proof (bswap32_range (get32 b (dst_word v6 k))). split.
  - intros E. by apply shift_pair_inj in E.
  - intros Hz E. apply Hz. rewrite <- shift_pair_0 in E by done. by apply shift_pair_inj in E.
Qed.




(** ** Samples *)

(** A TCP segment with valid checksums, and one from 2001:db8::5 to 2001:db8::2. *)
Definition valid_tcp : buf :=
  eth_hdr 2048 ++ [69; 0; 0; 44; 0; 1; 64; 0; 64; 6; 112; 32; 192; 168; 0; 1; 10; 0; 0; 2]
  ++ [0; 80; 31; 144; 0; 0; 0; 1; 0; 0; 0; 2; 80; 16; 1; 0; 192; 60; 0; 0; 1; 2; 3; 4].
Lemma valid_frame : ip_frame false 0 valid_tcp.
Proof.
  split; [repeat constructor; vm_compute; (discriminate || reflexivity)| |reflexivity|vm_compute; discriminate].
  split; [intros i ?; lia|vm_compute; discriminate].
Qed.

(** In this pass the destination wraps around. *)
Lemma unique_ip_keeps_checksums_witness :
  exists b', fast_edit_packet 58 200000000 false DLT_EN10MB valid_tcp = Ok (tt, b')
    /\ addresses false 0 b' = (3432235521, 4262739457)
    /\ verifies (csum b' 14 (Z.to_nat (4 * ip_hl b' 14))) /\ verifies (segment_total false 0 34 6 24 b').
Proof.
  destruct (unique_ip_keeps_checksums false 0 58 200000000 false valid_tcp valid_frame ltac:(unfold is_u32; lia) ltac:(unfold is_u32; lia))
    as (b' & R & A & _ & V & T).
  exists b'. split; [exact R|]. split; [rewrite A; vm_compute; reflexivity|]. split.
  - apply (V eq_refl); [vm_compute; discriminate|vm_compute; reflexivity].
  - apply (T 34 6 24); [vm_compute; discriminate|lia|lia|lia|vm_compute; reflexivity].
Defined.
Lemma unique_ip_passes_differ_witness :
  exists bn bm, fast_edit_packet 58 1 false DLT_EN10MB valid_tcp = Ok (tt, bn)
    /\ fast_edit_packet 58 2 false DLT_EN10MB valid_tcp = Ok (tt, bm)
    /\ addresses false 0 bn <> addresses false 0 bm /\ (1 <> 0 -> addresses false 0 bn <> addresses false 0 valid_tcp).
Proof. exact (unique_ip_passes_differ false 0 58 1 2 valid_tcp valid_frame ltac:(unfold is_u32; lia) ltac:(unfold is_u32; lia) ltac:(lia) ltac:(unfold is_u32; lia)). Defined.
