(* ===== verification/Cidr.v ===== *)
(** * CIDR netblocks: [ddtcpreplay/src/common/cidr.{c,h}]

    Membership of IPv4 and IPv6 addresses in netblocks and lists of them.  IPv4
    addresses are [u_int32_t] in network byte order, as loaded from a packet;
    IPv6 addresses are the sixteen bytes of [struct tcpr_in6_addr].  A null
    [tcpr_cidr_t *] is the empty list, the [next] chain is the list. *)

From Stdlib Require Import ZArith Lia.
From stdpp Require Import base list.
From S2P Require Import Prelude Wire.

(** The union [u] is modelled by its two readings; [family] says which one is
    in use. *)
Record tcpr_cidr := {
  family : Z;
  network : Z;
  network6 : list Z;
  masklen : Z
}.

Definition new_cidr : tcpr_cidr :=
  {| family := 0; network := 0; network6 := replicate 16 0; masklen := 99 |}.

Definition add_cidr (cidrdata newcidr : list tcpr_cidr) : list tcpr_cidr :=
  match cidrdata with [] => newcidr | _ => cidrdata ++ newcidr end.

(** [tcpr_cidrmap_t]: one netblock mapped onto another; the chain is a list. *)
Record tcpr_cidrmap := { from : tcpr_cidr; to : tcpr_cidr }.

(** ** Membership *)

Definition ip_in_cidr (mycidr : tcpr_cidr) (ip : Z) : res bool :=
  if negb (family mycidr =? AF_INET) then Ok false
  else if (masklen mycidr =? 0) && (network mycidr =? 0) then Ok true
  else
    let sh := 32 - masklen mycidr in
    if (sh <? 0) || (64 <=? sh) then Err Undef
    else
      let mask := u64 (Z.shiftl (Z.ones 64) sh) in
      let ipaddr := Z.land (bswap32 (u32 ip)) mask in
      let net := Z.land (bswap32 (network mycidr)) mask in
      Ok (net =? ipaddr).

Definition ip6_addr_is_unspec (addr : list Z) : bool := forallb (fun x => x =? 0) addr.

(** The byte loop of [ip6_in_cidr]; the arrays have sixteen elements. *)
Fixpoint ip6_prefix_loop (n : nat) (addr net : list Z) : res bool :=
  match n with
  | O => Ok true
  | S n =>
      match addr, net with
      | x :: addr, y :: net => if negb (x =? y) then Ok false else ip6_prefix_loop n addr net
      | _, _ => Err Oob
      end
  end.

Definition ip6_in_cidr (mycidr : tcpr_cidr) (addr : list Z) : res bool :=
  if negb (family mycidr =? AF_INET6) then Ok false
  else if (masklen mycidr =? 0) && ip6_addr_is_unspec addr then Ok true
  else
    let j := Z.quot (masklen mycidr) 8 in
    same ← ip6_prefix_loop (Z.to_nat j) addr (network6 mycidr);
    if negb same then Ok false
    else
      let k := Z.rem (masklen mycidr) 8 in
      if k =? 0 then Ok true
      else if (j <? 0) || (blen addr <=? j) || (blen (network6 mycidr) <=? j) then Err Oob
      else
        let k := Z.shiftl (-1) (8 - k) in
        Ok (Z.land (get8 addr j) k =? Z.land (get8 (network6 mycidr) j) k).

Section check.
Context {A : Type} (in_cidr : tcpr_cidr -> A -> res bool).

(** The [while (1)] loop of the two list checks. *)
Fixpoint check_loop (cidrs : list tcpr_cidr) (ip : A) : res bool :=
  match cidrs with
  | [] => Ok false
  | c :: cidrs => m ← in_cidr c ip; if (m : bool) then Ok true else check_loop cidrs ip
  end.
Definition check_any (cidrdata : list tcpr_cidr) (ip : A) : res bool :=
  match cidrdata with [] => Ok true | _ => check_loop cidrdata ip end.
End check.

Definition check_ip_cidr : list tcpr_cidr -> Z -> res bool := check_any ip_in_cidr.
Definition check_ip6_cidr : list tcpr_cidr -> list Z -> res bool := check_any ip6_in_cidr.

(** ** Correctness of membership *)

Definition cidr4_ok (c : tcpr_cidr) : Prop :=
  family c = AF_INET /\ is_u32 (network c) /\ 0 <= masklen c <= 32.

(** The network part of an address in host order: its [m] leading bits. *)
Definition prefix4 (m ip : Z) : Z := bswap32 ip / 2 ^ (32 - m).

Lemma land_high_mask x sh :
  0 <= x < 2 ^ 64 -> 0 <= sh < 64 ->
  Z.land x (u64 (Z.shiftl (Z.ones 64) sh)) = x / 2 ^ sh * 2 ^ sh.
Proof.
  intros Hx Hs. rewrite <- Z.shiftr_div_pow2, <- Z.shiftl_mul_pow2 by lia.
  unfold u64. change 18446744073709551616 with (2 ^ 64). rewrite <- Z.land_ones by lia.
  apply Z.bits_inj'. intros n Hn. rewrite !Z.land_spec, !Z.shiftl_spec by lia.
  destruct (Z.ltb_spec n sh).
  - rewrite (Z.testbit_neg_r _ (n - sh)), (Z.testbit_neg_r _ (n - sh)) by lia.
    by rewrite andb_false_r.
  - rewrite Z.shiftr_spec by lia. replace (n - sh + sh) with n by lia.
    destruct (Z.ltb_spec n 64).
    + rewrite !Z.ones_spec_low by lia. by rewrite !andb_true_r.
    + replace (Z.testbit x n) with false; [done|].
      rewrite <- (Z.mod_small x (2 ^ 64)), Z.mod_pow2_bits_high; done || lia.
Qed.

Lemma Z_eqb_decide x y : (x =? y) = bool_decide (x = y).
Proof. destruct (Z.eqb_spec x y); [by rewrite bool_decide_true|by rewrite bool_decide_false]. Qed.
Lemma eqb_mul_pow2 a b p : 0 < p -> (a * p =? b * p) = (a =? b).
Proof. intros. destruct (Z.eqb_spec a b), (Z.eqb_spec (a * p) (b * p)); nia || done. Qed.

(** [ip_in_cidr] decides equality of the [masklen] leading bits, for every mask
    length from 0 to 32. *)
Lemma ip_in_cidr_prefix c ip :
  cidr4_ok c -> is_u32 ip ->
  ip_in_cidr c ip = Ok (prefix4 (masklen c) ip =? prefix4 (masklen c) (network c)).
Proof.
  intros (Hf & Hn & Hm) Hi. unfold ip_in_cidr, prefix4. rewrite Hf, (u32_id ip) by done.
  cbn [Z.eqb Pos.eqb negb].
  pose proof (bswap32_range ip) as Hbi. pose proof (bswap32_range (network c)) as Hbn.
  unfold is_u32 in Hbi, Hbn.
  destruct ((masklen c =? 0) && (network c =? 0)) eqn:H0.
  - apply andb_prop in H0 as [H1 H2]. apply Z.eqb_eq in H1, H2. rewrite H1, H2.
    change (2 ^ (32 - 0)) with 4294967296. rewrite !Z.div_small by (lia || (split; vm_compute; done)).
    done.
  - replace ((32 - masklen c <? 0) || (64 <=? 32 - masklen c)) with false by lia.
    rewrite !land_high_mask by lia. f_equal.
    rewrite eqb_mul_pow2 by (apply Z.pow_pos_nonneg; lia). apply Z.eqb_sym.
Qed.

(** ** IPv6: addresses as 128-bit numbers *)

Definition be (l : list Z) : Z := foldl (fun acc x => 256 * acc + x) 0 l.
Definition prefix6 (m : Z) (addr : list Z) : Z := be addr / 2 ^ (128 - m).

Definition addr6_ok (l : list Z) : Prop := bytes_ok l /\ length l = 16%nat.
Definition cidr6_ok (c : tcpr_cidr) : Prop :=
  family c = AF_INET6 /\ addr6_ok (network6 c) /\ 0 <= masklen c <= 128.

Lemma be_acc l a : foldl (fun acc x => 256 * acc + x) a l = a * 256 ^ blen l + be l.
Proof.
  unfold be, blen. revert a. induction l as [|x l IH]; intros a; cbn [foldl length].
  - cbn. lia.
  - rewrite IH, (IH (256 * 0 + x)), Nat2Z.inj_succ, Z.pow_succ_r by lia. lia.
Qed.
Lemma be_app l1 l2 : be (l1 ++ l2) = be l1 * 256 ^ blen l2 + be l2.
Proof. unfold be at 1. rewrite foldl_app. apply be_acc. Qed.
Lemma be_cons x l : be (x :: l) = x * 256 ^ blen l + be l.
Proof. change (x :: l) with ([x] ++ l). rewrite be_app. unfold be at 1. cbn [foldl]. lia. Qed.
Lemma be_range l : bytes_ok l -> 0 <= be l < 256 ^ blen l.
Proof.
  induction 1 as [|x l Hx Hl IH]; [done|]. rewrite be_cons.
  replace (blen (x :: l)) with (Z.succ (blen l)) by (unfold blen; cbn [length]; lia).
  rewrite Z.pow_succ_r by (unfold blen; lia).
  unfold is_u8 in Hx. nia.
Qed.

Lemma split_at (l : list Z) j :
  (j < length l)%nat -> l = take j l ++ get8 l (Z.of_nat j) :: drop (S j) l.
Proof.
  intros Hj. destruct (lookup_lt_is_Some_2 l j Hj) as [x Hx].
  rewrite get8_lookup, Nat2Z.id, Hx by lia. symmetry. by apply take_drop_middle.
Qed.

(** The leading [8 * j + k] bits: the first [j] bytes and [k] bits of the next. *)
Lemma prefix6_bytes l j k :
  addr6_ok l -> (j < 16)%nat -> 0 <= k <= 8 ->
  prefix6 (8 * Z.of_nat j + k) l = be (take j l) * 2 ^ k + get8 l (Z.of_nat j) / 2 ^ (8 - k).
Proof.
  intros [Hb Hl] Hj Hk. unfold prefix6. rewrite (split_at l j) at 1 by lia.
  set (d := drop (S j) l). set (x := get8 l (Z.of_nat j)).
  assert (Hd : blen d = 15 - Z.of_nat j) by (unfold d, blen; rewrite length_drop; lia).
  assert (Hx : is_u8 x) by (apply get8_range; done).
  assert (Hbd : bytes_ok d) by (by apply Forall_drop).
  pose proof (be_range d Hbd) as Hr. rewrite be_app, be_cons.
  replace (blen (x :: d)) with (1 + blen d) by (unfold blen; cbn [length]; lia).
  rewrite Hd in *. set (n := 15 - Z.of_nat j) in *.
  replace (128 - (8 * Z.of_nat j + k)) with ((8 - k) + 8 * n) by lia.
  assert (H256 : 256 ^ n = 2 ^ (8 * n)) by (change 256 with (2 ^ 8); by rewrite <- Z.pow_mul_r by lia).
  rewrite H256 in *. rewrite (Z.pow_add_r 256 1), H256 by lia. change (256 ^ 1) with 256.
  rewrite Z.pow_add_r by lia.
  assert (0 < 2 ^ (8 * n)) by (apply Z.pow_pos_nonneg; lia).
  assert (0 < 2 ^ (8 - k)) by (apply Z.pow_pos_nonneg; lia).
  assert (0 < 2 ^ k) by (apply Z.pow_pos_nonneg; lia).
  assert (H8 : 2 ^ k * 2 ^ (8 - k) = 256).
  { rewrite <- Z.pow_add_r by lia. by replace (k + (8 - k)) with 8 by lia. }
  rewrite (Z.mul_comm (2 ^ (8 - k))), <- Z.div_div by lia.
  replace (be (take j l) * (256 * 2 ^ (8 * n)) + (x * 2 ^ (8 * n) + be d))
    with (be d + (be (take j l) * 256 + x) * 2 ^ (8 * n)) by ring.
  rewrite Z.div_add, (Z.div_small (be d)), Z.add_0_l by lia.
  replace (be (take j l) * 256 + x) with (x + be (take j l) * 2 ^ k * 2 ^ (8 - k)) by (rewrite <- H8; ring).
  rewrite Z.div_add by lia. lia.
Qed.

Lemma be_inj l1 l2 :
  bytes_ok l1 -> bytes_ok l2 -> length l1 = length l2 -> be l1 = be l2 -> l1 = l2.
Proof.
  intros H1. revert l2. induction H1 as [|x l1 Hx Hl IH]; intros [|y l2] H2 Hlen He;
    [done|done|done|]. injection Hlen as Hlen. inversion H2 as [|? ? Hy Hl2]; subst.
  rewrite !be_cons in He. replace (blen l2) with (blen l1) in He by (unfold blen; lia).
  pose proof (be_range l1 Hl). pose proof (be_range l2 Hl2).
  replace (blen l2) with (blen l1) in * by (unfold blen; lia).
  unfold is_u8 in *. assert (x = y) by nia. subst y. f_equal. apply IH; [done..|]. lia.
Qed.

Lemma ip6_prefix_loop_spec n addr net :
  (n <= length addr)%nat -> (n <= length net)%nat ->
  ip6_prefix_loop n addr net = Ok (bool_decide (take n addr = take n net)).
Proof.
  revert addr net. induction n as [|n IH]; intros addr net Ha Hn; [by rewrite bool_decide_true|].
  destruct addr as [|x addr]; [simpl in *; lia|]. destruct net as [|y net]; [simpl in *; lia|].
  cbn [ip6_prefix_loop take]. destruct (Z.eqb_spec x y) as [->|Hne]; cbn [negb].
  - rewrite IH by (simpl in *; lia). f_equal. apply bool_decide_ext. split; congruence.
  - rewrite bool_decide_false; [done|]. congruence.
Qed.

Lemma land_neg_mask x s :
  0 <= s -> Z.land x (Z.shiftl (-1) s) = x / 2 ^ s * 2 ^ s.
Proof.
  intros Hs. rewrite <- Z.shiftr_div_pow2, <- Z.shiftl_mul_pow2 by lia.
  apply Z.bits_inj'. intros n Hn. rewrite Z.land_spec, !Z.shiftl_spec by lia.
  destruct (Z.ltb_spec n s).
  - rewrite !(Z.testbit_neg_r _ (n - s)) by lia. apply andb_false_r.
  - rewrite Z.shiftr_spec, Z.bits_m1 by lia. rewrite andb_true_r. f_equal. lia.
Qed.

(** The comparison of [8 * j + k] leading bits splits into whole bytes and the
    leading bits of one more byte. *)
Lemma prefix6_split l1 l2 j k :
  addr6_ok l1 -> addr6_ok l2 -> (j < 16)%nat -> 0 <= k <= 8 ->
  prefix6 (8 * Z.of_nat j + k) l1 = prefix6 (8 * Z.of_nat j + k) l2
  <-> take j l1 = take j l2
      /\ get8 l1 (Z.of_nat j) / 2 ^ (8 - k) = get8 l2 (Z.of_nat j) / 2 ^ (8 - k).
Proof.
  intros H1 H2 Hj Hk. rewrite !prefix6_bytes by done.
  destruct H1 as [B1 L1], H2 as [B2 L2].
  assert (Hq : forall l, bytes_ok l -> 0 <= get8 l (Z.of_nat j) / 2 ^ (8 - k) < 2 ^ k).
  { intros l Hb. pose proof (get8_range l (Z.of_nat j) Hb) as Hx. unfold is_u8 in Hx.
    split; [apply Z.div_pos; [lia|apply Z.pow_pos_nonneg; lia]|].
    apply Z.div_lt_upper_bound; [apply Z.pow_pos_nonneg; lia|].
    rewrite <- Z.pow_add_r by lia. replace (8 - k + k) with 8 by lia. lia. }
  pose proof (Hq l1 B1). pose proof (Hq l2 B2). split.
  - intros He. assert (Ht : be (take j l1) = be (take j l2)) by nia.
    split; [|nia]. apply be_inj; [by apply Forall_take..| |done].
    by rewrite !length_take, L1, L2.
  - intros [-> ->]. done.
Qed.

Lemma prefix6_0 l : addr6_ok l -> prefix6 0 l = 0.
Proof.
  intros [B L]. unfold prefix6. apply Z.div_small. pose proof (be_range l B) as Hr.
  unfold blen in Hr. rewrite L in Hr. exact Hr.
Qed.
Lemma prefix6_128 l : prefix6 128 l = be l.
Proof. unfold prefix6. apply Z.div_1_r. Qed.

(** [ip6_in_cidr] decides equality of the [masklen] leading bits of the two
    128-bit addresses, for every mask length from 0 to 128. *)
Lemma ip6_in_cidr_prefix c addr :
  cidr6_ok c -> addr6_ok addr ->
  ip6_in_cidr c addr =
    Ok (bool_decide (prefix6 (masklen c) addr = prefix6 (masklen c) (network6 c))).
Proof.
  intros (Hf & Hn & Hm) Ha. unfold ip6_in_cidr. rewrite Hf. cbn [Z.eqb Pos.eqb negb].
  pose proof Ha as [Ba La]. pose proof Hn as [Bn Ln].
  destruct ((masklen c =? 0) && ip6_addr_is_unspec addr) eqn:H0.
  { apply andb_prop in H0 as [H0 _]. apply Z.eqb_eq in H0. rewrite H0.
    by rewrite !prefix6_0. }
  rewrite Z.quot_div_nonneg, Z.rem_mod_nonneg by lia.
  rewrite ip6_prefix_loop_spec by dlia. unfold mbind, res_bind.
  set (j := Z.to_nat (masklen c / 8)). set (k := masklen c mod 8).
  assert (Hmk : masklen c = 8 * Z.of_nat j + k) by (unfold j, k; dlia).
  assert (Hk : 0 <= k < 8) by (unfold k; dlia).
  assert (Hj : (j <= 16)%nat) by (unfold j; dlia).
  destruct (decide (j = 16%nat)) as [Hj16|Hj16].
  - assert (Hm128 : masklen c = 128) by lia. assert (k = 0) as -> by lia. rewrite Hm128, Hj16.
    rewrite !take_ge, !prefix6_128 by lia. case_bool_decide as Heq; cbn [negb Z.eqb].
    + rewrite Heq. by rewrite bool_decide_true.
    + rewrite bool_decide_false; [done|]. intros He. apply Heq. apply be_inj; done || lia.
  - rewrite Hmk. destruct (prefix6_split addr (network6 c) j k Ha Hn ltac:(lia) ltac:(lia)) as [P1 P2].
    case_bool_decide as Heq; cbn [negb].
    2:{ rewrite bool_decide_false; [done|]. intros He. apply P1 in He as [? _]. done. }
    destruct (Z.eqb_spec k 0) as [Hk0|Hk0].
    { rewrite bool_decide_true; [done|]. apply P2. split; [done|]. rewrite Hk0.
      change (2 ^ (8 - 0)) with 256. pose proof (get8_range addr (Z.of_nat j) Ba).
      pose proof (get8_range (network6 c) (Z.of_nat j) Bn). unfold is_u8 in *.
      by rewrite !Z.div_small by lia. }
    replace ((8 * Z.of_nat j + k) / 8) with (Z.of_nat j) by dlia.
    replace ((_ <? 0) || _ || _) with false by (unfold blen; lia).
    rewrite !land_neg_mask, eqb_mul_pow2 by (lia || (apply Z.pow_pos_nonneg; lia)).
    rewrite Z_eqb_decide. f_equal. apply bool_decide_ext.
    split; [intros He; by apply P2|intros He; by apply P1 in He as [_ ?]].
Qed.

(** ** Lists of netblocks *)

Definition ip_matches (ip : Z) (c : tcpr_cidr) : bool :=
  prefix4 (masklen c) ip =? prefix4 (masklen c) (network c).

Definition ip6_matches (addr : list Z) (c : tcpr_cidr) : bool :=
  bool_decide (prefix6 (masklen c) addr = prefix6 (masklen c) (network6 c)).

Lemma check_any_spec {A} (in_cidr : tcpr_cidr -> A -> res bool) f cidrs ip :
  Forall (fun c => in_cidr c ip = Ok (f c)) cidrs ->
  check_any in_cidr cidrs ip = Ok (bool_decide (cidrs = []) || existsb f cidrs).
Proof.
  intros Hc. unfold check_any.
  assert (Hloop : check_loop in_cidr cidrs ip = Ok (existsb f cidrs)).
  { induction Hc as [|c cidrs Hc Hcs IH]; [done|]. cbn [check_loop existsb].
    rewrite Hc. unfold mbind, res_bind. by destruct (f c). }
  destruct cidrs; [done|]. by rewrite Hloop.
Qed.

(** [check_ip_cidr] answers whether some netblock of the list has the same
    [masklen] leading bits as the address, for all mask lengths 0 to 32; an
    empty list accepts every address. *)
Theorem check_ip_cidr_spec cidrs ip :
  Forall cidr4_ok cidrs -> is_u32 ip ->
  check_ip_cidr cidrs ip = Ok (bool_decide (cidrs = []) || existsb (ip_matches ip) cidrs).
Proof.
  intros Hc Hi. apply check_any_spec. eapply Forall_impl; [done|].
  intros c Hok. by apply ip_in_cidr_prefix.
Qed.

(** [check_ip6_cidr] does the same on 128-bit addresses, for all mask
    lengths 0 to 128. *)
Theorem check_ip6_cidr_spec cidrs addr :
  Forall cidr6_ok cidrs -> addr6_ok addr ->
  check_ip6_cidr cidrs addr = Ok (bool_decide (cidrs = []) || existsb (ip6_matches addr) cidrs).
Proof.
  intros Hc Ha. apply check_any_spec. eapply Forall_impl; [done|].
  intros c Hok. by apply ip6_in_cidr_prefix.
Qed.

(** 192.168.0.0/16, 10.20.0.0/16 and 2001:db8::/32 *)
Definition net_192_168 : tcpr_cidr :=
  {| family := AF_INET; network := 43200; network6 := replicate 16 0; masklen := 16 |}.
Definition net_10_20 : tcpr_cidr :=
  {| family := AF_INET; network := 5130; network6 := replicate 16 0; masklen := 16 |}.
Definition net_2001_db8 : tcpr_cidr :=
  {| family := AF_INET6; network := 0; network6 := [32; 1; 13; 184] ++ replicate 12 0; masklen := 32 |}.

Lemma check_ip_cidr_witness :
  check_ip_cidr [net_10_20; net_192_168] 16820416 = Ok true
  /\ check_ip_cidr [net_10_20] 16820416 = Ok false.
Proof.
  split; rewrite check_ip_cidr_spec; try reflexivity; [|concrete| |concrete];
    repeat constructor; concrete.
Defined.

Lemma check_ip6_cidr_witness :
  check_ip6_cidr [net_2001_db8] ([32; 1; 13; 184] ++ replicate 12 7) = Ok true.
Proof.
  rewrite check_ip6_cidr_spec; [reflexivity| |split; concrete].
  repeat constructor; concrete.
Defined.
