(* ===== verification/TcpeditTypes.v ===== *)
(** * The editing context: [ddtcpreplay/src/tcpedit/tcpedit_types.h] *)

From Stdlib Require Import ZArith Lia.
From stdpp Require Import base list.
From S2P Require Import Prelude Cidr.

Inductive tcpedit_fixlen := FIXLEN_OFF | FIXLEN_PAD | FIXLEN_TRUNC | FIXLEN_DEL.
Inductive tcpedit_ttl_mode := TTL_MODE_OFF | TTL_MODE_SET | TTL_MODE_ADD | TTL_MODE_SUB.

#[export] Instance fixlen_eq_dec : EqDecision tcpedit_fixlen.
Proof. solve_decision. Defined.
#[export] Instance ttl_mode_eq_dec : EqDecision tcpedit_ttl_mode.
Proof. solve_decision. Defined.

(** [enum tcpr_dir_e] of common/cache.h *)
Inductive tcpr_dir := DIR_ERROR | DIR_NOSEND | DIR_C2S | DIR_S2C.
#[export] Instance tcpr_dir_eq_dec : EqDecision tcpr_dir.
Proof. solve_decision. Defined.

(** [tcpedit_portmap_t]: ports in network byte order, kept in [long]s. *)
Record tcpedit_portmap := { pm_from : Z; pm_to : Z }.

(** [tcpedit_t]: the options the editing routines read.  Chains are lists, the
    null pointer is the empty list. *)
Record tcpedit := {
  skip_broadcast : bool;
  fixlen : tcpedit_fixlen;
  rewrite_ip : bool;
  fixcsum : bool;
  efcs : bool;
  ttl_mode : tcpedit_ttl_mode;
  ttl_value : Z;
  tos : Z;
  flowlabel : Z;
  tclass : Z;
  cidrmap1 : list tcpr_cidrmap;
  cidrmap2 : list tcpr_cidrmap;
  srcipmap : list tcpr_cidrmap;
  dstipmap : list tcpr_cidrmap;
  seed : Z;
  portmap : list tcpedit_portmap;
  mtu : Z;
  mtu_truncate : bool;
  maxpacket : Z
}.

(** The options after tcpr_safe_malloc and tcpedit_init: everything off. *)
Definition tcpedit_init : tcpedit := {|
  skip_broadcast := false; fixlen := FIXLEN_OFF; rewrite_ip := false; fixcsum := false;
  efcs := false; ttl_mode := TTL_MODE_OFF; ttl_value := 0; tos := -1; flowlabel := -1;
  tclass := -1; cidrmap1 := []; cidrmap2 := []; srcipmap := []; dstipmap := []; seed := 0;
  portmap := []; mtu := 1500; mtu_truncate := false; maxpacket := 0
|}.
