(* ===== verification/Remap.v ===== *)
(** * Address arithmetic of [ddtcpreplay/src/tcpedit/edit_packet.c]

    Mapping an address into a netblock and randomizing it with a seed; the
    routines that apply these to packets are in EditIPv4, EditIPv6 and
    EditArp. *)

From Stdlib Require Import ZArith Lia.
From stdpp Require Import base list.
From S2P Require Import Prelude Wire Cidr TcpeditTypes.

(** ** IPv4 *)

Definition is_unicast_ipv4 (ip : Z) : bool := negb (3758096384 <? bswap32 ip).

Definition remap_ipv4 (t : tcpedit) (cidr : tcpr_cidr) (original : Z) : res Z :=
  if negb (family cidr =? AF_INET) then Ok 0
  else if skip_broadcast t && negb (is_unicast_ipv4 original) then Ok original
  else
    let sh := 32 - masklen cidr in
    if (sh <? 0) || (32 <=? sh) then Err Undef
    else
      let mask := u32 (Z.shiftl 4294967295 sh) in
      let net := Z.land (bswap32 (network cidr)) mask in
      let mask := Z.lxor mask 4294967295 in
      let ipaddr := Z.land (bswap32 original) mask in
      Ok (bswap32 (Z.lxor net ipaddr)).

(** [htonl(tcpedit->seed)] of the [int] seed. *)
Definition nseed (t : tcpedit) : Z := bswap32 (u32 (seed t)).

Definition randomize_word (s ip : Z) : Z := u32 (Z.lxor ip s - Z.land ip s).

Definition randomize_ipv4_addr (t : tcpedit) (ip : Z) : Z :=
  if skip_broadcast t && negb (is_unicast_ipv4 ip) then ip
  else randomize_word (nseed t) ip.

(** ** IPv6 *)

Definition is_multicast_ipv6 (addr : list Z) : bool := get8 addr 0 =? 255.

(** [remap_ipv6] updates [addr] in place and returns 1 when it did.  With a
    mask length that is not a multiple of eight the code computes
    [k = ~0 << (8 - k)], a negative number, and then shifts by it. *)
Definition remap_ipv6 (t : tcpedit) (cidr : tcpr_cidr) (addr : list Z) : res (Z * list Z) :=
  if negb (family cidr =? AF_INET6) then Ok (0, addr)
  else if skip_broadcast t && is_multicast_ipv6 addr then Ok (0, addr)
  else
    let j := Z.to_nat (Z.quot (masklen cidr) 8) in
    if (length addr <? j)%nat || (length (network6 cidr) <? j)%nat then Err Oob
    else
      let addr := take j (network6 cidr) ++ drop j addr in
      if Z.rem (masklen cidr) 8 =? 0 then Ok (1, addr) else Err Undef.

(** The 16 bytes of an address and its four [uint32_t] words. *)
Definition words6 (addr : list Z) : list Z :=
  [get32 addr 0; get32 addr 4; get32 addr 8; get32 addr 12].
Definition put_words6 (ws : list Z) (addr : buf) : buf :=
  put32 (put32 (put32 (put32 addr 0 (nth 0 ws 0)) 4 (nth 1 ws 0)) 8 (nth 2 ws 0)) 12 (nth 3 ws 0).

Definition randomize_ipv6_addr (t : tcpedit) (addr : list Z) : list Z :=
  let was_multicast := is_multicast_ipv6 addr in
  let addr := put_words6 (map (randomize_word (nseed t)) (words6 addr)) addr in
  if was_multicast then put8 addr 0 255
  else if is_multicast_ipv6 addr then put8 addr 0 170
  else addr.

(** ** What remapping means *)

(** A netblock one may map onto without undefined behaviour. *)
Definition target4_ok (c : tcpr_cidr) : Prop :=
  family c = AF_INET /\ is_u32 (network c) /\ 1 <= masklen c <= 32.

Lemma lxor_disjoint_add a b : Z.land a b = 0 -> Z.lxor a b = a + b.
Proof. intros. by rewrite Z.add_nocarry_lxor. Qed.

Lemma land_hi_lo x y s : 0 <= s -> Z.land (x * 2 ^ s) (y mod 2 ^ s) = 0.
Proof.
  intros Hs. apply Z.bits_inj'. intros n Hn. rewrite Z.land_spec, Z.bits_0.
  destruct (Z.ltb_spec n s).
  - by rewrite Z.mul_pow2_bits_low by lia.
  - rewrite Z.mod_pow2_bits_high by lia. apply andb_false_r.
Qed.

(** The masks of [remap_ipv4] select the leading and trailing bits. *)
Lemma mask_hi x s :
  is_u32 x -> 0 <= s < 32 -> Z.land x (u32 (Z.shiftl 4294967295 s)) = x / 2 ^ s * 2 ^ s.
Proof.
  intros Hx Hs. unfold u32. change 4294967296 with (2 ^ 32). rewrite <- Z.land_ones by lia.
  change 4294967295 with (Z.ones 32).
  rewrite <- Z.shiftr_div_pow2, <- Z.shiftl_mul_pow2 by lia.
  apply Z.bits_inj'. intros n Hn. rewrite !Z.land_spec, !Z.shiftl_spec by lia.
  destruct (Z.ltb_spec n s).
  - rewrite !(Z.testbit_neg_r _ (n - s)) by lia. by rewrite andb_false_r.
  - rewrite Z.shiftr_spec by lia. replace (n - s + s) with n by lia.
    destruct (Z.ltb_spec n 32).
    + rewrite !Z.ones_spec_low by lia. by rewrite !andb_true_r.
    + replace (Z.testbit x n) with false; [done|].
      unfold is_u32 in Hx. change 4294967296 with (2 ^ 32) in Hx.
      rewrite <- (Z.mod_small x (2 ^ 32)), Z.mod_pow2_bits_high; done || lia.
Qed.

Lemma mask_lo x s :
  is_u32 x -> 0 <= s < 32 ->
  Z.land x (Z.lxor (u32 (Z.shiftl 4294967295 s)) 4294967295) = x mod 2 ^ s.
Proof.
  intros Hx Hs. unfold u32. change 4294967296 with (2 ^ 32). rewrite <- !Z.land_ones by lia.
  change 4294967295 with (Z.ones 32).
  apply Z.bits_inj'. intros n Hn. rewrite !Z.land_spec, Z.lxor_spec, Z.land_spec, Z.shiftl_spec by lia.
  destruct (Z.ltb_spec n 32).
  - rewrite !(Z.ones_spec_low 32 n) by lia. destruct (Z.ltb_spec n s).
    + rewrite (Z.testbit_neg_r _ (n - s)), (Z.ones_spec_low s) by lia. done.
    + rewrite (Z.ones_spec_low 32 (n - s)), (Z.ones_spec_high s) by lia. done.
  - replace (Z.testbit x n) with false; [done|].
    unfold is_u32 in Hx. change 4294967296 with (2 ^ 32) in Hx.
    rewrite <- (Z.mod_small x (2 ^ 32)), Z.mod_pow2_bits_high; done || lia.
Qed.

(** [remap_ipv4] onto a netblock keeps the host bits of the address and
    takes the network bits of the netblock, so the result is in the netblock;
    with [skip_broadcast] set, multicast and broadcast addresses stay. *)
Lemma remap_ipv4_ok t c ip :
  target4_ok c -> is_u32 ip ->
  exists r, remap_ipv4 t c ip = Ok r /\ is_u32 r
    /\ (if skip_broadcast t && negb (is_unicast_ipv4 ip) then r = ip
        else prefix4 (masklen c) r = prefix4 (masklen c) (network c)
             /\ bswap32 r mod 2 ^ (32 - masklen c) = bswap32 ip mod 2 ^ (32 - masklen c)).
Proof.
  intros (Hf & Hn & Hm) Hi. unfold remap_ipv4. rewrite Hf. cbn [Z.eqb Pos.eqb negb].
  destruct (skip_broadcast t && negb (is_unicast_ipv4 ip)); [by exists ip|].
  replace ((32 - masklen c <? 0) || (32 <=? 32 - masklen c)) with false by lia.
  set (s := 32 - masklen c). pose proof (bswap32_range ip) as Ri.
  pose proof (bswap32_range (network c)) as Rn.
  rewrite mask_hi, mask_lo by (done || lia). rewrite lxor_disjoint_add by (apply land_hi_lo; lia).
  assert (Hp : 0 < 2 ^ s) by (apply Z.pow_pos_nonneg; lia).
  set (N := bswap32 (network c)) in *. set (I := bswap32 ip) in *.
  assert (Hr : is_u32 (N / 2 ^ s * 2 ^ s + I mod 2 ^ s)).
  { unfold is_u32 in *. pose proof (Z.mod_pos_bound I (2 ^ s) Hp).
    assert (HN : N / 2 ^ s < 2 ^ (32 - s)).
    { apply Z.div_lt_upper_bound; [lia|]. rewrite <- Z.pow_add_r by lia.
      replace (s + (32 - s)) with 32 by lia. change (2 ^ 32) with 4294967296. lia. }
    assert (0 <= N / 2 ^ s) by (apply Z.div_pos; lia).
    assert (HP : 2 ^ (32 - s) * 2 ^ s = 4294967296)
      by (rewrite <- Z.pow_add_r by lia; by replace (32 - s + s) with 32 by lia). nia. }
  exists (bswap32 (N / 2 ^ s * 2 ^ s + I mod 2 ^ s)). split; [done|]. split; [apply bswap32_range|].
  unfold prefix4. fold s. rewrite bswap32_involutive by done. fold N.
  rewrite Z.add_comm, Z.div_add, Z.mod_add, (Z.div_small (I mod _)), Z.mod_mod by
    (lia || apply Z.mod_pos_bound; lia). by split.
Qed.

(** [remap_ipv4] maps every address into the target netblock, as
    [ip_in_cidr] judges it, and keeps its host bits; it does so for every mask
    length but 0, on which it shifts by the width of the word. *)
Theorem remap_ipv4_in_cidr t c ip :
  cidr4_ok c -> is_u32 ip -> skip_broadcast t && negb (is_unicast_ipv4 ip) = false ->
  if masklen c =? 0 then remap_ipv4 t c ip = Err Undef
  else exists r, remap_ipv4 t c ip = Ok r /\ is_u32 r /\ ip_in_cidr c r = Ok true
    /\ bswap32 r mod 2 ^ (32 - masklen c) = bswap32 ip mod 2 ^ (32 - masklen c).
Proof.
  intros Hc Hi Hs. pose proof Hc as (Hf & Hn & Hm). destruct (Z.eqb_spec (masklen c) 0) as [H0|H0].
  - unfold remap_ipv4. by rewrite Hf, Hs, H0.
  - destruct (remap_ipv4_ok t c ip) as (r & Hr & Hu & Hsp); [split_and!; done || lia|done|].
    rewrite Hs in Hsp. destruct Hsp as [Hp Hh]. exists r. split_and!; try done.
    rewrite ip_in_cidr_prefix by done. by rewrite Hp, Z.eqb_refl.
Qed.

Lemma remap_addr6_ok c addr j :
  addr6_ok (network6 c) -> addr6_ok addr -> (j <= 16)%nat ->
  addr6_ok (take j (network6 c) ++ drop j addr).
Proof.
  intros [B L] [B' L'] Hj. split.
  - apply Forall_app; split; [by apply Forall_take|by apply Forall_drop].
  - rewrite length_app, length_take, length_drop. lia.
Qed.

(** [remap_ipv6] onto a netblock whose mask length is a whole number of
    bytes replaces the network bytes and keeps the others; the result is in
    the netblock.  For every other mask length the code shifts by a negative
    amount. *)
Theorem remap_ipv6_spec t c addr :
  cidr6_ok c -> addr6_ok addr -> skip_broadcast t && is_multicast_ipv6 addr = false ->
  if masklen c mod 8 =? 0 then
    exists r, remap_ipv6 t c addr = Ok (1, r) /\ addr6_ok r
      /\ prefix6 (masklen c) r = prefix6 (masklen c) (network6 c)
      /\ drop (Z.to_nat (masklen c / 8)) r = drop (Z.to_nat (masklen c / 8)) addr
  else remap_ipv6 t c addr = Err Undef.
Proof.
  intros (Hf & Hn & Hm) Ha Hs. unfold remap_ipv6. rewrite Hf, Hs. cbn [Z.eqb Pos.eqb negb].
  pose proof Ha as [Ba La]. pose proof Hn as [Bn Ln].
  rewrite Z.quot_div_nonneg, Z.rem_mod_nonneg, La, Ln by lia.
  set (j := Z.to_nat (masklen c / 8)).
  assert (Hj : (j <= 16)%nat) by (unfold j; dlia).
  replace ((16 <? j)%nat) with false by (symmetry; apply Nat.ltb_ge; lia). cbn [orb].
  destruct (Z.eqb_spec (masklen c mod 8) 0) as [H8|H8]; [|done].
  pose proof (remap_addr6_ok c addr j Hn Ha Hj) as Hr.
  exists (take j (network6 c) ++ drop j addr). split; [done|]. split; [done|].
  assert (Hlt : length (take j (network6 c)) = j) by (rewrite length_take; lia).
  split; [|by rewrite drop_app_length'].
  destruct (decide (j = 16%nat)) as [Hj16|Hj16].
  - rewrite Hj16, take_ge, drop_ge, app_nil_r by lia. done.
  - replace (masklen c) with (8 * Z.of_nat j + 0) by (unfold j; dlia).
    apply prefix6_split; [done|done|lia|lia|]. rewrite take_app_length' by lia.
    split; [done|]. change (2 ^ (8 - 0)) with 256.
    pose proof (get8_range _ (Z.of_nat j) (proj1 Hr)).
    pose proof (get8_range _ (Z.of_nat j) Bn). unfold is_u8 in *.
    by rewrite !Z.div_small by lia.
Qed.

Lemma remap_ipv4_in_cidr_witness :
  exists r, remap_ipv4 tcpedit_init net_10_20 16820416 = Ok r /\ ip_in_cidr net_10_20 r = Ok true
    /\ bswap32 r mod 2 ^ 16 = 1.
Proof.
  destruct (remap_ipv4_in_cidr tcpedit_init net_10_20 16820416) as (r & H1 & _ & H2 & H3);
    [split_and!; concrete|concrete|concrete|]. exists r. by split_and!.
Defined.

Lemma remap_ipv6_spec_witness :
  exists r, remap_ipv6 tcpedit_init net_2001_db8 (replicate 16 9) = Ok (1, r)
    /\ prefix6 32 r = prefix6 32 (network6 net_2001_db8).
Proof.
  pose proof (remap_ipv6_spec tcpedit_init net_2001_db8 (replicate 16 9)) as H.
  destruct H as (r & H1 & _ & H2 & _); [split_and!; [concrete|split; concrete|concrete..]|split; concrete|concrete|].
  exists r. by split.
Defined.
