(* ===== verification/MapLoop.v ===== *)
(** * Walking the netblock maps: loops of [tcpedit/edit_packet.c]

    The loops that rewrite_ipv4l3, rewrite_ipv6l3 and rewrite_iparp repeat: the
    walk over --srcipmap/--dstipmap and the joint walk over the two maps of
    --pnat.  They are written once over the statement that tests and remaps an
    address, and proved once against "the first matching map wins". *)

From Stdlib Require Import ZArith Lia.
From stdpp Require Import base list.
From S2P Require Import Prelude Cidr TcpeditTypes.

(** ** The loops *)

(** [while (ipmap != NULL) { if (ip_in_cidr(...)) { ...; break; } ... }];
    [step] is the conditional, which tells whether it matched. *)
Fixpoint ipmap_loop (step : tcpr_cidrmap -> M bool) (maps : list tcpr_cidrmap) : M unit :=
  match maps with
  | [] => mret tt
  | m :: maps =>
      hit ← step m;
      if (hit : bool) then mret tt else ipmap_loop step maps
  end.

(** [do ... while (loop)]: [m1] and [m2] are the current nodes, [r1] and [r2]
    the rest of the chains; returns [(didsrc, diddst)]. *)
Fixpoint cidrmap_loop (fuel : nat) (src dst : tcpr_cidrmap -> M bool)
    (m1 : tcpr_cidrmap) (r1 : list tcpr_cidrmap)
    (m2 : tcpr_cidrmap) (r2 : list tcpr_cidrmap) (didsrc diddst : bool) : M (bool * bool) :=
  match fuel with
  | O => fault_with Diverge
  | S fuel =>
      diddst ← (if diddst then mret true else dst m2);
      didsrc ← (if didsrc then mret true else src m1);
      if negb (diddst && didsrc) && negb (bool_decide (r1 = []) && bool_decide (r2 = [])) then
        let '(m1, r1) := match r1 with [] => (m1, []) | m :: r => (m, r) end in
        let '(m2, r2) := match r2 with [] => (m2, []) | m :: r => (m, r) end in
        cidrmap_loop fuel src dst m1 r1 m2 r2 didsrc diddst
      else mret (didsrc, diddst)
  end.

(** The choice of the maps by direction, and the loop on them. *)
Definition maps_of (t : tcpedit) (direction : tcpr_dir) : list tcpr_cidrmap * list tcpr_cidrmap :=
  if bool_decide (direction = DIR_C2S) then (cidrmap1 t, cidrmap2 t)
  else (cidrmap2 t, cidrmap1 t).

Definition cidrmap_walk (src dst : tcpr_cidrmap -> M bool) (maps1 maps2 : list tcpr_cidrmap)
    : M (bool * bool) :=
  match maps1, maps2 with
  | m1 :: r1, m2 :: r2 =>
      cidrmap_loop (S (length r1 + length r2)) src dst m1 r1 m2 r2 false false
  | _, _ => fault_with Undef                       (* cidrmap->from of NULL *)
  end.

(** ** Specification: the first matching map *)

Section spec.
Context {A : Type} (hit : tcpr_cidrmap -> A -> bool) (img : tcpr_cidrmap -> A -> A).

Fixpoint first_map (maps : list tcpr_cidrmap) (a : A) : A :=
  match maps with
  | [] => a
  | m :: maps => if hit m a then img m a else first_map maps a
  end.
Definition any_hit (maps : list tcpr_cidrmap) (a : A) : bool := existsb (fun m => hit m a) maps.
End spec.

(** What a step on the address [view b] of a packet promises, for maps in
    [okm]: it stays within [R], leaves the other address alone, and remaps
    exactly when the map matches. *)
Class AddrStep {A} (W : buf -> Prop) (R : buf -> buf -> Prop) (okm : tcpr_cidrmap -> Prop)
    (hit : tcpr_cidrmap -> A -> bool) (img : tcpr_cidrmap -> A -> A)
    (view other : buf -> A) (step : tcpr_cidrmap -> M bool) : Prop :=
  addr_step : forall m b, W b -> okm m ->
    wp (step m) (fun h b' => R b b' /\ h = hit m (view b)
       /\ view b' = (if h then img m (view b) else view b) /\ other b' = other b) b.

Section loops.
Context {A : Type} (W : buf -> Prop) (R : buf -> buf -> Prop) (okm : tcpr_cidrmap -> Prop).
Context (hit : tcpr_cidrmap -> A -> bool) (img : tcpr_cidrmap -> A -> A).
Hypothesis R_refl : forall b, W b -> R b b.
Hypothesis R_trans : forall b1 b2 b3, W b1 -> R b1 b2 -> R b2 b3 -> R b1 b3.
Hypothesis R_wf : forall b b', W b -> R b b' -> W b'.

Lemma ipmap_loop_spec (view other : buf -> A) step
    `{!AddrStep W R okm hit img view other step} maps b :
  W b -> Forall okm maps ->
  wp (ipmap_loop step maps)
     (fun _ b' => R b b' /\ view b' = first_map hit img maps (view b) /\ other b' = other b) b.
Proof.
  intros Wb Hm. revert b Wb. induction Hm as [|m maps Hm Hms IH]; intros b Wb; cbn.
  - wp_steps. auto.
  - apply wp_bind. eapply wp_mono; [|by apply addr_step].
    intros h b' (HR & -> & Hv & Ho). destruct (hit m (view b)); [by wp_steps|].
    eapply wp_mono; [|by apply IH, (R_wf b)].
    intros [] b'' (HR' & Hv' & Ho'). rewrite <- Hv. split_and!; [by eapply R_trans|done|congruence].
Qed.

Context (vs vd : buf -> A) (src dst : tcpr_cidrmap -> M bool).
Context `{Hsrc : !AddrStep W R okm hit img vs vd src}.
Context `{Hdst : !AddrStep W R okm hit img vd vs dst}.

(** One half of an iteration: the address moves on its chain unless done. *)
Definition half (did : bool) (m : tcpr_cidrmap) (a : A) : A :=
  if did then a else if hit m a then img m a else a.

Lemma half_step (view other : buf -> A) step
    `{!AddrStep W R okm hit img view other step} (did : bool) m b :
  W b -> okm m ->
  wp (if did then mret true else step m)
     (fun h b' => R b b' /\ h = did || hit m (view b) /\ view b' = half did m (view b)
        /\ other b' = other b) b.
Proof.
  intros Wb Hm. unfold half. destruct did; [wp_steps; by auto|].
  eapply wp_mono; [|by apply addr_step]. by intros h b' (? & -> & -> & ->).
Qed.

(** What is left to do on a chain after one iteration at its head. *)
Lemma half_rest did m r a :
  let '(m', r') := match r with [] => (m, []) | x :: y => (x, y) end in
  (if did || hit m a then half did m a else first_map hit img (m' :: r') (half did m a))
    = (if did then a else first_map hit img (m :: r) a)
  /\ ((did || hit m a) || any_hit hit (m' :: r') (half did m a)) = did || any_hit hit (m :: r) a.
Proof.
  unfold half, any_hit. destruct did; [by destruct r|].
  destruct r; cbn; destruct (hit m a) eqn:E; cbn; rewrite ?E; done.
Qed.

Lemma cidrmap_loop_spec fuel :
  forall m1 r1 m2 r2 didsrc diddst b,
  (length r1 + length r2 < fuel)%nat -> W b ->
  okm m1 -> Forall okm r1 -> okm m2 -> Forall okm r2 ->
  wp (cidrmap_loop fuel src dst m1 r1 m2 r2 didsrc diddst)
     (fun '(s, d) b' => R b b'
        /\ vs b' = (if didsrc then vs b else first_map hit img (m1 :: r1) (vs b))
        /\ vd b' = (if diddst then vd b else first_map hit img (m2 :: r2) (vd b))
        /\ s = didsrc || any_hit hit (m1 :: r1) (vs b)
        /\ d = diddst || any_hit hit (m2 :: r2) (vd b)) b.
Proof.
  induction fuel as [|fuel IH]; intros m1 r1 m2 r2 ds dd b Hf Wb K1 F1 K2 F2; [lia|].
  cbn [cidrmap_loop]. apply wp_bind. eapply wp_mono; [|by apply (half_step vd vs dst)].
  intros d b1 (R1 & -> & V1 & O1). assert (W1 : W b1) by (by eapply R_wf).
  apply wp_bind. eapply wp_mono; [|by apply (half_step vs vd src)].
  intros s b2 (R2 & -> & V2 & O2). assert (W2 : W b2) by (by eapply R_wf).
  rewrite O1 in V2 |- *. rewrite V1 in O2. assert (R12 : R b b2) by (by eapply R_trans).
  pose proof (half_rest ds m1 r1 (vs b)) as HS. pose proof (half_rest dd m2 r2 (vd b)) as HD.
  split_if; cycle 1.
  - wp_steps. destruct r1, r2; cbn in *; unfold half in *;
      destruct ds, dd, (hit m1 (vs b)), (hit m2 (vd b)); cbn in *; by intuition congruence.
  - destruct (match r1 with [] => _ | _ => _ end) as [n1 q1] eqn:E1.
    destruct (match r2 with [] => _ | _ => _ end) as [n2 q2] eqn:E2.
    destruct HS as [HS HS'], HD as [HD HD'].
    eapply wp_mono; [|apply IH; try done].
    + intros [s d] b3 (R3 & V3 & V3' & S3 & D3). rewrite V2, O2 in *.
      split_and!; [by eapply R_trans|congruence..].
    + destruct r1, r2; simplify_eq; cbn in *; lia || by rewrite andb_false_r in *.
    + destruct r1; simplify_eq; [done|by inversion F1].
    + destruct r1; simplify_eq; [done|by inversion F1].
    + destruct r2; simplify_eq; [done|by inversion F2].
    + destruct r2; simplify_eq; [done|by inversion F2].
Qed.

(** The joint walk computes the two first matches independently. *)
Lemma cidrmap_walk_spec maps1 maps2 b :
  W b -> Forall okm maps1 -> Forall okm maps2 -> maps1 <> [] -> maps2 <> [] ->
  wp (cidrmap_walk src dst maps1 maps2)
     (fun '(s, d) b' => R b b' /\ vs b' = first_map hit img maps1 (vs b)
        /\ vd b' = first_map hit img maps2 (vd b)
        /\ s = any_hit hit maps1 (vs b) /\ d = any_hit hit maps2 (vd b)) b.
Proof.
  intros Wb F1 F2 N1 N2. destruct F1 as [|m1 r1 K1 F1], F2 as [|m2 r2 K2 F2]; try done.
  unfold cidrmap_walk.
  eapply wp_mono; [|by apply (cidrmap_loop_spec (S (length r1 + length r2)) m1 r1 m2 r2 false false); [lia|..]].
  intros [s d] b'. cbn. done.
Qed.
End loops.
