(* ===== verification/EditIPv4.v ===== *)
(** * Editing IPv4 packets: [ddtcpreplay/src/tcpedit/edit_packet.c]

    The IPv4 half of edit_packet.c: rewriting addresses and TTLs with
    incremental checksum updates, and recomputing checksums.  [ip_hdr] is the
    offset of the IP header in the packet buffer. *)

From Stdlib Require Import ZArith Lia.
From stdpp Require Import base list.
From S2P Require Import Prelude Samples Wire Get Csum IncChecksum Checksum Cidr TcpeditTypes Remap MapLoop.

(** ** Operations *)

Definition fix_ipv4_checksums (caplen len ip_hdr : Z) : M Z :=
  ret1 ← (if caplen =? len then
            off ← ld16 (ip_hdr + o_ip_off);
            if frag_off off =? 0 then
              p ← ld8 (ip_hdr + o_ip_p);
              tl ← ld16 (ip_hdr + o_ip_len);
              hl ← ld_ip_hl ip_hdr;
              do_checksum ip_hdr p (bswap16 tl - 4 * hl)
            else mret 0
          else mret 0);
  if ret1 <? 0 then mret TCPEDIT_ERROR
  else
    tl ← ld16 (ip_hdr + o_ip_len);
    ret2 ← do_checksum ip_hdr IPPROTO_IP (bswap16 tl);
    mret (if ret2 <? 0 then TCPEDIT_ERROR
          else if (ret1 =? TCPEDIT_WARN) || (ret2 =? TCPEDIT_WARN) then TCPEDIT_WARN
          else TCPEDIT_OK).

(** [csum_replace4(&field, old, new)] *)
Definition replace4_at (field old new : Z) : M unit :=
  s ← ld16 field; st16 field (csum_replace4 s old new).

Definition ipv4_l34_csum_replace (data protocol old new : Z) : M unit :=
  if protocol =? IPPROTO_IP then replace4_at (data + o_ip_sum) old new
  else if protocol =? IPPROTO_TCP then replace4_at (data + o_th_sum) old new
  else if protocol =? IPPROTO_UDP then
    s ← ld16 (data + o_uh_sum);
    if negb (s =? 0) then replace4_at (data + o_uh_sum) old new else mret tt
  else fault_with Assert.

Definition ipv4_addr_csum_replace (ip_hdr old_ip new_ip : Z) : M unit :=
  _ ← ipv4_l34_csum_replace ip_hdr IPPROTO_IP old_ip new_ip;
  protocol ← ld8 (ip_hdr + o_ip_p);
  l4 ← (if (protocol =? IPPROTO_TCP) || (protocol =? IPPROTO_UDP)
        then get_layer4_v4 ip_hdr 65536 else mret None);
  match l4 with
  | None => mret tt
  | Some l4 =>
      off ← ld16 (ip_hdr + o_ip_off);
      if frag_off off =? 0 then ipv4_l34_csum_replace l4 protocol old_ip new_ip else mret tt
  end.

(** Store a new address in [field] and update the checksums: the three
    statements repeated at every rewrite of an address. *)
Definition set_addr (ip_hdr field new_ip : Z) : M unit :=
  old_ip ← ld32 field;
  _ ← st32 field new_ip;
  ipv4_addr_csum_replace ip_hdr old_ip new_ip.

(** [if (ip_in_cidr(m->from, field)) { ... remap ... }]; tells whether it matched. *)
Definition remap_field (t : tcpedit) (ip_hdr field : Z) (m : tcpr_cidrmap) : M bool :=
  ip ← ld32 field;
  hit ← lift (ip_in_cidr (from m) ip);
  if (hit : bool) then
    new ← lift (remap_ipv4 t (to m) ip);
    _ ← set_addr ip_hdr field new;
    mret true
  else mret false.

Definition rewrite_ipv4l3 (t : tcpedit) (ip_hdr : Z) (direction : tcpr_dir) : M Z :=
  let src := remap_field t ip_hdr (ip_hdr + o_ip_src) in
  let dst := remap_field t ip_hdr (ip_hdr + o_ip_dst) in
  _ ← ipmap_loop src (srcipmap t);
  _ ← ipmap_loop dst (dstipmap t);
  if bool_decide (cidrmap1 t = []) then mret 0
  else
    let '(maps1, maps2) := maps_of t direction in
    _ ← cidrmap_walk src dst maps1 maps2;
    mret 0.

Definition randomize_field (t : tcpedit) (ip_hdr field : Z) : M unit :=
  ip ← ld32 field;
  if skip_broadcast t && is_unicast_ipv4 ip || negb (skip_broadcast t) then
    set_addr ip_hdr field (randomize_ipv4_addr t ip)
  else mret tt.

Definition randomize_ipv4 (t : tcpedit) (ip_hdr : Z) : M Z :=
  _ ← randomize_field t ip_hdr (ip_hdr + o_ip_dst);
  _ ← randomize_field t ip_hdr (ip_hdr + o_ip_src);
  mret 0.

(** The new TTL, [None] when the code returns without a change. *)
Definition new_ttl (t : tcpedit) (ttl : Z) : option Z :=
  match ttl_mode t with
  | TTL_MODE_OFF => None
  | TTL_MODE_SET => if ttl =? ttl_value t then None else Some (ttl_value t)
  | TTL_MODE_ADD => Some (if 255 <? ttl + ttl_value t then 255 else u8 (ttl + ttl_value t))
  | TTL_MODE_SUB => Some (if ttl <=? ttl_value t then 1 else u8 (ttl - ttl_value t))
  end.

Definition rewrite_ipv4_ttl (t : tcpedit) (ip_hdr : option Z) : M Z :=
  match ip_hdr with
  | None => mret 0
  | Some ip_hdr =>
      if bool_decide (ttl_mode t = TTL_MODE_OFF) then mret 0 else
      oldval ← ld8 (ip_hdr + o_ip_ttl);
      match new_ttl t oldval with
      | None => mret 0
      | Some v =>
          _ ← st8 (ip_hdr + o_ip_ttl) v;
          newval ← ld8 (ip_hdr + o_ip_ttl);
          s ← ld16 (ip_hdr + o_ip_sum);
          _ ← st16 (ip_hdr + o_ip_sum) (csum_replace2 s oldval newval);
          mret 0
      end
  end.

(** ** Well-formed packets and checksum-preserving edits *)

(** The layer-4 checksum field that address edits must keep valid: TCP or UDP,
    and not a later fragment. *)
Definition l4_field (b : buf) (h : Z) : option Z :=
  if frag_off (ip_off b h) =? 0 then
    if ip_p b h =? IPPROTO_TCP then Some (h + 4 * ip_hl b h + o_th_sum)
    else if ip_p b h =? IPPROTO_UDP then Some (h + 4 * ip_hl b h + o_uh_sum)
    else None
  else None.

Record wf4 (b : buf) (h : Z) : Prop := {
  wf4_bytes : bytes_ok b;
  wf4_h : 0 <= h;
  wf4_hl : 5 <= ip_hl b h;
  wf4_len : h + 4 * ip_hl b h <= blen b;
  wf4_l4 : forall f, l4_field b h = Some f -> f + 2 <= blen b
}.

(** Sum of the IPv4 header, and of the pseudo-header addresses with [n] bytes
    of segment. *)
Definition ip_total (b : buf) (h : Z) : Z := csum b h (Z.to_nat (4 * ip_hl b h)).
Definition seg_total (b : buf) (h n : Z) : Z :=
  csum b (h + o_ip_src) 8 + csum b (h + 4 * ip_hl b h) (Z.to_nat n).

(** The layer-4 sum is kept, or the UDP checksum field says "no checksum". *)
Definition l4_kept (h : Z) (b b' : buf) : Prop :=
  forall f n, l4_field b h = Some f ->
  f + 2 <= h + 4 * ip_hl b h + n -> h + 4 * ip_hl b h + n <= blen b ->
  (ip_p b h = IPPROTO_UDP /\ get16 b' f = 0)
  \/ ((ip_p b h = IPPROTO_UDP -> get16 b f <> 0) /\ seg_total b' h n ≈ seg_total b h n).

(** An edit of the addresses: nothing but the addresses and the checksum fields
    changes, and every checksum that was valid stays valid. *)
Record edit4 (h : Z) (b b' : buf) : Prop := {
  e4_len : blen b' = blen b;
  e4_bytes : bytes_ok b';
  e4_frame : forall i, 0 <= i -> i < h + o_ip_sum \/ h + 20 <= i ->
    (forall f, l4_field b h = Some f -> i < f \/ f + 2 <= i) -> get8 b' i = get8 b i;
  e4_ip : ip_total b' h ≈ ip_total b h;
  e4_l4 : l4_kept h b b'
}.

Lemma l4_field_inv b h f :
  l4_field b h = Some f ->
  h + 4 * ip_hl b h + 6 <= f /\ (f - (h + 4 * ip_hl b h)) mod 2 = 0.
Proof. unfold l4_field. intros H. repeat case_match; simplify_eq; split; dlia. Qed.

Lemma edit4_header h b b' :
  wf4 b h -> edit4 h b b' ->
  get8 b' h = get8 b h /\ ip_p b' h = ip_p b h /\ ip_off b' h = ip_off b h
  /\ ip_hl b' h = ip_hl b h /\ l4_field b' h = l4_field b h.
Proof.
  intros [Wb Wh Whl Wlen Wl4] [Elen Eb Ef _ _].
  assert (Hg : forall i, h <= i < h + 10 -> get8 b' i = get8 b i).
  { intros i Hi. apply Ef; [lia|lia|]. intros f Hf. apply l4_field_inv in Hf. lia. }
  assert (H0 : get8 b' h = get8 b h) by (apply Hg; lia).
  assert (Hhl : ip_hl b' h = ip_hl b h) by (unfold ip_hl; by rewrite H0).
  assert (Hp : ip_p b' h = ip_p b h) by (apply Hg; lia).
  assert (Ho : ip_off b' h = ip_off b h) by (unfold ip_off, get16; by rewrite !Hg by lia).
  repeat split; try done. unfold l4_field. by rewrite Ho, Hp, Hhl.
Qed.

Lemma edit4_wf h b b' : wf4 b h -> edit4 h b b' -> wf4 b' h.
Proof.
  intros W E. destruct (edit4_header h b b' W E) as (_ & _ & _ & Hhl & Hl4).
  destruct W, E. split; rewrite ?Hhl, ?Hl4, ?e4_len0; auto.
Qed.

Lemma edit4_refl h b : wf4 b h -> edit4 h b b.
Proof.
  intros W. split; try done; [by destruct W|]. intros f n Hf H1 H2.
  destruct (decide (ip_p b h = IPPROTO_UDP)) as [Hu|]; [|by right].
  destruct (decide (get16 b f = 0)); [by left|by right].
Qed.

Lemma edit4_trans h b1 b2 b3 :
  wf4 b1 h -> edit4 h b1 b2 -> edit4 h b2 b3 -> edit4 h b1 b3.
Proof.
  intros W E1 E2. destruct (edit4_header h b1 b2 W E1) as (_ & Hp & _ & Hhl & Hl4).
  destruct E1 as [L1 B1 F1 I1 K1], E2 as [L2 B2 F2 I2 K2].
  split; [congruence|done| |by rewrite I2|].
  - intros i H0 H1 H2. rewrite F2, F1; try done. by rewrite Hl4.
  - intros f n Hf H1 H2. specialize (K1 f n Hf H1 H2).
    specialize (K2 f n ltac:(congruence) ltac:(rewrite Hhl; lia) ltac:(rewrite Hhl, L1; lia)).
    rewrite Hp in K2. destruct K2 as [K2|[K2 S2]]; [by left|].
    destruct K1 as [[Hu K1]|[K1 S1]]; [by specialize (K2 Hu)|]. right. split; [done|]. by rewrite S2.
Qed.

(** ** One address rewrite *)

Lemma replace4_at_spec b f old new :
  bytes_ok b -> 0 <= f -> f + 2 <= blen b -> is_u32 old -> is_u32 new ->
  wp (replace4_at f old new)
     (fun _ b' => exists c, b' = put16 b f c /\ is_u16 c /\ c + new ≈ get16 b f + old) b.
Proof.
  intros Hb Hf Hl Ho Hn. unfold replace4_at. wp_steps.
  destruct (csum_replace4_spec (get16 b f) old new) as [H1 H2]; auto with cint.
  by exists (csum_replace4 (get16 b f) old new).
Qed.

(** The two stores of an address rewrite compensate each other in every region
    that holds the address and the checksum field. *)
Lemma eqm_swap s a x y c w : c + y ≈ w + x -> s + a + (y - x) + (c - w) ≈ s + a.
Proof.
  intros H. replace (s + a + (y - x) + (c - w)) with (s + a + (c + y) - (w + x)) by lia.
  rewrite H. by apply (eqm_diff _ _ 0); lia.
Qed.

Definition ip_field (h field : Z) : Prop := field = h + o_ip_src \/ field = h + o_ip_dst.

Definition other_addr_kept (h field : Z) (b b' : buf) : Prop :=
  forall f, ip_field h f -> f <> field -> get32 b' f = get32 b f.

(** [b'] after the address and the header checksum are stored: what holds before
    the layer-4 checksum is updated. *)
Record addr_stored (h field new : Z) (b b' : buf) : Prop := {
  as_len : blen b' = blen b;
  as_bytes : bytes_ok b';
  as_out : forall i, 0 <= i -> i < h + o_ip_sum \/ h + 20 <= i -> get8 b' i = get8 b i;
  as_ip : ip_total b' h ≈ ip_total b h;
  as_get : get32 b' field = new;
  as_other : other_addr_kept h field b b';
  as_pseudo : csum b' (h + o_ip_src) 8 ≈ csum b (h + o_ip_src) 8 + (new - get32 b field)
}.

Lemma addr_stored_intro b h field new c :
  wf4 b h -> ip_field h field -> is_u32 new -> is_u16 c ->
  c + new ≈ get16 b (h + o_ip_sum) + get32 b field ->
  addr_stored h field new b (put16 (put32 b field new) (h + o_ip_sum) c).
Proof.
  intros [Wb Wh Whl Wlen _] Hf Hn Hc He.
  assert (Hfb : h + 12 <= field <= h + 16) by (destruct Hf; lia).
  assert (Hev : (field - h) mod 2 = 0) by (destruct Hf; subst field; dlia).
  assert (Hout : forall i, 0 <= i -> i < h + o_ip_sum \/ h + 20 <= i ->
    get8 (put16 (put32 b field new) (h + o_ip_sum) c) i = get8 b i).
  { intros i H0 Hi. rewrite get8_put16_ne, get8_put32_ne; autorewrite with blen; lia || done. }
  split; [by autorewrite with blen|auto with cint|done|..].
  - unfold ip_total, ip_hl at 1. rewrite Hout by lia. fold (ip_hl b h).
    rewrite csum_put16_in; autorewrite with blen; try lia; [|apply even_to_nat; dlia].
    rewrite csum_put32_in; try lia; [|apply even_to_nat; lia].
    rewrite u32_id, u16_id, get16_put32_ne by (done || lia).
    pose proof (eqm_swap (csum b h (Z.to_nat (4 * ip_hl b h))) 0 _ _ _ _ He) as HE.
    rewrite !Z.add_0_r in HE. exact HE.
  - rewrite get32_put16_ne, get32_put32_eq, u32_id; autorewrite with blen; done || lia.
  - intros f' Hf' Hne. rewrite get32_put16_ne, get32_put32_ne;
      autorewrite with blen; try done; destruct Hf, Hf'; lia.
  - rewrite csum_put16_out by (autorewrite with blen; lia).
    rewrite csum_put32_in; try lia; [by rewrite u32_id|]. apply even_to_nat; [lia|dlia].
Qed.

Lemma wp_get_layer4_v4 b h Q :
  wf4 b h -> Q (Some (h + 4 * ip_hl b h)) b -> wp (get_layer4_v4 h 65536) Q b.
Proof.
  intros [Wb Wh Whl Wlen _] HQ. unfold get_layer4_v4. pose proof (ip_hl_range b h).
  apply wp_bind, wp_ld_ip_hl; [lia..|]. wp_step.
  by replace (h + 65536 <? h + 4 * ip_hl b h) with false by lia.
Qed.

(** Buffers that agree with [b] on the header up to the checksum. *)
Lemma l4_field_frame b b' h :
  (forall i, h <= i < h + 10 -> get8 b' i = get8 b i) ->
  0 <= h -> ip_hl b' h = ip_hl b h /\ ip_p b' h = ip_p b h /\ ip_off b' h = ip_off b h
    /\ l4_field b' h = l4_field b h.
Proof.
  intros Hg Hh. assert (Hhl : ip_hl b' h = ip_hl b h) by (unfold ip_hl; by rewrite Hg by lia).
  assert (Hp : ip_p b' h = ip_p b h) by (unfold ip_p; apply Hg; lia).
  assert (Ho : ip_off b' h = ip_off b h) by (unfold ip_off, get16; by rewrite !Hg by lia).
  repeat split; try done. unfold l4_field. by rewrite Ho, Hp, Hhl.
Qed.

(** The second half of [ipv4_addr_csum_replace], which updates layer 4. *)
Lemma l4_replace_spec b h old new Q :
  wf4 b h -> is_u32 old -> is_u32 new ->
  (l4_field b h = None -> Q tt b) ->
  (forall f, l4_field b h = Some f -> ip_p b h = IPPROTO_UDP -> get16 b f = 0 -> Q tt b) ->
  (forall f c, l4_field b h = Some f -> (ip_p b h = IPPROTO_UDP -> get16 b f <> 0) ->
     is_u16 c -> c + new ≈ get16 b f + old -> Q tt (put16 b f c)) ->
  wp (protocol ← ld8 (h + o_ip_p);
      l4 ← (if (protocol =? IPPROTO_TCP) || (protocol =? IPPROTO_UDP)
            then get_layer4_v4 h 65536 else mret None);
      match l4 with
      | None => mret tt
      | Some l4 =>
          off ← ld16 (h + o_ip_off);
          if frag_off off =? 0 then ipv4_l34_csum_replace l4 protocol old new else mret tt
      end) Q b.
Proof.
  intros W Ho Hn HN HZ HS. pose proof W as [Wb Wh Whl Wlen Wl4].
  wp_steps. fold (ip_p b h). unfold l4_field in *. revert HN HZ HS Wl4.
  destruct (Z.eqb_spec (ip_p b h) IPPROTO_TCP) as [Ht|Ht]; cbn [orb]; intros HN HZ HS Wl4.
  - apply (wp_get_layer4_v4 b h); [done|]. wp_steps. fold (ip_off b h).
    destruct (frag_off (ip_off b h) =? 0); [|wp_steps; auto].
    rewrite Ht. unfold ipv4_l34_csum_replace. cbn [Z.eqb Pos.eqb].
    specialize (Wl4 _ eq_refl).
    eapply wp_mono; [|apply replace4_at_spec; done || lia].
    intros [] b' (c & -> & Hc & He). apply HS; [done|by rewrite Ht|done..].
  - revert HN HZ HS Wl4.
    destruct (Z.eqb_spec (ip_p b h) IPPROTO_UDP) as [Hu|Hu]; intros HN HZ HS Wl4.
    + apply (wp_get_layer4_v4 b h); [done|]. wp_steps. fold (ip_off b h).
      destruct (frag_off (ip_off b h) =? 0); [|wp_steps; auto].
      rewrite Hu. unfold ipv4_l34_csum_replace. cbn [Z.eqb Pos.eqb].
      specialize (Wl4 _ eq_refl). wp_steps.
      destruct (Z.eqb_spec (get16 b (h + 4 * ip_hl b h + 6)) 0); cbn [negb]; [wp_steps; eauto|].
      eapply wp_mono; [|apply replace4_at_spec; done || lia].
      intros [] b' (c & -> & Hc & He). eapply HS; done.
    + wp_steps. apply HN. by destruct (frag_off (ip_off b h) =? 0).
Qed.


Lemma addr_stored_header h field new b b' :
  wf4 b h -> addr_stored h field new b b' ->
  ip_hl b' h = ip_hl b h /\ ip_p b' h = ip_p b h /\ l4_field b' h = l4_field b h /\ wf4 b' h.
Proof.
  intros [Wb Wh Whl Wlen Wl4] [L B Out _ _ _ _].
  destruct (l4_field_frame b b' h) as (Hhl & Hp & _ & Hl); [intros; apply Out; lia|done|].
  split_and!; try done. split; rewrite ?Hhl, ?Hl, ?L; auto.
Qed.

(** The rewrite is complete when there is no layer-4 checksum to update. *)
Lemma addr_stored_edit h field new b b' :
  wf4 b h -> addr_stored h field new b b' ->
  (forall f, l4_field b h = Some f -> ip_p b h = IPPROTO_UDP /\ get16 b' f = 0) ->
  edit4 h b b'.
Proof.
  intros W [L B Out Hip _ _ _] Hz. split; try done; [auto|].
  intros f n Hf _ _. left. auto.
Qed.

Lemma addr_stored_edit_l4 h field new b b' f c :
  wf4 b h -> addr_stored h field new b b' -> l4_field b h = Some f ->
  (ip_p b h = IPPROTO_UDP -> get16 b f <> 0) -> is_u16 c ->
  c + new ≈ get16 b f + get32 b field -> edit4 h b (put16 b' f c).
Proof.
  intros W S Hf Hu Hc He. destruct (addr_stored_header _ _ _ _ _ W S) as (Hhl & _ & _ & _).
  destruct W as [Wb Wh Whl Wlen Wl4], S as [L B Out Hip _ _ Hps].
  specialize (Wl4 f Hf). destruct (l4_field_inv b h f Hf) as [Hf6 Hev].
  assert (Hhl2 : ip_hl (put16 b' f c) h = ip_hl b h)
    by (unfold ip_hl; rewrite get8_put16_ne by lia; exact Hhl).
  split; autorewrite with blen; auto with cint.
  - intros i H0 Hi Hfr. specialize (Hfr f Hf). rewrite get8_put16_ne by lia. auto.
  - rewrite <- Hip. unfold ip_total. rewrite Hhl2, Hhl, csum_put16_out by lia. done.
  - intros f' n Hf' Hn1 Hn2. assert (f' = f) as -> by congruence. right. split; [done|].
    unfold seg_total. rewrite Hhl2, csum_put16_out by lia.
    rewrite csum_put16_in; try lia; [|apply even_to_nat; lia].
    rewrite Hps, u16_id by done. rewrite (csum_ext b' b) by (intros i Hi; apply Out; lia).
    replace (get16 b' f) with (get16 b f) by (unfold get16; by rewrite !Out by lia).
    pose proof (eqm_swap (csum b (h + 12) 8) (csum b (h + 4 * ip_hl b h) (Z.to_nat n))
      _ _ _ _ He) as HE. rewrite <- HE. by apply (eqm_diff _ _ 0); lia.
Qed.

(** Rewriting one address keeps every checksum valid, changes nothing else, and
    runs within the packet. *)
Lemma set_addr_spec b h field new :
  wf4 b h -> ip_field h field -> is_u32 new ->
  wp (set_addr h field new)
     (fun _ b' => edit4 h b b' /\ get32 b' field = new /\ other_addr_kept h field b b') b.
Proof.
  intros W Hf Hn. pose proof W as [Wb Wh Whl Wlen Wl4].
  assert (Hfb : h + 12 <= field <= h + 16) by (destruct Hf; lia).
  assert (Hin : field + 4 <= blen b) by lia.
  unfold set_addr, ipv4_addr_csum_replace. wp_steps.
  assert (Ho : is_u32 (get32 b field)) by (by apply get32_range).
  unfold ipv4_l34_csum_replace at 1. cbn [Z.eqb].
  eapply wp_mono; [|apply replace4_at_spec; autorewrite with blen; auto with cint; lia].
  intros [] b2 (c & -> & Hc & He). rewrite get16_put32_ne in He by lia.
  pose proof (addr_stored_intro b h field new c W Hf Hn Hc He) as S.
  set (b2 := put16 _ _ c) in *. clearbody b2.
  destruct (addr_stored_header _ _ _ _ _ W S) as (Hhl & Hp & Hl & W2).
  pose proof S as [L B Out _ Hget Hoth _].
  assert (Hgf : forall f, l4_field b h = Some f -> get16 b2 f = get16 b f).
  { intros f Hff. specialize (Wl4 f Hff). destruct (l4_field_inv b h f Hff).
    unfold get16. by rewrite !Out by lia. }
  apply l4_replace_spec; [done..| | |]; rewrite Hl, ?Hp.
  - intros HN. split_and!; try done. eapply addr_stored_edit; [done..|]. intros f. congruence.
  - intros f Hff Hu Hz. split_and!; try done. eapply addr_stored_edit; [done..|].
    intros f' Hf'. split; [done|]. congruence.
  - intros f c2 Hff Hu Hc2 He2. rewrite (Hgf f Hff) in Hu, He2. specialize (Wl4 f Hff).
    destruct (l4_field_inv b h f Hff) as [Hf6 _]. split_and!.
    + eapply addr_stored_edit_l4; done.
    + by rewrite get32_put16_ne by lia.
    + intros f' Hif Hne. rewrite get32_put16_ne by (destruct Hif; lia). by apply Hoth.
Qed.

(** ** Mapping the addresses *)

(** A map entry that applies to IPv4, or that is for the other family. *)
Definition map4_ok (m : tcpr_cidrmap) : Prop :=
  family (from m) <> AF_INET \/ (cidr4_ok (from m) /\ target4_ok (to m)).

Definition hit4 (m : tcpr_cidrmap) (ip : Z) : bool :=
  (family (from m) =? AF_INET) && ip_matches ip (from m).
Definition img4 (t : tcpedit) (m : tcpr_cidrmap) (ip : Z) : Z :=
  match remap_ipv4 t (to m) ip with Ok r => r | Err _ => ip end.
Definition map4 (t : tcpedit) : list tcpr_cidrmap -> Z -> Z := first_map hit4 (img4 t).

Lemma ip_in_cidr_hit4 m ip : map4_ok m -> is_u32 ip -> ip_in_cidr (from m) ip = Ok (hit4 m ip).
Proof.
  intros Hm Hi. unfold hit4. destruct Hm as [Hf|[Hc _]].
  - unfold ip_in_cidr. by rewrite (proj2 (Z.eqb_neq _ _) Hf).
  - rewrite ip_in_cidr_prefix by done. destruct Hc as [-> _]. done.
Qed.

Lemma remap_field_step t h field other :
  ip_field h field -> ip_field h other -> field <> other ->
  AddrStep (fun b => wf4 b h) (edit4 h) map4_ok hit4 (img4 t)
    (fun b => get32 b field) (fun b => get32 b other) (remap_field t h field).
Proof.
  intros Hf Hg Hne m b W Hm. pose proof W as [Wb Wh Whl Wlen _].
  assert (h + 12 <= field <= h + 16) by (destruct Hf; lia). unfold remap_field. wp_steps.
  assert (Hu : is_u32 (get32 b field)) by (by apply get32_range).
  eapply wp_lift; [by apply ip_in_cidr_hit4|].
  destruct (hit4 m (get32 b field)) eqn:Hhit; [|wp_steps; auto using edit4_refl].
  destruct Hm as [Hm|[_ Ht]]; [unfold hit4 in Hhit; lia|].
  destruct (remap_ipv4_ok t (to m) (get32 b field) Ht Hu) as (r & Hr & Hru & _).
  apply wp_bind. eapply wp_lift; [done|]. wp_steps.
  eapply wp_mono; [|by apply set_addr_spec].
  intros [] b' (HE & Hgf & Hk). wp_steps. unfold img4. rewrite Hr. auto.
Qed.

Definition maps4_ok (t : tcpedit) : Prop :=
  Forall map4_ok (srcipmap t) /\ Forall map4_ok (dstipmap t)
  /\ Forall map4_ok (cidrmap1 t) /\ Forall map4_ok (cidrmap2 t)
  /\ (cidrmap1 t = [] <-> cidrmap2 t = []).

Lemma rewrite_ipv4l3_ok t b h direction :
  wf4 b h -> maps4_ok t ->
  wp (rewrite_ipv4l3 t h direction)
     (fun r b' => r = 0 /\ edit4 h b b'
        /\ ip_src b' h = map4 t (maps_of t direction).1 (map4 t (srcipmap t) (ip_src b h))
        /\ ip_dst b' h = map4 t (maps_of t direction).2 (map4 t (dstipmap t) (ip_dst b h))) b.
Proof.
  intros W (Fs & Fd & F1 & F2 & Hnil). unfold rewrite_ipv4l3.
  assert (Hs : AddrStep (fun b => wf4 b h) (edit4 h) map4_ok hit4 (img4 t)
    (fun b => ip_src b h) (fun b => ip_dst b h) (remap_field t h (h + o_ip_src)))
    by (apply remap_field_step; [by left|by right|lia]).
  assert (Hd : AddrStep (fun b => wf4 b h) (edit4 h) map4_ok hit4 (img4 t)
    (fun b => ip_dst b h) (fun b => ip_src b h) (remap_field t h (h + o_ip_dst)))
    by (apply remap_field_step; [by right|by left|lia]).
  apply wp_bind. eapply wp_mono; [|eapply (ipmap_loop_spec (fun b => wf4 b h) (edit4 h) map4_ok);
    eauto using edit4_refl, edit4_trans, edit4_wf].
  intros [] b1 (E1 & S1 & D1). pose proof (edit4_wf _ _ _ W E1) as W1. cbn in S1, D1.
  apply wp_bind. eapply wp_mono; [|eapply (ipmap_loop_spec (fun b => wf4 b h) (edit4 h) map4_ok);
    eauto using edit4_refl, edit4_trans, edit4_wf].
  intros [] b2 (E2 & D2 & S2). pose proof (edit4_wf _ _ _ W1 E2) as W2. cbn in S2, D2.
  assert (E12 : edit4 h b b2) by (by eapply edit4_trans). rewrite S1 in S2. rewrite D1 in D2.
  unfold map4. rewrite <- S2, <- D2. unfold maps_of.
  case_bool_decide as H1.
  { wp_steps. rewrite H1. destruct Hnil as [Hnil _]. rewrite (Hnil H1). by case_bool_decide. }
  assert (H2 : cidrmap2 t <> []) by (by intros ?%Hnil).
  case_bool_decide; apply wp_bind;
    (eapply wp_mono; [|eapply (cidrmap_walk_spec (fun b => wf4 b h) (edit4 h) map4_ok);
       eauto using edit4_refl, edit4_trans, edit4_wf]);
    intros [s d] b3 (E3 & S3 & D3 & _); cbn in *; wp_steps; eauto using edit4_trans.
Qed.

(** C18: rewrite_ipv4l3 terminates without leaving the packet, maps the source
    by the first matching entry of --srcipmap and then of the direction's
    netblock map, and likewise the destination, changes nothing but the
    addresses and checksum fields, and keeps the header, TCP and UDP sums. *)
Theorem rewrite_ipv4l3_spec t b h direction :
  wf4 b h -> maps4_ok t ->
  wp (rewrite_ipv4l3 t h direction)
     (fun r b' => r = 0 /\ edit4 h b b'
        /\ ip_src b' h = map4 t (maps_of t direction).1 (map4 t (srcipmap t) (ip_src b h))
        /\ ip_dst b' h = map4 t (maps_of t direction).2 (map4 t (dstipmap t) (ip_dst b h))) b.
Proof. exact (rewrite_ipv4l3_ok t b h direction). Qed.

(** ** Randomizing the addresses *)

Definition randomized (t : tcpedit) (ip : Z) : Z :=
  if skip_broadcast t && negb (is_unicast_ipv4 ip) then ip else randomize_word (nseed t) ip.

Lemma randomize_field_spec t b h field :
  wf4 b h -> ip_field h field ->
  wp (randomize_field t h field)
     (fun _ b' => edit4 h b b' /\ get32 b' field = randomized t (get32 b field)
        /\ other_addr_kept h field b b') b.
Proof.
  intros W Hf. pose proof W as [Wb Wh Whl Wlen _].
  assert (h + 12 <= field <= h + 16) by (destruct Hf; lia).
  assert (Hu : is_u32 (get32 b field)) by (by apply get32_range).
  unfold randomize_field, randomized. wp_steps.
  assert (Hr : is_u32 (randomize_ipv4_addr t (get32 b field))).
  { unfold randomize_ipv4_addr. case_match; [done|apply u32_range]. }
  destruct (skip_broadcast t) eqn:Hs, (is_unicast_ipv4 _) eqn:Hun; cbn [andb orb negb];
    try (wp_steps; split_and!; try done; by apply edit4_refl);
    (eapply wp_mono; [|by apply set_addr_spec]); intros [] b' (? & -> & ?);
    unfold randomize_ipv4_addr; rewrite Hs, ?Hun; cbn; done.
Qed.

Lemma randomize_ipv4_ok t b h :
  wf4 b h ->
  wp (randomize_ipv4 t h)
     (fun r b' => r = 0 /\ edit4 h b b' /\ ip_src b' h = randomized t (ip_src b h)
        /\ ip_dst b' h = randomized t (ip_dst b h)) b.
Proof.
  intros W. unfold randomize_ipv4. apply wp_bind.
  eapply wp_mono; [|apply (randomize_field_spec t b h); [done|by right]].
  intros [] b1 (E1 & D1 & K1). pose proof (edit4_wf _ _ _ W E1) as W1. apply wp_bind.
  eapply wp_mono; [|apply (randomize_field_spec t b1 h); [done|by left]].
  intros [] b2 (E2 & S2 & K2). wp_steps. split_and!; [done|by eapply edit4_trans|..].
  - unfold ip_src. rewrite S2. rewrite (K1 (h + o_ip_src)); [done|by left|lia].
  - unfold ip_dst. rewrite (K2 (h + o_ip_dst)); [done|by right|lia].
Qed.

(** randomize_ipv4 replaces both addresses by the seeded function of their
    old value, skips broadcast addresses when told to, and keeps every
    checksum that was valid. *)
Theorem randomize_ipv4_spec t b h :
  wf4 b h ->
  wp (randomize_ipv4 t h)
     (fun r b' => r = 0 /\ edit4 h b b' /\ ip_src b' h = randomized t (ip_src b h)
        /\ ip_dst b' h = randomized t (ip_dst b h)) b.
Proof. exact (randomize_ipv4_ok t b h). Qed.

(** ** Time to live *)

Definition ttl_spec (t : tcpedit) (ttl : Z) : Z :=
  match ttl_mode t with
  | TTL_MODE_OFF => ttl
  | TTL_MODE_SET => ttl_value t
  | TTL_MODE_ADD => Z.min 255 (ttl + ttl_value t)
  | TTL_MODE_SUB => Z.max 1 (ttl - ttl_value t)
  end.

Lemma new_ttl_spec t ttl :
  is_u8 (ttl_value t) -> is_u8 ttl ->
  match new_ttl t ttl with Some v => v = ttl_spec t ttl /\ is_u8 v | None => ttl = ttl_spec t ttl end.
Proof.
  unfold is_u8, new_ttl, ttl_spec. intros Hv Ht. destruct (ttl_mode t); [done|..].
  - destruct (Z.eqb_spec ttl (ttl_value t)); [done|split; [done|lia]].
  - destruct (Z.ltb_spec 255 (ttl + ttl_value t)); [lia|]. rewrite u8_id; unfold is_u8; lia.
  - destruct (Z.leb_spec ttl (ttl_value t)); [lia|]. rewrite u8_id; unfold is_u8; lia.
Qed.

Lemma rewrite_ipv4_ttl_ok t b h :
  wf4 b h -> is_u8 (ttl_value t) ->
  wp (rewrite_ipv4_ttl t (Some h))
     (fun r b' => r = 0 /\ bytes_ok b' /\ blen b' = blen b
        /\ ip_ttl b' h = ttl_spec t (ip_ttl b h) /\ ip_total b' h ≈ ip_total b h
        /\ (forall i, 0 <= i -> i <> h + o_ip_ttl -> i < h + o_ip_sum \/ h + o_ip_sum + 2 <= i ->
            get8 b' i = get8 b i)) b.
Proof.
  intros [Wb Wh Whl Wlen _] Hv. unfold rewrite_ipv4_ttl.
  pose proof (get8_range b (h + 8) Wb) as Ht.
  case_bool_decide as Hoff; [wp_steps; unfold ttl_spec; rewrite Hoff; done|].
  wp_steps. pose proof (new_ttl_spec t (get8 b (h + 8)) Hv Ht) as Hn.
  destruct (new_ttl t (get8 b (h + 8))) as [v|]; [|by wp_steps].
  destruct Hn as [-> Hu]. fold (ip_ttl b h) in *. set (v := ttl_spec t (ip_ttl b h)) in *.
  wp_steps. rewrite get8_put8_eq, u8_id by (done || lia).
  assert (get16 (put8 b (h + 8) v) (h + 10) = get16 b (h + 10)) as ->
    by (unfold get16; by rewrite !get8_put8_ne by lia).
  destruct (csum_replace2_spec (get16 b (h + 10)) (ip_ttl b h) v) as [HE HU];
    [auto with cint|unfold is_u8, is_u16 in *; lia..|].
  set (c := csum_replace2 _ _ _) in *.
  assert (Hout : forall i, 0 <= i -> i <> h + 8 -> i < h + 10 \/ h + 10 + 2 <= i ->
    get8 (put16 (put8 b (h + 8) v) (h + 10) c) i = get8 b i).
  { intros. rewrite get8_put16_ne, get8_put8_ne; autorewrite with blen; lia || done. }
  split_and!; autorewrite with blen; auto with cint.
  - unfold ip_ttl. rewrite get8_put16_ne, get8_put8_eq, u8_id; autorewrite with blen; lia || done.
  - unfold ip_total, ip_hl at 1. rewrite Hout by lia. fold (ip_hl b h).
    rewrite csum_put16_in; autorewrite with blen; try lia; [|apply even_to_nat; dlia].
    rewrite csum_put8_in by lia. unfold wt. rewrite even_to_nat by dlia.
    rewrite u8_id, u16_id by done. unfold get16. rewrite !get8_put8_ne by lia.
    fold (get16 b (h + 10)) (ip_ttl b h).
    pose proof (eqm_swap (csum b h (Z.to_nat (4 * ip_hl b h))) 0 _ _ _ _ HE) as HE2.
    rewrite !Z.add_0_r in HE2. rewrite Z.mul_1_l. exact HE2.
Qed.

(** rewrite_ipv4_ttl sets the TTL, or moves it with saturation at 255 and
    1, keeps the header sum, and touches only the TTL and the checksum. *)
Theorem rewrite_ipv4_ttl_spec t b h :
  wf4 b h -> is_u8 (ttl_value t) ->
  wp (rewrite_ipv4_ttl t (Some h))
     (fun r b' => r = 0 /\ bytes_ok b' /\ blen b' = blen b
        /\ ip_ttl b' h = ttl_spec t (ip_ttl b h) /\ ip_total b' h ≈ ip_total b h
        /\ (forall i, 0 <= i -> i <> h + o_ip_ttl -> i < h + o_ip_sum \/ h + o_ip_sum + 2 <= i ->
            get8 b' i = get8 b i)) b.
Proof. exact (rewrite_ipv4_ttl_ok t b h). Qed.

(** ** Recomputing all checksums *)

Lemma fix_ipv4_checksums_ok b h len :
  let hl := ip_hl b h in let l4 := h + 4 * hl in
  let seglen := bswap16 (ip_len b h) - 4 * hl in let p := ip_p b h in
  bytes_ok b -> 0 <= h -> ip_v b h <> 6 -> 5 <= hl -> frag_off (ip_off b h) = 0 ->
  p = IPPROTO_TCP \/ p = IPPROTO_UDP /\ get16 b (l4 + o_uh_sum) <> 0 ->
  l4_sum_off p + 2 <= seglen -> l4 + seglen <= blen b ->
  wp (fix_ipv4_checksums len len h)
     (fun r b' => r = TCPEDIT_OK /\ verifies (ip_total b' h)
        /\ verifies (l4_total b' h l4 p seglen) /\ blen b' = blen b
        /\ forall i, 0 <= i -> i < h + o_ip_sum \/ h + o_ip_sum + 2 <= i ->
             i < l4 + l4_sum_off p \/ l4 + l4_sum_off p + 2 <= i -> get8 b' i = get8 b i) b.
Proof.
  intros hl l4 seglen p Hb Hh Hv Hhl Hfr Hp Hs Hbl.
  assert (Hs0 : 0 <= l4_sum_off p) by (unfold l4_sum_off; case_match; lia).
  pose proof (bswap16_range (ip_len b h)) as HL. unfold is_u16 in HL.
  unfold fix_ipv4_checksums. rewrite Z.eqb_refl. wp_steps. fold (ip_off b h). rewrite Hfr. cbn [Z.eqb].
  wp_steps. fold (ip_p b h) (ip_len b h) p. apply wp_ld_ip_hl; [lia..|]. fold hl seglen.
  eapply wp_mono; [|apply do_checksum_v4; [lia|lia|lia|done|];
    apply do_checksum_switch_l4; fold hl l4; done || lia].
  intros r b1 (-> & B1 & O1 & V1). cbn [Z.ltb Z.compare]. fold hl l4 in O1, V1.
  assert (G1 : forall i, h <= i < h + 20 -> get8 b1 i = get8 b i).
  { intros i Hi. apply (only_in_get8 _ _ _ _ _ O1); lia. }
  assert (Hlen1 : blen b1 = blen b) by apply O1.
  assert (Hhl1 : ip_hl b1 h = hl) by (unfold ip_hl; by rewrite G1 by lia).
  assert (Hv1 : ip_v b1 h <> 6) by (unfold ip_v; by rewrite G1 by lia).
  wp_steps. fold (ip_len b1 h).
  replace (ip_len b1 h) with (ip_len b h) by (unfold ip_len, get16; by rewrite !G1 by lia).
  eapply wp_mono; [|apply do_checksum_v4; [lia|lia|lia|done|];
    apply do_checksum_switch_ip; done || lia].
  intros r b2 (-> & B2 & O2 & V2). wp_steps. split_and!; try done.
  - unfold l4_total. rewrite !(csum_only_in _ _ _ _ _ _ O2) by lia. exact V1.
  - destruct O2 as [-> _]. done.
  - intros i H0 H1 H2. rewrite (only_in_get8 _ _ _ _ _ O2) by lia.
    by rewrite (only_in_get8 _ _ _ _ _ O1) by lia.
Qed.

(** fix_ipv4_checksums on a complete, unfragmented TCP packet, or UDP packet
    that carries a checksum: afterwards both the header and the segment verify,
    and only the two checksum fields have changed. *)
Theorem fix_ipv4_checksums_spec b h len :
  let hl := ip_hl b h in let l4 := h + 4 * hl in
  let seglen := bswap16 (ip_len b h) - 4 * hl in let p := ip_p b h in
  bytes_ok b -> 0 <= h -> ip_v b h <> 6 -> 5 <= hl -> frag_off (ip_off b h) = 0 ->
  p = IPPROTO_TCP \/ p = IPPROTO_UDP /\ get16 b (l4 + o_uh_sum) <> 0 ->
  l4_sum_off p + 2 <= seglen -> l4 + seglen <= blen b ->
  wp (fix_ipv4_checksums len len h)
     (fun r b' => r = TCPEDIT_OK /\ verifies (ip_total b' h)
        /\ verifies (l4_total b' h l4 p seglen) /\ blen b' = blen b
        /\ forall i, 0 <= i -> i < h + o_ip_sum \/ h + o_ip_sum + 2 <= i ->
             i < l4 + l4_sum_off p \/ l4 + l4_sum_off p + 2 <= i -> get8 b' i = get8 b i) b.
Proof. exact (fix_ipv4_checksums_ok b h len). Qed.

(** ** Instances *)

Definition map_192_10 : tcpr_cidrmap := {| from := net_192_168; to := net_10_20 |}.

(** --srcipmap=192.168.0.0/16:10.20.0.0/16 --ttl=+200 *)
Definition sample_edit : tcpedit := {|
  skip_broadcast := false; fixlen := FIXLEN_OFF; rewrite_ip := true; fixcsum := false;
  efcs := false; ttl_mode := TTL_MODE_ADD; ttl_value := 200; tos := -1; flowlabel := -1;
  tclass := -1; cidrmap1 := [map_192_10]; cidrmap2 := [map_192_10];
  srcipmap := [map_192_10]; dstipmap := []; seed := 77;
  portmap := [{| pm_from := 20480; pm_to := 256 |}]; mtu := 1500; mtu_truncate := false;
  maxpacket := 0
|}.

Lemma wf4_sample : wf4 sample_tcp 14.
Proof.
  split; try concrete. intros f Hf. vm_compute in Hf. injection Hf as <-. concrete.
Qed.
Lemma map4_ok_sample : map4_ok map_192_10.
Proof. right. split; split_and!; concrete. Qed.

Lemma rewrite_ipv4l3_witness :
  wp (rewrite_ipv4l3 sample_edit 14 DIR_C2S)
     (fun r b' => edit4 14 sample_tcp b' /\ ip_src b' 14 = 16782346) sample_tcp.
Proof.
  eapply wp_mono; [|apply (rewrite_ipv4l3_spec sample_edit sample_tcp 14 DIR_C2S); [apply wf4_sample|]].
  - intros r b' (_ & He & Hs & _). split; [done|]. rewrite Hs. by vm_compute.
  - assert (H : Forall map4_ok [map_192_10]) by (constructor; [apply map4_ok_sample|constructor]).
    split_and!; [exact H|constructor|exact H|exact H|done].
Defined.

Lemma randomize_ipv4_witness :
  wp (randomize_ipv4 sample_edit 14) (fun r b' => edit4 14 sample_tcp b') sample_tcp.
Proof.
  eapply wp_mono; [|apply (randomize_ipv4_spec sample_edit sample_tcp 14), wf4_sample].
  by intros r b' (_ & He & _).
Defined.

Lemma rewrite_ipv4_ttl_witness :
  wp (rewrite_ipv4_ttl sample_edit (Some 14))
     (fun r b' => ip_ttl b' 14 = 255 /\ ip_total b' 14 ≈ ip_total sample_tcp 14) sample_tcp.
Proof.
  eapply wp_mono; [|apply (rewrite_ipv4_ttl_spec sample_edit sample_tcp 14); [apply wf4_sample|concrete]].
  intros r b' (_ & _ & _ & Ht & Hs & _). by split.
Defined.

Lemma fix_ipv4_checksums_witness :
  wp (fix_ipv4_checksums 58 58 14)
     (fun r b' => verifies (ip_total b' 14) /\ verifies (l4_total b' 14 34 6 24)) sample_tcp.
Proof.
  eapply wp_mono; [|apply (fix_ipv4_checksums_spec sample_tcp 14 58); [concrete..|by left|concrete|concrete]].
  intros r b' (_ & H1 & H2 & _). by split.
Defined.
