(* ===== verification/EditIPv6.v ===== *)
(** * Editing IPv6 packets: [ddtcpreplay/src/tcpedit/edit_packet.c]

    The IPv6 half of edit_packet.c.  [ip6_hdr] is the offset of the IPv6
    header; an address is read and written as sixteen bytes.  [base] is the
    address of the local array that csum_replace16 sums, on which the alignment
    steps of do_csum depend; all results hold for every [base]. *)

From Stdlib Require Import ZArith Lia.
From stdpp Require Import base list.
From S2P Require Import Prelude Samples Wire Get Csum IncChecksum Checksum Cidr TcpeditTypes Remap MapLoop EditIPv4.

(** ** Operations *)

Definition fix_ipv6_checksums (caplen len ip6_hdr : Z) : M Z :=
  ret ← (if caplen =? len then
           p ← ld8 (ip6_hdr + o_ip6_nh);
           pl ← ld16 (ip6_hdr + o_ip6_len);
           do_checksum ip6_hdr p (bswap16 pl)
         else mret 0);
  mret (if ret <? 0 then TCPEDIT_ERROR
        else if ret =? TCPEDIT_WARN then TCPEDIT_WARN else TCPEDIT_OK).

(** The sixteen bytes of an address, and storing them. *)
Definition addr6 (b : buf) (o : Z) : list Z := slice b o 16.
Definition ld_addr6 (o : Z) : M (list Z) := ld_bytes o 16.
Definition st_addr6 (o : Z) (addr : list Z) : M unit := st_bytes o addr.

(** [csum_replace16(&field, old, new)] *)
Definition replace16_at (base field : Z) (old new : list Z) : M unit :=
  s ← ld16 field;
  r ← lift (csum_replace16 base s (words6 old) (words6 new));
  st16 field r.

Definition ipv6_l34_csum_replace (base data protocol : Z) (old new : list Z) : M unit :=
  if protocol =? IPPROTO_TCP then replace16_at base (data + o_th_sum) old new
  else if protocol =? IPPROTO_UDP then
    s ← ld16 (data + o_uh_sum);
    if negb (s =? 0) then replace16_at base (data + o_uh_sum) old new else mret tt
  else if (protocol =? IPPROTO_ICMP) || (protocol =? IPPROTO_ICMP6) then
    replace16_at base (data + o_icmp_sum) old new
  else fault_with Assert.

Definition ipv6_addr_csum_replace (base ip6_hdr : Z) (old new : list Z) : M unit :=
  p ← get_ipv6_l4proto ip6_hdr 65536;
  let protocol := u8 p in
  l4 ← (if (protocol =? IPPROTO_TCP) || (protocol =? IPPROTO_UDP)
           || (protocol =? IPPROTO_ICMP) || (protocol =? IPPROTO_ICMP6)
        then get_layer4_v6 ip6_hdr 65536 else mret None);
  match l4 with
  | None => mret tt
  | Some l4 => ipv6_l34_csum_replace base l4 protocol old new
  end.

(** [remap_ipv6(..., &field); ipv6_addr_csum_replace(ip6_hdr, &old_ip6, &new)]
    when the address is in [m->from]; [new] is the field the code passes as the
    new address. *)
Definition remap_field6 (base : Z) (t : tcpedit) (ip6_hdr field new : Z) (m : tcpr_cidrmap) : M bool :=
  old_ip6 ← ld_addr6 field;
  hit ← lift (ip6_in_cidr (from m) old_ip6);
  if (hit : bool) then
    '(_, addr) ← lift (remap_ipv6 t (to m) old_ip6);
    _ ← st_addr6 field addr;
    new_ip ← ld_addr6 new;
    _ ← ipv6_addr_csum_replace base ip6_hdr old_ip6 new_ip;
    mret true
  else mret false.

(** In the loop over the netblock maps the code passes [&ip6_hdr->ip_src] as the
    new address of a remapped destination. *)
Definition rewrite_ipv6l3 (base : Z) (t : tcpedit) (ip6_hdr : Z) (direction : tcpr_dir) : M Z :=
  let src := ip6_hdr + o_ip6_src in
  let dst := ip6_hdr + o_ip6_dst in
  _ ← ipmap_loop (remap_field6 base t ip6_hdr src src) (srcipmap t);
  _ ← ipmap_loop (remap_field6 base t ip6_hdr dst dst) (dstipmap t);
  if bool_decide (cidrmap1 t = []) then mret 0
  else
    let '(maps1, maps2) := maps_of t direction in
    _ ← cidrmap_walk (remap_field6 base t ip6_hdr src src) (remap_field6 base t ip6_hdr dst src)
          maps1 maps2;
    mret 0.

Definition randomize_field6 (base : Z) (t : tcpedit) (ip6_hdr field : Z) : M unit :=
  old_ip6 ← ld_addr6 field;
  if skip_broadcast t && negb (is_multicast_ipv6 old_ip6) || negb (skip_broadcast t) then
    _ ← st_addr6 field (randomize_ipv6_addr t old_ip6);
    new_ip ← ld_addr6 field;
    ipv6_addr_csum_replace base ip6_hdr old_ip6 new_ip
  else mret tt.

Definition randomize_ipv6 (base : Z) (t : tcpedit) (ip6_hdr : Z) : M Z :=
  _ ← randomize_field6 base t ip6_hdr (ip6_hdr + o_ip6_dst);
  _ ← randomize_field6 base t ip6_hdr (ip6_hdr + o_ip6_src);
  mret 0.

Definition rewrite_ipv6_hlim (t : tcpedit) (ip6_hdr : option Z) : M Z :=
  match ip6_hdr with
  | None => mret 0
  | Some ip6_hdr =>
      if bool_decide (ttl_mode t = TTL_MODE_OFF) then mret 0 else
      hl ← ld8 (ip6_hdr + o_ip6_hl);
      match new_ttl t hl with
      | None => mret 0
      | Some v => _ ← st8 (ip6_hdr + o_ip6_hl) v; mret 0
      end
  end.

(** ** Packets without extension headers *)

Definition ip6_nh (b : buf) (h : Z) : Z := get8 b (h + o_ip6_nh).

(** The layer-4 checksum field of a packet whose layer-4 header follows the
    IPv6 header. *)
Definition l4_field6 (b : buf) (h : Z) : option Z :=
  let p := ip6_nh b h in
  if p =? IPPROTO_TCP then Some (h + 40 + o_th_sum)
  else if p =? IPPROTO_UDP then Some (h + 40 + o_uh_sum)
  else if (p =? IPPROTO_ICMP) || (p =? IPPROTO_ICMP6) then Some (h + 40 + o_icmp_sum)
  else None.

Record wf6 (b : buf) (h : Z) : Prop := {
  wf6_bytes : bytes_ok b;
  wf6_h : 0 <= h;
  wf6_len : h + 40 <= blen b;
  wf6_noext : ext_again (ip6_nh b h) = false /\ ip6_nh b h <> TCPR_IPV6_NH_IPV6;
  wf6_l4 : forall f, l4_field6 b h = Some f -> f + 2 <= blen b
}.

Definition seg6_total (b : buf) (h n : Z) : Z :=
  csum b (h + o_ip6_src) 32 + csum b (h + 40) (Z.to_nat n).

(** Only the addresses and the checksum field change. *)
Record frame6 (h : Z) (b b' : buf) : Prop := {
  f6_len : blen b' = blen b;
  f6_bytes : bytes_ok b';
  f6_frame : forall i, 0 <= i -> i < h + o_ip6_src \/ h + 40 <= i ->
    (forall f, l4_field6 b h = Some f -> i < f \/ f + 2 <= i) -> get8 b' i = get8 b i
}.

Definition sum6_kept (h : Z) (b b' : buf) : Prop :=
  forall f n, l4_field6 b h = Some f -> f + 2 <= h + 40 + n -> h + 40 + n <= blen b ->
  (ip6_nh b h = IPPROTO_UDP /\ get16 b' f = 0)
  \/ ((ip6_nh b h = IPPROTO_UDP -> get16 b f <> 0) /\ seg6_total b' h n ≈ seg6_total b h n).

Definition edit6 (h : Z) (b b' : buf) : Prop := frame6 h b b' /\ sum6_kept h b b'.

Lemma l4_field6_inv b h f :
  l4_field6 b h = Some f -> h + 42 <= f /\ (f - (h + 40)) mod 2 = 0.
Proof. unfold l4_field6. intros H. repeat case_match; simplify_eq; split; dlia. Qed.

Lemma frame6_nh h b b' :
  wf6 b h -> frame6 h b b' -> ip6_nh b' h = ip6_nh b h /\ l4_field6 b' h = l4_field6 b h.
Proof.
  intros [Wb Wh Wlen Wn Wl] [L B F].
  assert (Hn : ip6_nh b' h = ip6_nh b h).
  { apply F; [lia|lia|]. intros f Hf. apply l4_field6_inv in Hf. lia. }
  split; [done|]. unfold l4_field6. by rewrite Hn.
Qed.
Lemma frame6_wf h b b' : wf6 b h -> frame6 h b b' -> wf6 b' h.
Proof.
  intros W F. destruct (frame6_nh h b b' W F) as [Hn Hl]. destruct W, F.
  split; rewrite ?Hn, ?Hl, ?f6_len0; auto.
Qed.
Lemma frame6_refl h b : wf6 b h -> frame6 h b b.
Proof. intros []. by split. Qed.
Lemma frame6_trans h b1 b2 b3 :
  wf6 b1 h -> frame6 h b1 b2 -> frame6 h b2 b3 -> frame6 h b1 b3.
Proof.
  intros W F1 F2. destruct (frame6_nh h b1 b2 W F1) as [_ Hl].
  destruct F1 as [L1 B1 G1], F2 as [L2 B2 G2]. split; [congruence|done|].
  intros i H0 H1 H2. rewrite G2, G1; try done. by rewrite Hl.
Qed.
Lemma edit6_wf h b b' : wf6 b h -> edit6 h b b' -> wf6 b' h.
Proof. intros W [F _]. by eapply frame6_wf. Qed.
Lemma edit6_refl h b : wf6 b h -> edit6 h b b.
Proof.
  intros W. split; [by apply frame6_refl|]. intros f n Hf H1 H2.
  destruct (decide (ip6_nh b h = IPPROTO_UDP)) as [Hu|]; [|by right].
  destruct (decide (get16 b f = 0)); [by left|by right].
Qed.
Lemma edit6_trans h b1 b2 b3 :
  wf6 b1 h -> edit6 h b1 b2 -> edit6 h b2 b3 -> edit6 h b1 b3.
Proof.
  intros W [F1 K1] [F2 K2]. destruct (frame6_nh h b1 b2 W F1) as [Hn Hl].
  split; [by eapply frame6_trans|]. intros f n Hf H1 H2. specialize (K1 f n Hf H1 H2).
  pose proof F1 as [L1 _ _].
  specialize (K2 f n ltac:(congruence) H1 ltac:(lia)). rewrite Hn in K2.
  destruct K2 as [K2|[K2 S2]]; [by left|].
  destruct K1 as [[Hu K1]|[K1 S1]]; [by specialize (K2 Hu)|]. right. split; [done|]. by rewrite S2.
Qed.

(** ** Finding layer 4 *)

Lemma wp_l4proto b h len Q :
  wf6 b h -> Q (ip6_nh b h) b -> wp (get_ipv6_l4proto h len) Q b.
Proof.
  intros [Wb Wh Wlen [Hx H6] _] HQ. unfold get_ipv6_l4proto. wp_steps.
  fold (ip6_nh b h). apply wp_with_fuel. cbn [get_ipv6_l4proto_loop].
  rewrite Hx. rewrite (proj2 (Z.eqb_neq _ _) H6). case_match; by wp_steps.
Qed.

Lemma wp_layer4 b h len Q :
  wf6 b h -> l4_field6 b h <> None -> Q (Some (h + 40)) b -> wp (get_layer4_v6 h len) Q b.
Proof.
  intros [Wb Wh Wlen [Hx H6] _] Hl HQ. unfold get_layer4_v6. wp_steps.
  fold (ip6_nh b h). apply wp_with_fuel. cbn [get_layer4_v6_loop].
  rewrite Hx, (proj2 (Z.eqb_neq _ _) H6).
  replace ((ip6_nh b h =? TCPR_IPV6_NH_FRAGMENT) || (ip6_nh b h =? TCPR_IPV6_NH_ESP)) with false.
  2:{ symmetry. unfold l4_field6 in Hl. repeat case_match; done || lia. }
  wp_steps. fold (ip6_nh b h). rewrite Z.eqb_refl. by wp_steps.
Qed.

(** ** One address *)

Definition ip6_field (h field : Z) : Prop := field = h + o_ip6_src \/ field = h + o_ip6_dst.

Lemma words6_u32 a : bytes_ok a -> Forall is_u32 (words6 a).
Proof. intros. repeat constructor; by apply get32_range. Qed.

Lemma replace16_at_spec base b f old new :
  0 <= base -> bytes_ok b -> 0 <= f -> f + 2 <= blen b -> bytes_ok old -> bytes_ok new ->
  wp (replace16_at base f old new)
     (fun _ b' => exists c, b' = put16 b f c /\ is_u16 c
        /\ c + sum4 (words6 new) ≈ get16 b f + sum4 (words6 old)) b.
Proof.
  intros Hba Hb Hf Hl Ho Hn. unfold replace16_at. wp_steps.
  destruct (csum_replace16_spec base (get16 b f) (words6 old) (words6 new)) as (r & Hr & He & Hu);
    auto using words6_u32, get16_range.
  eapply wp_lift; [done|]. wp_steps. by exists r.
Qed.

(** The layer-4 update on a packet without extension headers. *)
Lemma addr_csum_replace6_spec base b h old new Q :
  0 <= base -> wf6 b h -> bytes_ok old -> bytes_ok new ->
  (l4_field6 b h = None -> Q tt b) ->
  (forall f, l4_field6 b h = Some f -> ip6_nh b h = IPPROTO_UDP -> get16 b f = 0 -> Q tt b) ->
  (forall f c, l4_field6 b h = Some f -> (ip6_nh b h = IPPROTO_UDP -> get16 b f <> 0) ->
     is_u16 c -> c + sum4 (words6 new) ≈ get16 b f + sum4 (words6 old) -> Q tt (put16 b f c)) ->
  wp (ipv6_addr_csum_replace base h old new) Q b.
Proof.
  intros Hba W Ho Hn HN HZ HS. pose proof W as [Wb Wh Wlen _ Wl4].
  unfold ipv6_addr_csum_replace. apply wp_bind, wp_l4proto; [done|].
  set (p := ip6_nh b h) in *. assert (Hp : is_u8 p) by (by apply get8_range).
  rewrite u8_id by done.
  assert (Hrep : forall f, l4_field6 b h = Some f -> (p = IPPROTO_UDP -> get16 b f <> 0) ->
    wp (replace16_at base f old new) Q b).
  { intros f Hf Hu. specialize (Wl4 f Hf). pose proof (l4_field6_inv b h f Hf).
    eapply wp_mono; [|apply replace16_at_spec; done || lia].
    intros [] b' (c & -> & Hc & He). by apply HS. }
  assert (Hl4 : l4_field6 b h <> None -> forall k,
    wp (k (Some (h + 40))) Q b -> wp (get_layer4_v6 h 65536 ≫= k) Q b).
  { intros Hne k Hk. apply wp_bind. by apply wp_layer4. }
  unfold l4_field6 in Hrep, Hl4, HN, HZ, HS, Wl4. fold p in Hrep, Hl4, HN, HZ, HS, Wl4.
  clearbody p. cbn zeta in *. unfold ipv6_l34_csum_replace.
  destruct (p =? IPPROTO_TCP) eqn:E1; cbn [orb].
  { apply Hl4; [done|]. apply Hrep; [done|]. lia. }
  destruct (p =? IPPROTO_UDP) eqn:E2; cbn [orb].
  { apply Hl4; [done|]. specialize (Wl4 _ eq_refl). wp_steps.
    destruct (Z.eqb_spec (get16 b (h + 40 + 6)) 0) as [Hz|Hz]; cbn [negb].
    - wp_steps. eapply HZ; [done|lia|done].
    - by apply Hrep. }
  destruct ((p =? IPPROTO_ICMP) || (p =? IPPROTO_ICMP6)) eqn:E3.
  { replace ((p =? IPPROTO_ICMP) || (p =? IPPROTO_ICMP6)) with true in Hrep, Hl4 by done.
    apply Hl4; [done|]. apply Hrep; [done|lia]. }
  wp_steps. by apply HN.
Qed.

Lemma csum_16 b o : 0 <= o -> csum b o 16 ≈ sum4 (words6 (addr6 b o)).
Proof.
  intros Ho. change 16%nat with (4 + (4 + (4 + 4)))%nat. rewrite !csum_split by done.
  unfold words6, addr6. rewrite !get32_slice by lia. unfold sum4. cbn [foldr].
  change (Z.of_nat 4) with 4. rewrite !csum_4.
  replace (o + 4 + 4) with (o + 8) by lia. replace (o + 8 + 4) with (o + 12) by lia.
  rewrite Z.add_0_r. by apply (eqm_diff _ _ 0); lia.
Qed.
Lemma csum_addrs b h :
  0 <= h -> csum b (h + o_ip6_src) 32
  ≈ sum4 (words6 (addr6 b (h + o_ip6_src))) + sum4 (words6 (addr6 b (h + o_ip6_dst))).
Proof.
  intros Hh. change 32%nat with (16 + 16)%nat. rewrite csum_split by done.
  replace (h + 8 + Z.of_nat 16) with (h + 24) by lia. rewrite !csum_16 by lia. done.
Qed.

Definition other6_kept (h field : Z) (b b' : buf) : Prop :=
  forall f, ip6_field h f -> f <> field -> addr6 b' f = addr6 b f.

(** [b'] after the address is stored, before layer 4 is updated. *)
Record addr_stored6 (h field : Z) (a : list Z) (b b' : buf) : Prop := {
  as6_len : blen b' = blen b;
  as6_bytes : bytes_ok b';
  as6_out : forall i, 0 <= i -> i < h + o_ip6_src \/ h + 40 <= i -> get8 b' i = get8 b i;
  as6_get : addr6 b' field = a;
  as6_other : other6_kept h field b b';
  as6_pseudo : csum b' (h + o_ip6_src) 32
    ≈ csum b (h + o_ip6_src) 32 + (sum4 (words6 a) - sum4 (words6 (addr6 b field)))
}.

Lemma addr_stored6_intro b h field a :
  wf6 b h -> ip6_field h field -> addr6_ok a -> addr_stored6 h field a b (put_bytes b field a).
Proof.
  intros [Wb Wh Wlen _ _] Hf [Ha La].
  assert (Hl16 : blen a = 16) by (unfold blen; lia).
  assert (Hfb : h + 8 <= field <= h + 24) by (destruct Hf; lia).
  assert (Hoth : other6_kept h field b (put_bytes b field a)).
  { intros f' Hf' Hne. unfold addr6. apply slice_ext.
    - destruct Hf'; lia.
    - apply blen_put_bytes; lia.
    - intros i Hi. apply get8_put_bytes_out; destruct Hf, Hf'; lia. }
  assert (Hget : addr6 (put_bytes b field a) field = a).
  { unfold addr6. rewrite <- Hl16. apply slice_put_bytes; lia. }
  split; [apply blen_put_bytes; lia|auto with cint| |done|done|].
  - intros i H0 Hi. apply get8_put_bytes_out; lia.
  - rewrite !csum_addrs by lia. destruct Hf; subst field.
    + rewrite Hget, (Hoth (h + o_ip6_dst)) by (by right || lia). by apply (eqm_diff _ _ 0); lia.
    + rewrite Hget, (Hoth (h + o_ip6_src)) by (by left || lia). by apply (eqm_diff _ _ 0); lia.
Qed.

Lemma addr_stored6_frame h field a b b' :
  wf6 b h -> addr_stored6 h field a b b' -> frame6 h b b' /\ wf6 b' h.
Proof.
  intros W [L B Out _ _ _]. assert (F : frame6 h b b') by (split; auto).
  split; [done|]. by eapply frame6_wf.
Qed.

(** Storing an address and updating layer 4 with the claimed new address [nw]:
    the frame always holds, the sums are kept when the claim is right. *)
Lemma set_addr6_spec base b h field a nw :
  0 <= base -> wf6 b h -> ip6_field h field -> addr6_ok a -> bytes_ok nw ->
  wp (ipv6_addr_csum_replace base h (addr6 b field) nw)
     (fun _ b' => frame6 h b b' /\ addr6 b' field = a /\ other6_kept h field b b'
        /\ (nw = a -> edit6 h b b')) (put_bytes b field a).
Proof.
  intros Hba W Hf Ha Hnw. pose proof W as [Wb Wh Wlen Wn Wl4].
  pose proof (addr_stored6_intro b h field a W Hf Ha) as S.
  set (b1 := put_bytes b field a) in *. clearbody b1.
  destruct (addr_stored6_frame _ _ _ _ _ W S) as [F1 W1].
  destruct (frame6_nh _ _ _ W F1) as [Hn Hl]. pose proof S as [L B Out Hget Hoth Hps].
  assert (Hgf : forall f, l4_field6 b h = Some f -> get16 b1 f = get16 b f).
  { intros f Hff. specialize (Wl4 f Hff). destruct (l4_field6_inv b h f Hff).
    unfold get16. by rewrite !Out by lia. }
  apply addr_csum_replace6_spec; try done; [by apply bytes_ok_slice|..]; rewrite Hl, ?Hn.
  - intros HN. split_and!; try done. intros _. split; [done|]. intros f n Hff. congruence.
  - intros f Hff Hu Hz. split_and!; try done. intros _. split; [done|].
    intros f' n Hff' _ _. left. split; [done|]. congruence.
  - intros f c Hff Hu Hc He. rewrite (Hgf f Hff) in Hu, He. specialize (Wl4 f Hff).
    destruct (l4_field6_inv b h f Hff) as [Hf6 Hev].
    assert (Hk : forall f', ip6_field h f' -> addr6 (put16 b1 f c) f' = addr6 b1 f').
    { intros f' Hf'. unfold addr6. apply slice_ext; [destruct Hf'; lia|apply blen_put16|].
      intros i Hi. apply get8_put16_ne; destruct Hf'; lia. }
    assert (F2 : frame6 h b (put16 b1 f c)).
    { split; autorewrite with blen; auto with cint. intros i H0 Hi Hfr. specialize (Hfr f Hff).
      rewrite get8_put16_ne by lia. auto. }
    split_and!; [done|by rewrite Hk|intros f' Hf' Hne; rewrite Hk by done; by apply Hoth|].
    intros ->. split; [done|]. intros f' n Hff' Hn1 Hn2. assert (f' = f) as -> by congruence.
    right. split; [done|]. unfold seg6_total. rewrite csum_put16_out by lia.
    rewrite csum_put16_in; try lia; [|apply even_to_nat; lia].
    rewrite Hps, u16_id by done. rewrite (csum_ext b1 b) by (intros i Hi; apply Out; lia).
    rewrite (Hgf f Hff).
    pose proof (eqm_swap (csum b (h + 8) 32) (csum b (h + 40) (Z.to_nat n)) _ _ _ _ He) as HE.
    rewrite <- HE. by apply (eqm_diff _ _ 0); lia.
Qed.

(** ** Mapping the addresses *)

Definition map6_ok (m : tcpr_cidrmap) : Prop :=
  family (from m) <> AF_INET6
  \/ (cidr6_ok (from m) /\ cidr6_ok (to m) /\ masklen (to m) mod 8 = 0).
Definition hit6 (m : tcpr_cidrmap) (a : list Z) : bool :=
  (family (from m) =? AF_INET6) && ip6_matches a (from m).
Definition img6 (t : tcpedit) (m : tcpr_cidrmap) (a : list Z) : list Z :=
  match remap_ipv6 t (to m) a with Ok (_, r) => r | Err _ => a end.
Definition map6 (t : tcpedit) : list tcpr_cidrmap -> list Z -> list Z := first_map hit6 (img6 t).

Lemma addr6_ok_at b h field : wf6 b h -> ip6_field h field -> addr6_ok (addr6 b field).
Proof.
  intros [Wb Wh Wlen _ _] Hf. split; [by apply bytes_ok_slice|].
  assert (Hl : blen (addr6 b field) = 16) by (apply blen_slice; destruct Hf; lia).
  unfold blen in Hl. lia.
Qed.

Lemma remap_ipv6_total t c a :
  cidr6_ok c -> masklen c mod 8 = 0 -> addr6_ok a ->
  exists rc r, remap_ipv6 t c a = Ok (rc, r) /\ addr6_ok r.
Proof.
  intros (Hf & Hn & Hm) H8 Ha. unfold remap_ipv6. rewrite Hf. cbn [Z.eqb Pos.eqb negb].
  destruct (skip_broadcast t && is_multicast_ipv6 a); [by eexists _, _|].
  pose proof Ha as [Ba La]. pose proof Hn as [Bn Ln].
  rewrite Z.quot_div_nonneg, Z.rem_mod_nonneg, La, Ln, H8 by lia.
  assert (Hj : (Z.to_nat (masklen c / 8) <= 16)%nat) by dlia.
  replace ((16 <? Z.to_nat (masklen c / 8))%nat) with false by (symmetry; apply Nat.ltb_ge; lia).
  eexists _, _. split; [done|]. by apply remap_addr6_ok.
Qed.

Lemma ip6_in_cidr_hit6 m a : map6_ok m -> addr6_ok a -> ip6_in_cidr (from m) a = Ok (hit6 m a).
Proof.
  intros Hm Ha. unfold hit6. destruct Hm as [Hf|[Hc _]].
  - unfold ip6_in_cidr. by rewrite (proj2 (Z.eqb_neq _ _) Hf).
  - rewrite ip6_in_cidr_prefix by done. destruct Hc as [-> _]. done.
Qed.

(** A step of the map loops; the sums are kept when the code passes the field
    it has changed. *)
Lemma remap_field6_run base t h field new m b :
  0 <= base -> wf6 b h -> map6_ok m -> ip6_field h field -> ip6_field h new ->
  wp (remap_field6 base t h field new m)
     (fun hit b' => frame6 h b b' /\ (field = new -> edit6 h b b')
        /\ hit = hit6 m (addr6 b field)
        /\ addr6 b' field = (if hit then img6 t m (addr6 b field) else addr6 b field)
        /\ other6_kept h field b b') b.
Proof.
  intros Hba W Hm Hf Hnew. pose proof W as [Wb Wh Wlen _ _].
  assert (Ha : addr6_ok (addr6 b field)) by (by eapply addr6_ok_at).
  assert (h + 8 <= field <= h + 24) by (destruct Hf; lia).
  assert (h + 8 <= new <= h + 24) by (destruct Hnew; lia).
  unfold remap_field6, ld_addr6, st_addr6. wp_steps. fold (addr6 b field).
  eapply wp_lift; [by apply ip6_in_cidr_hit6|].
  destruct (hit6 m (addr6 b field)) eqn:Hhit.
  2:{ wp_steps. split_and!; auto using frame6_refl, edit6_refl. done. }
  destruct Hm as [Hm|(_ & Ht & H8)]; [unfold hit6 in Hhit; lia|].
  destruct (remap_ipv6_total t (to m) (addr6 b field) Ht H8 Ha) as (rc & r & Hr & Hro).
  apply wp_bind. eapply wp_lift; [done|]. unfold img6. rewrite Hr.
  pose proof Hro as [Br Lr]. assert (blen r = 16) by (unfold blen; lia).
  apply wp_bind, wp_st_bytes; [lia|lia|]. apply wp_bind, wp_ld_bytes; [lia|lia| |].
  { rewrite blen_put_bytes by lia. lia. }
  apply wp_bind. eapply wp_mono; [|apply (set_addr6_spec base b h field r); try done].
  - intros [] b' (F & Hg & Ho & He). wp_steps. split_and!; try done.
    intros ->. apply He. rewrite <- H1. apply slice_put_bytes; lia.
  - apply bytes_ok_slice, bytes_ok_put_bytes; done.
Qed.

Lemma remap_field6_edit base t h field other :
  0 <= base -> ip6_field h field -> ip6_field h other -> field <> other ->
  AddrStep (fun b => wf6 b h) (edit6 h) map6_ok hit6 (img6 t)
    (fun b => addr6 b field) (fun b => addr6 b other) (remap_field6 base t h field field).
Proof.
  intros Hba Hf Ho Hne m b W Hm. eapply wp_mono; [|by apply remap_field6_run].
  intros hit b' (_ & He & -> & Hv & Hk). split_and!; auto.
Qed.
Lemma remap_field6_frame base t h field new other :
  0 <= base -> ip6_field h field -> ip6_field h new -> ip6_field h other -> field <> other ->
  AddrStep (fun b => wf6 b h) (frame6 h) map6_ok hit6 (img6 t)
    (fun b => addr6 b field) (fun b => addr6 b other) (remap_field6 base t h field new).
Proof.
  intros Hba Hf Hnw Ho Hne m b W Hm. eapply wp_mono; [|by apply remap_field6_run].
  intros hit b' (He & _ & -> & Hv & Hk). split_and!; auto.
Qed.

Definition maps6_ok (t : tcpedit) : Prop :=
  Forall map6_ok (srcipmap t) /\ Forall map6_ok (dstipmap t)
  /\ Forall map6_ok (cidrmap1 t) /\ Forall map6_ok (cidrmap2 t)
  /\ (cidrmap1 t = [] <-> cidrmap2 t = []).

(** rewrite_ipv6l3 terminates inside the packet, maps both addresses through
    the first matching entries and changes nothing but the addresses and the
    layer-4 checksum field; when only --srcipmap and --dstipmap are in use it
    keeps the TCP, UDP and ICMPv6 sums. *)
Theorem rewrite_ipv6l3_spec base t b h direction :
  0 <= base -> wf6 b h -> maps6_ok t ->
  wp (rewrite_ipv6l3 base t h direction)
     (fun r b' => r = 0 /\ frame6 h b b' /\ (cidrmap1 t = [] -> edit6 h b b')
        /\ addr6 b' (h + o_ip6_src)
           = map6 t (maps_of t direction).1 (map6 t (srcipmap t) (addr6 b (h + o_ip6_src)))
        /\ addr6 b' (h + o_ip6_dst)
           = map6 t (maps_of t direction).2 (map6 t (dstipmap t) (addr6 b (h + o_ip6_dst)))) b.
Proof.
  intros Hba W (Fs & Fd & F1 & F2 & Hnil). unfold rewrite_ipv6l3.
  assert (Is : ip6_field h (h + o_ip6_src)) by (by left).
  assert (Id : ip6_field h (h + o_ip6_dst)) by (by right).
  assert (Hne : h + o_ip6_src <> h + o_ip6_dst) by lia.
  pose proof (remap_field6_edit base t h _ _ Hba Is Id Hne) as Es.
  pose proof (remap_field6_edit base t h _ _ Hba Id Is ltac:(congruence)) as Ed.
  pose proof (remap_field6_frame base t h _ _ _ Hba Is Is Id Hne) as Ws.
  pose proof (remap_field6_frame base t h _ _ _ Hba Id Is Is ltac:(congruence)) as Wd.
  apply wp_bind. eapply wp_mono; [|eapply (ipmap_loop_spec (fun b => wf6 b h) (edit6 h) map6_ok);
    eauto using edit6_refl, edit6_trans, edit6_wf].
  intros [] b1 (E1 & S1 & D1). pose proof (edit6_wf _ _ _ W E1) as W1. cbn beta in S1, D1.
  apply wp_bind. eapply wp_mono; [|eapply (ipmap_loop_spec (fun b => wf6 b h) (edit6 h) map6_ok);
    eauto using edit6_refl, edit6_trans, edit6_wf].
  intros [] b2 (E2 & D2 & S2). pose proof (edit6_wf _ _ _ W1 E2) as W2. cbn beta in S2, D2.
  assert (E12 : edit6 h b b2) by (by eapply edit6_trans). rewrite S1 in S2. rewrite D1 in D2.
  unfold map6. rewrite <- S2, <- D2. unfold maps_of. pose proof E12 as [F12 _].
  case_bool_decide as H1.
  { wp_steps. rewrite H1. destruct Hnil as [Hnil _]. rewrite (Hnil H1). by case_bool_decide. }
  assert (H2 : cidrmap2 t <> []) by (by intros ?%Hnil).
  case_bool_decide; apply wp_bind;
    (eapply wp_mono; [|eapply (cidrmap_walk_spec (fun b => wf6 b h) (frame6 h) map6_ok);
       eauto using frame6_refl, frame6_trans, frame6_wf]);
    intros [s d] b3 (E3 & S3 & D3 & _); cbn beta in *; wp_steps;
    split_and!; eauto using frame6_trans; by intros ?.
Qed.

(** ** Randomizing and hop limit *)

Definition randomized6 (t : tcpedit) (a : list Z) : list Z :=
  if skip_broadcast t && is_multicast_ipv6 a then a else randomize_ipv6_addr t a.

Lemma randomize_ipv6_addr_ok t a : addr6_ok a -> addr6_ok (randomize_ipv6_addr t a).
Proof.
  intros [Ba La]. unfold randomize_ipv6_addr, put_words6.
  assert (Hok : forall ws, addr6_ok (put_words6 ws a)).
  { intros ws. unfold put_words6, addr6_ok. split; [auto with cint|].
    assert (Hl : blen (put_words6 ws a) = blen a) by (unfold put_words6; by autorewrite with blen).
    unfold blen, put_words6 in Hl. lia. }
  assert (Hput : forall b x, addr6_ok b -> addr6_ok (put8 b 0 x)).
  { intros b x [Bb Lb]. split; [auto with cint|]. unfold put8. by rewrite length_insert. }
  specialize (Hok (map (randomize_word (nseed t)) (words6 a))). unfold put_words6 in Hok.
  repeat case_match; auto.
Qed.

Lemma randomize_field6_spec base t b h field :
  0 <= base -> wf6 b h -> ip6_field h field ->
  wp (randomize_field6 base t h field)
     (fun _ b' => edit6 h b b' /\ addr6 b' field = randomized6 t (addr6 b field)
        /\ other6_kept h field b b') b.
Proof.
  intros Hba W Hf. pose proof W as [Wb Wh Wlen _ _].
  assert (Ha : addr6_ok (addr6 b field)) by (by eapply addr6_ok_at).
  assert (h + 8 <= field <= h + 24) by (destruct Hf; lia).
  unfold randomize_field6, ld_addr6, st_addr6, randomized6. wp_steps. fold (addr6 b field).
  set (a' := randomize_ipv6_addr t (addr6 b field)).
  assert (Hrun : wp (_ ← st_bytes field a'; new_ip ← ld_bytes field 16;
      ipv6_addr_csum_replace base h (addr6 b field) new_ip)
    (fun _ b' => edit6 h b b' /\ addr6 b' field = a' /\ other6_kept h field b b') b).
  { pose proof (randomize_ipv6_addr_ok t _ Ha) as Ho. fold a' in Ho. pose proof Ho as [Br Lr].
    assert (blen a' = 16) by (unfold blen; lia).
    apply wp_bind, wp_st_bytes; [lia|lia|]. apply wp_bind, wp_ld_bytes; [lia|lia| |].
    { rewrite blen_put_bytes by lia. lia. }
    eapply wp_mono; [|apply (set_addr6_spec base b h field a'); try done].
    - intros [] b' (F & Hg & Hk & He). split_and!; try done. apply He.
      rewrite <- H0. apply slice_put_bytes; lia.
    - apply bytes_ok_slice, bytes_ok_put_bytes; done. }
  destruct (skip_broadcast t), (is_multicast_ipv6 (addr6 b field)); cbn [andb orb negb];
    try exact Hrun. wp_steps. split_and!; [by apply edit6_refl|done|done].
Qed.

(** Randomize_ipv6 replaces both addresses by the seeded function of their
    old value (a multicast address stays multicast), skips multicast addresses
    when told to, and keeps the layer-4 sums. *)
Theorem randomize_ipv6_spec base t b h :
  0 <= base -> wf6 b h ->
  wp (randomize_ipv6 base t h)
     (fun r b' => r = 0 /\ edit6 h b b'
        /\ addr6 b' (h + o_ip6_src) = randomized6 t (addr6 b (h + o_ip6_src))
        /\ addr6 b' (h + o_ip6_dst) = randomized6 t (addr6 b (h + o_ip6_dst))) b.
Proof.
  intros Hba W. unfold randomize_ipv6. apply wp_bind.
  eapply wp_mono; [|apply (randomize_field6_spec base t b h); [done|done|by right]].
  intros [] b1 (E1 & D1 & K1). pose proof (edit6_wf _ _ _ W E1) as W1. apply wp_bind.
  eapply wp_mono; [|apply (randomize_field6_spec base t b1 h); [done|done|by left]].
  intros [] b2 (E2 & S2 & K2). wp_steps. split_and!; [done|by eapply edit6_trans|..].
  - rewrite S2, (K1 (h + o_ip6_src)); [done|by left|lia].
  - rewrite (K2 (h + o_ip6_dst)); [done|by right|lia].
Qed.

(** rewrite_ipv6_hlim sets the hop limit, or moves it with saturation at 255
    and 1, and touches nothing else. *)
Theorem rewrite_ipv6_hlim_spec t b h :
  wf6 b h -> is_u8 (ttl_value t) ->
  wp (rewrite_ipv6_hlim t (Some h))
     (fun r b' => r = 0 /\ get8 b' (h + o_ip6_hl) = ttl_spec t (get8 b (h + o_ip6_hl))
        /\ only_in (h + o_ip6_hl) 1 b b') b.
Proof.
  intros [Wb Wh Wlen _ _] Hv. unfold rewrite_ipv6_hlim.
  case_bool_decide as Hoff.
  { wp_steps. unfold ttl_spec. rewrite Hoff. auto using only_in_refl. }
  wp_steps. pose proof (get8_range b (h + 7) Wb) as Ht.
  pose proof (new_ttl_spec t (get8 b (h + 7)) Hv Ht) as Hn.
  destruct (new_ttl t (get8 b (h + 7))) as [v|]; wp_steps; [|auto using only_in_refl].
  destruct Hn as [-> Hu]. split_and!; [done| |apply only_in_put8; lia].
  by rewrite get8_put8_eq, u8_id by (done || lia).
Qed.

(** ** Instances *)

Definition map6_sample : tcpr_cidrmap := {|
  from := net_2001_db8;
  to := {| family := AF_INET6; network := 0; network6 := [253; 0; 1; 2] ++ replicate 12 0; masklen := 32 |}
|}.
(** --srcipmap, and --pnat for both directions. *)
Definition sample_edit6 (pnat : bool) : tcpedit := {|
  skip_broadcast := false; fixlen := FIXLEN_OFF; rewrite_ip := true; fixcsum := false;
  efcs := false; ttl_mode := TTL_MODE_SUB; ttl_value := 200; tos := -1; flowlabel := -1;
  tclass := -1; cidrmap1 := if pnat then [map6_sample] else [];
  cidrmap2 := if pnat then [map6_sample] else [];
  srcipmap := [map6_sample]; dstipmap := []; seed := 77; portmap := []; mtu := 1500;
  mtu_truncate := false; maxpacket := 0
|}.

Lemma wf6_sample : wf6 sample_tcp6 14.
Proof.
  split; try concrete. intros f Hf. vm_compute in Hf. injection Hf as <-. concrete.
Qed.
Lemma map6_ok_sample : map6_ok map6_sample.
Proof. right. split_and!; try concrete; split; concrete. Qed.

Lemma rewrite_ipv6l3_witness :
  wp (rewrite_ipv6l3 0 (sample_edit6 false) 14 DIR_C2S)
     (fun r b' => edit6 14 sample_tcp6 b' /\ take 4 (addr6 b' 22) = [253; 0; 1; 2]) sample_tcp6.
Proof.
  eapply wp_mono; [|apply (rewrite_ipv6l3_spec 0 (sample_edit6 false) sample_tcp6 14 DIR_C2S);
    [concrete|apply wf6_sample|]].
  - intros r b' (_ & _ & He & Hs & _). split; [by apply He|].
    change 22 with (14 + o_ip6_src). rewrite Hs. by vm_compute.
  - assert (H : Forall map6_ok [map6_sample]) by (constructor; [apply map6_ok_sample|constructor]).
    split_and!; [exact H|constructor|constructor|constructor|done].
Defined.

Lemma randomize_ipv6_witness :
  wp (randomize_ipv6 0 (sample_edit6 false) 14) (fun r b' => edit6 14 sample_tcp6 b') sample_tcp6.
Proof.
  eapply wp_mono; [|apply (randomize_ipv6_spec 0 (sample_edit6 false) sample_tcp6 14);
    [concrete|apply wf6_sample]]. by intros r b' (_ & He & _).
Defined.

Lemma rewrite_ipv6_hlim_witness :
  wp (rewrite_ipv6_hlim (sample_edit6 false) (Some 14)) (fun r b' => get8 b' 21 = 1) sample_tcp6.
Proof.
  eapply wp_mono; [|apply (rewrite_ipv6_hlim_spec (sample_edit6 false) sample_tcp6 14);
    [apply wf6_sample|concrete]]. by intros r b' (_ & He & _).
Defined.

(** mapping the destination through the netblock map does not keep the
    layer-4 sum: on this TCP packet the edit changes the sum modulo 65535 (so a
    valid checksum becomes invalid), since the code passes the source as the new
    destination. *)
Theorem rewrite_ipv6l3_pnat_breaks_sum :
  exists b', rewrite_ipv6l3 0 (sample_edit6 true) 14 DIR_C2S sample_tcp6 = Ok (0, b')
    /\ addr6 b' (14 + o_ip6_dst) <> addr6 sample_tcp6 (14 + o_ip6_dst)
    /\ ~ seg6_total b' 14 20 ≈ seg6_total sample_tcp6 14 20.
Proof. eexists. split; [vm_compute; reflexivity|]. split; vm_compute; discriminate. Qed.
