(* ===== verification/EditArp.v ===== *)
(** * Editing ARP packets: [ddtcpreplay/src/tcpedit/edit_packet.c]

    Randomizing and remapping the protocol addresses of ARP requests and
    replies.  [arp_hdr] is the offset of the ARP header. *)

From Stdlib Require Import ZArith Lia.
From stdpp Require Import base list.
From S2P Require Import Prelude Samples Wire Get Cidr TcpeditTypes Remap MapLoop EditIPv4.

(** ** Operations *)

(** [ar_pro] is IPv4 and [ar_op] is a request or a reply. *)
Definition arp_editable (arp_hdr : Z) : M bool :=
  pro ← ld16 (arp_hdr + o_ar_pro);
  if bswap16 pro =? ETHERTYPE_IP then
    op ← ld16 (arp_hdr + o_ar_op);
    mret ((bswap16 op =? ARPOP_REQUEST) || (bswap16 op =? ARPOP_REPLY))
  else mret false.

(** The sender's and the target's protocol address. *)
Definition arp_ip1 (arp_hdr : Z) : M Z :=
  hln ← ld8 (arp_hdr + o_ar_hln);
  mret (arp_hdr + sizeof_arp_hdr + hln).
Definition arp_ip2 (arp_hdr ip1 : Z) : M Z :=
  pln ← ld8 (arp_hdr + o_ar_pln);
  hln ← ld8 (arp_hdr + o_ar_hln);
  mret (ip1 + (pln + hln)).

Definition randomize_iparp (t : tcpedit) (caplen datalink : Z) : M Z :=
  l2len ← get_l2len caplen datalink;
  e ← arp_editable l2len;
  if (e : bool) then
    ip1 ← arp_ip1 l2len;
    x ← ld32 ip1;
    _ ← st32 ip1 (randomize_ipv4_addr t x);
    ip2 ← arp_ip2 l2len ip1;
    y ← ld32 ip2;
    _ ← st32 ip2 (randomize_ipv4_addr t y);
    mret 1
  else mret 1.

(** [if (ip_in_cidr(m->from, *ip)) { *ip = remap_ipv4(m->to, *ip); ... }] *)
Definition remap_word (t : tcpedit) (ip : Z) (m : tcpr_cidrmap) : M bool :=
  x ← ld32 ip;
  hit ← lift (ip_in_cidr (from m) x);
  if (hit : bool) then
    newip ← lift (remap_ipv4 t (to m) x);
    _ ← st32 ip newip;
    mret true
  else mret false.

Definition rewrite_iparp (t : tcpedit) (arp_hdr : Z) (cache_mode : tcpr_dir) : M Z :=
  let '(maps1, maps2) :=
    match cache_mode with
    | DIR_C2S => (cidrmap1 t, cidrmap2 t)
    | DIR_S2C => (cidrmap2 t, cidrmap1 t)
    | _ => ([], [])
    end in
  if bool_decide (maps1 = []) || bool_decide (maps2 = []) then mret 0
  else
    e ← arp_editable arp_hdr;
    if (e : bool) then
      ip1 ← arp_ip1 arp_hdr;
      ip2 ← arp_ip2 arp_hdr ip1;
      op ← ld16 (arp_hdr + o_ar_op);
      let '(src, dst) := if bswap16 op =? ARPOP_REQUEST then (ip2, ip1) else (ip1, ip2) in
      '(didsrc, diddst) ← cidrmap_walk (remap_word t src) (remap_word t dst) maps1 maps2;
      mret ((if (didsrc : bool) then 1 else 0) + (if (diddst : bool) then 1 else 0))
    else mret 0.

(** ** Correctness *)

(** An ARP request or reply for IPv4 whose two addresses lie in the packet and
    do not overlap. *)
Definition arp_a1 (b : buf) (h : Z) : Z := h + sizeof_arp_hdr + get8 b (h + o_ar_hln).
Definition arp_a2 (b : buf) (h : Z) : Z :=
  arp_a1 b h + (get8 b (h + o_ar_pln) + get8 b (h + o_ar_hln)).
Definition arp_op (b : buf) (h : Z) : Z := bswap16 (get16 b (h + o_ar_op)).

Record arp_ok (b : buf) (h : Z) : Prop := {
  ao_bytes : bytes_ok b;
  ao_h : 0 <= h;
  ao_pro : bswap16 (get16 b (h + o_ar_pro)) = ETHERTYPE_IP;
  ao_op : arp_op b h = ARPOP_REQUEST \/ arp_op b h = ARPOP_REPLY;
  ao_apart : arp_a1 b h + 4 <= arp_a2 b h;
  ao_len : arp_a2 b h + 4 <= blen b
}.

(** Nothing but the two addresses at [a1] and [a2] differs. *)
Record arp_edit (a1 a2 : Z) (b b' : buf) : Prop := {
  ae_len : blen b' = blen b;
  ae_bytes : bytes_ok b';
  ae_frame : forall i, 0 <= i -> i < a1 \/ a1 + 4 <= i -> i < a2 \/ a2 + 4 <= i ->
    get8 b' i = get8 b i
}.

(** What the address steps need of the packet. *)
Definition arp_room (a1 a2 : Z) (b : buf) : Prop :=
  bytes_ok b /\ 0 <= a1 /\ a1 + 4 <= a2 /\ a2 + 4 <= blen b.

Lemma arp_edit_refl a1 a2 b : arp_room a1 a2 b -> arp_edit a1 a2 b b.
Proof. intros (? & _). by split. Qed.
Lemma arp_edit_trans a1 a2 b1 b2 b3 :
  arp_room a1 a2 b1 -> arp_edit a1 a2 b1 b2 -> arp_edit a1 a2 b2 b3 -> arp_edit a1 a2 b1 b3.
Proof.
  intros _ [L1 B1 F1] [L2 B2 F2]. split; [congruence|done|]. intros. by rewrite F2, F1.
Qed.
Lemma arp_edit_room a1 a2 b b' : arp_room a1 a2 b -> arp_edit a1 a2 b b' -> arp_room a1 a2 b'.
Proof. intros (? & ? & ? & ?) [L B _]. unfold arp_room. rewrite L. auto. Qed.

Lemma arp_edit_put a1 a2 b a v :
  arp_room a1 a2 b -> a = a1 \/ a = a2 -> arp_edit a1 a2 b (put32 b a v).
Proof.
  intros (Hb & H0 & H1 & H2) Ha. split; [apply blen_put32|auto with cint|].
  intros. apply get8_put32_ne; lia.
Qed.

Lemma remap_word_step t a1 a2 a other :
  a = a1 /\ other = a2 \/ a = a2 /\ other = a1 ->
  AddrStep (arp_room a1 a2) (arp_edit a1 a2) map4_ok hit4 (img4 t)
    (fun b => get32 b a) (fun b => get32 b other) (remap_word t a).
Proof.
  intros Ha m b W Hm. pose proof W as (Hb & H0 & H1 & H2). unfold remap_word. wp_steps.
  assert (Hu : is_u32 (get32 b a)) by (by apply get32_range).
  eapply wp_lift; [by apply ip_in_cidr_hit4|].
  destruct (hit4 m (get32 b a)) eqn:Hhit; [|wp_steps; auto using arp_edit_refl].
  destruct Hm as [Hm|[_ Ht]]; [unfold hit4 in Hhit; lia|].
  destruct (remap_ipv4_ok t (to m) (get32 b a) Ht Hu) as (r & Hr & Hru & _).
  apply wp_bind. eapply wp_lift; [done|]. unfold img4. rewrite Hr. wp_steps. split_and!.
  - apply arp_edit_put; [done|]. destruct Ha as [[? _]|[? _]]; auto.
  - done.
  - by rewrite get32_put32_eq, u32_id by (done || lia).
  - by rewrite get32_put32_ne by lia.
Qed.

Lemma wp_arp_editable b h Q : arp_ok b h -> Q true b -> wp (arp_editable h) Q b.
Proof.
  intros [Hb Hh Hp Ho Ha Hl] HQ. pose proof (get8_range b (h + 4) Hb).
  unfold is_u8, arp_a2, arp_a1 in *. unfold arp_editable. wp_steps. rewrite Hp.
  cbn [Z.eqb Pos.eqb]. wp_steps. fold (arp_op b h).
  replace ((arp_op b h =? ARPOP_REQUEST) || (arp_op b h =? ARPOP_REPLY)) with true by lia. done.
Qed.
Lemma wp_arp_ips b h (k : Z -> Z -> M Z) Q :
  arp_ok b h -> wp (k (arp_a1 b h) (arp_a2 b h)) Q b ->
  wp (ip1 ← arp_ip1 h; ip2 ← arp_ip2 h ip1; k ip1 ip2) Q b.
Proof.
  intros [Hb Hh Hp Ho Ha Hl] HQ. pose proof (get8_range b (h + 4) Hb).
  pose proof (get8_range b (h + 5) Hb). unfold is_u8, arp_a2, arp_a1 in *.
  unfold arp_ip1, arp_ip2. wp_steps. exact HQ.
Qed.

Definition b2z (b : bool) : Z := if b then 1 else 0.

(** rewrite_iparp on an ARP request or reply maps the target address of a
    request (the sender of a reply) through the source map of the direction and
    the other one through the destination map, each by its first matching entry,
    changes nothing else, and returns how many addresses matched. *)
Theorem rewrite_iparp_spec t b h cache_mode :
  let '(maps1, maps2) := maps_of t cache_mode in
  let '(src, dst) := if arp_op b h =? ARPOP_REQUEST then (arp_a2 b h, arp_a1 b h)
                     else (arp_a1 b h, arp_a2 b h) in
  arp_ok b h -> cache_mode = DIR_C2S \/ cache_mode = DIR_S2C ->
  Forall map4_ok maps1 -> Forall map4_ok maps2 -> maps1 <> [] -> maps2 <> [] ->
  wp (rewrite_iparp t h cache_mode)
     (fun r b' => r = b2z (any_hit hit4 maps1 (get32 b src)) + b2z (any_hit hit4 maps2 (get32 b dst))
        /\ arp_edit (arp_a1 b h) (arp_a2 b h) b b'
        /\ get32 b' src = map4 t maps1 (get32 b src)
        /\ get32 b' dst = map4 t maps2 (get32 b dst)) b.
Proof.
  destruct (maps_of t cache_mode) as [maps1 maps2] eqn:Emaps.
  destruct (if arp_op b h =? ARPOP_REQUEST then _ else _) as [src dst] eqn:Esd.
  intros A Hdir F1 F2 N1 N2. unfold rewrite_iparp.
  assert (Em : (match cache_mode with DIR_C2S => (cidrmap1 t, cidrmap2 t)
    | DIR_S2C => (cidrmap2 t, cidrmap1 t) | _ => ([], []) end) = (maps1, maps2)).
  { rewrite <- Emaps. unfold maps_of. by destruct Hdir as [-> | ->]. }
  rewrite Em, !bool_decide_false by done. cbn [orb].
  apply wp_bind, wp_arp_editable; [done|]. cbv beta iota. apply wp_arp_ips; [done|].
  pose proof A as [Hb Hh Hp Ho Ha Hl].
  assert (Ha1 : h + 8 <= arp_a1 b h).
  { unfold arp_a1. pose proof (get8_range b (h + 4) Hb). unfold is_u8 in *. lia. }
  wp_steps. fold (arp_op b h). rewrite Esd.
  assert (Hsd : (src = arp_a1 b h /\ dst = arp_a2 b h) \/ (src = arp_a2 b h /\ dst = arp_a1 b h))
    by (destruct (arp_op b h =? ARPOP_REQUEST); injection Esd as <- <-; auto).
  pose proof (remap_word_step t (arp_a1 b h) (arp_a2 b h) src dst Hsd) as Ss.
  pose proof (remap_word_step t (arp_a1 b h) (arp_a2 b h) dst src ltac:(tauto)) as Sd.
  apply wp_bind. eapply wp_mono; [|eapply (cidrmap_walk_spec (arp_room (arp_a1 b h) (arp_a2 b h))
    (arp_edit (arp_a1 b h) (arp_a2 b h)) map4_ok hit4 (img4 t));
    eauto using arp_edit_refl, arp_edit_trans, arp_edit_room].
  - intros [s d] b' (HE & HS & HD & -> & ->). wp_steps. by split_and!.
  - unfold arp_room. split_and!; auto; lia.
Qed.

(** Randomize_iparp replaces both protocol addresses of a request or reply by
    the seeded function of their old value and changes nothing else. *)
Theorem randomize_iparp_spec t b caplen datalink h :
  get_l2len caplen datalink b = Ok (h, b) -> arp_ok b h ->
  wp (randomize_iparp t caplen datalink)
     (fun r b' => r = 1 /\ arp_edit (arp_a1 b h) (arp_a2 b h) b b'
        /\ get32 b' (arp_a1 b h) = randomize_ipv4_addr t (get32 b (arp_a1 b h))
        /\ get32 b' (arp_a2 b h) = randomize_ipv4_addr t (get32 b (arp_a2 b h))) b.
Proof.
  intros Hl2 A. pose proof A as [Hb Hh Hp Ho Ha Hl]. unfold randomize_iparp.
  apply wp_bind. unfold wp at 1. rewrite Hl2. apply wp_bind, wp_arp_editable; [done|].
  pose proof (get8_range b (h + 4) Hb). pose proof (get8_range b (h + 5) Hb). unfold is_u8 in *.
  assert (Hu : forall x, is_u32 x -> is_u32 (randomize_ipv4_addr t x)).
  { intros x Hx. unfold randomize_ipv4_addr. case_match; [done|apply u32_range]. }
  set (a1 := arp_a1 b h) in *. set (a2 := arp_a2 b h) in *.
  assert (Ha1 : a1 = h + sizeof_arp_hdr + get8 b (h + o_ar_hln)) by done.
  assert (Ha2 : a2 = a1 + (get8 b (h + o_ar_pln) + get8 b (h + o_ar_hln))) by done.
  clearbody a1 a2. cbv beta iota. unfold arp_ip1, arp_ip2. wp_steps. rewrite <- Ha1. wp_steps.
  rewrite !get8_put32_ne by lia. rewrite <- Ha2. wp_steps.
  rewrite (get32_put32_ne _ _ _ a2) by lia. split_and!; [done|..].
  - split; [by autorewrite with blen|auto with cint|].
    intros. rewrite !get8_put32_ne; autorewrite with blen; done || lia.
  - rewrite get32_put32_ne by bnd. by rewrite get32_put32_eq, u32_id by (auto with cint || lia).
  - rewrite get32_put32_eq, u32_id; auto with cint; bnd.
Qed.

(** ** Instances *)

Lemma arp_ok_sample : arp_ok sample_arp 14.
Proof. split; concrete || (left; concrete). Qed.

Lemma rewrite_iparp_witness :
  wp (rewrite_iparp sample_edit 14 DIR_C2S)
     (fun r b' => r = 2 /\ get32 b' 28 = 16782346) sample_arp.
Proof.
  assert (H : Forall map4_ok [map_192_10]) by (constructor; [apply map4_ok_sample|constructor]).
  pose proof (rewrite_iparp_spec sample_edit sample_arp 14 DIR_C2S) as L.
  replace (arp_op sample_arp 14 =? ARPOP_REQUEST) with true in L by (by vm_compute).
  replace (maps_of sample_edit DIR_C2S) with ([map_192_10], [map_192_10]) in L by done.
  eapply wp_mono; [|apply L; [apply arp_ok_sample|by left|exact H|exact H|done|done]].
  intros r b' (-> & _ & _ & Hd). split; [by vm_compute|].
  change 28 with (arp_a1 sample_arp 14). rewrite Hd. by vm_compute.
Defined.

Lemma randomize_iparp_witness :
  wp (randomize_iparp sample_edit 42 DLT_EN10MB)
     (fun r b' => r = 1 /\ arp_edit 28 38 sample_arp b') sample_arp.
Proof.
  eapply wp_mono; [|apply (randomize_iparp_spec sample_edit sample_arp 42 DLT_EN10MB 14);
    [by vm_compute|apply arp_ok_sample]].
  intros r b' (? & ? & _). by split.
Defined.
