(* ===== verification/CString.v ===== *)
(** * C strings

    The pieces of the C library's string handling that the parsers of the
    repository use: strtok_r, strtol, strchr, and the digits of %u.  A string
    is the text before the terminating NUL. *)

From Stdlib Require Import ZArith Lia String Ascii.
From stdpp Require Import base list strings.
From S2P Require Import Prelude.

Abbreviation str := (list ascii).
Definition txt (s : string) : str := list_ascii_of_string s.
Arguments txt s%_string_scope.

Definition c_in (c : ascii) (set : str) : bool := existsb (Ascii.eqb c) set.
Definition strchr (s : str) (c : ascii) : bool := c_in c s.

(** [strspn]-style splits: the longest prefix in (or out of) a set. *)
Fixpoint span (p : ascii -> bool) (s : str) : str * str :=
  match s with
  | [] => ([], [])
  | c :: s' => if p c then let '(a, b) := span p s' in (c :: a, b) else ([], s)
  end.

(** [strtok_r]: the next token and the text left for the next call.  The
    delimiter that ends the token is overwritten, so it is not part of the
    rest; without a token the saved pointer is at the end. *)
Definition strtok (delim : str) (s : str) : option str * str :=
  let '(_, s) := span (fun c => c_in c delim) s in
  match s with
  | [] => (None, [])
  | _ => let '(tok, rest) := span (fun c => negb (c_in c delim)) s in (Some tok, tail rest)
  end.

(** All tokens, as a loop of [strtok_r] calls sees them; each call consumes at
    least one character, so the length is enough fuel. *)
Fixpoint tokens_fuel (fuel : nat) (delim s : str) : list str :=
  match fuel with
  | O => []
  | S fuel =>
      match strtok delim s with
      | (None, _) => []
      | (Some t, rest) => t :: tokens_fuel fuel delim rest
      end
  end.
Definition tokens (delim s : str) : list str := tokens_fuel (length s) delim s.

Definition code (c : ascii) : Z := Z.of_nat (nat_of_ascii c).
Definition isdigit (c : ascii) : bool := (48 <=? code c) && (code c <=? 57).
Definition isspace (c : ascii) : bool := (code c =? 32) || ((9 <=? code c) && (code c <=? 13)).
Definition dec_value (digits : str) : Z := foldl (fun acc c => 10 * acc + (code c - 48)) 0 digits.

(** [strtol(s, &badchar, 10)]: the value, saturating at the limits of [long],
    and the text [badchar] points to; without digits that is all of [s]. *)
Definition strtol (s : str) : Z * str :=
  let '(_, s1) := span isspace s in
  let '(neg, s2) :=
    match s1 with
    | "-"%char :: s2 => (true, s2)
    | "+"%char :: s2 => (false, s2)
    | _ => (false, s1)
    end in
  let '(ds, rest) := span isdigit s2 in
  match ds with
  | [] => (0, s)
  | _ =>
      let v := if (neg : bool) then - dec_value ds else dec_value ds in
      (Z.max (-9223372036854775808) (Z.min 9223372036854775807 v), rest)
  end.

(** ** Laws *)

Lemma span_app p s1 s2 :
  forallb p s1 = true -> (forall c, head s2 = Some c -> p c = false) ->
  span p (s1 ++ s2) = (s1, s2).
Proof.
  induction s1 as [|c s1 IH]; intros H1 H2; cbn in *.
  - destruct s2 as [|c s2]; [done|]. cbn. by rewrite (H2 c).
  - apply andb_prop in H1 as [-> H1]. by rewrite IH.
Qed.
Lemma span_all p s : forallb p s = true -> span p s = (s, []).
Proof. intros H. rewrite <- (app_nil_r s) at 1. by apply span_app. Qed.
Lemma span_none p c s : p c = false -> span p (c :: s) = ([], c :: s).
Proof. intros H. cbn. by rewrite H. Qed.

(** A word: a non-empty text without any of the delimiters. *)
Definition word (delim w : str) : Prop := w <> [] /\ forallb (fun c => negb (c_in c delim)) w = true.

Lemma strtok_word delim w d s :
  word delim w -> c_in d delim = true -> strtok delim (w ++ d :: s) = (Some w, s).
Proof.
  intros [Hne Hw] Hd. unfold strtok. destruct w as [|c w]; [done|].
  pose proof Hw as Hw'. cbn in Hw'. apply andb_prop in Hw' as [Hc _].
  apply negb_true_iff in Hc. rewrite <- app_comm_cons, span_none by done.
  rewrite app_comm_cons, span_app; [done|done|]. intros x [= <-]. by rewrite Hd.
Qed.
Lemma strtok_last delim w : word delim w -> strtok delim w = (Some w, []).
Proof.
  intros [Hne Hw]. unfold strtok. destruct w as [|c w]; [done|].
  pose proof Hw as Hw'. cbn in Hw'. apply andb_prop in Hw' as [Hc _].
  apply negb_true_iff in Hc. rewrite span_none by done. by rewrite span_all.
Qed.

(** Joining words with a delimiter and splitting again. *)
Fixpoint join (d : ascii) (ws : list str) : str :=
  match ws with
  | [] => []
  | [w] => w
  | w :: ws => w ++ d :: join d ws
  end.

Lemma length_join d ws :
  Forall (fun w => w <> []) ws -> (length ws <= length (join d ws))%nat.
Proof.
  induction 1 as [|w ws Hw Hws IH]; [done|]. destruct w as [|c w]; [done|].
  destruct ws; cbn in *; [lia|]. rewrite length_app. cbn in *. lia.
Qed.

Lemma tokens_fuel_join delim d ws :
  c_in d delim = true -> Forall (word delim) ws ->
  forall fuel, (length ws <= fuel)%nat -> tokens_fuel fuel delim (join d ws) = ws.
Proof.
  intros Hd Hws. induction Hws as [|w ws Hw Hws IH]; intros fuel Hf.
  - by destruct fuel.
  - destruct fuel as [|fuel]; [cbn in Hf; lia|]. cbn [tokens_fuel]. destruct ws as [|w' ws].
    + cbn [join]. rewrite strtok_last by done. by destruct fuel.
    + change (join d (w :: w' :: ws)) with (w ++ d :: join d (w' :: ws)).
      rewrite strtok_word by done. rewrite IH; [done|]. cbn in *. lia.
Qed.

Lemma tokens_join delim d ws :
  c_in d delim = true -> Forall (word delim) ws -> tokens delim (join d ws) = ws.
Proof.
  intros Hd Hws. apply tokens_fuel_join; [done|done|]. apply length_join.
  eapply Forall_impl; [done|]. by intros w [? _].
Qed.

(** ** Decimal numerals *)

Definition digit (n : Z) : ascii := ascii_of_nat (Z.to_nat (48 + n)).
Fixpoint dec_fuel (fuel : nat) (n : Z) : str :=
  match fuel with
  | O => []
  | S fuel => if n <? 10 then [digit n] else dec_fuel fuel (n / 10) ++ [digit (n mod 10)]
  end.
(** The decimal text of a number below 10^19. *)
Definition dec (n : Z) : str := dec_fuel 20 n.

Lemma code_digit n : 0 <= n < 10 -> code (digit n) = 48 + n.
Proof. intros. unfold code, digit. rewrite nat_ascii_embedding; lia. Qed.
Lemma isdigit_digit n : 0 <= n < 10 -> isdigit (digit n) = true.
Proof. intros. unfold isdigit. rewrite code_digit by done. lia. Qed.

Lemma dec_value_app s c : dec_value (s ++ [c]) = 10 * dec_value s + (code c - 48).
Proof. unfold dec_value. by rewrite foldl_app. Qed.

Lemma dec_fuel_spec fuel n :
  0 <= n < 10 ^ Z.of_nat fuel -> (0 < fuel)%nat ->
  dec_fuel fuel n <> [] /\ forallb isdigit (dec_fuel fuel n) = true
  /\ dec_value (dec_fuel fuel n) = n.
Proof.
  revert n. induction fuel as [|fuel IH]; intros n Hn Hf; [lia|]. cbn [dec_fuel].
  destruct (Z.ltb_spec n 10) as [Hlt|Hge].
  - split; [done|]. cbn [forallb]. rewrite isdigit_digit by lia. split; [done|].
    unfold dec_value. cbn. rewrite code_digit; lia.
  - rewrite Nat2Z.inj_succ, Z.pow_succ_r in Hn by lia.
    destruct (IH (n / 10)) as (H1 & H2 & H3); [dlia| |].
    { destruct fuel; [cbn in Hn; lia|lia]. }
    split; [by destruct (dec_fuel fuel (n / 10))|]. rewrite forallb_app, H2. cbn [forallb].
    rewrite isdigit_digit by dlia. split; [done|].
    rewrite dec_value_app, H3, code_digit by dlia. dlia.
Qed.

Lemma dec_spec n :
  0 <= n < 10 ^ 20 -> dec n <> [] /\ forallb isdigit (dec n) = true /\ dec_value (dec n) = n.
Proof. intros. apply dec_fuel_spec; [done|lia]. Qed.

Lemma isdigit_cases c :
  isdigit c = true -> isspace c = false /\ c <> "-"%char /\ c <> "+"%char.
Proof.
  unfold isdigit, isspace. intros H. split_and!; [lia|by intros ->|by intros ->].
Qed.

(** Digits stay out of a set of punctuation. *)
Lemma digits_word delim s :
  s <> [] -> forallb isdigit s = true -> forallb (fun c => negb (isdigit c)) delim = true ->
  word delim s.
Proof.
  intros Hne Hs Hd. split; [done|]. rewrite forallb_forall in *. intros c Hc.
  apply negb_true_iff. unfold c_in. apply not_true_is_false. intros Hin.
  apply existsb_exists in Hin as (x & Hx & He). apply Ascii.eqb_eq in He as ->.
  specialize (Hs x Hc). specialize (Hd x Hx). rewrite Hs in Hd. done.
Qed.

(** [strtol] reads back the decimal text of a number. *)
Lemma strtol_dec n s :
  0 <= n <= 9223372036854775807 -> (forall c, head s = Some c -> isdigit c = false) ->
  strtol (dec n ++ s) = (n, s).
Proof.
  intros Hn Hs. destruct (dec_spec n) as (H1 & H2 & H3); [change (10 ^ 20) with 100000000000000000000; lia|].
  unfold strtol. destruct (dec n) as [|c ds] eqn:Hd; [done|].
  pose proof H2 as H2'. cbn in H2'. apply andb_prop in H2' as [Hc Hds].
  destruct (isdigit_cases c Hc) as (Hsp & Hm & Hp).
  rewrite <- app_comm_cons, span_none by done.
  assert (Hsign : (match c :: ds ++ s with
    | "-"%char :: s2 => (true, s2) | "+"%char :: s2 => (false, s2) | _ => (false, c :: ds ++ s) end)
    = (false, c :: ds ++ s)).
  { destruct c as [[] [] [] [] [] [] [] []]; try done. }
  rewrite Hsign, app_comm_cons, span_app by done. f_equal. rewrite H3. lia.
Qed.

Lemma word_dec delim n :
  0 <= n <= 9223372036854775807 -> forallb (fun c => negb (isdigit c)) delim = true ->
  word delim (dec n).
Proof.
  intros Hn Hd. destruct (dec_spec n) as (H1 & H2 & _);
    [change (10 ^ 20) with 100000000000000000000; lia|]. by apply digits_word.
Qed.
Lemma strtol_dec_end n : 0 <= n <= 9223372036854775807 -> strtol (dec n) = (n, []).
Proof. intros Hn. rewrite <- (app_nil_r (dec n)). by apply strtol_dec. Qed.

Lemma word_app delim w1 w2 : word delim w1 -> word delim w2 -> word delim (w1 ++ w2).
Proof.
  intros [N1 W1] [N2 W2]. split; [by destruct w1|]. by rewrite forallb_app, W1, W2.
Qed.
Lemma word_snoc delim w1 d w2 :
  word delim w1 -> c_in d delim = false -> word delim w2 -> word delim (w1 ++ d :: w2).
Proof.
  intros [N1 W1] Hd [N2 W2]. split; [by destruct w1|]. by rewrite forallb_app, W1; cbn; rewrite Hd, W2.
Qed.
Lemma word_join delim d ws :
  ws <> [] -> c_in d delim = false -> Forall (word delim) ws -> word delim (join d ws).
Proof.
  intros Hne Hd Hws. induction Hws as [|w ws Hw Hws IH]; [done|].
  destruct ws as [|w' ws]; [done|].
  change (join d (w :: w' :: ws)) with (w ++ d :: join d (w' :: ws)).
  apply word_snoc; auto.
Qed.

Lemma c_in_app c s1 s2 : c_in c (s1 ++ s2) = c_in c s1 || c_in c s2.
Proof. apply existsb_app. Qed.
Lemma c_in_word delim c w : word delim w -> c_in c delim = true -> c_in c w = false.
Proof.
  intros [_ Hw] Hc. rewrite forallb_forall in Hw. apply not_true_is_false. intros Hin.
  apply existsb_exists in Hin as (x & Hx & He). apply Ascii.eqb_eq in He as <-.
  specialize (Hw c Hx). by rewrite Hc in Hw.
Qed.
