(* ===== verification/Portmap.v ===== *)
(** * Port maps: [ddtcpreplay/src/tcpedit/portmap.c]

    Parsing --portmap arguments and rewriting TCP and UDP ports with
    incremental checksum updates. *)

From Stdlib Require Import ZArith Lia String Ascii.
From stdpp Require Import base list strings.
From S2P Require Import Prelude Samples Wire Get Csum IncChecksum Checksum Cidr TcpeditTypes Remap MapLoop EditIPv4 CString.

(** [htons] of a [long]. *)
Definition htons (x : Z) : Z := bswap16 (u16 x).

Definition bad_port (x : Z) : bool := (65535 <? x) || (x <? 0).

(** ** Parsing *)

(** [strtol] on a token that may be NULL; NULL when text is left behind. *)
Definition port_number (tok : option str) : res (option Z) :=
  match tok with
  | None => Err Undef
  | Some tok => let '(n, badchar) := strtol tok in
      Ok (if bool_decide (badchar = []) then Some n else None)
  end.

(** The [while] loop over the ports of a list after the first one. *)
Fixpoint port_list (to_l : Z) (toks : list str) : res (option (list tcpedit_portmap)) :=
  match toks with
  | [] => Ok (Some [])
  | tok :: toks =>
      n ← port_number (Some tok);
      match n with
      | None => Ok None
      | Some from_l =>
          if bad_port from_l then Ok None
          else
            rest ← port_list to_l toks;
            Ok (option_map (cons {| pm_from := htons from_l; pm_to := htons to_l |}) rest)
      end
  end.

Definition ports2PORT (ports : str) : res (option (list tcpedit_portmap)) :=
  let '(from_s, token) := strtok (txt ":") ports in
  let '(to_s, token) := strtok (txt ":") token in
  let '(more, _) := strtok (txt ":") token in
  match more, from_s, to_s with
  | None, Some from_s, Some to_s =>
      if strchr from_s "-" && strchr from_s "+" then Ok None else
      to_n ← port_number (Some to_s);
      match to_n with
      | None => Ok None
      | Some to_l =>
          if bad_port to_l then Ok None
          else if strchr from_s "-" then
            let '(from_begin, token2) := strtok (txt "-") from_s in
            let '(from_end, _) := strtok (txt "-") token2 in
            b ← port_number from_begin;
            match b with
            | None => Ok None
            | Some from_b =>
                e ← port_number from_end;
                match e with
                | None => Ok None
                | Some from_e =>
                    if bad_port from_b || bad_port from_e then Ok None
                    else if from_e <? from_b then Err Undef      (* portmap_last is NULL *)
                    else Ok (Some (map (fun i => {| pm_from := htons i; pm_to := htons to_l |})
                                       (seqZ from_b (from_e - from_b + 1))))
                end
            end
          else if strchr from_s "+" then
            let '(from_begin, token2) := strtok (txt "+") from_s in
            n ← port_number from_begin;
            match n with
            | None => Ok None
            | Some from_l =>
                rest ← port_list to_l (tokens (txt "+") token2);
                Ok (option_map (cons {| pm_from := htons from_l; pm_to := htons to_l |}) rest)
            end
          else
            n ← port_number (Some from_s);
            Ok (match n with
                | Some from_l =>
                    if bad_port from_l then None
                    else Some [{| pm_from := htons from_l; pm_to := htons to_l |}]
                | None => None
                end)
      end
  | _, _, _ => Ok None
  end.

(** The [while (1)] loop of [parse_portmap]: a record that does not parse adds
    nothing to the chain. *)
Fixpoint portmap_records (toks : list str) : res (list tcpedit_portmap) :=
  match toks with
  | [] => Ok []
  | tok :: toks =>
      r ← ports2PORT tok;
      rest ← portmap_records toks;
      Ok (default [] r ++ rest)
  end.

(** The return value and [*portmap]. *)
Definition parse_portmap (ourstr : str) : res (Z * list tcpedit_portmap) :=
  match strtok (txt ",") ourstr with
  | (None, _) => Err Assert                                       (* assert(ports) *)
  | (Some substr, token) =>
      r ← ports2PORT substr;
      match r with
      | None => Ok (0, [])
      | Some chain =>
          rest ← portmap_records (tokens (txt ",") token);
          Ok (1, chain ++ rest)
      end
  end.

(** ** Looking up and rewriting ports *)

Fixpoint map_port_loop (portmap : list tcpedit_portmap) (port newport : Z) : Z :=
  match portmap with
  | [] => newport
  | m :: portmap => map_port_loop portmap port (if pm_from m =? port then pm_to m else newport)
  end.
Definition map_port (portmap_data : list tcpedit_portmap) (port : Z) : res Z :=
  _ ← c_assert (negb (bool_decide (portmap_data = [])));
  Ok (map_port_loop portmap_data port port).

(** [csum_replace2(&field, old, new)] *)
Definition replace2_at (field old new : Z) : M unit :=
  s ← ld16 field; st16 field (csum_replace2 s old new).

(** One port: [field] is the port, [sum] the checksum field; a UDP checksum of
    zero is left alone. *)
Definition rewrite_port (t : tcpedit) (udp : bool) (field sum : Z) : M unit :=
  port ← ld16 field;
  n ← lift (map_port (portmap t) port);
  let newport := u16 n in
  if negb (newport =? port) then
    _ ← (if udp then
           s ← ld16 sum;
           if negb (s =? 0) then replace2_at sum port newport else mret tt
         else replace2_at sum port newport);
    st16 field newport
  else mret tt.

Definition rewrite_ports (t : tcpedit) (protocol layer4 : Z) : M Z :=
  _ ← assertM (negb (bool_decide (portmap t = [])));
  if protocol =? IPPROTO_TCP then
    _ ← rewrite_port t false (layer4 + o_dport) (layer4 + o_th_sum);
    _ ← rewrite_port t false (layer4 + o_sport) (layer4 + o_th_sum);
    mret 0
  else if protocol =? IPPROTO_UDP then
    _ ← rewrite_port t true (layer4 + o_dport) (layer4 + o_uh_sum);
    _ ← rewrite_port t true (layer4 + o_sport) (layer4 + o_uh_sum);
    mret 0
  else mret 0.

Definition rewrite_ipv4_ports (t : tcpedit) (ip_hdr : option Z) : M Z :=
  match ip_hdr with
  | None => mret 0
  | Some ip_hdr =>
      p ← ld8 (ip_hdr + o_ip_p);
      if (p =? IPPROTO_TCP) || (p =? IPPROTO_UDP) then
        l4 ← get_layer4_v4 ip_hdr 65536;
        match l4 with
        | Some l4 => rewrite_ports t p l4
        | None => fault_with Undef
        end
      else mret 0
  end.

Definition rewrite_ipv6_ports (t : tcpedit) (ip6_hdr : option Z) : M Z :=
  match ip6_hdr with
  | None => mret 0
  | Some ip6_hdr =>
      p ← ld8 (ip6_hdr + o_ip6_nh);
      if (p =? IPPROTO_TCP) || (p =? IPPROTO_UDP) then
        l4 ← get_layer4_v6 ip6_hdr 65535;
        match l4 with
        | Some l4 => rewrite_ports t p l4
        | None => fault_with Undef
        end
      else mret 0
  end.

(** ** The language of --portmap *)

Inductive rule :=
| Single (from to : Z)
| Range (b e to : Z)
| Several (from from' : Z) (froms : list Z) (to : Z).

Definition rule_text (r : rule) : str :=
  match r with
  | Single p q => dec p ++ ":"%char :: dec q
  | Range b e q => (dec b ++ "-"%char :: dec e) ++ ":"%char :: dec q
  | Several p p' ps q => join "+" (map dec (p :: p' :: ps)) ++ ":"%char :: dec q
  end.
Definition rule_from (r : rule) : list Z :=
  match r with
  | Single p _ => [p]
  | Range b e _ => seqZ b (e - b + 1)
  | Several p p' ps _ => p :: p' :: ps
  end.
Definition rule_to (r : rule) : Z :=
  match r with Single _ q => q | Range _ _ q => q | Several _ _ _ q => q end.
Definition rule_ok (r : rule) : Prop :=
  is_u16 (rule_to r) /\
  match r with
  | Single p _ => is_u16 p
  | Range b e _ => is_u16 b /\ is_u16 e /\ b <= e
  | Several p p' ps _ => is_u16 p /\ Forall is_u16 (p' :: ps)
  end.
Definition rule_den (r : rule) : list tcpedit_portmap :=
  map (fun p => {| pm_from := htons p; pm_to := htons (rule_to r) |}) (rule_from r).

Lemma bad_port_false p : is_u16 p -> bad_port p = false.
Proof. unfold is_u16, bad_port. lia. Qed.
Lemma u16_long p : is_u16 p -> 0 <= p <= 9223372036854775807.
Proof. unfold is_u16. lia. Qed.
Lemma port_number_dec p : is_u16 p -> port_number (Some (dec p)) = Ok (Some p).
Proof.
  intros Hp. unfold port_number. rewrite strtol_dec_end by (by apply u16_long).
  by rewrite bool_decide_true.
Qed.
Lemma word_port delim p :
  is_u16 p -> forallb (fun c => negb (isdigit c)) delim = true -> word delim (dec p).
Proof. intros Hp Hd. apply word_dec; [by apply u16_long|done]. Qed.
Lemma dec_no c p : is_u16 p -> isdigit c = false -> strchr (dec p) c = false.
Proof.
  intros Hp Hc. apply (c_in_word [c]); [|by cbn; rewrite Ascii.eqb_refl].
  apply word_port; [done|]. cbn. by rewrite Hc.
Qed.

Lemma port_list_dec to_l ps :
  Forall is_u16 ps ->
  port_list to_l (map dec ps)
  = Ok (Some (map (fun p => {| pm_from := htons p; pm_to := htons to_l |}) ps)).
Proof.
  induction 1 as [|p ps Hp Hps IH]; [done|]. cbn [map port_list].
  rewrite port_number_dec by done. cbn. rewrite bad_port_false, IH by done. done.
Qed.

(** The three calls of [strtok_r] on [from:to]. *)
Lemma strtok_colon from to :
  word (txt ":") from -> word (txt ":") to ->
  strtok (txt ":") (from ++ ":"%char :: to) = (Some from, to)
  /\ strtok (txt ":") to = (Some to, []) /\ strtok (txt ":") [] = (None, []).
Proof. intros Hf Ht. split_and!; [by apply strtok_word|by apply strtok_last|done]. Qed.

Lemma strchr_join_no ps :
  Forall is_u16 ps -> strchr (join "+" (map dec ps)) "-" = false.
Proof.
  intros Hps. destruct ps as [|p ps]; [done|]. apply (c_in_word (txt "-")); [|done].
  apply word_join; [done|done|]. apply Forall_map. eapply Forall_impl; [done|].
  intros q Hq. by apply word_port.
Qed.
Lemma words_dec delim ps :
  Forall is_u16 ps -> forallb (fun c => negb (isdigit c)) delim = true ->
  Forall (word delim) (map dec ps).
Proof.
  intros Hps Hd. apply Forall_map. eapply Forall_impl; [done|]. intros q Hq. by apply word_port.
Qed.

Lemma ports2PORT_rule r : rule_ok r -> ports2PORT (rule_text r) = Ok (Some (rule_den r)).
Proof.
  intros [Hq Hr]. unfold ports2PORT.
  assert (Wq : word (txt ":") (dec (rule_to r))) by (by apply word_port).
  destruct r as [p q|b e q|p p' ps q]; cbn [rule_text rule_to] in *.
  - destruct (strtok_colon (dec p) (dec q)) as (-> & -> & ->); [by apply word_port|done|].
    rewrite !dec_no by done. rewrite !port_number_dec by done. cbn.
    by rewrite !bad_port_false.
  - destruct Hr as (Hb & He & Hle).
    assert (Wbe : word (txt ":") (dec b ++ "-"%char :: dec e)) by (by apply word_snoc; [apply word_port| |apply word_port]).
    destruct (strtok_colon (dec b ++ "-"%char :: dec e) (dec q) Wbe Wq) as (-> & -> & ->).
    assert (Hminus : strchr (dec b ++ "-"%char :: dec e) "-" = true).
    { unfold strchr. rewrite c_in_app. cbn. apply orb_true_r. }
    assert (Hplus : strchr (dec b ++ "-"%char :: dec e) "+" = false).
    { apply (c_in_word (txt "+")); [|done]. by apply word_snoc; [apply word_port| |apply word_port]. }
    rewrite Hminus, Hplus. cbn [andb]. rewrite port_number_dec by done.
    unfold mbind at 1, res_bind. rewrite bad_port_false by done.
    rewrite strtok_word by (done || by apply word_port).
    rewrite strtok_last by (by apply word_port). rewrite !port_number_dec by done.
    unfold mbind, res_bind. rewrite !bad_port_false by done. cbn [orb].
    by replace (e <? b) with false by lia.
  - destruct Hr as [Hp Hps]. assert (Hall : Forall is_u16 (p :: p' :: ps)) by (by constructor).
    assert (Wj : word (txt ":") (join "+" (map dec (p :: p' :: ps)))).
    { apply word_join; [done|done|by apply words_dec]. }
    destruct (strtok_colon _ (dec q) Wj Wq) as (-> & -> & ->).
    rewrite strchr_join_no by done. cbn [andb]. rewrite port_number_dec by done.
    unfold mbind at 1, res_bind. rewrite bad_port_false by done.
    change (join "+" (map dec (p :: p' :: ps)))
      with (dec p ++ "+"%char :: join "+" (map dec (p' :: ps))).
    replace (strchr _ "+") with true.
    2:{ unfold strchr. rewrite c_in_app. cbn. by rewrite orb_true_r. }
    rewrite strtok_word by (done || by apply word_port). rewrite port_number_dec by done.
    unfold mbind at 1, res_bind. rewrite tokens_join by (done || by apply words_dec).
    rewrite port_list_dec by done. done.
Qed.

(** ** What a list of rules means *)

(** The last rule that lists the port decides. *)
Definition rules_map (rules : list rule) (p : Z) : Z :=
  foldl (fun q r => if bool_decide (p ∈ rule_from r) then rule_to r else q) p rules.

Lemma htons_inj p q : is_u16 p -> is_u16 q -> htons p = htons q -> p = q.
Proof.
  intros Hp Hq. unfold htons. rewrite !u16_id by done. intros He.
  rewrite <- (bswap16_involutive p), <- (bswap16_involutive q) by done. by rewrite He.
Qed.

Lemma rule_from_u16 r : rule_ok r -> Forall is_u16 (rule_from r).
Proof.
  intros [_ Hr]. destruct r as [p q|b e q|p p' ps q]; cbn in *.
  - auto.
  - apply Forall_forall. intros i Hi. apply elem_of_seqZ in Hi. unfold is_u16 in *. lia.
  - constructor; apply Hr.
Qed.

Lemma map_port_loop_app l1 l2 port np :
  map_port_loop (l1 ++ l2) port np = map_port_loop l2 port (map_port_loop l1 port np).
Proof. revert np. induction l1 as [|m l1 IH]; intros np; [done|]. apply IH. Qed.

Lemma map_port_loop_const froms to p np :
  Forall is_u16 froms -> is_u16 p ->
  map_port_loop (map (fun q => {| pm_from := htons q; pm_to := to |}) froms) (htons p) np
  = if bool_decide (p ∈ froms) then to else np.
Proof.
  intros Hf Hp. revert np. induction Hf as [|q froms Hq Hf IH]; intros np; [done|].
  cbn [map map_port_loop pm_from pm_to]. rewrite IH.
  destruct (Z.eqb_spec (htons q) (htons p)) as [He|He].
  - apply htons_inj in He as ->; [|done|done]. rewrite (bool_decide_true (p ∈ p :: froms)) by left.
    by case_bool_decide.
  - assert (Hne : p <> q) by congruence. case_bool_decide as H1.
    + by rewrite bool_decide_true by (by right).
    + rewrite bool_decide_false; [done|]. by intros [?|?]%elem_of_cons.
Qed.

Lemma map_port_rules rules p q :
  Forall rule_ok rules -> is_u16 p ->
  map_port_loop (concat (map rule_den rules)) (htons p) (htons q)
  = htons (foldl (fun q r => if bool_decide (p ∈ rule_from r) then rule_to r else q) q rules).
Proof.
  intros Hr Hp. revert q. induction Hr as [|r rules Hr Hrs IH]; intros q; [done|].
  cbn [map concat foldl]. rewrite map_port_loop_app.
  change (rule_den r) with
    (map (fun q => {| pm_from := htons q; pm_to := htons (rule_to r) |}) (rule_from r)).
  rewrite map_port_loop_const by (done || by apply rule_from_u16).
  rewrite <- IH. by case_bool_decide.
Qed.

Lemma portmap_records_rules rules :
  Forall rule_ok rules ->
  portmap_records (map rule_text rules) = Ok (concat (map rule_den rules)).
Proof.
  induction 1 as [|r rules Hr Hrs IH]; [done|]. cbn [map portmap_records concat].
  rewrite ports2PORT_rule by done. cbn. by rewrite IH.
Qed.

Lemma rule_text_word r : rule_ok r -> word (txt ",") (rule_text r).
Proof.
  intros [Hq Hr]. destruct r as [p q|b e q|p p' ps q]; cbn [rule_text rule_to] in *.
  - by apply word_snoc; [apply word_port| |apply word_port].
  - destruct Hr as (Hb & He & _). apply word_snoc; [|done|by apply word_port].
    by apply word_snoc; [apply word_port| |apply word_port].
  - destruct Hr as [Hp Hps]. apply word_snoc; [|done|by apply word_port].
    apply word_join; [done|done|]. apply words_dec; [by constructor|done].
Qed.

Lemma parse_portmap_rules r rules :
  rule_ok r -> Forall rule_ok rules ->
  parse_portmap (join "," (map rule_text (r :: rules))) = Ok (1, concat (map rule_den (r :: rules))).
Proof.
  intros Hr Hrs. unfold parse_portmap. pose proof (rule_text_word r Hr) as Wr.
  assert (Hws : Forall (word (txt ",")) (map rule_text rules)).
  { apply Forall_map. eapply Forall_impl; [done|]. apply rule_text_word. }
  destruct rules as [|r' rules].
  - cbn [map join]. rewrite strtok_last, ports2PORT_rule by done. cbn. done.
  - change (join "," (map rule_text (r :: r' :: rules)))
      with (rule_text r ++ ","%char :: join "," (map rule_text (r' :: rules))).
    rewrite strtok_word, ports2PORT_rule by done. unfold mbind at 1, res_bind.
    rewrite tokens_join by done. rewrite portmap_records_rules by done. done.
Qed.

(** C34: parsing the text of any list of rules (single ports, ranges, lists of
    ports) succeeds, and looking a port up in the parsed chain yields the
    target of the last rule that lists it, or the port itself; ports are in
    network byte order on both sides. *)
Theorem portmap_parse_lookup r rules p :
  rule_ok r -> Forall rule_ok rules -> is_u16 p ->
  exists chain, parse_portmap (join "," (map rule_text (r :: rules))) = Ok (1, chain)
    /\ map_port chain (htons p) = Ok (htons (rules_map (r :: rules) p)).
Proof.
  intros Hr Hrs Hp. exists (concat (map rule_den (r :: rules))).
  split; [by apply parse_portmap_rules|]. unfold map_port.
  assert (Hne : concat (map rule_den (r :: rules)) <> []).
  { destruct r as [?|b e ?|?]; cbn; try done. destruct Hr as (_ & _ & _ & Hle).
    rewrite seqZ_cons by lia. done. }
  rewrite bool_decide_false by done. cbn [negb c_assert mbind res_bind].
  unfold rules_map. rewrite map_port_rules; [done|by constructor|done].
Qed.

(** The text of a range whose end is below its begin makes ports2PORT write
    through a null pointer. *)
Theorem portmap_empty_range b e q :
  is_u16 b -> is_u16 e -> is_u16 q -> e < b ->
  parse_portmap (rule_text (Range b e q)) = Err Undef.
Proof.
  intros Hb He Hq Hlt. unfold parse_portmap. cbn [rule_text].
  assert (Wbe : forall d, forallb (fun c => negb (isdigit c)) d = true -> c_in "-" d = false ->
    word d (dec b ++ "-"%char :: dec e))
    by (intros; by apply word_snoc; [apply word_port| |apply word_port]).
  rewrite strtok_last by (apply word_snoc; [by apply Wbe|done|by apply word_port]).
  unfold ports2PORT.
  destruct (strtok_colon (dec b ++ "-"%char :: dec e) (dec q)) as (-> & -> & ->);
    [by apply Wbe|by apply word_port|].
  assert (strchr (dec b ++ "-"%char :: dec e) "-" = true) as ->.
  { unfold strchr. rewrite c_in_app. cbn. apply orb_true_r. }
  assert (strchr (dec b ++ "-"%char :: dec e) "+" = false) as ->.
  { apply (c_in_word (txt "+")); [|done]. by apply Wbe. }
  cbn [andb]. rewrite port_number_dec by done. unfold mbind, res_bind.
  rewrite bad_port_false by done.
  rewrite strtok_word by (done || by apply word_port).
  rewrite strtok_last by (by apply word_port). rewrite !port_number_dec by done.
  rewrite !bad_port_false by done. by replace (e <? b) with true by lia.
Qed.

(** ** Rewriting ports keeps checksums valid *)

(** [b'] is [b] with other ports at [l4] and a checksum field [f] adjusted. *)
Record port_edit (udp : bool) (l4 f : Z) (b b' : buf) : Prop := {
  pe_len : blen b' = blen b;
  pe_bytes : bytes_ok b';
  pe_frame : forall i, 0 <= i -> i < l4 \/ l4 + 4 <= i -> i < f \/ f + 2 <= i ->
    get8 b' i = get8 b i;
  pe_sum : forall n, f + 2 <= l4 + n -> l4 + n <= blen b ->
    (udp = true /\ get16 b' f = 0)
    \/ ((udp = true -> get16 b f <> 0)
        /\ csum b' l4 (Z.to_nat n) ≈ csum b l4 (Z.to_nat n))
}.

Lemma port_edit_refl udp l4 f b : bytes_ok b -> port_edit udp l4 f b b.
Proof.
  intros Hb. split; try done. intros n _ _. destruct udp; [|by right].
  destruct (decide (get16 b f = 0)); [by left|by right].
Qed.
Lemma port_edit_trans udp l4 f b1 b2 b3 :
  port_edit udp l4 f b1 b2 -> port_edit udp l4 f b2 b3 -> port_edit udp l4 f b1 b3.
Proof.
  intros [L1 B1 F1 S1] [L2 B2 F2 S2]. split; [congruence|done| |].
  - intros. by rewrite F2, F1.
  - intros n H1 H2. destruct (S2 n H1 ltac:(lia)) as [?|[N2 E2]]; [by left|].
    destruct (S1 n H1 H2) as [[Hu Hz]|[N1 E1]]; [by specialize (N2 Hu)|].
    right. split; [done|]. by rewrite E2.
Qed.

Definition new_port (t : tcpedit) (p : Z) : Z := u16 (map_port_loop (portmap t) p p).

Lemma replace2_at_spec b f old new :
  bytes_ok b -> 0 <= f -> f + 2 <= blen b -> is_u16 old -> is_u16 new ->
  wp (replace2_at f old new)
     (fun _ b' => exists c, b' = put16 b f c /\ is_u16 c /\ c + new ≈ get16 b f + old) b.
Proof.
  intros Hb Hf Hl Ho Hn. unfold replace2_at. wp_steps.
  destruct (csum_replace2_spec (get16 b f) old new) as [H1 H2]; auto with cint.
  by exists (csum_replace2 (get16 b f) old new).
Qed.

(** A new port and the adjusted checksum, once both are stored. *)
Lemma port_edit_stores udp l4 f b field new c :
  bytes_ok b -> 0 <= l4 -> field = l4 \/ field = l4 + 2 -> l4 + 4 <= f ->
  (f - l4) mod 2 = 0 -> f + 2 <= blen b -> is_u16 new -> is_u16 c ->
  c + new ≈ get16 b f + get16 b field -> (udp = true -> get16 b f <> 0) ->
  port_edit udp l4 f b (put16 (put16 b f c) field new).
Proof.
  intros Hb Hl Hfd Hf Hev Hin Hn Hc He Hu. split.
  - by autorewrite with blen.
  - auto with cint.
  - intros i H0 H1 H2. rewrite !get8_put16_ne; autorewrite with blen; done || lia.
  - intros n H1 H2. right. split; [done|].
    rewrite csum_put16_in; autorewrite with blen; try lia;
      [|apply even_to_nat; [lia|destruct Hfd; subst field; dlia]].
    rewrite csum_put16_in; try lia; [|apply even_to_nat; lia].
    rewrite !u16_id, get16_put16_ne by (done || lia).
    pose proof (eqm_swap (csum b l4 (Z.to_nat n)) 0 _ _ _ _ He) as HE.
    rewrite !Z.add_0_r in HE. rewrite <- HE at 2. by apply (eqm_diff _ _ 0); lia.
Qed.

Lemma rewrite_port_spec t udp l4 f b field :
  bytes_ok b -> 0 <= l4 -> field = l4 \/ field = l4 + 2 -> l4 + 4 <= f ->
  (f - l4) mod 2 = 0 -> f + 2 <= blen b -> portmap t <> [] ->
  wp (rewrite_port t udp field f)
     (fun _ b' => port_edit udp l4 f b b' /\ get16 b' field = new_port t (get16 b field)
        /\ only_in l4 (f + 2 - l4) b b'
        /\ forall p, p = l4 \/ p = l4 + 2 -> p <> field -> get16 b' p = get16 b p) b.
Proof.
  intros Hb Hl Hfd Hf Hev Hin Hpm. unfold rewrite_port. wp_steps.
  eapply wp_lift; [unfold map_port; by rewrite bool_decide_false|].
  fold (new_port t (get16 b field)). set (new := new_port t (get16 b field)).
  assert (Hn : is_u16 new) by apply u16_range.
  assert (Hp : is_u16 (get16 b field)) by (by apply get16_range).
  destruct (Z.eqb_spec new (get16 b field)) as [Heq|Hne]; cbn [negb].
  { wp_steps. split_and!; auto using port_edit_refl, only_in_refl. }
  assert (Hdone : forall c, is_u16 c -> c + new ≈ get16 b f + get16 b field ->
    (udp = true -> get16 b f <> 0) ->
    wp (st16 field new) (fun _ b' => port_edit udp l4 f b b' /\ get16 b' field = new
        /\ only_in l4 (f + 2 - l4) b b'
        /\ forall p, p = l4 \/ p = l4 + 2 -> p <> field -> get16 b' p = get16 b p) (put16 b f c)).
  { intros c Hc He Hu. wp_steps. split_and!; [by apply port_edit_stores|..].
    - rewrite get16_put16_eq, u16_id; autorewrite with blen; done || lia.
    - split; [by autorewrite with blen|]. intros i H0 Hi.
      rewrite !get8_put16_ne; autorewrite with blen; done || lia.
    - intros p Hp' Hpn. rewrite !get16_put16_ne; autorewrite with blen; done || lia. }
  apply wp_bind. destruct udp.
  - wp_steps. destruct (Z.eqb_spec (get16 b f) 0) as [Hz|Hz]; cbn [negb].
    + wp_steps. split_and!.
      * split; [by autorewrite with blen|auto with cint| |].
        -- intros. rewrite get8_put16_ne; done || lia.
        -- intros n _ _. left. by rewrite get16_put16_ne by lia.
      * by rewrite get16_put16_eq, u16_id by (done || lia).
      * eapply only_in_weaken; [..|apply only_in_put16]; lia.
      * intros. by rewrite get16_put16_ne by lia.
    + eapply wp_mono; [|by apply replace2_at_spec; try lia].
      intros [] b' (c & -> & Hc & He). by apply Hdone.
  - eapply wp_mono; [|by apply replace2_at_spec; try lia].
    intros [] b' (c & -> & Hc & He). by apply Hdone.
Qed.

Lemma rewrite_ports_spec t b p l4 :
  bytes_ok b -> 0 <= l4 -> portmap t <> [] -> p = IPPROTO_TCP \/ p = IPPROTO_UDP ->
  l4 + l4_sum_off p + 2 <= blen b ->
  wp (rewrite_ports t p l4)
     (fun r b' => r = 0 /\ port_edit (p =? IPPROTO_UDP) l4 (l4 + l4_sum_off p) b b'
        /\ get16 b' (l4 + o_sport) = new_port t (get16 b (l4 + o_sport))
        /\ get16 b' (l4 + o_dport) = new_port t (get16 b (l4 + o_dport))) b.
Proof.
  intros Hb Hl Hpm Hp Hin. unfold rewrite_ports. rewrite bool_decide_false by done. wp_steps.
  rewrite (Z.add_0_r l4).
  assert (Hgen : forall udp f, l4 + 4 <= f -> (f - l4) mod 2 = 0 -> f + 2 <= blen b ->
    wp (_ ← rewrite_port t udp (l4 + 2) f; _ ← rewrite_port t udp l4 f; mret 0)
     (fun r b' => r = 0 /\ port_edit udp l4 f b b' /\ get16 b' l4 = new_port t (get16 b l4)
        /\ get16 b' (l4 + 2) = new_port t (get16 b (l4 + 2))) b).
  { intros udp f Hf Hev Hf2. apply wp_bind.
    eapply wp_mono; [|apply (rewrite_port_spec t udp l4 f b (l4 + 2)); auto].
    intros [] b1 (P1 & D1 & O1 & K1). apply wp_bind. pose proof P1 as [L1 B1 _ _].
    eapply wp_mono; [|apply (rewrite_port_spec t udp l4 f b1 l4); auto; lia].
    intros [] b2 (P2 & S2 & O2 & K2). wp_steps. split_and!; [done|by eapply port_edit_trans|..].
    - rewrite S2, K1; auto; lia.
    - rewrite K2; auto; lia. }
  unfold l4_sum_off in *. destruct Hp as [-> | ->]; cbn [Z.eqb Pos.eqb] in *; apply Hgen; dlia.
Qed.

Lemma rewrite_ipv4_ports_ok t b h :
  let l4 := h + 4 * ip_hl b h in let p := ip_p b h in
  wf4 b h -> portmap t <> [] -> p = IPPROTO_TCP \/ p = IPPROTO_UDP ->
  l4 + l4_sum_off p + 2 <= blen b ->
  wp (rewrite_ipv4_ports t (Some h))
     (fun r b' => r = 0 /\ port_edit (p =? IPPROTO_UDP) l4 (l4 + l4_sum_off p) b b'
        /\ get16 b' (l4 + o_sport) = new_port t (get16 b (l4 + o_sport))
        /\ get16 b' (l4 + o_dport) = new_port t (get16 b (l4 + o_dport))) b.
Proof.
  intros l4 p W Hpm Hp Hin. pose proof W as [Wb Wh Whl Wlen _].
  unfold rewrite_ipv4_ports. wp_steps. fold (ip_p b h) p.
  replace ((p =? IPPROTO_TCP) || (p =? IPPROTO_UDP)) with true by lia.
  apply wp_bind, wp_get_layer4_v4; [done|]. by apply rewrite_ports_spec; [|lia|..].
Qed.

(** rewrite_ipv4_ports maps both ports of a TCP or UDP packet through the
    port map, keeps the sum of the segment (so a valid checksum stays valid;
    a UDP checksum of zero stays zero) and changes nothing else.  It does so on
    every fragment, also on those whose payload holds no port. *)
Theorem rewrite_ipv4_ports_spec t b h :
  let l4 := h + 4 * ip_hl b h in let p := ip_p b h in
  wf4 b h -> portmap t <> [] -> p = IPPROTO_TCP \/ p = IPPROTO_UDP ->
  l4 + l4_sum_off p + 2 <= blen b ->
  wp (rewrite_ipv4_ports t (Some h))
     (fun r b' => r = 0 /\ port_edit (p =? IPPROTO_UDP) l4 (l4 + l4_sum_off p) b b'
        /\ get16 b' (l4 + o_sport) = new_port t (get16 b (l4 + o_sport))
        /\ get16 b' (l4 + o_dport) = new_port t (get16 b (l4 + o_dport))) b.
Proof. exact (rewrite_ipv4_ports_ok t b h). Qed.

Definition sample_rules : list rule := [Range 20 22 5000; Several 80 81 [443] 8080].

Lemma portmap_parse_lookup_witness :
  join "," (map rule_text (Single 21 99 :: sample_rules)) = txt "21:99,20-22:5000,80+81+443:8080"
  /\ exists chain, parse_portmap (join "," (map rule_text (Single 21 99 :: sample_rules))) = Ok (1, chain)
       /\ map_port chain (htons 21) = Ok (htons 5000).
Proof.
  split; [reflexivity|].
  apply (portmap_parse_lookup (Single 21 99) sample_rules 21); [split; concrete| |concrete].
  repeat constructor; concrete.
Defined.

Lemma portmap_empty_range_witness : parse_portmap (txt "9-7:1") = Err Undef.
Proof. apply (portmap_empty_range 9 7 1); concrete. Defined.

Lemma rewrite_ipv4_ports_witness :
  wp (rewrite_ipv4_ports sample_edit (Some 14))
     (fun r b' => port_edit false 34 50 sample_tcp b' /\ get16 b' 34 = htons 1) sample_tcp.
Proof.
  eapply wp_mono; [|apply (rewrite_ipv4_ports_spec sample_edit sample_tcp 14);
    [apply wf4_sample|done|by left|concrete]].
  intros r b' (_ & He & Hs & _). split; [exact He|]. exact Hs.
Defined.
