(* ===== verification/Dlt.v ===== *)
(** * The DLT plugin framework: [ddtcpreplay/src/tcpedit/plugins_types.h],
    [plugins/dlt_utils.c], [plugins/ethernet.c]

    The layer-2 part of the editor is a chain of plugins, one per link type.  A
    decoder splits the layer-2 header of a packet into the fields of the context
    [tcpeditdlt]; an encoder builds a header from them.  The function pointers of
    a plugin are the record [plugin_ops]; the rest of [tcpeditdlt_plugin_t] is
    the record [plugin], kept in the chain of the context.

    [decoded_extra] is a block of bytes: its owner is whichever plugin was
    initialised last, and each plugin reads it through its own struct. *)

From Stdlib Require Import ZArith Lia.
From stdpp Require Import base list strings.
From S2P Require Import Prelude Wire TcpeditTypes.

Abbreviation TCPEDIT_SOFT_ERROR := (-2).
Abbreviation PLUGIN_MASK_PROTO := 1.
Abbreviation PLUGIN_MASK_SRCADDR := 2.
Abbreviation PLUGIN_MASK_DSTADDR := 4.
Abbreviation ETHER_ADDR_LEN := 6.
Abbreviation TCPR_802_3_H := 14.
Abbreviation TCPR_802_1Q_H := 18.
Abbreviation MAXPACKET := 65535.

(** ** Data *)

Inductive l2addr_type := NONE | ETHERNET | C_HDLC.
Inductive mac_type := SRC_MAC | DST_MAC.
#[export] Instance l2addr_type_eq_dec : EqDecision l2addr_type.
Proof. solve_decision. Defined.

(** [en10mb_config_t]; [tcpedit_vlan] and the four address bits of [mac_mask]. *)
Inductive tcpedit_vlan := VLAN_OFF | VLAN_DEL | VLAN_ADD.
#[export] Instance tcpedit_vlan_eq_dec : EqDecision tcpedit_vlan.
Proof. solve_decision. Defined.

Record en10mb_config := {
  intf1_dmac : list Z; intf1_smac : list Z; intf2_dmac : list Z; intf2_smac : list Z;
  mac_mask : Z;
  vlan : tcpedit_vlan;
  vlan_tag : Z;
  vlan_pri : Z;
  vlan_cfi : Z
}.

(** [hdlc_config_t] *)
Record hdlc_config := { hdlc_address : Z; hdlc_control : Z }.

(** What the [void *config] of a plugin points to. *)
Inductive plugin_config :=
| NoConfig
| En10mbConfig (c : en10mb_config)
| HdlcConfig (c : hdlc_config).

(** [tcpeditdlt_plugin_t] without its function pointers. *)
Record plugin := {
  p_dlt : Z;
  p_name : string;
  p_requires : Z;
  p_provides : Z;
  p_config : plugin_config
}.

(** [tcpeditdlt_t].  The pointers [decoder] and [encoder] are the link types of
    the plugins they point to. *)
Record tcpeditdlt := {
  plugins : list plugin;
  decoder : Z;
  encoder : Z;
  addr_type : l2addr_type;
  ctx_skip_broadcast : bool;
  ctx_srcaddr : list Z;
  ctx_dstaddr : list Z;
  l2len : Z;
  proto : Z;
  decoded_extra : buf
}.

(** The fields that a decoder fills out. *)
Definition set_decoded (ctx : tcpeditdlt) (src dst : list Z) (len p : Z) (extra : buf) : tcpeditdlt := {|
  plugins := plugins ctx; decoder := decoder ctx; encoder := encoder ctx;
  addr_type := addr_type ctx; ctx_skip_broadcast := ctx_skip_broadcast ctx;
  ctx_srcaddr := src; ctx_dstaddr := dst; l2len := len; proto := p; decoded_extra := extra
|}.
Definition set_plugins (ctx : tcpeditdlt) (l : list plugin) : tcpeditdlt := {|
  plugins := l; decoder := decoder ctx; encoder := encoder ctx;
  addr_type := addr_type ctx; ctx_skip_broadcast := ctx_skip_broadcast ctx;
  ctx_srcaddr := ctx_srcaddr ctx; ctx_dstaddr := ctx_dstaddr ctx; l2len := l2len ctx;
  proto := proto ctx; decoded_extra := decoded_extra ctx
|}.

(** The function pointers of a plugin.  A decoder returns a code and the new
    context, an encoder the new length of the packet or an error code. *)
Record plugin_ops := {
  plugin_decode : tcpeditdlt -> Z -> M (Z * tcpeditdlt);
  plugin_encode : tcpeditdlt -> Z -> tcpr_dir -> M Z;
  plugin_proto : tcpeditdlt -> Z -> M Z;
  plugin_l2len : tcpeditdlt -> Z -> M Z;
  plugin_get_layer3 : tcpeditdlt -> Z -> M (option Z);
  plugin_merge_layer3 : tcpeditdlt -> Z -> Z -> M (option Z);
  plugin_l2addr_type : l2addr_type
}.

(** ** The chain of plugins *)

(** tcpedit_dlt_getplugin: the [while] loop stops at the plugin or at the last
    element of the chain, which is then compared once more. *)
Fixpoint walk_chain (found : plugin -> bool) (p : plugin) (next : list plugin) : plugin :=
  match next with
  | q :: next' => if negb (found p) then walk_chain found q next' else p
  | [] => p
  end.
Definition chain_find (found : plugin -> bool) (l : list plugin) : option plugin :=
  match l with
  | [] => None
  | p :: next => let ptr := walk_chain found p next in
                 if found ptr then Some ptr else None
  end.

Definition tcpedit_dlt_getplugin (ctx : tcpeditdlt) (dlt : Z) : option plugin :=
  chain_find (fun p => p_dlt p =? dlt) (plugins ctx).
Definition tcpedit_dlt_getplugin_byname (ctx : tcpeditdlt) (name : string) : option plugin :=
  chain_find (fun p => bool_decide (p_name p = name)) (plugins ctx).

(** tcpedit_dlt_addplugin; the pointer checks of the function table hold for
    every [plugin_ops]. *)
Definition tcpedit_dlt_addplugin (ctx : tcpeditdlt) (new : plugin) : res (Z * tcpeditdlt) :=
  match tcpedit_dlt_getplugin ctx (p_dlt new) with
  | Some _ => Ok (-1, ctx)
  | None =>
      match tcpedit_dlt_getplugin_byname ctx (p_name new) with
      | Some _ => Ok (-1, ctx)
      | None =>
          _ ← c_assert (p_dlt new <? 65535);
          Ok (0, set_plugins ctx (plugins ctx ++ [new]))
      end
  end.

(** tcpedit_dlt_validate: [bit] runs over 1, 4, 16, ..., and the message of a
    missing field is looked up with the bit as an index into a table of three
    entries. *)
Definition tcpeditdlt_bit_map : list Z := [PLUGIN_MASK_PROTO; PLUGIN_MASK_SRCADDR; PLUGIN_MASK_DSTADDR].
Definition tcpeditdlt_bit_info : list string :=
  ["Missing required Layer 3 protocol."; "Missing required Layer 2 source address.";
   "Missing required Layer 2 destination address."]%string.

Definition bit_message (bit : Z) : res string :=
  match tcpeditdlt_bit_map !! Z.to_nat bit with
  | None => Err Oob
  | Some i => match tcpeditdlt_bit_info !! Z.to_nat i with None => Err Oob | Some s => Ok s end
  end.

Fixpoint validate_loop (fuel : nat) (requires provides bit : Z) : res (Z * option string) :=
  match fuel with
  | O => Err Diverge
  | S fuel =>
      if bit =? 0 then Ok (0, None)
      else if negb (Z.land requires bit =? 0) && (Z.land provides bit =? 0) then
        s ← bit_message bit; Ok (-1, Some s)
      else validate_loop fuel requires provides (u32 (Z.shiftl bit 2))
  end.
Definition tcpedit_dlt_validate (enc dec : plugin) : res (Z * option string) :=
  validate_loop 33 (p_requires enc) (p_provides dec) 1.

(** ** Helpers of the plugins *)

(** tcpedit_dlt_l3data_copy on a host without alignment restrictions: an offset
    into the packet. *)
Definition tcpedit_dlt_l3data_copy (pktlen len : Z) : M (option Z) :=
  _ ← assertM (negb (pktlen =? 0));
  mret (if pktlen <=? len then None else Some len).

(** tcpedit_dlt_l3data_merge: returns the packet. *)
Definition tcpedit_dlt_l3data_merge (pktlen len : Z) : M (option Z) :=
  _ ← assertM (0 <=? pktlen);
  _ ← assertM (0 <=? len);
  mret (Some 0).

(** tcpedit_dlt_copy_decoder_state *)
Definition tcpedit_dlt_copy_decoder_state (ctx subctx : tcpeditdlt) : Z * tcpeditdlt :=
  (0, set_decoded ctx (ctx_srcaddr subctx) (ctx_dstaddr subctx)
        (i32 (l2len ctx + l2len subctx)) (proto subctx) (decoded_extra subctx)).

(** Accesses to the block [decoded_extra]. *)
Definition x_ld8 (x : buf) (o : Z) : res Z := if in_bounds x o 1 then Ok (get8 x o) else Err Oob.
Definition x_ld16 (x : buf) (o : Z) : res Z := if in_bounds x o 2 then Ok (get16 x o) else Err Oob.
Definition x_ld32 (x : buf) (o : Z) : res Z := if in_bounds x o 4 then Ok (get32 x o) else Err Oob.
Definition x_st8 (x : buf) (o v : Z) : res buf := if in_bounds x o 1 then Ok (put8 x o v) else Err Oob.
Definition x_st16 (x : buf) (o v : Z) : res buf := if in_bounds x o 2 then Ok (put16 x o v) else Err Oob.
Definition x_st32 (x : buf) (o v : Z) : res buf := if in_bounds x o 4 then Ok (put32 x o v) else Err Oob.

(** [memmove(packet + to, packet + from, n)] *)
Definition memmove (to from n : Z) : M unit := l ← ld_bytes from n; st_bytes to l.

Definition BROADCAST_MAC : list Z := [255; 255; 255; 255; 255; 255].
Definition is_unicast_ethernet (ether : list Z) : bool :=
  if bool_decide (ether = BROADCAST_MAC) then false
  else negb (Z.land (get8 ether 0) 1 =? 1).

(** ** Lemmas *)

Lemma chain_find_find found l : chain_find found l = List.find found l.
Proof.
  destruct l as [|p l]; [done|]. unfold chain_find. revert p.
  induction l as [|q l IH]; intros p; cbn; [done|].
  destruct (found p) eqn:E; cbn; [by rewrite E|]. apply IH.
Qed.

#[local] Ltac x_access :=
  intros; unfold x_ld16, x_ld32, x_st16, x_st32, in_bounds;
  by match goal with |- context [?c && ?d] => replace (c && d) with true by lia end.
Lemma x_ld16_ok x o : 0 <= o -> o + 2 <= blen x -> x_ld16 x o = Ok (get16 x o).
Proof. x_access. Qed.
Lemma x_ld32_ok x o : 0 <= o -> o + 4 <= blen x -> x_ld32 x o = Ok (get32 x o).
Proof. x_access. Qed.
Lemma x_st16_ok x o v : 0 <= o -> o + 2 <= blen x -> x_st16 x o v = Ok (put16 x o v).
Proof. x_access. Qed.
Lemma x_st32_ok x o v : 0 <= o -> o + 4 <= blen x -> x_st32 x o v = Ok (put32 x o v).
Proof. x_access. Qed.

(** The invariant of the chain: one plugin per link type and per name. *)
Record chain_wf (l : list plugin) : Prop := {
  wf_dlts : NoDup (p_dlt <$> l);
  wf_names : NoDup (p_name <$> l);
  wf_range : Forall (fun p => p_dlt p < 65535) l
}.

Lemma find_by_key {K} `{EqDecision K} (key : plugin -> K) l p :
  NoDup (key <$> l) -> p ∈ l -> List.find (fun q => bool_decide (key q = key p)) l = Some p.
Proof.
  induction l as [|q l IH]; cbn; intros Hn Hp; [by apply elem_of_nil in Hp|].
  apply NoDup_cons in Hn as [Hq Hn]. apply elem_of_cons in Hp as [->|Hp].
  - by rewrite bool_decide_eq_true_2.
  - rewrite bool_decide_eq_false_2; [by apply IH|]. intros He. apply Hq. rewrite He.
    by apply list_elem_of_fmap_2.
Qed.
Lemma find_absent {K} `{EqDecision K} (key : plugin -> K) l (k : K) :
  List.find (fun q => bool_decide (key q = k)) l = None <-> k ∉ (key <$> l).
Proof.
  induction l as [|q l IH]; cbn.
  - split; [intros _; apply not_elem_of_nil|done].
  - rewrite not_elem_of_cons. case_bool_decide as E.
    + split; [done|]. intros [? _]. congruence.
    + rewrite IH. split; [|tauto]. split; congruence.
Qed.

Lemma getplugin_find ctx dlt :
  tcpedit_dlt_getplugin ctx dlt = List.find (fun p => bool_decide (p_dlt p = dlt)) (plugins ctx).
Proof.
  unfold tcpedit_dlt_getplugin. rewrite chain_find_find. induction (plugins ctx) as [|p l IH]; cbn; [done|].
  destruct (Z.eqb_spec (p_dlt p) dlt); [rewrite bool_decide_eq_true_2|rewrite bool_decide_eq_false_2]; auto.
Qed.
Lemma getplugin_byname_find ctx name :
  tcpedit_dlt_getplugin_byname ctx name = List.find (fun p => bool_decide (p_name p = name)) (plugins ctx).
Proof. apply chain_find_find. Qed.

Lemma getplugin_elem ctx p :
  chain_wf (plugins ctx) -> p ∈ plugins ctx -> tcpedit_dlt_getplugin ctx (p_dlt p) = Some p.
Proof. intros [Hd _ _] Hp. rewrite getplugin_find. by apply find_by_key. Qed.
Lemma getplugin_byname_elem ctx p :
  chain_wf (plugins ctx) -> p ∈ plugins ctx -> tcpedit_dlt_getplugin_byname ctx (p_name p) = Some p.
Proof. intros [_ Hn _] Hp. rewrite getplugin_byname_find. by apply find_by_key. Qed.

(** ** Properties *)

(** registering a plugin keeps the chain free of duplicates; it succeeds
    exactly when the link type and the name are new, and then both look-ups
    return the new plugin and every plugin that was there before. *)
Theorem addplugin_spec ctx new :
  chain_wf (plugins ctx) -> p_dlt new < 65535 ->
  exists rc ctx', tcpedit_dlt_addplugin ctx new = Ok (rc, ctx') /\ chain_wf (plugins ctx')
    /\ (rc = 0 <-> (p_dlt new ∉ (p_dlt <$> plugins ctx)) /\ (p_name new ∉ (p_name <$> plugins ctx)))
    /\ (rc <> 0 -> rc = -1 /\ ctx' = ctx)
    /\ (rc = 0 -> plugins ctx' = plugins ctx ++ [new]
          /\ forall p, p ∈ plugins ctx ++ [new] ->
               tcpedit_dlt_getplugin ctx' (p_dlt p) = Some p
               /\ tcpedit_dlt_getplugin_byname ctx' (p_name p) = Some p).
Proof.
  intros W Hlt. unfold tcpedit_dlt_addplugin.
  rewrite getplugin_find, getplugin_byname_find.
  destruct (List.find _ (plugins ctx)) eqn:Ed.
  { assert (~ (p_dlt new ∉ (p_dlt <$> plugins ctx))) by (rewrite <-find_absent, Ed; done).
    eexists _, _. split; [done|]. split_and!; [done|split; [lia|tauto]|done|lia]. }
  destruct (List.find (fun p => bool_decide (p_name p = _)) (plugins ctx)) eqn:En.
  { assert (~ (p_name new ∉ (p_name <$> plugins ctx))) by (rewrite <-find_absent, En; done).
    eexists _, _. split; [done|]. split_and!; [done|split; [lia|tauto]|done|lia]. }
  apply find_absent in Ed, En. replace (p_dlt new <? 65535) with true by lia.
  assert (W' : chain_wf (plugins ctx ++ [new])).
  { destruct W as [Wd Wn Wr]. split.
    - rewrite fmap_app. apply NoDup_app. split_and!; [done| |apply NoDup_singleton].
      intros x Hx. cbn. rewrite list_elem_of_singleton. by intros ->.
    - rewrite fmap_app. apply NoDup_app. split_and!; [done| |apply NoDup_singleton].
      intros x Hx. cbn. rewrite list_elem_of_singleton. by intros ->.
    - apply Forall_app. split; [done|]. by constructor. }
  eexists 0, _. split; [reflexivity|]. split_and!; [done|tauto|done|].
  intros _. split; [done|]. intros p Hp. split.
  - by apply (getplugin_elem (set_plugins ctx _)).
  - by apply (getplugin_byname_elem (set_plugins ctx _)).
Qed.

(** What tcpedit_dlt_validate decides for the three field bits: a missing
    protocol is reported (with the message of the destination address), a
    missing destination address reads past the message table, and a missing
    source address is accepted. *)
Theorem validate_spec enc dec :
  0 <= p_requires enc < 8 -> 0 <= p_provides dec < 8 ->
  let missing i := Z.testbit (p_requires enc) i && negb (Z.testbit (p_provides dec) i) in
  tcpedit_dlt_validate enc dec =
    (if missing 0 then Ok (-1, Some "Missing required Layer 2 destination address."%string)
     else if missing 2 then Err Oob else Ok (0, None)).
Proof.
  intros Hr Hp. unfold tcpedit_dlt_validate.
  destruct enc as [? ? r ? ?], dec as [? ? ? p ?]. cbn [p_requires p_provides] in *.
  assert (Hr' : r = 0 \/ r = 1 \/ r = 2 \/ r = 3 \/ r = 4 \/ r = 5 \/ r = 6 \/ r = 7) by lia.
  assert (Hp' : p = 0 \/ p = 1 \/ p = 2 \/ p = 3 \/ p = 4 \/ p = 5 \/ p = 6 \/ p = 7) by lia.
  clear Hr Hp. by destruct_or! Hr'; destruct_or! Hp'; subst; vm_compute.
Qed.

(** ** Witnesses *)

Definition plugin_raw_sample : plugin :=
  {| p_dlt := DLT_RAW; p_name := "raw"; p_requires := 0; p_provides := PLUGIN_MASK_PROTO; p_config := NoConfig |}.
Definition plugin_enet_sample : plugin :=
  {| p_dlt := DLT_EN10MB; p_name := "enet"; p_requires := 7; p_provides := 7; p_config := NoConfig |}.
Definition ctx_sample : tcpeditdlt := {|
  plugins := [plugin_enet_sample]; decoder := DLT_EN10MB; encoder := DLT_EN10MB; addr_type := ETHERNET;
  ctx_skip_broadcast := false; ctx_srcaddr := []; ctx_dstaddr := []; l2len := 0; proto := 0;
  decoded_extra := []
|}.

Lemma addplugin_witness :
  exists rc ctx', tcpedit_dlt_addplugin ctx_sample plugin_raw_sample = Ok (rc, ctx')
    /\ chain_wf (plugins ctx').
Proof.
  destruct (addplugin_spec ctx_sample plugin_raw_sample) as (rc & ctx' & H & W & _).
  - split; [apply NoDup_singleton|apply NoDup_singleton|by constructor].
  - concrete.
  - by exists rc, ctx'.
Defined.

Lemma validate_witness :
  tcpedit_dlt_validate plugin_enet_sample plugin_raw_sample = Err Oob.
Proof. rewrite (validate_spec plugin_enet_sample plugin_raw_sample); concrete. Defined.
