(* ===== verification/En10mb.v ===== *)
(** * The Ethernet plugin: [ddtcpreplay/src/tcpedit/plugins/dlt_en10mb/en10mb.c]

    Decoding and encoding of 802.3 and 802.1Q headers in place.  [frame] is the
    abstract view of a packet: addresses, optional tag, type and payload.  The
    results are stated for a buffer that starts with the bytes of a frame. *)

From Stdlib Require Import ZArith Lia.
From stdpp Require Import base list strings.
From S2P Require Import Prelude Wire TcpeditTypes Dlt.

Abbreviation TCPEDIT_MAC_MASK_SMAC1 := 1.
Abbreviation TCPEDIT_MAC_MASK_SMAC2 := 2.
Abbreviation TCPEDIT_MAC_MASK_DMAC1 := 4.
Abbreviation TCPEDIT_MAC_MASK_DMAC2 := 8.

(** en10mb_extra_t: offsets and size *)
Abbreviation x_vlan := 0.
Abbreviation x_vlan_tag := 4.
Abbreviation x_vlan_pri := 6.
Abbreviation x_vlan_cfi := 8.
Abbreviation sizeof_en10mb_extra := 12.

(** ** Operations *)

(** The plugin as dlt_en10mb_register adds it to the chain. *)
Definition dlt_en10mb_plugin : plugin := {|
  p_dlt := DLT_EN10MB; p_name := "enet";
  p_requires := PLUGIN_MASK_PROTO + PLUGIN_MASK_SRCADDR + PLUGIN_MASK_DSTADDR;
  p_provides := PLUGIN_MASK_PROTO + PLUGIN_MASK_SRCADDR + PLUGIN_MASK_DSTADDR;
  p_config := NoConfig
|}.
Definition dlt_en10mb_register (ctx : tcpeditdlt) : res (Z * tcpeditdlt) :=
  tcpedit_dlt_addplugin ctx dlt_en10mb_plugin.

Definition en10mb_default : en10mb_config := {|
  intf1_dmac := replicate 6 0; intf1_smac := replicate 6 0;
  intf2_dmac := replicate 6 0; intf2_smac := replicate 6 0;
  mac_mask := 0; vlan := VLAN_OFF; vlan_tag := 65535; vlan_pri := 255; vlan_cfi := 255
|}.

(** [plugin->config = c] for the plugin of link type [dlt]. *)
Definition set_config (ctx : tcpeditdlt) (dlt : Z) (c : plugin_config) : tcpeditdlt :=
  set_plugins ctx ((fun p => if p_dlt p =? dlt then
     {| p_dlt := p_dlt p; p_name := p_name p; p_requires := p_requires p;
        p_provides := p_provides p; p_config := c |} else p) <$> plugins ctx).
Definition set_extra (ctx : tcpeditdlt) (x : buf) : tcpeditdlt :=
  set_decoded ctx (ctx_srcaddr ctx) (ctx_dstaddr ctx) (l2len ctx) (proto ctx) x.

Definition dlt_en10mb_init (ctx : tcpeditdlt) : Z * tcpeditdlt :=
  match tcpedit_dlt_getplugin ctx DLT_EN10MB with
  | None => (-1, ctx)
  | Some _ =>
      (0, set_config (set_extra ctx (replicate (Z.to_nat sizeof_en10mb_extra) 0)) DLT_EN10MB (En10mbConfig en10mb_default))
  end.

(** [plugin = tcpedit_dlt_getplugin(ctx, dlt_value); config = plugin->config] *)
Definition en10mb_config_of (ctx : tcpeditdlt) : res en10mb_config :=
  match tcpedit_dlt_getplugin ctx DLT_EN10MB with
  | Some {| p_config := En10mbConfig c |} => Ok c
  | _ => Err Undef
  end.

Definition dlt_en10mb_decode (ctx : tcpeditdlt) (pktlen : Z) : M (Z * tcpeditdlt) :=
  _ ← assertM (14 <=? pktlen);
  dst ← ld_bytes 0 ETHER_ADDR_LEN;
  src ← ld_bytes 6 ETHER_ADDR_LEN;
  extra ← lift (x_st32 (decoded_extra ctx) x_vlan 0);
  ether_type ← ld16 o_ether_type;
  if bswap16 ether_type =? ETHERTYPE_VLAN then
    vlan_len ← ld16 o_vlan_len;
    extra ← lift (x_st32 extra x_vlan 1);
    tci ← ld16 o_vlan_tci;
    extra ← lift (x_st16 extra x_vlan_tag (Z.land tci 4095));
    extra ← lift (x_st16 extra x_vlan_pri (Z.land tci 57344));
    extra ← lift (x_st16 extra x_vlan_cfi (Z.land tci 4096));
    mret (0, set_decoded ctx src dst TCPR_802_1Q_H vlan_len extra)
  else mret (0, set_decoded ctx src dst TCPR_802_3_H ether_type extra).

(** The length of the new header; 0 when no case applies. *)
Definition new_l2len (ctx : tcpeditdlt) (config : en10mb_config) : Z :=
  if decoder ctx =? DLT_EN10MB then
    if ((l2len ctx =? TCPR_802_1Q_H) && bool_decide (vlan config = VLAN_OFF))
       || bool_decide (vlan config = VLAN_ADD) then TCPR_802_1Q_H
    else if ((l2len ctx =? TCPR_802_3_H) && bool_decide (vlan config = VLAN_OFF))
            || bool_decide (vlan config = VLAN_DEL) then TCPR_802_3_H
    else 0
  else if bool_decide (vlan config = VLAN_ADD) then TCPR_802_1Q_H else TCPR_802_3_H.

(** The address written for one field: the user's if its mask bit is set and the
    packet's may be replaced, the packet's if it has one. *)
Definition choose_mac (ctx : tcpeditdlt) (config : en10mb_config) (mask : Z) (user orig : list Z)
    : option (list Z) :=
  if negb (Z.land (mac_mask config) mask =? 0) then
    if (bool_decide (addr_type ctx = ETHERNET)
        && ((ctx_skip_broadcast ctx && is_unicast_ethernet orig) || negb (ctx_skip_broadcast ctx)))
       || negb (bool_decide (addr_type ctx = ETHERNET))
    then Some user else Some orig
  else if bool_decide (addr_type ctx = ETHERNET) then Some orig
  else None.

(** Source, then destination address; [false] when one is missing. *)
Definition st_macs (ctx : tcpeditdlt) (config : en10mb_config)
    (smask : Z) (smac : list Z) (dmask : Z) (dmac : list Z) : M bool :=
  match choose_mac ctx config smask smac (ctx_srcaddr ctx) with
  | None => mret false
  | Some src =>
      _ ← st_bytes 6 src;
      match choose_mac ctx config dmask dmac (ctx_dstaddr ctx) with
      | None => mret false
      | Some dst => _ ← st_bytes 0 dst; mret true
      end
  end.

(** One of the three parts of the tag: the user's value if given, else the
    packet's if it was tagged. *)
Definition tci_part (given : bool) (new : Z) (extra : buf) (o : Z) : res (option Z) :=
  if given then Ok (Some new)
  else
    is_vlan ← x_ld32 extra x_vlan;
    if negb (is_vlan =? 0) then v ← x_ld16 extra o; Ok (Some v) else Ok None.

(** [vlan->vlan_priority_c_vid += v] *)
Definition add_tci (v : Z) : M unit := t ← ld16 o_vlan_tci; st16 o_vlan_tci (u16 (t + v)).

Definition st_tci (config : en10mb_config) (extra : buf) : M bool :=
  tag ← lift (tci_part (vlan_tag config <? 65535) (bswap16 (Z.land (vlan_tag config) 4095)) extra x_vlan_tag);
  match tag with None => mret false | Some tag =>
    _ ← st16 o_vlan_tci tag;
    pri ← lift (tci_part (vlan_pri config <? 255) (bswap16 (Z.shiftl (vlan_pri config) 13)) extra x_vlan_pri);
    match pri with None => mret false | Some pri =>
      _ ← add_tci pri;
      cfi ← lift (tci_part (vlan_cfi config <? 255) (bswap16 (Z.shiftl (vlan_cfi config) 12)) extra x_vlan_cfi);
      match cfi with None => mret false | Some cfi => _ ← add_tci cfi; mret true end
    end
  end.

(** The header stage of the encoder: [newl2len] bytes are free for the new
    header. *)
Definition encode_header (ctx : tcpeditdlt) (config : en10mb_config) (newl2len pktlen : Z)
    (dir : tcpr_dir) : M Z :=
  ok ← match dir with
       | DIR_C2S => st_macs ctx config TCPEDIT_MAC_MASK_SMAC1 (intf1_smac config)
                      TCPEDIT_MAC_MASK_DMAC1 (intf1_dmac config)
       | DIR_S2C => st_macs ctx config TCPEDIT_MAC_MASK_SMAC2 (intf2_smac config)
                      TCPEDIT_MAC_MASK_DMAC2 (intf2_dmac config)
       | _ => mret false
       end;
  if negb ok then mret (-1)
  else if newl2len =? TCPR_802_3_H then
    _ ← st16 o_ether_type (proto ctx); mret pktlen
  else if newl2len =? TCPR_802_1Q_H then
    _ ← st16 o_vlan_len (proto ctx);
    _ ← st16 o_ether_type (bswap16 ETHERTYPE_VLAN);
    ok ← st_tci config (decoded_extra ctx);
    mret (if (ok : bool) then pktlen else -1)
  else mret (-1).

Definition dlt_en10mb_encode (ctx : tcpeditdlt) (pktlen : Z) (dir : tcpr_dir) : M Z :=
  if pktlen <? 14 then mret (-1) else
  config ← lift (en10mb_config_of ctx);
  let newl2len := new_l2len ctx config in
  _ ← (if negb (newl2len =? l2len ctx) then memmove newl2len (l2len ctx) (pktlen - l2len ctx) else mret tt);
  encode_header ctx config newl2len (pktlen + (newl2len - l2len ctx)) dir.

Definition dlt_en10mb_proto (ctx : tcpeditdlt) (pktlen : Z) : M Z :=
  _ ← assertM (negb (pktlen =? 0));
  ether_type ← ld16 o_ether_type;
  if bswap16 ether_type =? ETHERTYPE_VLAN then ld16 o_vlan_len else mret ether_type.

Definition dlt_en10mb_l2len (ctx : tcpeditdlt) (pktlen : Z) : M Z :=
  _ ← assertM (negb (pktlen =? 0));
  ether_type ← ld16 o_ether_type;
  mret (if bswap16 ether_type =? ETHERTYPE_VLAN then 18 else 14).

Definition dlt_en10mb_get_layer3 (ctx : tcpeditdlt) (pktlen : Z) : M (option Z) :=
  _ ← assertM (negb (pktlen =? 0));
  len ← dlt_en10mb_l2len ctx pktlen;
  tcpedit_dlt_l3data_copy pktlen len.

Definition dlt_en10mb_merge_layer3 (ctx : tcpeditdlt) (pktlen l3data : Z) : M (option Z) :=
  len ← dlt_en10mb_l2len ctx pktlen;
  _ ← assertM (len <=? pktlen);
  tcpedit_dlt_l3data_merge pktlen len.

Definition dlt_en10mb_get_mac (mac : mac_type) (pktlen : Z) : M (list Z) :=
  _ ← assertM (negb (pktlen =? 0));
  match mac with
  | SRC_MAC => ld_bytes 6 ETHER_ADDR_LEN
  | DST_MAC => ld_bytes 0 ETHER_ADDR_LEN
  end.

Definition dlt_en10mb_ops : plugin_ops := {|
  plugin_decode := dlt_en10mb_decode; plugin_encode := dlt_en10mb_encode;
  plugin_proto := dlt_en10mb_proto; plugin_l2len := dlt_en10mb_l2len;
  plugin_get_layer3 := dlt_en10mb_get_layer3; plugin_merge_layer3 := dlt_en10mb_merge_layer3;
  plugin_l2addr_type := ETHERNET
|}.

(** ** Frames *)

Record frame := {
  f_dst : list Z;
  f_src : list Z;
  f_tag : option (Z * Z);
  f_type : Z * Z;
  f_payload : list Z
}.

(** A two-byte field as the code loads it. *)
Definition le16 (x : Z * Z) : Z := x.1 + 256 * x.2.
Definition of_le16 (v : Z) : Z * Z := (u8 v, u8 (v / 256)).

Definition frame_header (f : frame) : list Z :=
  f_dst f ++ f_src f
  ++ match f_tag f with None => [] | Some (t0, t1) => [129; 0; t0; t1] end
  ++ [(f_type f).1; (f_type f).2].
Definition frame_bytes (f : frame) : list Z := frame_header f ++ f_payload f.

Record frame_wf (f : frame) : Prop := {
  fw_dst : length (f_dst f) = 6%nat;
  fw_src : length (f_src f) = 6%nat;
  fw_type0 : is_u8 (f_type f).1;
  fw_type1 : is_u8 (f_type f).2;
  fw_tag : forall t0 t1, f_tag f = Some (t0, t1) -> is_u8 t0 /\ is_u8 t1;
  fw_untagged : f_tag f = None -> f_type f <> (129, 0)
}.

Definition hlen (f : frame) : Z := if f_tag f is Some _ then TCPR_802_1Q_H else TCPR_802_3_H.

(** The tag an encoder with configuration [c] writes over the old one. *)
Definition part (given : bool) (new : Z) (old : option Z) (mask : Z) : option Z :=
  if given then Some new else (fun t => Z.land t mask) <$> old.
Definition new_tci (c : en10mb_config) (old : option Z) : option Z :=
  tag ← part (vlan_tag c <? 65535) (bswap16 (Z.land (vlan_tag c) 4095)) old 4095;
  pri ← part (vlan_pri c <? 255) (bswap16 (Z.shiftl (vlan_pri c) 13)) old 57344;
  cfi ← part (vlan_cfi c <? 255) (bswap16 (Z.shiftl (vlan_cfi c) 12)) old 4096;
  Some (u16 (u16 (tag + pri) + cfi)).

(** The tag of the new frame; [None] when the encoder refuses. *)
Definition new_tag (c : en10mb_config) (old : option (Z * Z)) : option (option (Z * Z)) :=
  match vlan c, old with
  | VLAN_DEL, _ | VLAN_OFF, None => Some None
  | VLAN_OFF, Some _ | VLAN_ADD, _ => (Some ∘ of_le16) <$> new_tci c (le16 <$> old)
  end.

Definition smac_of (ctx : tcpeditdlt) (c : en10mb_config) (dir : tcpr_dir) (orig : list Z) : option (list Z) :=
  match dir with
  | DIR_C2S => choose_mac ctx c TCPEDIT_MAC_MASK_SMAC1 (intf1_smac c) orig
  | DIR_S2C => choose_mac ctx c TCPEDIT_MAC_MASK_SMAC2 (intf2_smac c) orig
  | _ => None
  end.
Definition dmac_of (ctx : tcpeditdlt) (c : en10mb_config) (dir : tcpr_dir) (orig : list Z) : option (list Z) :=
  match dir with
  | DIR_C2S => choose_mac ctx c TCPEDIT_MAC_MASK_DMAC1 (intf1_dmac c) orig
  | DIR_S2C => choose_mac ctx c TCPEDIT_MAC_MASK_DMAC2 (intf2_dmac c) orig
  | _ => None
  end.

(** The abstract edit. *)
Definition edit_frame (ctx : tcpeditdlt) (c : en10mb_config) (dir : tcpr_dir) (f : frame) : option frame :=
  src ← smac_of ctx c dir (f_src f);
  dst ← dmac_of ctx c dir (f_dst f);
  tag ← new_tag c (f_tag f);
  Some {| f_dst := dst; f_src := src; f_tag := tag; f_type := f_type f; f_payload := f_payload f |}.

(** ** Lemmas *)

Lemma le16_of_le16 v : is_u16 v -> le16 (of_le16 v) = v.
Proof. unfold is_u16, le16, of_le16, u8. cbn. intros. dlia. Qed.
Lemma le16_put v : is_u16 v -> le16 (u8 v, u8 (v / 256)) = v.
Proof. apply le16_of_le16. Qed.
Lemma of_le16_le16 t : is_u8 t.1 -> is_u8 t.2 -> of_le16 (le16 t) = t.
Proof. unfold is_u8, le16, of_le16, u8. destruct t as [a b]; cbn. intros. f_equal; dlia. Qed.

Lemma blen_hdr f : frame_wf f -> blen (frame_header f) = hlen f.
Proof.
  intros [Hd Hs _ _ _ _]. unfold frame_header, hlen, blen. rewrite !length_app, Hd, Hs.
  destruct (f_tag f) as [[]|]; cbn; lia.
Qed.

(** A list of known length, as its elements. *)
Lemma list6 (l : list Z) : length l = 6%nat -> exists a b c d e g, l = [a; b; c; d; e; g].
Proof. do 6 (destruct l as [|? l]; [done|]). destruct l; [|done]. intros _. by eexists _, _, _, _, _, _. Qed.

Lemma is_vlan_tag : bswap16 (le16 (129, 0)) = ETHERTYPE_VLAN.
Proof. done. Qed.
Lemma not_vlan t : is_u8 t.1 -> is_u8 t.2 -> t <> (129, 0) -> (bswap16 (le16 t) =? ETHERTYPE_VLAN) = false.
Proof.
  destruct t as [a b]. unfold is_u8, bswap16, le16; cbn. intros Ha Hb Hn. apply Z.eqb_neq. intros He.
  apply Hn. f_equal; dlia.
Qed.

Lemma land_add a b c : Z.land b c = 0 -> Z.land a b + Z.land a c = Z.land a (Z.lor b c).
Proof.
  intros H. rewrite Z.land_lor_distr_r, lor_add; [done|].
  apply Z.bits_inj'. intros n Hn. apply (f_equal (fun x => Z.testbit x n)) in H.
  rewrite !Z.land_spec in *. rewrite Z.bits_0 in *.
  by destruct (Z.testbit a n), (Z.testbit b n), (Z.testbit c n).
Qed.
Lemma tci_parts t : is_u16 t -> Z.land t 4095 + Z.land t 57344 + Z.land t 4096 = t.
Proof.
  intros Ht. rewrite !land_add by done. change (Z.lor _ 4096) with (Z.ones 16).
  rewrite Z.land_ones by lia. apply Z.mod_small, Ht.
Qed.

(** Moving the payload: what follows the header stays a payload, and the header
    gets its new size. *)
Lemma memmove_payload h p r to Q :
  0 <= to -> (to <= blen h + blen r) ->
  (forall h' r', blen h' = to -> blen (h' ++ p ++ r') = blen (h ++ p ++ r) ->
     (bytes_ok (h ++ p ++ r) -> bytes_ok r') -> Q tt (h' ++ p ++ r')) ->
  wp (memmove to (blen h) (blen p)) Q (h ++ p ++ r).
Proof.
  intros H0 Hto HQ. unfold memmove.
  pose proof (blen_nonneg p). pose proof (blen_nonneg h). pose proof (blen_nonneg r).
  assert (Hl : blen (h ++ p ++ r) = blen h + blen p + blen r).
  { unfold blen. rewrite !length_app. lia. }
  apply wp_bind, wp_ld_bytes; [lia..|].
  replace (slice (h ++ p ++ r) (blen h) (blen p)) with p.
  2:{ unfold slice, blen. rewrite !Nat2Z.id, drop_app_length, take_app_length. done. }
  apply wp_st_bytes; [lia..|]. unfold put_bytes at 1.
  specialize (HQ (take (Z.to_nat to) (h ++ p ++ r))
                 (drop (Z.to_nat to + length p) (h ++ p ++ r))).
  apply HQ; [..|apply Forall_drop];
    unfold blen in *; rewrite ?length_app, ?length_take, ?length_drop, ?length_app; lia.
Qed.

(** The context after a frame has been decoded. *)
Record extra_ok (f : frame) (x : buf) : Prop := {
  eo_len : blen x = sizeof_en10mb_extra;
  eo_vlan : get32 x x_vlan = if f_tag f is Some _ then 1 else 0;
  eo_tag : forall t, f_tag f = Some t ->
    get16 x x_vlan_tag = Z.land (le16 t) 4095 /\ get16 x x_vlan_pri = Z.land (le16 t) 57344
    /\ get16 x x_vlan_cfi = Z.land (le16 t) 4096
}.
Definition decoded (ctx : tcpeditdlt) (f : frame) (ctx' : tcpeditdlt) : Prop :=
  exists x, extra_ok f x
    /\ ctx' = set_decoded ctx (f_src f) (f_dst f) (hlen f) (le16 (f_type f)) x.

Lemma land_u16 t m : 0 <= t -> 0 <= m < 65536 -> is_u16 (Z.land t m).
Proof.
  intros Ht Hm. unfold is_u16. split; [apply Z.land_nonneg; lia|].
  change 65536 with (2 ^ 16). destruct (Z.eq_dec (Z.land t m) 0) as [->|Hn]; [lia|].
  assert (0 <= Z.land t m) by (apply Z.land_nonneg; lia).
  apply Z.log2_lt_pow2; [lia|]. eapply Z.le_lt_trans; [apply Z.log2_land; lia|].
  destruct (Z.eq_dec m 0) as [->|]; [cbn in *; rewrite Z.land_0_r in Hn; done|].
  eapply Z.le_lt_trans; [apply Z.le_min_r|]. apply Z.log2_lt_pow2; lia.
Qed.

Ltac x_steps :=
  repeat first [ progress wp_steps
    | eapply wp_lift; [first [apply x_st32_ok|apply x_st16_ok]; bnd|]; cbv beta ].

Lemma decode_ok ctx f r :
  frame_wf f -> blen (decoded_extra ctx) = sizeof_en10mb_extra ->
  wp (dlt_en10mb_decode ctx (blen (frame_bytes f)))
     (fun rc b' => b' = frame_bytes f ++ r /\ rc.1 = 0 /\ decoded ctx f rc.2) (frame_bytes f ++ r).
Proof.
  intros W Hx. pose proof (blen_hdr f W) as Hh. unfold dlt_en10mb_decode.
  assert (Hn : blen (frame_bytes f) = hlen f + blen (f_payload f)).
  { unfold frame_bytes, blen in *. rewrite length_app. lia. }
  assert (14 <= hlen f <= 18) by (unfold hlen; destruct (f_tag f); lia).
  pose proof (blen_nonneg (f_payload f)). pose proof (blen_nonneg r).
  assert (Hb : blen (frame_bytes f ++ r) = hlen f + blen (f_payload f) + blen r).
  { unfold blen in *. rewrite length_app. lia. }
  apply wp_bind, wp_assert; [lia|]. x_steps.
  destruct W as [Hd Hs Ht0 Ht1 Htag Hun]. unfold decoded, frame_bytes, frame_header, hlen in *.
  apply list6 in Hd as (d0 & d1 & d2 & d3 & d4 & d5 & Hd), Hs as (s0 & s1 & s2 & s3 & s4 & s5 & Hs).
  destruct f as [fd fs [[t0 t1]|] [y0 y1] p]; cbn [f_dst f_src f_tag f_type f_payload fst snd] in *; subst fd fs.
  - change (get16 _ 12) with (le16 (129, 0)). rewrite is_vlan_tag, Z.eqb_refl. x_steps.
    split_and!; [done..|]. eexists. split; [|reflexivity]. change (get16 _ 14) with (le16 (t0, t1)).
    destruct (Htag t0 t1 eq_refl) as [U0 U1].
    assert (0 <= le16 (t0, t1)) by (unfold is_u8, le16 in *; cbn; lia).
    split; [by autorewrite with blen| |].
    + rewrite !get32_put16_ne, get32_put32_eq by bnd. done.
    + intros t [= <-]. split_and!.
      * rewrite !get16_put16_ne, get16_put16_eq by bnd. apply u16_id, land_u16; lia.
      * rewrite !get16_put16_ne, get16_put16_eq by bnd. apply u16_id, land_u16; lia.
      * rewrite get16_put16_eq by bnd. apply u16_id, land_u16; lia.
  - change (get16 _ 12) with (le16 (y0, y1)). rewrite not_vlan by auto. x_steps.
    split_and!; [done..|]. eexists. split; [|reflexivity].
    split; [by autorewrite with blen| |done]. rewrite get32_put32_eq by bnd. done.
Qed.

(** Stores at a known place of a concatenation. *)
Lemma put16_app h x y t o v :
  o = blen h -> put16 (h ++ x :: y :: t) o v = h ++ u8 v :: u8 (v / 256) :: t.
Proof.
  intros ->. unfold put16, put8, blen. rewrite Nat2Z.id.
  replace (Z.to_nat (Z.of_nat (length h) + 1)) with (length h + 1)%nat by lia.
  by rewrite !insert_app_r_alt, Nat.sub_diag, Nat.add_sub_swap, Nat.sub_diag by lia.
Qed.
Lemma get16_app h x y t o : o = blen h -> get16 (h ++ x :: y :: t) o = le16 (x, y).
Proof.
  intros ->. unfold get16, le16, blen. rewrite !get8_lookup by lia.
  rewrite Nat2Z.id. replace (Z.to_nat (Z.of_nat (length h) + 1)) with (length h + 1)%nat by lia.
  by rewrite !lookup_app_r, Nat.sub_diag, Nat.add_sub_swap, Nat.sub_diag by lia.
Qed.
Lemma blen_app l k : blen (l ++ k) = blen l + blen k.
Proof. unfold blen. rewrite length_app. lia. Qed.
Lemma blen_cons x l : blen (x :: l) = 1 + blen l.
Proof. unfold blen. cbn. lia. Qed.

Lemma st_macs_ok ctx c sm smac dm dmac s d t :
  length smac = 6%nat -> length dmac = 6%nat -> length (ctx_srcaddr ctx) = 6%nat ->
  length (ctx_dstaddr ctx) = 6%nat -> length s = 6%nat -> length d = 6%nat ->
  wp (st_macs ctx c sm smac dm dmac)
     (fun ok b' => match choose_mac ctx c sm smac (ctx_srcaddr ctx),
                         choose_mac ctx c dm dmac (ctx_dstaddr ctx) with
                   | Some src, Some dst => ok = true /\ b' = dst ++ src ++ t
                   | _, _ => ok = false
                   end) (d ++ s ++ t).
Proof.
  intros Hsm Hdm Hsa Hda Hs Hd. unfold st_macs.
  assert (Hlen : forall m user orig l, length user = 6%nat -> length orig = 6%nat ->
            choose_mac ctx c m user orig = Some l -> length l = 6%nat).
  { unfold choose_mac. intros. repeat case_match; simplify_eq; done. }
  pose proof (blen_nonneg t). assert (Hb : blen (d ++ s ++ t) = 12 + blen t).
  { rewrite !blen_app. unfold blen. lia. }
  destruct (choose_mac ctx c sm smac _) as [src|] eqn:Es; [|done].
  apply Hlen in Es; [|done..].
  apply wp_bind, wp_st_bytes; [lia|unfold blen in *; lia|].
  replace (put_bytes (d ++ s ++ t) 6 src) with (d ++ src ++ t).
  2:{ unfold put_bytes. change (Z.to_nat 6) with 6%nat.
      rewrite take_app_length' by done. f_equal. f_equal. rewrite Es.
      rewrite app_assoc, drop_app_length'; [done|]. rewrite length_app. lia. }
  destruct (choose_mac ctx c dm dmac _) as [dst|] eqn:Ed; [|done].
  apply Hlen in Ed; [|done..].
  apply wp_bind, wp_st_bytes; [lia|rewrite !blen_app; unfold blen in *; lia|].
  apply wp_ret. split; [done|]. unfold put_bytes. change (Z.to_nat 0) with 0%nat. cbn [take app].
  rewrite Ed. by rewrite drop_app_length' by lia.
Qed.

Lemma tci_part_ok f x given new o mask :
  extra_ok f x -> 0 <= o -> o + 2 <= sizeof_en10mb_extra ->
  (forall t, f_tag f = Some t -> get16 x o = Z.land (le16 t) mask) ->
  tci_part given new x o = Ok (part given new (le16 <$> f_tag f) mask).
Proof.
  intros [Hl Hv _] H0 Ho Ht. unfold tci_part, part. destruct given; [done|].
  rewrite x_ld32_ok by lia. unfold mbind, res_bind. rewrite Hv. destruct (f_tag f) as [t|] eqn:E; cbn; [|done].
  rewrite x_ld16_ok by lia. by rewrite (Ht t eq_refl).
Qed.

Lemma part_range f given new mask v :
  frame_wf f -> is_u16 new -> 0 <= mask < 65536 ->
  part given new (le16 <$> f_tag f) mask = Some v -> is_u16 v.
Proof.
  intros W Hn Hm. unfold part. destruct given; [by intros [= <-]|].
  destruct (f_tag f) as [[t0 t1]|] eqn:E; cbn; [|done]. intros [= <-].
  destruct (fw_tag _ W _ _ E). apply land_u16; [|lia]. unfold is_u8, le16 in *. cbn. lia.
Qed.

Lemma st_tci_ok c f x h a b t :
  frame_wf f -> extra_ok f x -> blen h = 14 ->
  wp (st_tci c x)
     (fun ok b' => match new_tci c (le16 <$> f_tag f) with
                   | Some v => ok = true /\ b' = h ++ u8 v :: u8 (v / 256) :: t
                   | None => ok = false
                   end) (h ++ a :: b :: t).
Proof.
  intros W X Hh. pose proof (blen_nonneg t). destruct (X) as [_ _ Xt]. unfold st_tci, new_tci.
  assert (Hb : forall a b, blen (h ++ a :: b :: t) = 16 + blen t).
  { intros. rewrite blen_app, !blen_cons. lia. }
  apply wp_bind. eapply wp_lift; [apply (tci_part_ok f) with (mask := 4095); [done|lia..|]; apply Xt|].
  destruct (part _ _ _ 4095) as [tag|] eqn:E1; [|done]. cbn [mbind option_bind].
  apply wp_bind, wp_st16; [lia|rewrite Hb; lia|]. rewrite put16_app by done.
  apply wp_bind. eapply wp_lift; [apply (tci_part_ok f) with (mask := 57344); [done|lia..|]; apply Xt|].
  destruct (part _ _ _ 57344) as [pri|] eqn:E2; [|done].
  apply part_range in E1; [|done|apply bswap16_range|lia].
  unfold add_tci. apply wp_bind, wp_bind, wp_ld16; [lia|rewrite Hb; lia|].
  apply wp_st16; [lia|rewrite Hb; lia|]. rewrite get16_app, put16_app by done.
  apply wp_bind. eapply wp_lift; [apply (tci_part_ok f) with (mask := 4096); [done|lia..|]; apply Xt|].
  destruct (part _ _ _ 4096) as [cfi|] eqn:E3; [|done].
  apply wp_bind, wp_bind, wp_ld16; [lia|rewrite Hb; lia|].
  apply wp_st16; [lia|rewrite Hb; lia|]. rewrite get16_app, put16_app by done.
  apply wp_ret. split; [done|].
  rewrite !le16_put by auto using u16_range. done.
Qed.

Record config_wf (c : en10mb_config) : Prop := {
  cw_dmac1 : length (intf1_dmac c) = 6%nat; cw_smac1 : length (intf1_smac c) = 6%nat;
  cw_dmac2 : length (intf2_dmac c) = 6%nat; cw_smac2 : length (intf2_smac c) = 6%nat;
  cw_bytes : bytes_ok (intf1_dmac c ++ intf1_smac c ++ intf2_dmac c ++ intf2_smac c)
}.

Definition new_hlen (c : en10mb_config) (f : frame) : Z :=
  match vlan c with VLAN_OFF => hlen f | VLAN_DEL => TCPR_802_3_H | VLAN_ADD => TCPR_802_1Q_H end.

Lemma new_l2len_eq ctx c f :
  decoder ctx = DLT_EN10MB -> l2len ctx = hlen f -> new_l2len ctx c = new_hlen c f.
Proof.
  intros Hd Hl. unfold new_l2len, new_hlen. rewrite Hd, Hl. unfold hlen.
  destruct (vlan c), (f_tag f); reflexivity.
Qed.
Lemma new_hlen_cases c f :
  (new_hlen c f = 14 /\ new_tag c (f_tag f) = Some None)
  \/ (new_hlen c f = 18
      /\ new_tag c (f_tag f) = (Some ∘ of_le16) <$> new_tci c (le16 <$> f_tag f)).
Proof. unfold new_hlen, new_tag, hlen. destruct (vlan c), (f_tag f); auto. Qed.

Lemma st_macs_dir ctx c dir f ctx0 d s t :
  frame_wf f -> config_wf c -> decoded ctx0 f ctx -> length s = 6%nat -> length d = 6%nat ->
  wp (match dir with
      | DIR_C2S => st_macs ctx c TCPEDIT_MAC_MASK_SMAC1 (intf1_smac c) TCPEDIT_MAC_MASK_DMAC1 (intf1_dmac c)
      | DIR_S2C => st_macs ctx c TCPEDIT_MAC_MASK_SMAC2 (intf2_smac c) TCPEDIT_MAC_MASK_DMAC2 (intf2_dmac c)
      | _ => mret false
      end)
     (fun ok b' => match smac_of ctx c dir (f_src f), dmac_of ctx c dir (f_dst f) with
                   | Some src, Some dst => ok = true /\ b' = dst ++ src ++ t
                   | _, _ => ok = false
                   end) (d ++ s ++ t).
Proof.
  intros [Hd Hs _ _ _ _] [C1 C2 C3 C4 _] (x & X & ->) Hs' Hd'.
  by destruct dir; [done|done|apply st_macs_ok..].
Qed.

Lemma smac_of_wf ctx c dir l l' :
  config_wf c -> length l = 6%nat -> smac_of ctx c dir l = Some l' ->
  length l' = 6%nat /\ (bytes_ok l -> bytes_ok l').
Proof.
  intros [C1 C2 C3 C4 Cb] Hl H. unfold bytes_ok in Cb. rewrite !Forall_app in Cb.
  unfold smac_of, choose_mac in H. repeat case_match; simplify_eq; intuition.
Qed.
Lemma dmac_of_wf ctx c dir l l' :
  config_wf c -> length l = 6%nat -> dmac_of ctx c dir l = Some l' ->
  length l' = 6%nat /\ (bytes_ok l -> bytes_ok l').
Proof.
  intros [C1 C2 C3 C4 Cb] Hl H. unfold bytes_ok in Cb. rewrite !Forall_app in Cb.
  unfold dmac_of, choose_mac in H. repeat case_match; simplify_eq; intuition.
Qed.

Lemma split12 h n : blen h = 12 + n -> 0 <= n -> exists d s u,
  h = d ++ s ++ u /\ length d = 6%nat /\ length s = 6%nat /\ blen u = n.
Proof.
  intros Hh Hn. unfold blen in *. exists (take 6 h), (take 6 (drop 6 h)), (drop 6 (drop 6 h)).
  split; [by rewrite !take_drop|]. rewrite !length_take, !length_drop. lia.
Qed.
Lemma list2 (l : list Z) : blen l = 2 -> exists a b, l = [a; b].
Proof. unfold blen. destruct l as [|? [|? []]]; cbn; try lia. by eexists _, _. Qed.

Lemma encode_header_ok ctx0 ctx c f h r dir n :
  frame_wf f -> config_wf c -> decoded ctx0 f ctx -> blen h = new_hlen c f ->
  wp (encode_header ctx c (new_hlen c f) n dir)
     (fun m b' => match edit_frame ctx c dir f with
                  | Some f' => m = n /\ hlen f' = new_hlen c f /\ b' = frame_bytes f' ++ r
                  | None => m = -1
                  end) (h ++ f_payload f ++ r).
Proof.
  intros W C D Hh. unfold encode_header. pose proof (blen_nonneg (f_payload f ++ r)) as Hr.
  destruct (split12 h (new_hlen c f - 12)) as (d & s & u & -> & Hd & Hs & Hu);
    [lia|destruct (new_hlen_cases c f); lia|].
  apply wp_bind. rewrite <-!app_assoc.
  eapply wp_mono; [|by apply (st_macs_dir ctx c dir f ctx0)]. intros ok b1 H1. unfold edit_frame.
  destruct (smac_of ctx c dir (f_src f)) as [src|] eqn:Es; [|by subst ok].
  destruct (dmac_of ctx c dir (f_dst f)) as [dst|] eqn:Ed; [|by subst ok].
  destruct H1 as [-> ->]. cbn [negb mbind option_bind].
  apply smac_of_wf in Es as [Es _]; [|done|apply W]. apply dmac_of_wf in Ed as [Ed _]; [|done|apply W].
  assert (H12 : blen (dst ++ src) = 12) by (rewrite blen_app; unfold blen; lia).
  destruct D as (x & X & ->). cbn [proto decoded_extra set_decoded].
  pose proof (of_le16_le16 _ (fw_type0 _ W) (fw_type1 _ W)) as Hty.
  assert (Hy : u8 (le16 (f_type f)) = (f_type f).1 /\ u8 (le16 (f_type f) / 256) = (f_type f).2)
    by (by rewrite <-Hty at 2 4).
  destruct Hy as [Hy0 Hy1]. rewrite (app_assoc dst).
  destruct (new_hlen_cases c f) as [[Hnew Htag]|[Hnew Htag]]; rewrite Hnew in *.
  - apply list2 in Hu as (y & z & ->). cbn [app Z.eqb Pos.eqb].
    apply wp_bind, wp_st16; [lia|rewrite blen_app, !blen_cons; lia|]. apply wp_ret.
    rewrite put16_app, Htag, Hy0, Hy1 by done. cbn [mbind option_bind].
    split_and!; [done..|]. unfold frame_bytes, frame_header. cbn [f_dst f_src f_tag f_type f_payload].
    by rewrite <-!app_assoc.
  - assert (Hu6 : length u = 6%nat) by (unfold blen in Hu; lia).
    apply list6 in Hu6 as (y0 & y1 & y2 & y3 & y4 & y5 & ->). cbn [app Z.eqb Pos.eqb]. rewrite Htag.
    set (t := f_payload f ++ r) in *. pose proof (blen_nonneg t).
    apply wp_bind, wp_st16; [lia|rewrite blen_app, !blen_cons; lia|].
    change (y0 :: y1 :: y2 :: y3 :: y4 :: y5 :: t) with ([y0; y1; y2; y3] ++ y4 :: y5 :: t).
    rewrite (app_assoc (dst ++ src)), put16_app by (by rewrite blen_app, H12).
    rewrite <-(app_assoc (dst ++ src)), Hy0, Hy1. cbn [app].
    apply wp_bind, wp_st16; [lia|rewrite blen_app, !blen_cons; lia|].
    rewrite put16_app by done. cbn [app]. change (u8 _ :: u8 _ :: ?l) with ([129; 0] ++ l) at 1.
    rewrite (app_assoc (dst ++ src)).
    apply wp_bind. eapply wp_mono; [|apply (st_tci_ok c f); [done..|]; by rewrite blen_app, H12].
    intros ok b2 H2. destruct (new_tci c (le16 <$> f_tag f)) as [v|]; cbn; [|by subst ok].
    destruct H2 as [-> ->]. split_and!; [done..|].
    unfold frame_bytes, frame_header, t. cbn [f_dst f_src f_tag f_type f_payload of_le16].
    rewrite <-!app_assoc. done.
Qed.

Lemma edit_frame_len ctx c dir f f' :
  frame_wf f -> config_wf c -> edit_frame ctx c dir f = Some f' ->
  f_payload f' = f_payload f /\ f_type f' = f_type f /\ blen (frame_header f') = hlen f'
  /\ (bytes_ok (frame_header f) -> bytes_ok (frame_header f')).
Proof.
  intros W C. unfold edit_frame.
  destruct (smac_of ctx c dir (f_src f)) as [src|] eqn:Es; [|done].
  destruct (dmac_of ctx c dir (f_dst f)) as [dst|] eqn:Ed; [|done]. cbn.
  apply smac_of_wf in Es as [Es Bs]; [|done|apply W]. apply dmac_of_wf in Ed as [Ed Bd]; [|done|apply W].
  destruct (new_tag c (f_tag f)) as [tag|] eqn:Et; [|done]. cbn. intros [= <-]. split_and!; [done..| |].
  - unfold frame_header, hlen, blen. cbn. rewrite !length_app. destruct tag as [[]|]; cbn; lia.
  - unfold frame_header, bytes_ok. cbn. rewrite !Forall_app. intros (Hd & Hs & _ & Ht).
    split_and!; [by apply Bd|by apply Bs| |done].
    destruct tag as [[t0 t1]|]; [|done].
    assert (is_u8 t0 /\ is_u8 t1) as [? ?].
    { unfold new_tag in Et. destruct (vlan c), (f_tag f); try done; destruct (new_tci _ _); cbn in Et;
        unfold of_le16 in Et; simplify_eq; split; apply u8_range. }
    repeat constructor; try apply _; by unfold is_u8 in *; lia.
Qed.

Lemma encode_ok ctx0 ctx c f r dir :
  frame_wf f -> config_wf c -> decoded ctx0 f ctx -> en10mb_config_of ctx = Ok c ->
  decoder ctx = DLT_EN10MB -> 4 <= blen r ->
  wp (dlt_en10mb_encode ctx (blen (frame_bytes f)) dir)
     (fun m b' => match edit_frame ctx c dir f with
                  | Some f' => m = blen (frame_bytes f')
                      /\ exists r', b' = frame_bytes f' ++ r' /\ blen b' = blen (frame_bytes f ++ r)
                         /\ (bytes_ok (frame_bytes f ++ r) -> bytes_ok r')
                  | None => m = -1
                  end) (frame_bytes f ++ r).
Proof.
  intros W C D Hc Hdec Hr. unfold dlt_en10mb_encode.
  assert (Hbuf : frame_bytes f ++ r = frame_header f ++ f_payload f ++ r)
    by (unfold frame_bytes; by rewrite <-app_assoc). rewrite Hbuf. clear Hbuf.
  pose proof (blen_hdr f W) as Hh. pose proof (blen_nonneg (f_payload f)) as Hp.
  assert (Hl : l2len ctx = hlen f) by (by destruct D as (x & _ & ->)).
  assert (Hn : blen (frame_bytes f) = hlen f + blen (f_payload f)) by (unfold frame_bytes; rewrite blen_app; lia).
  assert (14 <= hlen f <= 18) by (unfold hlen; destruct (f_tag f); lia).
  assert (14 <= new_hlen c f <= 18) by (destruct (new_hlen_cases c f); lia).
  replace (blen (frame_bytes f) <? 14) with false by lia.
  apply wp_bind. eapply wp_lift; [exact Hc|]. rewrite (new_l2len_eq ctx c f), Hl by done.
  set (n := blen (frame_bytes f) + _). apply wp_bind.
  set (b := frame_header f ++ f_payload f ++ r) in *.
  assert (Hstage : forall h r', blen h = new_hlen c f -> blen (h ++ f_payload f ++ r') = blen b ->
    (bytes_ok b -> bytes_ok r') ->
    wp (encode_header ctx c (new_hlen c f) n dir)
     (fun m b' => match edit_frame ctx c dir f with
                  | Some f' => m = blen (frame_bytes f')
                      /\ exists r', b' = frame_bytes f' ++ r' /\ blen b' = blen b /\ (bytes_ok b -> bytes_ok r')
                  | None => m = -1
                  end) (h ++ f_payload f ++ r')).
  { intros h r' Hh' Hlen Hok. eapply wp_mono; [|by apply (encode_header_ok ctx0 ctx c f)].
    intros m b'. destruct (edit_frame ctx c dir f) as [f'|] eqn:E; [|done]. intros (-> & Hf' & ->).
    apply edit_frame_len in E as (Ep & _ & Eh & _); [|done..].
    assert (blen (frame_bytes f') = hlen f' + blen (f_payload f)) by (unfold frame_bytes; rewrite blen_app; congruence).
    split; [unfold n; lia|]. exists r'. split_and!; [done| |done]. rewrite <-Hlen, !blen_app in *. lia. }
  split_if.
  - replace (blen (frame_bytes f) - hlen f) with (blen (f_payload f)) by lia. rewrite <-Hh.
    apply memmove_payload; [lia..|]. intros h' r' Hh' Hb' Hok. by apply Hstage.
  - apply wp_ret, Hstage; [lia|done|].
    intros Hb. unfold b, bytes_ok in Hb. rewrite !Forall_app in Hb. tauto.
Qed.
