(* ===== verification/DltPlugins.v ===== *)
(** * The plugins with a fixed header and the plugin API:
    [ddtcpreplay/src/tcpedit/plugins/dlt_{hdlc,raw,null,loop,linuxsll,pppserial}]
    and [plugins/dlt_plugins.c]

    [PluginOk] is what the API promises to its clients about a plugin: a decoder
    leaves the packet alone and fills out the context consistently with the
    plugin's own [l2len] and [proto].  The plugins user, ieee80211, radiotap and
    jnpr_ether are the parameter [other_ops]. *)

From Stdlib Require Import ZArith Lia.
From stdpp Require Import base list strings.
From S2P Require Import Prelude Wire TcpeditTypes Dlt En10mb.

Abbreviation DLT_NULL := 0.
Abbreviation DLT_LOOP := 108.
Abbreviation DLT_USER0 := 147.
Abbreviation DLT_IEEE802_11 := 105.
Abbreviation DLT_IEEE802_11_RADIO := 127.
Abbreviation PF_INET := 2.
Abbreviation PF_INET6 := 10.
Abbreviation ARPHRD_ETHER := 1.
Abbreviation ARPHRD_LOOPBACK := 772.

(** ** Headers of a fixed length *)

Definition fixed_l2len (len : Z) (ctx : tcpeditdlt) (pktlen : Z) : M Z :=
  _ ← assertM (negb (pktlen =? 0)); mret len.
Definition fixed_get_layer3 (len : Z) (ctx : tcpeditdlt) (pktlen : Z) : M (option Z) :=
  l2len ← fixed_l2len len ctx pktlen;
  _ ← assertM (l2len <=? pktlen);
  tcpedit_dlt_l3data_copy pktlen l2len.
Definition fixed_merge_layer3 (len : Z) (ctx : tcpeditdlt) (pktlen l3data : Z) : M (option Z) :=
  l2len ← fixed_l2len len ctx pktlen;
  _ ← assertM (l2len <=? pktlen);
  tcpedit_dlt_l3data_merge pktlen l2len.

(** An encoder that only reports an error. *)
Definition no_encode (ctx : tcpeditdlt) (pktlen : Z) (dir : tcpr_dir) : M Z :=
  _ ← assertM (0 <? pktlen); mret (-1).

(** [ctx->proto = proto; ctx->l2len = len] *)
Definition set_proto (ctx : tcpeditdlt) (p len : Z) : tcpeditdlt :=
  set_decoded ctx (ctx_srcaddr ctx) (ctx_dstaddr ctx) len p (decoded_extra ctx).

(** *** DLT_RAW *)

Definition dlt_raw_proto (ctx : tcpeditdlt) (pktlen : Z) : M Z :=
  _ ← assertM (0 <? pktlen);
  v ← ld_ip_v 0;
  mret (if v =? 4 then bswap16 ETHERTYPE_IP else if v =? 6 then bswap16 ETHERTYPE_IP6 else -1).

Definition dlt_raw_decode (ctx : tcpeditdlt) (pktlen : Z) : M (Z * tcpeditdlt) :=
  _ ← assertM (0 <? pktlen);
  p ← dlt_raw_proto ctx pktlen;
  mret (if p =? -1 then (-1, ctx) else (0, set_proto ctx (u16 p) 0)).

Definition dlt_raw_get_layer3 (ctx : tcpeditdlt) (pktlen : Z) : M (option Z) :=
  _ ← assertM (negb (pktlen =? 0)); mret (Some 0).
Definition dlt_raw_merge_layer3 (ctx : tcpeditdlt) (pktlen l3data : Z) : M (option Z) :=
  _ ← assertM (negb (pktlen =? 0)); mret (Some 0).

Definition dlt_raw_ops : plugin_ops := {|
  plugin_decode := dlt_raw_decode; plugin_encode := no_encode; plugin_proto := dlt_raw_proto;
  plugin_l2len := fixed_l2len 0; plugin_get_layer3 := dlt_raw_get_layer3;
  plugin_merge_layer3 := dlt_raw_merge_layer3; plugin_l2addr_type := NONE
|}.

(** *** DLT_NULL and DLT_LOOP *)

Definition SWAPLONG : Z -> Z := bswap32.

Definition dlt_null_proto (ctx : tcpeditdlt) (pktlen : Z) : M Z :=
  _ ← assertM (0 <? pktlen);
  af_type ← ld32 0;
  mret (if (af_type =? PF_INET) || (SWAPLONG af_type =? PF_INET) then bswap16 ETHERTYPE_IP
        else if (af_type =? PF_INET6) || (SWAPLONG af_type =? PF_INET6) then bswap16 ETHERTYPE_IP6
        else -1).

Definition dlt_null_decode (ctx : tcpeditdlt) (pktlen : Z) : M (Z * tcpeditdlt) :=
  _ ← assertM (0 <? pktlen);
  p ← dlt_null_proto ctx pktlen;
  mret (if p =? -1 then (-1, ctx) else (0, set_proto ctx (u16 p) 4)).

Definition dlt_null_ops : plugin_ops := {|
  plugin_decode := dlt_null_decode; plugin_encode := no_encode; plugin_proto := dlt_null_proto;
  plugin_l2len := fixed_l2len 4; plugin_get_layer3 := fixed_get_layer3 4;
  plugin_merge_layer3 := fixed_merge_layer3 4; plugin_l2addr_type := NONE
|}.

(** *** DLT_LINUX_SLL: type at 2, address at 6, protocol at 14 *)

Definition dlt_linuxsll_decode (ctx : tcpeditdlt) (pktlen : Z) : M (Z * tcpeditdlt) :=
  _ ← assertM (SLL_HDR_LEN <? pktlen);
  p ← ld16 o_sll_protocol;
  let ctx := set_proto ctx p SLL_HDR_LEN in
  type ← ld16 2;
  if (bswap16 type =? ARPHRD_ETHER) || (bswap16 type =? ARPHRD_LOOPBACK) then
    src ← ld_bytes 6 ETHER_ADDR_LEN;
    mret (0, set_decoded ctx src (ctx_dstaddr ctx) (l2len ctx) (proto ctx) (decoded_extra ctx))
  else mret (-1, ctx).

Definition dlt_linuxsll_proto (ctx : tcpeditdlt) (pktlen : Z) : M Z :=
  _ ← assertM (SLL_HDR_LEN <=? pktlen); ld16 o_sll_protocol.

Definition dlt_linuxsll_ops : plugin_ops := {|
  plugin_decode := dlt_linuxsll_decode; plugin_encode := no_encode; plugin_proto := dlt_linuxsll_proto;
  plugin_l2len := fixed_l2len SLL_HDR_LEN; plugin_get_layer3 := fixed_get_layer3 SLL_HDR_LEN;
  plugin_merge_layer3 := fixed_merge_layer3 SLL_HDR_LEN; plugin_l2addr_type := ETHERNET
|}.

(** *** DLT_C_HDLC; hdlc_extra_t has [hdlc] at 0, [address] at 4, [control] at 5. *)

Definition hdlc_config_of (ctx : tcpeditdlt) : res hdlc_config :=
  match tcpedit_dlt_getplugin ctx DLT_C_HDLC with
  | Some {| p_config := HdlcConfig c |} => Ok c
  | _ => Err Undef
  end.

Definition dlt_hdlc_init (ctx : tcpeditdlt) : Z * tcpeditdlt :=
  match tcpedit_dlt_getplugin ctx DLT_C_HDLC with
  | None => (-1, ctx)
  | Some _ =>
      (0, set_config (set_extra ctx (replicate 8 0)) DLT_C_HDLC
            (HdlcConfig {| hdlc_address := 65535; hdlc_control := 65535 |}))
  end.

Definition dlt_hdlc_decode (ctx : tcpeditdlt) (pktlen : Z) : M (Z * tcpeditdlt) :=
  _ ← assertM (4 <=? pktlen);
  p ← ld16 o_hdlc_protocol;
  address ← ld8 0;
  x ← lift (x_st8 (decoded_extra ctx) 4 address);
  control ← ld8 1;
  x ← lift (x_st8 x 5 control);
  mret (0, set_extra (set_proto ctx p 4) x).

(** One of the two header bytes. *)
Definition hdlc_field (given : Z) (extra : buf) : res (option Z) :=
  if given <? 65535 then Ok (Some (u8 given))
  else hdlc ← x_ld32 extra 0; Ok (if negb (hdlc =? 0) then Some (u8 hdlc) else None).

Definition dlt_hdlc_encode (ctx : tcpeditdlt) (pktlen : Z) (dir : tcpr_dir) : M Z :=
  _ ← assertM (4 <=? pktlen);
  _ ← (if negb (l2len ctx =? 4) then memmove 4 (l2len ctx) (pktlen - l2len ctx) else mret tt);
  let newpktlen := pktlen + 4 - l2len ctx in
  config ← lift (hdlc_config_of ctx);
  address ← lift (hdlc_field (hdlc_address config) (decoded_extra ctx));
  match address with None => mret (-1) | Some address =>
    _ ← st8 0 address;
    control ← lift (hdlc_field (hdlc_control config) (decoded_extra ctx));
    match control with None => mret (-1) | Some control =>
      _ ← st8 1 control;
      _ ← st16 o_hdlc_protocol (proto ctx);
      mret newpktlen
    end
  end.

Definition dlt_hdlc_proto (ctx : tcpeditdlt) (pktlen : Z) : M Z :=
  _ ← assertM (4 <=? pktlen); ld16 o_hdlc_protocol.

Definition dlt_hdlc_ops : plugin_ops := {|
  plugin_decode := dlt_hdlc_decode; plugin_encode := dlt_hdlc_encode; plugin_proto := dlt_hdlc_proto;
  plugin_l2len := fixed_l2len 4; plugin_get_layer3 := fixed_get_layer3 4;
  plugin_merge_layer3 := fixed_merge_layer3 4; plugin_l2addr_type := C_HDLC
|}.

(** *** DLT_PPP_SERIAL *)

Definition dlt_pppserial_decode (ctx : tcpeditdlt) (pktlen : Z) : M (Z * tcpeditdlt) :=
  _ ← assertM (4 <? pktlen);
  p ← ld16 o_ppp_protocol;
  mret (0, set_proto ctx (if bswap16 p =? 33 then bswap16 ETHERTYPE_IP else p) 4).

Definition dlt_pppserial_encode (ctx : tcpeditdlt) (pktlen : Z) (dir : tcpr_dir) : M Z :=
  _ ← assertM (4 <? pktlen); mret pktlen.

Definition dlt_pppserial_proto (ctx : tcpeditdlt) (pktlen : Z) : M Z :=
  _ ← assertM (4 <? pktlen);
  p ← ld16 o_ppp_protocol;
  mret (if bswap16 p =? 33 then ETHERTYPE_IP else TCPEDIT_SOFT_ERROR).

Definition dlt_pppserial_ops : plugin_ops := {|
  plugin_decode := dlt_pppserial_decode; plugin_encode := dlt_pppserial_encode;
  plugin_proto := dlt_pppserial_proto;
  plugin_l2len := fixed_l2len 4; plugin_get_layer3 := fixed_get_layer3 4;
  plugin_merge_layer3 := fixed_merge_layer3 4; plugin_l2addr_type := NONE
|}.

(** ** The registered plugins *)

Definition registered : list plugin :=
  let pl dlt name requires provides :=
    {| p_dlt := dlt; p_name := name; p_requires := requires; p_provides := provides; p_config := NoConfig |} in
  [ dlt_en10mb_plugin;
    pl DLT_C_HDLC "hdlc"%string 1 1; pl DLT_USER0 "user"%string 0 7; pl DLT_RAW "raw"%string 0 1;
    pl DLT_NULL "null"%string 0 1; pl DLT_LOOP "loop"%string 0 1; pl DLT_LINUX_SLL "linuxsll"%string 0 3;
    pl DLT_IEEE802_11 "ieee802_11"%string 0 7; pl DLT_IEEE802_11_RADIO "radiotap"%string 0 7;
    pl DLT_JUNIPER_ETHER "jnpr_eth"%string 0 7; pl DLT_PPP_SERIAL "pppserial"%string 0 1 ].

(** [retcode += dlt_*_register(ctx)] for each plugin in turn. *)
Fixpoint register_all (ctx : tcpeditdlt) (retcode : Z) (l : list plugin) : res (Z * tcpeditdlt) :=
  match l with
  | [] => Ok (if retcode <? 0 then -1 else 0, ctx)
  | p :: l => '(rc, ctx) ← tcpedit_dlt_addplugin ctx p; register_all ctx (retcode + rc) l
  end.
Definition tcpedit_dlt_register (ctx : tcpeditdlt) : res (Z * tcpeditdlt) := register_all ctx 0 registered.

Section api.
Context (other_ops : Z -> option plugin_ops).

Definition ops_of (dlt : Z) : option plugin_ops :=
  if dlt =? DLT_EN10MB then Some dlt_en10mb_ops
  else if dlt =? DLT_C_HDLC then Some dlt_hdlc_ops
  else if dlt =? DLT_RAW then Some dlt_raw_ops
  else if (dlt =? DLT_NULL) || (dlt =? DLT_LOOP) then Some dlt_null_ops
  else if dlt =? DLT_LINUX_SLL then Some dlt_linuxsll_ops
  else if dlt =? DLT_PPP_SERIAL then Some dlt_pppserial_ops
  else other_ops dlt.

(** A call through a plugin pointer. *)
Definition call {A} (dlt : Z) (f : plugin_ops -> M A) : M A :=
  match ops_of dlt with Some ops => f ops | None => fault_with Undef end.

Definition tcpedit_dlt_decode (ctx : tcpeditdlt) (pktlen : Z) : M (Z * tcpeditdlt) :=
  call (decoder ctx) (fun ops => plugin_decode ops ctx pktlen).
Definition tcpedit_dlt_encode (ctx : tcpeditdlt) (pktlen : Z) (direction : tcpr_dir) : M Z :=
  call (encoder ctx) (fun ops => plugin_encode ops ctx pktlen direction).

(** Returns the new total length of the packet. *)
Definition tcpedit_dlt_process (ctx : tcpeditdlt) (pktlen : Z) (direction : tcpr_dir)
    : M (Z * tcpeditdlt) :=
  _ ← assertM (negb (pktlen =? 0));
  _ ← assertM (bool_decide (direction <> DIR_ERROR));
  if bool_decide (direction = DIR_NOSEND) then mret (pktlen, ctx)
  else
    '(rcode, ctx) ← tcpedit_dlt_decode ctx pktlen;
    if (rcode =? -1) || (rcode =? TCPEDIT_SOFT_ERROR) then mret (rcode, ctx)
    else
      rcode ← tcpedit_dlt_encode ctx pktlen direction;
      mret (rcode, ctx).

(** The look-ups by link type; [None] is the error return. *)
Definition with_plugin {A} (ctx : tcpeditdlt) (dlt pktlen : Z) (err : A) (f : plugin_ops -> M A) : M A :=
  _ ← assertM (0 <=? dlt);
  _ ← assertM (negb (pktlen =? 0));
  match tcpedit_dlt_getplugin ctx dlt with
  | None => mret err
  | Some _ => call dlt f
  end.
Definition tcpedit_dlt_l2len (ctx : tcpeditdlt) (dlt pktlen : Z) : M Z :=
  with_plugin ctx dlt pktlen (-1) (fun ops => plugin_l2len ops ctx pktlen).
Definition tcpedit_dlt_proto (ctx : tcpeditdlt) (dlt pktlen : Z) : M Z :=
  with_plugin ctx dlt pktlen (-1) (fun ops => plugin_proto ops ctx pktlen).
Definition tcpedit_dlt_l3data (ctx : tcpeditdlt) (dlt pktlen : Z) : M (option Z) :=
  with_plugin ctx dlt pktlen None (fun ops => plugin_get_layer3 ops ctx pktlen).
Definition tcpedit_dlt_merge_l3data (ctx : tcpeditdlt) (dlt pktlen : Z) (l3data : option Z) : M (option Z) :=
  _ ← assertM (0 <=? dlt);
  _ ← assertM (0 <=? pktlen);
  match l3data with
  | None => mret (Some 0)
  | Some l3data =>
      match tcpedit_dlt_getplugin ctx dlt with
      | None => mret None
      | Some _ => call dlt (fun ops => plugin_merge_layer3 ops ctx pktlen l3data)
      end
  end.
Definition tcpedit_dlt_src (ctx : tcpeditdlt) : Z := decoder ctx.
Definition tcpedit_dlt_dst (ctx : tcpeditdlt) : Z := encoder ctx.
End api.

(** ** The contract of a decoder *)

(** What decoding may change in the context. *)
Definition same_setup (ctx ctx' : tcpeditdlt) : Prop :=
  plugins ctx' = plugins ctx /\ decoder ctx' = decoder ctx /\ encoder ctx' = encoder ctx
  /\ addr_type ctx' = addr_type ctx /\ ctx_skip_broadcast ctx' = ctx_skip_broadcast ctx.

Class PluginOk (ops : plugin_ops) : Prop := {
  decode_contract : forall ctx n b rc ctx' b',
    plugin_decode ops ctx n b = Ok ((rc, ctx'), b') ->
    b' = b /\ same_setup ctx ctx' /\ (rc = 0 \/ rc = -1)
    /\ (rc = 0 -> bytes_ok b -> plugin_l2len ops ctx n b = Ok (l2len ctx', b)
                  /\ plugin_proto ops ctx n b = Ok (proto ctx', b))
}.

(** Runs a routine that has returned: one step of the monad at a time. *)
Ltac run_step :=
  match goal with
  | H : mbind ?k ?m ?b = Ok _ |- _ =>
      let E := fresh "E" in
      change (mbind k m b) with (match m b with Ok (a, b') => k a b' | Err f => Err f end) in H;
      destruct (m b) as [[? ?]|?] eqn:E; [|discriminate H]
  | H : mret _ _ = Ok _ |- _ => cbv [mret M_ret] in H; simplify_eq
  | H : assertM ?c _ = Ok _ |- _ => unfold assertM in H; destruct c eqn:?; [|discriminate H]; simplify_eq
  | H : lift ?r _ = Ok _ |- _ => unfold lift in H; destruct r eqn:?; [|discriminate H]; simplify_eq
  | H : ld8 ?o ?b = Ok _ |- _ =>
      unfold ld8 in H; destruct (in_bounds b o 1) eqn:?; [|discriminate H]; simplify_eq
  | H : ld16 ?o ?b = Ok _ |- _ =>
      unfold ld16 in H; destruct (in_bounds b o 2) eqn:?; [|discriminate H]; simplify_eq
  | H : ld32 ?o ?b = Ok _ |- _ =>
      unfold ld32 in H; destruct (in_bounds b o 4) eqn:?; [|discriminate H]; simplify_eq
  | H : ld_bytes ?o ?n ?b = Ok _ |- _ =>
      unfold ld_bytes in H; destruct (in_bounds b o n && (0 <=? n)) eqn:?; [|discriminate H]; simplify_eq
  end.
Ltac run_steps := repeat run_step.

Ltac run_goal :=
  cbv [mbind M_bind assertM mret M_ret ld8 ld16 ld32 lift negb];
  repeat match goal with
  | H : in_bounds ?b ?o ?n = true |- context [in_bounds ?b ?o ?n] => rewrite H
  | H : ?c = true |- context [if ?c then _ else _] => rewrite H
  | H : ?c = false |- context [if ?c then _ else _] => rewrite H
  | |- context [?n =? 0] => replace (n =? 0) with false by lia
  end.

#[export] Instance en10mb_ok : PluginOk dlt_en10mb_ops.
Proof.
  split. intros ctx n b rc ctx' b' H. cbn in H |- *. unfold dlt_en10mb_decode in H. run_steps.
  case_match; run_steps; (split_and!; [done|done|lia|]); intros _ _;
    unfold dlt_en10mb_l2len, dlt_en10mb_proto; split; run_goal; done.
Qed.

#[export] Instance hdlc_ok : PluginOk dlt_hdlc_ops.
Proof.
  split. intros ctx n b rc ctx' b' H. cbn in H |- *. unfold dlt_hdlc_decode in H. run_steps.
  split_and!; [done|done|lia|]. intros _ _. unfold fixed_l2len, dlt_hdlc_proto. split; run_goal; done.
Qed.

#[export] Instance linuxsll_ok : PluginOk dlt_linuxsll_ops.
Proof.
  split. intros ctx n b rc ctx' b' H. cbn in H |- *. unfold dlt_linuxsll_decode in H. run_steps.
  case_match; run_steps; (split_and!; [done|done|lia|]); intros; [|lia].
  unfold fixed_l2len, dlt_linuxsll_proto. replace (16 <=? n) with true by lia. split; run_goal; done.
Qed.

#[export] Instance raw_ok : PluginOk dlt_raw_ops.
Proof.
  split. intros ctx n b rc ctx' b' H. cbn in H |- *. unfold dlt_raw_decode in H. run_steps.
  unfold dlt_raw_proto, ld_ip_v in *. run_steps. unfold fixed_l2len.
  repeat case_match; simplify_eq;
    try (split_and!; [done|done|lia|]; intros; try lia; split; run_goal; done); vm_compute in *; done.
Qed.

#[export] Instance null_ok : PluginOk dlt_null_ops.
Proof.
  split. intros ctx n b rc ctx' b' H. cbn in H |- *. unfold dlt_null_decode in H. run_steps.
  unfold dlt_null_proto in *. run_steps. unfold fixed_l2len.
  repeat case_match; simplify_eq;
    try (split_and!; [done|done|lia|]; intros; try lia; split; run_goal; done); vm_compute in *; done.
Qed.

(** ** Ethernet to Ethernet *)

Record enet_ctx (ctx : tcpeditdlt) (c : en10mb_config) : Prop := {
  ec_dec : decoder ctx = DLT_EN10MB;
  ec_enc : encoder ctx = DLT_EN10MB;
  ec_config : en10mb_config_of ctx = Ok c;
  ec_wf : config_wf c;
  ec_extra : blen (decoded_extra ctx) = sizeof_en10mb_extra
}.

(** The result of processing a frame: the bytes of the edited frame, in a buffer
    of the same size. *)
Definition processed (ctx : tcpeditdlt) (c : en10mb_config) (dir : tcpr_dir) (f : frame) (r : buf)
    (rc : Z * tcpeditdlt) (b' : buf) : Prop :=
  same_setup ctx rc.2 /\
  match edit_frame ctx c dir f with
  | Some f' => rc.1 = blen (frame_bytes f')
      /\ exists r', b' = frame_bytes f' ++ r' /\ blen b' = blen (frame_bytes f ++ r)
         /\ (bytes_ok (frame_bytes f ++ r) -> bytes_ok b')
  | None => rc.1 = -1
  end.

Lemma process_ok other ctx c f r dir :
  enet_ctx ctx c -> frame_wf f -> 4 <= blen r -> dir = DIR_C2S \/ dir = DIR_S2C ->
  wp (tcpedit_dlt_process other ctx (blen (frame_bytes f)) dir) (processed ctx c dir f r)
     (frame_bytes f ++ r).
Proof.
  intros [Hd He Hc C Hx] W Hr Hdir. unfold tcpedit_dlt_process.
  assert (14 <= blen (frame_bytes f)).
  { unfold frame_bytes. rewrite blen_app, blen_hdr by done. pose proof (blen_nonneg (f_payload f)).
    unfold hlen. destruct (f_tag f); lia. }
  apply wp_bind, wp_assert; [lia|]. apply wp_bind, wp_assert; [by destruct Hdir as [-> | ->]|].
  rewrite bool_decide_eq_false_2 by (by destruct Hdir as [-> | ->]).
  apply wp_bind. unfold tcpedit_dlt_decode, call. rewrite Hd. cbn [ops_of Z.eqb Pos.eqb plugin_decode dlt_en10mb_ops].
  eapply wp_mono; [|by apply decode_ok]. intros [rc ctx'] b' (-> & Hrc & D). cbn [fst snd] in Hrc, D. subst rc.
  change ((0 =? -1) || (0 =? -2)) with false. cbv iota. destruct (D) as (x & X & Hctx').
  apply wp_bind. unfold tcpedit_dlt_encode, call. replace (encoder ctx') with DLT_EN10MB by (by subst ctx').
  cbn [ops_of Z.eqb Pos.eqb plugin_encode dlt_en10mb_ops].
  eapply wp_mono; [|apply (encode_ok ctx ctx' c); [done..|by subst ctx'|by subst ctx'|done]].
  intros n b' Hn. apply wp_ret. subst ctx'. split; [done|].
  change (edit_frame (set_decoded _ _ _ _ _ _) c dir f) with (edit_frame ctx c dir f) in Hn.
  destruct (edit_frame ctx c dir f) as [f'|] eqn:E; [|done].
  destruct Hn as (-> & r' & -> & Hl & Hb). split; [done|]. exists r'. split_and!; [done..|].
  intros Hok. specialize (Hb Hok).
  apply edit_frame_len in E as (Ep & _ & _ & Hh); [|done..].
  unfold bytes_ok, frame_bytes in *. rewrite !Forall_app in *. rewrite Ep. tauto.
Qed.

Definition with_vlan (mode : tcpedit_vlan) (tag pri cfi : Z) : en10mb_config := {|
  intf1_dmac := replicate 6 0; intf1_smac := replicate 6 0;
  intf2_dmac := replicate 6 0; intf2_smac := replicate 6 0;
  mac_mask := 0; vlan := mode; vlan_tag := tag; vlan_pri := pri; vlan_cfi := cfi
|}.
Definition set_tag (f : frame) (tag : option (Z * Z)) : frame :=
  {| f_dst := f_dst f; f_src := f_src f; f_tag := tag; f_type := f_type f; f_payload := f_payload f |}.

(** Without user addresses only the tag changes. *)
Lemma edit_frame_vlan ctx mode tag pri cfi dir f :
  addr_type ctx = ETHERNET -> dir = DIR_C2S \/ dir = DIR_S2C ->
  edit_frame ctx (with_vlan mode tag pri cfi) dir f
  = set_tag f <$> new_tag (with_vlan mode tag pri cfi) (f_tag f).
Proof.
  intros Ha Hdir. unfold edit_frame, smac_of, dmac_of, choose_mac. rewrite Ha.
  destruct Hdir as [-> | ->]; cbn; by destruct (new_tag _ _).
Qed.

(** The tag of the three user values, most significant byte first. *)
Definition user_tag (tag pri cfi : Z) : Z * Z := (pri * 32 + cfi * 16 + tag / 256, tag mod 256).

Lemma new_tci_user c old :
  0 <= vlan_tag c < 4096 -> 0 <= vlan_pri c < 8 -> 0 <= vlan_cfi c < 2 ->
  new_tci c old = Some (le16 (user_tag (vlan_tag c) (vlan_pri c) (vlan_cfi c))).
Proof.
  intros Ht Hp Hc. unfold new_tci, part.
  replace (vlan_tag c <? 65535) with true by lia. replace (vlan_pri c <? 255) with true by lia.
  replace (vlan_cfi c <? 255) with true by lia. cbn [mbind option_bind]. f_equal.
  change 4095 with (Z.ones 12). rewrite Z.land_ones, !Z.shiftl_mul_pow2 by lia.
  unfold le16, user_tag, bswap16, u16. cbn [fst snd].
  change (2 ^ 12) with 4096. change (2 ^ 13) with 8192. dlia.
Qed.

Lemma new_tci_keep c t :
  is_u8 t.1 -> is_u8 t.2 -> vlan_tag c = 65535 -> vlan_pri c = 255 -> vlan_cfi c = 255 ->
  new_tci c (Some (le16 t)) = Some (le16 t).
Proof.
  intros H0 H1 E1 E2 E3. unfold new_tci, part. rewrite E1, E2, E3.
  assert (Ht : is_u16 (le16 t)) by (unfold is_u8, is_u16, le16 in *; lia).
  rewrite !Z.ltb_irrefl. cbn [mbind option_bind fmap option_fmap option_map]. f_equal.
  rewrite (u16_id (Z.land _ _ + _)).
  - rewrite tci_parts by done. by apply u16_id.
  - rewrite land_add by done. apply land_u16; [apply Ht|by vm_compute].
Qed.
Lemma new_tag_keep f :
  frame_wf f -> set_tag f <$> new_tag (with_vlan VLAN_OFF 65535 255 255) (f_tag f) = Some f.
Proof.
  intros W. destruct f as [d s [[t0 t1]|] y p]; [|done]. destruct (fw_tag _ W t0 t1 eq_refl).
  unfold new_tag. cbn [vlan with_vlan f_tag].
  change (le16 <$> Some (t0, t1)) with (Some (le16 (t0, t1))).
  rewrite new_tci_keep by done. cbn [fmap option_fmap option_map]. unfold compose.
  by rewrite of_le16_le16.
Qed.

(** ** Properties *)

(** C40: for every plugin with a modelled decoder but PPP, a decoder that returns
    has not touched the packet, reports success or an error, and on success has
    filled the context with the header length and the protocol that the plugin's
    own l2len and proto functions report. *)
Theorem decoders_consistent dlt :
  dlt ∈ [DLT_EN10MB; DLT_C_HDLC; DLT_RAW; DLT_NULL; DLT_LOOP; DLT_LINUX_SLL] ->
  exists ops, ops_of (fun _ => None) dlt = Some ops /\ PluginOk ops.
Proof.
  rewrite !elem_of_cons. intros H.
  destruct_or! H; subst; try (by apply elem_of_nil in H); eexists; split; try reflexivity; apply _.
Qed.

(** The PPP plugin breaks the contract: on an IPv4 packet it decodes the
    protocol in network byte order, while its proto function returns the same
    number in host byte order. *)
Theorem pppserial_proto_order ctx :
  let b := [255; 3; 0; 33; 69; 0; 0; 0] in
  exists ctx', dlt_pppserial_decode ctx 8 b = Ok ((0, ctx'), b)
    /\ proto ctx' = bswap16 ETHERTYPE_IP
    /\ dlt_pppserial_proto ctx 8 b = Ok (ETHERTYPE_IP, b).
Proof. eexists. by vm_compute. Qed.

(** C21: processing an Ethernet packet of either direction implements the edit of
    its abstract frame: addresses and tag as configured, same type and payload,
    the returned length is that of the new frame and the buffer keeps its size;
    when the configuration lacks a value the result is an error. *)
Theorem en10mb_process_refines other ctx c f r dir :
  enet_ctx ctx c -> frame_wf f -> 4 <= blen r -> dir = DIR_C2S \/ dir = DIR_S2C ->
  wp (tcpedit_dlt_process other ctx (blen (frame_bytes f)) dir) (processed ctx c dir f r)
     (frame_bytes f ++ r).
Proof. apply process_ok. Qed.

(** with the default configuration processing leaves every byte of a packet,
    tagged or not, as it was. *)
Theorem en10mb_default_identity other ctx f r dir :
  enet_ctx ctx en10mb_default -> addr_type ctx = ETHERNET -> frame_wf f -> 4 <= blen r ->
  dir = DIR_C2S \/ dir = DIR_S2C ->
  wp (tcpedit_dlt_process other ctx (blen (frame_bytes f)) dir)
     (fun rc b' => rc.1 = blen (frame_bytes f) /\ exists r', b' = frame_bytes f ++ r' /\ blen r' = blen r)
     (frame_bytes f ++ r).
Proof.
  intros E Ha W Hr Hdir. eapply wp_mono; [|by apply (process_ok other ctx en10mb_default f r dir)].
  intros rc b' [_ H]. change en10mb_default with (with_vlan VLAN_OFF 65535 255 255) in H.
  rewrite edit_frame_vlan in H by done.
  rewrite new_tag_keep in H by done. destruct H as (-> & r' & -> & Hl & _). split; [done|]. exists r'. split; [done|].
  rewrite !blen_app in Hl. lia.
Qed.

(** adding a VLAN tag to an untagged packet writes the user's priority, CFI
    and VLAN id in network byte order after the addresses and moves the rest by
    four bytes; deleting it again restores the packet. *)
Theorem en10mb_vlan_roundtrip other ctx ctx' tag pri cfi f r dir :
  enet_ctx ctx (with_vlan VLAN_ADD tag pri cfi) -> enet_ctx ctx' (with_vlan VLAN_DEL 65535 255 255) ->
  addr_type ctx = ETHERNET -> addr_type ctx' = ETHERNET ->
  0 <= tag < 4096 -> 0 <= pri < 8 -> 0 <= cfi < 2 ->
  frame_wf f -> f_tag f = None -> 8 <= blen r -> dir = DIR_C2S \/ dir = DIR_S2C ->
  wp (tcpedit_dlt_process other ctx (blen (frame_bytes f)) dir)
     (fun rc b1 => exists r1, b1 = frame_bytes (set_tag f (Some (user_tag tag pri cfi))) ++ r1
        /\ rc.1 = blen (frame_bytes f) + 4
        /\ wp (tcpedit_dlt_process other ctx' rc.1 dir)
              (fun rc' b2 => rc'.1 = blen (frame_bytes f) /\ exists r2, b2 = frame_bytes f ++ r2) b1)
     (frame_bytes f ++ r).
Proof.
  intros E E' Ha Ha' Ht Hp Hc W Hu Hr Hdir.
  set (f1 := set_tag f (Some (user_tag tag pri cfi))).
  assert (W1 : frame_wf f1).
  { destruct W. split; try done. intros t0 t1 [= <- <-]. unfold is_u8. cbn. split; dlia. }
  assert (Hl1 : blen (frame_bytes f1) = blen (frame_bytes f) + 4).
  { unfold frame_bytes. rewrite !blen_app, !blen_hdr by done. unfold hlen. rewrite Hu. cbn. lia. }
  eapply wp_mono; [|apply (process_ok other ctx _ f r dir E); [done|lia|done]].
  intros rc b1 [_ H1]. rewrite edit_frame_vlan, Hu in H1 by done.
  unfold new_tag in H1. cbn [vlan with_vlan] in H1. rewrite new_tci_user in H1 by done.
  cbn [fmap option_fmap option_map] in H1. unfold compose in H1.
  rewrite of_le16_le16 in H1 by (unfold is_u8; cbn; dlia). cbn [vlan_tag vlan_pri vlan_cfi with_vlan] in H1.
  fold f1 in H1. destruct H1 as (Hrc & r1 & -> & Hl & _). exists r1. split; [done|]. split; [lia|].
  rewrite Hrc. rewrite !blen_app in Hl.
  eapply wp_mono; [|apply (process_ok other ctx' _ f1 r1 dir E'); [done|lia|done]].
  intros rc' b2 [_ H2]. rewrite edit_frame_vlan in H2 by done. cbn [new_tag vlan with_vlan fmap option_fmap option_map] in H2.
  assert (Hf : set_tag f1 None = f) by (destruct f; cbn in Hu; by subst).
  rewrite Hf in H2. destruct H2 as (-> & r2 & -> & _). split; [done|]. by exists r2.
Qed.

(** ** Witnesses *)

(** An Ethernet context on the registered chain, with configuration [c]. *)
Definition ctx_enet (c : en10mb_config) : tcpeditdlt :=
  set_config {| plugins := registered; decoder := DLT_EN10MB; encoder := DLT_EN10MB; addr_type := ETHERNET;
     ctx_skip_broadcast := false; ctx_srcaddr := []; ctx_dstaddr := []; l2len := 0; proto := 0;
     decoded_extra := replicate 12 0 |} DLT_EN10MB (En10mbConfig c).

(** The registration of the chain succeeds. *)
Lemma registered_ok :
  tcpedit_dlt_register (set_plugins (ctx_enet en10mb_default) []) = Ok (0, set_plugins (ctx_enet en10mb_default) registered).
Proof. by vm_compute. Qed.

Lemma ctx_enet_ok c : config_wf c -> enet_ctx (ctx_enet c) c.
Proof. by split. Qed.

Definition frame_sample (tag : option (Z * Z)) : frame := {|
  f_dst := [2; 0; 0; 0; 0; 1]; f_src := [2; 0; 0; 0; 0; 2]; f_tag := tag; f_type := (8, 0);
  f_payload := [69; 0; 0; 4]
|}.
Lemma frame_sample_wf t0 t1 : is_u8 t0 -> is_u8 t1 ->
  frame_wf (frame_sample None) /\ frame_wf (frame_sample (Some (t0, t1))).
Proof.
  intros ? ?. split; split; try done. by intros ? ? [= <- <-].
Qed.
Lemma with_vlan_wf mode tag pri cfi : config_wf (with_vlan mode tag pri cfi).
Proof. split; try done. cbn. repeat constructor; unfold is_u8; lia. Qed.

Lemma decoders_consistent_witness : exists ops, ops_of (fun _ => None) DLT_LOOP = Some ops /\ PluginOk ops.
Proof. apply (decoders_consistent DLT_LOOP). rewrite !elem_of_cons. tauto. Defined.

(** A tagged packet of which only the VLAN id is to change, to 1. *)
Lemma en10mb_process_witness :
  wp (tcpedit_dlt_process (fun _ => None) (ctx_enet (with_vlan VLAN_ADD 1 255 255)) 22 DIR_C2S)
     (processed (ctx_enet (with_vlan VLAN_ADD 1 255 255)) (with_vlan VLAN_ADD 1 255 255) DIR_C2S
        (frame_sample (Some (160, 224))) (replicate 4 0))
     (frame_bytes (frame_sample (Some (160, 224))) ++ replicate 4 0).
Proof.
  apply (en10mb_process_refines (fun _ => None) (ctx_enet (with_vlan VLAN_ADD 1 255 255))
           (with_vlan VLAN_ADD 1 255 255) (frame_sample (Some (160, 224))) (replicate 4 0) DIR_C2S).
  - apply ctx_enet_ok, with_vlan_wf.
  - apply frame_sample_wf; concrete.
  - concrete.
  - by left.
Defined.

Lemma en10mb_default_witness :
  wp (tcpedit_dlt_process (fun _ => None) (ctx_enet en10mb_default) 22 DIR_S2C)
     (fun rc b' => rc.1 = 22) (frame_bytes (frame_sample (Some (160, 224))) ++ replicate 4 0).
Proof.
  eapply wp_mono; [|apply (en10mb_default_identity (fun _ => None) (ctx_enet en10mb_default)
     (frame_sample (Some (160, 224))) (replicate 4 0) DIR_S2C)].
  - by intros rc b' [H _].
  - apply ctx_enet_ok. apply (with_vlan_wf VLAN_OFF 65535 255 255).
  - done.
  - apply frame_sample_wf; concrete.
  - concrete.
  - by right.
Defined.

Lemma en10mb_vlan_witness :
  wp (tcpedit_dlt_process (fun _ => None) (ctx_enet (with_vlan VLAN_ADD 100 5 0)) 18 DIR_C2S)
     (fun rc b1 => rc.1 = 22) (frame_bytes (frame_sample None) ++ replicate 8 0).
Proof.
  eapply wp_mono; [|apply (en10mb_vlan_roundtrip (fun _ => None) (ctx_enet (with_vlan VLAN_ADD 100 5 0))
    (ctx_enet (with_vlan VLAN_DEL 65535 255 255)) 100 5 0 (frame_sample None) (replicate 8 0) DIR_C2S)].
  - by intros rc b1 (r1 & _ & -> & _).
  - apply ctx_enet_ok, with_vlan_wf.
  - apply ctx_enet_ok, with_vlan_wf.
  - done.
  - done.
  - lia.
  - lia.
  - lia.
  - by apply (frame_sample_wf 0 0).
  - done.
  - concrete.
  - by left.
Defined.

(** changing only the VLAN id of a tagged packet (priority 5, VLAN 224, new
    id 1) loses the priority and writes another id: the decoder masks the tag
    in host byte order.  The tag written is 0x00e1, priority 0 and VLAN 225. *)
Theorem en10mb_tag_change_corrupts :
  exists ctx' b', tcpedit_dlt_process (fun _ => None) (ctx_enet (with_vlan VLAN_ADD 1 255 255)) 22 DIR_C2S
      (frame_bytes (frame_sample (Some (160, 224))) ++ replicate 4 0) = Ok ((22, ctx'), b')
    /\ slice b' 0 22 = frame_bytes (frame_sample (Some (0, 225))).
Proof. eexists _, _. split; [vm_compute; reflexivity|]. by vm_compute. Qed.
