(* ===== verification/EditLen.v ===== *)
(** * Packet lengths: untrunc_packet of [ddtcpreplay/src/tcpedit/edit_packet.c]
    and the link-type tables of [tcpedit/dlt.c]

    [pkthdr] is the part of libpcap's packet header that the editor changes.
    untrunc_packet pads a truncated packet with zeros, or corrects its IP length
    field, or cuts it to the MTU.  safe_realloc resizes the packet in place: the
    code keeps the returned pointer only in a local variable, so this is the
    behaviour it relies on. *)

From Stdlib Require Import ZArith Lia.
From stdpp Require Import base list.
From S2P Require Import Prelude Samples Wire TcpeditTypes Dlt.

Record pkthdr := { caplen : Z; len : Z }.

(** ** Operations *)

(** [packet = safe_realloc(packet, n)]: new bytes are unspecified, here 0. *)
Definition safe_realloc (n : Z) : M unit := fun b => Ok (tt, resize (Z.to_nat n) 0 b).
(** [memset(packet + o, 0, n)] *)
Definition memset0 (o n : Z) : M unit := st_bytes o (replicate (Z.to_nat n) 0).

(** The checksum decision for fragments: 0 when the checksum cannot be computed;
    the first fragment of a UDP datagram loses its checksum. *)
Definition untrunc_chksum (ip_hdr : option Z) : M Z :=
  match ip_hdr with
  | None => mret 1
  | Some ip_hdr =>
      off ← ld16 (ip_hdr + o_ip_off);
      if negb (frag_off off =? 0) then mret 0
      else
        p ← ld8 (ip_hdr + o_ip_p);
        if (p =? IPPROTO_UDP) && negb (Z.land (bswap16 off) IP_MF =? 0) then
          hl ← ld_ip_hl ip_hdr;
          _ ← st16 (ip_hdr + 4 * hl + o_uh_sum) 0;
          mret 0
        else mret 1
  end.

Definition untrunc_packet (t : tcpedit) (ctx : tcpeditdlt) (hdr : pkthdr) (ip_hdr ip6_hdr : option Z)
    : M (Z * pkthdr) :=
  if ((caplen hdr =? len hdr) || (bool_decide (ip_hdr = None) && bool_decide (ip6_hdr = None)))
     && negb (mtu_truncate t) then mret (0, hdr)
  else if l2len ctx <? 0 then mret (-1, hdr)
  else
    chksum ← untrunc_chksum ip_hdr;
    match fixlen t with
    | FIXLEN_PAD =>
        if caplen hdr <? len hdr then
          _ ← safe_realloc (len hdr);
          _ ← memset0 (caplen hdr) (len hdr - caplen hdr);
          mret (chksum, {| caplen := len hdr; len := len hdr |})
        else if len hdr <? caplen hdr then mret (-1, hdr)
        else mret (chksum, hdr)
    | FIXLEN_TRUNC =>
        _ ← (if negb (len hdr =? caplen hdr) then
               match ip_hdr with
               | Some ip_hdr => st16 (ip_hdr + o_ip_len) (bswap16 (caplen hdr - l2len ctx))
               | None => fault_with Undef
               end
             else mret tt);
        mret (chksum, {| caplen := caplen hdr; len := caplen hdr |})
    | _ =>
        if mtu_truncate t then
          if u32 (mtu t + l2len ctx) <? len hdr then
            let n := u32 (l2len ctx + mtu t) in
            let hdr := {| caplen := n; len := n |} in
            match ip_hdr, ip6_hdr with
            | Some ip_hdr, _ => _ ← st16 (ip_hdr + o_ip_len) (bswap16 (mtu t)); mret (chksum, hdr)
            | None, Some ip6_hdr =>
                _ ← st16 (ip6_hdr + o_ip6_len) (bswap16 (mtu t - TCPR_IPV6_H)); mret (chksum, hdr)
            | None, None => mret (0, hdr)
            end
          else mret (chksum, hdr)
        else mret (-1, hdr)
    end.

(** *** dlt.c *)

Definition dlt2layer2len (dlt : Z) : Z :=
  if dlt =? 0 then 2 else if dlt =? DLT_RAW then 0 else if dlt =? DLT_EN10MB then 12
  else if dlt =? DLT_LINUX_SLL then 16
  else if (dlt =? DLT_PPP_SERIAL) || (dlt =? DLT_C_HDLC) then 4
  else if dlt =? DLT_JUNIPER_ETHER then 36 else -1.

Definition dltrequires (dlt : Z) : Z :=
  if (dlt =? DLT_JUNIPER_ETHER) || (dlt =? DLT_EN10MB) then 0
  else if (dlt =? 0) || (dlt =? DLT_RAW) || (dlt =? DLT_C_HDLC) || (dlt =? DLT_PPP_SERIAL) then 1 + 2
  else if dlt =? DLT_LINUX_SLL then 2 else -1.

Definition dlt2mtu (dlt : Z) : Z :=
  if (dlt =? DLT_PPP_SERIAL) || (dlt =? DLT_EN10MB) || (dlt =? DLT_RAW) || (dlt =? DLT_C_HDLC)
     || (dlt =? DLT_JUNIPER_ETHER) then 1500
  else if dlt =? DLT_LINUX_SLL then 16436 else if dlt =? 108 then 16384 else -1.

(** ** Lemmas *)

(** The header is complete, so that the tests on fragments stay inside. *)
Record hdr4_ok (b : buf) (h : Z) : Prop := {
  h4_bytes : bytes_ok b;
  h4_pos : 0 <= h;
  h4_len : h + 20 <= blen b;
  h4_udp : ip_p b h = IPPROTO_UDP -> h + 4 * ip_hl b h + 8 <= blen b
}.

(** Whether untrunc_packet clears a UDP checksum, and what it returns. *)
Definition clears_udp (b : buf) (h : Z) : bool :=
  (frag_off (ip_off b h) =? 0) && (ip_p b h =? IPPROTO_UDP)
  && negb (Z.land (bswap16 (ip_off b h)) IP_MF =? 0).
Definition chksum_result (b : buf) (h : Z) : Z :=
  if negb (frag_off (ip_off b h) =? 0) || clears_udp b h then 0 else 1.
Definition chksum_buf (b : buf) (h : Z) : buf :=
  if clears_udp b h then put16 b (h + 4 * ip_hl b h + o_uh_sum) 0 else b.

Lemma untrunc_chksum_ok b h :
  hdr4_ok b h -> untrunc_chksum (Some h) b = Ok (chksum_result b h, chksum_buf b h).
Proof.
  intros [Hb Hh Hl Hu].
  cut (wp (untrunc_chksum (Some h)) (fun a b' => (a, b') = (chksum_result b h, chksum_buf b h)) b).
  { rewrite wp_run. intros (a & b' & -> & [= -> ->]). done. }
  pose proof (ip_hl_range b h).
  unfold untrunc_chksum, chksum_buf, chksum_result, clears_udp. wp_steps. fold (ip_off b h).
  destruct (frag_off (ip_off b h) =? 0); cbn [negb andb orb]; [|wp_steps; done].
  wp_steps. fold (ip_p b h). destruct (Z.eqb_spec (ip_p b h) IPPROTO_UDP) as [E|E]; cbn [andb];
    [|wp_steps; done]. specialize (Hu E).
  destruct (Z.land (bswap16 (ip_off b h)) 8192 =? 0); cbn [negb]; [wp_steps; done|].
  apply wp_bind, wp_ld_ip_hl; [lia|lia|]. wp_steps. done.
Qed.

Lemma blen_chksum_buf b h : blen (chksum_buf b h) = blen b.
Proof. unfold chksum_buf. case_match; [apply blen_put16|done]. Qed.

Lemma chksum_buf_same b h i :
  hdr4_ok b h -> 0 <= i -> (clears_udp b h = false \/ i < h + 4 * ip_hl b h + 6 \/ h + 4 * ip_hl b h + 8 <= i) ->
  get8 (chksum_buf b h) i = get8 b i.
Proof.
  intros [Hb Hh Hl Hu] Hi Hc. unfold chksum_buf. pose proof (ip_hl_range b h).
  destruct (clears_udp b h) eqn:E; [|done]. apply get8_put16_ne; try lia.
  unfold clears_udp in E. assert (ip_p b h = IPPROTO_UDP) by lia. specialize (Hu ltac:(assumption)). lia.
Qed.

(** Only the length field and, for the first fragment of a datagram, the UDP
    checksum differ; the length field holds [n]. *)
Definition length_set (b : buf) (h n : Z) (b' : buf) : Prop :=
  bswap16 (ip_len b' h) = n /\ blen b' = blen b
  /\ forall i, 0 <= i -> i < h + o_ip_len \/ h + o_ip_len + 2 <= i ->
       clears_udp b h = false \/ i < h + 4 * ip_hl b h + 6 \/ h + 4 * ip_hl b h + 8 <= i ->
       get8 b' i = get8 b i.

Lemma st_length_ok b h n :
  hdr4_ok b h -> is_u16 n ->
  wp (st16 (h + o_ip_len) (bswap16 n)) (fun _ b' => length_set b h n b') (chksum_buf b h).
Proof.
  intros H4 Hn. destruct (H4) as [Hb Hh Hl Hu]. pose proof (blen_chksum_buf b h) as Hcl.
  apply wp_st16; [lia|lia|]. split_and!.
  - unfold ip_len. rewrite get16_put16_eq by lia.
    rewrite u16_id by apply bswap16_range. by apply bswap16_involutive.
  - by rewrite blen_put16.
  - intros i Hi Ho Hc. rewrite get8_put16_ne by lia. by apply chksum_buf_same.
Qed.

(** ** Properties *)

(** --fixlen=pad on a truncated IPv4 packet: both lengths become the original
    length, the captured bytes are kept (but for the UDP checksum of a first
    fragment, which is cleared), the missing ones are zero, and the buffer has
    exactly the original length. *)
Theorem untrunc_pad_spec t ctx hdr b h :
  fixlen t = FIXLEN_PAD -> 0 <= l2len ctx -> hdr4_ok b h ->
  0 <= caplen hdr -> caplen hdr < len hdr -> caplen hdr <= blen b ->
  wp (untrunc_packet t ctx hdr (Some h) None)
     (fun r b' => r = (chksum_result b h, {| caplen := len hdr; len := len hdr |})
        /\ blen b' = len hdr
        /\ (forall i, 0 <= i < caplen hdr ->
              clears_udp b h = false \/ i < h + 4 * ip_hl b h + 6 \/ h + 4 * ip_hl b h + 8 <= i ->
              get8 b' i = get8 b i)
        /\ forall i, caplen hdr <= i < len hdr -> get8 b' i = 0) b.
Proof.
  intros Hf Hl H4 Hc0 Hc Hcb. unfold untrunc_packet. rewrite Hf.
  replace (caplen hdr =? len hdr) with false by lia. cbn [orb andb bool_decide].
  rewrite bool_decide_eq_false_2 by done. cbn [andb]. replace (l2len ctx <? 0) with false by lia.
  apply wp_bind. unfold wp at 1. rewrite untrunc_chksum_ok by done.
  replace (caplen hdr <? len hdr) with true by lia.
  apply wp_bind. unfold safe_realloc, wp at 1. set (b1 := resize _ _ _).
  assert (Hb1 : blen b1 = len hdr) by (unfold b1, blen; rewrite length_resize; lia).
  assert (Hr : blen (replicate (Z.to_nat (len hdr - caplen hdr)) 0) = len hdr - caplen hdr).
  { unfold blen. rewrite length_replicate. lia. }
  apply wp_bind, wp_st_bytes; [lia|lia|]. apply wp_ret. split; [done|].
  rewrite blen_put_bytes by lia. split; [done|]. split.
  - intros i Hi Hu. rewrite get8_put_bytes_out by lia. rewrite <-(chksum_buf_same b h i) by (done || lia).
    unfold b1. rewrite !get8_lookup by lia. rewrite lookup_resize; [done|lia|].
    pose proof (blen_chksum_buf b h). unfold blen in *. lia.
  - intros i Hi. rewrite get8_put_bytes_in by lia. rewrite get8_lookup by lia.
    rewrite lookup_replicate_2 by lia. done.
Qed.

(** --fixlen=trunc on a truncated IPv4 packet: the length becomes the captured
    length, the IP length field is what was captured after the layer-2 header,
    and nothing else changes but the UDP checksum of a first fragment. *)
Theorem untrunc_trunc_spec t ctx hdr b h :
  fixlen t = FIXLEN_TRUNC -> 0 <= l2len ctx -> hdr4_ok b h -> caplen hdr <> len hdr ->
  is_u16 (caplen hdr - l2len ctx) ->
  wp (untrunc_packet t ctx hdr (Some h) None)
     (fun r b' => r = (chksum_result b h, {| caplen := caplen hdr; len := caplen hdr |})
        /\ length_set b h (caplen hdr - l2len ctx) b') b.
Proof.
  intros Hf Hl H4 Hc Hn. unfold untrunc_packet. rewrite Hf.
  replace (caplen hdr =? len hdr) with false by lia.
  rewrite bool_decide_eq_false_2 by done. cbn [orb andb]. replace (l2len ctx <? 0) with false by lia.
  apply wp_bind. unfold wp at 1. rewrite untrunc_chksum_ok by done.
  replace (negb (len hdr =? caplen hdr)) with true by lia.
  apply wp_bind. eapply wp_mono; [|by apply st_length_ok]. intros u b' Hb'. by apply wp_ret.
Qed.

(** --mtu-trunc: a packet longer than the MTU is cut to the layer-2 header plus
    the MTU, its IP length field becomes the MTU; shorter packets keep their
    lengths. *)
Theorem untrunc_mtu_spec t ctx hdr b h :
  fixlen t = FIXLEN_OFF -> mtu_truncate t = true -> 0 <= l2len ctx -> is_u16 (mtu t) ->
  l2len ctx < 65536 -> hdr4_ok b h ->
  wp (untrunc_packet t ctx hdr (Some h) None)
     (fun r b' =>
        if mtu t + l2len ctx <? len hdr then
          r = (chksum_result b h, {| caplen := l2len ctx + mtu t; len := l2len ctx + mtu t |})
          /\ length_set b h (mtu t) b'
        else r = (chksum_result b h, hdr) /\ b' = chksum_buf b h) b.
Proof.
  intros Hf Hm Hl Hu Hl' H4. unfold untrunc_packet. rewrite Hf, Hm.
  rewrite andb_false_r. replace (l2len ctx <? 0) with false by lia.
  apply wp_bind. unfold wp at 1. rewrite untrunc_chksum_ok by done.
  unfold is_u16 in Hu. rewrite !u32_id by (unfold is_u32; lia).
  destruct (mtu t + l2len ctx <? len hdr); [|by apply wp_ret].
  apply wp_bind. eapply wp_mono; [|by apply st_length_ok]. intros u b' Hb'. by apply wp_ret.
Qed.

(** ** Witnesses *)

Definition edit_len (f : tcpedit_fixlen) (trunc : bool) (m : Z) : tcpedit := {|
  skip_broadcast := false; fixlen := f; rewrite_ip := false; fixcsum := false;
  efcs := false; ttl_mode := TTL_MODE_OFF; ttl_value := 0; tos := -1; flowlabel := -1;
  tclass := -1; cidrmap1 := []; cidrmap2 := []; srcipmap := []; dstipmap := []; seed := 0;
  portmap := []; mtu := m; mtu_truncate := trunc; maxpacket := 0
|}.
Definition ctx_len : tcpeditdlt :=
  set_decoded ctx_sample (replicate 6 0) (replicate 6 0) 14 8 (replicate 12 0).

Lemma hdr4_ok_sample : hdr4_ok sample_tcp 14.
Proof. split; concrete. Qed.

Lemma untrunc_pad_witness :
  wp (untrunc_packet (edit_len FIXLEN_PAD false 1500) ctx_len {| caplen := 58; len := 64 |} (Some 14) None)
     (fun r b' => blen b' = 64) sample_tcp.
Proof.
  eapply wp_mono; [|apply (untrunc_pad_spec (edit_len FIXLEN_PAD false 1500) ctx_len
    {| caplen := 58; len := 64 |} sample_tcp 14 eq_refl)]; try concrete.
  - by intros r b' (_ & H & _).
  - apply hdr4_ok_sample.
Defined.

Lemma untrunc_trunc_witness :
  wp (untrunc_packet (edit_len FIXLEN_TRUNC false 1500) ctx_len {| caplen := 54; len := 58 |} (Some 14) None)
     (fun r b' => bswap16 (ip_len b' 14) = 40) sample_tcp.
Proof.
  eapply wp_mono; [|apply (untrunc_trunc_spec (edit_len FIXLEN_TRUNC false 1500) ctx_len
    {| caplen := 54; len := 58 |} sample_tcp 14 eq_refl)]; try concrete.
  - by intros r b' (_ & H & _).
  - apply hdr4_ok_sample.
Defined.

Lemma untrunc_mtu_witness :
  wp (untrunc_packet (edit_len FIXLEN_OFF true 40) ctx_len {| caplen := 58; len := 58 |} (Some 14) None)
     (fun r b' => r.2 = {| caplen := 54; len := 54 |}) sample_tcp.
Proof.
  eapply wp_mono; [|apply (untrunc_mtu_spec (edit_len FIXLEN_OFF true 40) ctx_len
    {| caplen := 58; len := 58 |} sample_tcp 14 eq_refl)]; try concrete.
  - by intros r b' [-> _].
  - apply hdr4_ok_sample.
Defined.
