(* ===== verification/Tcpedit.v ===== *)
(** * The editor: tcpedit_packet of [ddtcpreplay/src/tcpedit/tcpedit.c]

    One packet through the whole editor: layer 2 through the DLT plugins, then
    TOS, TTL and ports (or their IPv6 counterparts), length fixes, address maps,
    randomizing, and last the checksums.  [base] and [other] are the parameters
    of the IPv6 checksum code and of the plugin API. *)

From Stdlib Require Import ZArith Lia.
From stdpp Require Import base list strings.
From S2P Require Import Prelude Samples Wire Get Csum IncChecksum Checksum Cidr TcpeditTypes Remap MapLoop.
From S2P Require Import EditIPv4 EditIPv6 EditArp CString Portmap Dlt En10mb DltPlugins EditLen.

Abbreviation ETHERTYPE_ARP := 2054.

(** [tcpedit_runtime_t]: the counters and link types. *)
Record tcpedit_runtime := {
  packetnum : Z;
  total_bytes : Z;
  pkts_edited : Z;
  dlt1 : Z;
  dlt2 : Z
}.

(** The state of the editor: options, plugin context, counters. *)
Record editor := { opts : tcpedit; dlt_ctx : tcpeditdlt; run : tcpedit_runtime }.

Definition next_packet (r : tcpedit_runtime) : tcpedit_runtime := {|
  packetnum := u64 (packetnum r + 1); total_bytes := total_bytes r; pkts_edited := pkts_edited r;
  dlt1 := dlt1 r; dlt2 := dlt2 r
|}.
Definition count_packet (r : tcpedit_runtime) (n : Z) : tcpedit_runtime := {|
  packetnum := packetnum r; total_bytes := u64 (total_bytes r + n); pkts_edited := u64 (pkts_edited r + 1);
  dlt1 := dlt1 r; dlt2 := dlt2 r
|}.

(** ** Steps of the editor *)

(** The new TOS byte and the header checksum. *)
Definition set_tos (t : tcpedit) (ip_hdr : Z) : M unit :=
  if -1 <? tos t then
    oldval ← ld16 ip_hdr;
    _ ← st8 (ip_hdr + 1) (tos t);
    newval ← ld16 ip_hdr;
    replace2_at (ip_hdr + o_ip_sum) oldval newval
  else mret tt.

(** The return value of the step, negative on error. *)
Definition edit_ipv4 (t : tcpedit) (ip_hdr : Z) : M Z :=
  _ ← set_tos t ip_hdr;
  _ ← rewrite_ipv4_ttl t (Some ip_hdr);
  if bool_decide (portmap t = []) then mret 0 else rewrite_ipv4_ports t (Some ip_hdr).

(** [ipflags = (ntohl(flags) & mask) + bits] on the first word of the header. *)
Definition set_flags6 (ip6_hdr mask bits : Z) : M unit :=
  f ← ld32 ip6_hdr;
  st32 ip6_hdr (bswap32 (u32 (Z.land (bswap32 f) mask + bits))).

Definition edit_ipv6 (t : tcpedit) (ip6_hdr : Z) : M Z :=
  _ ← rewrite_ipv6_hlim t (Some ip6_hdr);
  _ ← (if -1 <? tclass t then set_flags6 ip6_hdr 4027580415 (Z.shiftl (tclass t) 20) else mret tt);
  _ ← (if -1 <? flowlabel t then set_flags6 ip6_hdr 4293918720 (flowlabel t) else mret tt);
  if bool_decide (portmap t = []) then mret 0 else rewrite_ipv6_ports t (Some ip6_hdr).

Section editor.
Context (base : Z) (other : Z -> option plugin_ops).

(** Address maps; [retval] is kept where the code does not assign it. *)
Definition rewrite_step (t : tcpedit) (ip_hdr ip6_hdr : option Z) (l2proto l2len retval : Z)
    (direction : tcpr_dir) : M Z :=
  if negb (rewrite_ip t) then mret retval else
  match ip_hdr, ip6_hdr with
  | Some h, _ => rewrite_ipv4l3 t h direction
  | None, Some h => rewrite_ipv6l3 base t h direction
  | None, None =>
      if l2proto =? bswap16 ETHERTYPE_ARP then
        r ← rewrite_iparp t l2len direction;
        mret (if r <? 0 then -1 else retval)
      else mret retval
  end.

Definition randomize_step (t : tcpedit) (r : tcpedit_runtime) (ip_hdr ip6_hdr : option Z)
    (caplen l2proto retval : Z) (direction : tcpr_dir) : M Z :=
  if seed t =? 0 then mret retval else
  match ip_hdr, ip6_hdr with
  | Some h, _ => randomize_ipv4 t h
  | None, Some h => randomize_ipv6 base t h
  | None, None =>
      if l2proto =? bswap16 ETHERTYPE_ARP then
        r ← randomize_iparp t caplen (if bool_decide (direction = DIR_C2S) then dlt1 r else dlt2 r);
        mret (if r <? 0 then -1 else retval)
      else mret retval
  end.

Definition checksum_step (t : tcpedit) (ip_hdr ip6_hdr : option Z) (hdr : pkthdr)
    (needtorecalc retval : Z) : M Z :=
  if fixcsum t || negb (needtorecalc =? 0) then
    match ip_hdr, ip6_hdr with
    | Some h, _ => fix_ipv4_checksums (caplen hdr) (len hdr) h
    | None, Some h => fix_ipv6_checksums (caplen hdr) (len hdr) h
    | None, None => mret 0
    end
  else mret retval.

(** Everything above layer 2: return value and packet header. *)
Definition edit_l3 (e : editor) (ctx : tcpeditdlt) (ip_hdr ip6_hdr : option Z) (l2proto l2len : Z)
    (hdr : pkthdr) (direction : tcpr_dir) : M (Z * pkthdr) :=
  let t := opts e in
  retval ← match ip_hdr, ip6_hdr with
           | Some h, _ => edit_ipv4 t h
           | None, Some h => edit_ipv6 t h
           | None, None => mret 0
           end;
  if retval <? 0 then mret (-1, hdr) else
  '(retval, needtorecalc, hdr) ←
    (if negb (bool_decide (fixlen t = FIXLEN_OFF)) || mtu_truncate t then
       '(retval, hdr) ← untrunc_packet t ctx hdr ip_hdr ip6_hdr; mret (retval, retval, hdr)
     else mret (retval, 0, hdr));
  if retval <? 0 then mret (-1, hdr) else
  retval ← rewrite_step t ip_hdr ip6_hdr l2proto l2len retval direction;
  if retval <? 0 then mret (-1, hdr) else
  retval ← randomize_step t (run e) ip_hdr ip6_hdr (caplen hdr) l2proto retval direction;
  if retval <? 0 then mret (-1, hdr) else
  retval ← checksum_step t ip_hdr ip6_hdr hdr needtorecalc retval;
  if retval <? 0 then mret (-1, hdr) else mret (retval, hdr).

(** tcpedit_packet: return code, packet header, editor. *)
Definition tcpedit_packet (e : editor) (hdr : pkthdr) (direction : tcpr_dir)
    : M (Z * pkthdr * editor) :=
  let t := opts e in
  let run := next_packet (run e) in
  let hdr := if efcs t then {| caplen := u32 (caplen hdr - 4); len := u32 (len hdr - 4) |} else hdr in
  let ctx := dlt_ctx e in
  l2proto ← tcpedit_dlt_proto other ctx (tcpedit_dlt_src ctx) (i32 (caplen hdr));
  '(pktlen, ctx) ← tcpedit_dlt_process other ctx (i32 (caplen hdr)) direction;
  let e := {| opts := t; dlt_ctx := ctx; run := run |} in
  if pktlen =? -1 then fault_with (Exit (-1))
  else if pktlen =? TCPEDIT_SOFT_ERROR then mret (TCPEDIT_SOFT_ERROR, hdr, e)
  else
    let lendiff := pktlen - caplen hdr in
    let hdr := {| caplen := u32 (caplen hdr + lendiff); len := u32 (len hdr + lendiff) |} in
    let dst_dlt := tcpedit_dlt_dst ctx in
    l2len ← tcpedit_dlt_l2len other ctx dst_dlt (i32 (caplen hdr));
    '(ip_hdr, ip6_hdr) ←
      (if l2proto =? bswap16 ETHERTYPE_IP then
         h ← tcpedit_dlt_l3data other ctx dst_dlt (i32 (caplen hdr)); mret (h, None)
       else if l2proto =? bswap16 ETHERTYPE_IP6 then
         h ← tcpedit_dlt_l3data other ctx dst_dlt (i32 (caplen hdr)); mret (None, h)
       else mret (None, None));
    if ((l2proto =? bswap16 ETHERTYPE_IP) && bool_decide (ip_hdr = None))
       || ((l2proto =? bswap16 ETHERTYPE_IP6) && bool_decide (ip6_hdr = None))
    then mret (-1, hdr, e)
    else
      '(retval, hdr) ← edit_l3 e ctx ip_hdr ip6_hdr l2proto l2len hdr direction;
      if retval <? 0 then mret (-1, hdr, e)
      else
        _ ← tcpedit_dlt_merge_l3data other ctx dst_dlt (i32 (caplen hdr)) ip_hdr;
        mret (retval, hdr, {| opts := t; dlt_ctx := ctx; run := count_packet run (caplen hdr) |}).
End editor.

(** tcpedit_checkerror: [Assert] on a code that is none of the four. *)
Definition tcpedit_checkerror (rcode : Z) : res Z :=
  if (rcode =? 0) || (rcode =? -1) then Ok rcode
  else if rcode =? TCPEDIT_SOFT_ERROR then Ok (-1)
  else if rcode =? TCPEDIT_WARN then Ok 0
  else Err Assert.

(** tcpedit_checkdir *)
Inductive tcpedit_direction := EDIT_BOTH | EDIT_C2S | EDIT_S2C.
Definition tcpedit_checkdir (editdir : tcpedit_direction) (direction : tcpr_dir) : bool :=
  match editdir, direction with
  | EDIT_BOTH, _ | EDIT_C2S, DIR_C2S | EDIT_S2C, DIR_S2C => true
  | _, _ => false
  end.

(** ** Edits of an IPv4 packet by the whole pipeline *)

(** Bytes that no step may change: all but TOS, TTL, header checksum, addresses,
    and of TCP and UDP the ports and the checksum. *)
Definition untouched (b : buf) (h i : Z) : Prop :=
  i <> h + 1 /\ i <> h + o_ip_ttl /\ (i < h + o_ip_sum \/ h + 20 <= i)
  /\ forall f, l4_field b h = Some f ->
       (i < h + 4 * ip_hl b h \/ h + 4 * ip_hl b h + 4 <= i) /\ (i < f \/ f + 2 <= i).

Record pipe4 (h : Z) (b b' : buf) : Prop := {
  p4_len : blen b' = blen b;
  p4_bytes : bytes_ok b';
  p4_frame : forall i, 0 <= i -> untouched b h i -> get8 b' i = get8 b i;
  p4_ip : ip_total b' h ≈ ip_total b h;
  p4_l4 : l4_kept h b b'
}.

Lemma pipe4_header h b b' :
  wf4 b h -> pipe4 h b b' ->
  get8 b' h = get8 b h /\ ip_p b' h = ip_p b h /\ ip_off b' h = ip_off b h /\ ip_len b' h = ip_len b h
  /\ ip_hl b' h = ip_hl b h /\ l4_field b' h = l4_field b h.
Proof.
  intros [Wb Wh Whl Wlen Wl4] [Elen Eb Ef _ _].
  assert (Hg : forall i, h <= i < h + 10 -> i <> h + 1 -> i <> h + 8 -> get8 b' i = get8 b i).
  { intros i Hi H1 H8. apply Ef; [lia|]. split_and!; [lia..|]. intros f Hf. apply l4_field_inv in Hf. lia. }
  assert (H0 : get8 b' h = get8 b h) by (apply Hg; lia).
  assert (Hhl : ip_hl b' h = ip_hl b h) by (unfold ip_hl; by rewrite H0).
  assert (Hp : ip_p b' h = ip_p b h) by (apply Hg; lia).
  assert (Ho : ip_off b' h = ip_off b h) by (unfold ip_off, get16; by rewrite !Hg by lia).
  repeat split; try done.
  - unfold ip_len, get16. by rewrite !Hg by lia.
  - unfold l4_field. by rewrite Ho, Hp, Hhl.
Qed.

Lemma pipe4_wf h b b' : wf4 b h -> pipe4 h b b' -> wf4 b' h.
Proof.
  intros W E. destruct (pipe4_header h b b' W E) as (_ & _ & _ & _ & Hhl & Hl4).
  destruct W, E. split; rewrite ?Hhl, ?Hl4, ?p4_len0; auto.
Qed.

Lemma edit4_pipe h b b' : edit4 h b b' -> pipe4 h b b'.
Proof.
  intros [L B F I K]. split; try done. intros i H0 (H1 & H2 & H3 & H4). apply F; [done|done|].
  intros f Hf. apply H4, Hf.
Qed.
Lemma pipe4_refl h b : wf4 b h -> pipe4 h b b.
Proof. intros W. by apply edit4_pipe, edit4_refl. Qed.

Lemma pipe4_trans h b1 b2 b3 : wf4 b1 h -> pipe4 h b1 b2 -> pipe4 h b2 b3 -> pipe4 h b1 b3.
Proof.
  intros W E1 E2. destruct (pipe4_header h b1 b2 W E1) as (_ & Hp & _ & _ & Hhl & Hl4).
  destruct E1 as [L1 B1 F1 I1 K1], E2 as [L2 B2 F2 I2 K2].
  split; [congruence|done| |by rewrite I2|].
  - intros i H0 Hi. rewrite F2, F1; try done. unfold untouched. by rewrite Hl4, Hhl.
  - intros f n Hf H1 H2. specialize (K1 f n Hf H1 H2).
    specialize (K2 f n ltac:(congruence) ltac:(rewrite Hhl; lia) ltac:(rewrite Hhl, L1; lia)).
    rewrite Hp in K2. destruct K2 as [K2|[K2 S2]]; [by left|].
    destruct K1 as [[Hu K1]|[K1 S1]]; [by specialize (K2 Hu)|]. right. split; [done|]. by rewrite S2.
Qed.

(** A change of header bytes other than the addresses keeps the layer-4 sum. *)
Lemma header_edit_pipe h b b' :
  wf4 b h -> blen b' = blen b -> bytes_ok b' -> ip_total b' h ≈ ip_total b h ->
  (forall i, 0 <= i -> i <> h + 1 -> i <> h + 8 -> i < h + 10 \/ h + 12 <= i -> get8 b' i = get8 b i) ->
  pipe4 h b b'.
Proof.
  intros W L B I F. pose proof (edit4_refl h b W) as [_ _ _ _ K]. destruct W as [Wb Wh Whl Wlen _].
  assert (Hhl : ip_hl b' h = ip_hl b h) by (unfold ip_hl; by rewrite F by lia).
  split; try done.
  - intros i H0 (H1 & H2 & H3 & _). apply F; lia.
  - intros f n Hf H1 H2. destruct (l4_field_inv b h f Hf) as [Hf6 _].
    replace (get16 b' f) with (get16 b f) by (unfold get16; by rewrite !F by lia).
    replace (seg_total b' h n) with (seg_total b h n); [by apply K|].
    unfold seg_total. rewrite Hhl. f_equal; apply csum_ext; intros i Hi; symmetry; apply F; lia.
Qed.

Lemma set_tos_pipe t b h :
  wf4 b h -> tos t < 256 -> wp (set_tos t h) (fun _ b' => pipe4 h b b') b.
Proof.
  intros W Ht. pose proof W as [Wb Wh Whl Wlen _]. unfold set_tos.
  destruct (Z.ltb_spec (-1) (tos t)); [|apply wp_ret; by apply pipe4_refl].
  wp_steps. pose proof (get8_range b h Wb). pose proof (get8_range b (h + 1) Wb).
  assert (Hnew : get16 (put8 b (h + 1) (tos t)) h = get8 b h + 256 * tos t).
  { unfold get16. rewrite get8_put8_ne, get8_put8_eq, u8_id; unfold is_u8; lia. }
  assert (B1 : bytes_ok (put8 b (h + 1) (tos t))) by (by apply bytes_ok_put8).
  eapply wp_mono; [|apply replace2_at_spec; [done|lia|rewrite blen_put8; lia|by apply get16_range..]].
  intros [] b' (c & -> & Hc & He). rewrite Hnew in He.
  replace (get16 (put8 b (h + 1) (tos t)) (h + 10)) with (get16 b (h + 10)) in He
    by (unfold get16; by rewrite !get8_put8_ne by lia).
  assert (F : forall i, 0 <= i -> i <> h + 1 -> i <> h + 8 -> i < h + 10 \/ h + 12 <= i ->
    get8 (put16 (put8 b (h + 1) (tos t)) (h + 10) c) i = get8 b i).
  { intros. rewrite get8_put16_ne, get8_put8_ne; autorewrite with blen; lia || done. }
  apply header_edit_pipe; autorewrite with blen; auto with cint.
  unfold ip_total, ip_hl at 1. rewrite F by lia. fold (ip_hl b h).
  rewrite csum_put16_in; autorewrite with blen; try lia; [|apply even_to_nat; dlia].
  rewrite csum_put8_in by lia.
  replace (get16 (put8 b (h + 1) (tos t)) (h + 10)) with (get16 b (h + 10))
    by (unfold get16; by rewrite !get8_put8_ne by lia).
  rewrite u8_id, u16_id by (done || unfold is_u8; lia).
  replace (Z.to_nat (h + 1 - h)) with 1%nat by lia. change (wt 1) with 256.
  pose proof (eqm_swap (csum b h (Z.to_nat (4 * ip_hl b h))) 0 _ _ _ _ He) as HE.
  rewrite !Z.add_0_r in HE. etransitivity; [|exact HE]. apply (eqm_diff _ _ 0).
  assert (get16 b h = get8 b h + 256 * get8 b (h + 1)) by done. lia.
Qed.

Lemma ttl_pipe t b h :
  wf4 b h -> is_u8 (ttl_value t) -> wp (rewrite_ipv4_ttl t (Some h)) (fun _ b' => pipe4 h b b') b.
Proof.
  intros W Hv. eapply wp_mono; [|by apply rewrite_ipv4_ttl_ok].
  intros r b' (_ & B & L & _ & I & F). apply header_edit_pipe; [done..|]. intros. apply F; lia.
Qed.

(** Ports, on packets that are not later fragments. *)
Lemma ports_pipe t b h :
  wf4 b h -> portmap t <> [] -> frag_off (ip_off b h) = 0 ->
  wp (rewrite_ipv4_ports t (Some h)) (fun r b' => r = 0 /\ pipe4 h b b') b.
Proof.
  intros W Hpm Hfr. pose proof W as [Wb Wh Whl Wlen Wl4].
  destruct (decide (ip_p b h = IPPROTO_TCP \/ ip_p b h = IPPROTO_UDP)) as [Hp|Hp].
  - assert (Hf : l4_field b h = Some (h + 4 * ip_hl b h + l4_sum_off (ip_p b h))).
    { unfold l4_field, l4_sum_off. rewrite Hfr. by destruct Hp as [-> | ->]. }
    eapply wp_mono; [|apply rewrite_ipv4_ports_ok; try done; by apply Wl4].
    intros r b' (-> & [L B F S] & _). split; [done|].
    destruct (l4_field_inv _ _ _ Hf) as [Hf6 _]. set (f := h + 4 * ip_hl b h + _) in *.
    assert (Hhl : ip_hl b' h = ip_hl b h) by (unfold ip_hl; rewrite F by lia; done).
    split; [done|done| | |].
    + intros i H0 (_ & _ & _ & H4). destruct (H4 f Hf). by apply F.
    + unfold ip_total. rewrite Hhl. rewrite (csum_ext b' b); [done|]. intros i Hi. apply F; lia.
    + intros f' n Hf' H1 H2. assert (f' = f) as -> by congruence.
      destruct (S n ltac:(lia) H2) as [[Hu Hz]|[Hu HS]]; [left; split; [lia|done]|right].
      split; [intros; apply Hu; lia|]. unfold seg_total. rewrite Hhl, HS.
      rewrite (csum_ext b' b (h + 12)); [done|]. intros i Hi. apply F; lia.
  - unfold rewrite_ipv4_ports. wp_steps. fold (ip_p b h).
    replace ((ip_p b h =? 6) || (ip_p b h =? 17)) with false by lia. wp_steps. split; [done|by apply pipe4_refl].
Qed.

Lemma edit_ipv4_pipe t b h :
  wf4 b h -> tos t < 256 -> is_u8 (ttl_value t) -> (portmap t = [] \/ frag_off (ip_off b h) = 0) ->
  wp (edit_ipv4 t h) (fun r b' => r = 0 /\ pipe4 h b b') b.
Proof.
  intros W Ht Hv Hfr. unfold edit_ipv4. apply wp_bind.
  eapply wp_mono; [|by apply set_tos_pipe]. intros u b1 E1. pose proof (pipe4_wf _ _ _ W E1) as W1.
  apply wp_bind. eapply wp_mono; [|by apply ttl_pipe]. intros v b2 E2.
  assert (E : pipe4 h b b2) by exact (pipe4_trans h b b1 b2 W E1 E2). pose proof (pipe4_wf _ _ _ W1 E2) as W2.
  case_bool_decide as Hpm; [by apply wp_ret|]. destruct Hfr as [?|Hfr]; [done|].
  destruct (pipe4_header h b b2 W E) as (_ & _ & Ho & _).
  eapply wp_mono; [|by apply ports_pipe; [..|rewrite Ho]].
  intros r b3 [-> E3]. split; [done|]. apply (pipe4_trans h b b2 b3 W E E3).
Qed.

(** Options without length fixes, with usable maps. *)
Record l3_opts (t : tcpedit) : Prop := {
  lo_fixlen : fixlen t = FIXLEN_OFF;
  lo_mtu : mtu_truncate t = false;
  lo_tos : tos t < 256;
  lo_ttl : is_u8 (ttl_value t);
  lo_maps : maps4_ok t
}.

Section edit_l3.
Context (base : Z) (e : editor) (ctx : tcpeditdlt) (hdr : pkthdr) (direction : tcpr_dir).
Context (b : buf) (h : Z) (W : wf4 b h) (O : l3_opts (opts e)).
Context (Hfr : portmap (opts e) = [] \/ frag_off (ip_off b h) = 0).

(** Everything before the checksums. *)
Lemma edit_l3_steps l2proto l2len Q :
  (forall b', pipe4 h b b' ->
    wp (checksum_step (opts e) (Some h) None hdr 0 0)
       (fun retval b'' => Q (if retval <? 0 then (-1, hdr) else (retval, hdr)) b'') b') ->
  wp (edit_l3 base e ctx (Some h) None l2proto l2len hdr direction) Q b.
Proof using W O Hfr.
  intros HQ. destruct O as [Of Om Ot Ol Oa]. unfold edit_l3. apply wp_bind.
  eapply wp_mono; [|by apply edit_ipv4_pipe]. intros r b1 [-> E1]. cbn [Z.ltb Z.compare].
  rewrite Of, Om. cbn [negb bool_decide orb]. rewrite bool_decide_eq_true_2 by done. cbn [negb].
  apply wp_bind, wp_ret. cbn [Z.ltb Z.compare].
  pose proof (pipe4_wf _ _ _ W E1) as W1. apply wp_bind.
  assert (Hrw : wp (rewrite_step base (opts e) (Some h) None l2proto l2len 0 direction)
                  (fun r b' => r = 0 /\ pipe4 h b b') b1).
  { unfold rewrite_step. destruct (rewrite_ip (opts e)); cbn [negb]; [|by apply wp_ret].
    eapply wp_mono; [|by apply rewrite_ipv4l3_ok]. intros r b2 (-> & E2 & _). split; [done|].
    by apply (pipe4_trans h b b1 b2 W E1), edit4_pipe. }
  eapply wp_mono; [|exact Hrw]. intros r b2 [-> E2]. cbn [Z.ltb Z.compare].
  pose proof (pipe4_wf _ _ _ W E2) as W2. apply wp_bind.
  assert (Hrn : wp (randomize_step base (opts e) (run e) (Some h) None (caplen hdr) l2proto 0 direction)
                  (fun r b' => r = 0 /\ pipe4 h b b') b2).
  { unfold randomize_step. destruct (seed (opts e) =? 0); [by apply wp_ret|].
    eapply wp_mono; [|by apply randomize_ipv4_ok]. intros r b3 (-> & E3 & _). split; [done|].
    by apply (pipe4_trans h b b2 b3 W E2), edit4_pipe. }
  eapply wp_mono; [|exact Hrn]. intros r b3 [-> E3]. cbn [Z.ltb Z.compare]. apply wp_bind.
  eapply wp_mono; [|by apply HQ]. intros r b4 H4. revert H4. cbv beta. destruct (r <? 0); intros H4; by apply wp_ret.
Qed.

End edit_l3.

(** Without --fixcsum the whole layer-3 part is a checksum-preserving edit. *)
Lemma edit_l3_keep base e ctx hdr direction b h l2proto l2len :
  wf4 b h -> l3_opts (opts e) -> portmap (opts e) = [] \/ frag_off (ip_off b h) = 0 ->
  fixcsum (opts e) = false ->
  wp (edit_l3 base e ctx (Some h) None l2proto l2len hdr direction)
     (fun r b' => r = (0, hdr) /\ pipe4 h b b') b.
Proof.
  intros W O Hfr Hf. apply edit_l3_steps; [done..|]. intros b' E. unfold checksum_step. rewrite Hf.
  by apply wp_ret.
Qed.

(** With it, a complete TCP packet verifies afterwards. *)
Lemma edit_l3_fix base e ctx hdr direction b h l2proto l2len :
  let l4 := h + 4 * ip_hl b h in let seglen := bswap16 (ip_len b h) - 4 * ip_hl b h in
  wf4 b h -> l3_opts (opts e) -> fixcsum (opts e) = true -> caplen hdr = len hdr ->
  ip_v b h <> 6 -> frag_off (ip_off b h) = 0 -> ip_p b h = IPPROTO_TCP ->
  o_th_sum + 2 <= seglen -> l4 + seglen <= blen b ->
  wp (edit_l3 base e ctx (Some h) None l2proto l2len hdr direction)
     (fun r b' => r = (0, hdr) /\ blen b' = blen b /\ verifies (ip_total b' h)
        /\ verifies (l4_total b' h l4 IPPROTO_TCP seglen)) b.
Proof.
  intros l4 seglen W O Hf Hc Hv Hfr Hp Hs Hbl. apply edit_l3_steps; [done|done|by right|]. intros b' E.
  destruct (pipe4_header h b b' W E) as (E0 & Ep & Eo & El & Ehl & _).
  pose proof (pipe4_wf _ _ _ W E) as [Wb' Wh' Whl' _ _].
  unfold checksum_step. rewrite Hf, Hc. cbn [orb].
  assert (Hp' : ip_p b' h = IPPROTO_TCP) by congruence.
  eapply wp_mono; [|apply (fix_ipv4_checksums_ok b' h (len hdr)); try done].
  - rewrite Ehl, El, Hp'. intros r b'' (-> & H1 & H2 & H3 & _). rewrite (p4_len _ _ _ E) in H3. done.
  - unfold ip_v. by rewrite E0.
  - by rewrite Eo.
  - by left.
  - rewrite Hp', Ehl, El. unfold l4_sum_off. cbn [Z.eqb Pos.eqb]. exact Hs.
  - rewrite Ehl, El, (p4_len _ _ _ E). exact Hbl.
Qed.

(** ** Layer 2 of a frame *)

Lemma edit_frame_wf ctx c dir f f' :
  frame_wf f -> config_wf c -> edit_frame ctx c dir f = Some f' -> f_type f <> (129, 0) -> frame_wf f'.
Proof.
  intros W C. unfold edit_frame.
  destruct (smac_of ctx c dir (f_src f)) as [src|] eqn:Es; [|done].
  destruct (dmac_of ctx c dir (f_dst f)) as [dst|] eqn:Ed; [|done]. cbn.
  apply smac_of_wf in Es as [Es _]; [|done|apply W]. apply dmac_of_wf in Ed as [Ed _]; [|done|apply W].
  destruct (new_tag c (f_tag f)) as [tag|] eqn:Et; [|done]. cbn. intros [= <-] Hty.
  destruct W. split; cbn; try done. intros t0 t1 ->.
  unfold new_tag in Et. destruct (vlan c), (f_tag f); try done; destruct (new_tci _ _); cbn in Et;
    unfold of_le16 in Et; simplify_eq; split; apply u8_range.
Qed.

Lemma frame_type f r :
  frame_wf f ->
  get16 (frame_bytes f ++ r) o_ether_type = (if f_tag f is Some _ then le16 (129, 0) else le16 (f_type f))
  /\ (f_tag f <> None -> get16 (frame_bytes f ++ r) o_vlan_len = le16 (f_type f)).
Proof.
  intros W. destruct W as [Hd Hs _ _ _ _].
  apply list6 in Hd as (d0 & d1 & d2 & d3 & d4 & d5 & Hd), Hs as (s0 & s1 & s2 & s3 & s4 & s5 & Hs).
  destruct f as [fd fs [[t0 t1]|] [y0 y1] p]; cbn in Hd, Hs; subst fd fs; by split.
Qed.

Lemma frame_is_vlan f r :
  frame_wf f ->
  (bswap16 (get16 (frame_bytes f ++ r) o_ether_type) =? ETHERTYPE_VLAN) = bool_decide (f_tag f <> None).
Proof.
  intros W. destruct (frame_type f r W) as [-> _]. destruct W as [_ _ Ht0 Ht1 _ Hun].
  destruct (f_tag f); [done|]. rewrite not_vlan by auto. by rewrite bool_decide_eq_false_2 by auto.
Qed.

Section layer2.
Context (f : frame) (r : buf) (W : frame_wf f).

Lemma frame_hlen : 14 <= hlen f <= 18 /\ blen (frame_bytes f) = hlen f + blen (f_payload f)
  /\ (f_tag f <> None -> hlen f = 18).
Proof using W.
  unfold frame_bytes. rewrite blen_app, blen_hdr by done. unfold hlen. destruct (f_tag f); split_and!; try lia; done.
Qed.

Lemma en10mb_proto_frame ctx n :
  n <> 0 -> dlt_en10mb_proto ctx n (frame_bytes f ++ r) = Ok (le16 (f_type f), frame_bytes f ++ r).
Proof using W.
  intros Hn. destruct frame_hlen as (H1 & H2 & H3). pose proof (blen_nonneg (f_payload f)). pose proof (blen_nonneg r).
  cut (wp (dlt_en10mb_proto ctx n) (fun a b' => (a, b') = (le16 (f_type f), frame_bytes f ++ r)) (frame_bytes f ++ r)).
  { rewrite wp_run. intros (a & b' & -> & [= -> ->]). done. }
  unfold dlt_en10mb_proto. apply wp_bind, wp_assert; [lia|].
  apply wp_bind, wp_ld16; [lia|rewrite blen_app; lia|]. rewrite frame_is_vlan by done.
  destruct (frame_type f r W) as [Ht Hv]. case_bool_decide as Htag.
  - specialize (H3 Htag). apply wp_ld16; [lia|rewrite blen_app; lia|]. by rewrite Hv.
  - apply wp_ret. rewrite Ht. destruct (f_tag f); [discriminate Htag|done].
Qed.

Lemma en10mb_l2len_frame ctx n :
  n <> 0 -> dlt_en10mb_l2len ctx n (frame_bytes f ++ r) = Ok (hlen f, frame_bytes f ++ r).
Proof using W.
  intros Hn. destruct frame_hlen as (H1 & H2 & H3). pose proof (blen_nonneg (f_payload f)). pose proof (blen_nonneg r).
  cut (wp (dlt_en10mb_l2len ctx n) (fun a b' => (a, b') = (hlen f, frame_bytes f ++ r)) (frame_bytes f ++ r)).
  { rewrite wp_run. intros (a & b' & -> & [= -> ->]). done. }
  unfold dlt_en10mb_l2len. apply wp_bind, wp_assert; [lia|].
  apply wp_bind, wp_ld16; [lia|rewrite blen_app; lia|]. rewrite frame_is_vlan by done.
  apply wp_ret. unfold hlen. by destruct (f_tag f).
Qed.
End layer2.

(** The plugin API on a frame, when the Ethernet plugin is registered. *)
Section api_frame.
Context (other : Z -> option plugin_ops) (ctx : tcpeditdlt) (n : Z) (Hn : 0 < n).
Context (Hplug : tcpedit_dlt_getplugin ctx DLT_EN10MB <> None).

Lemma with_en10mb {A} err (k : plugin_ops -> M A) Q b :
  wp (k dlt_en10mb_ops) Q b -> wp (with_plugin other ctx DLT_EN10MB n err k) Q b.
Proof using Hn Hplug.
  intros H. unfold with_plugin. apply wp_bind, wp_assert; [done|]. apply wp_bind, wp_assert; [lia|].
  by destruct (tcpedit_dlt_getplugin ctx DLT_EN10MB).
Qed.

Lemma wp_l2len_frame f r Q :
  frame_wf f -> Q (hlen f) (frame_bytes f ++ r) ->
  wp (tcpedit_dlt_l2len other ctx DLT_EN10MB n) Q (frame_bytes f ++ r).
Proof using Hn Hplug.
  intros W HQ. apply with_en10mb. cbn. unfold wp. by rewrite en10mb_l2len_frame by (done || lia).
Qed.

Lemma wp_l3data_frame f r Q :
  frame_wf f -> hlen f < n -> Q (Some (hlen f)) (frame_bytes f ++ r) ->
  wp (tcpedit_dlt_l3data other ctx DLT_EN10MB n) Q (frame_bytes f ++ r).
Proof using Hn Hplug.
  intros W Hlt HQ. apply with_en10mb. cbn. unfold dlt_en10mb_get_layer3, tcpedit_dlt_l3data_copy.
  apply wp_bind, wp_assert; [lia|]. apply wp_bind. unfold wp at 1.
  rewrite en10mb_l2len_frame by (done || lia). apply wp_bind, wp_assert; [lia|]. apply wp_ret.
  by replace (n <=? hlen f) with false by lia.
Qed.

Lemma wp_merge_frame h b Q :
  18 <= n -> 14 <= blen b -> Q (Some 0) b -> wp (tcpedit_dlt_merge_l3data other ctx DLT_EN10MB n (Some h)) Q b.
Proof using Hn Hplug.
  intros Hn18 Hb HQ. unfold tcpedit_dlt_merge_l3data.
  apply wp_bind, wp_assert; [done|]. apply wp_bind, wp_assert; [lia|].
  destruct (tcpedit_dlt_getplugin ctx DLT_EN10MB); [|done]. cbn.
  unfold dlt_en10mb_merge_layer3, dlt_en10mb_l2len, tcpedit_dlt_l3data_merge.
  apply wp_bind, wp_bind, wp_assert; [lia|]. wp_steps.
  destruct (_ =? 33024); (apply wp_assert; [lia|]); apply wp_bind, wp_assert; try lia;
    apply wp_bind, wp_assert; try lia; by apply wp_ret.
Qed.
End api_frame.

(** A packet behind a layer-2 header. *)
Lemma get8_shift l p r i : 0 <= i < blen p -> get8 (l ++ p ++ r) (blen l + i) = get8 p i.
Proof.
  intros Hi. pose proof (blen_nonneg l). rewrite !get8_lookup by lia. unfold blen in *.
  rewrite lookup_app_r by lia. rewrite lookup_app_l by lia. do 2 f_equal. lia.
Qed.

(** The fields of the IPv4 header of a frame. *)
Lemma frame_shift f r :
  frame_wf f -> 20 <= blen (f_payload f) ->
  let b := frame_bytes f ++ r in let h := hlen f in let p := f_payload f in
  ip_hl b h = ip_hl p 0 /\ ip_v b h = ip_v p 0 /\ ip_p b h = ip_p p 0
  /\ ip_off b h = ip_off p 0 /\ ip_len b h = ip_len p 0.
Proof.
  intros W Hp b h p.
  assert (G : forall i, 0 <= i < 20 -> get8 b (h + i) = get8 p i).
  { intros i Hi. unfold b, h, frame_bytes. rewrite <-app_assoc, <-(blen_hdr f) by done. apply get8_shift. subst p. lia. }
  assert (G0 : get8 b h = get8 p 0) by (rewrite <-(Z.add_0_r h); apply G; lia).
  unfold ip_hl, ip_v, ip_p, ip_off, ip_len, get16. rewrite <-!Z.add_assoc, !G, G0 by lia. done.
Qed.

Lemma wf4_shift l p r : wf4 p 0 -> bytes_ok (l ++ p ++ r) -> wf4 (l ++ p ++ r) (blen l).
Proof.
  intros [Wb _ Whl Wlen Wl4] Hb. pose proof (blen_nonneg l). pose proof (blen_nonneg r).
  assert (Hl : blen (l ++ p ++ r) = blen l + blen p + blen r) by (rewrite !blen_app; lia).
  assert (G : forall i, 0 <= i < blen p -> get8 (l ++ p ++ r) (blen l + i) = get8 p i) by (intros; by apply get8_shift).
  assert (Hhl : ip_hl (l ++ p ++ r) (blen l) = ip_hl p 0).
  { unfold ip_hl. rewrite <-(Z.add_0_r (blen l)), G by lia. done. }
  assert (Hp : ip_p (l ++ p ++ r) (blen l) = ip_p p 0) by (unfold ip_p; by rewrite G by lia).
  assert (Ho : ip_off (l ++ p ++ r) (blen l) = ip_off p 0).
  { unfold ip_off, get16. rewrite <-Z.add_assoc, !G by lia. done. }
  split; rewrite ?Hhl, ?Hl; try done; [lia|].
  intros f Hf. unfold l4_field in Hf, Wl4. rewrite Ho, Hp, Hhl in Hf.
  repeat case_match; simplify_eq; specialize (Wl4 _ eq_refl); lia.
Qed.

(** ** The whole editor on an IPv4 packet over Ethernet *)

(** A captured packet: frame [f] of type IPv4 whose payload is a well-formed
    packet, in a buffer with room for a tag; [f'] is the frame that layer 2
    makes of it. *)
Record ipv4_job (e : editor) (c : en10mb_config) (f f' : frame) (r : buf) (hdr : pkthdr)
    (dir : tcpr_dir) : Prop := {
  j_ctx : enet_ctx (dlt_ctx e) c;
  j_dir : dir = DIR_C2S \/ dir = DIR_S2C;
  j_frame : frame_wf f;
  j_type : f_type f = (8, 0);
  j_edit : edit_frame (dlt_ctx e) c dir f = Some f';
  j_room : 4 <= blen r;
  j_bytes : bytes_ok (frame_bytes f ++ r);
  j_ip : wf4 (f_payload f) 0;
  j_caplen : caplen hdr = blen (frame_bytes f);
  j_len : len hdr = blen (frame_bytes f);
  j_size : blen (frame_bytes f) < 65536;
  j_opts : l3_opts (opts e);
  j_efcs : efcs (opts e) = false
}.

Definition new_hdr (f' : frame) : pkthdr :=
  {| caplen := blen (frame_bytes f'); len := blen (frame_bytes f') |}.

Section job.
Context (base : Z) (other : Z -> option plugin_ops).
Context (e : editor) (c : en10mb_config) (f f' : frame) (r : buf) (hdr : pkthdr) (dir : tcpr_dir).
Context (J : ipv4_job e c f f' r hdr dir).

Lemma job_frame' :
  frame_wf f' /\ f_payload f' = f_payload f /\ f_type f' = (8, 0)
  /\ 20 <= blen (f_payload f) /\ blen (frame_bytes f') < 65540.
Proof using J.
  destruct J as [[_ _ _ C _] _ W Ht E _ _ [_ _ Hhl Hlen _] _ _ Hs _ _].
  assert (W' : frame_wf f') by (eapply (edit_frame_wf _ c dir f f' W C E); by rewrite Ht).
  destruct (edit_frame_len _ c dir f f' W C E) as (Hp & Hty & _ & _).
  destruct (frame_hlen f W) as (? & ? & _). destruct (frame_hlen f' W') as (? & ? & _).
  split_and!; [done|done|congruence|lia|]. rewrite Hp in *. lia.
Qed.

Lemma job_plugin ctx : plugins ctx = plugins (dlt_ctx e) -> tcpedit_dlt_getplugin ctx DLT_EN10MB <> None.
Proof using J.
  destruct J as [[_ _ Hc _ _] _ _ _ _ _ _ _ _ _ _ _ _]. unfold en10mb_config_of in Hc.
  rewrite getplugin_find in *. intros ->. by destruct (List.find _ _).
Qed.

(** The steps around [edit_l3]. *)
Lemma tcpedit_packet_steps (P : buf -> buf -> Prop) :
  (forall e' ctx' r', opts e' = opts e -> same_setup (dlt_ctx e) ctx' ->
    wf4 (frame_bytes f' ++ r') (hlen f') ->
    wp (edit_l3 base e' ctx' (Some (hlen f')) None (bswap16 ETHERTYPE_IP) (hlen f') (new_hdr f') dir)
       (fun rc b' => rc = (0, new_hdr f') /\ blen b' = blen (frame_bytes f' ++ r') /\ P (frame_bytes f' ++ r') b')
       (frame_bytes f' ++ r')) ->
  wp (tcpedit_packet base other e hdr dir)
     (fun res b' => res.1 = (0, new_hdr f')
        /\ run res.2 = count_packet (next_packet (run e)) (caplen (new_hdr f'))
        /\ exists r', P (frame_bytes f' ++ r') b') (frame_bytes f ++ r).
Proof using J.
  intros HP. destruct job_frame' as (W' & Hp & Ht' & Hpl & Hsz').
  pose proof job_plugin as Hplug.
  destruct J as [X Hdir W Ht E Hr Hb Hip Hc Hl Hs O Hef]. pose proof X as [Xd Xe Xc C Xx].
  destruct (frame_hlen f W) as (Hh & Hbl & _). destruct (frame_hlen f' W') as (Hh' & Hbl' & _).
  rewrite Hp in Hbl'. unfold tcpedit_packet. rewrite Hef. cbv zeta.
  assert (Hi32 : forall x, 0 <= x < 65540 -> i32 x = x) by (intros; unfold i32; dlia).
  rewrite Hc, (Hi32 (blen (frame_bytes f))) by lia.
  unfold tcpedit_dlt_src, tcpedit_dlt_dst, tcpedit_dlt_proto, with_plugin. rewrite Xd.
  apply wp_bind. apply wp_bind, wp_assert; [done|]. apply wp_bind, wp_assert; [lia|].
  destruct (tcpedit_dlt_getplugin (dlt_ctx e) 1) as [pl|] eqn:Epl; [|by apply (Hplug (dlt_ctx e)) in Epl].
  unfold call at 1. cbn [ops_of Z.eqb Pos.eqb plugin_proto dlt_en10mb_ops].
  unfold wp at 1. rewrite en10mb_proto_frame by (done || lia). rewrite Ht.
  apply wp_bind. eapply wp_mono; [|by apply (process_ok other (dlt_ctx e) c f r dir X)].
  intros [n ctx'] b1 [S1 H1]. cbn [fst snd] in S1, H1. rewrite E in H1.
  destruct H1 as (-> & r1 & -> & Hlen1 & Hb1). specialize (Hb1 Hb).
  replace (blen (frame_bytes f') =? -1) with false by lia.
  replace (blen (frame_bytes f') =? -2) with false by lia.
  destruct (S1) as (Spl & Sd & Se & _).
  change (bswap16 2048 =? bswap16 34525) with false. change (le16 (8, 0)) with (bswap16 2048).
  rewrite Z.eqb_refl. cbn [caplen len].
  rewrite Hl. replace (u32 (blen (frame_bytes f) + (blen (frame_bytes f') - blen (frame_bytes f))))
    with (blen (frame_bytes f')) by (rewrite u32_id; unfold is_u32; lia).
  rewrite (Hi32 (blen (frame_bytes f'))) by lia. rewrite Se, Xe.
  apply wp_bind, wp_l2len_frame; [lia|by apply Hplug|done|].
  apply wp_bind, wp_bind, wp_l3data_frame; [lia|by apply Hplug|done|lia|]. apply wp_ret.
  rewrite !bool_decide_eq_false_2 by done. cbn [andb orb]. fold (new_hdr f').
  assert (Wb : wf4 (frame_bytes f' ++ r1) (hlen f')).
  { unfold frame_bytes in *. rewrite <-app_assoc in *. rewrite <-(blen_hdr f') by done. rewrite Hp in *.
    by apply wf4_shift. }
  apply wp_bind. eapply wp_mono; [|by apply HP]. intros [rc hdr'] b2 ([= -> ->] & Hb2 & HPb).
  cbn [Z.ltb Z.compare caplen new_hdr]. rewrite (Hi32 (blen (frame_bytes f'))) by lia.
  pose proof (blen_nonneg r1). rewrite blen_app in Hb2.
  apply wp_bind, wp_merge_frame; [lia|by apply Hplug|lia|lia|]. apply wp_ret. cbn [fst snd run].
  split_and!; [done..|]. by exists r1.
Qed.
End job.

(** ** Properties *)

(** C19: tcpedit_packet on an IPv4 packet over Ethernet, with any combination
    of VLAN and MAC edits, TOS, TTL, port, address-map and randomizing options
    but without length fixes or --fixcsum, and with a port map only if the
    packet is not a later fragment ([frag_off] is 0; [rewrite_ipv4_ports] does
    not look at it and takes the payload of a fragment for a TCP or UDP
    header, see
    [rewrite_ipv4_ports_spec]): it returns 0, the packet becomes
    the edited frame, the header and segment sums are those of the captured
    packet, nothing is changed outside the fields the options name, and the
    counters count the packet. *)
Theorem tcpedit_packet_keeps_sums base other e c f f' r hdr dir :
  ipv4_job e c f f' r hdr dir -> fixcsum (opts e) = false ->
  portmap (opts e) = [] \/ frag_off (ip_off (f_payload f) 0) = 0 ->
  wp (tcpedit_packet base other e hdr dir)
     (fun res b' => res.1 = (0, new_hdr f')
        /\ run res.2 = count_packet (next_packet (run e)) (caplen (new_hdr f'))
        /\ exists r', pipe4 (hlen f') (frame_bytes f' ++ r') b') (frame_bytes f ++ r).
Proof.
  intros J Hf Hfr. apply (tcpedit_packet_steps base other e c f f' r hdr dir J).
  intros e' ctx' r' He _ W. destruct (job_frame' e c f f' r hdr dir J) as (W' & Hp & _ & Hpl & _).
  eapply wp_mono; [|apply edit_l3_keep; [done|rewrite He; apply J| |by rewrite He]].
  - intros rc b' [-> E]. split_and!; [done|apply E|done].
  - rewrite He. destruct (frame_shift f' r' W') as (_ & _ & _ & -> & _); [rewrite Hp; lia|]. by rewrite Hp.
Qed.

(** C20: with --fixcsum, a complete unfragmented TCP packet leaves tcpedit_packet
    with a header checksum and a TCP checksum that verify. *)
Theorem tcpedit_packet_fixes_sums base other e c f f' r hdr dir :
  let p := f_payload f in let seglen := bswap16 (ip_len p 0) - 4 * ip_hl p 0 in
  ipv4_job e c f f' r hdr dir -> fixcsum (opts e) = true ->
  ip_v p 0 <> 6 -> frag_off (ip_off p 0) = 0 -> ip_p p 0 = IPPROTO_TCP ->
  o_th_sum + 2 <= seglen -> 4 * ip_hl p 0 + seglen <= blen p ->
  wp (tcpedit_packet base other e hdr dir)
     (fun res b' => res.1 = (0, new_hdr f')
        /\ run res.2 = count_packet (next_packet (run e)) (caplen (new_hdr f'))
        /\ verifies (ip_total b' (hlen f'))
        /\ verifies (l4_total b' (hlen f') (hlen f' + 4 * ip_hl p 0) IPPROTO_TCP seglen))
     (frame_bytes f ++ r).
Proof.
  intros p seglen J Hf Hv Hfr Hp Hs Hl.
  eapply wp_mono; [|apply (tcpedit_packet_steps base other e c f f' r hdr dir J
    (fun _ b' => verifies (ip_total b' (hlen f'))
       /\ verifies (l4_total b' (hlen f') (hlen f' + 4 * ip_hl p 0) IPPROTO_TCP seglen)))].
  { intros res b' (? & ? & _ & ? & ?). done. }
  intros e' ctx' r' He _ W. destruct (job_frame' e c f f' r hdr dir J) as (W' & Hpp & _ & Hpl & _).
  destruct (frame_shift f' r' W') as (S1 & S2 & S3 & S4 & S5); [rewrite Hpp; lia|].
  rewrite Hpp in S1, S2, S3, S4, S5. fold p in S1, S2, S3, S4, S5.
  destruct (frame_hlen f' W') as (_ & Hb & _). pose proof (blen_nonneg r'). rewrite Hpp in Hb. fold p in Hb.
  pose proof (edit_l3_fix base e' ctx' (new_hdr f') dir (frame_bytes f' ++ r') (hlen f')
    (bswap16 ETHERTYPE_IP) (hlen f')) as L.
  cbv zeta in L. rewrite He, S1, S2, S3, S4, S5 in L. fold seglen in L.
  eapply wp_mono; [|apply L; [done|apply J|done|done|done|done|done|done|rewrite blen_app; lia]].
  intros rc b' (-> & ? & ? & ?). done.
Qed.

(** ** Witnesses *)

Definition tcp_frame : frame := {|
  f_dst := [2; 0; 0; 0; 0; 1]; f_src := [2; 0; 0; 0; 0; 2]; f_tag := None; f_type := (8, 0);
  f_payload := drop 14 sample_tcp
|}.
Definition set_fixcsum (t : tcpedit) : tcpedit := {|
  skip_broadcast := skip_broadcast t; fixlen := fixlen t; rewrite_ip := rewrite_ip t; fixcsum := true;
  efcs := efcs t; ttl_mode := ttl_mode t; ttl_value := ttl_value t; tos := tos t; flowlabel := flowlabel t;
  tclass := tclass t; cidrmap1 := cidrmap1 t; cidrmap2 := cidrmap2 t; srcipmap := srcipmap t;
  dstipmap := dstipmap t; seed := seed t; portmap := portmap t; mtu := mtu t;
  mtu_truncate := mtu_truncate t; maxpacket := maxpacket t
|}.
Definition sample_run : tcpedit_runtime :=
  {| packetnum := 0; total_bytes := 0; pkts_edited := 0; dlt1 := DLT_EN10MB; dlt2 := DLT_EN10MB |}.
(** The sample options with --enet-vlan=add --enet-vlan-tag=100 and priority 5. *)
Definition sample_editor (t : tcpedit) : editor :=
  {| opts := t; dlt_ctx := ctx_enet (with_vlan VLAN_ADD 100 5 0); run := sample_run |}.
Definition tagged_frame : frame := set_tag tcp_frame (Some (user_tag 100 5 0)).

Lemma job_sample t :
  l3_opts t -> efcs t = false ->
  ipv4_job (sample_editor t) (with_vlan VLAN_ADD 100 5 0) tcp_frame tagged_frame (replicate 8 0)
    {| caplen := 58; len := 58 |} DIR_C2S.
Proof.
  intros O He.
  assert (frame_wf tcp_frame) by (split; try done; concrete).
  assert (wf4 (drop 14 sample_tcp) 0).
  { split; try concrete. intros f Hf. vm_compute in Hf. injection Hf as <-. concrete. }
  assert (enet_ctx (dlt_ctx (sample_editor t)) (with_vlan VLAN_ADD 100 5 0)) by apply ctx_enet_ok, with_vlan_wf.
  split; try done; try (by left); concrete.
Qed.
Lemma l3_opts_sample : l3_opts sample_edit /\ l3_opts (set_fixcsum sample_edit).
Proof.
  assert (H : Forall map4_ok [map_192_10]) by (constructor; [apply map4_ok_sample|constructor]).
  split; split; try concrete; split_and!; try exact H; try constructor; done.
Qed.

Lemma tcpedit_packet_keeps_witness :
  wp (tcpedit_packet 0 (fun _ => None) (sample_editor sample_edit) {| caplen := 58; len := 58 |} DIR_C2S)
     (fun res b' => res.1.1 = 0 /\ exists r', pipe4 18 (frame_bytes tagged_frame ++ r') b')
     (frame_bytes tcp_frame ++ replicate 8 0).
Proof.
  eapply wp_mono; [|apply (tcpedit_packet_keeps_sums 0 (fun _ => None) (sample_editor sample_edit)
    (with_vlan VLAN_ADD 100 5 0) tcp_frame tagged_frame (replicate 8 0) {| caplen := 58; len := 58 |} DIR_C2S)].
  - intros res b' (-> & _ & H). by split.
  - apply job_sample; [apply l3_opts_sample|done].
  - done.
  - right. concrete.
Defined.

Lemma tcpedit_packet_fixes_witness :
  wp (tcpedit_packet 0 (fun _ => None) (sample_editor (set_fixcsum sample_edit)) {| caplen := 58; len := 58 |} DIR_C2S)
     (fun res b' => verifies (ip_total b' 18)) (frame_bytes tcp_frame ++ replicate 8 0).
Proof.
  eapply wp_mono; [|apply (tcpedit_packet_fixes_sums 0 (fun _ => None) (sample_editor (set_fixcsum sample_edit))
    (with_vlan VLAN_ADD 100 5 0) tcp_frame tagged_frame (replicate 8 0) {| caplen := 58; len := 58 |} DIR_C2S)].
  - by intros res b' (_ & _ & H & _).
  - apply job_sample; [apply l3_opts_sample|done].
  - done.
  - concrete.
  - concrete.
  - concrete.
  - concrete.
  - concrete.
Defined.

(** the length fixes use the header length of the captured packet, also when
    a tag has been added: after --mtu-trunc to an MTU of 40 bytes the packet has
    four bytes less than its IP header says. *)
Theorem mtu_trunc_with_vlan :
  exists hdr' e' b',
    tcpedit_packet 0 (fun _ => None) (sample_editor (edit_len FIXLEN_OFF true 40)) {| caplen := 58; len := 58 |}
      DIR_C2S (frame_bytes tcp_frame ++ replicate 8 0) = Ok ((0, hdr', e'), b')
    /\ caplen hdr' = 54 /\ bswap16 (ip_len b' 18) = 40.
Proof. eexists _, _, _. split; [vm_compute; reflexivity|]. by vm_compute. Qed.
