(* ===== verification/Replay.v ===== *)
(** * The replay controller: [ddtcpreplay/src/tcpreplay.c], [replay.c] and the
    main loop of [tcpreplay_api.c]

    DDTCPReplay plays four captures (rise, high, fall, low) under the control
    of messages "high", "low", "start" and "stop" from the DoubleDecker bus.
    The messages are handled in the bus thread while the main thread replays.
    The two threads share [loop_state] without a lock, and [run_loop] under the
    mutex [dd_startm]; the model has one step per shared access.

    Sending the packets of a capture is one step; what libpcap says about a
    file is a parameter. *)

From Stdlib Require Import ZArith Lia String.
From stdpp Require Import base list strings.
From S2P Require Import Prelude.

Abbreviation ST_RISE := 0.
Abbreviation ST_HIGH := 1.
Abbreviation ST_FALL := 2.
Abbreviation ST_LOW := 3.
Abbreviation source_filename := 1.
Abbreviation source_fd := 2.
Abbreviation source_cache := 3.

(** ** The sources of a pass *)

(** What libpcap reports about a capture file. *)
Record pcap := { snapshot : Z; datalink : Z }.

(** The options and interface data a pass reads.  [pcap_open] is
    pcap_open_offline on the file of an index. *)
Record config := {
  sources : list Z;
  dualfile : bool;
  preload_pcap : bool;
  cached : Z -> bool;
  pcap_open : Z -> option pcap;
  filename_is_stdin : Z -> bool;
  intf1dlt : Z;
  intf2dlt : Z
}.
Definition source_cnt (c : config) : Z := Z.of_nat (length (sources c)).
Definition source_type (c : config) (idx : Z) : Z := nth (Z.to_nat idx) (sources c) 0.

(** A file is opened unless it is in the preload cache. *)
Definition must_open (c : config) (idx : Z) : bool := negb (preload_pcap c && cached c idx).

(** Each of the following returns the return code and the files replayed. *)
Definition replay_file (c : config) (idx : Z) : Z * list Z :=
  if must_open c idx && bool_decide (pcap_open c idx = None) then (-1, []) else (0, [idx]).

Definition replay_cache (idx : Z) : Z * list Z := (0, []).
Definition replay_fd (idx : Z) : Z * list Z := (0, []).
Definition replay_two_caches (idx1 idx2 : Z) : Z * list Z := (0, []).
Definition replay_two_fds (idx1 idx2 : Z) : Z * list Z := (0, []).

(** Warnings: a short snaplen or a link type that differs from the interface's. *)
Definition file_warns (p : pcap) (dlt : Z) : bool :=
  (snapshot p <? 65535) || ((0 <=? dlt) && negb (dlt =? datalink p)).

Definition replay_two_files (c : config) (idx1 idx2 : Z) : res (Z * list Z) :=
  if filename_is_stdin c idx1 || filename_is_stdin c idx2 then Ok (-1, [])
  else if must_open c idx1 && bool_decide (pcap_open c idx1 = None) then Ok (-1, [])
  else if must_open c idx2 && bool_decide (pcap_open c idx2 = None) then Ok (-1, [])
  else
    let pcap1 := if must_open c idx1 then pcap_open c idx1 else None in
    let pcap2 := if must_open c idx2 then pcap_open c idx2 else None in
    match pcap1, pcap2 with
    | None, _ => Ok (0, [idx1; idx2])
    | Some _, None => Err Undef                          (* pcap_snapshot(NULL) *)
    | Some p1, Some p2 =>
        if negb (intf1dlt c =? intf2dlt c) then Ok (-1, [])
        else if file_warns p1 (intf1dlt c) || file_warns p2 (intf2dlt c)
             then Ok (-2, [idx1; idx2])
        else Ok (0, [idx1; idx2])
    end.

(** The [for] loop of single-file mode: every index but [f_index] is skipped. *)
Fixpoint single_loop (n : nat) (c : config) (f_index idx rcode : Z) : Z * list Z :=
  match n with
  | O => (rcode, [])
  | S n =>
      if negb (idx =? f_index) then single_loop n c f_index (idx + 1) rcode
      else
        let '(rcode, files) :=
          if source_type c idx =? source_filename then replay_file c idx
          else if source_type c idx =? source_fd then replay_fd idx
          else if source_type c idx =? source_cache then replay_cache idx
          else (-1, []) in
        let '(rcode, more) := single_loop n c f_index (idx + 1) rcode in
        (rcode, files ++ more)
  end.

(** The [for] loop of dual-file mode, two indices at a time; [None] is the
    early [return -1]. *)
Fixpoint dual_loop (n : nat) (c : config) (idx rcode : Z) : res (option Z * list Z) :=
  match n with
  | O => Ok (Some rcode, [])
  | S n =>
      if source_cnt c <=? idx then Ok (Some rcode, [])
      else if negb (source_type c idx =? source_type c (idx + 1)) then Ok (None, [])
      else
        '(rcode, files) ←
          (if source_type c idx =? source_filename then replay_two_files c idx (idx + 1)
           else if source_type c idx =? source_fd then Ok (replay_two_fds idx (idx + 1))
           else if source_type c idx =? source_cache then Ok (replay_two_caches idx (idx + 1))
           else Ok (-1, []));
        '(rcode, more) ← dual_loop n c (idx + 2) rcode;
        Ok (rcode, files ++ more)
  end.

Definition replay_sources (c : config) (abort : bool) (f_index : Z) : res (option Z * list Z) :=
  if abort then Ok (Some 0, [])
  else if negb (dualfile c) then
    let '(rcode, files) := single_loop (length (sources c)) c f_index 0 0 in Ok (Some rcode, files)
  else dual_loop (length (sources c)) c 0 0.

(** ** Sequential reading: one thread at a time *)

Record shared := { loop_state : Z; run_loop : Z; f_index : Z }.

Definition set_loop (s : shared) (l : Z) : shared :=
  {| loop_state := l; run_loop := run_loop s; f_index := f_index s |}.
Definition set_run (s : shared) (r : Z) : shared :=
  {| loop_state := loop_state s; run_loop := r; f_index := f_index s |}.
Definition set_index (s : shared) (i : Z) : shared :=
  {| loop_state := loop_state s; run_loop := run_loop s; f_index := i |}.

Definition handle_data (data : string) (s : shared) : Z * shared :=
  if bool_decide (data = "low"%string) then
    (0, if loop_state s =? ST_HIGH then set_loop s ST_FALL else s)
  else if bool_decide (data = "high"%string) then
    (0, if loop_state s =? ST_LOW then set_loop s ST_RISE else s)
  else if bool_decide (data = "start"%string) then (-1, set_run s 1)
  else if bool_decide (data = "stop"%string) then (-1, set_run s 0)
  else (-1, s).

(** The choice of the file before, and the change of state after replaying it. *)
Definition chosen (h : shared) : shared :=
  if loop_state h =? ST_LOW then set_index h ST_LOW
  else if loop_state h =? ST_HIGH then set_index h ST_HIGH
  else if loop_state h =? ST_RISE then set_index h ST_RISE
  else if loop_state h =? ST_FALL then set_index h ST_FALL
  else h.
Definition advanced (h : shared) : shared :=
  if (loop_state h =? ST_LOW) && (f_index h =? ST_LOW) then set_index h ST_LOW
  else if (loop_state h =? ST_HIGH) && (f_index h =? ST_HIGH) then set_index h ST_HIGH
  else if (loop_state h =? ST_RISE) && (f_index h =? ST_RISE)
       then set_loop (set_index h ST_HIGH) ST_HIGH
  else if (loop_state h =? ST_FALL) && (f_index h =? ST_FALL)
       then set_loop (set_index h ST_LOW) ST_LOW
  else h.

(** [tcpr_replay_index] when no message arrives during the pass: [None] while
    it waits for "start". *)
Definition tcpr_replay_index (c : config) (abort : bool) (s : shared)
    : option (res (Z * list Z * shared)) :=
  if run_loop s =? 0 then None
  else Some (
    let s := chosen s in
    '(rc, files) ← replay_sources c abort (f_index s);
    match rc with
    | None => Ok (-1, files, s)
    | Some rcode =>
        if rcode <? 0 then Ok (-1, files, s)
        else
          Ok (rcode, files, advanced s)
    end).

(** ** The two threads, one shared access per step *)

(** Where the main thread is.  [PHead] is the loop head of tcpreplay_replay;
    [PWait] waits for [run_loop]; [PLow] ... [PFall] are the reads of
    [loop_state] that choose the file; [QLow] ... [QFallW] the reads and writes
    after the file. *)
Inductive pc :=
| PHead | PWait | PLow | PHigh | PRise | PFall | PUnknown | PPlay
| QLow | QHigh | QRise | QRiseW | QFall | QFallW
| PDone (rcode : Z) | PFault.

(** Where the bus thread is: idle, or between the test and the store of a
    "low" or "high" message. *)
Inductive hpc := HIdle | HLowW | HHighW.

#[export] Instance pc_eq_dec : EqDecision pc.
Proof. solve_decision. Defined.
#[export] Instance hpc_eq_dec : EqDecision hpc.
Proof. solve_decision. Defined.

(** [played] is the list of files replayed so far, the latest first; [loop] the
    remaining count when [limited]. *)
Record state := {
  sh : shared; abort : bool; limited : bool; loop : Z;
  main : pc; bus : hpc; played : list Z
}.

Definition goto (s : state) (p : pc) : state :=
  {| sh := sh s; abort := abort s; limited := limited s; loop := loop s;
     main := p; bus := bus s; played := played s |}.
Definition with_sh (s : state) (h : shared) : state :=
  {| sh := h; abort := abort s; limited := limited s; loop := loop s;
     main := main s; bus := bus s; played := played s |}.
Definition with_bus (s : state) (h : hpc) : state :=
  {| sh := sh s; abort := abort s; limited := limited s; loop := loop s;
     main := main s; bus := h; played := played s |}.

(** tcpreplay_replay's loop head: [loop-- && !abort], or [!abort]. *)
Definition head_step (s : state) : state :=
  if limited s then
    let s' := {| sh := sh s; abort := abort s; limited := limited s; loop := u32 (loop s - 1);
                 main := main s; bus := bus s; played := played s |} in
    if negb (loop s =? 0) && negb (abort s) then goto s' PWait else goto s' (PDone 0)
  else if negb (abort s) then goto s PWait else goto s (PDone 0).

Definition choose (s : state) (i : Z) (other : pc) : state :=
  if loop_state (sh s) =? i then goto (with_sh s (set_index (sh s) i)) PPlay else goto s other.

Definition play_step (c : config) (s : state) : state :=
  match replay_sources c (abort s) (f_index (sh s)) with
  | Err _ => goto s PFault
  | Ok (rc, files) =>
      let rcode := default (-1) rc in
      {| sh := sh s; abort := abort s; limited := limited s; loop := loop s;
         main := if rcode <? 0 then PDone (-1) else QLow;
         bus := bus s; played := rev files ++ played s |}
  end.

Definition post (s : state) (i : Z) (hit other : pc) : state :=
  if (loop_state (sh s) =? i) && (f_index (sh s) =? i) then goto s hit else goto s other.

(** One step of the main thread; [None] when it is blocked or finished. *)
Definition main_step (c : config) (s : state) : option state :=
  match main s with
  | PHead => Some (head_step s)
  | PWait => if run_loop (sh s) =? 0 then None else Some (goto s PLow)
  | PLow => Some (choose s ST_LOW PHigh)
  | PHigh => Some (choose s ST_HIGH PRise)
  | PRise => Some (choose s ST_RISE PFall)
  | PFall => Some (choose s ST_FALL PUnknown)
  | PUnknown => Some (goto s PPlay)
  | PPlay => Some (play_step c s)
  | QLow => Some (post s ST_LOW PHead QHigh)
  | QHigh => Some (post s ST_HIGH PHead QRise)
  | QRise => Some (post s ST_RISE QRiseW QFall)
  | QRiseW => Some (goto (with_sh s (set_loop (set_index (sh s) ST_HIGH) ST_HIGH)) PHead)
  | QFall => Some (post s ST_FALL QFallW PHead)
  | QFallW => Some (goto (with_sh s (set_loop (set_index (sh s) ST_LOW) ST_LOW)) PHead)
  | PDone _ | PFault => None
  end.

(** One step of the bus thread: a message arrives when it is idle; "start" and
    "stop" take the mutex, "low" and "high" read and then write. *)
Definition bus_recv (data : string) (s : state) : state :=
  if bool_decide (data = "low"%string) then
    if loop_state (sh s) =? ST_HIGH then with_bus s HLowW else s
  else if bool_decide (data = "high"%string) then
    if loop_state (sh s) =? ST_LOW then with_bus s HHighW else s
  else with_sh s (handle_data data (sh s)).2.
Definition bus_write (s : state) : option state :=
  match bus s with
  | HIdle => None
  | HLowW => Some (with_bus (with_sh s (set_loop (sh s) ST_FALL)) HIdle)
  | HHighW => Some (with_bus (with_sh s (set_loop (sh s) ST_RISE)) HIdle)
  end.

(** The shared part of [tcpreplay_abort], called from the signal handler. *)
Definition tcpreplay_abort (s : state) : state :=
  {| sh := set_run (sh s) 1; abort := true; limited := limited s; loop := loop s;
     main := main s; bus := bus s; played := played s |}.

(** What happens in a step: the main thread moves, a message arrives, the bus
    thread stores, the user aborts. *)
Inductive event := EMain | ERecv (data : string) | EWrite | EAbort.

Inductive step (c : config) : event -> state -> state -> Prop :=
| step_main s s' : main_step c s = Some s' -> step c EMain s s'
| step_recv s data : bus s = HIdle -> step c (ERecv data) s (bus_recv data s)
| step_write s s' : bus_write s = Some s' -> step c EWrite s s'
| step_abort s : step c EAbort s (tcpreplay_abort s).

Inductive exec (c : config) : list event -> state -> state -> Prop :=
| exec_nil s : exec c [] s s
| exec_cons e evs s1 s2 s3 : step c e s1 s2 -> exec c evs s2 s3 -> exec c (e :: evs) s1 s3.

(** The globals of tcpreplay.c and replay.c at program start. *)
Definition init (loops : Z) : state :=
  {| sh := {| loop_state := ST_LOW; run_loop := 0; f_index := 0 |}; abort := false;
     limited := 0 <? loops; loop := loops; main := PHead; bus := HIdle; played := [] |}.

Definition reachable (c : config) (loops : Z) (s : state) : Prop :=
  exists evs, exec c evs (init loops) s.

(** ** The promised order of the captures *)

(** The levels: between the low and the high capture comes the rise, between
    the high and the low capture the fall. *)
Inductive follows : Z -> Z -> Prop :=
| low_low : follows ST_LOW ST_LOW
| low_rise : follows ST_LOW ST_RISE
| rise_high : follows ST_RISE ST_HIGH
| rise_fall : follows ST_RISE ST_FALL
| high_high : follows ST_HIGH ST_HIGH
| high_fall : follows ST_HIGH ST_FALL
| fall_low : follows ST_FALL ST_LOW
| fall_rise : follows ST_FALL ST_RISE.

(** A history, latest first, that starts from the low level. *)
Fixpoint ordered (files : list Z) : Prop :=
  match files with
  | [] => True
  | f :: files => follows (default ST_LOW (head files)) f /\ ordered files
  end.

Definition latest (s : state) : Z := default ST_LOW (head (played s)).

(** [loop_state] may be ahead of the chosen file by one message. *)
Definition ahead (f l : Z) : Prop :=
  l = f \/ (f = ST_LOW /\ l = ST_RISE) \/ (f = ST_HIGH /\ l = ST_FALL).

(** What [loop_state] and [f_index] satisfy at each point of the main thread. *)
Definition pc_inv (s : state) : Prop :=
  let l := loop_state (sh s) in
  let f := f_index (sh s) in
  let live := abort s = false -> follows (latest s) l in
  match main s with
  | PHead | PWait | PLow => live
  | PHigh => l <> ST_LOW /\ live
  | PRise => l <> ST_LOW /\ l <> ST_HIGH /\ live
  | PFall => l = ST_FALL /\ live
  | PUnknown => False
  | PPlay => ahead f l /\ (abort s = false -> follows (latest s) f)
  | QLow | QHigh | QRise | QFall =>
      ahead f l /\ (abort s = false -> f = latest s)
      /\ (match main s with QLow => True | QHigh => ~ (f = ST_LOW /\ l = ST_LOW)
          | QRise => ~ (f = ST_LOW /\ l = ST_LOW) /\ ~ (f = ST_HIGH /\ l = ST_HIGH)
          | _ => ~ (f = ST_LOW /\ l = ST_LOW) /\ ~ (f = ST_HIGH /\ l = ST_HIGH) /\ f <> ST_RISE end)
  | QRiseW => l = ST_RISE /\ f = ST_RISE /\ (abort s = false -> latest s = ST_RISE)
  | QFallW => l = ST_FALL /\ f = ST_FALL /\ (abort s = false -> latest s = ST_FALL)
  | PDone _ | PFault => True
  end.

Record inv (s : state) : Prop := {
  inv_state : 0 <= loop_state (sh s) <= 3;
  inv_bus : match bus s with
            | HIdle => True
            | HLowW => loop_state (sh s) = ST_HIGH
            | HHighW => loop_state (sh s) = ST_LOW
            end;
  inv_pc : pc_inv s;
  inv_played : ordered (played s)
}.

(** main() refuses to run with fewer than four captures and adds each of them
    with tcpreplay_add_pcapfile, as a file name. *)
Definition four_captures (c : config) : Prop :=
  dualfile c = false /\ 4 <= source_cnt c
  /\ forall i, 0 <= i < source_cnt c -> source_type c i = source_filename.

(** The single-file loop plays exactly the chosen index. *)
Lemma single_loop_spec c f n :
  forall idx rcode, 0 <= idx -> idx + Z.of_nat n = source_cnt c ->
  (forall i, 0 <= i < source_cnt c -> source_type c i = source_filename) ->
  single_loop n c f idx rcode
  = if (idx <=? f) && (f <? source_cnt c) then replay_file c f else (rcode, []).
Proof.
  induction n as [|n IH]; intros idx rcode H0 Hn Ht; cbn [single_loop].
  - by replace ((idx <=? f) && (f <? source_cnt c)) with false by lia.
  - destruct (Z.eqb_spec idx f) as [->|Hne]; cbn [negb].
    + rewrite Ht by lia. cbn [Z.eqb Pos.eqb].
      replace ((f <=? f) && (f <? source_cnt c)) with true by lia.
      destruct (replay_file c f) as [rc files].
      rewrite IH by (done || lia). replace (f + 1 <=? f) with false by lia. cbn [andb].
      by rewrite app_nil_r.
    + rewrite IH by (done || lia). by replace (idx + 1 <=? f) with (idx <=? f) by lia.
Qed.

Lemma replay_sources_spec c f :
  four_captures c -> 0 <= f <= 3 ->
  replay_sources c false f = Ok (Some 0, [f]) \/ replay_sources c false f = Ok (Some (-1), []).
Proof.
  intros (Hd & Hn & Ht) Hf. unfold replay_sources. rewrite Hd. cbn [negb].
  rewrite single_loop_spec by (unfold source_cnt in *; done || lia).
  replace ((0 <=? f) && (f <? source_cnt c)) with true by lia.
  unfold replay_file. destruct (must_open c f && _); auto.
Qed.

Lemma ahead_follows f l : 0 <= f <= 3 -> ahead f l -> f <> ST_RISE -> f <> ST_FALL -> follows f l.
Proof.
  intros Hf Ha H1 H2. assert (f = ST_HIGH \/ f = ST_LOW) as [-> | ->] by lia;
    destruct Ha as [-> | [[? ->] | [? ->]]]; (lia || constructor).
Qed.

Lemma inv_init loops : inv (init loops).
Proof. split; cbn; try done. unfold pc_inv, latest. cbn. intros _. constructor. Qed.

(** The bus thread moves [loop_state] from low to rise or from high to fall;
    everything the main thread relies on survives that. *)
Lemma pc_inv_bus s l :
  (loop_state (sh s) = ST_HIGH /\ l = ST_FALL) \/ (loop_state (sh s) = ST_LOW /\ l = ST_RISE) ->
  pc_inv s -> pc_inv (with_bus (with_sh s (set_loop (sh s) l)) HIdle).
Proof.
  intros Hl. unfold pc_inv, ahead, latest. cbn. set (p := default ST_LOW (head (played s))).
  assert (Hf : follows p (loop_state (sh s)) -> follows p l).
  { intros HF. destruct Hl as [[E ->] | [E ->]]; rewrite E in HF; inversion HF; constructor. }
  destruct (main s); intuition (try congruence; try lia).
Qed.

Lemma inv_choose s i p :
  inv s -> main s <> PPlay -> 0 <= i <= 3 ->
  (abort s = false -> follows (latest s) (loop_state (sh s))) ->
  (loop_state (sh s) <> i -> pc_inv (goto s p)) ->
  inv (choose s i p).
Proof.
  intros [I1 I2 I3 I4] Hm Hi Hl Hp. unfold choose.
  destruct (Z.eqb_spec (loop_state (sh s)) i) as [He|He]; split; cbn; auto.
  unfold pc_inv, ahead, latest in *; cbn in *. rewrite <- He. auto.
Qed.

Lemma inv_play c s : four_captures c -> inv s -> main s = PPlay -> inv (play_step c s).
Proof.
  intros Hc [I1 I2 I3 I4] Hm. unfold pc_inv in I3. rewrite Hm in I3. destruct I3 as [Ha Hf].
  assert (H03 : 0 <= f_index (sh s) <= 3) by (unfold ahead in Ha; lia).
  unfold play_step. destruct (abort s) eqn:Hab.
  - unfold replay_sources. cbn. split; cbn; done.
  - specialize (Hf eq_refl).
    destruct (replay_sources_spec c (f_index (sh s)) Hc H03) as [-> | ->]; split; cbn; try done.
Qed.

Lemma inv_main_step c s s' : four_captures c -> inv s -> main_step c s = Some s' -> inv s'.
Proof.
  intros Hc I. pose proof I as [I1 I2 I3 I4]. unfold main_step. unfold pc_inv in I3.
  destruct (main s) eqn:Hm; intros Hs; try discriminate Hs.
  - (* PHead *) injection Hs as <-. unfold head_step.
    destruct (limited s), (abort s) eqn:Hab, (loop s =? 0); cbn; split; cbn; auto;
      unfold pc_inv; cbn; rewrite ?Hab; done.
  - (* PWait *) destruct (run_loop (sh s) =? 0); [done|]. injection Hs as <-. by split.
  - injection Hs as <-. apply inv_choose; [done|congruence|lia|done|].
    intros. by unfold pc_inv; cbn.
  - injection Hs as <-. apply inv_choose; [done|congruence|lia|tauto|].
    intros. unfold pc_inv; cbn. tauto.
  - injection Hs as <-. apply inv_choose; [done|congruence|lia|tauto|].
    intros. unfold pc_inv; cbn. split; [lia|tauto].
  - injection Hs as <-. apply inv_choose; [done|congruence|lia|tauto|]. lia.
  - done.
  - injection Hs as <-. by apply inv_play.
  - (* QLow *) injection Hs as <-. unfold post. destruct I3 as (Ha & Hp & _). unfold ahead in Ha. unfold latest in Hp.
    destruct (_ && _) eqn:E; split; cbn; try done; unfold pc_inv, latest; cbn.
    + intros Hab. rewrite <- Hp by done. apply ahead_follows; unfold ahead; lia.
    + split_and!; [done|done|lia].
  - injection Hs as <-. unfold post. destruct I3 as (Ha & Hp & Hn). unfold ahead in Ha. unfold latest in Hp.
    destruct (_ && _) eqn:E; split; cbn; try done; unfold pc_inv, latest; cbn.
    + intros Hab. rewrite <- Hp by done. apply ahead_follows; unfold ahead; lia.
    + split_and!; [done|done|lia..].
  - injection Hs as <-. unfold post. destruct I3 as (Ha & Hp & Hn). unfold ahead in Ha. unfold latest in Hp.
    destruct (_ && _) eqn:E; split; cbn; try done; unfold pc_inv, latest; cbn.
    + split_and!; [lia..|]. intros Hab. rewrite <- Hp by done. lia.
    + split_and!; [done|done|lia..].
  - (* QRiseW *) injection Hs as <-. destruct I3 as (Hl & Hf & Hp).
    split; cbn; try done; try lia.
    + by destruct (bus s); [|congruence|congruence].
    + unfold pc_inv, latest in *. cbn. intros Hab. rewrite Hp by done. constructor.
  - injection Hs as <-. unfold post. destruct I3 as (Ha & Hp & Hn). unfold ahead in Ha. unfold latest in Hp.
    destruct (_ && _) eqn:E; split; cbn; try done; unfold pc_inv, latest; cbn.
    + split_and!; [lia..|]. intros Hab. rewrite <- Hp by done. lia.
    + intros Hab. rewrite <- Hp by done. apply ahead_follows; unfold ahead; lia.
  - injection Hs as <-. destruct I3 as (Hl & Hf & Hp). split; cbn; try done; try lia.
    + by destruct (bus s); [|congruence|congruence].
    + unfold pc_inv, latest in *. cbn. intros Hab. rewrite Hp by done. constructor.
Qed.

Lemma inv_step c e s s' : four_captures c -> inv s -> step c e s s' -> inv s'.
Proof.
  intros Hc I Hs. destruct Hs as [s s' Hs|s data Hb|s s' Hs|s].
  - by eapply inv_main_step.
  - destruct I as [I1 I2 I3 I4]. unfold bus_recv, handle_data.
    repeat case_bool_decide; repeat split_if; split; cbn; try done; try lia; exact I3.
  - pose proof I as [I1 I2 I3 I4]. unfold bus_write in Hs.
    destruct (bus s) eqn:Hb; [done|injection Hs as <-..]; (split; [cbn; lia|done| |done]).
    + apply pc_inv_bus; auto.
    + apply pc_inv_bus; auto.
  - destruct I as [I1 I2 I3 I4]. split; cbn; try done. unfold pc_inv, latest in *. cbn.
    destruct (main s); intuition discriminate.
Qed.

Lemma inv_exec c evs s s' : four_captures c -> inv s -> exec c evs s s' -> inv s'.
Proof. intros Hc I. induction 1; [done|]. eauto using inv_step. Qed.

(** C17: whatever the interleaving of messages with the replay, read by read and
    write by write, the captures are played in order: a rise between low and
    high, a fall between high and low.  The read of an unknown state is
    unreachable although the reads are not protected by a lock. *)
Theorem replay_order c loops s :
  four_captures c -> reachable c loops s ->
  ordered (played s) /\ main s <> PUnknown /\ 0 <= loop_state (sh s) <= 3.
Proof.
  intros Hc [evs He]. destruct (inv_exec _ _ _ _ Hc (inv_init loops) He) as [I1 I2 I3 I4].
  split_and!; try done || lia. intros Hm. unfold pc_inv in I3. by rewrite Hm in I3.
Qed.

(** ** Stopping *)

(** One pass plays at most one capture. *)
Lemma replay_sources_le1 c ab f :
  four_captures c ->
  exists rc files, replay_sources c ab f = Ok (rc, files) /\ (length files <= 1)%nat.
Proof.
  intros (Hd & Hn & Ht). unfold replay_sources. destruct ab; [exists (Some 0), []; cbn; split; [done|lia]|].
  rewrite Hd. cbn [negb]. rewrite single_loop_spec by (unfold source_cnt in *; done || lia).
  unfold replay_file. destruct (_ && (f <? _)); [destruct (must_open c f && _)|];
    eexists _, _; (split; [reflexivity|]); cbn; lia.
Qed.

(** The captures the current pass may still start. *)
Definition pending (s : state) : nat :=
  match main s with PLow | PHigh | PRise | PFall | PUnknown | PPlay => 1 | _ => 0 end.

Definition starts (e : event) : bool :=
  match e with ERecv data => bool_decide (data = "start"%string) | EAbort => true | _ => false end.

Lemma stopped_step c e s s' :
  four_captures c -> step c e s s' -> starts e = false -> run_loop (sh s) = 0 ->
  run_loop (sh s') = 0 /\ (length (played s') + pending s' <= length (played s) + pending s)%nat.
Proof.
  intros Hc Hs He Hr. destruct Hs as [s s' Hs|s data Hb|s s' Hs|s]; [|cbn in He..|done].
  - unfold main_step in Hs. unfold pending.
    destruct (main s) eqn:Hm; try discriminate Hs; try (rewrite Hr in Hs; discriminate Hs);
      injection Hs as <-; unfold head_step, choose, post;
      try (repeat case_match; cbn; rewrite ?Hr; split; (done || lia)).
    unfold play_step. destruct (replay_sources_le1 c (abort s) (f_index (sh s)) Hc)
      as (rc & files & -> & Hl). cbn. split; [done|].
    rewrite length_app, length_rev. destruct (default (-1) rc <? 0); cbn; lia.
  - unfold bus_recv, handle_data, pending.
    repeat case_bool_decide; try done; repeat case_match; cbn in *; split; (done || lia || congruence).
  - unfold bus_write in Hs. destruct (bus s); [done|injection Hs as <-..]; by split.
Qed.

(** after "stop" at most the capture already under way is replayed, until
    "start" or an abort. *)
Theorem stop_finishes_pass c evs s s' :
  four_captures c -> run_loop (sh s) = 0 -> exec c evs s s' -> existsb starts evs = false ->
  (length (played s') <= length (played s) + pending s)%nat.
Proof.
  intros Hc Hr He. revert Hr. induction He as [s|e evs s1 s2 s3 Hs He IH]; intros Hr Hev; [lia|].
  cbn in Hev. apply orb_false_elim in Hev as [H1 H2].
  destruct (stopped_step _ _ _ _ Hc Hs H1 Hr) as [Hr' Hl]. specialize (IH Hr' H2). lia.
Qed.

(** ** A pass without interruption *)

Fixpoint main_steps (n : nat) (c : config) (s : state) : option state :=
  match n with
  | O => Some s
  | S n => match main_step c s with Some s' => main_steps n c s' | None => None end
  end.

Lemma main_steps_exec n c s s' : main_steps n c s = Some s' -> exec c (replicate n EMain) s s'.
Proof.
  revert s. induction n as [|n IH]; intros s H; cbn in *; [injection H as <-; constructor|].
  destruct (main_step c s) eqn:Hs; [|done]. econstructor; [by constructor|auto].
Qed.
Lemma main_steps_add n m c s s' :
  main_steps n c s = Some s' -> main_steps (n + m) c s = main_steps m c s'.
Proof.
  revert s. induction n as [|n IH]; intros s H; cbn in *; [by injection H as <-|].
  destruct (main_step c s); [auto|done].
Qed.

Lemma main_steps_1 c s s' : main_step c s = Some s' -> main_steps 1 c s = Some s'.
Proof. intros H. cbn. by rewrite H. Qed.

Lemma main_steps_choose c s :
  main s = PWait -> run_loop (sh s) <> 0 ->
  exists n, main_steps n c s = Some (goto (with_sh s (chosen (sh s))) PPlay).
Proof.
  intros Hm Hr. destruct s as [[l r f] ab lim lp mn bs pl]; cbn in *. subst mn.
  unfold chosen; cbn. destruct (l =? ST_LOW) eqn:E1; [exists 2%nat|
    destruct (l =? ST_HIGH) eqn:E2; [exists 3%nat|
    destruct (l =? ST_RISE) eqn:E3; [exists 4%nat|
    destruct (l =? ST_FALL) eqn:E4; [exists 5%nat|exists 6%nat]]]];
  cbn [main_steps]; unfold main_step, choose; cbn;
  replace (r =? 0) with false by lia; cbn; rewrite ?E1; cbn; rewrite ?E2; cbn;
  rewrite ?E3; cbn; rewrite ?E4; cbn; done.
Qed.

Lemma set_index_id h i : f_index h = i -> set_index h i = h.
Proof. intros <-. by destruct h. Qed.

Lemma main_steps_advance c s :
  main s = QLow ->
  exists n, main_steps n c s = Some (goto (with_sh s (advanced (sh s))) PHead).
Proof.
  intros Hm. destruct s as [[l r f] ab lim lp mn bs pl]; cbn in *. subst mn.
  unfold advanced; cbn.
  destruct ((l =? ST_LOW) && (f =? ST_LOW)) eqn:E1; [exists 1%nat|
    destruct ((l =? ST_HIGH) && (f =? ST_HIGH)) eqn:E2; [exists 2%nat|
    destruct ((l =? ST_RISE) && (f =? ST_RISE)) eqn:E3; [exists 4%nat|
    destruct ((l =? ST_FALL) && (f =? ST_FALL)) eqn:E4; [exists 5%nat|exists 4%nat]]]];
  cbn [main_steps]; unfold main_step, post; cbn; rewrite ?E1; cbn; rewrite ?E2; cbn;
  rewrite ?E3; cbn; rewrite ?E4; cbn; try done.
  - rewrite set_index_id; [done|cbn; lia].
  - rewrite set_index_id; [done|cbn; lia].
Qed.

(** when no message interrupts it, the main thread's reads and writes
    compose to [tcpr_replay_index]: same files, same final globals, same return
    code, and back at the loop head (or finished, on an error). *)
Theorem pass_refines c s rc files h :
  main s = PWait -> tcpr_replay_index c (abort s) (sh s) = Some (Ok (rc, files, h)) ->
  exists n s', exec c (replicate n EMain) s s' /\ sh s' = h
    /\ played s' = rev files ++ played s
    /\ main s' = if rc <? 0 then PDone (-1) else PHead.
Proof.
  intros Hm H. unfold tcpr_replay_index in H.
  destruct (Z.eqb_spec (run_loop (sh s)) 0) as [|Hr]; [done|].
  destruct (main_steps_choose c s Hm Hr) as [n1 H1]. injection H as H.
  set (s1 := goto (with_sh s (chosen (sh s))) PPlay) in *.
  assert (H2 : main_step c s1 = Some (play_step c s1)) by done.
  unfold play_step in H2. change (abort s1) with (abort s) in H2. change (sh s1) with (chosen (sh s)) in H2.
  destruct (replay_sources c (abort s) (f_index (chosen (sh s)))) as [[rco fs]|]; [|done].
  unfold mbind, res_bind in H.
  assert (Hrun : forall s', main_steps 1 c s1 = Some s' -> main_steps (n1 + 1) c s = Some s').
  { intros s' Hs'. by rewrite (main_steps_add _ _ _ _ _ H1). }
  destruct rco as [rcode|]; [destruct (Z.ltb_spec rcode 0) as [Hlt|Hge]|]; cbn in H2.
  - injection H as <- <- <-. replace (rcode <? 0) with true in H2 by lia.
    eexists (n1 + 1)%nat, _. split; [apply main_steps_exec, Hrun, main_steps_1, H2|].
    by split_and!.
  - injection H as <- <- <-. replace (rcode <? 0) with false in H2 by lia.
    set (s2 := Build_state _ _ _ _ _ _ _) in H2.
    destruct (main_steps_advance c s2 eq_refl) as [n2 H3].
    eexists (n1 + 1 + n2)%nat, _. split.
    + apply main_steps_exec. erewrite main_steps_add; [exact H3|]. apply Hrun, main_steps_1, H2.
    + replace (rcode <? 0) with false by lia. by split_and!.
  - injection H as <- <- <-.
    eexists (n1 + 1)%nat, _. split; [apply main_steps_exec, Hrun, main_steps_1, H2|].
    by split_and!.
Qed.

(** Once the user aborts, no further capture is started. *)
Theorem abort_silences c evs s s' :
  abort s = true -> exec c evs s s' -> played s' = played s /\ abort s' = true.
Proof.
  intros Ha He. induction He as [s|e evs s1 s2 s3 Hs He IH]; [done|].
  assert (Hk : abort s2 = true /\ played s2 = played s1).
  { destruct Hs as [s s' Hs|s data Hb|s s' Hs|s]; [|..|done].
    - unfold main_step in Hs. destruct (main s); try discriminate Hs;
        unfold head_step, choose, post, play_step, replay_sources in Hs; rewrite ?Ha in Hs;
        repeat case_match; simplify_eq; done.
    - unfold bus_recv. by repeat case_match.
    - unfold bus_write in Hs. destruct (bus s); [done|injection Hs as <-..]; done. }
  destruct Hk as [Hk1 Hk2]. destruct (IH Hk1) as [-> ->]. done.
Qed.

(** ** Instances *)

Definition sample_config : config := {|
  sources := [1; 1; 1; 1]; dualfile := false; preload_pcap := false; cached := fun _ => false;
  pcap_open := fun _ => Some {| snapshot := 65535; datalink := 1 |};
  filename_is_stdin := fun _ => false; intf1dlt := 1; intf2dlt := 1
|}.

Lemma four_captures_sample : four_captures sample_config.
Proof.
  split_and!; [done|concrete|]. intros i Hi. unfold source_cnt in Hi. cbn in Hi.
  assert (i = 0 \/ i = 1 \/ i = 2 \/ i = 3) as [-> | [-> | [-> | ->]]] by lia; done.
Qed.

(** Messages "start", then "high" while the low capture plays, then two passes. *)
Definition sample_events : list event :=
  [ERecv "start"] ++ replicate 3 EMain ++ [ERecv "high"; EWrite] ++ replicate 25 EMain.
Fixpoint run_events (c : config) (evs : list event) (s : state) : option state :=
  match evs with
  | [] => Some s
  | e :: evs =>
      match (match e with
             | EMain => main_step c s
             | ERecv d => match bus s with HIdle => Some (bus_recv d s) | _ => None end
             | EWrite => bus_write s
             | EAbort => Some (tcpreplay_abort s)
             end) with
      | Some s => run_events c evs s
      | None => None
      end
  end.
Lemma run_events_exec c evs s s' : run_events c evs s = Some s' -> exec c evs s s'.
Proof.
  revert s. induction evs as [|e evs IH]; intros s H; cbn in H; [injection H as <-; constructor|].
  destruct e as [|d| |].
  - destruct (main_step c s) eqn:Hs; [|done]. econstructor; [by apply step_main|auto].
  - destruct (bus s) eqn:Hb; [|done..]. econstructor; [by apply step_recv|auto].
  - destruct (bus_write s) eqn:Hs; [|done]. econstructor; [by apply step_write|auto].
  - econstructor; [by apply step_abort|auto].
Qed.

Lemma replay_order_witness :
  exists s, reachable sample_config 0 s /\ rev (played s) = [ST_LOW; ST_RISE; ST_HIGH]
    /\ ordered (played s).
Proof.
  assert (E : exists s, run_events sample_config sample_events (init 0) = Some s
    /\ rev (played s) = [ST_LOW; ST_RISE; ST_HIGH]) by (vm_compute; eexists; split; reflexivity).
  destruct E as (s & E & Hp). exists s.
  assert (Hr : reachable sample_config 0 s) by (exists sample_events; by apply run_events_exec).
  split; [done|]. split; [done|].
  apply (replay_order sample_config 0 s four_captures_sample Hr).
Defined.

(** In the middle of a pass, "stop" has arrived. *)
Definition sample_stopped : state := goto (init 0) PPlay.

Lemma stop_finishes_pass_witness :
  exists s', exec sample_config (replicate 6 EMain) sample_stopped s' /\ length (played s') = 1%nat
    /\ (length (played s') <= length (played sample_stopped) + pending sample_stopped)%nat.
Proof.
  assert (E : exists s', run_events sample_config (replicate 6 EMain) sample_stopped = Some s'
    /\ length (played s') = 1%nat) by (vm_compute; eexists; split; reflexivity).
  destruct E as (s' & E & Hl). exists s'. apply run_events_exec in E.
  split; [done|]. split; [done|].
  apply (stop_finishes_pass sample_config (replicate 6 EMain) sample_stopped s'
    four_captures_sample eq_refl E). reflexivity.
Defined.

Definition sample_waiting : state :=
  with_sh (goto (init 0) PWait) {| loop_state := ST_RISE; run_loop := 1; f_index := 0 |}.

Lemma pass_refines_witness :
  exists n s', exec sample_config (replicate n EMain) sample_waiting s'
    /\ sh s' = {| loop_state := ST_HIGH; run_loop := 1; f_index := ST_HIGH |}
    /\ played s' = [ST_RISE].
Proof.
  destruct (pass_refines sample_config sample_waiting 0 [ST_RISE]
    {| loop_state := ST_HIGH; run_loop := 1; f_index := ST_HIGH |} eq_refl)
    as (n & s' & H1 & H2 & H3 & _); [vm_compute; reflexivity|].
  exists n, s'. by split_and!.
Defined.

Lemma abort_silences_witness :
  played (tcpreplay_abort (goto (init 0) PPlay)) = [].
Proof.
  destruct (abort_silences sample_config [] (tcpreplay_abort (goto (init 0) PPlay))
    (tcpreplay_abort (goto (init 0) PPlay)) eq_refl) as [H _]; [constructor|]. exact H.
Defined.
