(* ===== verification/Cache.v ===== *)
(** * tcpprep cache files: [ddtcpreplay/src/common/cache.{c,h}]

    tcpprep decides for every packet whether and where it is sent, packs the
    decisions two bits each, and writes them to a file that tcpreplay reads
    back.  Files are the bytes written; open, read and write of the operating
    system do not fail. *)

From Stdlib Require Import ZArith Lia.
From stdpp Require Import base list.
From S2P Require Import Prelude TcpeditTypes.

Abbreviation CACHEDATASIZE := 255.
Abbreviation CACHE_PACKETS_PER_BYTE := 4.
Abbreviation CACHE_BITS_PER_PACKET := 2.
(** "tcpprep\0" and "04\0\0" *)
Definition CACHEMAGIC : list Z := [116; 99; 112; 112; 114; 101; 112; 0].
Definition CACHEVERSION : list Z := [48; 52; 0; 0].

(** [struct tcpr_cache_s]; the [next] chain is a list.  [packets] is unsigned. *)
Record tcpr_cache := { data : list Z; packets : Z }.
Definition new_cache : tcpr_cache := {| data := replicate 255 0; packets := 0 |}.

(** A conversion to (signed) [char]. *)
Definition i8 (x : Z) : Z := (x + 128) mod 256 - 128.

(** ** Adding a decision *)

(** The work on [lastcache], which has room. *)
Definition add_packet (send : bool) (interface : tcpr_dir) (n : tcpr_cache)
    : res (tcpr_dir * tcpr_cache) :=
  let n := {| data := data n; packets := u32 (packets n + 1) |} in
  if send then
    let index := (packets n - 1) / CACHE_PACKETS_PER_BYTE in
    let bit := ((packets n - 1) mod CACHE_PACKETS_PER_BYTE) * CACHE_BITS_PER_PACKET + 1 in
    if CACHEDATASIZE <=? index then Err Oob
    else
      let byte := u8 (get8 (data n) index + u8 (Z.shiftl 1 bit)) in
      if bool_decide (interface = DIR_C2S) then
        let byte := u8 (byte + u8 (Z.shiftl 1 (bit - 1))) in
        Ok (DIR_C2S, {| data := put8 (data n) index byte; packets := packets n |})
      else Ok (DIR_S2C, {| data := put8 (data n) index byte; packets := packets n |})
  else Ok (DIR_NOSEND, n).

(** [add_cache]: [lastcache] is the last node of the chain; a full node gets a
    successor. *)
Fixpoint add_cache (cachedata : list tcpr_cache) (send : bool) (interface : tcpr_dir)
    : res (tcpr_dir * list tcpr_cache) :=
  match cachedata with
  | [] => '(r, n) ← add_packet send interface new_cache; Ok (r, [n])
  | [n] =>
      if CACHEDATASIZE * CACHE_PACKETS_PER_BYTE <? u32 (packets n + 1) then
        '(r, n') ← add_packet send interface new_cache; Ok (r, [n; n'])
      else '(r, n) ← add_packet send interface n; Ok (r, [n])
  | n :: rest => '(r, rest) ← add_cache rest send interface; Ok (r, n :: rest)
  end.

(** ** Looking a decision up *)

Definition check_cache (cachedata : list Z) (packetid : Z) : res tcpr_dir :=
  if packetid =? 0 then Err (Exit (-1))
  else
    let index := (packetid - 1) / CACHE_PACKETS_PER_BYTE in
    let bit := ((packetid - 1) mod CACHE_PACKETS_PER_BYTE) * CACHE_BITS_PER_PACKET + 1 in
    if negb (in_bounds cachedata index 1) then Err Oob
    else
      let c := i8 (get8 cachedata index) in
      Ok (if Z.land c (i8 (Z.shiftl 1 bit)) =? 0 then DIR_NOSEND
          else if negb (Z.land c (i8 (Z.shiftl 1 (bit - 1))) =? 0) then DIR_C2S
          else DIR_S2C).

(** ** The file *)

(** Big-endian fields, as [htons] and [htonll] store them. *)
Definition be16 (x : Z) : list Z := [u8 (x / 256); u8 x].
Definition be64 (x : Z) : list Z :=
  [u8 (x / 2 ^ 56); u8 (x / 2 ^ 48); u8 (x / 2 ^ 40); u8 (x / 2 ^ 32);
   u8 (x / 2 ^ 24); u8 (x / 2 ^ 16); u8 (x / 2 ^ 8); u8 x].
Definition from_be (l : list Z) : Z := foldl (fun a x => 256 * a + x) 0 l.

(** The bytes written for one node: [packets] rounded up to whole bytes. *)
Definition node_chars (n : tcpr_cache) : Z :=
  packets n / CACHE_PACKETS_PER_BYTE
  + (if packets n mod CACHE_PACKETS_PER_BYTE =? 0 then 0 else 1).

Fixpoint write_nodes (nodes : list tcpr_cache) : list Z * Z :=
  match nodes with
  | [] => ([], 0)
  | n :: nodes =>
      let '(bytes, total) := write_nodes nodes in
      (take (Z.to_nat (node_chars n)) (data n) ++ bytes, packets n + total)
  end.

(** [write_cache]: the file and the return value. *)
Definition write_cache (cachedata : list tcpr_cache) (numpackets : Z) (comment : option (list Z))
    : list Z * Z :=
  let header :=
    CACHEMAGIC ++ CACHEVERSION ++ be64 numpackets ++ be16 CACHE_PACKETS_PER_BYTE
    ++ be16 (match comment with Some c => blen c | None => 0 end) in
  let '(bytes, total) := write_nodes cachedata in
  (header ++ default [] comment ++ bytes, total).

(** [atoi]: white space, a sign, decimal digits. *)
Fixpoint atoi_digits (acc : Z) (l : list Z) : Z :=
  match l with
  | c :: l => if (48 <=? c) && (c <=? 57) then atoi_digits (10 * acc + (c - 48)) l else acc
  | [] => acc
  end.

Fixpoint skip_space (l : list Z) : list Z :=
  match l with
  | c :: l' => if (c =? 32) || ((9 <=? c) && (c <=? 13)) then skip_space l' else l
  | [] => []
  end.
Definition atoi (l : list Z) : Z :=
  match skip_space l with
  | 45 :: l => - atoi_digits 0 l
  | 43 :: l => atoi_digits 0 l
  | l => atoi_digits 0 l
  end.

(** [read_cache]: the number of packets, the comment and the packed data;
    [Exit] where the code calls errx. *)
Definition read_cache (file : list Z) : res (Z * list Z * list Z) :=
  if blen file <? 24 then Err (Exit (-1))
  else if negb (bool_decide (take 8 file = CACHEMAGIC)) then Err (Exit (-1))
  else if negb (atoi (slice file 8 16) =? atoi CACHEVERSION) then Err (Exit (-1))
  else
    let num_packets := from_be (slice file 12 8) in
    let packets_per_byte := from_be (slice file 20 2) in
    let comment_len := from_be (slice file 22 2) in
    let comment := slice file 24 comment_len in
    if negb (blen comment =? comment_len) then Err (Exit (-1))
    else if packets_per_byte =? 0 then Err Undef
    else
      let cache_size := num_packets / packets_per_byte
                        + (if num_packets mod packets_per_byte =? 0 then 0 else 1) in
      let cachedata := slice file (24 + comment_len) cache_size in
      if negb (blen cachedata =? cache_size) then Err (Exit (-1))
      else Ok (num_packets, comment, cachedata).

(** ** Slots: the two bits of a packet *)

(** The packed form of a decision: send in the high bit, primary in the low. *)
Definition slot_code (send : bool) (interface : tcpr_dir) : Z :=
  if send then (if bool_decide (interface = DIR_C2S) then 3 else 2) else 0.
Definition decision (send : bool) (interface : tcpr_dir) : tcpr_dir :=
  if send then (if bool_decide (interface = DIR_C2S) then DIR_C2S else DIR_S2C) else DIR_NOSEND.

Definition slot (b : list Z) (i : Z) : Z := (get8 b (i / 4) / 4 ^ (i mod 4)) mod 4.

Lemma slot_code_range s d : 0 <= slot_code s d < 4.
Proof. unfold slot_code. repeat case_match; lia. Qed.

Lemma pow4_cases (P : Z -> Z -> Prop) j :
  0 <= j < 4 -> P 0 1 -> P 1 4 -> P 2 16 -> P 3 64 -> P j (4 ^ j).
Proof.
  intros Hj ????. assert (j = 0 \/ j = 1 \/ j = 2 \/ j = 3) as [-> | [-> | [-> | ->]]] by lia; done.
Qed.

(** A byte whose slots from [j] on are empty is small. *)
Lemma byte_small x j :
  is_u8 x -> 0 <= j < 4 -> (forall k, j <= k < 4 -> (x / 4 ^ k) mod 4 = 0) -> x < 4 ^ j.
Proof.
  intros Hx Hj Hk. unfold is_u8 in Hx.
  pose proof (Hk 3 ltac:(lia)) as H3. change (4 ^ 3) with 64 in H3.
  assert (j = 0 \/ j = 1 \/ j = 2 \/ j = 3) as [-> | [-> | [-> | ->]]] by lia;
    change (4 ^ 0) with 1; change (4 ^ 1) with 4; change (4 ^ 2) with 16; change (4 ^ 3) with 64;
    try pose proof (Hk 2 ltac:(lia)) as H2; try pose proof (Hk 1 ltac:(lia)) as H1;
    try pose proof (Hk 0 ltac:(lia)) as H0;
    change (4 ^ 2) with 16 in *; change (4 ^ 1) with 4 in *; change (4 ^ 0) with 1 in *; dlia.
Qed.

(** Filling slot [j] of such a byte: no carry, no overflow, other slots kept. *)
Lemma byte_fill x j c :
  is_u8 x -> 0 <= j < 4 -> 0 <= c < 4 -> x < 4 ^ j ->
  is_u8 (x + c * 4 ^ j)
  /\ forall k, 0 <= k < 4 -> ((x + c * 4 ^ j) / 4 ^ k) mod 4 = if k =? j then c else (x / 4 ^ k) mod 4.
Proof.
  intros Hx Hj Hc. unfold is_u8 in *. pattern j, (4 ^ j). apply pow4_cases; [done| | | |]; intros Hlt;
  (split; [lia|]); intros k Hk; pattern k, (4 ^ k); (apply pow4_cases; [done| | | |]);
  cbn [Z.eqb Pos.eqb]; dlia.
Qed.

(** ** What a chain holds *)

(** A decision as add_cache takes it. *)
Abbreviation dec := (prod bool tcpr_dir).
Definition code_at (ds : list dec) (i : Z) : Z :=
  match ds !! Z.to_nat i with Some (s, d) => slot_code s d | None => 0 end.

(** A node that holds the decisions [ds], its other slots empty. *)
Record node_holds (n : tcpr_cache) (ds : list dec) : Prop := {
  nh_len : length (data n) = 255%nat;
  nh_bytes : bytes_ok (data n);
  nh_packets : packets n = Z.of_nat (length ds);
  nh_room : (length ds <= 1020)%nat;
  nh_slots : forall i, 0 <= i < 1020 -> slot (data n) i = code_at ds i
}.

(** A chain: full nodes and a last one that is not empty. *)
Inductive holds : list tcpr_cache -> list dec -> Prop :=
| holds_last n ds : node_holds n ds -> ds <> [] -> holds [n] ds
| holds_full n rest ds ds' :
    node_holds n ds -> length ds = 1020%nat -> holds rest ds' -> holds (n :: rest) (ds ++ ds').

Lemma code_at_app_l ds ds' i :
  0 <= i < Z.of_nat (length ds) -> code_at (ds ++ ds') i = code_at ds i.
Proof. intros. unfold code_at. by rewrite lookup_app_l by lia. Qed.
Lemma code_at_app_r ds ds' i :
  Z.of_nat (length ds) <= i -> code_at (ds ++ ds') i = code_at ds' (i - Z.of_nat (length ds)).
Proof. intros. unfold code_at. rewrite lookup_app_r by lia. by rewrite Z2Nat.inj_sub, Nat2Z.id by lia. Qed.
Lemma code_at_end ds i : Z.of_nat (length ds) <= i -> code_at ds i = 0.
Proof. intros. unfold code_at. by rewrite lookup_ge_None_2 by lia. Qed.

Lemma shiftl1 n : 0 <= n -> Z.shiftl 1 n = 2 ^ n.
Proof. intros. rewrite Z.shiftl_mul_pow2 by lia. lia. Qed.

(** The two additions of add_cache are one: the code in its slot. *)
Lemma add_packet_run send interface n ds :
  node_holds n ds -> (length ds < 1020)%nat ->
  let p := Z.of_nat (length ds) in
  add_packet send interface n =
    Ok (decision send interface,
        {| data := if send then put8 (data n) (p / 4)
                     (get8 (data n) (p / 4) + slot_code send interface * 4 ^ (p mod 4))
                   else data n;
           packets := p + 1 |}).
Proof.
  intros [Hl Hb Hp Hr Hs] Hlt p. assert (Hpl : 0 <= p < 1020) by (unfold p; lia).
  unfold add_packet, slot_code, decision. cbn [data packets].
  rewrite Hp. fold p. rewrite u32_id by (unfold is_u32; lia).
  destruct send; [|done]. replace (p + 1 - 1) with p by lia.
  replace (255 <=? p / 4) with false by dlia.
  set (x := get8 (data n) (p / 4)).
  assert (Hx : is_u8 x) by (by apply get8_range). unfold is_u8 in Hx.
  assert (Hput : forall y z, u8 y = u8 z -> put8 (data n) (p / 4) y = put8 (data n) (p / 4) z).
  { intros y z He. unfold put8. by rewrite He. }
  rewrite !shiftl1 by dlia.
  case_bool_decide; f_equal; f_equal; f_equal; apply Hput; unfold u8;
    (assert (p mod 4 = 0 \/ p mod 4 = 1 \/ p mod 4 = 2 \/ p mod 4 = 3)
       as [E | [E | [E | E]]] by dlia); rewrite E;
    change (2 ^ (0 * 2 + 1)) with 2; change (2 ^ (0 * 2 + 1 - 1)) with 1;
    change (2 ^ (1 * 2 + 1)) with 8; change (2 ^ (1 * 2 + 1 - 1)) with 4;
    change (2 ^ (2 * 2 + 1)) with 32; change (2 ^ (2 * 2 + 1 - 1)) with 16;
    change (2 ^ (3 * 2 + 1)) with 128; change (2 ^ (3 * 2 + 1 - 1)) with 64;
    change (4 ^ 0) with 1; change (4 ^ 1) with 4; change (4 ^ 2) with 16; change (4 ^ 3) with 64; dlia.
Qed.

Lemma code_at_snoc ds d i :
  0 <= i -> code_at (ds ++ [d]) i
  = if i =? Z.of_nat (length ds) then slot_code d.1 d.2 else code_at ds i.
Proof.
  intros Hi. destruct (Z.eqb_spec i (Z.of_nat (length ds))) as [->|Hne].
  - rewrite code_at_app_r, Z.sub_diag by lia. unfold code_at. cbn. by destruct d.
  - destruct (Z.ltb_spec i (Z.of_nat (length ds))); [by rewrite code_at_app_l by lia|].
    rewrite !code_at_end; [done|lia|rewrite length_app; cbn; lia].
Qed.

Lemma add_packet_holds send interface n ds n' r :
  node_holds n ds -> (length ds < 1020)%nat ->
  add_packet send interface n = Ok (r, n') ->
  r = decision send interface /\ node_holds n' (ds ++ [(send, interface)]).
Proof.
  intros H Hlt Hrun. rewrite (add_packet_run send interface n ds) in Hrun by done.
  injection Hrun as <- <-. split; [done|]. destruct H as [Hl Hb Hp Hr Hs].
  set (p := Z.of_nat (length ds)) in *.
  assert (Hpl : 0 <= p < 1020) by (unfold p; lia).
  assert (H255 : blen (data n) = 255) by (unfold blen; lia).
  split; cbn [data packets].
  - destruct send; [|done]. unfold put8. by rewrite length_insert.
  - destruct send; [|done]. auto with cint.
  - rewrite length_app. cbn. lia.
  - rewrite length_app. cbn. lia.
  - intros i Hi. rewrite code_at_snoc by lia. fold p. cbn [fst snd].
    destruct send; cycle 1.
    { rewrite Hs by done. destruct (Z.eqb_spec i p) as [->|]; [|done]. by rewrite code_at_end by lia. }
    set (x := get8 (data n) (p / 4)). assert (Hx : is_u8 x) by (by apply get8_range).
    assert (Hsm : x < 4 ^ (p mod 4)).
    { apply byte_small; [done|dlia|]. intros k Hk.
      pose proof (Hs (4 * (p / 4) + k) ltac:(dlia)) as Hsk. unfold slot in Hsk.
      replace ((4 * (p / 4) + k) / 4) with (p / 4) in Hsk by dlia.
      replace ((4 * (p / 4) + k) mod 4) with k in Hsk by dlia. fold x in Hsk.
      rewrite Hsk. apply code_at_end. dlia. }
    destruct (byte_fill x (p mod 4) (slot_code true interface) Hx ltac:(dlia)
      ltac:(apply slot_code_range) Hsm) as [Hu Hk].
    unfold slot. destruct (decide (i / 4 = p / 4)) as [Heq|Hne].
    + rewrite Heq, get8_put8_eq, u8_id by (done || dlia). rewrite Hk by dlia.
      replace (i mod 4 =? p mod 4) with (i =? p) by dlia.
      destruct (i =? p) eqn:E; [done|]. rewrite <- (Hs i) by done. unfold slot. by rewrite Heq.
    + rewrite get8_put8_ne by dlia. replace (i =? p) with false by dlia. by apply Hs.
Qed.

Lemma node_holds_new : node_holds new_cache [].
Proof.
  split; cbn [data packets new_cache]; [by rewrite length_replicate| |done|cbn; lia|].
  - apply Forall_replicate. unfold is_u8. lia.
  - intros i Hi. rewrite code_at_end by (cbn; lia). unfold slot.
    rewrite get8_lookup by dlia. rewrite lookup_replicate_2 by dlia. cbn [default from_option id].
    rewrite Z.div_0_l by (apply Z.pow_nonzero; dlia). done.
Qed.

Lemma add_packet_some send interface n ds :
  node_holds n ds -> (length ds < 1020)%nat ->
  exists n', add_packet send interface n = Ok (decision send interface, n')
    /\ node_holds n' (ds ++ [(send, interface)]).
Proof.
  intros Hn Hl. pose proof (add_packet_run send interface n ds Hn Hl) as Hrun. cbn zeta in Hrun.
  eexists. split; [exact Hrun|]. by apply (add_packet_holds _ _ _ _ _ _ Hn Hl Hrun).
Qed.

Lemma add_cache_holds chain ds send interface :
  holds chain ds ->
  exists chain', add_cache chain send interface = Ok (decision send interface, chain')
    /\ holds chain' (ds ++ [(send, interface)]).
Proof.
  induction 1 as [n ds Hn Hne|n rest ds ds' Hn Hl Hr IH].
  - pose proof Hn as [_ _ Hp Hroom _]. cbn [add_cache]. rewrite Hp, u32_id by (unfold is_u32; lia).
    destruct (Z.ltb_spec (255 * 4) (Z.of_nat (length ds) + 1)) as [Hfull|Hspace].
    + destruct (add_packet_some send interface new_cache [] node_holds_new) as (n' & -> & Hn');
        [cbn; lia|]. eexists. split; [done|]. apply holds_full; [done|lia|]. by constructor.
    + destruct (add_packet_some send interface n ds Hn) as (n' & -> & Hn'); [lia|].
      eexists. split; [done|]. constructor; [done|]. by destruct ds.
  - destruct IH as (rest' & Hrun & Hr').
    assert (Heq : add_cache (n :: rest) send interface
      = '(r, rest) ← add_cache rest send interface; Ok (r, n :: rest)).
    { by destruct Hr. }
    rewrite Heq, Hrun. eexists. split; [done|]. rewrite <- (assoc_L (++)). by apply holds_full.
Qed.

(** Adding a list of decisions, as tcpprep does packet by packet. *)
Fixpoint add_all (chain : list tcpr_cache) (ds : list dec) : res (list tcpr_cache) :=
  match ds with
  | [] => Ok chain
  | (s, d) :: ds => '(_, chain) ← add_cache chain s d; add_all chain ds
  end.

Lemma add_all_from chain ds0 ds :
  holds chain ds0 -> exists chain', add_all chain ds = Ok chain' /\ holds chain' (ds0 ++ ds).
Proof.
  revert chain ds0. induction ds as [|[s d] ds IH]; intros chain ds0 H; cbn [add_all].
  - exists chain. by rewrite app_nil_r.
  - destruct (add_cache_holds chain ds0 s d H) as (chain1 & -> & H1). unfold mbind at 1, res_bind.
    destruct (IH chain1 _ H1) as (chain2 & -> & H2). exists chain2.
    by rewrite <- (assoc_L (++)) in H2.
Qed.

Lemma add_all_holds ds :
  ds <> [] -> exists chain, add_all [] ds = Ok chain /\ holds chain ds.
Proof.
  intros Hne. destruct ds as [|[s d] ds]; [done|]. cbn [add_all add_cache].
  destruct (add_packet_some s d new_cache [] node_holds_new) as (n' & -> & Hn'); [cbn; lia|].
  apply (add_all_from [n'] [(s, d)]). by constructor.
Qed.

(** ** The packed bytes *)

Definition bytes_for (n : Z) : Z := n / 4 + (if n mod 4 =? 0 then 0 else 1).

Lemma bytes_for_alt n : bytes_for n = (n + 3) / 4.
Proof. unfold bytes_for. destruct (Z.eqb_spec (n mod 4) 0); dlia. Qed.

Lemma slot_app_l b b' i : 0 <= i -> i / 4 < blen b -> slot (b ++ b') i = slot b i.
Proof.
  intros H0 Hi. unfold slot. rewrite !get8_lookup by dlia.
  by rewrite lookup_app_l by (unfold blen in Hi; dlia).
Qed.
Lemma slot_app_r b b' i :
  4 * blen b <= i -> slot (b ++ b') i = slot b' (i - 4 * blen b).
Proof.
  intros Hi. pose proof (blen_nonneg b). unfold slot. rewrite !get8_lookup by dlia.
  rewrite lookup_app_r by (unfold blen in *; dlia).
  replace ((i - 4 * blen b) mod 4) with (i mod 4) by dlia. do 4 f_equal.
  unfold blen in *. dlia.
Qed.
Lemma slot_take b k i : 0 <= i -> i / 4 < Z.of_nat k -> slot (take k b) i = slot b i.
Proof.
  intros H0 Hi. unfold slot. rewrite !get8_lookup by dlia. by rewrite lookup_take_lt by dlia.
Qed.

Lemma write_nodes_spec chain ds :
  holds chain ds ->
  let '(bytes, total) := write_nodes chain in
  total = Z.of_nat (length ds) /\ bytes_ok bytes /\ blen bytes = bytes_for (Z.of_nat (length ds))
  /\ forall i, 0 <= i < Z.of_nat (length ds) -> slot bytes i = code_at ds i.
Proof.
  induction 1 as [n ds Hn Hne|n rest ds ds' Hn Hl Hr IH]; cbn [write_nodes];
    pose proof Hn as [H255 Hb Hp Hroom Hs]; unfold node_chars; rewrite Hp;
    fold (bytes_for (Z.of_nat (length ds)));
    assert (Hk : 0 <= bytes_for (Z.of_nat (length ds)) <= 255)
      by (rewrite bytes_for_alt; dlia);
    set (k := Z.to_nat (bytes_for (Z.of_nat (length ds))));
    assert (Hlk : blen (take k (data n)) = bytes_for (Z.of_nat (length ds)))
      by (unfold blen, k; rewrite length_take; lia).
  - rewrite app_nil_r. split_and!; [lia|by apply Forall_take|done|].
    intros i Hi. rewrite slot_take; [apply Hs; lia|lia|]. unfold k in *.
    rewrite bytes_for_alt in *. dlia.
  - destruct (write_nodes rest) as [bytes total]. destruct IH as (-> & Hbs & Hlen & Hsl).
    assert (HB : bytes_for (Z.of_nat (length ds)) = 255) by (rewrite Hl; done).
    assert (HK : Z.of_nat k = 255) by (unfold k; lia). clearbody k.
    split_and!.
    + rewrite length_app. lia.
    + apply Forall_app. split; [by apply Forall_take|done].
    + rewrite length_app. replace (blen (_ ++ bytes)) with (blen (take k (data n)) + blen bytes)
        by (unfold blen; rewrite length_app; lia).
      rewrite Hlk, Hlen, HB, Hl, !bytes_for_alt, Nat2Z.inj_add. dlia.
    + intros i Hi. rewrite length_app, Hl in Hi.
      destruct (Z.ltb_spec i 1020).
      * rewrite slot_app_l, slot_take, code_at_app_l, Hs; done || dlia.
      * rewrite slot_app_r, code_at_app_r, Hlk, HB, Hl by lia. apply Hsl. lia.
Qed.

(** ** Reading back *)

Definition dir_of_code (c : Z) : tcpr_dir :=
  if c <? 2 then DIR_NOSEND else if c =? 3 then DIR_C2S else DIR_S2C.

Lemma dir_of_slot_code s d : dir_of_code (slot_code s d) = decision s d.
Proof. unfold dir_of_code, slot_code, decision. by repeat case_match. Qed.

(** The signed-[char] mask tests pick the two bits of the slot. *)
Lemma byte_dir x j :
  is_u8 x -> 0 <= j < 4 ->
  (if Z.land (i8 x) (i8 (Z.shiftl 1 (j * 2 + 1))) =? 0 then DIR_NOSEND
   else if negb (Z.land (i8 x) (i8 (Z.shiftl 1 (j * 2 + 1 - 1))) =? 0) then DIR_C2S else DIR_S2C)
  = if (x / 4 ^ j) mod 4 <? 2 then DIR_NOSEND
    else if (x / 4 ^ j) mod 4 =? 3 then DIR_C2S else DIR_S2C.
Proof.
  intros Hx Hj. unfold is_u8 in Hx.
  assert (Hall : forallb (fun x => forallb (fun j => bool_decide (
    (if Z.land (i8 x) (i8 (Z.shiftl 1 (j * 2 + 1))) =? 0 then DIR_NOSEND
     else if negb (Z.land (i8 x) (i8 (Z.shiftl 1 (j * 2 + 1 - 1))) =? 0) then DIR_C2S else DIR_S2C)
    = if (x / 4 ^ j) mod 4 <? 2 then DIR_NOSEND
      else if (x / 4 ^ j) mod 4 =? 3 then DIR_C2S else DIR_S2C)) (seqZ 0 4)) (seqZ 0 256) = true)
    by (vm_compute; done).
  assert (Hin : forall y n, 0 <= y < n -> In y (seqZ 0 n))
    by (intros; apply list_elem_of_In, elem_of_seqZ; lia).
  rewrite forallb_forall in Hall. specialize (Hall x (Hin x 256 Hx)).
  rewrite forallb_forall in Hall. specialize (Hall j (Hin j 4 Hj)).
  by apply bool_decide_eq_true in Hall.
Qed.

Lemma check_cache_slot cache i :
  bytes_ok cache -> 0 <= i -> i / 4 < blen cache ->
  check_cache cache (i + 1) = Ok (dir_of_code (slot cache i)).
Proof.
  intros Hb Hi Hl. unfold check_cache, in_bounds. replace (i + 1 =? 0) with false by lia.
  replace (i + 1 - 1) with i by lia.
  replace (negb ((0 <=? i / 4) && (i / 4 + 1 <=? blen cache))) with false by dlia.
  rewrite byte_dir; [done|by apply get8_range|dlia].
Qed.

Lemma from_be16 x : is_u16 x -> from_be (be16 x) = x.
Proof. unfold is_u16, from_be, be16, u8. cbn. intros. dlia. Qed.
Lemma from_be64 x : 0 <= x < 2 ^ 64 -> from_be (be64 x) = x.
Proof.
  intros Hx. unfold from_be, be64. cbn [foldl]. unfold u8.
  assert (Hd : forall k, 0 <= k -> x / 2 ^ (k + 8) = x / 2 ^ k / 256).
  { intros k Hk. rewrite Z.pow_add_r, <- Z.div_div by (try apply Z.pow_nonzero; lia). done. }
  change 56 with (48 + 8). rewrite Hd by lia. change 48 with (40 + 8). rewrite Hd by lia.
  change 40 with (32 + 8). rewrite Hd by lia. change 32 with (24 + 8). rewrite Hd by lia.
  change 24 with (16 + 8). rewrite Hd by lia. change 16 with (8 + 8). rewrite Hd by lia.
  change (2 ^ 8) with 256. change (2 ^ 64) with (256 * 72057594037927936) in Hx. dlia.
Qed.

Lemma slice_at (b1 b2 b3 : list Z) o n :
  o = blen b1 -> n = blen b2 -> slice (b1 ++ b2 ++ b3) o n = b2.
Proof.
  intros -> ->. unfold slice, blen. rewrite !Nat2Z.id, drop_app_length. apply take_app_length.
Qed.

Lemma read_cache_file n comment bytes :
  0 <= n < 2 ^ 64 -> blen comment < 65536 -> blen bytes = bytes_for n ->
  read_cache ((CACHEMAGIC ++ CACHEVERSION ++ be64 n ++ be16 4 ++ be16 (blen comment))
              ++ comment ++ bytes) = Ok (n, comment, bytes).
Proof.
  intros Hn Hc Hb. pose proof (blen_nonneg comment).
  set (hdr := CACHEMAGIC ++ _). assert (Hh : blen hdr = 24) by reflexivity.
  unfold read_cache. set (file := hdr ++ comment ++ bytes).
  assert (S1 : take 8 file = CACHEMAGIC) by reflexivity.
  assert (S0 : atoi (slice file 8 16) = atoi CACHEVERSION) by reflexivity.
  assert (S2 : slice file 12 8 = be64 n) by reflexivity.
  assert (S3 : slice file 20 2 = be16 4) by reflexivity.
  assert (S4 : slice file 22 2 = be16 (blen comment)) by reflexivity.
  assert (S5 : slice file 24 (blen comment) = comment) by (apply slice_at; lia).
  assert (S6 : slice file (24 + blen comment) (bytes_for n) = bytes).
  { replace file with ((hdr ++ comment) ++ bytes ++ [])
      by (unfold file; by rewrite app_nil_r, app_assoc).
    apply slice_at; [|done]. unfold blen in *. rewrite length_app. lia. }
  assert (Hlen : 24 <= blen file) by (unfold file, blen in *; rewrite length_app; lia).
  replace (blen file <? 24) with false by lia. rewrite S1, S0, S2, S3, S4.
  rewrite bool_decide_true, Z.eqb_refl, from_be64, (from_be16 4), (from_be16 (blen comment)) by
    (done || unfold is_u16; lia).
  rewrite S5, Z.eqb_refl. cbn [negb Z.eqb]. fold (bytes_for n). rewrite S6, Hb, Z.eqb_refl. done.
Qed.

(** the cache round trip.  Adding any non-empty list of decisions, writing
    the file with any comment below 64 KiB, and reading it back yields the
    number of packets, the comment, and for every packet the decision that was
    added; no byte overflows and no access leaves a node. *)
Theorem cache_roundtrip ds comment :
  ds <> [] -> Z.of_nat (length ds) < 2 ^ 32 -> blen comment < 65536 ->
  exists chain file cachedata,
    add_all [] ds = Ok chain
    /\ write_cache chain (Z.of_nat (length ds)) (Some comment) = (file, Z.of_nat (length ds))
    /\ read_cache file = Ok (Z.of_nat (length ds), comment, cachedata)
    /\ forall i s d, ds !! i = Some (s, d) ->
         check_cache cachedata (Z.of_nat i + 1) = Ok (decision s d).
Proof.
  intros Hne Hn Hc. destruct (add_all_holds ds Hne) as (chain & Hadd & Hh).
  pose proof (write_nodes_spec chain ds Hh) as Hw. exists chain. unfold write_cache.
  destruct (write_nodes chain) as [bytes total]. destruct Hw as (-> & Hb & Hlen & Hs).
  eexists _, bytes. split; [done|]. split; [done|]. set (n := Z.of_nat (length ds)) in *.
  cbn [default from_option id].
  split; [apply read_cache_file; [unfold n; lia|done|done]|].
  intros i s d Hi. pose proof (lookup_lt_Some _ _ _ Hi).
  rewrite check_cache_slot; [|done|lia|rewrite Hlen, bytes_for_alt; dlia].
  rewrite Hs by lia. unfold code_at. by rewrite Nat2Z.id, Hi, dir_of_slot_code.
Qed.

Definition sample_decisions : list (bool * tcpr_dir) :=
  [(true, DIR_C2S); (false, DIR_C2S); (true, DIR_S2C); (true, DIR_C2S); (true, DIR_S2C)].

Lemma cache_roundtrip_witness :
  exists chain file cachedata,
    add_all [] sample_decisions = Ok chain
    /\ write_cache chain 5 (Some [104; 105]) = (file, 5)
    /\ read_cache file = Ok (5, [104; 105], cachedata)
    /\ check_cache cachedata 3 = Ok DIR_S2C.
Proof.
  destruct (cache_roundtrip sample_decisions [104; 105]) as (chain & file & cd & H1 & H2 & H3 & H4);
    [done|concrete|concrete|].
  exists chain, file, cd. split_and!; try done. apply (H4 2%nat true DIR_S2C). reflexivity.
Defined.
