(* ===== verification/SendPackets.v ===== *)
(** * Sending a capture: [send_packets.c]

    The main loop takes the packets of a capture, from the file or from memory,
    chooses the interface, edits and counts the packet, waits until it is due and
    sends it.  Times are in microseconds ([struct timeval]) and nanoseconds
    ([struct timespec]); how far the clock moves between two readings of it, and by
    how much a sleep differs from what was asked for, is given for each packet and
    may be negative: a signal ends a sleep early, and the clock can be set back. *)

From Stdlib Require Import ZArith Lia.
From stdpp Require Import base list.
From S2P Require Import Prelude Samples Wire Get Flows UniqueIp TcpeditTypes Cache.

(** ** Data *)
Inductive speed_mode := speed_multiplier | speed_mbpsrate | speed_packetrate | speed_topspeed | speed_oneatatime.
#[export] Instance speed_mode_eq_dec : EqDecision speed_mode.
Proof. solve_decision. Defined.

Record send_opt := {
  o_mode : speed_mode;
  o_speed : Z;                        (* bits or packets per second *)
  o_multiplier : option (Z -> Z);     (* division of nanoseconds by the multiplier, unless it is 0 or 1 *)
  o_pps_multi : Z;
  o_maxsleep : Z;                     (* nanoseconds, 0 for no limit *)
  o_limit_send : Z;
  o_limit_time : Z;
  o_use_pkthdr_len : bool;
  o_cache_packets : Z;
  o_cachedata : list Z;
  o_intf2 : bool;                     (* there is a second interface *)
  o_preload_pcap : bool;
  o_flow_stats : bool;
  o_flow_expiry : Z;
  o_unique_ip : bool
}.

(** A packet of a capture with its header. *)
Record pcap_packet := { k_ts : Z; k_caplen : Z; k_len : Z; k_data : buf }.
Record file_cache := { cached : bool; packet_cache : list pcap_packet }.

(** What went out: on the second interface or not, the bytes, and the time the
    process takes it for. *)
Record sent := { s_intf2 : bool; s_data : buf; s_time : Z }.

Record send_ctx := {
  c_abort : bool;
  c_nap : Z;
  c_skip_packets : Z;
  c_first_time : bool;
  c_iteration : Z;
  c_bytes_sent : Z;
  c_pkts_sent : Z;
  c_start_time : Z;
  c_end_time : Z;
  c_last_time : Z;
  c_table : flow_hash_table;
  c_flows : flow_stats;
  c_sp1 : flow_stats;
  c_sp2 : flow_stats;
  c_clock : Z;
  c_sent : list sent                  (* the newest first *)
}.
Definition with_wait (c : send_ctx) (nap skip : Z) (first : bool) (clock : Z) : send_ctx :=
  {| c_abort := c_abort c; c_nap := nap; c_skip_packets := skip; c_first_time := first; c_iteration := c_iteration c;
     c_bytes_sent := c_bytes_sent c; c_pkts_sent := c_pkts_sent c; c_start_time := c_start_time c; c_end_time := c_end_time c;
     c_last_time := c_last_time c; c_table := c_table c; c_flows := c_flows c; c_sp1 := c_sp1 c; c_sp2 := c_sp2 c;
     c_clock := clock; c_sent := c_sent c |}.
Definition with_flows (c : send_ctx) (t : flow_hash_table) (f s1 s2 : flow_stats) : send_ctx :=
  {| c_abort := c_abort c; c_nap := c_nap c; c_skip_packets := c_skip_packets c; c_first_time := c_first_time c;
     c_iteration := c_iteration c; c_bytes_sent := c_bytes_sent c; c_pkts_sent := c_pkts_sent c; c_start_time := c_start_time c;
     c_end_time := c_end_time c; c_last_time := c_last_time c; c_table := t; c_flows := f; c_sp1 := s1; c_sp2 := s2;
     c_clock := c_clock c; c_sent := c_sent c |}.
Definition with_sent (c : send_ctx) (abort : bool) (len now last : Z) (x : sent) : send_ctx :=
  {| c_abort := abort; c_nap := c_nap c; c_skip_packets := c_skip_packets c; c_first_time := c_first_time c;
     c_iteration := c_iteration c; c_bytes_sent := u64 (c_bytes_sent c + len); c_pkts_sent := u64 (c_pkts_sent c + 1);
     c_start_time := c_start_time c; c_end_time := now; c_last_time := last; c_table := c_table c; c_flows := c_flows c;
     c_sp1 := c_sp1 c; c_sp2 := c_sp2 c; c_clock := c_clock c; c_sent := x :: c_sent c |}.
Definition finished (c : send_ctx) (now : Z) : send_ctx :=
  {| c_abort := c_abort c; c_nap := c_nap c; c_skip_packets := c_skip_packets c; c_first_time := c_first_time c;
     c_iteration := u64 (c_iteration c + 1); c_bytes_sent := c_bytes_sent c; c_pkts_sent := c_pkts_sent c;
     c_start_time := c_start_time c; c_end_time := now; c_last_time := c_last_time c; c_table := c_table c; c_flows := c_flows c;
     c_sp1 := c_sp1 c; c_sp2 := c_sp2 c; c_clock := now; c_sent := c_sent c |}.

(** ** Operations *)

(** The interface of a packet, from the tcpprep cache; [None] when it is not sent.
    With more packets than the cache knows the error is noted and the packet is
    not sent either. *)
Definition cache_mode (o : send_opt) (packet_num : Z) : res (option bool) :=
  if o_cache_packets o <? packet_num then Ok None
  else
    result ← check_cache (o_cachedata o) packet_num;
    match result with
    | DIR_C2S => Ok (Some false)
    | DIR_S2C => Ok (Some true)
    | _ => Ok None
    end.

(** [user] answers how many packets to send.  The results are the state with the
    nap and the packets to skip, and the length to skip. *)
Definition calc_sleep_time (o : send_opt) (user : Z -> Z) (pkt_time len counter skip_length : Z) (c : send_ctx)
    : res (send_ctx * Z) :=
  let set nap skip first := with_wait c nap skip first (c_clock c) in
  let multi := bool_decide (o_mode o = speed_packetrate) && negb (o_pps_multi o =? 0) in
  let skip := if multi then u32 (o_pps_multi o - 1) else c_skip_packets c in
  if multi && c_first_time c then Ok (set 0 skip false, skip_length)
  else
    let wait nap := set nap skip (c_first_time c) in
    let tx_us := u64 (c_end_time c - c_start_time c) in
    match o_mode o with
    | speed_multiplier =>
        let nap_for := (pkt_time - c_last_time c) * 1000 in
        Ok (if negb (c_last_time c =? 0) && (c_last_time c <=? pkt_time)
            then wait (default id (o_multiplier o) nap_for) else wait 0, skip_length)
    | speed_mbpsrate =>
        if c_end_time c =? 0 then Ok (wait 0, skip_length)
        else if o_speed o =? 0 then Err Undef
        else
          let bits_sent := u64 (u64 (c_bytes_sent c + len) * 8) in
          let next_tx_us := u64 (bits_sent * 1000000) / o_speed o in
          if tx_us <? next_tx_us then Ok (wait (u64 ((next_tx_us - tx_us) * 1000)), skip_length)
          else if next_tx_us <? tx_us then Ok (wait 0, u64 ((tx_us - next_tx_us) * o_speed o) / 8000000)
          else Ok (wait 0, skip_length)
    | speed_packetrate =>
        if c_end_time c =? 0 then Ok (wait 0, skip_length)
        else
          let pps := u64 (o_speed o * (if 0 <? o_pps_multi o then o_pps_multi o else 1)) in
          if pps =? 0 then Err Undef
          else
            let next_tx_us := u64 (c_pkts_sent c * 1000000) / pps in
            if tx_us <? next_tx_us then Ok (wait (u64 ((next_tx_us - tx_us) * 1000)), skip_length)
            else Ok (set 0 (u32 (o_pps_multi o)) (c_first_time c), skip_length)
    | speed_oneatatime =>
        let n := if skip =? 0 then user counter else skip in
        Ok (set 0 (u32 (n - 1)) (c_first_time c), skip_length)
    | speed_topspeed => Ok (wait 0, skip_length)
    end.

(** Sleeping, in whichever way: the clock has moved by the nap, in microseconds,
    and what the system adds, or takes away when the sleep is interrupted. *)
Definition tcpr_sleep (o : send_opt) (over : Z) (c : send_ctx) : send_ctx :=
  if c_nap c =? 0 then c
  else
    let nap := if negb (o_maxsleep o =? 0) && (o_maxsleep o <? c_nap c) then o_maxsleep o else c_nap c in
    with_wait c nap (c_skip_packets c) (c_first_time c) (c_clock c + nap / 1000 + over).
Definition gettimeofday (late : Z) (c : send_ctx) : send_ctx :=
  with_wait c (c_nap c) (c_skip_packets c) (c_first_time c) (c_clock c + late).

(** The statistics of flows, of the interface too when there is a cache file. *)
Definition count_flows (o : send_opt) (intf2 : bool) (datalink : Z) (p : pcap_packet) (mem : bool) (c : send_ctx) : res send_ctx :=
  let sp := if o_cache_packets o =? 0 then None else Some (if intf2 then c_sp2 c else c_sp1 c) in
  f ← update_flow_stats mem (o_flow_expiry o) datalink (k_ts p / 1000000) (k_data p)
        {| fc_table := c_table c; fc_stats := c_flows c; fc_sp := sp |};
  let s := fc_sp f in
  Ok (with_flows c (fc_table f) (fc_stats f)
        (if intf2 then c_sp1 c else default (c_sp1 c) s) (if intf2 then default (c_sp2 c) s else c_sp2 c)).

(** What the loop keeps from packet to packet; the time is not set at first. *)
Record send_vars := { v_packetnum : Z; v_skip_length : Z; v_now : option Z; v_now_is_now : bool }.

(** The delays and the memory there is for a packet, by its number. *)
Record outside := { x_user : Z -> Z; x_late : Z -> Z; x_over : Z -> Z; x_mem : Z -> bool }.

(** Waiting until the packet is due, unless it is skipped. *)
Definition wait_for (o : send_opt) (x : outside) (p : pcap_packet) (pktlen : Z) (v : send_vars) (c : send_ctx)
    : res (send_ctx * send_vars) :=
  let n := v_packetnum v in
  if negb (v_skip_length v =? 0) && (pktlen <? v_skip_length v) then
    Ok (c, {| v_packetnum := n; v_skip_length := v_skip_length v - pktlen; v_now := v_now v; v_now_is_now := false |})
  else if negb (c_skip_packets c =? 0) then
    Ok (with_wait c (c_nap c) (c_skip_packets c - 1) (c_first_time c) (c_clock c),
        {| v_packetnum := n; v_skip_length := v_skip_length v; v_now := v_now v; v_now_is_now := false |})
  else
    let c := gettimeofday (x_late x n) (with_wait c (c_nap c) 0 (c_first_time c) (c_clock c)) in
    '(c, skip_length) ← calc_sleep_time o (x_user x) (k_ts p) pktlen n 0 c;
    let c := tcpr_sleep o (x_over x n) c in
    Ok (c, {| v_packetnum := n; v_skip_length := skip_length; v_now := Some (c_clock c); v_now_is_now := true |}).

(** The body of the loop.  The packet is returned as the editing leaves it. *)
Definition send_one (o : send_opt) (x : outside) (preload : bool) (iteration datalink end_us : Z)
    (p : pcap_packet) (v : send_vars) (c : send_ctx) : res (pcap_packet * send_vars * send_ctx) :=
  let n := u64 (v_packetnum v + 1) in
  let v := {| v_packetnum := n; v_skip_length := v_skip_length v; v_now := v_now v; v_now_is_now := v_now_is_now v |} in
  let pktlen := if o_use_pkthdr_len o then k_len p else k_caplen p in
  sp ← (if o_intf2 o then cache_mode o n else Ok (Some false));
  match sp with
  | None => Ok (p, v, c)
  | Some intf2 =>
      '(_, data) ← (if o_unique_ip o && negb (iteration =? 0)
                    then fast_edit_packet (k_caplen p) (u32 iteration) preload datalink (k_data p) else Ok (tt, k_data p));
      let p := {| k_ts := k_ts p; k_caplen := k_caplen p; k_len := k_len p; k_data := data |} in
      c ← (if o_flow_stats o && negb preload then count_flows o intf2 datalink p (x_mem x n) c else Ok c);
      '(c, v) ← wait_for o x p pktlen v c;
      match v_now v with
      | None => Err Undef
      | Some now =>
          (* sendpacket reads pktlen bytes *)
          if blen data <? pktlen then Err Oob
          else
            let last := if negb (bool_decide (o_mode o = speed_topspeed)) && (c_last_time c <? k_ts p) then k_ts p else c_last_time c in
            let stop := (negb (end_us =? 0) && (end_us <? now))
                        || (negb (o_limit_send o =? 0) && (o_limit_send o <=? u64 (c_pkts_sent c + 1))) in
            Ok (p, v, with_sent c (c_abort c || stop) pktlen now last
                        {| s_intf2 := intf2; s_data := take (Z.to_nat pktlen) data; s_time := now |})
      end
  end.

(** [get_next_packet] copies a packet that is read while captures are preloaded: as
    many bytes as the packet had on the wire. *)
Definition cache_copy (p : pcap_packet) : res pcap_packet :=
  if blen (k_data p) <? k_len p then Err Oob
  else Ok {| k_ts := k_ts p; k_caplen := k_caplen p; k_len := k_len p; k_data := take (Z.to_nat (k_len p)) (k_data p) |}.

(** The loop: the packets as they are in memory afterwards, the edited ones of a
    cached capture, the copies of one that is being cached. *)
Fixpoint send_loop (o : send_opt) (x : outside) (preload : bool) (iteration datalink end_us : Z)
    (pkts : list pcap_packet) (v : send_vars) (c : send_ctx) : res (list pcap_packet * send_vars * send_ctx) :=
  if c_abort c then Ok (if preload then pkts else [], v, c)
  else
    match pkts with
    | [] => Ok ([], v, c)
    | p :: pkts =>
        copy ← (if o_preload_pcap o && negb preload then q ← cache_copy p; Ok [q] else Ok []);
        '(p', v, c) ← send_one o x preload iteration datalink end_us p v c;
        '(rest, v, c) ← send_loop o x preload iteration datalink end_us pkts v c;
        Ok ((if preload then [p'] else copy) ++ rest, v, c)
    end.

(** [late]: the delay of the last reading of the clock. *)
Definition send_packets (o : send_opt) (x : outside) (late : Z) (datalink : Z) (file : list pcap_packet) (fc : file_cache) (c : send_ctx)
    : res (file_cache * send_ctx) :=
  let preload := cached fc in
  let c := with_wait c (c_nap c) 0 (c_first_time c) (c_clock c) in
  let end_us := if 0 <? o_limit_time o then u64 (c_start_time c + u64 (o_limit_time o * 1000000)) else 0 in
  let in_memory := o_preload_pcap o && preload in
  let v := {| v_packetnum := 0; v_skip_length := 0; v_now := None; v_now_is_now := false |} in
  '(pkts, v, c) ← send_loop o x preload (c_iteration c) datalink end_us (if in_memory then packet_cache fc else file) v c;
  let c := finished c (if v_now_is_now v then default 0 (v_now v) else c_clock c + late) in
  let kept := match pkts with [] => if preload then [] else packet_cache fc | _ => pkts end in
  Ok ({| cached := preload; packet_cache := if o_preload_pcap o then kept else packet_cache fc |}, c).

(** [preload_pcap_file], for a capture that is not cached yet: all packets are copied,
    and counted as flows. *)
Fixpoint preload_loop (o : send_opt) (x : outside) (datalink n : Z) (pkts : list pcap_packet) (c : send_ctx)
    : res (list pcap_packet * send_ctx) :=
  match pkts with
  | [] => Ok ([], c)
  | p :: pkts =>
      q ← (if o_preload_pcap o then q ← cache_copy p; Ok [q] else Ok []);
      c ← (if o_flow_stats o then
             f ← update_flow_stats (x_mem x n) (o_flow_expiry o) datalink (k_ts p / 1000000) (k_data p)
                   {| fc_table := c_table c; fc_stats := c_flows c; fc_sp := None |};
             Ok (with_flows c (fc_table f) (fc_stats f) (c_sp1 c) (c_sp2 c))
           else Ok c);
      '(rest, c) ← preload_loop o x datalink (n + 1) pkts c;
      Ok (q ++ rest, c)
  end.
Definition preload_pcap_file (o : send_opt) (x : outside) (datalink : Z) (file : list pcap_packet) (c : send_ctx)
    : res (file_cache * send_ctx) :=
  '(pkts, c) ← preload_loop o x datalink 1 file c;
  Ok ({| cached := true; packet_cache := pkts |}, c).

(** ** Passes

    A replay is a sequence of passes over captures, each with what happens outside;
    [tcpreplay_replay] starts it.  A pass is a call of [tcpr_replay_index], which
    forgets the time of the last packet (replay.c:70) and replays one capture. *)
Record pass := { a_out : outside; a_late : Z; a_datalink : Z; a_file : list pcap_packet; a_cache : file_cache }.
Definition source (o : send_opt) (a : pass) : list pcap_packet :=
  if o_preload_pcap o && cached (a_cache a) then packet_cache (a_cache a) else a_file a.
Definition new_pass (c : send_ctx) : send_ctx :=
  {| c_abort := c_abort c; c_nap := c_nap c; c_skip_packets := c_skip_packets c; c_first_time := c_first_time c;
     c_iteration := c_iteration c; c_bytes_sent := c_bytes_sent c; c_pkts_sent := c_pkts_sent c; c_start_time := c_start_time c;
     c_end_time := c_end_time c; c_last_time := 0; c_table := c_table c; c_flows := c_flows c; c_sp1 := c_sp1 c; c_sp2 := c_sp2 c;
     c_clock := c_clock c; c_sent := c_sent c |}.
Fixpoint replay_passes (o : send_opt) (l : list pass) (c : send_ctx) : res send_ctx :=
  match l with
  | [] => Ok c
  | a :: l =>
      '(_, c) ← send_packets o (a_out a) (a_late a) (a_datalink a) (a_file a) (a_cache a) (new_pass c);
      replay_passes o l c
  end.
Definition start_replay (t : flow_hash_table) (clock : Z) : send_ctx :=
  {| c_abort := false; c_nap := 0; c_skip_packets := 0; c_first_time := true; c_iteration := 0; c_bytes_sent := 0; c_pkts_sent := 0;
     c_start_time := clock; c_end_time := 0; c_last_time := 0; c_table := t; c_flows := no_stats; c_sp1 := no_stats; c_sp2 := no_stats;
     c_clock := clock; c_sent := [] |}.

(** ** The rate *)
Definition pktlen (o : send_opt) (p : pcap_packet) : Z := if o_use_pkthdr_len o then k_len p else k_caplen p.
Definition total_len (o : send_opt) (pkts : list pcap_packet) : Z := foldr (fun p n => pktlen o p + n) 0 pkts.
Definition total (l : list sent) : Z := foldr (fun s n => blen (s_data s) + n) 0 l.

Section rate.
Context (o : send_opt) (start bps : Z).
(** [t] bytes are not more than the rate allows at time [now], to the microsecond. *)
Definition paced (t now : Z) : Prop := 8000000 * t < (now - start + 1) * bps.

Lemma u64_le x : 0 <= x -> 0 <= u64 x <= x.
Proof. intros Hx. unfold u64. split; [apply Z.mod_pos_bound; lia|apply Z.mod_le; lia]. Qed.
Lemma u64_small x : 0 <= x < 18446744073709551616 -> u64 x = x.
Proof. apply Z.mod_small. Qed.

Context (Hmode : o_mode o = speed_mbpsrate) (Hspeed : o_speed o = bps) (Hbps : 1000 <= bps) (Hmax : o_maxsleep o = 0) (Hstart : 0 < start).

(** After the nap the packet is due, and what may be skipped is due too. *)
Lemma calc_mbps user pt len counter c :
  c_start_time c = start -> start <= c_end_time c -> 0 <= len -> 0 <= c_bytes_sent c ->
  8000000 * (c_bytes_sent c + len) < 18446744073709551616 ->
  exists nap skip, calc_sleep_time o user pt len counter 0 c
      = Ok (with_wait c nap (c_skip_packets c) (c_first_time c) (c_clock c), skip)
    /\ 0 <= nap /\ 0 <= skip /\ paced (c_bytes_sent c + len + skip) (c_end_time c + nap / 1000).
Proof.
  intros Hs He Hl Hb Hr. unfold calc_sleep_time. rewrite Hmode. rewrite bool_decide_false by done. cbn [andb].
  rewrite (proj2 (Z.eqb_neq (c_end_time c) 0)) by lia. rewrite Hspeed, Hs. rewrite (proj2 (Z.eqb_neq bps 0)) by lia.
  set (T := c_bytes_sent c + len) in *. rewrite (u64_small T), (u64_small (T * 8)), (u64_small (T * 8 * 1000000)) by lia.
  set (next := T * 8 * 1000000 / bps). pose proof (u64_le (c_end_time c - start) ltac:(lia)) as U. set (tx := u64 _) in *.
  assert (N1 : T * 8 * 1000000 < (next + 1) * bps) by (unfold next; pose proof (Z.div_mod (T * 8 * 1000000) bps ltac:(lia));
    pose proof (Z.mod_pos_bound (T * 8 * 1000000) bps ltac:(lia)); lia).
  assert (N2 : 0 <= next /\ next * 1000 < 18446744073709551616).
  { split; [apply Z.div_pos; lia|]. pose proof (Z.mul_div_le (T * 8 * 1000000) bps ltac:(lia)). fold next in H. nia. }
  assert (N3 : tx * bps <= (c_end_time c - start) * bps) by (apply Z.mul_le_mono_nonneg_r; lia).
  unfold paced. destruct (Z.ltb_spec tx next) as [C|C]; [|destruct (Z.ltb_spec next tx) as [D|D]].
  - rewrite u64_small by lia. eexists _, 0. split; [reflexivity|]. split; [lia|]. split; [lia|]. rewrite Z.div_mul by lia. nia.
  - eexists 0, _. split; [reflexivity|]. split; [lia|]. pose proof (u64_le ((tx - next) * bps) ltac:(nia)) as V. set (y := u64 ((tx - next) * bps)) in *.
    assert (8000000 * (y / 8000000) <= y) by (apply Z.mul_div_le; lia). split; [apply Z.div_pos; [apply V|lia]|].
    change (0 / 1000) with 0. set (z := y / 8000000) in *. lia.
  - eexists 0, 0. split; [reflexivity|]. split; [lia|]. split; [lia|]. change (0 / 1000) with 0.
    assert (next = tx) as -> by lia. lia.
Qed.

(** Every packet but the first of the replay is sent in time. *)
Definition log_ok (l : list sent) : Prop :=
  forall newer s older, l = newer ++ s :: older -> older <> [] -> paced (total (s :: older)) (s_time s).
Record going (c : send_ctx) : Prop := {
  g_start : c_start_time c = start;
  g_skip : c_skip_packets c = 0;
  g_bytes : c_bytes_sent c = total (c_sent c);
  g_clock : start <= c_clock c /\ c_end_time c <= c_clock c;
  g_end : (c_end_time c = 0 /\ c_sent c = []) \/ start <= c_end_time c;
  g_log : log_ok (c_sent c)
}.
(** The time is that of the clock, and the length that is skipped has been earned. *)
Definition earned (v : send_vars) (c : send_ctx) : Prop :=
  (v_now_is_now v = true -> v_now v = Some (c_clock c))
  /\ (v_skip_length v = 0
  \/ (0 < v_skip_length v /\ start <= c_end_time c /\ v_now v = Some (c_end_time c)
      /\ paced (total (c_sent c) + v_skip_length v) (c_end_time c))).

Lemma sent_nonneg l : 0 <= total l.
Proof. induction l as [|s l IH]; cbn [total foldr]; [lia|]. pose proof (blen_nonneg (s_data s)). unfold total in IH. lia. Qed.
Lemma paced_later t now now' : paced t now -> now <= now' -> paced t now'.
Proof. unfold paced. intros H1 H2. assert ((now - start + 1) * bps <= (now' - start + 1) * bps) by (apply Z.mul_le_mono_nonneg_r; lia). lia. Qed.
Lemma paced_less t t' now : paced t now -> t' <= t -> paced t' now.
Proof. unfold paced. lia. Qed.

Lemma log_ok_cons l s : log_ok l -> (l <> [] -> paced (total (s :: l)) (s_time s)) -> log_ok (s :: l).
Proof.
  intros Hl Hs [|y newer] s' older E Ho; cbn in E; injection E as -> E; [subst older; auto|]. by apply (Hl newer).
Qed.

(** What the wait leaves alone, and the time it gives. *)
Record waited (len : Z) (c c' : send_ctx) (v' : send_vars) (now : Z) : Prop := {
  w_start : c_start_time c' = c_start_time c;
  w_skip : c_skip_packets c' = 0;
  w_bytes : c_bytes_sent c' = c_bytes_sent c;
  w_sent : c_sent c' = c_sent c;
  w_now : v_now v' = Some now;
  w_is_now : v_now_is_now v' = true -> now = c_clock c';
  w_range : start <= now <= c_clock c' /\ c_end_time c <= now;
  w_length : 0 <= v_skip_length v';
  w_paced : (c_end_time c = 0 /\ c_sent c = [] /\ v_skip_length v' = 0) \/ paced (total (c_sent c) + len + v_skip_length v') now
}.
(** The clock does not go back, and no sleep ends before its time. *)
Record in_time (x : outside) : Prop := { it_late n : 0 <= x_late x n; it_over n : 0 <= x_over x n }.
Lemma wait_for_ok x p len v c :
  in_time x -> going c -> earned v c -> 0 <= len -> 8000000 * (total (c_sent c) + len) < 18446744073709551616 ->
  exists c' v' now, wait_for o x p len v c = Ok (c', v') /\ waited len c c' v' now.
Proof.
  intros [X1 X2] [G1 G2 G3 [G4 G5] G6 G7] E Hl Hr. pose proof (sent_nonneg (c_sent c)) as Hn. unfold wait_for.
  destruct (negb _ && _) eqn:B.
  { apply andb_true_iff in B as [B1%negb_true_iff%Z.eqb_neq B2%Z.ltb_lt]. destruct E as [_ [E|(E1 & E0 & E2 & E3)]]; [done|].
    eexists c, _, (c_end_time c). split; [reflexivity|]. split; cbn; try done; try lia. right.
    by replace (_ + len + _) with (total (c_sent c) + v_skip_length v) by lia. }
  rewrite G2. cbn [Z.eqb negb]. set (c1 := gettimeofday _ _).
  assert (K : exists nap skip, calc_sleep_time o (x_user x) (k_ts p) len (v_packetnum v) 0 c1
      = Ok (with_wait c1 nap 0 (c_first_time c1) (c_clock c1), skip)
    /\ 0 <= nap /\ 0 <= skip /\ ((c_end_time c = 0 /\ c_sent c = [] /\ skip = 0)
         \/ paced (c_bytes_sent c + len + skip) (c_end_time c + nap / 1000))).
  { destruct G6 as [[Z1 Z2]|G6].
    - exists 0, 0. split; [|split; [lia|split; [lia|by left]]]. unfold calc_sleep_time. rewrite Hmode, bool_decide_false by done. cbn. by rewrite Z1.
    - destruct (calc_mbps (x_user x) (k_ts p) len (v_packetnum v) c1) as (nap & skip & R & N1 & N2 & N3); cbn; try (done || lia).
      exists nap, skip. split; [exact R|]. auto. }
  destruct K as (nap & skip & -> & N1 & N2 & N3). cbn [mbind res_bind]. unfold tcpr_sleep. cbn [c_nap with_wait]. rewrite Hmax. cbn [Z.eqb negb andb].
  pose proof (Z.div_pos nap 1000 N1 ltac:(lia)) as N4. assert (N6 : nap = 0 -> nap / 1000 = 0) by (by intros ->).
  unfold c1 in *. set (q := nap / 1000) in *. clearbody q. clear c1. pose proof (X1 (v_packetnum v)) as L1. pose proof (X2 (v_packetnum v)) as L2.
  destruct (Z.eqb_spec nap 0) as [N5|N5]; eexists _, _, _; (split; [reflexivity|]);
    (split; cbn in *; try done; try lia; destruct N3 as [N3|N3]; [by left|right]; rewrite <- G3; eapply paced_later; [exact N3|lia]).
Qed.

Lemma count_flows_keeps intf2 datalink p mem c c' :
  count_flows o intf2 datalink p mem c = Ok c' -> exists t f s1 s2, c' = with_flows c t f s1 s2.
Proof.
  unfold count_flows. destruct (update_flow_stats _ _ _ _ _ _) as [f|e]; [|done]. intros E. injection E as <-. eauto.
Qed.
Lemma going_flows c t f s1 s2 v :
  going c -> earned v c -> going (with_flows c t f s1 s2) /\ earned v (with_flows c t f s1 s2).
Proof. intros [G1 G2 G3 G4 G5 G6] E. by split. Qed.

Definition lengths_ok (pkts : list pcap_packet) : Prop := Forall (fun p => 0 <= pktlen o p) pkts.
Lemma total_len_nonneg pkts : lengths_ok pkts -> 0 <= total_len o pkts.
Proof. induction 1 as [|p l H F IH]; cbn [total_len foldr]; [lia|]. unfold total_len in IH. lia. Qed.

Lemma sent_going len data intf2 stop last c c' v' now :
  0 <= len <= blen data -> going c -> waited len c c' v' now -> 8000000 * (total (c_sent c) + len) < 18446744073709551616 ->
  let c2 := with_sent c' stop len now last {| s_intf2 := intf2; s_data := take (Z.to_nat len) data; s_time := now |} in
  going c2 /\ earned v' c2 /\ total (c_sent c2) = total (c_sent c) + len.
Proof.
  intros Hl [G1 G2 G3 G4 G6 G7] [W1 W2 W3 W4 W5 W0 W6 W7 W8] Hr. cbv zeta. pose proof (sent_nonneg (c_sent c)) as Hn.
  assert (B : blen (take (Z.to_nat len) data) = len) by (unfold blen in *; rewrite length_take; lia).
  assert (T : forall l, total ({| s_intf2 := intf2; s_data := take (Z.to_nat len) data; s_time := now |} :: l) = total l + len).
  { intros l. cbn [total foldr s_data]. rewrite B. unfold total. lia. }
  split; [|split].
  - split; cbn [c_start_time c_skip_packets c_bytes_sent c_sent c_clock c_end_time with_sent]; try (congruence || lia).
    + rewrite W4, T, W3, G3. apply u64_small. lia.
    + rewrite W4. apply log_ok_cons; [done|]. intros Hne. rewrite T. cbn [s_time].
      destruct W8 as [(_ & W8 & _)|W8]; [done|]. eapply paced_less; [exact W8|lia].
  - split; [cbn; intros I; rewrite W5; f_equal; auto|].
    destruct (decide (v_skip_length v' = 0)) as [S|S]; [by left|right]. split; [lia|]. cbn [c_end_time c_sent with_sent].
    split; [lia|]. split; [done|]. destruct W8 as [(_ & _ & W8)|W8]; [done|]. by rewrite W4, T.
  - cbn [c_sent with_sent]. by rewrite W4, T.
Qed.
Lemma send_one_ok x preload iteration datalink end_us p v c p' v' c' :
  send_one o x preload iteration datalink end_us p v c = Ok (p', v', c') ->
  in_time x -> going c -> earned v c -> 0 <= pktlen o p -> 8000000 * (total (c_sent c) + pktlen o p) < 18446744073709551616 ->
  going c' /\ earned v' c' /\ total (c_sent c') <= total (c_sent c) + pktlen o p.
Proof.
  unfold send_one. fold (pktlen o p). set (v1 := {| v_packetnum := _ |}). intros R X G E Hl Hr.
  assert (E1 : earned v1 c) by done.
  destruct (if o_intf2 o then _ else _) as [[intf2|]|f]; cbn [mbind res_bind] in R; [|injection R as _ <- <-; split; [done|split; [done|lia]]|done].
  destruct (if o_unique_ip o && _ then _ else _) as [[[] data]|f]; cbn [mbind res_bind] in R; [|done].
  set (p1 := {| k_ts := _ |}) in R.
  assert (K : forall c1, (if o_flow_stats o && negb preload then count_flows o intf2 datalink p1 (x_mem x (u64 (v_packetnum v + 1))) c else Ok c) = Ok c1 ->
    going c1 /\ earned v1 c1 /\ c_sent c1 = c_sent c).
  { intros c1. destruct (_ && _); [|intros H; by injection H as <-]. intros (t & f & s1 & s2 & ->)%count_flows_keeps.
    destruct (going_flows c t f s1 s2 v1 G E1). done. }
  destruct (if o_flow_stats o && _ then _ else _) as [c1|f]; [|done]. cbn [mbind res_bind] in R.
  destruct (K c1 eq_refl) as (G1 & E2 & S1). rewrite <- S1 in Hr.
  destruct (wait_for_ok x p1 (pktlen o p) v1 c1 X G1 E2 Hl Hr) as (c2 & v2 & now & W & Wd). rewrite W in R. cbn [mbind res_bind] in R.
  rewrite (w_now _ _ _ _ _ Wd) in R. destruct (Z.ltb_spec (blen data) (pktlen o p)) as [B|B]; [done|]. injection R as _ <- <-.
  rewrite <- S1. match goal with |- context [with_sent _ ?stop _ _ ?last _] =>
    destruct (sent_going (pktlen o p) data intf2 stop last c1 c2 v2 now (conj Hl B) G1 Wd Hr) as (A1 & A2 & A3) end.
  split; [exact A1|]. split; [exact A2|]. rewrite A3. lia.
Qed.

Lemma send_loop_ok x preload iteration datalink end_us pkts v c out v' c' :
  send_loop o x preload iteration datalink end_us pkts v c = Ok (out, v', c') ->
  in_time x -> going c -> earned v c -> lengths_ok pkts -> 8000000 * (total (c_sent c) + total_len o pkts) < 18446744073709551616 ->
  going c' /\ earned v' c' /\ total (c_sent c') <= total (c_sent c) + total_len o pkts.
Proof.
  intros R X. revert v c out v' c' R. induction pkts as [|p pkts IH]; intros v c out v' c' R G E L Hr; cbn [send_loop] in R.
  { destruct (c_abort c); injection R as _ <- <-; cbn; (split; [done|split; [done|lia]]). }
  apply Forall_cons_iff in L as [Lp L]. pose proof (total_len_nonneg pkts L) as Hn. cbn [total_len foldr] in Hr |- *. fold (total_len o pkts) in *.
  destruct (c_abort c); [injection R as _ <- <-; split; [done|split; [done|lia]]|].
  destruct (if o_preload_pcap o && _ then _ else _) as [copy|f]; cbn [mbind res_bind] in R; [|done].
  destruct (send_one _ _ _ _ _ _ _ _ _) as [[[p' v1] c1]|f] eqn:S; cbn [mbind res_bind] in R; [|done].
  destruct (send_one_ok _ _ _ _ _ _ _ _ _ _ _ S X G E Lp ltac:(lia)) as (G1 & E1 & T1).
  destruct (send_loop _ _ _ _ _ _ _ _ _) as [[[rest v2] c2]|f] eqn:S2; cbn [mbind res_bind] in R; [|done]. injection R as _ <- <-.
  destruct (IH _ _ _ _ _ S2 G1 E1 L ltac:(lia)) as (G2 & E2 & T2). split; [done|]. split; [done|]. lia.
Qed.
(** The end of a pass is a reading of the clock. *)
Lemma finished_going late v c :
  0 <= late -> going c -> earned v c ->
  let c' := finished c (if v_now_is_now v then default 0 (v_now v) else c_clock c + late) in
  going c' /\ c_sent c' = c_sent c.
Proof.
  intros Hla [G1 G2 G3 G4 G6 G7] [E _]. cbv zeta. set (now := if v_now_is_now v then _ else _).
  assert (N : c_clock c <= now).
  { unfold now. destruct (v_now_is_now v); [rewrite E by done; cbn; lia|lia]. }
  split; [|done]. split; cbn [finished c_start_time c_skip_packets c_bytes_sent c_sent c_clock c_end_time]; try done; [lia|right; lia].
Qed.
Lemma send_packets_ok x late datalink file fc c fc' c' :
  let pkts := if o_preload_pcap o && cached fc then packet_cache fc else file in
  send_packets o x late datalink file fc c = Ok (fc', c') ->
  in_time x -> 0 <= late -> going c -> lengths_ok pkts -> 8000000 * (total (c_sent c) + total_len o pkts) < 18446744073709551616 ->
  going c' /\ total (c_sent c') <= total (c_sent c) + total_len o pkts.
Proof.
  cbv zeta. intros R X Hla G L Hr. unfold send_packets in R. cbv zeta in R. set (c0 := with_wait c _ _ _ _) in R. set (v0 := {| v_packetnum := _ |}) in R.
  assert (G0 : going c0) by (by destruct G). assert (E0 : earned v0 c0) by (split; [done|by left]).
  destruct (send_loop _ _ _ _ _ _ _ _ _) as [[[out v1] c1]|f] eqn:S; cbn [mbind res_bind] in R; [|done]. injection R as _ <-.
  destruct (send_loop_ok _ _ _ _ _ _ _ _ _ _ _ S X G0 E0 L Hr) as (G1 & E1 & T1).
  destruct (finished_going late v1 c1 Hla G1 E1) as [G2 T2]. split; [exact G2|]. rewrite T2. exact T1.
Qed.
Definition all_len (l : list pass) : Z := foldr (fun a n => total_len o (source o a) + n) 0 l.
Lemma going_new c : going c -> going (new_pass c).
Proof. by intros []. Qed.
Lemma replay_passes_ok l c c' :
  replay_passes o l c = Ok c' -> Forall (fun a => in_time (a_out a) /\ 0 <= a_late a) l ->
  going c -> Forall (fun a => lengths_ok (source o a)) l ->
  8000000 * (total (c_sent c) + all_len l) < 18446744073709551616 -> going c'.
Proof.
  revert c. induction l as [|a l IH]; intros c R X G L Hr; cbn [replay_passes] in R; [by injection R as <-|].
  apply Forall_cons_iff in X as [[Xa Ya] X].
  apply Forall_cons_iff in L as [La L]. cbn [all_len foldr] in Hr. fold (all_len l) in Hr.
  destruct (send_packets _ _ _ _ _ _ _) as [[fc1 c1]|f] eqn:S; cbn [mbind res_bind] in R; [|done].
  assert (0 <= all_len l) by (clear -L; induction L as [|a l La L IH]; cbn [all_len foldr]; [lia|pose proof (total_len_nonneg _ La); unfold all_len in IH; lia]).
  destruct (send_packets_ok _ _ _ _ _ _ _ _ S Xa Ya (going_new _ G) La ltac:(unfold source in Hr; change (c_sent (new_pass c)) with (c_sent c); lia)) as (G1 & T1).
  unfold source in Hr. apply (IH c1); [done|done|done|done|]. change (c_sent (new_pass c)) with (c_sent c) in T1. lia.
Qed.
End rate.

Lemma start_going o t clock : 0 < clock -> going clock (o_speed o) (start_replay t clock).
Proof. intros H. split; cbn; try done; [lia|by left|]. intros newer s older E. by destruct newer. Qed.

(** C22: in a replay at a given rate, of at least 1000 bits per second, without
    --maxsleep (which cuts the naps), while the clock does not go back and no sleep
    ends before its time ([in_time]), no packet but the first is sent before the rate
    allows it: the bytes sent up to and including it are at most those of the time
    since the start, to the microsecond; also for the packets that are sent without
    looking at the clock.  For any captures, delays and numbers of passes, as long as
    the bytes sent times 8000000 fit in 64 bits. *)
Theorem rate_never_exceeded o t clock l c' :
  o_mode o = speed_mbpsrate -> 1000 <= o_speed o -> o_maxsleep o = 0 -> 0 < clock ->
  Forall (fun a => in_time (a_out a) /\ 0 <= a_late a) l ->
  Forall (fun a => lengths_ok o (source o a)) l -> 8000000 * all_len o l < 2 ^ 64 ->
  replay_passes o l (start_replay t clock) = Ok c' ->
  forall newer s older, c_sent c' = newer ++ s :: older -> older <> [] ->
  8000000 * total (s :: older) < (s_time s - clock + 1) * o_speed o.
Proof.
  intros Hm Hs Hx Hc X L Hr R.
  pose proof (replay_passes_ok o clock (o_speed o) Hm eq_refl Hs Hx Hc l _ c' R X (start_going o t clock Hc) L Hr) as G.
  exact (g_log _ _ _ G).
Qed.

(** C30: beyond that the rate is lost: when the bits sent times 1000000 no longer fit
    in 64 bits, which is after 2.3 terabytes, the packet is taken for due at once
    although its time, at the rate, is still to come. *)
Theorem rate_lost_after_overflow o user pt len counter c :
  let bits := 8000000 * (c_bytes_sent c + len) in let elapsed := c_end_time c - c_start_time c in
  o_mode o = speed_mbpsrate -> 0 < o_speed o -> 0 < c_start_time c -> c_start_time c <= c_end_time c < 2 ^ 64 ->
  (elapsed + 1) * o_speed o < bits -> 2 ^ 64 <= bits < 2 ^ 64 + elapsed * o_speed o -> bits < 2 ^ 65 ->
  exists skip, calc_sleep_time o user pt len counter 0 c = Ok (with_wait c 0 (c_skip_packets c) (c_first_time c) (c_clock c), skip).
Proof.
  cbv zeta. intros Hm Hs Ht0 Ht He Hb Hb2. unfold calc_sleep_time. rewrite Hm, bool_decide_false by done. cbn [andb].
  rewrite (proj2 (Z.eqb_neq (c_end_time c) 0)), (proj2 (Z.eqb_neq (o_speed o) 0)) by lia.
  rewrite (u64_small (c_bytes_sent c + len)), (u64_small ((c_bytes_sent c + len) * 8)), (u64_small (c_end_time c - c_start_time c)) by lia.
  set (x := (c_bytes_sent c + len) * 8 * 1000000). assert (E : u64 x = x - 18446744073709551616).
  { unfold u64. symmetry. apply (Z.mod_unique_pos _ _ 1); lia. }
  rewrite E. assert (N : (x - 18446744073709551616) / o_speed o <= c_end_time c - c_start_time c).
  { apply Z.div_le_upper_bound; lia. }
  rewrite (proj2 (Z.ltb_ge _ _)) by lia. destruct (_ <? _); eauto.
Qed.

(** ** The limit on packets *)
Section limit.
Context (o : send_opt) (Hlim : 0 < o_limit_send o < 2 ^ 64).
Record counted (c : send_ctx) : Prop := {
  n_pkts : c_pkts_sent c = Z.of_nat (length (c_sent c));
  n_limit : c_pkts_sent c <= o_limit_send o;
  n_going : c_abort c = false -> c_pkts_sent c < o_limit_send o
}.
Lemma calc_keeps user pt len counter skip c c' s :
  calc_sleep_time o user pt len counter skip c = Ok (c', s) -> exists nap sk first, c' = with_wait c nap sk first (c_clock c).
Proof.
  unfold calc_sleep_time. destruct (_ && _ && _); [intros H; injection H as <- _; eauto|]. destruct (o_mode o).
  1: intros H; injection H as <- _; destruct (_ && _); eauto.
  all: repeat match goal with |- (if ?b then _ else _) = _ -> _ => destruct b end; intros H; try done; injection H as <- _; eauto.
Qed.
Lemma wait_for_keeps x p len v c c' v' :
  wait_for o x p len v c = Ok (c', v') -> exists nap sk first clock, c' = with_wait c nap sk first clock.
Proof.
  unfold wait_for. destruct (_ && _); [intros H; injection H as <- _; destruct c; eauto 6|].
  destruct (negb _); [intros H; injection H as <- _; eauto 6|].
  destruct (calc_sleep_time _ _ _ _ _ _ _) as [[c1 s]|f] eqn:C; [|done]. apply calc_keeps in C as (nap & sk & first & ->).
  cbn [mbind res_bind]. intros H. injection H as <- _. unfold tcpr_sleep, gettimeofday. destruct (_ =? 0); eauto 6.
Qed.
Lemma wait_for_number x p len v c c' v' : wait_for o x p len v c = Ok (c', v') -> v_packetnum v' = v_packetnum v.
Proof.
  unfold wait_for. destruct (_ && _); [intros H; by injection H as _ <-|]. destruct (negb _); [intros H; by injection H as _ <-|].
  destruct (calc_sleep_time _ _ _ _ _ _ _) as [[c1 s]|f]; [|done]. cbn [mbind res_bind]. intros H. by injection H as _ <-.
Qed.
Lemma send_one_counted x preload iteration datalink end_us p v c p' v' c' :
  send_one o x preload iteration datalink end_us p v c = Ok (p', v', c') -> c_abort c = false -> counted c -> counted c'.
Proof.
  unfold send_one. intros R A N.
  destruct (if o_intf2 o then _ else _) as [[intf2|]|f]; cbn [mbind res_bind] in R; [|by injection R as _ _ <-|done].
  destruct (if o_unique_ip o && _ then _ else _) as [[[] data]|f]; cbn [mbind res_bind] in R; [|done].
  set (p1 := {| k_ts := _ |}) in R.
  assert (K : forall c1, (if o_flow_stats o && negb preload then count_flows o intf2 datalink p1 (x_mem x (u64 (v_packetnum v + 1))) c else Ok c) = Ok c1 ->
    counted c1 /\ c_abort c1 = false).
  { intros c1. destruct (_ && _); [|intros H; by injection H as <-]. intros (t & f & s1 & s2 & ->)%count_flows_keeps. destruct N. by split. }
  destruct (if o_flow_stats o && _ then _ else _) as [c1|f]; [|done]. cbn [mbind res_bind] in R. destruct (K c1 eq_refl) as [[N1 N2 N3] A1].
  destruct (wait_for _ _ _ _ _ _) as [[c2 v2]|f] eqn:W; [|done]. cbn [mbind res_bind] in R. apply wait_for_keeps in W as (nap & sk & first & clock & ->).
  destruct (v_now v2); [|done]. destruct (_ <? _); [done|]. injection R as _ _ <-. specialize (N3 A1).
  assert (U : u64 (c_pkts_sent c1 + 1) = c_pkts_sent c1 + 1) by (apply u64_small; lia).
  split; cbn [with_sent with_wait c_pkts_sent c_sent c_abort length]; rewrite U; [lia|lia|].
  rewrite (proj2 (Z.eqb_neq (o_limit_send o) 0)) by lia. cbn [negb andb]. intros [_ [_ H]%orb_false_iff]%orb_false_iff. lia.
Qed.
Lemma send_loop_counted x preload iteration datalink end_us pkts v c out v' c' :
  send_loop o x preload iteration datalink end_us pkts v c = Ok (out, v', c') -> counted c -> counted c'.
Proof.
  revert v c out v' c'. induction pkts as [|p pkts IH]; intros v c out v' c' R N; cbn [send_loop] in R.
  { destruct (c_abort c); by injection R as _ _ <-. }
  destruct (c_abort c) eqn:A; [by injection R as _ _ <-|].
  destruct (if o_preload_pcap o && _ then _ else _) as [copy|f]; cbn [mbind res_bind] in R; [|done].
  destruct (send_one _ _ _ _ _ _ _ _ _) as [[[p' v1] c1]|f] eqn:S; cbn [mbind res_bind] in R; [|done].
  destruct (send_loop _ _ _ _ _ _ _ _ _) as [[[rest v2] c2]|f] eqn:S2; cbn [mbind res_bind] in R; [|done]. injection R as _ _ <-.
  apply (IH _ _ _ _ _ S2). by apply (send_one_counted _ _ _ _ _ _ _ _ _ _ _ S).
Qed.
Lemma replay_passes_counted l c c' : replay_passes o l c = Ok c' -> counted c -> counted c'.
Proof.
  revert c. induction l as [|a l IH]; intros c R N; cbn [replay_passes] in R; [by injection R as <-|]. unfold send_packets in R. cbv zeta in R.
  destruct (send_loop _ _ _ _ _ _ _ _ _) as [[[out v1] c1]|f] eqn:S; cbn [mbind res_bind] in R; [|done].
  apply (IH _ R). apply send_loop_counted in S; [|by destruct N]. by destruct S.
Qed.
End limit.

(** C24: with a limit on packets no more are ever sent, whatever the passes, the
    options and the delays. *)
Theorem limit_send_respected o t clock l c' :
  0 < o_limit_send o < 2 ^ 64 -> replay_passes o l (start_replay t clock) = Ok c' ->
  Z.of_nat (length (c_sent c')) <= o_limit_send o /\ (Z.of_nat (length (c_sent c')) = o_limit_send o -> c_abort c' = true).
Proof.
  intros Hl R. destruct (replay_passes_counted o Hl l _ c' R) as [N1 N2 N3]; [by split; cbn; lia|].
  split; [lia|]. destruct (c_abort c'); [done|]. specialize (N3 eq_refl). lia.
Qed.

(** ** Replays that send whole captures

    No --unique-ip, no preloading, no limit on packets or time and a speed that is
    not 0; the statistics of flows may be on, as they are by default. *)
Record steady (o : send_opt) : Prop := {
  p_unique : o_unique_ip o = false;
  p_preload : o_preload_pcap o = false;
  p_send : o_limit_send o = 0;
  p_time : o_limit_time o = 0;
  p_speed : o_mode o = speed_mbpsrate -> o_speed o <> 0;
  p_pps : o_mode o = speed_packetrate -> u64 (o_speed o * (if 0 <? o_pps_multi o then o_pps_multi o else 1)) <> 0
}.
Record plain (o : send_opt) : Prop := { p_steady : steady o; p_intf2 : o_intf2 o = false }.
(** The bytes to send were captured and, when flows are counted, the headers the
    decoder of flows reads. *)
Definition complete (o : send_opt) (datalink : Z) (p : pcap_packet) : Prop :=
  0 <= pktlen o p <= blen (k_data p)
  /\ (o_flow_stats o = true -> exists d b, flow_key datalink (k_data p) = Ok (d, b)).
(** What is sent of a packet. *)
Definition on_wire (o : send_opt) (p : pcap_packet) : buf := take (Z.to_nat (pktlen o p)) (k_data p).
Definition wire (c : send_ctx) : list buf := rev (map s_data (c_sent c)).

Section steady.
Context (o : send_opt) (Hp : steady o).
(** The table of flows is one that was initialised and filled by packets. *)
Definition counts (t : flow_hash_table) : Prop := o_flow_stats o = true -> exists h, tracks (o_flow_expiry o) t h.
Lemma counts_init n t : 0 <= n -> flow_hash_table_init n = Ok t -> counts t.
Proof. intros Hn E _. exists []. by eapply init_tracks. Qed.
Lemma update_counts mem datalink ts data (sp : option flow_stats) t f :
  o_flow_stats o = true -> counts t -> (exists d b, flow_key datalink data = Ok (d, b)) ->
  exists t' f' sp', update_flow_stats mem (o_flow_expiry o) datalink ts data {| fc_table := t; fc_stats := f; fc_sp := sp |}
    = Ok {| fc_table := t'; fc_stats := f'; fc_sp := sp' |} /\ counts t'.
Proof.
  intros Hf Ht (d & b & D). destruct (Ht Hf) as [h Hh].
  destruct (flow_decode_ok (o_flow_expiry o) datalink t h {| pk_mem := mem; pk_ts := ts; pk_data := data |} d Hh) as (r & t' & h' & E & Ht' & _);
    [by exists b|]. cbn in E. unfold update_flow_stats. cbn [fc_table]. rewrite E. cbn. eexists t', _, _. split; [reflexivity|]. intros _. by exists h'.
Qed.
(** Counting the flows of a packet changes the statistics only. *)
Definition only_flows (c c' : send_ctx) : Prop := counts (c_table c') /\ exists t f s1 s2, c' = with_flows c t f s1 s2.
Lemma count_flows_total intf2 datalink p mem preload c :
  counts (c_table c) -> complete o datalink p ->
  exists c', (if o_flow_stats o && negb preload then count_flows o intf2 datalink p mem c else Ok c) = Ok c' /\ only_flows c c'.
Proof.
  intros Ht [_ Hd]. destruct (o_flow_stats o) eqn:Hf; [|exists c; split; [done|]; split; [done|]; destruct c; by eexists _, _, _, _].
  destruct preload; [exists c; split; [done|]; split; [done|]; destruct c; by eexists _, _, _, _|]. cbn [negb andb]. unfold count_flows.
  match goal with |- context [update_flow_stats ?m _ ?dl ?ts ?b {| fc_table := ?t; fc_stats := ?f; fc_sp := ?sp |}] =>
    destruct (update_counts m dl ts b sp t f Hf Ht (Hd eq_refl)) as (t' & f' & sp' & -> & Ht') end.
  cbn. eexists. split; [reflexivity|]. split; [exact Ht'|]. by eexists _, _, _, _.
Qed.
(** The time is read before it is used. *)
Definition ready (v : send_vars) (c : send_ctx) : Prop := v_now v <> None \/ (v_skip_length v = 0 /\ c_skip_packets c = 0).
Lemma calc_total user pt len counter c : exists c' s, calc_sleep_time o user pt len counter 0 c = Ok (c', s).
Proof.
  destruct Hp. unfold calc_sleep_time. destruct (_ && _ && _); [eauto|]. destruct (o_mode o); eauto.
  - destruct (_ =? 0); [eauto|]. rewrite (proj2 (Z.eqb_neq _ _) (p_speed0 eq_refl)). repeat destruct (_ <? _); eauto.
  - destruct (_ =? 0); [eauto|]. rewrite (proj2 (Z.eqb_neq _ _) (p_pps0 eq_refl)). repeat destruct (_ <? _); eauto.
Qed.
Lemma wait_for_total x p len v c :
  ready v c -> exists c' v' now, wait_for o x p len v c = Ok (c', v') /\ v_now v' = Some now
    /\ c_sent c' = c_sent c /\ c_abort c' = c_abort c /\ c_table c' = c_table c.
Proof.
  intros Hr. assert (N : v_skip_length v <> 0 \/ c_skip_packets c <> 0 -> exists now, v_now v = Some now).
  { intros H. destruct Hr as [Hr|[H1 H2]]; [destruct (v_now v); eauto; done|lia]. }
  assert (K : exists c' v' now, wait_for o x p len v c = Ok (c', v') /\ v_now v' = Some now).
  { unfold wait_for. destruct (Z.eqb_spec (v_skip_length v) 0) as [S|S]; cbn [negb andb].
    - destruct (Z.eqb_spec (c_skip_packets c) 0) as [S2|S2]; cbn [negb]; [|destruct N as [now N]; [by right|eauto 6]].
      destruct (calc_total (x_user x) (k_ts p) len (v_packetnum v)
        (gettimeofday (x_late x (v_packetnum v)) (with_wait c (c_nap c) 0 (c_first_time c) (c_clock c)))) as (c1 & s & ->). cbn. eauto 6.
    - destruct N as [now N]; [by left|]. destruct (len <? v_skip_length v); [eauto 6|].
      destruct (Z.eqb_spec (c_skip_packets c) 0) as [S2|S2]; cbn [negb]; [|eauto 6].
      destruct (calc_total (x_user x) (k_ts p) len (v_packetnum v)
        (gettimeofday (x_late x (v_packetnum v)) (with_wait c (c_nap c) 0 (c_first_time c) (c_clock c)))) as (c1 & s & ->). cbn. eauto 6. }
  destruct K as (c' & v' & now & W & Hn). exists c', v', now. split; [done|]. split; [done|].
  by apply wait_for_keeps in W as (nap & sk & first & clk & ->).
Qed.
End steady.

Section plain.
Context (o : send_opt) (Hp : plain o).
Lemma send_one_plain x preload iteration datalink p v c :
  ready v c -> counts o (c_table c) -> complete o datalink p ->
  exists v' c' now, send_one o x preload iteration datalink 0 p v c = Ok (p, v', c') /\ v_now v' = Some now
    /\ map s_data (c_sent c') = on_wire o p :: map s_data (c_sent c) /\ c_abort c' = c_abort c /\ counts o (c_table c').
Proof.
  intros Hr Ht Hc. unfold send_one. fold (pktlen o p). rewrite (p_intf2 _ Hp), (p_unique _ (p_steady _ Hp)). cbn [mbind res_bind andb].
  set (v1 := {| v_packetnum := _ |}). set (p1 := {| k_ts := _ |}). assert (p1 = p) as -> by (by destruct p).
  destruct (count_flows_total o false datalink p (x_mem x (u64 (v_packetnum v + 1))) preload c Ht Hc)
    as (c0 & -> & Ht0 & t & f & s1 & s2 & ->). cbn [mbind res_bind].
  destruct (wait_for_total o (p_steady _ Hp) x p (pktlen o p) v1 (with_flows c t f s1 s2) Hr) as (c1 & v2 & now & W & Hn & Hs & Ha & Ht1).
  rewrite W. cbn [mbind res_bind]. rewrite Hn.
  destruct Hc as [[H1 H2] _]. rewrite (proj2 (Z.ltb_ge _ _) H2). eexists _, _, now. split; [reflexivity|]. split; [done|].
  cbn [with_sent c_sent c_abort c_table map s_data]. rewrite Hs, Ha, Ht1, (p_send _ (p_steady _ Hp)). cbn. by rewrite orb_false_r.
Qed.
Lemma send_loop_plain x preload iteration datalink pkts v c :
  ready v c -> c_abort c = false -> counts o (c_table c) -> Forall (complete o datalink) pkts ->
  exists out v' c', send_loop o x preload iteration datalink 0 pkts v c = Ok (out, v', c') /\ c_abort c' = false
    /\ counts o (c_table c') /\ map s_data (c_sent c') = rev (map (on_wire o) pkts) ++ map s_data (c_sent c).
Proof.
  revert v c. induction pkts as [|p pkts IH]; intros v c Hr Ha Ht F; cbn [send_loop]; rewrite Ha; [eauto 7|].
  apply Forall_cons_iff in F as [Hc F]. rewrite (p_preload _ (p_steady _ Hp)). cbn [andb mbind res_bind].
  destruct (send_one_plain x preload iteration datalink p v c Hr Ht Hc) as (v1 & c1 & now & -> & Hn & Hs & Ha1 & Ht1). cbn [mbind res_bind].
  destruct (IH v1 c1) as (out & v2 & c2 & -> & Ha2 & Ht2 & Hs2); [left; congruence|congruence|done|done|]. cbn [mbind res_bind].
  eexists _, v2, c2. split; [reflexivity|]. split; [done|]. split; [done|]. rewrite Hs2, Hs. cbn [map rev]. by rewrite <- app_assoc.
Qed.
Lemma replay_passes_plain l c :
  c_abort c = false -> counts o (c_table c) -> Forall (fun a => Forall (complete o (a_datalink a)) (a_file a)) l ->
  exists c', replay_passes o l c = Ok c' /\ wire c' = wire c ++ concat (map (fun a => map (on_wire o) (a_file a)) l).
Proof.
  revert c. induction l as [|a l IH]; intros c Ha Ht F; cbn [replay_passes]; [exists c; by rewrite app_nil_r|].
  apply Forall_cons_iff in F as [Fa F]. unfold send_packets. rewrite (p_preload _ (p_steady _ Hp)), (p_time _ (p_steady _ Hp)). cbn [andb Z.ltb Z.compare].
  set (c0 := with_wait (new_pass c) _ _ _ _). set (v0 := {| v_packetnum := _ |}).
  destruct (send_loop_plain (a_out a) (cached (a_cache a)) (c_iteration c0) (a_datalink a) (a_file a) v0 c0)
    as (out & v1 & c1 & -> & Ha1 & Ht1 & Hs); [by right|done|done|done|]. cbn [mbind res_bind].
  match goal with |- context [replay_passes o l ?c2] => destruct (IH c2) as (c' & R & W); [done|done|done|] end.
  exists c'. split; [exact R|]. rewrite W. cbn [map concat]. rewrite app_assoc. f_equal. unfold wire. cbn [finished c_sent].
  rewrite Hs, rev_app_distr, rev_involutive. done.
Qed.
End plain.

(** C23: a replay with one interface and without --unique-ip, preloading and limits on
    packets or time ([plain]; a rate, when there is one, is not 0), with statistics of
    flows or without, in every speed mode and for every behaviour of the clock, the
    memory and the user, ends without a fault after it has sent exactly the packets of
    its captures, in order.  The captures hold the bytes that are sent and, if flows
    are counted, the headers that are decoded for it ([complete]): a shorter frame is
    read out of bounds. *)
Theorem plain_replay_sends_all o n t clock l :
  plain o -> 0 <= n -> flow_hash_table_init n = Ok t ->
  Forall (fun a => Forall (complete o (a_datalink a)) (a_file a)) l ->
  exists c', replay_passes o l (start_replay t clock) = Ok c'
    /\ wire c' = concat (map (fun a => map (on_wire o) (a_file a)) l).
Proof. intros Hp Hn E F. apply (replay_passes_plain o Hp); [done|by apply (counts_init o n)|done]. Qed.

(** ** Samples *)
Definition plain_opt (mode : speed_mode) (speed limit : Z) : send_opt := {|
  o_mode := mode; o_speed := speed; o_multiplier := None; o_pps_multi := 0; o_maxsleep := 0; o_limit_send := limit; o_limit_time := 0;
  o_use_pkthdr_len := false; o_cache_packets := 0; o_cachedata := []; o_intf2 := false; o_preload_pcap := false;
  o_flow_stats := true; o_flow_expiry := 0; o_unique_ip := false |}.
Definition capture (b : buf) (ts : Z) : pcap_packet := {| k_ts := ts; k_caplen := blen b; k_len := blen b; k_data := b |}.
(** The second packet finds the process two milliseconds late. *)
Definition sample_outside : outside :=
  {| x_user := fun _ => 1; x_late := fun n => if n =? 2 then 2000 else 3; x_over := fun _ => 1; x_mem := fun _ => true |}.
Definition no_table : flow_hash_table := {| num_buckets := 1; buckets := [[]] |}.
Definition sample_pass : pass := {|
  a_out := sample_outside; a_late := 5; a_datalink := DLT_EN10MB;
  a_file := [capture sample_tcp 10; capture sample_udp 20; capture sample_tcp 30; capture sample_tcp 40; capture sample_udp 50];
  a_cache := {| cached := false; packet_cache := [] |} |}.
Lemma sample_in_time : Forall (fun a => in_time (a_out a) /\ 0 <= a_late a) [sample_pass; sample_pass].
Proof. repeat constructor; cbn; try lia; intros n; cbn; try destruct (n =? 2); lia. Qed.
Lemma sample_lengths o : o_use_pkthdr_len o = false -> o_preload_pcap o = false ->
  Forall (fun a => lengths_ok o (source o a)) [sample_pass; sample_pass].
Proof.
  intros H1 H2. assert (E : source o sample_pass = a_file sample_pass) by (unfold source; by rewrite H2).
  repeat constructor; rewrite E; repeat constructor; unfold pktlen; rewrite H1; vm_compute; discriminate.
Qed.
Lemma complete_sample o p : o_use_pkthdr_len o = false ->
  p ∈ [capture sample_tcp 10; capture sample_udp 20; capture sample_tcp 30; capture sample_tcp 40; capture sample_udp 50; capture sample_udp 30] ->
  complete o DLT_EN10MB p.
Proof.
  intros H1 Hin. split.
  - unfold pktlen. rewrite H1. repeat (apply elem_of_cons in Hin as [->|Hin]; [split; vm_compute; discriminate|]). by apply elem_of_nil in Hin.
  - intros _. repeat (apply elem_of_cons in Hin as [->|Hin]; [by eexists _, _; vm_compute|]). by apply elem_of_nil in Hin.
Qed.
Lemma sample_complete o : o_use_pkthdr_len o = false ->
  Forall (fun a => Forall (complete o (a_datalink a)) (a_file a)) [sample_pass; sample_pass].
Proof. intros H1. repeat constructor; (apply complete_sample; [done|]); rewrite !elem_of_cons; tauto. Qed.

Lemma rate_never_exceeded_witness :
  exists c', replay_passes (plain_opt speed_mbpsrate 1000000 0) [sample_pass; sample_pass] (start_replay no_table 1000000) = Ok c'
    /\ length (c_sent c') = 10%nat
    /\ forall newer s older, c_sent c' = newer ++ s :: older -> older <> [] ->
         8000000 * total (s :: older) < (s_time s - 1000000 + 1) * 1000000.
Proof.
  destruct (replay_passes (plain_opt speed_mbpsrate 1000000 0) [sample_pass; sample_pass] (start_replay no_table 1000000)) as [c'|f] eqn:R;
    [|vm_compute in R; discriminate].
  exists c'. split; [reflexivity|]. split; [vm_compute in R; injection R as <-; reflexivity|].
  exact (rate_never_exceeded (plain_opt speed_mbpsrate 1000000 0) no_table 1000000 [sample_pass; sample_pass] c' eq_refl ltac:(cbn; lia) eq_refl
    ltac:(lia) sample_in_time (sample_lengths (plain_opt speed_mbpsrate 1000000 0) eq_refl eq_refl) ltac:(vm_compute; reflexivity) R).
Defined.
(** At 10 gigabits per second, half an hour into the replay. *)
Definition late_ctx : send_ctx :=
  {| c_abort := false; c_nap := 0; c_skip_packets := 0; c_first_time := true; c_iteration := 0;
     c_bytes_sent := 2305843009200; c_pkts_sent := 1537228673; c_start_time := 1000000; c_end_time := 1844675408; c_last_time := 0;
     c_table := no_table; c_flows := no_stats; c_sp1 := no_stats; c_sp2 := no_stats; c_clock := 1844675408; c_sent := [] |}.
Lemma rate_lost_after_overflow_witness :
  exists skip, calc_sleep_time (plain_opt speed_mbpsrate 10000000000 0) (fun _ => 1) 0 15000 1 0 late_ctx
    = Ok (with_wait late_ctx 0 0 true 1844675408, skip).
Proof.
  apply (rate_lost_after_overflow (plain_opt speed_mbpsrate 10000000000 0) (fun _ => 1) 0 15000 1 late_ctx);
    [reflexivity|cbn; lia|cbn; lia| | | |]; try split; vm_compute; (reflexivity || discriminate).
Defined.
Lemma limit_send_respected_witness :
  exists c', replay_passes (plain_opt speed_topspeed 0 7) [sample_pass; sample_pass] (start_replay no_table 1000000) = Ok c'
    /\ length (c_sent c') = 7%nat /\ c_abort c' = true.
Proof.
  destruct (replay_passes (plain_opt speed_topspeed 0 7) [sample_pass; sample_pass] (start_replay no_table 1000000)) as [c'|f] eqn:R;
    [|vm_compute in R; discriminate].
  destruct (limit_send_respected (plain_opt speed_topspeed 0 7) no_table 1000000 _ c' ltac:(cbn; lia) R) as [_ A].
  assert (L : length (c_sent c') = 7%nat) by (vm_compute in R; injection R as <-; reflexivity).
  exists c'. split; [reflexivity|]. split; [exact L|]. apply A. rewrite L. reflexivity.
Defined.
Lemma plain_packetrate : plain (plain_opt speed_packetrate 100 0).
Proof. split; [split; cbn; done|done]. Qed.
Lemma plain_replay_sends_all_witness :
  exists c', replay_passes (plain_opt speed_packetrate 100 0) [sample_pass; sample_pass] (start_replay no_table 1000000) = Ok c'
    /\ wire c' = let file := [sample_tcp; sample_udp; sample_tcp; sample_tcp; sample_udp] in file ++ file.
Proof.
  destruct (plain_replay_sends_all (plain_opt speed_packetrate 100 0) 1 no_table 1000000 [sample_pass; sample_pass] plain_packetrate ltac:(lia) eq_refl
    (sample_complete (plain_opt speed_packetrate 100 0) eq_refl)) as (c' & R & W).
  exists c'. split; [exact R|]. rewrite W. vm_compute. reflexivity.
Defined.
