(* ===== verification/SendDual.v ===== *)
(** * Sending two captures at a time: [send_dual_packets] of [send_packets.c]

    Each capture has an interface of its own; the packet that is next is the one
    with the earlier time. *)

From Stdlib Require Import ZArith Lia Sorting.Sorted.
From stdpp Require Import base list sorting.
From S2P Require Import Prelude Samples Wire Get Flows UniqueIp TcpeditTypes Cache SendPackets.

(** The interface is counted with or without a cache file. *)
Definition count_dual (o : send_opt) (intf2 : bool) (datalink : Z) (p : pcap_packet) (mem : bool) (c : send_ctx) : res send_ctx :=
  f ← update_flow_stats mem (o_flow_expiry o) datalink (k_ts p / 1000000) (k_data p)
        {| fc_table := c_table c; fc_stats := c_flows c; fc_sp := Some (if intf2 then c_sp2 c else c_sp1 c) |};
  let s := fc_sp f in
  Ok (with_flows c (fc_table f) (fc_stats f)
        (if intf2 then c_sp1 c else default (c_sp1 c) s) (if intf2 then default (c_sp2 c) s else c_sp2 c)).

(** The body of the loop, after the choice of the capture; the flag to stop is set
    once the next packet has been fetched. *)
Definition dual_one (o : send_opt) (x : outside) (intf2 preload : bool) (iteration datalink end_us : Z)
    (p : pcap_packet) (v : send_vars) (c : send_ctx) : res (pcap_packet * send_vars * send_ctx) :=
  let n := u64 (v_packetnum v + 1) in
  let v := {| v_packetnum := n; v_skip_length := v_skip_length v; v_now := v_now v; v_now_is_now := v_now_is_now v |} in
  '(_, data) ← (if o_unique_ip o && negb (iteration =? 0)
                then fast_edit_packet (k_caplen p) (u32 iteration) preload datalink (k_data p) else Ok (tt, k_data p));
  let p := {| k_ts := k_ts p; k_caplen := k_caplen p; k_len := k_len p; k_data := data |} in
  c ← (if o_flow_stats o && negb preload then count_dual o intf2 datalink p (x_mem x n) c else Ok c);
  '(c, v) ← wait_for o x p (pktlen o p) v c;
  match v_now v with
  | None => Err Undef
  | Some now =>
      if blen data <? pktlen o p then Err Oob
      else
        let last := if negb (bool_decide (o_mode o = speed_topspeed)) && (c_last_time c <? k_ts p) then k_ts p else c_last_time c in
        let stop := (negb (end_us =? 0) && (end_us <? now))
                    || (negb (o_limit_send o =? 0) && (o_limit_send o <=? u64 (c_pkts_sent c + 1))) in
        Ok (p, v, with_sent c (c_abort c || stop) (pktlen o p) now last
                    {| s_intf2 := intf2; s_data := take (Z.to_nat (pktlen o p)) data; s_time := now |})
  end.

(** A capture as the loop sees it: whether it is cached, its link type, the packets
    that are left, the first of which has been fetched, and what the loop leaves in
    memory of those it is done with, the last first. *)
Record stream := { m_cached : bool; m_dlt : Z; m_left : list pcap_packet; m_done : list pcap_packet }.
(** [get_next_packet]: a packet that is read while captures are preloaded is copied. *)
Definition fetch (o : send_opt) (m : stream) : res stream :=
  match m_left m with
  | [] => Ok m
  | p :: _ =>
      if o_preload_pcap o && negb (m_cached m) then
        q ← cache_copy p;
        Ok {| m_cached := m_cached m; m_dlt := m_dlt m; m_left := m_left m; m_done := q :: m_done m |}
      else Ok m
  end.
(** The next packet of the capture, after the one at the front has become [p]. *)
Definition advance (o : send_opt) (m : stream) (p : pcap_packet) : res stream :=
  fetch o {| m_cached := m_cached m; m_dlt := m_dlt m; m_left := tail (m_left m);
             m_done := if m_cached m then p :: m_done m else m_done m |}.

(** Which capture is next, and its packet. *)
Definition next_packet (m1 m2 : stream) : option (bool * pcap_packet) :=
  match m_left m1, m_left m2 with
  | [], [] => None
  | [], p2 :: _ => Some (true, p2)
  | p1 :: _, [] => Some (false, p1)
  | p1 :: _, p2 :: _ => Some (if k_ts p1 <=? k_ts p2 then (false, p1) else (true, p2))
  end.
Fixpoint dual_loop (fuel : nat) (o : send_opt) (x : outside) (iteration end_us : Z) (m1 m2 : stream) (v : send_vars) (c : send_ctx)
    : res (stream * stream * send_vars * send_ctx) :=
  if c_abort c then Ok (m1, m2, v, c)
  else
    match next_packet m1 m2 with
    | None => Ok (m1, m2, v, c)
    | Some (intf2, p) =>
        match fuel with
        | O => Err Diverge
        | S fuel =>
            let m := if intf2 then m2 else m1 in
            '(p', v, c) ← dual_one o x intf2 (m_cached m) iteration (m_dlt m) end_us p v c;
            m' ← advance o m p';
            if intf2 then dual_loop fuel o x iteration end_us m1 m' v c else dual_loop fuel o x iteration end_us m' m2 v c
        end
    end.

Definition open_stream (o : send_opt) (dlt : Z) (file : list pcap_packet) (fc : file_cache) : res stream :=
  fetch o {| m_cached := cached fc; m_dlt := dlt; m_left := if o_preload_pcap o && cached fc then packet_cache fc else file; m_done := [] |}.
(** What is in memory of the capture afterwards. *)
Definition close_stream (o : send_opt) (m : stream) (fc : file_cache) : file_cache :=
  {| cached := cached fc;
     packet_cache :=
       if negb (o_preload_pcap o) then packet_cache fc
       else if cached fc then rev (m_done m) ++ m_left m
       else match m_done m with [] => packet_cache fc | l => rev l end |}.
Definition send_dual_packets (o : send_opt) (x : outside) (late : Z) (dlt1 dlt2 : Z) (file1 file2 : list pcap_packet)
    (fc1 fc2 : file_cache) (c : send_ctx) : res (file_cache * file_cache * send_ctx) :=
  let c := with_wait c (c_nap c) 0 (c_first_time c) (c_clock c) in
  let end_us := if 0 <? o_limit_time o then u64 (c_start_time c + u64 (o_limit_time o * 1000000)) else 0 in
  let v := {| v_packetnum := 0; v_skip_length := 0; v_now := None; v_now_is_now := false |} in
  m1 ← open_stream o dlt1 file1 fc1;
  m2 ← open_stream o dlt2 file2 fc2;
  '(m1, m2, v, c) ← dual_loop (length (m_left m1) + length (m_left m2)) o x (c_iteration c) end_us m1 m2 v c;
  Ok (close_stream o m1 fc1, close_stream o m2 fc2,
      finished c (if v_now_is_now v then default 0 (v_now v) else c_clock c + late)).

(** ** The merge *)

(** A packet with its interface; the order is that of the times. *)
Abbreviation tagged := (bool * pcap_packet)%type.
Definition earlier (a b : tagged) : Prop := k_ts a.2 <= k_ts b.2.
#[export] Instance earlier_dec a b : Decision (earlier a b).
Proof. unfold earlier. apply _. Defined.
#[export] Instance earlier_total : Total earlier.
Proof. intros a b. unfold earlier. lia. Qed.
Definition merged (l1 l2 : list pcap_packet) : list tagged := list_merge earlier (pair false <$> l1) (pair true <$> l2).
(** What goes out, with the interface. *)
Definition wires (c : send_ctx) : list (bool * buf) := rev (map (fun s => (s_intf2 s, s_data s)) (c_sent c)).
Definition on_wires (o : send_opt) (a : tagged) : bool * buf := (a.1, on_wire o a.2).

Lemma merged_nil_l l2 : merged [] l2 = pair true <$> l2.
Proof. unfold merged. cbn. by rewrite list_merge_nil_l. Qed.
Lemma merged_nil_r l1 : merged l1 [] = pair false <$> l1.
Proof. unfold merged. cbn. by rewrite list_merge_nil_r. Qed.
Lemma merged_cons p1 p2 l1 l2 :
  merged (p1 :: l1) (p2 :: l2)
  = if k_ts p1 <=? k_ts p2 then (false, p1) :: merged l1 (p2 :: l2) else (true, p2) :: merged (p1 :: l1) l2.
Proof.
  unfold merged. cbn [fmap list_fmap]. rewrite list_merge_cons. unfold earlier at 1. cbn [snd].
  destruct (Z.leb_spec (k_ts p1) (k_ts p2)); case_decide; done || lia.
Qed.
(** Each capture keeps its order. *)
Lemma filter_tag (b d : bool) (l : list pcap_packet) :
  snd <$> filter (fun a : tagged => a.1 = d) (pair b <$> l) = if decide (b = d) then l else [].
Proof.
  induction l as [|p l IH]; [by case_decide|]. cbn [fmap list_fmap]. case_decide.
  - rewrite list.filter_cons_True by done. cbn [fmap list_fmap snd]. by rewrite IH.
  - by rewrite list.filter_cons_False by done.
Qed.
Lemma merged_parts l1 l2 (b : bool) : snd <$> filter (fun a : tagged => a.1 = b) (merged l1 l2) = if b then l2 else l1.
Proof.
  revert l2. induction l1 as [|p1 l1 IH1]; [intros l2; rewrite merged_nil_l, filter_tag; by destruct b|].
  induction l2 as [|p2 l2 IH2]; [rewrite merged_nil_r, filter_tag; by destruct b|]. rewrite merged_cons.
  destruct (k_ts p1 <=? k_ts p2); destruct b;
    first [rewrite list.filter_cons_True by done; cbn [fmap list_fmap snd]|rewrite list.filter_cons_False by done].
  - apply IH1.
  - by rewrite IH1.
  - by rewrite IH2.
  - apply IH2.
Qed.
(** The next packet is the first of the merge. *)
Lemma next_merged m1 m2 :
  match next_packet m1 m2 with
  | None => merged (m_left m1) (m_left m2) = []
  | Some (b, p) =>
      merged (m_left m1) (m_left m2)
      = (b, p) :: (if b then merged (m_left m1) (tail (m_left m2)) else merged (tail (m_left m1)) (m_left m2))
      /\ p ∈ (if b then m_left m2 else m_left m1)
  end.
Proof.
  unfold next_packet. destruct (m_left m1) as [|p1 l1], (m_left m2) as [|p2 l2]; cbn [tail].
  - done.
  - rewrite !merged_nil_l. split; [done|by left].
  - rewrite !merged_nil_r. split; [done|by left].
  - rewrite merged_cons. destruct (k_ts p1 <=? k_ts p2); (split; [done|by left]).
Qed.

(** ** A replay of two whole captures *)
Section plain_dual.
Context (o : send_opt) (Hp : steady o).

Lemma fetch_plain m : fetch o m = Ok m.
Proof. unfold fetch. rewrite (p_preload _ Hp). by destruct (m_left m). Qed.
Lemma advance_plain m p : exists d, advance o m p = Ok {| m_cached := m_cached m; m_dlt := m_dlt m; m_left := tail (m_left m); m_done := d |}.
Proof. unfold advance. rewrite fetch_plain. eauto. Qed.
Lemma count_dual_total intf2 datalink p mem preload c :
  counts o (c_table c) -> complete o datalink p ->
  exists c', (if o_flow_stats o && negb preload then count_dual o intf2 datalink p mem c else Ok c) = Ok c' /\ only_flows o c c'.
Proof.
  intros Ht [_ Hd]. destruct (o_flow_stats o) eqn:Hf; [|exists c; split; [done|]; split; [done|]; destruct c; by eexists _, _, _, _].
  destruct preload; [exists c; split; [done|]; split; [done|]; destruct c; by eexists _, _, _, _|]. cbn [negb andb]. unfold count_dual.
  match goal with |- context [update_flow_stats ?m _ ?dl ?ts ?b {| fc_table := ?t; fc_stats := ?f; fc_sp := ?sp |}] =>
    destruct (update_counts o m dl ts b sp t f Hf Ht (Hd eq_refl)) as (t' & f' & sp' & -> & Ht') end.
  cbn. eexists. split; [reflexivity|]. split; [exact Ht'|]. by eexists _, _, _, _.
Qed.
Lemma dual_one_plain x intf2 preload iteration datalink p v c :
  ready v c -> counts o (c_table c) -> complete o datalink p ->
  exists v' c' now, dual_one o x intf2 preload iteration datalink 0 p v c = Ok (p, v', c') /\ v_now v' = Some now
    /\ wires c' = wires c ++ [(intf2, on_wire o p)] /\ c_abort c' = c_abort c /\ counts o (c_table c').
Proof.
  intros Hr Ht Hc. unfold dual_one. rewrite (p_unique _ Hp). cbn [mbind res_bind andb].
  set (v1 := {| v_packetnum := _ |}). set (p1 := {| k_ts := _ |}). assert (p1 = p) as -> by (by destruct p).
  destruct (count_dual_total intf2 datalink p (x_mem x (u64 (v_packetnum v + 1))) preload c Ht Hc)
    as (c0 & -> & Ht0 & t & f & s1 & s2 & ->). cbn [mbind res_bind].
  destruct (wait_for_total o Hp x p (pktlen o p) v1 (with_flows c t f s1 s2) Hr) as (c1 & v2 & now & W & Hn & Hs & Ha & Ht1).
  rewrite W. cbn [mbind res_bind]. rewrite Hn. destruct Hc as [[H1 H2] _]. rewrite (proj2 (Z.ltb_ge _ _) H2). eexists _, _, now. split; [reflexivity|]. split; [done|].
  unfold wires. cbn [with_sent c_sent c_abort c_table map s_data s_intf2 rev]. rewrite Hs, Ha, Ht1, (p_send _ Hp). cbn. by rewrite orb_false_r.
Qed.
Lemma dual_loop_plain fuel x iteration m1 m2 v c :
  ready v c -> c_abort c = false -> counts o (c_table c) ->
  Forall (complete o (m_dlt m1)) (m_left m1) -> Forall (complete o (m_dlt m2)) (m_left m2) ->
  (length (m_left m1) + length (m_left m2) <= fuel)%nat ->
  exists m1' m2' v' c', dual_loop fuel o x iteration 0 m1 m2 v c = Ok (m1', m2', v', c')
    /\ wires c' = wires c ++ map (on_wires o) (merged (m_left m1) (m_left m2)).
Proof.
  revert m1 m2 v c. induction fuel as [|fuel IH]; intros m1 m2 v c Hr Ha Ht F1 F2 Hf; cbn [dual_loop]; rewrite Ha; pose proof (next_merged m1 m2) as N;
    (destruct (next_packet m1 m2) as [[b p]|]; [|rewrite N, app_nil_r; eauto 6]); destruct N as [N Hin].
  { destruct (m_left m1), (m_left m2); cbn in Hf; try lia. by destruct b; apply elem_of_nil in Hin. }
  set (m := if b then m2 else m1).
  assert (Hc : complete o (m_dlt m) p) by (unfold m; destruct b; [eapply Forall_forall in F2|eapply Forall_forall in F1]; eauto).
  destruct (dual_one_plain x b (m_cached m) iteration (m_dlt m) p v c Hr Ht Hc) as (v1 & c1 & now & -> & Hn & Hw & Ha1 & Ht1). cbn [mbind res_bind].
  destruct (advance_plain m p) as [d ->]. cbn [mbind res_bind]. rewrite N. cbn [map].
  assert (T : forall dl l, Forall (complete o dl) l -> Forall (complete o dl) (tail l)) by (intros dl [|q l] F; [done|by inversion F]).
  assert (L : forall l : list pcap_packet, p ∈ l -> S (length (tail l)) = length l) by (intros [|q l] E; [by apply elem_of_nil in E|done]).
  destruct b; [destruct (IH m1 {| m_cached := m_cached m; m_dlt := m_dlt m; m_left := tail (m_left m); m_done := d |} v1 c1)
      as (m1' & m2' & v' & c' & R & W)|destruct (IH {| m_cached := m_cached m; m_dlt := m_dlt m; m_left := tail (m_left m); m_done := d |} m2 v1 c1)
      as (m1' & m2' & v' & c' & R & W)]; cbn [m_left] in *; try (left; congruence) || congruence || auto;
    try (apply L in Hin; unfold m; lia).
  all: exists m1', m2', v', c'; split; [exact R|]; rewrite W, Hw, <- app_assoc; done.
Qed.
End plain_dual.

(** C26: a replay of two captures, without --unique-ip, preloading and limits on
    packets or time ([steady]; a rate, when there is one, is not 0), with statistics of
    flows or without, in every speed mode and for every behaviour of the clock, the
    memory and the user, ends without a fault after it has sent their merge: all
    packets of both and no others, those of each capture in its order and on its
    interface, and, when the times of each capture do not go back, in the order of
    their times.  The captures hold the bytes that are sent and, if flows are counted,
    the headers that are decoded for it ([complete]). *)
Theorem dual_replay_merges o x late dlt1 dlt2 file1 file2 fc1 fc2 n t clock :
  steady o -> 0 <= n -> flow_hash_table_init n = Ok t ->
  Forall (complete o dlt1) file1 -> Forall (complete o dlt2) file2 ->
  exists fc1' fc2' c', send_dual_packets o x late dlt1 dlt2 file1 file2 fc1 fc2 (start_replay t clock) = Ok (fc1', fc2', c')
    /\ wires c' = map (on_wires o) (merged file1 file2)
    /\ Permutation (merged file1 file2) ((pair false <$> file1) ++ (pair true <$> file2))
    /\ (forall b, snd <$> filter (fun a : tagged => a.1 = b) (merged file1 file2) = if b then file2 else file1)
    /\ (Sorted earlier (pair false <$> file1) -> Sorted earlier (pair true <$> file2) -> Sorted earlier (merged file1 file2)).
Proof.
  intros Hp Hn Et F1 F2. unfold send_dual_packets, open_stream. rewrite !fetch_plain by done. rewrite (p_preload _ Hp), (p_time _ Hp).
  cbn [andb mbind res_bind m_left Z.ltb Z.compare].
  set (m1 := {| m_cached := cached fc1; m_dlt := _; m_left := _; m_done := _ |}). set (m2 := {| m_cached := cached fc2; m_dlt := _; m_left := _; m_done := _ |}).
  match goal with |- context [dual_loop ?f _ _ ?i _ _ _ ?v ?c] =>
    destruct (dual_loop_plain o Hp f x i m1 m2 v c) as (m1' & m2' & v' & c' & R & W); [by right|done|by apply (counts_init o n)|done|done|done|] end.
  rewrite R. cbn [mbind res_bind]. eexists _, _, _. split; [reflexivity|]. split; [exact W|].
  split; [apply merge_Permutation|]. split; [apply merged_parts|]. apply Sorted_list_merge, _.
Qed.

(** ** Samples *)
Definition file_a : list pcap_packet := [capture sample_tcp 10; capture sample_tcp 30].
Definition file_b : list pcap_packet := [capture sample_udp 20; capture sample_udp 30].
Lemma files_complete o : o_use_pkthdr_len o = false -> Forall (complete o DLT_EN10MB) file_a /\ Forall (complete o DLT_EN10MB) file_b.
Proof. intros H1. split; repeat constructor; (apply complete_sample; [done|]); rewrite !elem_of_cons; tauto. Qed.
Lemma dual_replay_merges_witness :
  exists fc1 fc2 c', send_dual_packets (plain_opt speed_multiplier 0 0) sample_outside 1 DLT_EN10MB DLT_EN10MB file_a file_b
      {| cached := false; packet_cache := [] |} {| cached := false; packet_cache := [] |} (start_replay no_table 1000000) = Ok (fc1, fc2, c')
    /\ wires c' = [(false, sample_tcp); (true, sample_udp); (false, sample_tcp); (true, sample_udp)].
Proof.
  destruct (dual_replay_merges (plain_opt speed_multiplier 0 0) sample_outside 1 DLT_EN10MB DLT_EN10MB file_a file_b
      {| cached := false; packet_cache := [] |} {| cached := false; packet_cache := [] |} 1 no_table 1000000) as (fc1 & fc2 & c' & R & W & _);
    [by split|lia|reflexivity|by apply files_complete|by apply files_complete|].
  exists fc1, fc2, c'. split; [exact R|]. rewrite W. vm_compute. reflexivity.
Defined.
