(* ===== verification/SendSplit.v ===== *)
(** * Splitting a capture over two interfaces

    tcpprep writes the decision for each packet of a capture to a cache file
    ([common/cache.c]); tcpreplay reads the file and sends each packet on the
    interface of its decision ([send_packets.c]).  Both ends together. *)

From Stdlib Require Import ZArith Lia.
From stdpp Require Import base list.
From S2P Require Import Prelude Samples Wire TcpeditTypes Cache Flows SendPackets SendDual.

(** What should go out: the packets that are to be sent, each on its interface. *)
Fixpoint split_by (o : send_opt) (ds : list dec) (pkts : list pcap_packet) : list (bool * buf) :=
  match ds, pkts with
  | (true, d) :: ds, p :: pkts => (negb (bool_decide (d = DIR_C2S)), on_wire o p) :: split_by o ds pkts
  | (false, _) :: ds, _ :: pkts => split_by o ds pkts
  | _, _ => []
  end.

Section split.
Context (o : send_opt) (Hp : steady o) (Hi : o_intf2 o = true) (ds : list dec).
Context (Hn : o_cache_packets o = Z.of_nat (length ds)) (Hmax : Z.of_nat (length ds) < 2 ^ 32).
Context (Hd : forall (i : nat) (s : bool) (d : tcpr_dir), ds !! i = Some (s, d) -> check_cache (o_cachedata o) (Z.of_nat i + 1) = Ok (decision s d)).

Lemma cache_mode_decides (i : nat) (s : bool) (d : tcpr_dir) :
  ds !! i = Some (s, d) -> cache_mode o (Z.of_nat i + 1) = Ok (if s then Some (negb (bool_decide (d = DIR_C2S))) else None).
Proof.
  intros H. pose proof (lookup_lt_Some _ _ _ H). unfold cache_mode. rewrite Hn, (proj2 (Z.ltb_ge _ _)) by lia. rewrite (Hd i s d H).
  cbn [mbind res_bind]. unfold decision. destruct s; [|done]. by destruct (bool_decide (d = DIR_C2S)).
Qed.
Lemma send_one_split x preload iteration datalink (i : nat) (s : bool) (d : tcpr_dir) p v c :
  ds !! i = Some (s, d) -> v_packetnum v = Z.of_nat i -> ready v c -> counts o (c_table c) -> complete o datalink p ->
  exists v' c', send_one o x preload iteration datalink 0 p v c = Ok (p, v', c') /\ v_packetnum v' = Z.of_nat (S i) /\ ready v' c'
    /\ wires c' = wires c ++ (if s then [(negb (bool_decide (d = DIR_C2S)), on_wire o p)] else []) /\ c_abort c' = c_abort c /\ counts o (c_table c').
Proof.
  intros Hds Hv Hr Ht Hc. pose proof (lookup_lt_Some _ _ _ Hds). unfold send_one. fold (pktlen o p). rewrite Hi, Hv, (u64_small (Z.of_nat i + 1)) by lia.
  rewrite (cache_mode_decides i s d Hds). cbn [mbind res_bind]. set (v1 := {| v_packetnum := _ |}).
  destruct s; [|exists v1, c; split; [done|]; split; [cbn; lia|]; by rewrite app_nil_r].
  rewrite (p_unique _ Hp). cbn [mbind res_bind andb]. set (p1 := {| k_ts := _ |}). assert (p1 = p) as -> by (by destruct p).
  match goal with |- context [count_flows _ ?i2 _ _ ?mem _] =>
    destruct (count_flows_total o i2 datalink p mem preload c Ht Hc) as (c0 & -> & Ht0 & t & f & s1 & s2 & ->) end. cbn [mbind res_bind].
  destruct (wait_for_total o Hp x p (pktlen o p) v1 (with_flows c t f s1 s2) Hr) as (c1 & v2 & now & W & Hw & Hs & Ha & Ht1).
  rewrite W. cbn [mbind res_bind]. rewrite Hw. destruct Hc as [[H1 H2] _]. rewrite (proj2 (Z.ltb_ge _ _) H2). eexists v2, _. split; [reflexivity|].
  split; [rewrite (wait_for_number _ _ _ _ _ _ _ _ W); cbn; lia|]. split; [left; congruence|].
  unfold wires. cbn [with_sent c_sent c_abort c_table map s_data s_intf2 rev]. rewrite Hs, Ha, Ht1, (p_send _ Hp). cbn. by rewrite orb_false_r.
Qed.
Lemma send_loop_split x preload iteration datalink pkts i v c :
  v_packetnum v = Z.of_nat i -> (i + length pkts = length ds)%nat -> ready v c -> c_abort c = false ->
  counts o (c_table c) -> Forall (complete o datalink) pkts ->
  exists out v' c', send_loop o x preload iteration datalink 0 pkts v c = Ok (out, v', c') /\ wires c' = wires c ++ split_by o (drop i ds) pkts.
Proof.
  revert i v c. induction pkts as [|p pkts IH]; intros i v c Hv Hl Hr Ha Ht F; cbn [send_loop]; rewrite Ha.
  { eexists _, v, c. split; [done|]. rewrite drop_ge by (cbn in Hl; lia). by rewrite app_nil_r. }
  apply Forall_cons_iff in F as [Hc F]. rewrite (p_preload _ Hp). cbn [andb mbind res_bind length] in *.
  destruct (lookup_lt_is_Some_2 ds i) as [[s d] E]; [lia|]. rewrite (drop_S ds (s, d) i E).
  destruct (send_one_split x preload iteration datalink i s d p v c E Hv Hr Ht Hc) as (v1 & c1 & -> & Hv1 & Hr1 & Hw1 & Ha1 & Ht1). cbn [mbind res_bind].
  destruct (IH (S i) v1 c1 Hv1 ltac:(lia) Hr1 ltac:(congruence) Ht1 F) as (out & v2 & c2 & -> & Hw2). cbn [mbind res_bind].
  eexists _, v2, c2. split; [reflexivity|]. rewrite Hw2, Hw1, <- app_assoc. f_equal. by destruct s.
Qed.
Lemma send_packets_split x late datalink file fc c :
  (length file = length ds)%nat -> c_abort c = false -> counts o (c_table c) -> Forall (complete o datalink) file ->
  exists fc' c', send_packets o x late datalink file fc c = Ok (fc', c') /\ wires c' = wires c ++ split_by o ds file.
Proof.
  intros Hl Ha Ht F. unfold send_packets. rewrite (p_preload _ Hp), (p_time _ Hp). cbn [andb Z.ltb Z.compare].
  match goal with |- context [send_loop _ _ ?pl ?it ?dl _ _ ?v ?c0] =>
    destruct (send_loop_split x pl it dl file 0 v c0) as (out & v' & c' & R & W); [done|done|by right|done|done|done|] end.
  rewrite R. cbn [mbind res_bind]. eexists _, _. split; [reflexivity|]. exact W.
Qed.
End split.

(** C25: from tcpprep to the wire.  Whatever decisions are added for the packets of a
    capture, written to a cache file and read back, a replay of the capture on two
    interfaces with that file, without --unique-ip, preloading and limits on packets or
    time ([steady]; a rate, when there is one, is not 0), with statistics of flows or
    without, in every speed mode and for every behaviour of the clock, the memory and
    the user, ends without a fault after it has sent exactly the packets that were to
    be sent, in order, each on the interface of its decision.  The capture holds the
    bytes that are sent and, if flows are counted, the headers that are decoded for it
    ([complete]); with a limit the rest of the packets would be left out. *)
Theorem cache_file_splits_replay ds comment x late datalink file fc n t clock :
  ds <> [] -> Z.of_nat (length ds) < 2 ^ 32 -> blen comment < 65536 -> length file = length ds -> 0 <= n -> flow_hash_table_init n = Ok t ->
  exists chain text cachedata, add_all [] ds = Ok chain
    /\ write_cache chain (Z.of_nat (length ds)) (Some comment) = (text, Z.of_nat (length ds))
    /\ read_cache text = Ok (Z.of_nat (length ds), comment, cachedata)
    /\ (forall o, steady o -> o_intf2 o = true -> o_cache_packets o = Z.of_nat (length ds) -> o_cachedata o = cachedata ->
        Forall (complete o datalink) file ->
        exists fc' c', send_packets o x late datalink file fc (start_replay t clock) = Ok (fc', c') /\ wires c' = split_by o ds file).
Proof.
  intros Hne Hn Hc Hl Hn0 Et. destruct (cache_roundtrip ds comment Hne Hn Hc) as (chain & text & cd & R1 & R2 & R3 & R4).
  exists chain, text, cd. split; [done|]. split; [done|]. split; [done|]. intros o Hp Hi Hcp Hcd F.
  apply (send_packets_split o Hp Hi ds Hcp Hn); [by rewrite Hcd|done|done|by apply (counts_init o n)|done].
Qed.

(** ** Samples *)
Definition split_opt (cachedata : list Z) : send_opt := {|
  o_mode := speed_topspeed; o_speed := 0; o_multiplier := None; o_pps_multi := 0; o_maxsleep := 0; o_limit_send := 0; o_limit_time := 0;
  o_use_pkthdr_len := false; o_cache_packets := 5; o_cachedata := cachedata; o_intf2 := true; o_preload_pcap := false;
  o_flow_stats := true; o_flow_expiry := 0; o_unique_ip := false |}.
Lemma split_complete cd : Forall (complete (split_opt cd) DLT_EN10MB) (a_file sample_pass).
Proof. pose proof (sample_complete (split_opt cd) eq_refl) as H. by inversion H. Qed.
Lemma split_steady cd : steady (split_opt cd).
Proof. by split. Qed.
(** The second packet is not sent; the first and the fourth go to the first interface. *)
Lemma cache_file_splits_replay_witness :
  exists chain text cachedata fc' c', add_all [] sample_decisions = Ok chain
    /\ write_cache chain 5 (Some [104; 105]) = (text, 5) /\ read_cache text = Ok (5, [104; 105], cachedata)
    /\ send_packets (split_opt cachedata) sample_outside 1 DLT_EN10MB (a_file sample_pass) (a_cache sample_pass) (start_replay no_table 1000000)
       = Ok (fc', c')
    /\ wires c' = [(false, sample_tcp); (true, sample_tcp); (false, sample_tcp); (true, sample_udp)].
Proof.
  destruct (cache_file_splits_replay sample_decisions [104; 105] sample_outside 1 DLT_EN10MB (a_file sample_pass) (a_cache sample_pass)
    1 no_table 1000000) as (chain & text & cd & R1 & R2 & R3 & H); [discriminate|reflexivity|reflexivity|reflexivity|lia|reflexivity|].
  destruct (H (split_opt cd) (split_steady cd) eq_refl eq_refl eq_refl (split_complete cd)) as (fc' & c' & R & W).
  exists chain, text, cd, fc', c'. split; [exact R1|]. split; [exact R2|]. split; [exact R3|]. split; [exact R|]. rewrite W. vm_compute. reflexivity.
Defined.
