(* ===== verification/Cpp.v ===== *)
(** * The C++ the orchestrator is written in

    Exceptions and asserts as outcomes, programs that keep the state they
    reached when they fail, and the containers of the standard library:
    [std::map] and [std::set] keyed by strings (as [gmap]/[gset], traversed in
    the order of the keys), searches over [std::list]. *)

From Stdlib Require Import ZArith Lia String Ascii Sorted.
From stdpp Require Import base list gmap strings numbers pretty sorting.
From S2P Require Import Prelude.

(** ** Outcomes

    [Throw] is a C++ exception in flight, [Halt] the end of the process (a
    failed [assert]) or undefined behaviour. *)
Inductive exn := GraphManagerException | SwitchManagerException | GraphException | NativeExceptionPtr | ParseError.

Inductive out (A : Type) :=
| Ret (a : A)
| Throw (e : exn)
| Halt (f : fault).
Arguments Ret {A} a.
Arguments Throw {A} e.
Arguments Halt {A} f.

#[export] Instance exn_eq_dec : EqDecision exn.
Proof. solve_decision. Defined.
#[export] Instance out_eq_dec `{EqDecision A} : EqDecision (out A).
Proof. solve_decision. Defined.

#[export] Instance out_ret : MRet out := fun _ a => Ret a.
#[export] Instance out_bind : MBind out := fun _ _ k m =>
  match m with Ret a => k a | Throw e => Throw e | Halt f => Halt f end.

Definition of_res {A} (r : res A) : out A :=
  match r with Ok a => Ret a | Err f => Halt f end.
Definition out_assert (c : bool) : out unit := if c then Ret tt else Halt Assert.
(** Dereferencing an iterator (or a pointer) that may be the past-the-end one. *)
Definition deref {A} (x : option A) : out A :=
  match x with Some a => Ret a | None => Halt Undef end.

Lemma out_bind_ret {A B} (m : out A) (k : A -> out B) b :
  m ≫= k = Ret b <-> exists a, m = Ret a /\ k a = Ret b.
Proof.
  destruct m; cbn; split; try done; try (by intros (? & ? & ?)).
  - eauto.
  - by intros (? & [= ->] & ?).
Qed.
Lemma of_res_ret {A} (r : res A) a : of_res r = Ret a <-> r = Ok a.
Proof. destruct r; cbn; split; intros [=]; by subst. Qed.
Lemma deref_ret {A} (x : option A) a : deref x = Ret a <-> x = Some a.
Proof. destruct x; cbn; split; intros [=]; by subst. Qed.
Lemma out_assert_ret c u : out_assert c = Ret u <-> c = true.
Proof. destruct c, u; cbn; split; by intros [=]. Qed.
Lemma out_ret_ret {A} (a b : A) : (mret a : out A) = Ret b <-> a = b.
Proof. cbn. split; [by intros [=]|by intros ->]. Qed.

(** ** Programs over a state

    The state reached is kept whatever the outcome: a handler of an exception
    works on what the [try] block left behind. *)
Definition prog (S A : Type) : Type := S -> S * out A.
#[export] Instance prog_ret S : MRet (prog S) := fun _ a s => (s, Ret a).
#[export] Instance prog_bind S : MBind (prog S) := fun _ _ k m s =>
  match m s with
  | (s', Ret a) => k a s'
  | (s', Throw e) => (s', Throw e)
  | (s', Halt f) => (s', Halt f)
  end.

Section progs.
Context {S : Type}.

Definition gets {A} (f : S -> A) : prog S A := fun s => (s, Ret (f s)).
Definition modify (f : S -> S) : prog S unit := fun s => (f s, Ret tt).
Definition throw {A} (e : exn) : prog S A := fun s => (s, Throw e).
Definition prog_assert (c : bool) : prog S unit := fun s => (s, out_assert c).
Definition of_out {A} (o : out A) : prog S A := fun s => (s, o).
(** [try m catch (e) h]. *)
Definition try_catch {A} (e : exn) (m h : prog S A) : prog S A := fun s =>
  match m s with
  | (s', Throw e') => if decide (e' = e) then h s' else (s', Throw e')
  | r => r
  end.
(** [for (x : l) f(x);] *)
Fixpoint for_each {A} (f : A -> prog S unit) (l : list A) : prog S unit :=
  match l with
  | [] => mret tt
  | x :: l => f x ≫= fun _ => for_each f l
  end.
End progs.
#[global] Arguments prog_ret S _ _ _ /.

(** *** Reasoning about programs

    [wp m Q E s]: from [s], [m] never halts; it returns with [Q] or throws with
    [E]. *)
Definition wp {S A} (m : prog S A) (Q : S -> A -> Prop) (E : S -> exn -> Prop) (s : S) : Prop :=
  match m s with
  | (s', Ret a) => Q s' a
  | (s', Throw e) => E s' e
  | (_, Halt _) => False
  end.

Section wp.
Context {S : Type}.
Implicit Types (E : S -> exn -> Prop).

Lemma prog_wp_ret {A} (a : A) Q E s : Q s a -> wp (mret a) Q E s.
Proof. done. Qed.
Lemma prog_wp_bind {A B} (m : prog S A) (k : A -> prog S B) Q E s :
  wp m (fun s' a => wp (k a) Q E s') E s -> wp (m ≫= k) Q E s.
Proof. unfold wp, mbind, prog_bind. destruct (m s) as [s' [a|e|f]]; done. Qed.
Lemma prog_wp_mono {A} (m : prog S A) (Q Q' : S -> A -> Prop) E E' s :
  wp m Q E s -> (forall s' a, Q s' a -> Q' s' a) -> (forall s' e, E s' e -> E' s' e) ->
  wp m Q' E' s.
Proof. unfold wp. destruct (m s) as [s' [a|e|f]]; auto. Qed.
Lemma wp_gets {A} (f : S -> A) Q E s : Q s (f s) -> wp (gets f) Q E s.
Proof. done. Qed.
Lemma wp_modify f (Q : S -> unit -> Prop) E s : Q (f s) tt -> wp (modify f) Q E s.
Proof. done. Qed.
Lemma wp_throw {A} e (Q : S -> A -> Prop) E s : E s e -> wp (throw e) Q E s.
Proof. done. Qed.
Lemma prog_wp_assert c (Q : S -> unit -> Prop) E s : c = true -> Q s tt -> wp (prog_assert c) Q E s.
Proof. by intros ->. Qed.
Lemma wp_of_out {A} (o : out A) a (Q : S -> A -> Prop) E s :
  o = Ret a -> Q s a -> wp (of_out o) Q E s.
Proof. by intros ->. Qed.
Lemma wp_catch {A} e (m h : prog S A) Q E s :
  wp m Q (fun s' e' => if decide (e' = e) then wp h Q E s' else E s' e') s ->
  wp (try_catch e m h) Q E s.
Proof.
  unfold wp, try_catch. destruct (m s) as [s' [a|e'|f]]; [done| |done].
  by destruct (decide (e' = e)).
Qed.
(** The invariant of a loop may speak of the elements already visited. *)
Lemma wp_for_each {A} (f : A -> prog S unit) (I : list A -> S -> Prop) E l s :
  I [] s ->
  (forall l1 x l2 s', l = l1 ++ x :: l2 -> I l1 s' -> wp (f x) (fun s'' _ => I (l1 ++ [x]) s'') E s') ->
  wp (for_each f l) (fun s' _ => I l s') E s.
Proof.
  intros H0 Hf. change l with ([] ++ l).
  assert (Hgen : forall l2 l1 s', l = l1 ++ l2 -> I l1 s' ->
    wp (for_each f l2) (fun s' _ => I (l1 ++ l2) s') E s').
  { induction l2 as [|x l2 IH]; intros l1 s' El HI; cbn [for_each].
    - apply prog_wp_ret. by rewrite app_nil_r.
    - apply prog_wp_bind. eapply prog_wp_mono; [by eapply Hf| |done].
      intros s'' u HI'. cbn beta in HI'. replace (l1 ++ x :: l2) with ((l1 ++ [x]) ++ l2) by (by rewrite <- app_assoc).
      apply IH; [|done]. by rewrite <- app_assoc. }
  by apply Hgen.
Qed.
End wp.

(** *** Partial correctness

    [post m Q s]: when [m] returns from [s], it does so with [Q].  [keeps f m]:
    whatever happens, [m] leaves the part [f] of the state as it was. *)
Definition post {S A} (m : prog S A) (Q : S -> A -> Prop) (s : S) : Prop :=
  match m s with (s', Ret a) => Q s' a | _ => True end.
Definition keeps {S A B} (f : S -> B) (m : prog S A) : Prop := forall s, f (fst (m s)) = f s.

Section post.
Context {S : Type}.

Lemma post_ret {A} (a : A) (Q : S -> A -> Prop) s : Q s a -> post (mret a) Q s.
Proof. done. Qed.
Lemma post_bind {A B} (m : prog S A) (k : A -> prog S B) Q s :
  post m (fun s' a => post (k a) Q s') s -> post (m ≫= k) Q s.
Proof. unfold post, mbind, prog_bind. destruct (m s) as [s' [a|e|f]]; done. Qed.
Lemma post_mono {A} (m : prog S A) (Q Q' : S -> A -> Prop) s :
  post m Q s -> (forall s' a, Q s' a -> Q' s' a) -> post m Q' s.
Proof. unfold post. destruct (m s) as [s' [a|e|f]]; auto. Qed.
Lemma post_keeps {A B} (f : S -> B) (m : prog S A) (Q : S -> A -> Prop) s :
  keeps f m -> (forall s' a, f s' = f s -> Q s' a) -> post m Q s.
Proof.
  intros Hk HQ. specialize (Hk s). unfold post. destruct (m s) as [s' [a|e|g]]; cbn in Hk; auto.
Qed.
Lemma post_of_out {A} (o : out A) (Q : S -> A -> Prop) s : (forall a, o = Ret a -> Q s a) -> post (of_out o) Q s.
Proof. unfold post, of_out. destruct o; auto. Qed.
Lemma post_assert c (Q : S -> unit -> Prop) s : (c = true -> Q s tt) -> post (prog_assert c) Q s.
Proof. unfold post, prog_assert, out_assert. destruct c; auto. Qed.
(** A handler that never returns. *)
Lemma post_catch {A} e (m h : prog S A) Q s :
  post m Q s -> (forall s', post h (fun _ _ => False) s') -> post (try_catch e m h) Q s.
Proof.
  unfold post, try_catch. intros Hm Hh. destruct (m s) as [s' [a|e'|f]]; [done| |done].
  destruct (decide (e' = e)); [|done]. specialize (Hh s'). by destruct (h s') as [s'' [a|e''|f]].
Qed.
Lemma post_for_each {A} (f : A -> prog S unit) (I : list A -> S -> Prop) l s :
  I [] s ->
  (forall l1 x l2 s', l = l1 ++ x :: l2 -> I l1 s' -> post (f x) (fun s'' _ => I (l1 ++ [x]) s'') s') ->
  post (for_each f l) (fun s' _ => I l s') s.
Proof.
  intros H0 Hf. change l with ([] ++ l).
  assert (Hgen : forall l2 l1 s', l = l1 ++ l2 -> I l1 s' ->
    post (for_each f l2) (fun s' _ => I (l1 ++ l2) s') s').
  { induction l2 as [|x l2 IH]; intros l1 s' El HI; cbn [for_each].
    - apply post_ret. by rewrite app_nil_r.
    - apply post_bind. eapply post_mono; [by eapply Hf|].
      intros s'' u HI'. cbn beta in HI'. replace (l1 ++ x :: l2) with ((l1 ++ [x]) ++ l2) by (by rewrite <- app_assoc).
      apply IH; [|done]. by rewrite <- app_assoc. }
  by apply Hgen.
Qed.

Context {B : Type} (f : S -> B).
Lemma keeps_ret {A} (a : A) : keeps f (mret a).
Proof. done. Qed.
Lemma keeps_gets {A} (g : S -> A) : keeps f (gets g).
Proof. done. Qed.
Lemma keeps_of_out {A} (o : out A) : keeps f (of_out o).
Proof. done. Qed.
Lemma keeps_throw {A} e : keeps f (throw e : prog S A).
Proof. done. Qed.
Lemma keeps_assert c : keeps f (prog_assert c).
Proof. done. Qed.
Lemma keeps_modify g : (forall s, f (g s) = f s) -> keeps f (modify g).
Proof. done. Qed.
Lemma keeps_bind {A C} (m : prog S A) (k : A -> prog S C) :
  keeps f m -> (forall a, keeps f (k a)) -> keeps f (m ≫= k).
Proof.
  intros Hm Hk s. specialize (Hm s). unfold mbind, prog_bind. destruct (m s) as [s' [a|e|g]]; cbn in *; [|done..].
  by rewrite Hk.
Qed.
Lemma keeps_catch {A} e (m h : prog S A) : keeps f m -> keeps f h -> keeps f (try_catch e m h).
Proof.
  intros Hm Hh s. specialize (Hm s). unfold try_catch. destruct (m s) as [s' [a|e'|g]]; cbn in *; [done| |done].
  destruct (decide (e' = e)); [by rewrite Hh|done].
Qed.
Lemma keeps_for_each {A} (g : A -> prog S unit) l : (forall x, keeps f (g x)) -> keeps f (for_each g l).
Proof.
  intros Hg. induction l as [|x l IH]; cbn [for_each]; [apply keeps_ret|]. by apply keeps_bind.
Qed.
End post.
Create HintDb keeps.
#[export] Hint Resolve keeps_ret keeps_gets keeps_of_out keeps_throw keeps_assert keeps_bind keeps_catch
  keeps_for_each : keeps.

(** The same loop without state. *)
Fixpoint out_fold {A B} (f : B -> A -> out B) (b : B) (l : list A) : out B :=
  match l with
  | [] => Ret b
  | x :: l => f b x ≫= fun b' => out_fold f b' l
  end.
Fixpoint res_fold {A B} (f : B -> A -> res B) (b : B) (l : list A) : res B :=
  match l with
  | [] => Ok b
  | x :: l => f b x ≫= fun b' => res_fold f b' l
  end.

Lemma res_fold_cons {A B} (f : B -> A -> res B) b x l :
  res_fold f b (x :: l) = match f b x with Ok b' => res_fold f b' l | Err e => Err e end.
Proof. cbn. by destruct (f b x). Qed.
Lemma res_bind_ok {A B} (m : res A) (k : A -> res B) b :
  m ≫= k = Ok b <-> exists a, m = Ok a /\ k a = Ok b.
Proof.
  destruct m; cbn; split; try done.
  - eauto.
  - by intros (? & [= ->] & ?).
  - by intros (? & ? & ?).
Qed.
Lemma c_assert_ok c u : c_assert c = Ok u <-> c = true.
Proof. destruct c, u; cbn; split; by intros [=]. Qed.

(** A step invariant holds at the end of a loop that finishes. *)
Lemma res_fold_inv {A B} (f : B -> A -> res B) (P : B -> Prop) l :
  (forall b x b', x ∈ l -> P b -> f b x = Ok b' -> P b') ->
  forall b b', P b -> res_fold f b l = Ok b' -> P b'.
Proof.
  induction l as [|x l IH]; cbn; intros Hf b b' HP Hr; [congruence|].
  apply res_bind_ok in Hr as (b1 & H1 & H2).
  eapply IH; [|eapply Hf; [left|..]; eauto|done].
  intros. eapply Hf; [right|..]; eauto.
Qed.

(** ** Containers *)

(** The order of the keys of a [std::map<string, _>]. *)
Definition str_le (x y : string) : Prop := String.leb x y = true.
#[export] Instance str_le_dec x y : Decision (str_le x y).
Proof. unfold str_le. apply _. Defined.
#[export] Instance str_le_total : Total str_le.
Proof. intros x y. apply String.leb_total. Qed.

(** Traversal of a [std::set<string>]. *)
Definition set_list (s : gset string) : list string := merge_sort str_le (elements s).

Lemma set_list_perm s : set_list s ≡ₚ elements s.
Proof. apply merge_sort_Permutation. Qed.
Lemma elem_of_set_list x s : x ∈ set_list s <-> x ∈ s.
Proof. rewrite set_list_perm. by rewrite elem_of_elements. Qed.
Lemma NoDup_set_list s : NoDup (set_list s).
Proof. rewrite set_list_perm. apply NoDup_elements. Qed.
Lemma length_set_list s : length (set_list s) = size s.
Proof. by rewrite set_list_perm. Qed.

(** Traversal of a [std::map<string, V>]. *)
Definition map_list {V} (m : gmap string V) : list (string * V) :=
  omap (fun k => pair k <$> m !! k) (set_list (dom m)).

Lemma elem_of_map_list {V} (m : gmap string V) k v : (k, v) ∈ map_list m <-> m !! k = Some v.
Proof.
  unfold map_list. rewrite list_elem_of_omap. split.
  - intros (k' & _ & H). destruct (m !! k') eqn:E; simplify_option_eq; congruence.
  - intros H. exists k. rewrite elem_of_set_list, elem_of_dom, H. eauto.
Qed.

Lemma fst_map_list {V} (m : gmap string V) : fst <$> map_list m = set_list (dom m).
Proof.
  unfold map_list. assert (H : forall k, k ∈ set_list (dom m) -> is_Some (m !! k)).
  { intros k. by rewrite elem_of_set_list, elem_of_dom. }
  induction (set_list (dom m)) as [|k l IH]; [done|]. cbn.
  destruct (H k) as [v Hv]; [by left|]. rewrite Hv. cbn. f_equal. apply IH. intros; apply H; by right.
Qed.
Lemma NoDup_map_list {V} (m : gmap string V) : NoDup (map_list m).
Proof. apply (NoDup_fmap_1 fst). rewrite fst_map_list. apply NoDup_set_list. Qed.

(** The integers of a [stringstream]. *)
Definition show (n : Z) : string := pretty n.

(** No character of a printed number is [c], unless it is a digit or the sign. *)
Fixpoint str_free (c : ascii) (s : string) : bool :=
  match s with
  | EmptyString => true
  | String d s => negb (Ascii.eqb d c) && str_free c s
  end.

Lemma show_free c n :
  (forall x, Ascii.eqb (pretty_N_char x) c = false) -> Ascii.eqb "-" c = false ->
  str_free c (show n) = true.
Proof.
  intros Hd Hm.
  assert (Hgo : forall x s, str_free c s = true -> str_free c (pretty_N_go x s) = true).
  { intros x. induction (N.lt_wf_0 x) as [x _ IH]; intros s Hs.
    assert (x = 0 \/ 0 < x)%N as [->|?] by lia; [by rewrite pretty_N_go_0|].
    rewrite pretty_N_go_step by done. apply IH; [by apply N.div_lt|].
    cbn [str_free]. by rewrite Hd, Hs. }
  assert (HN : forall x : N, str_free c (pretty x) = true).
  { intros x. unfold pretty, pretty_N. case_decide; [|by apply Hgo].
    change "0" with (String (pretty_N_char 0) ""). cbn [str_free]. by rewrite Hd. }
  unfold show, pretty, pretty_Z. destruct n as [|p|p]; [apply (HN 0%N)|apply (HN (Npos p))|].
  change (negb (Ascii.eqb "-" c) && str_free c (pretty (Npos p)) = true). by rewrite Hm, HN.
Qed.

(** A separator that the suffixes do not contain splits uniquely. *)
Lemma app_sep_inj c (a b s t : string) :
  str_free c s = true -> str_free c t = true ->
  a +:+ String c s = b +:+ String c t -> a = b /\ s = t.
Proof.
  intros Hs Ht. revert b.
  assert (Hno : forall a s t, str_free c t = true -> t = a +:+ String c s -> False).
  { clear. intros a s. induction a as [|d a IH]; intros t Ht ->.
    - change (negb (Ascii.eqb c c) && str_free c s = true) in Ht. by rewrite Ascii.eqb_refl in Ht.
    - change (negb (Ascii.eqb d c) && str_free c (a +:+ String c s) = true) in Ht.
      apply andb_true_iff in Ht as [_ Ht]. by eapply IH. }
  induction a as [|d a IH]; intros [|e b] E.
  - by injection E.
  - injection E as -> E. exfalso. eapply Hno; [exact Hs|exact E].
  - injection E as -> E. exfalso. eapply Hno; [exact Ht|symmetry; exact E].
  - injection E as -> E. destruct (IH b E) as [-> ->]. done.
Qed.
Lemma show_inj m n : show m = show n -> m = n.
Proof. unfold show. apply pretty_Z_inj. Qed.

Section search.
Context {A : Type} (p : A -> bool).

(** The loop that stops at the first element with the property. *)
Definition find_first (l : list A) : option A := snd <$> list_find p l.

(** [list::erase] of the first element with the property. *)
Fixpoint erase_first (l : list A) : option (list A) :=
  match l with
  | [] => None
  | x :: l => if p x then Some l else cons x <$> erase_first l
  end.

Lemma find_first_cons x l : find_first (x :: l) = if p x then Some x else find_first l.
Proof.
  unfold find_first. cbn. destruct (decide (p x)) as [H|H], (p x) eqn:E; try done; try by destruct H.
  destruct (list_find p l) as [[i y]|]; done.
Qed.
Lemma find_first_Some l x : find_first l = Some x -> x ∈ l /\ p x = true.
Proof.
  induction l as [|y l IH]; [done|]. rewrite find_first_cons.
  destruct (p y) eqn:E; intros H.
  - simplify_eq. split; [left|done].
  - destruct (IH H). split; [by right|done].
Qed.
Lemma find_first_None l : find_first l = None <-> Forall (fun x => p x = false) l.
Proof.
  induction l as [|y l IH]; [done|]. rewrite find_first_cons, Forall_cons.
  destruct (p y); naive_solver.
Qed.
Lemma find_first_is_Some l x : x ∈ l -> p x = true -> exists y, find_first l = Some y.
Proof.
  intros Hx Hp. destruct (find_first l) eqn:E; [eauto|].
  apply find_first_None in E. rewrite Forall_forall in E. specialize (E x Hx). congruence.
Qed.

Lemma erase_first_Some l l' :
  erase_first l = Some l' ->
  exists l1 x l2, l = l1 ++ x :: l2 /\ l' = l1 ++ l2 /\ p x = true /\ Forall (fun y => p y = false) l1.
Proof.
  revert l'. induction l as [|y l IH]; cbn; intros l' H; [done|]. destruct (p y) eqn:E.
  - simplify_eq. by exists [], y, l'.
  - apply fmap_Some in H as (l0 & Hl & ->). destruct (IH _ Hl) as (l1 & x & l2 & -> & -> & ? & ?).
    exists (y :: l1), x, l2. repeat split; auto.
Qed.
Lemma erase_first_None l : erase_first l = None <-> Forall (fun x => p x = false) l.
Proof.
  induction l as [|y l IH]; cbn; [done|]. rewrite Forall_cons.
  destruct (p y); [naive_solver|]. rewrite fmap_None, IH. naive_solver.
Qed.
Lemma erase_first_is_Some l x : x ∈ l -> p x = true -> exists l', erase_first l = Some l'.
Proof.
  intros Hx Hp. destruct (erase_first l) eqn:E; [eauto|].
  apply erase_first_None in E. rewrite Forall_forall in E. specialize (E x Hx). congruence.
Qed.
End search.

Lemma filter_all_id {A} (P : A -> Prop) `{!forall x, Decision (P x)} (l : list A) :
  (forall x, x ∈ l -> P x) -> filter P l = l.
Proof.
  induction l as [|x l IH]; intros Hall; [done|].
  rewrite filter_cons_True by (apply Hall; left). f_equal.
  apply IH. intros. apply Hall. by right.
Qed.

(** A search by equality of a key, in a list without duplicate keys, removes
    exactly the elements with that key. *)
Lemma erase_first_filter {A B} `{EqDecision B} (key : A -> B) (k : B) l l' :
  NoDup (key <$> l) ->
  erase_first (fun x => bool_decide (key x = k)) l = Some l' ->
  l' = filter (fun x => key x <> k) l.
Proof.
  revert l'. induction l as [|y l IH]; intros l' Hnd He; [done|].
  rewrite fmap_cons, NoDup_cons in Hnd. destruct Hnd as [Hy Hnd]. cbn [erase_first] in He. revert He. destruct (bool_decide_reflect (key y = k)) as [Hk|Hk].
  - intros [= <-]. rewrite filter_cons_False by (intros H; by apply H).
    symmetry. apply filter_all_id. intros x Hx Hxk.
    apply Hy. rewrite Hk, <- Hxk. by apply list_elem_of_fmap_2.
  - intros (l0 & Hl & ->)%fmap_Some. rewrite filter_cons_True by done.
    f_equal. by apply IH.
Qed.
