(* ===== verification/Keyed.v ===== *)
(** * Lists searched by a key

    The containers of the orchestrator are lists whose [operator==] compares
    a key (an identifier, or all the fields but some).  [KeyEq eqb key] says so
    of a comparison; the lemmas give what loops of additions and of removals
    compute. *)

From Stdlib Require Import ZArith Lia.
From stdpp Require Import base list.
From S2P Require Import Prelude Cpp.

Class KeyEq {A K : Type} `{EqDecision K} (eqb : A -> A -> bool) (key : A -> K) : Prop :=
  key_eqb x y : eqb x y = bool_decide (key x = key y).

Section filters.
Context {A : Type}.

Lemma filter_iff_in (P Q : A -> Prop) `{!forall x, Decision (P x), !forall x, Decision (Q x)} (l : list A) :
  (forall x, x ∈ l -> P x <-> Q x) -> filter P l = filter Q l.
Proof.
  induction l as [|x l IH]; intros HPQ; [done|]. rewrite !filter_cons.
  assert (P x <-> Q x) by (apply HPQ; left).
  rewrite IH by (intros; apply HPQ; by right).
  destruct (decide (P x)), (decide (Q x)); tauto.
Qed.
Lemma filter_none (P : A -> Prop) `{!forall x, Decision (P x)} (l : list A) :
  (forall x, x ∈ l -> ~ P x) -> filter P l = [].
Proof.
  induction l as [|x l IH]; intros HP; [done|]. rewrite filter_cons_False by (apply HP; left).
  apply IH. intros. apply HP. by right.
Qed.
End filters.

Section keyed.
Context {A K : Type} `{EqDecision K} (eqb : A -> A -> bool) (key : A -> K) `{!KeyEq eqb key}.
Implicit Types (l : list A) (x y : A).

Definition keys l : list K := key <$> l.

Lemma keys_app l l' : keys (l ++ l') = keys l ++ keys l'.
Proof. apply fmap_app. Qed.
Lemma elem_of_keys x l : x ∈ l -> key x ∈ keys l.
Proof. apply list_elem_of_fmap_2. Qed.

Lemma keys_cons x l : keys (x :: l) = key x :: keys l.
Proof. done. Qed.
Lemma NoDup_keys_cons x l : NoDup (keys (x :: l)) -> (key x ∉ keys l) /\ NoDup (keys l).
Proof. rewrite keys_cons. by intros [? ?]%NoDup_cons. Qed.

Lemma existsb_key x l :
  existsb (fun y => eqb y x) l = bool_decide (key x ∈ keys l).
Proof using Type*.
  induction l as [|y l IH]; cbn; [done|]. rewrite IH, (key_eqb (eqb:=eqb)).
  rewrite (bool_decide_ext (key x ∈ keys (y :: l)) (key y = key x \/ key x ∈ keys l))
    by (unfold keys; rewrite fmap_cons, elem_of_cons; intuition).
  by rewrite bool_decide_or.
Qed.
Lemma existsb_key_sym x l :
  existsb (fun y => eqb x y) l = bool_decide (key x ∈ keys l).
Proof using Type*.
  rewrite <- existsb_key. induction l as [|y l IH]; cbn; [done|]. f_equal; [|done].
  rewrite !(key_eqb (eqb:=eqb)). by apply bool_decide_ext.
Qed.

Lemma NoDup_keys_filter (P : A -> Prop) `{!forall x, Decision (P x)} l :
  NoDup (keys l) -> NoDup (keys (filter P l)).
Proof. intros Hnd. eapply sublist_NoDup; [exact Hnd|]. apply fmap_sublist, sublist_filter. Qed.

Lemma find_first_key x l :
  NoDup (keys l) -> x ∈ l -> find_first (fun y => bool_decide (key y = key x)) l = Some x.
Proof.
  induction l as [|y l IH]; intros Hnd Hx; [by apply elem_of_nil in Hx|].
  apply NoDup_keys_cons in Hnd as [Hy Hnd]. rewrite find_first_cons.
  apply elem_of_cons in Hx as [->|Hx]; [by rewrite bool_decide_eq_true_2|].
  rewrite bool_decide_eq_false_2; [by apply IH|].
  intros E. apply Hy. rewrite E. by apply elem_of_keys.
Qed.

Lemma keys_filter (P : A -> Prop) (Q : K -> Prop)
    `{!forall x, Decision (P x), !forall k, Decision (Q k)} l :
  (forall x, x ∈ l -> P x <-> Q (key x)) -> keys (filter P l) = filter Q (keys l).
Proof.
  induction l as [|x l IH]; intros HPQ; [done|]. rewrite keys_cons, !filter_cons.
  assert (P x <-> Q (key x)) by (apply HPQ; left).
  assert (keys (filter P l) = filter Q (keys l)) as IHl by (apply IH; intros; apply HPQ; by right).
  destruct (decide (P x)), (decide (Q (key x))); try tauto. by rewrite keys_cons, IHl.
Qed.
Lemma keys_inj x y l : NoDup (keys l) -> x ∈ l -> y ∈ l -> key x = key y -> x = y.
Proof.
  intros Hnd Hx Hy E. pose proof (find_first_key x l Hnd Hx) as H1.
  rewrite E, (find_first_key y l Hnd Hy) in H1. congruence.
Qed.

(** *** Additions *)
Definition kadd l x : list A := if existsb (fun y => eqb y x) l then l else l ++ [x].

Lemma foldl_kadd l l2 :
  NoDup (keys l2) -> foldl kadd l l2 = l ++ filter (fun x => key x ∉ keys l) l2.
Proof using Type*.
  revert l. induction l2 as [|x l2 IH]; intros l Hnd; cbn [foldl].
  - by rewrite filter_nil, app_nil_r.
  - apply NoDup_keys_cons in Hnd as [Hx Hnd].
    unfold kadd at 2. rewrite existsb_key. case_bool_decide as Hin.
    + rewrite filter_cons_False by auto. by apply IH.
    + rewrite filter_cons_True by done. rewrite IH by done. rewrite <- app_assoc. f_equal.
      cbn. f_equal. apply filter_iff_in. intros y Hy. rewrite keys_app, elem_of_app.
      cbn. rewrite list_elem_of_singleton. split; [naive_solver|].
      intros H1 [?|Heq]; [done|]. apply Hx. rewrite <- Heq. by apply elem_of_keys.
Qed.

(** *** Removals *)
Definition kremove l x : res (list A) :=
  match erase_first (fun y => eqb y x) l with Some l' => Ok l' | None => Err Assert end.

Lemma kremove_ok l x :
  NoDup (keys l) -> key x ∈ keys l -> kremove l x = Ok (filter (fun y => key y <> key x) l).
Proof using Type*.
  intros Hnd Hin. unfold kremove.
  destruct (erase_first _ l) as [l'|] eqn:E.
  - f_equal. apply erase_first_filter; [done|]. rewrite <- E.
    clear -KeyEq0. induction l as [|y l IH]; cbn; [done|]. rewrite (key_eqb (eqb:=eqb)). by destruct (bool_decide _); rewrite ?IH.
  - apply erase_first_None in E. apply list_elem_of_fmap in Hin as (y & Hk & Hy).
    rewrite Forall_forall in E. specialize (E y Hy). rewrite (key_eqb (eqb:=eqb)) in E.
    by rewrite bool_decide_eq_true_2 in E.
Qed.

Lemma kremoves_ok l l2 :
  NoDup (keys l) -> NoDup (keys l2) -> keys l2 ⊆ keys l ->
  res_fold kremove l l2 = Ok (filter (fun x => key x ∉ keys l2) l).
Proof using Type*.
  revert l. induction l2 as [|x l2 IH]; intros l Hl Hl2 Hsub; cbn [res_fold].
  - f_equal. symmetry. apply filter_all_id. intros y _ H. by apply elem_of_nil in H.
  - apply NoDup_keys_cons in Hl2 as [Hx Hl2].
    rewrite kremove_ok by (try done; apply Hsub; unfold keys; rewrite fmap_cons; left).
    cbn [mbind res_bind]. rewrite IH.
    + f_equal. rewrite list_filter_filter. apply list_filter_iff. intros y.
      unfold keys. rewrite fmap_cons, not_elem_of_cons. tauto.
    + by apply NoDup_keys_filter.
    + done.
    + intros k Hk. assert (k ∈ keys l) as (y & -> & Hy)%list_elem_of_fmap
        by (apply Hsub; unfold keys; rewrite fmap_cons; by right).
      apply elem_of_keys, list_elem_of_filter. split; [|done]. intros E. apply Hx. by rewrite <- E.
Qed.
End keyed.
