(* ===== verification/FlowMatch.v ===== *)
(** * The match of a flow rule (node_resource_manager/graph/match.cc)

    [graph::Match] holds the header fields a rule matches on; the high-level
    and the low-level match both extend it.  A [char*] field is [NULL] or a
    string; a number with its [is...] flag is an optional number; the VLAN and
    transport fields, whose flags the code mixes, are kept apart.  The calls
    that [lowlevel::Match::fillFlowmodMessage] makes on rofl's flow-mod message
    are values of [oxm]. *)

From Stdlib Require Import ZArith Lia String Ascii.
From stdpp Require Import base list gmap strings numbers.
From S2P Require Import Prelude CString Cpp.

Inductive cfield :=
| eth_src | eth_src_mask | eth_dst | eth_dst_mask
| ipv4_src | ipv4_src_mask | ipv4_dst | ipv4_dst_mask
| arp_spa | arp_spa_mask | arp_tpa | arp_tpa_mask | arp_sha | arp_tha
| ipv6_src | ipv6_src_mask | ipv6_dst | ipv6_dst_mask
| ipv6_nd_target | ipv6_nd_sll | ipv6_nd_tll | gre_key.

Inductive nfield :=
| ethType | vlanPCP | ipDSCP | ipECN | ipProto | icmpv4Type | icmpv4Code
| arpOpcode | ipv6_flabel | icmpv6Type | icmpv6Code | mplsLabel | mplsTC.

#[export] Instance cfield_eq_dec : EqDecision cfield.
Proof. solve_decision. Defined.
#[export] Instance nfield_eq_dec : EqDecision nfield.
Proof. solve_decision. Defined.

Record Match := {
  str_of : cfield -> option string;
  num_of : nfield -> option Z;
  isVlanID : bool;
  vlanID : Z;
  isNoVlan : bool;
  isAnyVlan : bool;
  isEndpointVlanID : bool;
  isTcpProtocol : bool;
  isUdpProtocol : bool;
  isSctpProtocol : bool;
  transport_src_port : Z;
  transport_dst_port : Z
}.

(** The constructor; [vlanID] is not initialised, and not read before it is set. *)
Definition Match_new : Match :=
  {| str_of := fun _ => None; num_of := fun _ => None;
     isVlanID := false; vlanID := 0; isNoVlan := false; isAnyVlan := false;
     isEndpointVlanID := false;
     isTcpProtocol := false; isUdpProtocol := false; isSctpProtocol := false;
     transport_src_port := 0; transport_dst_port := 0 |}.

(** ** Setters *)

(** [malloc] and [strcpy] of the argument: it must not be [NULL]. *)
Definition set_str (f : cfield) (s : option string) (m : Match) : res Match :=
  match s with
  | None => Err Undef
  | Some s =>
      Ok {| str_of := fun g => if decide (g = f) then Some s else str_of m g;
            num_of := num_of m; isVlanID := isVlanID m; vlanID := vlanID m;
            isNoVlan := isNoVlan m; isAnyVlan := isAnyVlan m;
            isEndpointVlanID := isEndpointVlanID m;
            isTcpProtocol := isTcpProtocol m; isUdpProtocol := isUdpProtocol m;
            isSctpProtocol := isSctpProtocol m;
            transport_src_port := transport_src_port m;
            transport_dst_port := transport_dst_port m |}
  end.

(** The width of the parameter of each numeric setter. *)
Definition narrow (f : nfield) : Z -> Z :=
  match f with
  | ethType | arpOpcode => u16
  | ipv6_flabel | mplsLabel => u32
  | _ => u8
  end.

Definition set_num (f : nfield) (v : Z) (m : Match) : Match :=
  {| str_of := str_of m;
     num_of := fun g => if decide (g = f) then Some (narrow f v) else num_of m g;
     isVlanID := isVlanID m; vlanID := vlanID m;
     isNoVlan := isNoVlan m; isAnyVlan := isAnyVlan m;
     isEndpointVlanID := isEndpointVlanID m;
     isTcpProtocol := isTcpProtocol m; isUdpProtocol := isUdpProtocol m;
     isSctpProtocol := isSctpProtocol m;
     transport_src_port := transport_src_port m;
     transport_dst_port := transport_dst_port m |}.

Definition set_vlan (isid : bool) (id : Z) (isno isany isep : bool) (m : Match) : Match :=
  {| str_of := str_of m; num_of := num_of m;
     isVlanID := isid; vlanID := id; isNoVlan := isno; isAnyVlan := isany;
     isEndpointVlanID := isep;
     isTcpProtocol := isTcpProtocol m; isUdpProtocol := isUdpProtocol m;
     isSctpProtocol := isSctpProtocol m;
     transport_src_port := transport_src_port m;
     transport_dst_port := transport_dst_port m |}.

Definition set_transport (tcp udp sctp : bool) (src dst : Z) (m : Match) : Match :=
  {| str_of := str_of m; num_of := num_of m;
     isVlanID := isVlanID m; vlanID := vlanID m;
     isNoVlan := isNoVlan m; isAnyVlan := isAnyVlan m;
     isEndpointVlanID := isEndpointVlanID m;
     isTcpProtocol := tcp; isUdpProtocol := udp; isSctpProtocol := sctp;
     transport_src_port := src; transport_dst_port := dst |}.

Definition setVlanID (id : Z) (m : Match) : Match :=
  set_vlan true (u16 id) (isNoVlan m) (isAnyVlan m) (isEndpointVlanID m) m.
Definition setVlanIDNoVlan (m : Match) : Match :=
  set_vlan false (vlanID m) true false (isEndpointVlanID m) m.
Definition setVlanIDAnyVlan (m : Match) : Match :=
  set_vlan false (vlanID m) false true (isEndpointVlanID m) m.
Definition setEndpointVlanID (id : Z) (m : Match) : Match :=
  set_vlan (isVlanID m) (u16 id) (isNoVlan m) (isAnyVlan m) true m.

Definition setIpProto (p : Z) (m : Match) : Match :=
  let m := set_num ipProto p m in
  let src := transport_src_port m in
  let dst := transport_dst_port m in
  if u8 p =? 6 then set_transport true (isUdpProtocol m) (isSctpProtocol m) src dst m
  else if u8 p =? 17 then set_transport (isTcpProtocol m) true (isSctpProtocol m) src dst m
  else if u8 p =? 132 then set_transport (isTcpProtocol m) (isUdpProtocol m) true src dst m
  else m.
Definition setTransportSrcPort (p : Z) (m : Match) : Match :=
  set_transport (isTcpProtocol m) (isUdpProtocol m) (isSctpProtocol m)
    (u16 p) (transport_dst_port m) m.
Definition setTransportDstPort (p : Z) (m : Match) : Match :=
  set_transport (isTcpProtocol m) (isUdpProtocol m) (isSctpProtocol m)
    (transport_src_port m) (u16 p) m.

(** ** Comparison *)

Definition all_cfields : list cfield :=
  [eth_src; eth_src_mask; eth_dst; eth_dst_mask;
   ipv4_src; ipv4_src_mask; ipv4_dst; ipv4_dst_mask;
   arp_spa; arp_spa_mask; arp_tpa; arp_tpa_mask; arp_sha; arp_tha;
   ipv6_src; ipv6_src_mask; ipv6_dst; ipv6_dst_mask;
   ipv6_nd_target; ipv6_nd_sll; ipv6_nd_tll; gre_key].
Definition all_nfields : list nfield :=
  [ethType; vlanPCP; ipDSCP; ipECN; ipProto; icmpv4Type; icmpv4Code;
   arpOpcode; ipv6_flabel; icmpv6Type; icmpv6Code; mplsLabel; mplsTC].

Lemma all_cfields_complete f : f ∈ all_cfields.
Proof. destruct f; vm_compute; repeat constructor. Qed.
Lemma all_nfields_complete f : f ∈ all_nfields.
Proof. destruct f; vm_compute; repeat constructor. Qed.

(** The ports count only under a transport protocol. *)
Definition ports_equal (m o : Match) : bool :=
  (transport_src_port m =? transport_src_port o) && (transport_dst_port m =? transport_dst_port o).

Definition isEqual (m o : Match) : bool :=
  forallb (fun f => bool_decide (str_of m f = str_of o f)) all_cfields
  && forallb (fun f => bool_decide (num_of m f = num_of o f)) all_nfields
  && eqb (isVlanID m) (isVlanID o)
  && (negb (isVlanID m) || (vlanID m =? vlanID o))
  && eqb (isNoVlan m) (isNoVlan o)
  && eqb (isAnyVlan m) (isAnyVlan o)
  && eqb (isTcpProtocol m) (isTcpProtocol o)
  && (negb (isTcpProtocol m) || ports_equal m o)
  && eqb (isUdpProtocol m) (isUdpProtocol o)
  && (negb (isUdpProtocol m) || ports_equal m o)
  && eqb (isSctpProtocol m) (isSctpProtocol o)
  && (negb (isSctpProtocol m) || ports_equal m o).

(** ** Copy *)

Definition copy_str (from : Match) (f : cfield) (m : Match) : res Match :=
  match str_of from f with Some s => set_str f (Some s) m | None => Ok m end.
Definition copy_num (from : Match) (f : nfield) (m : Match) : Match :=
  match num_of from f with Some v => set_num f v m | None => m end.

Definition copy_vlan (from m : Match) : Match :=
  if isVlanID from || isEndpointVlanID from then setVlanID (vlanID from) m
  else if isAnyVlan from then setVlanIDAnyVlan m
  else if isNoVlan from then setVlanIDNoVlan m
  else m.

Definition copy_transport (from m : Match) : Match :=
  if isTcpProtocol from || isUdpProtocol from || isSctpProtocol from
  then setTransportDstPort (transport_dst_port from)
         (setTransportSrcPort (transport_src_port from) m)
  else m.

Definition setAllCommonFields (from m : Match) : res Match :=
  m ← res_fold (fun m f => copy_str from f m) m [eth_src; eth_src_mask; eth_dst; eth_dst_mask];
  let m := copy_num from ethType m in
  let m := copy_vlan from m in
  let m := copy_num from vlanPCP m in
  let m := copy_num from ipDSCP m in
  let m := copy_num from ipECN m in
  let m := match num_of from ipProto with Some p => setIpProto p m | None => m end in
  m ← res_fold (fun m f => copy_str from f m) m
        [ipv4_src; ipv4_src_mask; ipv4_dst; ipv4_dst_mask];
  let m := copy_transport from m in
  let m := copy_num from icmpv4Type m in
  let m := copy_num from icmpv4Code m in
  let m := copy_num from arpOpcode m in
  m ← res_fold (fun m f => copy_str from f m) m
        [arp_spa; arp_spa_mask; arp_tpa; arp_tpa_mask; arp_sha; arp_tha;
         ipv6_src; ipv6_src_mask; ipv6_dst; ipv6_dst_mask];
  let m := copy_num from ipv6_flabel m in
  m ← res_fold (fun m f => copy_str from f m) m [ipv6_nd_target; ipv6_nd_sll; ipv6_nd_tll];
  let m := copy_num from icmpv6Type m in
  let m := copy_num from icmpv6Code m in
  let m := copy_num from mplsLabel m in
  let m := copy_num from mplsTC m in
  m ← copy_str from gre_key m;
  (* the last test is on ipv6_dst, and the call is on gre_key *)
  match str_of from ipv6_dst with
  | Some _ => set_str gre_key (str_of from gre_key) m
  | None => Ok m
  end.

(** *** The copy, field by field

    [put_str] is [copy_str] without the fault it never has. *)
Definition put_str (from : Match) (m : Match) (f : cfield) : Match :=
  match str_of from f with
  | Some s => match set_str f (Some s) m with Ok m' => m' | Err _ => m end
  | None => m
  end.

Lemma copy_str_ok from f m : copy_str from f m = Ok (put_str from m f).
Proof. unfold copy_str, put_str. by destruct (str_of from f). Qed.
Lemma copy_strs_ok from l m :
  res_fold (fun m f => copy_str from f m) m l = Ok (foldl (put_str from) m l).
Proof. revert m. induction l as [|f l IH]; intros m; cbn; [done|]. rewrite copy_str_ok. apply IH. Qed.

Section projections.
Context (from : Match).

Lemma str_of_put_str m f g :
  str_of (put_str from m f) g =
  if decide (g = f) then match str_of from f with Some s => Some s | None => str_of m g end
  else str_of m g.
Proof. unfold put_str. destruct (str_of from f); cbn; by destruct (decide _). Qed.
Lemma num_of_put_str m f : num_of (put_str from m f) = num_of m.
Proof. unfold put_str. by destruct (str_of from f). Qed.
Lemma num_of_copy_num m f g :
  num_of (copy_num from f m) g =
  if decide (g = f)
  then match num_of from f with Some v => Some (narrow f v) | None => num_of m g end
  else num_of m g.
Proof. unfold copy_num. destruct (num_of from f); cbn; by destruct (decide _). Qed.
Lemma str_of_copy_num m f : str_of (copy_num from f m) = str_of m.
Proof. unfold copy_num. by destruct (num_of from f). Qed.
Lemma str_of_setIpProto p m : str_of (setIpProto p m) = str_of m.
Proof. unfold setIpProto. by repeat case_match. Qed.
Lemma num_of_setIpProto p m : num_of (setIpProto p m) = num_of (set_num ipProto p m).
Proof. unfold setIpProto. by repeat case_match. Qed.
Lemma str_of_copy_vlan m : str_of (copy_vlan from m) = str_of m.
Proof. unfold copy_vlan. by repeat case_match. Qed.
Lemma num_of_copy_vlan m : num_of (copy_vlan from m) = num_of m.
Proof. unfold copy_vlan. by repeat case_match. Qed.
Lemma str_of_copy_transport m : str_of (copy_transport from m) = str_of m.
Proof. unfold copy_transport. by repeat case_match. Qed.
Lemma num_of_copy_transport m : num_of (copy_transport from m) = num_of m.
Proof. unfold copy_transport. by repeat case_match. Qed.

(** The VLAN and transport fields as one value each. *)
Definition vlan_part (m : Match) :=
  (isVlanID m, vlanID m, isNoVlan m, isAnyVlan m, isEndpointVlanID m).
Definition trans_part (m : Match) :=
  (isTcpProtocol m, isUdpProtocol m, isSctpProtocol m, transport_src_port m, transport_dst_port m).

Lemma vlan_put_str m f : vlan_part (put_str from m f) = vlan_part m.
Proof. unfold put_str. by destruct (str_of from f). Qed.
Lemma trans_put_str m f : trans_part (put_str from m f) = trans_part m.
Proof. unfold put_str. by destruct (str_of from f). Qed.
Lemma vlan_copy_num m f : vlan_part (copy_num from f m) = vlan_part m.
Proof. unfold copy_num. by destruct (num_of from f). Qed.
Lemma trans_copy_num m f : trans_part (copy_num from f m) = trans_part m.
Proof. unfold copy_num. by destruct (num_of from f). Qed.
Lemma vlan_setIpProto p m : vlan_part (setIpProto p m) = vlan_part m.
Proof. unfold setIpProto. by repeat case_match. Qed.
Lemma vlan_copy_transport m : vlan_part (copy_transport from m) = vlan_part m.
Proof. unfold copy_transport. by repeat case_match. Qed.
Lemma trans_copy_vlan m : trans_part (copy_vlan from m) = trans_part m.
Proof. unfold copy_vlan. by repeat case_match. Qed.
End projections.

Create Rewrite HintDb fmatch.
#[export] Hint Rewrite num_of_put_str str_of_copy_num str_of_setIpProto num_of_setIpProto
  str_of_copy_vlan num_of_copy_vlan str_of_copy_transport num_of_copy_transport
  vlan_put_str trans_put_str vlan_copy_num trans_copy_num vlan_setIpProto
  vlan_copy_transport trans_copy_vlan : fmatch.

(** ** The flow-mod message

    The calls on [message.set_match()] made for the common fields.  [OStr f v mask] is
    [set_<f>(v)] or [set_<f>(v, mask)]; [ONum f v] is [set_<f>(v)]. *)
Inductive oxm :=
| OStr (f : cfield) (v : string) (mask : option string)
| ONum (f : nfield) (v : Z)
| OVlanVid (v : Z) | OVlanPresent | OVlanUntagged
| OTcpSrc (p : Z) | OTcpDst (p : Z) | OUdpSrc (p : Z) | OUdpDst (p : Z)
| OSctpSrc (p : Z) | OSctpDst (p : Z)
| OTunnelId (k : Z).

#[export] Instance oxm_eq_dec : EqDecision oxm.
Proof. solve_decision. Defined.

(** [sscanf] with %x and %u into an [unsigned int]: white space, a sign, (for
    %x) a 0x prefix, then the longest run of digits. *)
Definition hex_digit (c : ascii) : option Z :=
  let n := code c in
  if (48 <=? n) && (n <=? 57) then Some (n - 48)
  else if (65 <=? n) && (n <=? 70) then Some (n - 55)
  else if (97 <=? n) && (n <=? 102) then Some (n - 87)
  else None.
Definition scan_sign (s : str) : bool * str :=
  match s with
  | "-"%char :: s => (true, s)
  | "+"%char :: s => (false, s)
  | s => (false, s)
  end.
Definition scan_digits (base : Z) (digit : ascii -> option Z) (s : str) : option Z :=
  match span (fun c => bool_decide (is_Some (digit c))) s with
  | ([], _) => None
  | (ds, _) =>
      Some (Z.min 18446744073709551615
              (foldl (fun acc c => base * acc + default 0 (digit c)) 0 ds))
  end.
Definition dec_digit (c : ascii) : option Z := if isdigit c then Some (code c - 48) else None.
Definition sscanf_u (s : string) : option Z :=
  let '(neg, s) := scan_sign (snd (span isspace (txt s))) in
  (fun v => u32 (if neg then - v else v)) <$> scan_digits 10 dec_digit s.
Definition sscanf_x (s : string) : option Z :=
  let '(neg, s) := scan_sign (snd (span isspace (txt s))) in
  let s' := match s with
            | "0"%char :: c :: s' =>
                if Ascii.eqb c "x" || Ascii.eqb c "X" then s' else s
            | _ => s
            end in
  (fun v => u32 (if neg then - v else v)) <$> scan_digits 16 hex_digit s'.

Section fill.
Context (m : Match).

Definition put_addr (f : cfield) (mask : option cfield) : list oxm :=
  match str_of m f with
  | Some v => [OStr f v (mask ≫= str_of m)]
  | None => []
  end.
Definition put_field (f : nfield) : list oxm :=
  match num_of m f with Some v => [ONum f v] | None => [] end.
Definition put_port (proto : bool) (port : Z) (k : Z -> oxm) : list oxm :=
  if proto && negb (port =? 0) then [k port] else [].

Definition put_vlan : list oxm :=
  if isVlanID m || isEndpointVlanID m then [OVlanVid (Z.lor (vlanID m) 4096)]
  else if isAnyVlan m then [OVlanPresent]
  else if isNoVlan m then [OVlanUntagged]
  else [].

(** The code of ICMPv6 is sent as the flag [isIcmpv6Code], that is as 1. *)
Definition put_icmpv6_code : list oxm :=
  match num_of m icmpv6Code with Some _ => [ONum icmpv6Code 1] | None => [] end.

Definition put_gre_key : list oxm :=
  match str_of m gre_key with
  | Some k =>
      [OTunnelId (match sscanf_x k with Some v => v | None => default 0 (sscanf_u k) end)]
  | None => []
  end.

Definition match_fields : list oxm :=
  put_addr eth_src (Some eth_src_mask) ++ put_addr eth_dst (Some eth_dst_mask)
  ++ put_field ethType ++ put_vlan ++ put_field vlanPCP
  ++ put_field ipDSCP ++ put_field ipECN ++ put_field ipProto
  ++ put_addr ipv4_src (Some ipv4_src_mask) ++ put_addr ipv4_dst (Some ipv4_dst_mask)
  ++ put_port (isTcpProtocol m) (transport_src_port m) OTcpSrc
  ++ put_port (isTcpProtocol m) (transport_dst_port m) OTcpDst
  ++ put_port (isUdpProtocol m) (transport_src_port m) OUdpSrc
  ++ put_port (isUdpProtocol m) (transport_dst_port m) OUdpDst
  ++ put_port (isSctpProtocol m) (transport_src_port m) OSctpSrc
  ++ put_port (isSctpProtocol m) (transport_dst_port m) OSctpDst
  ++ put_field icmpv4Type ++ put_field icmpv4Code ++ put_field arpOpcode
  ++ put_addr arp_spa (Some arp_spa_mask) ++ put_addr arp_tpa (Some arp_tpa_mask)
  ++ put_addr arp_sha None ++ put_addr arp_tha None
  ++ put_addr ipv6_src (Some ipv6_src_mask) ++ put_addr ipv6_dst (Some ipv6_dst_mask)
  ++ put_field ipv6_flabel ++ put_field icmpv6Type ++ put_icmpv6_code
  ++ put_addr ipv6_nd_target None ++ put_addr ipv6_nd_sll None ++ put_addr ipv6_nd_tll None
  ++ put_field mplsLabel ++ put_field mplsTC ++ put_gre_key.
End fill.

(** ** Properties *)

(** The matches the parser builds: numbers fit their fields, the transport
    flags are those [setIpProto] sets, the ports fit. *)
Record match_wf (m : Match) : Prop := {
  wf_num f v : num_of m f = Some v -> narrow f v = v;
  wf_vlan : is_u16 (vlanID m);
  wf_tcp : isTcpProtocol m = bool_decide (num_of m ipProto = Some 6);
  wf_udp : isUdpProtocol m = bool_decide (num_of m ipProto = Some 17);
  wf_sctp : isSctpProtocol m = bool_decide (num_of m ipProto = Some 132);
  wf_src : is_u16 (transport_src_port m);
  wf_dst : is_u16 (transport_dst_port m)
}.

(** The copy of [from] on a fresh match, when it does not fault. *)
Definition common_of (from : Match) : Match :=
  let m := foldl (put_str from) Match_new [eth_src; eth_src_mask; eth_dst; eth_dst_mask] in
  let m := copy_num from ethType m in
  let m := copy_vlan from m in
  let m := copy_num from vlanPCP m in
  let m := copy_num from ipDSCP m in
  let m := copy_num from ipECN m in
  let m := match num_of from ipProto with Some p => setIpProto p m | None => m end in
  let m := foldl (put_str from) m [ipv4_src; ipv4_src_mask; ipv4_dst; ipv4_dst_mask] in
  let m := copy_transport from m in
  let m := copy_num from icmpv4Type m in
  let m := copy_num from icmpv4Code m in
  let m := copy_num from arpOpcode m in
  let m := foldl (put_str from) m
        [arp_spa; arp_spa_mask; arp_tpa; arp_tpa_mask; arp_sha; arp_tha;
         ipv6_src; ipv6_src_mask; ipv6_dst; ipv6_dst_mask] in
  let m := copy_num from ipv6_flabel m in
  let m := foldl (put_str from) m [ipv6_nd_target; ipv6_nd_sll; ipv6_nd_tll] in
  let m := copy_num from icmpv6Type m in
  let m := copy_num from icmpv6Code m in
  let m := copy_num from mplsLabel m in
  let m := copy_num from mplsTC m in
  put_str from m gre_key.

Lemma setAllCommonFields_run from :
  setAllCommonFields from Match_new =
  match str_of from ipv6_dst with
  | Some _ => set_str gre_key (str_of from gre_key) (common_of from)
  | None => Ok (common_of from)
  end.
Proof.
  unfold setAllCommonFields. repeat (rewrite copy_strs_ok; cbn [mbind res_bind]).
  rewrite copy_str_ok. done.
Qed.

(** One layer of the copy at a time. *)
Ltac peel_str :=
  first [ rewrite str_of_copy_num | rewrite str_of_copy_transport | rewrite str_of_copy_vlan
        | rewrite str_of_setIpProto
        | rewrite str_of_put_str; first [rewrite decide_False by done | rewrite decide_True by done] ].
Ltac peel_num :=
  first [ rewrite num_of_put_str | rewrite num_of_copy_transport | rewrite num_of_copy_vlan
        | rewrite num_of_setIpProto
        | rewrite num_of_copy_num; first [rewrite decide_False by done | rewrite decide_True by done] ].

Section common.
Context (from : Match).

Lemma common_str f : str_of (common_of from) f = str_of from f.
Proof.
  unfold common_of. cbn [foldl].
  destruct (num_of from ipProto); destruct f; repeat peel_str; by destruct (str_of from _).
Qed.
Lemma common_num f : num_of (common_of from) f = narrow f <$> num_of from f.
Proof.
  unfold common_of. cbn [foldl].
  destruct (num_of from ipProto) eqn:E; destruct f; repeat peel_num; cbn [num_of set_num];
    try (rewrite decide_False by done); repeat peel_num; rewrite ?E; cbn; try done;
    by destruct (num_of from _).
Qed.

(** The VLAN part of a copy onto a match without VLAN fields. *)
Lemma vlan_copy_vlan m :
  vlan_part m = (false, 0, false, false, false) ->
  vlan_part (copy_vlan from m) =
    if isVlanID from || isEndpointVlanID from then (true, u16 (vlanID from), false, false, false)
    else if isAnyVlan from then (false, 0, false, true, false)
    else if isNoVlan from then (false, 0, true, false, false)
    else (false, 0, false, false, false).
Proof.
  unfold vlan_part. intros E.
  destruct m; cbn in E; injection E as -> -> -> -> ->.
  unfold copy_vlan. by repeat case_match.
Qed.
Lemma common_vlan :
  vlan_part (common_of from) =
    if isVlanID from || isEndpointVlanID from then (true, u16 (vlanID from), false, false, false)
    else if isAnyVlan from then (false, 0, false, true, false)
    else if isNoVlan from then (false, 0, true, false, false)
    else (false, 0, false, false, false).
Proof.
  unfold common_of. cbn [foldl].
  destruct (num_of from ipProto); autorewrite with fmatch;
    rewrite vlan_copy_vlan; try done; by autorewrite with fmatch.
Qed.
Lemma common_put_vlan : is_u16 (vlanID from) -> put_vlan (common_of from) = put_vlan from.
Proof.
  intros Hu. pose proof common_vlan as H. unfold vlan_part in H. unfold put_vlan.
  destruct (common_of from); cbn in *. repeat case_match; simplify_eq/=; try done.
  by rewrite u16_id.
Qed.

Lemma trans_setIpProto p m :
  trans_part m = (false, false, false, 0, 0) ->
  trans_part (setIpProto p m) = (u8 p =? 6, u8 p =? 17, u8 p =? 132, 0, 0).
Proof.
  unfold trans_part. intros E. destruct m; cbn in E; injection E as -> -> -> -> ->.
  unfold setIpProto.
  destruct (Z.eqb_spec (u8 p) 6) as [E|E]; [by rewrite ?E|].
  destruct (Z.eqb_spec (u8 p) 17) as [E'|E']; [by rewrite ?E'|].
  by destruct (Z.eqb_spec (u8 p) 132).
Qed.
Lemma trans_copy_transport m t u s :
  trans_part m = (t, u, s, 0, 0) ->
  trans_part (copy_transport from m) =
    if isTcpProtocol from || isUdpProtocol from || isSctpProtocol from
    then (t, u, s, u16 (transport_src_port from), u16 (transport_dst_port from))
    else (t, u, s, 0, 0).
Proof.
  unfold trans_part. intros E. destruct m; cbn in E; injection E as -> -> -> -> ->.
  unfold copy_transport. by case_match.
Qed.
Lemma common_trans :
  match_wf from ->
  trans_part (common_of from) =
    (isTcpProtocol from, isUdpProtocol from, isSctpProtocol from,
     if isTcpProtocol from || isUdpProtocol from || isSctpProtocol from
     then transport_src_port from else 0,
     if isTcpProtocol from || isUdpProtocol from || isSctpProtocol from
     then transport_dst_port from else 0).
Proof.
  intros []. unfold common_of. cbn [foldl].
  destruct (num_of from ipProto) as [p|] eqn:E; autorewrite with fmatch.
  - specialize (wf_num0 _ _ E). cbn in wf_num0.
    erewrite trans_copy_transport
      by (autorewrite with fmatch; apply trans_setIpProto; by autorewrite with fmatch).
    rewrite wf_tcp0, wf_udp0, wf_sctp0, wf_num0, !u16_id by done.
    assert (Hb : forall n, bool_decide (Some p = Some n) = (p =? n))
      by (intros n; destruct (Z.eqb_spec p n) as [->|]; [by apply bool_decide_eq_true_2|by apply bool_decide_eq_false_2; intros [=]]).
    rewrite !Hb. by case_match.
  - erewrite trans_copy_transport by (by autorewrite with fmatch).
    rewrite wf_tcp0, wf_udp0, wf_sctp0. by rewrite !bool_decide_eq_false_2 by done.
Qed.
End common.

Lemma match_fields_ext m m' :
  (forall f, str_of m f = str_of m' f) -> (forall f, num_of m f = num_of m' f) ->
  put_vlan m = put_vlan m' ->
  isTcpProtocol m = isTcpProtocol m' -> isUdpProtocol m = isUdpProtocol m' ->
  isSctpProtocol m = isSctpProtocol m' ->
  (isTcpProtocol m || isUdpProtocol m || isSctpProtocol m = true ->
   transport_src_port m = transport_src_port m' /\ transport_dst_port m = transport_dst_port m') ->
  match_fields m = match_fields m'.
Proof.
  intros Hs Hn Hv Ht Hu Hc Hp. unfold match_fields.
  assert (Ha : forall f k, put_addr m f k = put_addr m' f k).
  { intros f [k|]; unfold put_addr; cbn; by rewrite ?Hs. }
  assert (Hf : forall f, put_field m f = put_field m' f) by (intros f; unfold put_field; by rewrite Hn).
  assert (Hg : put_gre_key m = put_gre_key m') by (unfold put_gre_key; by rewrite Hs).
  assert (Hi : put_icmpv6_code m = put_icmpv6_code m') by (unfold put_icmpv6_code; by rewrite Hn).
  rewrite !Ha, !Hf, Hg, Hi, Hv. unfold put_port. rewrite <- Ht, <- Hu, <- Hc.
  destruct (isTcpProtocol m), (isUdpProtocol m), (isSctpProtocol m); try done;
    destruct (Hp eq_refl) as [-> ->]; done.
Qed.

Lemma common_fields from : match_wf from -> match_fields (common_of from) = match_fields from.
Proof.
  intros Hwf. pose proof (common_trans from Hwf) as Ht. unfold trans_part in Ht.
  injection Ht as Ht Hu Hc Hs Hd. apply match_fields_ext; auto using common_str.
  - intros f. rewrite common_num. destruct (num_of from f) eqn:E; [|done]. cbn. f_equal.
    by apply (wf_num _ Hwf).
  - apply common_put_vlan, Hwf.
  - rewrite Ht, Hu, Hc, Hs, Hd. by intros ->.
Qed.

Lemma match_fields_set_str f s m m' :
  set_str f (Some s) m = Ok m' -> str_of m f = Some s -> match_fields m' = match_fields m.
Proof.
  intros [= <-] E. apply match_fields_ext; try done. cbn. intros g. by case_decide; subst.
Qed.

Lemma setAllCommonFields_ok from m' :
  match_wf from -> setAllCommonFields from Match_new = Ok m' -> match_fields m' = match_fields from.
Proof.
  intros Hwf. rewrite setAllCommonFields_run. rewrite <- (common_fields from Hwf).
  destruct (str_of from ipv6_dst); [|by intros [= <-]].
  destruct (str_of from gre_key) as [k|] eqn:E; [|done]. intros H.
  eapply match_fields_set_str; [done|]. by rewrite common_str.
Qed.

(** lowering a match copies its header fields onto the low-level match:
    whenever [setAllCommonFields] returns, the flow-mod written for the copy
    has the same match fields as the original, and it fails to return exactly
    for a match on an IPv6 destination without a GRE key, where it passes a
    null pointer to [strlen]. *)
Theorem setAllCommonFields_spec from :
  match_wf from ->
  match setAllCommonFields from Match_new with
  | Ok m' =>
      match_fields m' = match_fields from
      /\ (str_of from ipv6_dst = None \/ is_Some (str_of from gre_key))
  | Err f => f = Undef /\ is_Some (str_of from ipv6_dst) /\ str_of from gre_key = None
  end.
Proof.
  intros Hwf. destruct (setAllCommonFields from Match_new) eqn:E.
  - split; [by apply setAllCommonFields_ok|]. rewrite setAllCommonFields_run in E.
    destruct (str_of from ipv6_dst); [|by left]. destruct (str_of from gre_key); [by right|done].
  - rewrite setAllCommonFields_run in E.
    destruct (str_of from ipv6_dst); [|done]. by destruct (str_of from gre_key); simplify_eq/=.
Qed.

(** TCP traffic of VLAN 100 to port 80. *)
Definition sample_match : Match :=
  setTransportDstPort 80 (setIpProto 6 (setVlanID 100 (set_num ethType 2048 Match_new))).
Lemma sample_match_wf : match_wf sample_match.
Proof.
  split; [|by vm_compute..].
  intros [] v E; vm_compute in E; try discriminate E; injection E as <-; reflexivity.
Qed.

Lemma setAllCommonFields_spec_witness :
  match_fields sample_match <> []
  /\ match setAllCommonFields sample_match Match_new with
     | Ok m' => match_fields m' = match_fields sample_match
     | Err _ => False
     end.
Proof.
  split; [by vm_compute|]. pose proof (setAllCommonFields_spec sample_match sample_match_wf) as H.
  destruct (setAllCommonFields sample_match Match_new) eqn:E; [by destruct H|by vm_compute in E].
Defined.
