(* ===== verification/HighLevel.v ===== *)
(** * The high-level graph (node_resource_manager/graph/high_level_graph)

    A network-function forwarding graph as the client wrote it: rules that
    match on a port, a network function, an internal or a GRE endpoint and
    output to one; the endpoints and network functions it names; and the
    operations the graph manager updates it with.  Options that are off by
    default (UNIFY ports configuration and monitoring) are left out. *)

From Stdlib Require Import ZArith Lia String Ascii.
From stdpp Require Import base list gmap strings numbers.
From S2P Require Import Prelude CString Cpp FlowMatch.

(** [strcpy] into a buffer of [BUFFER_SIZE] characters, then [strtok] by ":". *)
Definition BUFFER_SIZE : Z := 20480.
Definition colon_tokens (s : string) : res (list string) :=
  if Z.of_nat (String.length s) <? BUFFER_SIZE
  then Ok (string_of_list_ascii <$> tokens (txt ":") (txt s))
  else Err Oob.

(** ** Generic actions (generic_actions/vlan_action.cc) *)
Inductive vlan_action_t :=
| ACTION_VLAN_PUSH | ACTION_ENDPOINT_VLAN_PUSH | ACTION_VLAN_POP | ACTION_ENDPOINT_VLAN_POP.
Record VlanAction := { va_type : vlan_action_t; va_endpoint : string; va_label : Z }.
#[export] Instance vlan_action_t_eq_dec : EqDecision vlan_action_t.
Proof. solve_decision. Defined.
#[export] Instance VlanAction_eq_dec : EqDecision VlanAction.
Proof. solve_decision. Defined.

(** ** Output actions *)
Inductive action_t :=
| INVALID | ACTION_ON_PORT | ACTION_ON_NETWORK_FUNCTION | ACTION_ON_ENDPOINT_GRE
| ACTION_ON_ENDPOINT_INTERNAL.
#[export] Instance action_t_eq_dec : EqDecision action_t.
Proof. solve_decision. Defined.

Inductive output_action :=
| ActionPort (portName endpointName : string)
| ActionNetworkFunction (nfId endpointPortName : string) (port : Z)
| ActionEndPointGre (endpointID endpointName : string)
| ActionEndPointInternal (group endpointName : string).

Record Action := { a_output : output_action; a_generic : list VlanAction }.

Definition a_type (a : Action) : action_t :=
  match a_output a with
  | ActionPort _ _ => ACTION_ON_PORT
  | ActionNetworkFunction _ _ _ => ACTION_ON_NETWORK_FUNCTION
  | ActionEndPointGre _ _ => ACTION_ON_ENDPOINT_GRE
  | ActionEndPointInternal _ _ => ACTION_ON_ENDPOINT_INTERNAL
  end.

Definition a_getInfo (a : Action) : res string :=
  match a_output a with
  | ActionPort portName _ => Ok portName
  | ActionNetworkFunction nfId _ _ => Ok nfId
  | ActionEndPointGre _ endpointName => (fun t => default "" (t !! 0%nat)) <$> colon_tokens endpointName
  | ActionEndPointInternal group _ => Ok group
  end.

Definition a_toString (a : Action) : string :=
  match a_output a with
  | ActionPort portName _ => portName
  | ActionNetworkFunction nfId _ port => nfId +:+ ":" +:+ show port
  | ActionEndPointGre endpointID _ => endpointID
  | ActionEndPointInternal group _ => group
  end.

Definition addGenericAction (ga : VlanAction) (a : Action) : Action :=
  {| a_output := a_output a; a_generic := a_generic a ++ [ga] |}.

(** ** Matches (high_level_match.cc) *)
Inductive match_t :=
| MATCH_GENERIC | MATCH_PORT | MATCH_NF | MATCH_ENDPOINT_INTERNAL | MATCH_ENDPOINT_GRE.
#[export] Instance match_t_eq_dec : EqDecision match_t.
Proof. solve_decision. Defined.

(** [endpointInternalGroup] is not initialised by the constructor: [None]. *)
Record HMatch := {
  hm_base : Match;
  hm_input : option string;
  hm_nf_port : Z;
  hm_group : option Z;
  hm_gre : string;
  hm_input_endpoint : option string;
  hm_nf_endpoint_port : option string;
  hm_type : match_t
}.

Definition HMatch_new : HMatch :=
  {| hm_base := Match_new; hm_input := None; hm_nf_port := 0; hm_group := None; hm_gre := "";
     hm_input_endpoint := None; hm_nf_endpoint_port := None; hm_type := MATCH_GENERIC |}.

Definition is_generic (m : HMatch) : bool := bool_decide (hm_type m = MATCH_GENERIC).

Definition setInputPort (p : string) (m : HMatch) : HMatch * bool :=
  if is_generic m
  then ({| hm_base := hm_base m; hm_input := Some p; hm_nf_port := hm_nf_port m;
           hm_group := hm_group m; hm_gre := hm_gre m; hm_input_endpoint := hm_input_endpoint m;
           hm_nf_endpoint_port := hm_nf_endpoint_port m; hm_type := MATCH_PORT |}, true)
  else (m, false).
Definition setNFport (nf : string) (port : Z) (m : HMatch) : HMatch * bool :=
  if is_generic m
  then ({| hm_base := hm_base m; hm_input := Some nf; hm_nf_port := i32 port;
           hm_group := hm_group m; hm_gre := hm_gre m; hm_input_endpoint := hm_input_endpoint m;
           hm_nf_endpoint_port := hm_nf_endpoint_port m; hm_type := MATCH_NF |}, true)
  else (m, false).
Definition setEndPointInternal (group : string) (m : HMatch) : HMatch * bool :=
  if is_generic m
  then ({| hm_base := hm_base m; hm_input := hm_input m; hm_nf_port := hm_nf_port m;
           hm_group := match sscanf_u group with Some g => Some g | None => hm_group m end;
           hm_gre := hm_gre m; hm_input_endpoint := hm_input_endpoint m;
           hm_nf_endpoint_port := hm_nf_endpoint_port m;
           hm_type := MATCH_ENDPOINT_INTERNAL |}, true)
  else (m, false).
Definition setEndPointGre (id : string) (m : HMatch) : HMatch * bool :=
  if is_generic m
  then ({| hm_base := hm_base m; hm_input := hm_input m; hm_nf_port := hm_nf_port m;
           hm_group := hm_group m; hm_gre := id; hm_input_endpoint := hm_input_endpoint m;
           hm_nf_endpoint_port := hm_nf_endpoint_port m; hm_type := MATCH_ENDPOINT_GRE |}, true)
  else (m, false).
Definition setInputEndpoint (ep : string) (m : HMatch) : HMatch :=
  {| hm_base := hm_base m; hm_input := Some ep; hm_nf_port := hm_nf_port m;
     hm_group := hm_group m; hm_gre := hm_gre m; hm_input_endpoint := Some ep;
     hm_nf_endpoint_port := hm_nf_endpoint_port m; hm_type := hm_type m |}.

Definition matchOnPort (m : HMatch) : bool := bool_decide (hm_type m = MATCH_PORT).
Definition matchOnNF (m : HMatch) : bool := bool_decide (hm_type m = MATCH_NF).
Definition matchOnEndPointInternal (m : HMatch) : bool :=
  bool_decide (hm_type m = MATCH_ENDPOINT_INTERNAL).
Definition matchOnEndPointGre (m : HMatch) : bool := bool_decide (hm_type m = MATCH_ENDPOINT_GRE).

(** A [std::string] built from a [char*]. *)
Definition of_cstr (s : option string) : res string :=
  match s with Some s => Ok s | None => Err Undef end.

Definition getPhysicalPort (m : HMatch) : res string :=
  _ ← c_assert (matchOnPort m); of_cstr (hm_input m).
Definition getNF (m : HMatch) : res string :=
  _ ← c_assert (matchOnNF m); of_cstr (hm_input m).
Definition getPortOfNF (m : HMatch) : res Z :=
  _ ← c_assert (matchOnNF m); Ok (hm_nf_port m).
Definition getGraphID (m : HMatch) : res string :=
  _ ← c_assert (matchOnEndPointInternal m); of_cstr (hm_input m).
Definition getEndPointGre (m : HMatch) : res string :=
  _ ← c_assert (matchOnEndPointGre m); Ok (hm_gre m).
Definition getEndPointInternal (m : HMatch) : res Z :=
  _ ← c_assert (matchOnEndPointInternal m);
  match hm_group m with Some g => Ok g | None => Err Undef end.
(** The token after the first ":", as a [char*] into a local string: the caller
    reads it through a pointer whose target no longer exists. *)
Definition getInputEndpoint (m : HMatch) : res string :=
  _ ← c_assert (matchOnEndPointGre m);
  s ← of_cstr (hm_input_endpoint m);
  t ← colon_tokens s;
  Ok (default "" (t !! 1%nat)).
Definition checkVlanPresence (m : HMatch) : bool :=
  isVlanID (hm_base m) || isAnyVlan (hm_base m) || bool_decide (is_Some (num_of (hm_base m) vlanPCP)).

(** ** Rules, endpoints, network functions *)
Record Rule := { r_match : HMatch; r_action : Action; r_id : string; r_priority : Z }.
Definition rule_eqb (r o : Rule) : bool := bool_decide (r_id r = r_id o).

Record EndPointInterface := { ei_id : string; ei_name : string; ei_interface : string }.
Record EndPointInternal := { en_id : string; en_name : string; en_group : string }.
Record EndPointGre := {
  eg_id : string; eg_name : string; eg_local_ip : string; eg_remote_ip : string;
  eg_gre_key : string; eg_ttl : string; eg_is_safe : bool
}.
Record EndPointVlan := { ev_id : string; ev_name : string; ev_vlan_id : string; ev_interface : string }.

#[export] Instance EndPointInterface_eq_dec : EqDecision EndPointInterface.
Proof. solve_decision. Defined.
#[export] Instance EndPointInternal_eq_dec : EqDecision EndPointInternal.
Proof. solve_decision. Defined.
#[export] Instance EndPointVlan_eq_dec : EqDecision EndPointVlan.
Proof. solve_decision. Defined.

(** [operator==]: all fields, except those of a tunnel that are left out. *)
Definition eg_eqb (e o : EndPointGre) : bool :=
  bool_decide (eg_id e = eg_id o) && bool_decide (eg_name e = eg_name o)
  && bool_decide (eg_local_ip e = eg_local_ip o) && bool_decide (eg_remote_ip e = eg_remote_ip o)
  && bool_decide (eg_gre_key e = eg_gre_key o).
Definition ei_eqb (e o : EndPointInterface) : bool :=
  bool_decide (ei_id e = ei_id o) && bool_decide (ei_name e = ei_name o)
  && bool_decide (ei_interface e = ei_interface o).
Definition en_eqb (e o : EndPointInternal) : bool :=
  bool_decide (en_id e = en_id o) && bool_decide (en_name e = en_name o)
  && bool_decide (en_group e = en_group o).
Definition ev_eqb (e o : EndPointVlan) : bool :=
  bool_decide (ev_id e = ev_id o) && bool_decide (ev_name e = ev_name o)
  && bool_decide (ev_interface e = ev_interface o) && bool_decide (ev_vlan_id e = ev_vlan_id o).

Record vnf_port := { vp_id : string; vp_name : string; vp_mac : string }.
Record VNFs := {
  v_id : string; v_name : string; v_groups : list string; v_template : string;
  v_ports : list vnf_port
}.
Definition vnf_eqb (v o : VNFs) : bool :=
  bool_decide (v_id v = v_id o) && bool_decide (v_name v = v_name o).

Definition with_ports (v : VNFs) (ps : list vnf_port) : VNFs :=
  {| v_id := v_id v; v_name := v_name v; v_groups := v_groups v; v_template := v_template v;
     v_ports := ps |}.
(** Added only when no port of the function has this identifier. *)
Definition addPort (v : VNFs) (p : vnf_port) : VNFs :=
  if existsb (fun c => bool_decide (vp_id c = vp_id p)) (v_ports v) then v
  else with_ports v (v_ports v ++ [p]).

(** "name:number" gives number + 1; without a second token the assert fails. *)
Definition extract_number_from_id (port_id : string) : res Z :=
  t ← colon_tokens port_id;
  match t !! 1%nat with
  | Some tok => Ok (u32 (default 0 (sscanf_u tok) + 1))
  | None => Err Assert
  end.
Definition getPortsId (v : VNFs) : res (list Z) :=
  res_fold (fun ids p => n ← extract_number_from_id (vp_id p); Ok (ids ++ [n])) [] (v_ports v).
(** The MAC address asked for each port. *)
Definition getPortsID_configuration (v : VNFs) : res (gmap Z string) :=
  res_fold (fun m p => n ← extract_number_from_id (vp_id p); Ok (<[n := vp_mac p]> m)) ∅ (v_ports v).

