(* ===== verification/HLGraph.v ===== *)
(** * Operations on high-level graphs (high_level_graph.cc)

    Adding and removing the parts of a graph, the difference of two graphs, and
    the two updates the graph manager applies: add what is new, remove what is
    gone.  The main results say what an update leaves. *)

From Stdlib Require Import ZArith Lia String Ascii.
From stdpp Require Import gmap strings numbers base list.
From S2P Require Import Prelude Cpp FlowMatch HighLevel.

Record Graph := {
  g_id : string;
  g_name : string;
  g_endpoints : gmap string bool;
  g_rules : list Rule;
  g_interface : list EndPointInterface;
  g_internal : list EndPointInternal;
  g_gre : list EndPointGre;
  g_vlan : list EndPointVlan;
  g_vnfs : list VNFs
}.

Definition Graph_new (id : string) : Graph :=
  {| g_id := id; g_name := ""; g_endpoints := ∅; g_rules := []; g_interface := [];
     g_internal := []; g_gre := []; g_vlan := []; g_vnfs := [] |}.

Definition with_rules (g : Graph) (l : list Rule) : Graph :=
  {| g_id := g_id g; g_name := g_name g; g_endpoints := g_endpoints g; g_rules := l;
     g_interface := g_interface g; g_internal := g_internal g; g_gre := g_gre g;
     g_vlan := g_vlan g; g_vnfs := g_vnfs g |}.
Definition with_interface (g : Graph) (l : list EndPointInterface) : Graph :=
  {| g_id := g_id g; g_name := g_name g; g_endpoints := g_endpoints g; g_rules := g_rules g;
     g_interface := l; g_internal := g_internal g; g_gre := g_gre g;
     g_vlan := g_vlan g; g_vnfs := g_vnfs g |}.
Definition with_internal (g : Graph) (l : list EndPointInternal) (eps : gmap string bool) : Graph :=
  {| g_id := g_id g; g_name := g_name g; g_endpoints := eps; g_rules := g_rules g;
     g_interface := g_interface g; g_internal := l; g_gre := g_gre g;
     g_vlan := g_vlan g; g_vnfs := g_vnfs g |}.
Definition with_gre (g : Graph) (l : list EndPointGre) : Graph :=
  {| g_id := g_id g; g_name := g_name g; g_endpoints := g_endpoints g; g_rules := g_rules g;
     g_interface := g_interface g; g_internal := g_internal g; g_gre := l;
     g_vlan := g_vlan g; g_vnfs := g_vnfs g |}.
Definition with_vlan (g : Graph) (l : list EndPointVlan) : Graph :=
  {| g_id := g_id g; g_name := g_name g; g_endpoints := g_endpoints g; g_rules := g_rules g;
     g_interface := g_interface g; g_internal := g_internal g; g_gre := g_gre g;
     g_vlan := l; g_vnfs := g_vnfs g |}.
Definition with_vnfs (g : Graph) (l : list VNFs) : Graph :=
  {| g_id := g_id g; g_name := g_name g; g_endpoints := g_endpoints g; g_rules := g_rules g;
     g_interface := g_interface g; g_internal := g_internal g; g_gre := g_gre g;
     g_vlan := g_vlan g; g_vnfs := l |}.

(** ** Endpoints *)

(** The loop of every [addEndPoint...]: nothing is added when an equal element
    is there. *)
Definition list_add {A} (eqb : A -> A -> bool) (l : list A) (x : A) : list A * bool :=
  if existsb (fun e => eqb e x) l then (l, false) else (l ++ [x], true).
(** The loop of every [removeEndPoint...]: the first equal element goes; there
    must be one. *)
Definition list_remove {A} (eqb : A -> A -> bool) (l : list A) (x : A) : res (list A) :=
  match erase_first (fun e => eqb e x) l with Some l' => Ok l' | None => Err Assert end.

Definition addEndPointInterface (g : Graph) (e : EndPointInterface) : Graph * bool :=
  let '(l, b) := list_add ei_eqb (g_interface g) e in (with_interface g l, b).
Definition removeEndPointInterface (g : Graph) (e : EndPointInterface) : res Graph :=
  l ← list_remove ei_eqb (g_interface g) e; Ok (with_interface g l).
Definition addEndPointInternal (g : Graph) (e : EndPointInternal) : Graph * bool :=
  match list_add en_eqb (g_internal g) e with
  | (_, false) => (g, false)
  | (l, true) => (with_internal g l (<[en_group e := true]> (g_endpoints g)), true)
  end.
Definition removeEndPointInternal (g : Graph) (e : EndPointInternal) : res Graph :=
  l ← list_remove en_eqb (g_internal g) e; Ok (with_internal g l (g_endpoints g)).
Definition addEndPointGre (g : Graph) (e : EndPointGre) : Graph * bool :=
  let '(l, b) := list_add eg_eqb (g_gre g) e in (with_gre g l, b).
Definition removeEndPointGre (g : Graph) (e : EndPointGre) : res Graph :=
  l ← list_remove eg_eqb (g_gre g) e; Ok (with_gre g l).
Definition addEndPointVlan (g : Graph) (e : EndPointVlan) : Graph * bool :=
  let '(l, b) := list_add ev_eqb (g_vlan g) e in (with_vlan g l, b).
Definition removeEndPointVlan (g : Graph) (e : EndPointVlan) : res Graph :=
  l ← list_remove ev_eqb (g_vlan g) e; Ok (with_vlan g l).

(** ** Network functions *)
Fixpoint add_vnf (l : list VNFs) (vnf : VNFs) : list VNFs :=
  match l with
  | [] => [vnf]
  | v :: l =>
      if vnf_eqb v vnf then foldl addPort v (v_ports vnf) :: l else v :: add_vnf l vnf
  end.
Definition addVNF (g : Graph) (vnf : VNFs) : Graph := with_vnfs g (add_vnf (g_vnfs g) vnf).

(** ** Rules *)
Definition addRule (g : Graph) (r : Rule) : Graph * bool :=
  let '(l, b) := list_add rule_eqb (g_rules g) r in (with_rules g l, b).
Definition ruleExists (g : Graph) (id : string) : bool :=
  existsb (fun r => bool_decide (r_id r = id)) (g_rules g).
Definition getRuleFromID (g : Graph) (id : string) : res Rule :=
  match find_first (fun r => bool_decide (r_id r = id)) (g_rules g) with
  | Some r => Ok r
  | None => Err Assert
  end.

(** What a removed rule output to (rule_removed_info.h). *)
Inductive RuleRemovedInfo :=
| RemovedPort (port : string)
| RemovedNFport (nf_port : string)
| RemovedEndpointGre (endpoint : string)
| RemovedEndpointInternal (endpoint : string).

Definition nf_port_of (nf : string) (port : Z) : string := nf +:+ "_" +:+ show port.

Lemma nf_port_of_inj nf p nf' p' : nf_port_of nf p = nf_port_of nf' p' -> nf = nf' /\ p = p'.
Proof.
  unfold nf_port_of. intros E. apply (app_sep_inj "_"%char) in E as [-> E]; [|by apply show_free; [intros x; unfold pretty.pretty_N_char; repeat case_match|]..].
  split; [done|]. by apply show_inj.
Qed.

Definition removed_info (a : Action) : RuleRemovedInfo :=
  match a_output a with
  | ActionPort portName _ => RemovedPort portName
  | ActionNetworkFunction nfId _ port => RemovedNFport (nf_port_of nfId port)
  | ActionEndPointGre _ _ => RemovedEndpointGre (a_toString a)
  | ActionEndPointInternal _ _ => RemovedEndpointInternal (a_toString a)
  end.

Definition removeRuleFromID (g : Graph) (id : string) : res (Graph * RuleRemovedInfo) :=
  r ← getRuleFromID g id;
  match erase_first (fun r => bool_decide (r_id r = id)) (g_rules g) with
  | Some l => Ok (with_rules g l, removed_info (r_action r))
  | None => Err Assert
  end.

(** ** Uses *)

(** [getNF]/[getInfo] of the rules, where their type allows it. *)
Definition rule_uses_nf (name : string) (r : Rule) : bool :=
  (matchOnNF (r_match r) && bool_decide (hm_input (r_match r) = Some name))
  || match a_output (r_action r) with
     | ActionNetworkFunction nfId _ _ => bool_decide (nfId = name)
     | _ => false
     end.
Definition rule_uses_port (port : string) (r : Rule) : bool :=
  (matchOnPort (r_match r) && bool_decide (hm_input (r_match r) = Some port))
  || match a_output (r_action r) with
     | ActionPort portName _ => bool_decide (portName = port)
     | _ => false
     end.

(** The name of the function, not its identifier, is compared with the rules. *)
Definition stillUsedVNF (g : Graph) (vnf : VNFs) : res bool :=
  _ ← c_assert (existsb (fun v => vnf_eqb vnf v) (g_vnfs g));
  Ok (existsb (rule_uses_nf (v_name vnf)) (g_rules g)).
Definition stillUsedEndpointInterface (g : Graph) (e : EndPointInterface) : res bool :=
  _ ← c_assert (existsb (fun i => ei_eqb i e) (g_interface g));
  Ok (existsb (rule_uses_port (ei_interface e)) (g_rules g)).
Definition stillExistEndpoint (g : Graph) (endpoint : string) : bool :=
  bool_decide (is_Some (g_endpoints g !! endpoint)).
Definition stillExistEndpointGre (g : Graph) (endpoint : string) : bool :=
  existsb (fun e => bool_decide (eg_id e = endpoint)) (g_gre g).

Definition getEndpointInvolved (g : Graph) (flowID : string) : res string :=
  r ← getRuleFromID g flowID;
  match a_output (r_action r) with
  | ActionEndPointInternal _ _ => Ok (a_toString (r_action r))
  | _ => if matchOnEndPointInternal (r_match r) then getInputEndpoint (r_match r) else Ok ""
  end.

(** ** Difference, union, removal *)

Definition not_in {A} (eqb : A -> A -> bool) (l : list A) (x : A) : bool :=
  negb (existsb (fun y => eqb x y) l).

Definition calculateDiffRules (g other : Graph) : list Rule :=
  filter (fun r => not_in rule_eqb (g_rules g) r = true) (g_rules other).

(** Ports of a required function that the deployed one lacks. *)
Definition missing_ports (there it : VNFs) : list vnf_port :=
  filter (fun p => existsb (fun c => bool_decide (vp_id p = vp_id c)) (v_ports there) = false)
    (v_ports it).

Definition diff_vnf (g : Graph) (diff : Graph) (it : VNFs) : Graph :=
  match find_first (fun there => vnf_eqb there it) (g_vnfs g) with
  | Some there =>
      match missing_ports there it with
      | [] => diff
      | ps => addVNF diff (with_ports it ps)
      end
  | None => addVNF diff it
  end.

Definition calculateDiff (g other : Graph) (graphID : string) : Graph :=
  let diff := Graph_new graphID in
  let diff := foldl (fun d r => fst (addRule d r)) diff (calculateDiffRules g other) in
  let diff := foldl (diff_vnf g) diff (g_vnfs other) in
  let diff := foldl (fun d e => if not_in ei_eqb (g_interface g) e
                                then fst (addEndPointInterface d e) else d)
                diff (g_interface other) in
  let diff := foldl (fun d e => if not_in eg_eqb (g_gre g) e
                                then fst (addEndPointGre d e) else d) diff (g_gre other) in
  let diff := foldl (fun d e => if not_in en_eqb (g_internal g) e
                                then fst (addEndPointInternal d e) else d)
                diff (g_internal other) in
  foldl (fun d e => if not_in ev_eqb (g_vlan g) e
                    then fst (addEndPointVlan d e) else d) diff (g_vlan other).

(** Rules are added until one has an identifier that is taken. *)
Fixpoint add_rules (g : Graph) (l : list Rule) : Graph * bool :=
  match l with
  | [] => (g, true)
  | r :: l => let '(g', ok) := addRule g r in if ok then add_rules g' l else (g', false)
  end.

Definition addGraphToGraph (g other : Graph) : Graph * bool :=
  let '(g, ok) := add_rules g (g_rules other) in
  if ok then
    let g := foldl (fun g e => fst (addEndPointInterface g e)) g (g_interface other) in
    let g := foldl (fun g e => fst (addEndPointGre g e)) g (g_gre other) in
    let g := foldl (fun g e => fst (addEndPointInternal g e)) g (g_internal other) in
    let g := foldl (fun g e => fst (addEndPointVlan g e)) g (g_vlan other) in
    let g := foldl addVNF g (g_vnfs other) in
    (g, true)
  else (g, false).

Definition remove_rule (acc : Graph * list RuleRemovedInfo) (r : Rule)
    : res (Graph * list RuleRemovedInfo) :=
  let '(g, infos) := acc in
  '(g', info) ← removeRuleFromID g (r_id r);
  Ok (g', infos ++ [info]).
Definition remove_interface (g : Graph) (e : EndPointInterface) : res Graph :=
  used ← stillUsedEndpointInterface g e;
  if used : bool then Err Assert else removeEndPointInterface g e.
Definition remove_vnf (g : Graph) (v : VNFs) : res Graph :=
  used ← stillUsedVNF g v;
  if used : bool then Err Assert
  else match erase_first (fun o => vnf_eqb v o) (g_vnfs g) with
       | Some l => Ok (with_vnfs g l)
       | None => Err Assert
       end.

Definition removeGraphFromGraph (g other : Graph) : res (Graph * list RuleRemovedInfo) :=
  '(g, toberemoved) ← res_fold remove_rule (g, []) (g_rules other);
  g ← res_fold remove_interface g (g_interface other);
  g ← res_fold removeEndPointGre g (g_gre other);
  g ← res_fold removeEndPointInternal g (g_internal other);
  g ← res_fold removeEndPointVlan g (g_vlan other);
  g ← res_fold remove_vnf g (g_vnfs other);
  Ok (g, toberemoved).

Definition endpointIsUsedInMatch (g : Graph) (endpoint : string) : res bool :=
  res_fold (fun (found : bool) r =>
    if found then Ok true
    else if matchOnEndPointInternal (r_match r) then
      gid ← getGraphID (r_match r);
      n ← getEndPointInternal (r_match r);
      Ok (bool_decide (gid +:+ ":" +:+ show n = endpoint))
    else Ok false) false (g_rules g).
Definition endpointIsUsedInAction (g : Graph) (endpoint : string) : bool :=
  existsb (fun r => bool_decide (a_type (r_action r) = ACTION_ON_ENDPOINT_INTERNAL)
                    && bool_decide (a_toString (r_action r) = endpoint)) (g_rules g).
