(* ===== verification/GraphSamples.v ===== *)
(** * A sample graph

    A firewall between two interfaces, with a tunnel and an internal endpoint,
    and an update of it: used to run the definitions on concrete values. *)

From Stdlib Require Import ZArith String.
From stdpp Require Import gmap strings numbers base list.
From S2P Require Import Prelude Cpp FlowMatch HighLevel HLGraph.

Definition on_port (p : string) (m : Match) : HMatch :=
  let h := fst (setInputPort p HMatch_new) in
  {| hm_base := m; hm_input := hm_input h; hm_nf_port := hm_nf_port h; hm_group := hm_group h;
     hm_gre := hm_gre h; hm_input_endpoint := hm_input_endpoint h;
     hm_nf_endpoint_port := hm_nf_endpoint_port h; hm_type := hm_type h |}.
Definition on_nf (nf : string) (p : Z) : HMatch := fst (setNFport nf p HMatch_new).
Definition on_gre (ep : string) : HMatch :=
  setInputEndpoint ("endpoint:" +:+ ep) (fst (setEndPointGre ep HMatch_new)).
Definition on_internal (g : string) : HMatch := fst (setEndPointInternal g HMatch_new).
Definition to (o : output_action) : Action := {| a_output := o; a_generic := [] |}.
Definition rule (m : HMatch) (a : Action) (id : string) (prio : Z) : Rule :=
  {| r_match := m; r_action := a; r_id := id; r_priority := prio |}.

Definition eth0_to_fw := rule (on_port "eth0" Match_new) (to (ActionNetworkFunction "fw" "" 1)) "1" 10.
Definition ip_to_tunnel :=
  rule (on_port "eth0" (set_num ethType 2048 Match_new)) (to (ActionEndPointGre "gre1" "endpoint:gre1")) "2" 20.
Definition fw_to_eth1 := rule (on_nf "fw" 2) (to (ActionPort "eth1" "")) "3" 10.
Definition tunnel_to_eth1 := rule (on_gre "gre1") (to (ActionPort "eth1" "")) "4" 10.
Definition fw_to_group := rule (on_nf "fw" 1) (to (ActionEndPointInternal "7" "")) "5" 10.
Definition group_to_fw := rule (on_internal "7") (to (ActionNetworkFunction "fw" "" 2)) "6" 10.

Definition iface (id name : string) : EndPointInterface :=
  {| ei_id := id; ei_name := name; ei_interface := name |}.
Definition gre1 : EndPointGre :=
  {| eg_id := "gre1"; eg_name := "tunnel"; eg_local_ip := "10.0.0.1"; eg_remote_ip := "10.0.0.2";
     eg_gre_key := "1"; eg_ttl := ""; eg_is_safe := false |}.
Definition group7 : EndPointInternal := {| en_id := "int1"; en_name := ""; en_group := "7" |}.
Definition vport (i : string) : vnf_port := {| vp_id := i; vp_name := ""; vp_mac := "" |}.
Definition firewall (ports : list string) : VNFs :=
  {| v_id := "fw"; v_name := "firewall"; v_groups := []; v_template := ""; v_ports := vport <$> ports |}.

Definition sample_graph : Graph :=
  {| g_id := "g"; g_name := ""; g_endpoints := {["7" := true]};
     g_rules := [eth0_to_fw; ip_to_tunnel; fw_to_eth1; tunnel_to_eth1; fw_to_group; group_to_fw];
     g_interface := [iface "if0" "eth0"; iface "if1" "eth1"]; g_internal := [group7]; g_gre := [gre1];
     g_vlan := []; g_vnfs := [firewall ["inout:0"; "inout:1"]] |}.

(** The tunnel goes; traffic of eth1 now enters the firewall too. *)
Definition eth1_to_fw := rule (on_port "eth1" Match_new) (to (ActionNetworkFunction "fw" "" 2)) "7" 10.
Definition sample_update : Graph :=
  {| g_id := "g"; g_name := ""; g_endpoints := {["7" := true]};
     g_rules := [eth0_to_fw; fw_to_eth1; fw_to_group; group_to_fw; eth1_to_fw];
     g_interface := [iface "if0" "eth0"; iface "if1" "eth1"]; g_internal := [group7]; g_gre := [];
     g_vlan := []; g_vnfs := [firewall ["inout:0"; "inout:1"; "inout:2"]] |}.
