(* ===== verification/HLUpdate.v ===== *)
(** * Updates of a high-level graph

    What [calculateDiff], [addGraphToGraph] and [removeGraphFromGraph] compute
    on graphs without duplicates, and what the update of a deployed graph to a
    new one therefore leaves. *)

From Stdlib Require Import ZArith Lia String.
From stdpp Require Import gmap strings numbers base list.
From S2P Require Import Prelude Cpp Keyed FlowMatch HighLevel HLGraph GraphSamples.

(** ** The keys of the comparisons *)

Definition ei_key (e : EndPointInterface) := (ei_id e, ei_name e, ei_interface e).
Definition en_key (e : EndPointInternal) := (en_id e, en_name e, en_group e).
Definition eg_key (e : EndPointGre) :=
  (eg_id e, eg_name e, eg_local_ip e, eg_remote_ip e, eg_gre_key e).
Definition ev_key (e : EndPointVlan) := (ev_id e, ev_name e, ev_interface e, ev_vlan_id e).
Definition vnf_key (v : VNFs) := (v_id v, v_name v).

Ltac key_eq := intros x y; unfold ei_eqb, en_eqb, eg_eqb, ev_eqb, vnf_eqb; rewrite <- ?bool_decide_and; apply bool_decide_ext;
  unfold ei_key, en_key, eg_key, ev_key, vnf_key; rewrite ?pair_eq; tauto.

#[export] Instance rule_KeyEq : KeyEq rule_eqb r_id.
Proof. done. Qed.
#[export] Instance ei_KeyEq : KeyEq ei_eqb ei_key.
Proof. key_eq. Qed.
#[export] Instance en_KeyEq : KeyEq en_eqb en_key.
Proof. key_eq. Qed.
#[export] Instance eg_KeyEq : KeyEq eg_eqb eg_key.
Proof. key_eq. Qed.
#[export] Instance ev_KeyEq : KeyEq ev_eqb ev_key.
Proof. key_eq. Qed.
#[export] Instance vnf_KeyEq : KeyEq vnf_eqb vnf_key.
Proof. key_eq. Qed.

(** ** Graphs without duplicates *)
Record graph_wf (g : Graph) : Prop := {
  wf_rules : NoDup (keys r_id (g_rules g));
  wf_interface : NoDup (keys ei_key (g_interface g));
  wf_internal : NoDup (keys en_key (g_internal g));
  wf_gre : NoDup (keys eg_key (g_gre g));
  wf_gvlan : NoDup (keys ev_key (g_vlan g));
  wf_vnfs : NoDup (keys vnf_key (g_vnfs g))
}.

#[export] Instance graph_wf_dec g : Decision (graph_wf g).
Proof.
  refine (cast_if (decide (NoDup (keys r_id (g_rules g)) /\ NoDup (keys ei_key (g_interface g))
    /\ NoDup (keys en_key (g_internal g)) /\ NoDup (keys eg_key (g_gre g))
    /\ NoDup (keys ev_key (g_vlan g)) /\ NoDup (keys vnf_key (g_vnfs g)))));
    [abstract (constructor; tauto)|abstract (intros []; tauto)].
Defined.

(** ** Loops over a field of the graph *)

Lemma foldl_cond {S A} (f : S -> A -> S) (P : A -> bool) l s :
  foldl (fun s x => if P x then f s x else s) s l = foldl f s (filter (fun x => P x = true) l).
Proof.
  revert s. induction l as [|x l IH]; intros s; [done|]. cbn [foldl]. rewrite filter_cons.
  destruct (P x); [rewrite decide_True by done|rewrite decide_False by done]; apply IH.
Qed.

Lemma fold_addRule g l :
  foldl (fun d r => fst (addRule d r)) g l = with_rules g (foldl (kadd rule_eqb) (g_rules g) l).
Proof.
  revert g. induction l as [|x l IH]; intros g; cbn; [by destruct g|].
  rewrite IH. unfold addRule, list_add, kadd. by destruct (existsb _ _).
Qed.
Lemma fold_addInterface g l :
  foldl (fun d e => fst (addEndPointInterface d e)) g l
  = with_interface g (foldl (kadd ei_eqb) (g_interface g) l).
Proof.
  revert g. induction l as [|x l IH]; intros g; cbn; [by destruct g|].
  rewrite IH. unfold addEndPointInterface, list_add, kadd. by destruct (existsb _ _).
Qed.
Lemma fold_addGre g l :
  foldl (fun d e => fst (addEndPointGre d e)) g l = with_gre g (foldl (kadd eg_eqb) (g_gre g) l).
Proof.
  revert g. induction l as [|x l IH]; intros g; cbn; [by destruct g|].
  rewrite IH. unfold addEndPointGre, list_add, kadd. by destruct (existsb _ _).
Qed.
Lemma fold_addVlan g l :
  foldl (fun d e => fst (addEndPointVlan d e)) g l = with_vlan g (foldl (kadd ev_eqb) (g_vlan g) l).
Proof.
  revert g. induction l as [|x l IH]; intros g; cbn; [by destruct g|].
  rewrite IH. unfold addEndPointVlan, list_add, kadd. by destruct (existsb _ _).
Qed.
Lemma fold_addInternal g l :
  exists eps, foldl (fun d e => fst (addEndPointInternal d e)) g l
  = with_internal g (foldl (kadd en_eqb) (g_internal g) l) eps.
Proof.
  revert g. induction l as [|x l IH]; intros g; cbn; [exists (g_endpoints g); by destruct g|].
  destruct (IH (fst (addEndPointInternal g x))) as [eps E]. rewrite E.
  unfold addEndPointInternal, list_add, kadd in *. destruct (existsb _ _); by eexists.
Qed.
Lemma fold_addVNF g l :
  foldl addVNF g l = with_vnfs g (foldl add_vnf (g_vnfs g) l).
Proof.
  revert g. induction l as [|x l IH]; intros g; cbn; [by destruct g|].
  by rewrite IH.
Qed.

(** ** Network functions *)

Lemma vnf_key_ports v l : vnf_key (foldl addPort v l) = vnf_key v.
Proof.
  revert v. induction l as [|p l IH]; intros v; cbn; [done|]. rewrite IH.
  unfold addPort. by destruct (existsb _ _).
Qed.
Lemma keys_add_vnf l v :
  keys vnf_key (add_vnf l v)
  = if decide (vnf_key v ∈ keys vnf_key l) then keys vnf_key l else keys vnf_key l ++ [vnf_key v].
Proof.
  induction l as [|w l IH].
  - by rewrite decide_False by apply not_elem_of_nil.
  - cbn [add_vnf]. rewrite (key_eqb (eqb := vnf_eqb)). case_bool_decide as Hk.
    + rewrite decide_True by (unfold keys; rewrite fmap_cons, Hk; left).
      unfold keys. rewrite !fmap_cons. by rewrite vnf_key_ports.
    + unfold keys in *. rewrite !fmap_cons, IH.
      destruct (decide (vnf_key v ∈ vnf_key <$> l)).
      * by rewrite decide_True by (by right).
      * by rewrite decide_False by (intros [?|?]%elem_of_cons; congruence).
Qed.
Lemma add_vnf_new l v : vnf_key v ∉ keys vnf_key l -> add_vnf l v = l ++ [v].
Proof.
  induction l as [|w l IH]; intros Hv; [done|]. unfold keys in Hv.
  rewrite fmap_cons, not_elem_of_cons in Hv. destruct Hv as [Hw Hv]. cbn [add_vnf].
  rewrite (key_eqb (eqb := vnf_eqb)), bool_decide_eq_false_2 by congruence. by rewrite IH.
Qed.
Lemma foldl_add_vnf_new l l2 :
  NoDup (keys vnf_key l2) -> (forall k, k ∈ keys vnf_key l2 -> k ∉ keys vnf_key l) ->
  foldl add_vnf l l2 = l ++ l2.
Proof.
  revert l. induction l2 as [|v l2 IH]; intros l Hnd Hd; cbn [foldl]; [by rewrite app_nil_r|].
  apply NoDup_keys_cons in Hnd as [Hv Hnd].
  rewrite add_vnf_new by (apply Hd; rewrite keys_cons; left).
  rewrite IH; [by rewrite <- app_assoc|done|].
  intros k Hk. rewrite keys_app, elem_of_app, keys_cons, elem_of_cons.
  intros [Hin|[Hk'|[]%elem_of_nil]]; [|apply Hv; by rewrite <- Hk']. eapply (Hd k); [|done]. rewrite keys_cons. by right.
Qed.
Lemma keys_foldl_add_vnf l l2 :
  NoDup (keys vnf_key l2) ->
  keys vnf_key (foldl add_vnf l l2)
  = keys vnf_key l ++ filter (fun k => k ∉ keys vnf_key l) (keys vnf_key l2).
Proof.
  revert l. induction l2 as [|v l2 IH]; intros l Hnd; cbn [foldl].
  - by rewrite app_nil_r.
  - apply NoDup_keys_cons in Hnd as [Hv Hnd].
    rewrite IH by done. rewrite keys_add_vnf.
    change (keys vnf_key (v :: l2)) with (vnf_key v :: keys vnf_key l2).
    destruct (decide (vnf_key v ∈ keys vnf_key l)) as [Hin|Hin].
    + by rewrite filter_cons_False by auto.
    + rewrite filter_cons_True by done. rewrite <- app_assoc. f_equal. cbn. f_equal.
      apply filter_iff_in. intros k Hk. rewrite elem_of_app, list_elem_of_singleton.
      split; [tauto|]. intros H1 [?|Hk']; [done|]. apply Hv. by rewrite <- Hk'.
Qed.

(** What the difference asks for a function of the new graph. *)
Definition vnf_delta (g : Graph) (it : VNFs) : option VNFs :=
  match find_first (fun there => vnf_eqb there it) (g_vnfs g) with
  | Some there =>
      match missing_ports there it with [] => None | ps => Some (with_ports it ps) end
  | None => Some it
  end.
Definition vnf_deltas (g other : Graph) : list VNFs := omap (vnf_delta g) (g_vnfs other).

Lemma vnf_delta_key g it v : vnf_delta g it = Some v -> vnf_key v = vnf_key it.
Proof. unfold vnf_delta. intros. by repeat case_match; simplify_eq/=. Qed.
Lemma keys_vnf_deltas g l :
  keys vnf_key (omap (vnf_delta g) l)
  = keys vnf_key (filter (fun it => is_Some (vnf_delta g it)) l).
Proof.
  unfold keys. induction l as [|it l IH]; [done|]. cbn [omap list_omap]. rewrite filter_cons.
  destruct (vnf_delta g it) eqn:E.
  - rewrite decide_True by eauto. rewrite !fmap_cons. f_equal; [|exact IH].
    by eapply vnf_delta_key.
  - rewrite decide_False by (intros []; congruence). exact IH.
Qed.
Lemma fold_diff_vnf g d l :
  foldl (diff_vnf g) d l = with_vnfs d (foldl add_vnf (g_vnfs d) (omap (vnf_delta g) l)).
Proof.
  revert d. induction l as [|it l IH]; intros d; cbn [foldl]; [by destruct d|].
  rewrite IH. unfold diff_vnf. cbn [omap list_omap]. unfold vnf_delta at 2.
  destruct (find_first _ _); [|done]. by destruct (missing_ports _ it).
Qed.

(** ** The difference *)

Definition fresh {A K} `{EqDecision K} (key : A -> K) (l l2 : list A) : list A :=
  filter (fun x => key x ∉ keys key l) l2.

Lemma not_in_fresh {A K} `{EqDecision K} (eqb : A -> A -> bool) (key : A -> K) `{!KeyEq eqb key} l l2 :
  filter (fun x => not_in eqb l x = true) l2 = fresh key l l2.
Proof.
  apply filter_iff_in. intros x _. unfold not_in. rewrite (existsb_key_sym eqb key).
  by rewrite negb_true_iff, bool_decide_eq_false.
Qed.
Lemma kadd_fresh {A K} `{EqDecision K} (eqb : A -> A -> bool) (key : A -> K) `{!KeyEq eqb key} l l2 :
  NoDup (keys key l2) -> foldl (kadd eqb) [] (fresh key l l2) = fresh key l l2.
Proof.
  intros Hnd. rewrite (foldl_kadd eqb key) by (by apply NoDup_keys_filter). cbn [app].
  apply filter_all_id. intros x _ H. by apply elem_of_nil in H.
Qed.

Record diff_spec (g o d : Graph) : Prop := {
  ds_rules : g_rules d = fresh r_id (g_rules g) (g_rules o);
  ds_interface : g_interface d = fresh ei_key (g_interface g) (g_interface o);
  ds_gre : g_gre d = fresh eg_key (g_gre g) (g_gre o);
  ds_internal : g_internal d = fresh en_key (g_internal g) (g_internal o);
  ds_vlan : g_vlan d = fresh ev_key (g_vlan g) (g_vlan o);
  ds_vnfs : g_vnfs d = vnf_deltas g o
}.

Lemma calculateDiff_ok g o id : graph_wf o -> diff_spec g o (calculateDiff g o id).
Proof.
  intros []. unfold calculateDiff, calculateDiffRules. rewrite !foldl_cond.
  rewrite fold_addRule, fold_diff_vnf, fold_addInterface, fold_addGre.
  match goal with |- context [foldl _ ?g0 (filter (fun x => not_in en_eqb _ x = true) _)] =>
    destruct (fold_addInternal g0 (filter (fun x => not_in en_eqb (g_internal g) x = true) (g_internal o)))
      as [eps ->] end.
  rewrite fold_addVlan.
  rewrite (not_in_fresh rule_eqb r_id), (not_in_fresh ei_eqb ei_key), (not_in_fresh eg_eqb eg_key),
    (not_in_fresh en_eqb en_key), (not_in_fresh ev_eqb ev_key).
  constructor; cbn [g_rules g_interface g_gre g_internal g_vlan g_vnfs with_rules with_interface
    with_gre with_internal with_vlan with_vnfs Graph_new]; try by eapply kadd_fresh; [apply _|].
  rewrite foldl_add_vnf_new; [done| |intros k _; apply not_elem_of_nil].
  rewrite keys_vnf_deltas. by apply NoDup_keys_filter.
Qed.

(** ** Addition of a difference *)

Lemma add_rules_fresh g l :
  NoDup (keys r_id l) -> (forall r, r ∈ l -> r_id r ∉ keys r_id (g_rules g)) ->
  add_rules g l = (with_rules g (g_rules g ++ l), true).
Proof.
  revert g. induction l as [|r l IH]; intros g Hnd Hf; cbn [add_rules].
  { rewrite app_nil_r. by destruct g. }
  apply NoDup_keys_cons in Hnd as [Hr Hnd]. unfold addRule, list_add.
  rewrite (existsb_key rule_eqb r_id), bool_decide_eq_false_2 by (apply Hf; left).
  rewrite IH; [cbn; by rewrite <- app_assoc|done|].
  intros r' Hr'. cbn. rewrite keys_app, elem_of_app, keys_cons, elem_of_cons.
  intros [H|[H|[]%elem_of_nil]]; [by eapply Hf; [right|]|].
  apply Hr. rewrite <- H. by apply elem_of_keys.
Qed.

Record sum_spec (g d g1 : Graph) : Prop := {
  ss_id : g_id g1 = g_id g;
  ss_rules : g_rules g1 = g_rules g ++ g_rules d;
  ss_interface : g_interface g1 = g_interface g ++ fresh ei_key (g_interface g) (g_interface d);
  ss_gre : g_gre g1 = g_gre g ++ fresh eg_key (g_gre g) (g_gre d);
  ss_internal : g_internal g1 = g_internal g ++ fresh en_key (g_internal g) (g_internal d);
  ss_vlan : g_vlan g1 = g_vlan g ++ fresh ev_key (g_vlan g) (g_vlan d);
  ss_vnfs : g_vnfs g1 = foldl add_vnf (g_vnfs g) (g_vnfs d)
}.

Lemma addGraphToGraph_ok g d :
  graph_wf d -> (forall r, r ∈ g_rules d -> r_id r ∉ keys r_id (g_rules g)) ->
  exists g1, addGraphToGraph g d = (g1, true) /\ sum_spec g d g1.
Proof.
  intros [] Hr. unfold addGraphToGraph. rewrite add_rules_fresh by done.
  rewrite fold_addInterface, fold_addGre.
  match goal with |- context [foldl _ ?g0 (g_internal d)] =>
    destruct (fold_addInternal g0 (g_internal d)) as [eps ->] end.
  rewrite fold_addVlan, fold_addVNF. eexists. split; [done|].
  constructor; cbn; try done.
  - by rewrite (foldl_kadd ei_eqb ei_key).
  - by rewrite (foldl_kadd eg_eqb eg_key).
  - by rewrite (foldl_kadd en_eqb en_key).
  - by rewrite (foldl_kadd ev_eqb ev_key).
Qed.

Lemma diff_wf g o d : graph_wf o -> diff_spec g o d -> graph_wf d.
Proof.
  intros [] []. constructor; rewrite ?ds_rules0, ?ds_interface0, ?ds_gre0, ?ds_internal0, ?ds_vlan0, ?ds_vnfs0;
    try by apply NoDup_keys_filter.
  unfold vnf_deltas. rewrite keys_vnf_deltas. by apply NoDup_keys_filter.
Qed.

(** ** Removal of a difference *)

Lemma removeRuleFromID_ok g r :
  NoDup (keys r_id (g_rules g)) -> r ∈ g_rules g ->
  removeRuleFromID g (r_id r)
  = Ok (with_rules g (filter (fun x => r_id x <> r_id r) (g_rules g)), removed_info (r_action r)).
Proof.
  intros Hnd Hr. unfold removeRuleFromID, getRuleFromID.
  rewrite (find_first_key r_id) by done. cbn [mbind res_bind].
  pose proof (kremove_ok rule_eqb r_id _ r Hnd ltac:(by apply elem_of_keys)) as Hk.
  unfold kremove, rule_eqb in Hk. destruct (erase_first _ _); by simplify_eq.
Qed.

Lemma remove_rules_ok g infos l :
  NoDup (keys r_id (g_rules g)) -> NoDup (keys r_id l) -> l ⊆ g_rules g ->
  res_fold remove_rule (g, infos) l
  = Ok (with_rules g (filter (fun x => r_id x ∉ keys r_id l) (g_rules g)),
        infos ++ ((fun r => removed_info (r_action r)) <$> l)).
Proof.
  revert g infos. induction l as [|r l IH]; intros g infos Hg Hl Hsub; rewrite ?res_fold_cons.
  - cbn [res_fold]. rewrite app_nil_r, filter_all_id; [by destruct g|]. intros x _ H. by apply elem_of_nil in H.
  - apply NoDup_keys_cons in Hl as [Hr Hl]. cbn [remove_rule].
    rewrite removeRuleFromID_ok by (try done; apply Hsub; left). cbn [mbind res_bind].
    rewrite IH; cbn [g_rules with_rules]; [|by apply NoDup_keys_filter|done|].
    + do 2 f_equal; [|by rewrite fmap_cons, <- app_assoc].
      unfold with_rules. cbn [g_rules g_id g_name g_endpoints g_interface g_internal g_gre g_vlan g_vnfs]. f_equal.
      rewrite list_filter_filter. apply list_filter_iff. intros x.
      rewrite keys_cons, not_elem_of_cons. tauto.
    + intros x Hx. apply list_elem_of_filter. split; [|apply Hsub; by right].
      intros E. apply Hr. rewrite <- E. by apply elem_of_keys.
Qed.

Lemma removeGre_run g l :
  res_fold removeEndPointGre g l = with_gre g <$> res_fold (kremove eg_eqb) (g_gre g) l.
Proof.
  revert g. induction l as [|x l IH]; intros g; rewrite ?res_fold_cons; [by destruct g|].
  unfold removeEndPointGre at 1, list_remove. fold (kremove eg_eqb (g_gre g) x).
  destruct (kremove _ _ x); cbn; [by rewrite IH|done].
Qed.
Lemma removeVlan_run g l :
  res_fold removeEndPointVlan g l = with_vlan g <$> res_fold (kremove ev_eqb) (g_vlan g) l.
Proof.
  revert g. induction l as [|x l IH]; intros g; rewrite ?res_fold_cons; [by destruct g|].
  unfold removeEndPointVlan at 1, list_remove. fold (kremove ev_eqb (g_vlan g) x).
  destruct (kremove _ _ x); cbn; [by rewrite IH|done].
Qed.
Lemma removeInternal_run g l :
  res_fold removeEndPointInternal g l
  = (fun l => with_internal g l (g_endpoints g)) <$> res_fold (kremove en_eqb) (g_internal g) l.
Proof.
  revert g. induction l as [|x l IH]; intros g; rewrite ?res_fold_cons; [by destruct g|].
  unfold removeEndPointInternal at 1, list_remove. fold (kremove en_eqb (g_internal g) x).
  destruct (kremove _ _ x); cbn; [by rewrite IH|done].
Qed.

Lemma existsb_false {A} (p : A -> bool) l : (forall x, x ∈ l -> p x = false) -> existsb p l = false.
Proof.
  induction l as [|x l IH]; intros H; cbn; [done|]. rewrite (H x) by left.
  apply IH. intros. apply H. by right.
Qed.

(** An interface that no rule uses is removed like any element. *)
Lemma removeInterface_run g l :
  NoDup (keys ei_key (g_interface g)) -> NoDup (keys ei_key l) ->
  keys ei_key l ⊆ keys ei_key (g_interface g) ->
  (forall e r, e ∈ l -> r ∈ g_rules g -> rule_uses_port (ei_interface e) r = false) ->
  res_fold remove_interface g l = with_interface g <$> res_fold (kremove ei_eqb) (g_interface g) l.
Proof.
  revert g. induction l as [|x l IH]; intros g Hg Hl Hsub Hu; rewrite ?res_fold_cons; [by destruct g|].
  apply NoDup_keys_cons in Hl as [Hx Hl].
  assert (Hin : ei_key x ∈ keys ei_key (g_interface g)) by (apply Hsub; left).
  unfold remove_interface at 1, stillUsedEndpointInterface.
  rewrite (existsb_key ei_eqb ei_key), bool_decide_eq_true_2 by done. cbn [c_assert mbind res_bind].
  rewrite existsb_false by (intros; apply Hu; [left|done]). cbn [mbind res_bind].
  unfold removeEndPointInterface, list_remove. fold (kremove ei_eqb (g_interface g) x).
  rewrite (kremove_ok ei_eqb ei_key) by done. cbn [mbind res_bind].
  rewrite IH; cbn; [done|by apply NoDup_keys_filter|done| |].
  - intros k Hk. assert (k ∈ keys ei_key (g_interface g)) as (y & -> & Hy)%list_elem_of_fmap
      by (apply Hsub; by right).
    apply elem_of_keys, list_elem_of_filter. split; [|done]. intros E. apply Hx. by rewrite <- E.
  - intros. apply Hu; [by right|done].
Qed.
Lemma removeVNF_run g l :
  NoDup (keys vnf_key (g_vnfs g)) -> NoDup (keys vnf_key l) ->
  keys vnf_key l ⊆ keys vnf_key (g_vnfs g) ->
  (forall v r, v ∈ l -> r ∈ g_rules g -> rule_uses_nf (v_name v) r = false) ->
  res_fold remove_vnf g l = with_vnfs g <$> res_fold (kremove vnf_eqb) (g_vnfs g) l.
Proof.
  revert g. induction l as [|x l IH]; intros g Hg Hl Hsub Hu; rewrite ?res_fold_cons; [by destruct g|].
  apply NoDup_keys_cons in Hl as [Hx Hl].
  assert (Hin : vnf_key x ∈ keys vnf_key (g_vnfs g)) by (apply Hsub; left).
  unfold remove_vnf at 1, stillUsedVNF.
  rewrite (existsb_key_sym vnf_eqb vnf_key), bool_decide_eq_true_2 by done. cbn [c_assert mbind res_bind].
  rewrite existsb_false by (intros; apply Hu; [left|done]). cbn [mbind res_bind].
  rewrite (kremove_ok vnf_eqb vnf_key) by done.
  pose proof (kremove_ok vnf_eqb vnf_key _ x Hg Hin) as Hk. unfold kremove in Hk.
  assert (He : erase_first (fun o => vnf_eqb x o) (g_vnfs g) = erase_first (fun o => vnf_eqb o x) (g_vnfs g)).
  { clear. induction (g_vnfs g) as [|y l IH]; cbn; [done|]. rewrite IH, !(key_eqb (eqb := vnf_eqb)).
    by rewrite (bool_decide_ext (vnf_key x = vnf_key y) (vnf_key y = vnf_key x)). }
  rewrite He. destruct (erase_first _ _); [|done]. injection Hk as ->. cbn [mbind res_bind].
  rewrite IH; cbn; [done|by apply NoDup_keys_filter|done| |].
  - intros k Hk. assert (k ∈ keys vnf_key (g_vnfs g)) as (y & -> & Hy)%list_elem_of_fmap
      by (apply Hsub; by right).
    apply elem_of_keys, list_elem_of_filter. split; [|done]. intros E. apply Hx. by rewrite <- E.
  - intros. apply Hu; [by right|done].
Qed.

Record rem_spec (g d g2 : Graph) : Prop := {
  rs_rules : g_rules g2 = fresh r_id (g_rules d) (g_rules g);
  rs_interface : g_interface g2 = fresh ei_key (g_interface d) (g_interface g);
  rs_gre : g_gre g2 = fresh eg_key (g_gre d) (g_gre g);
  rs_internal : g_internal g2 = fresh en_key (g_internal d) (g_internal g);
  rs_vlan : g_vlan g2 = fresh ev_key (g_vlan d) (g_vlan g);
  rs_vnfs : g_vnfs g2 = fresh vnf_key (g_vnfs d) (g_vnfs g)
}.

Lemma removeGraphFromGraph_ok g d :
  graph_wf g -> graph_wf d ->
  g_rules d ⊆ g_rules g ->
  keys ei_key (g_interface d) ⊆ keys ei_key (g_interface g) ->
  keys eg_key (g_gre d) ⊆ keys eg_key (g_gre g) ->
  keys en_key (g_internal d) ⊆ keys en_key (g_internal g) ->
  keys ev_key (g_vlan d) ⊆ keys ev_key (g_vlan g) ->
  keys vnf_key (g_vnfs d) ⊆ keys vnf_key (g_vnfs g) ->
  (forall e r, e ∈ g_interface d -> r ∈ fresh r_id (g_rules d) (g_rules g) ->
     rule_uses_port (ei_interface e) r = false) ->
  (forall v r, v ∈ g_vnfs d -> r ∈ fresh r_id (g_rules d) (g_rules g) ->
     rule_uses_nf (v_name v) r = false) ->
  exists g2, removeGraphFromGraph g d = Ok (g2, (fun r => removed_info (r_action r)) <$> g_rules d)
    /\ rem_spec g d g2.
Proof.
  intros [] [] Hr Hi Hg Hn Hv Hf Hui Huv. unfold removeGraphFromGraph.
  rewrite remove_rules_ok by done. cbn [mbind res_bind app].
  rewrite removeInterface_run by done. rewrite (kremoves_ok ei_eqb ei_key) by done. cbn.
  rewrite removeGre_run. cbn. rewrite (kremoves_ok eg_eqb eg_key) by done. cbn.
  rewrite removeInternal_run. cbn. rewrite (kremoves_ok en_eqb en_key) by done. cbn.
  rewrite removeVlan_run. cbn. rewrite (kremoves_ok ev_eqb ev_key) by done. cbn.
  rewrite removeVNF_run by done. cbn. rewrite (kremoves_ok vnf_eqb vnf_key) by done. cbn.
  eexists. split; [done|]. by constructor.
Qed.

(** ** What an update leaves *)

(** The elements of the old list that the new one still has, then the new ones. *)
Definition merged {A K} `{EqDecision K} (key : A -> K) (l n : list A) : list A :=
  filter (fun x => key x ∈ keys key n) l ++ fresh key l n.

Section lists.
Context {A K : Type} `{EqDecision K} (key : A -> K) (l n : list A).

Lemma elem_of_fresh x : x ∈ fresh key l n <-> x ∈ n /\ key x ∉ keys key l.
Proof. unfold fresh. rewrite list_elem_of_filter. tauto. Qed.
Lemma fresh_idemp : fresh key l (fresh key l n) = fresh key l n.
Proof. apply filter_all_id. intros x Hx. by apply elem_of_fresh in Hx as [_ ?]. Qed.
Lemma NoDup_sum : NoDup (keys key l) -> NoDup (keys key n) -> NoDup (keys key (l ++ fresh key l n)).
Proof.
  intros Hl Hn. rewrite keys_app. apply list.NoDup_app. split; [done|]. split.
  - intros k Hk (x & -> & Hx)%list_elem_of_fmap. by apply elem_of_fresh in Hx as [_ Hx].
  - by apply NoDup_keys_filter.
Qed.
End lists.

Lemma fresh_sum {A K} `{EqDecision K} (key : A -> K) (l n : list A) :
  fresh key n (l ++ fresh key l n) = fresh key n l.
Proof.
  unfold fresh at 1. rewrite list.filter_app, (filter_none _ (fresh key l n)); [apply app_nil_r|].
  intros x Hx Hn. apply elem_of_fresh in Hx as [Hx _]. apply Hn. by apply elem_of_keys.
Qed.
(** Adding the fresh elements of [n], then removing those that [n] lacks. *)
Lemma update_list {A K} `{EqDecision K} (key : A -> K) (l n : list A) :
  fresh key (fresh key n l) (l ++ fresh key l n) = merged key l n.
Proof.
  unfold merged, fresh at 1. rewrite list.filter_app. f_equal.
  - apply filter_iff_in. intros x Hx. split.
    + intros H. destruct (decide (key x ∈ keys key n)) as [|Hn]; [done|]. destruct H.
      apply elem_of_keys, elem_of_fresh. done.
    + intros Hn (y & E & Hy)%list_elem_of_fmap. apply elem_of_fresh in Hy as [_ Hy].
      apply Hy. by rewrite <- E.
  - apply filter_all_id. intros x Hx (y & E & Hy)%list_elem_of_fmap.
    apply elem_of_fresh in Hx as [Hx _]. apply elem_of_fresh in Hy as [_ Hy].
    apply Hy. rewrite <- E. by apply elem_of_keys.
Qed.

(** *** Port identifiers of the functions *)
Definition port_ids (k : string * string) (l : list VNFs) : list string :=
  match find_first (fun v => bool_decide (vnf_key v = k)) l with
  | Some v => vp_id <$> v_ports v
  | None => []
  end.

Lemma elem_of_addPorts i v l :
  i ∈ vp_id <$> v_ports (foldl addPort v l) <-> (i ∈ vp_id <$> v_ports v) \/ (i ∈ vp_id <$> l).
Proof.
  revert v. induction l as [|p l IH]; intros v; cbn [foldl].
  - cbn. rewrite elem_of_nil. tauto.
  - rewrite IH, fmap_cons, elem_of_cons. unfold addPort. destruct (existsb _ _) eqn:E.
    + split; [tauto|]. intros [?|[->|?]]; [tauto| |tauto]. left.
      apply existsb_exists in E as (q & Hq & E%bool_decide_eq_true).
      rewrite <- E. apply list_elem_of_fmap_2, list_elem_of_In, Hq.
    + cbn [v_ports with_ports]. rewrite fmap_app, elem_of_app. cbn.
      rewrite list_elem_of_singleton. tauto.
Qed.
Lemma elem_of_port_ids_add i k l v :
  i ∈ port_ids k (add_vnf l v)
  <-> i ∈ port_ids k l \/ (vnf_key v = k /\ i ∈ vp_id <$> v_ports v).
Proof.
  unfold port_ids. induction l as [|w l IH]; cbn [add_vnf].
  - rewrite find_first_cons. case_bool_decide; cbn; rewrite ?elem_of_nil; tauto.
  - rewrite (key_eqb (eqb := vnf_eqb)). case_bool_decide as Hw; rewrite !find_first_cons.
    + rewrite vnf_key_ports. case_bool_decide as Hk; [rewrite elem_of_addPorts|]; 
        [intuition congruence|]. intuition congruence.
    + case_bool_decide as Hk; [|exact IH]. intuition congruence.
Qed.
Lemma elem_of_port_ids_adds i k l l2 :
  i ∈ port_ids k (foldl add_vnf l l2)
  <-> i ∈ port_ids k l \/ exists v, v ∈ l2 /\ vnf_key v = k /\ i ∈ vp_id <$> v_ports v.
Proof.
  revert l. induction l2 as [|v l2 IH]; intros l; cbn [foldl].
  - split; [tauto|]. intros [?|(? & []%elem_of_nil & _)]; done.
  - rewrite IH, elem_of_port_ids_add. setoid_rewrite elem_of_cons. split.
    + intros [[?|[? ?]]|(w & ? & ?)]; [tauto|right; exists v; tauto|right; exists w; tauto].
    + intros [?|(w & [->|?] & ? & ?)]; [tauto|tauto|right; exists w; tauto].
Qed.

Lemma find_first_ext {A} (p q : A -> bool) l : (forall x, p x = q x) -> find_first p l = find_first q l.
Proof. intros H. induction l as [|x l IH]; [done|]. by rewrite !find_first_cons, H, IH. Qed.

Lemma vnf_delta_some n v :
  is_Some (vnf_delta n v) <->
  vnf_key v ∉ keys vnf_key (g_vnfs n)
  \/ Exists (fun i => i ∉ port_ids (vnf_key v) (g_vnfs n)) (vp_id <$> v_ports v).
Proof.
  unfold vnf_delta, port_ids.
  rewrite (find_first_ext _ (fun w => bool_decide (vnf_key w = vnf_key v)))
    by (intros; by rewrite (key_eqb (eqb := vnf_eqb))).
  destruct (find_first _ _) as [w|] eqn:E.
  - apply find_first_Some in E as [Hw Hk%bool_decide_eq_true].
    assert (Hin : vnf_key v ∈ keys vnf_key (g_vnfs n)) by (rewrite <- Hk; by apply elem_of_keys).
    assert (Hm : forall p, p ∈ missing_ports w v <-> p ∈ v_ports v /\ vp_id p ∉ vp_id <$> v_ports w).
    { intros p. unfold missing_ports. rewrite list_elem_of_filter.
      rewrite <- not_true_iff_false, existsb_exists. split; intros [H1 H2]; split; try done.
      - intros (q & E & Hq)%list_elem_of_fmap. apply H1. exists q.
        rewrite <- list_elem_of_In. split; [done|by apply bool_decide_eq_true].
      - intros (q & Hq & E%bool_decide_eq_true). apply H2. rewrite E.
        by apply list_elem_of_fmap_2, list_elem_of_In. }
    rewrite list.Exists_exists. destruct (missing_ports w v) as [|p ps] eqn:Ep.
    + split; [by intros []|]. intros [?|(i & (p & -> & Hp)%list_elem_of_fmap & Hi)]; [done|].
      assert (p ∈ @nil vnf_port) as []%elem_of_nil by (by apply Hm).
    + split; [|eauto]. intros _. right. destruct (proj1 (Hm p) ltac:(left)) as [Hp Hi].
      exists (vp_id p). split; [by apply list_elem_of_fmap_2|done].
  - split; [|eauto]. intros _. left. intros (w & Hk & Hw)%list_elem_of_fmap.
    apply find_first_None in E. rewrite list.Forall_forall in E. specialize (E w Hw).
    by rewrite bool_decide_eq_true_2 in E.
Qed.

(** The function with key [k] has a port in [g] that it lacks in [n]. *)
Definition shrinks (g n : Graph) (k : string * string) : Prop :=
  Exists (fun i => i ∉ port_ids k (g_vnfs n)) (port_ids k (g_vnfs g)).

Lemma shrinks_sum g n g1 k :
  NoDup (keys vnf_key (g_vnfs n)) ->
  g_vnfs g1 = foldl add_vnf (g_vnfs g) (vnf_deltas g n) -> shrinks g1 n k <-> shrinks g n k.
Proof.
  intros Hnd H1. unfold shrinks. rewrite !list.Exists_exists. split.
  - intros (i & Hi & Hn). exists i. split; [|done]. rewrite H1, elem_of_port_ids_adds in Hi.
    destruct Hi as [?|(v & Hv & Hk & Hi)]; [done|]. destruct Hn.
    apply list_elem_of_omap in Hv as (it & Hit & Hd). pose proof (vnf_delta_key _ _ _ Hd) as Hk'.
    unfold port_ids. rewrite <- Hk, Hk', (find_first_key vnf_key) by done.
    unfold vnf_delta in Hd. repeat case_match; simplify_eq/=; try done.
    match goal with E : missing_ports _ _ = _ |- _ => rewrite <- fmap_cons, <- E in Hi end.
    apply list_elem_of_fmap in Hi as (p & -> & Hp). apply list_elem_of_fmap_2.
    by apply list_elem_of_filter in Hp as [_ ?].
  - intros (i & Hi & Hn). exists i. split; [|done]. rewrite H1, elem_of_port_ids_adds. by left.
Qed.

#[export] Instance shrinks_dec g n k : Decision (shrinks g n k).
Proof. unfold shrinks. apply _. Defined.

(** The two steps [updateGraph_add] and [updateGraph_remove] take on the
    high-level graph. *)
Definition update_graph (g n : Graph) : res (Graph * list RuleRemovedInfo) :=
  let '(g1, _) := addGraphToGraph g (calculateDiff g n (g_id g)) in
  removeGraphFromGraph g1 (calculateDiff n g1 (g_id g)).

Section update.
Context (g n : Graph) (Hg : graph_wf g) (Hn : graph_wf n).

(** After the addition. *)
Lemma update_add :
  exists g1, addGraphToGraph g (calculateDiff g n (g_id g)) = (g1, true) /\
    g_rules g1 = g_rules g ++ fresh r_id (g_rules g) (g_rules n) /\
    g_interface g1 = g_interface g ++ fresh ei_key (g_interface g) (g_interface n) /\
    g_gre g1 = g_gre g ++ fresh eg_key (g_gre g) (g_gre n) /\
    g_internal g1 = g_internal g ++ fresh en_key (g_internal g) (g_internal n) /\
    g_vlan g1 = g_vlan g ++ fresh ev_key (g_vlan g) (g_vlan n) /\
    g_vnfs g1 = foldl add_vnf (g_vnfs g) (vnf_deltas g n).
Proof using Hg Hn.
  pose proof (calculateDiff_ok g n (g_id g) Hn) as Hd. pose proof (diff_wf _ _ _ Hn Hd) as Hwf.
  destruct (addGraphToGraph_ok g _ Hwf) as (g1 & E & []).
  { intros r Hr. rewrite (ds_rules _ _ _ Hd) in Hr. by apply elem_of_fresh in Hr as [_ ?]. }
  destruct Hd. exists g1. split; [done|].
  rewrite ss_rules0, ss_interface0, ss_gre0, ss_internal0, ss_vlan0, ss_vnfs0.
  rewrite ds_rules0, ds_interface0, ds_gre0, ds_internal0, ds_vlan0, ds_vnfs0, !fresh_idemp. done.
Qed.

Context (g1 : Graph) (Hvnfs : g_vnfs g1 = foldl add_vnf (g_vnfs g) (vnf_deltas g n)).

Lemma keys_vnfs_sum :
  keys vnf_key (g_vnfs g1)
  = keys vnf_key (g_vnfs g)
    ++ filter (fun k => k ∉ keys vnf_key (g_vnfs g)) (keys vnf_key (g_vnfs n)).
Proof using Hn Hvnfs.
  rewrite Hvnfs, keys_foldl_add_vnf.
  2: { unfold vnf_deltas. rewrite keys_vnf_deltas. apply NoDup_keys_filter, Hn. }
  f_equal. unfold vnf_deltas. rewrite keys_vnf_deltas. clear -g.
  induction (g_vnfs n) as [|v l IH]; [done|]. rewrite filter_cons. case_decide as Hd.
  - rewrite !keys_cons, !filter_cons. by case_decide; rewrite IH.
  - rewrite IH, keys_cons, filter_cons, decide_False; [done|]. intros Hk. apply Hd.
    apply vnf_delta_some. by left.
Qed.
Lemma NoDup_vnfs_sum : NoDup (keys vnf_key (g_vnfs g1)).
Proof using Hg Hn Hvnfs.
  rewrite keys_vnfs_sum. apply list.NoDup_app. split; [apply Hg|]. split.
  - intros k Hk [? _]%list_elem_of_filter. done.
  - apply list.NoDup_filter, Hn.
Qed.

(** The functions of [g1] that the removal takes out. *)
Lemma vnf_delta_sum v :
  v ∈ g_vnfs g1 ->
  is_Some (vnf_delta n v) <->
  vnf_key v ∉ keys vnf_key (g_vnfs n) \/ shrinks g n (vnf_key v).
Proof using Hg Hn Hvnfs.
  intros Hv. rewrite vnf_delta_some. rewrite <- (shrinks_sum g n g1) by (by try apply Hn).
  unfold shrinks. assert (port_ids (vnf_key v) (g_vnfs g1) = vp_id <$> v_ports v) as ->; [|done].
  unfold port_ids. by rewrite (find_first_key vnf_key) by (done || apply NoDup_vnfs_sum).
Qed.
Lemma removed_vnf_old v :
  v ∈ g_vnfs g1 -> is_Some (vnf_delta n v) ->
  exists w, w ∈ g_vnfs g /\ vnf_key w = vnf_key v.
Proof using Hg Hn Hvnfs.
  intros Hv Hd. pose proof (elem_of_keys vnf_key _ _ Hv) as Hk.
  rewrite keys_vnfs_sum, elem_of_app in Hk. destruct Hk as [(w & -> & ?)%list_elem_of_fmap|Hk]; [by eauto|].
  apply list_elem_of_filter in Hk as [Hk Hin].
  apply vnf_delta_sum in Hd as [?|Hs]; [done| |done]. exfalso. unfold shrinks, port_ids in Hs.
  destruct (find_first _ (g_vnfs g)) as [w|] eqn:E; [|by apply Exists_nil in Hs].
  apply find_first_Some in E as [Hw E%bool_decide_eq_true]. apply Hk. rewrite <- E. by apply elem_of_keys.
Qed.
End update.

(** Which functions are left when those with a difference are taken out. *)
Lemma keys_vnfs_left n l (Q : string * string -> Prop) `{!forall k, Decision (Q k)} :
  NoDup (keys vnf_key l) ->
  (forall v, v ∈ l -> is_Some (vnf_delta n v) <-> ~ Q (vnf_key v)) ->
  keys vnf_key (fresh vnf_key (omap (vnf_delta n) l) l) = filter Q (keys vnf_key l).
Proof.
  intros Hnd HQ. unfold fresh. apply keys_filter. intros v Hv.
  rewrite keys_vnf_deltas. split.
  - intros Hf. destruct (decide (Q (vnf_key v))) as [|Hq]; [done|]. destruct Hf.
    apply elem_of_keys, list_elem_of_filter. split; [by apply HQ|done].
  - intros Hq (w & E & Hw)%list_elem_of_fmap. apply list_elem_of_filter in Hw as [Hd Hw].
    assert (v = w) as <- by (by eapply (keys_inj vnf_key)). by apply HQ in Hd.
Qed.

(** What the update of [g] to [n] leaves: the rules and endpoints of [g] that [n]
    still names, followed by those only [n] has; the functions of [n], without
    those that lose a port. *)
Record updated (g n g2 : Graph) : Prop := {
  up_rules : g_rules g2 = merged r_id (g_rules g) (g_rules n);
  up_interface : g_interface g2 = merged ei_key (g_interface g) (g_interface n);
  up_gre : g_gre g2 = merged eg_key (g_gre g) (g_gre n);
  up_internal : g_internal g2 = merged en_key (g_internal g) (g_internal n);
  up_vlan : g_vlan g2 = merged ev_key (g_vlan g) (g_vlan n);
  up_vnfs : keys vnf_key (g_vnfs g2)
    = filter (fun k => k ∈ keys vnf_key (g_vnfs n) /\ ~ shrinks g n k)
        (keys vnf_key (g_vnfs g)
         ++ filter (fun k => k ∉ keys vnf_key (g_vnfs g)) (keys vnf_key (g_vnfs n)))
}.
(** What the asserts of the removal ask for: no remaining rule uses an interface
    or a function that goes. *)
Record removable (g n : Graph) : Prop := {
  rm_interface e r : e ∈ g_interface g -> ei_key e ∉ keys ei_key (g_interface n) ->
    r ∈ merged r_id (g_rules g) (g_rules n) -> rule_uses_port (ei_interface e) r = false;
  rm_vnf v r : v ∈ g_vnfs g -> vnf_key v ∉ keys vnf_key (g_vnfs n) \/ shrinks g n (vnf_key v) ->
    r ∈ merged r_id (g_rules g) (g_rules n) -> rule_uses_nf (v_name v) r = false
}.
(** One report per rule that goes. *)
Definition removed_infos (g n : Graph) : list RuleRemovedInfo :=
  (fun r => removed_info (r_action r)) <$> fresh r_id (g_rules n) (g_rules g).

Lemma update_graph_ok g n :
  graph_wf g -> graph_wf n -> removable g n ->
  exists g2, update_graph g n = Ok (g2, removed_infos g n) /\ updated g n g2.
Proof.
  intros Hg Hn [Hi Hv]. unfold update_graph.
  destruct (update_add g n Hg Hn) as (g1 & -> & Hr1 & Hi1 & Hg1 & Hn1 & Hl1 & Hv1).
  assert (Hwf1 : graph_wf g1).
  { constructor; rewrite ?Hr1, ?Hi1, ?Hg1, ?Hn1, ?Hl1;
      try (apply NoDup_sum; [apply Hg|apply Hn]). exact (NoDup_vnfs_sum g n Hg Hn g1 Hv1). }
  pose proof (calculateDiff_ok n g1 (g_id g) Hwf1) as Hd.
  pose proof (diff_wf _ _ _ Hwf1 Hd) as Hdwf. destruct Hd.
  rewrite Hr1, fresh_sum in ds_rules0. rewrite Hi1, fresh_sum in ds_interface0.
  rewrite Hg1, fresh_sum in ds_gre0. rewrite Hn1, fresh_sum in ds_internal0.
  rewrite Hl1, fresh_sum in ds_vlan0.
  assert (Hfin : fresh r_id (g_rules (calculateDiff n g1 (g_id g))) (g_rules g1)
                 = merged r_id (g_rules g) (g_rules n)) by (by rewrite ds_rules0, Hr1, update_list).
  assert (Hsub : forall A K (HK : EqDecision K) (key : A -> K) l m,
    keys key (fresh key m l) ⊆ keys key (l ++ fresh key l m)).
  { intros A K HK key l m. rewrite keys_app. intros k (x & -> & Hx)%list_elem_of_fmap.
    apply elem_of_fresh in Hx as [Hx _]. apply elem_of_app. left. by apply elem_of_keys. }
  destruct (removeGraphFromGraph_ok g1 (calculateDiff n g1 (g_id g)) Hwf1 Hdwf) as (g2 & E & Hs).
  - rewrite ds_rules0, Hr1. intros r Hr. apply elem_of_fresh in Hr as [Hr _].
    apply elem_of_app. by left.
  - rewrite ds_interface0, Hi1. apply Hsub.
  - rewrite ds_gre0, Hg1. apply Hsub.
  - rewrite ds_internal0, Hn1. apply Hsub.
  - rewrite ds_vlan0, Hl1. apply Hsub.
  - rewrite ds_vnfs0. unfold vnf_deltas. rewrite keys_vnf_deltas.
    intros k (x & -> & Hx)%list_elem_of_fmap. apply list_elem_of_filter in Hx as [_ Hx].
    by apply elem_of_keys.
  - rewrite Hfin, ds_interface0. intros e r He Hr. apply elem_of_fresh in He as [He Hne]. by apply Hi.
  - rewrite Hfin, ds_vnfs0. intros v r Hin Hr.
    apply list_elem_of_omap in Hin as (it & Hit & Hdel).
    pose proof (vnf_delta_key _ _ _ Hdel) as Hk.
    destruct (removed_vnf_old g n Hg Hn g1 Hv1 it Hit ltac:(eauto)) as (w & Hw & Hkw).
    replace (v_name v) with (v_name w) by (unfold vnf_key in *; congruence).
    apply Hv; [done| |done]. rewrite Hkw. apply (vnf_delta_sum g n Hg Hn g1 Hv1); eauto.
  - exists g2. destruct Hs. rewrite E, ds_rules0. split; [done|]. split;
      rewrite ?rs_rules0, ?rs_interface0, ?rs_gre0, ?rs_internal0, ?rs_vlan0, ?rs_vnfs0,
        ?Hfin, ?ds_interface0, ?ds_gre0, ?ds_internal0, ?ds_vlan0, ?ds_vnfs0,
        ?Hi1, ?Hg1, ?Hn1, ?Hl1, ?update_list; try done.
    rewrite <- (keys_vnfs_sum g n Hn g1 Hv1). apply (keys_vnfs_left n); [apply Hwf1|].
    intros v Hin. rewrite (vnf_delta_sum g n Hg Hn g1 Hv1 v Hin).
    destruct (decide (vnf_key v ∈ keys vnf_key (g_vnfs n))), (decide (shrinks g n (vnf_key v))); tauto.
Qed.

(** C8: updating a deployed graph [g] to a new graph [n] (the difference is
    added, then what [n] lacks is removed). The identifiers of each graph are
    distinct ([graph_wf]), and no rule left after the update uses an interface
    or a network function that goes ([removable]): rules are compared by
    identifier only, so a rule of [g] that [n] changes under its identifier
    stays as it was, and if [n] drops what it uses the removal ends in
    [assert(0)], see [changed_rule_aborts]. Under this condition the update
    finishes and leaves the rules and endpoints of [g] that [n] still names
    followed by those only [n] has; it reports one removal per rule of [g]
    that [n] lacks; and it keeps the network functions of [n], except those
    that have fewer ports in [n] than in [g], which are removed altogether. *)
Theorem update_graph_spec g n :
  graph_wf g -> graph_wf n -> removable g n ->
  exists g2, update_graph g n = Ok (g2, removed_infos g n) /\ updated g n g2.
Proof. apply update_graph_ok. Qed.

(** The asserts of the removal, as a test. *)
Definition removable_b (g n : Graph) : bool :=
  bool_decide (Forall (fun e => ei_key e ∈ keys ei_key (g_interface n) \/
      Forall (fun r => rule_uses_port (ei_interface e) r = false) (merged r_id (g_rules g) (g_rules n)))
    (g_interface g))
  && bool_decide (Forall (fun v => (vnf_key v ∈ keys vnf_key (g_vnfs n) /\ ~ shrinks g n (vnf_key v)) \/
      Forall (fun r => rule_uses_nf (v_name v) r = false) (merged r_id (g_rules g) (g_rules n)))
    (g_vnfs g)).
Lemma removable_b_true g n : removable_b g n = true -> removable g n.
Proof.
  intros [H1%bool_decide_eq_true H2%bool_decide_eq_true]%andb_true_iff. split.
  - intros e r He Hk Hr. rewrite list.Forall_forall in H1. destruct (H1 e He) as [?|H]; [done|].
    rewrite list.Forall_forall in H. auto.
  - intros v r Hv Hk Hr. rewrite list.Forall_forall in H2. destruct (H2 v Hv) as [?|H]; [tauto|].
    rewrite list.Forall_forall in H. auto.
Qed.

Lemma update_graph_spec_witness :
  exists g2, update_graph sample_graph sample_update = Ok (g2, [RemovedEndpointGre "gre1"; RemovedPort "eth1"])
    /\ r_id <$> g_rules g2 = ["1"; "3"; "5"; "6"; "7"].
Proof.
  destruct (update_graph_spec sample_graph sample_update) as (g2 & E & H).
  - by apply (bool_decide_unpack _); vm_compute.
  - by apply (bool_decide_unpack _); vm_compute.
  - apply removable_b_true. by vm_compute.
  - exists g2. split; [exact E|]. rewrite (up_rules _ _ _ H). by vm_compute.
Defined.

(** Rule "3" sends the firewall's traffic to eth0 instead of eth1, under the
    same identifier, and eth1 goes: the old rule stays and the removal of the
    interface reaches [assert(0)]. *)
Definition fw_to_eth0 : Rule := rule (on_nf "fw" 2) (to (ActionPort "eth0" "")) "3" 10.
Definition changed_graph : Graph :=
  {| g_id := "g"; g_name := ""; g_endpoints := {["7" := true]};
     g_rules := [eth0_to_fw; fw_to_eth0; fw_to_group; group_to_fw];
     g_interface := [iface "if0" "eth0"]; g_internal := [group7]; g_gre := [];
     g_vlan := []; g_vnfs := [firewall ["inout:0"; "inout:1"]] |}.
Example changed_rule_aborts : update_graph sample_graph changed_graph = Err Assert.
Proof. by vm_compute. Qed.
