(* ===== verification/LowLevel.v ===== *)
(** * The low-level graph (node_resource_manager/graph/low_level_graph)

    The rules of one switch instance (LSI): matches on a port number, actions
    that output to one, and the list of rules a controller keeps. *)

From Stdlib Require Import ZArith Lia String.
From stdpp Require Import gmap strings numbers base list.
From S2P Require Import Prelude Cpp FlowMatch HighLevel.

(** ** Match (low_level_match.cc)

    [input_port] is not initialised before [setInputPort]: [None]. *)
Record LMatch := { lm_base : Match; lm_input_port : option Z; lm_is_local_port : bool }.

Definition LMatch_new (is_local_port : bool) : LMatch :=
  {| lm_base := Match_new; lm_input_port := None; lm_is_local_port := is_local_port |}.
Definition lm_setInputPort (p : Z) (m : LMatch) : LMatch :=
  {| lm_base := lm_base m; lm_input_port := Some p; lm_is_local_port := lm_is_local_port m |}.
Definition lm_setAllCommonFields (from : Match) (m : LMatch) : res LMatch :=
  b ← setAllCommonFields from (lm_base m);
  Ok {| lm_base := b; lm_input_port := lm_input_port m; lm_is_local_port := lm_is_local_port m |}.

(** [operator==]: two port numbers that are not initialised are compared too;
    the outcome of that comparison is the parameter [garbage]. *)
Definition lm_eqb (garbage : bool) (m o : LMatch) : bool :=
  match lm_input_port m, lm_input_port o with
  | Some p, Some q => (p =? q) && isEqual (lm_base m) (lm_base o)
  | None, None => garbage && isEqual (lm_base m) (lm_base o)
  | _, _ => false
  end.

(** ** Action (output_action.cc) *)
Inductive lport := PortNo (n : Z) | PortLocal | PortNormal.
#[export] Instance lport_eq_dec : EqDecision lport.
Proof. solve_decision. Defined.

Record LAction := {
  la_port_id : option Z; la_is_local_port : bool; la_is_normal : bool;
  la_generic : list VlanAction
}.
Definition LAction_port (p : Z) : LAction :=
  {| la_port_id := Some p; la_is_local_port := false; la_is_normal := false; la_generic := [] |}.
Definition LAction_flags (is_local_port is_normal : bool) : LAction :=
  {| la_port_id := None; la_is_local_port := is_local_port; la_is_normal := is_normal;
     la_generic := [] |}.
Definition la_addGenericAction (a : LAction) (ga : VlanAction) : LAction :=
  {| la_port_id := la_port_id a; la_is_local_port := la_is_local_port a;
     la_is_normal := la_is_normal a; la_generic := la_generic a ++ [ga] |}.
(** The loop over the generic actions of a high-level action. *)
Definition la_addGenericActions (a : LAction) (gas : list VlanAction) : LAction :=
  foldl la_addGenericAction a gas.

(** [operator==] compares the port numbers only; [garbage] as above. *)
Definition la_eqb (garbage : bool) (a o : LAction) : bool :=
  match la_port_id a, la_port_id o with
  | Some p, Some q => p =? q
  | _, _ => garbage
  end.

(** ** Rules and graphs (rule.cc, graph.cc) *)
Record LRule := { lr_match : LMatch; lr_action : LAction; lr_id : string; lr_priority : Z }.
Definition lr_eqb (garbage : bool) (r o : LRule) : bool :=
  (lr_priority r =? lr_priority o) && la_eqb garbage (lr_action r) (lr_action o)
  && lm_eqb garbage (lr_match r) (lr_match o).

Definition LGraph := list LRule.
Definition lg_addRule (g : LGraph) (r : LRule) : LGraph := g ++ [r].
Definition lg_addRules (g : LGraph) (rs : list LRule) : LGraph := foldl lg_addRule g rs.
Definition lg_getRule (g : LGraph) (id : string) : out LRule :=
  match find_first (fun r => bool_decide (lr_id r = id)) g with
  | Some r => Ret r
  | None => Throw GraphException
  end.

Section removal.
Context (garbage : bool).

Definition lg_removeRule (g : LGraph) (rule : LRule) : res LGraph :=
  match erase_first (fun r => lr_eqb garbage r rule) g with Some g' => Ok g' | None => Err Assert end.
Definition lg_removeRules (g : LGraph) (rs : list LRule) : res LGraph :=
  res_fold lg_removeRule g rs.

(** True when another rule with a different identifier has the same match and action. *)
Definition lg_removeRuleFromID (g : LGraph) (id : string) : LGraph * bool :=
  match find_first (fun r => bool_decide (lr_id r = id)) g with
  | Some it =>
      (default g (erase_first (fun r => bool_decide (lr_id r = id)) g),
       existsb (fun again => negb (bool_decide (lr_id it = lr_id again)) && lr_eqb garbage it again) g)
  | None => (g, false)
  end.
End removal.

Lemma lg_addRules_app g rs : lg_addRules g rs = g ++ rs.
Proof.
  unfold lg_addRules. revert g. induction rs as [|r rs IH]; intros g; cbn; [by rewrite app_nil_r|].
  rewrite IH. unfold lg_addRule. by rewrite <- app_assoc.
Qed.
Lemma la_addGenericActions_spec a gas :
  la_addGenericActions a gas
  = {| la_port_id := la_port_id a; la_is_local_port := la_is_local_port a;
       la_is_normal := la_is_normal a; la_generic := la_generic a ++ gas |}.
Proof.
  unfold la_addGenericActions. revert a. induction gas as [|x gas IH]; intros a; cbn.
  - destruct a; cbn. by rewrite app_nil_r.
  - rewrite IH. cbn. by rewrite <- app_assoc.
Qed.

(** ** Flow-mods

    The message of a rule: its table 0 entry with the priority, the match and
    (for an addition) the actions.  A deletion is strict: it names the match
    and the priority. *)
Inductive action_op := PushVlan | SetVlanVid (v : Z) | PopVlan | Output (p : lport).
#[export] Instance action_op_eq_dec : EqDecision action_op.
Proof. solve_decision. Defined.

Definition va_ops (a : VlanAction) : list action_op :=
  match va_type a with
  | ACTION_VLAN_PUSH | ACTION_ENDPOINT_VLAN_PUSH =>
      [PushVlan; SetVlanVid (Z.lor (u16 (va_label a)) 4096)]
  | _ => [PopVlan]
  end.

(** [None]: the output goes to a port number that is not initialised. *)
Definition la_output (a : LAction) : option lport :=
  if la_is_local_port a then Some PortLocal
  else if la_is_normal a then Some PortNormal
  else PortNo <$> la_port_id a.
Definition la_ops (a : LAction) : option (list action_op) :=
  (fun p => concat (va_ops <$> la_generic a) ++ [Output p]) <$> la_output a.

(** The port of the match: the local port overrides the number. *)
Definition lm_in_port (m : LMatch) : option lport :=
  if lm_is_local_port m then Some PortLocal else PortNo <$> lm_input_port m.

Record flow_match := { fm_in_port : option lport; fm_fields : list oxm }.
#[export] Instance flow_match_eq_dec : EqDecision flow_match.
Proof. solve_decision. Defined.
Definition lm_flow (m : LMatch) : flow_match :=
  {| fm_in_port := lm_in_port m; fm_fields := match_fields (lm_base m) |}.

Inductive flow_mod :=
| FlowAdd (priority : Z) (m : flow_match) (actions : list action_op)
| FlowDeleteStrict (priority : Z) (m : flow_match).
Definition lr_flow_add (r : LRule) : option flow_mod :=
  FlowAdd (u16 (lr_priority r)) (lm_flow (lr_match r)) <$> la_ops (lr_action r).
Definition lr_flow_delete (r : LRule) : flow_mod :=
  FlowDeleteStrict (u16 (lr_priority r)) (lm_flow (lr_match r)).
