(* ===== verification/Lsi.v ===== *)
(** * Switch instances and virtual links (lsi.cc, virtual_link.cc)

    An LSI records the ports of one switch: physical ports, the ports of the
    network functions, GRE endpoints, and the virtual links to LSI-0, with the
    maps that say which network-function port, physical port or endpoint uses
    which virtual link. *)

From Stdlib Require Import ZArith Lia String.
From stdpp Require Import gmap strings numbers base list.
From S2P Require Import Prelude Cpp Keyed FlowMatch HighLevel HLGraph.

(** ** Virtual links *)
Record VLink := { vl_id : Z; vl_remote_dpid : Z; vl_local_id : Z; vl_remote_id : Z }.

(** The constructor takes the identifier from the class's counter. *)
Definition VLink_new (nextID dpid : Z) : VLink * Z :=
  ({| vl_id := nextID; vl_remote_dpid := dpid; vl_local_id := 0; vl_remote_id := 0 |}, u64 (nextID + 1)).

Inductive PortType :=
| INVALID_PORT | UNDEFINED_PORT | USVHOST_PORT | IVSHMEM_PORT | VHOST_PORT | VETH_PORT | DPDKR_PORT.

Record nfData := {
  nd_ports_type : gmap string PortType;
  nd_name_on_switch : gmap Z string;
  nd_switch_id : gmap string Z;
  nd_ports_id : list Z
}.
Definition nfData_new : nfData :=
  {| nd_ports_type := ∅; nd_name_on_switch := ∅; nd_switch_id := ∅; nd_ports_id := [] |}.

Record LSI := {
  l_address : string;
  l_port : string;
  l_dpid : Z;
  l_physical : gmap string Z;
  l_gre : list EndPointGre;
  l_ep_ids : gmap string Z;
  l_nfs : gmap string nfData;
  l_vlinks : list VLink;
  l_nfs_vlinks : gmap string Z;
  l_ports_vlinks : gmap string Z;
  l_eps_vlinks : gmap string Z;
  l_gre_vlinks : gmap string Z
}.

Definition set_l_dpid (d : Z) (l : LSI) : LSI :=
  {| l_address := l_address l; l_port := l_port l; l_dpid := d; l_physical := l_physical l;
     l_gre := l_gre l; l_ep_ids := l_ep_ids l; l_nfs := l_nfs l; l_vlinks := l_vlinks l;
     l_nfs_vlinks := l_nfs_vlinks l; l_ports_vlinks := l_ports_vlinks l;
     l_eps_vlinks := l_eps_vlinks l; l_gre_vlinks := l_gre_vlinks l |}.
Definition set_l_physical (x : gmap string Z) (l : LSI) : LSI :=
  {| l_address := l_address l; l_port := l_port l; l_dpid := l_dpid l; l_physical := x;
     l_gre := l_gre l; l_ep_ids := l_ep_ids l; l_nfs := l_nfs l; l_vlinks := l_vlinks l;
     l_nfs_vlinks := l_nfs_vlinks l; l_ports_vlinks := l_ports_vlinks l;
     l_eps_vlinks := l_eps_vlinks l; l_gre_vlinks := l_gre_vlinks l |}.
Definition set_l_gre (x : list EndPointGre) (l : LSI) : LSI :=
  {| l_address := l_address l; l_port := l_port l; l_dpid := l_dpid l; l_physical := l_physical l;
     l_gre := x; l_ep_ids := l_ep_ids l; l_nfs := l_nfs l; l_vlinks := l_vlinks l;
     l_nfs_vlinks := l_nfs_vlinks l; l_ports_vlinks := l_ports_vlinks l;
     l_eps_vlinks := l_eps_vlinks l; l_gre_vlinks := l_gre_vlinks l |}.
Definition set_l_ep_ids (x : gmap string Z) (l : LSI) : LSI :=
  {| l_address := l_address l; l_port := l_port l; l_dpid := l_dpid l; l_physical := l_physical l;
     l_gre := l_gre l; l_ep_ids := x; l_nfs := l_nfs l; l_vlinks := l_vlinks l;
     l_nfs_vlinks := l_nfs_vlinks l; l_ports_vlinks := l_ports_vlinks l;
     l_eps_vlinks := l_eps_vlinks l; l_gre_vlinks := l_gre_vlinks l |}.
Definition set_l_nfs (x : gmap string nfData) (l : LSI) : LSI :=
  {| l_address := l_address l; l_port := l_port l; l_dpid := l_dpid l; l_physical := l_physical l;
     l_gre := l_gre l; l_ep_ids := l_ep_ids l; l_nfs := x; l_vlinks := l_vlinks l;
     l_nfs_vlinks := l_nfs_vlinks l; l_ports_vlinks := l_ports_vlinks l;
     l_eps_vlinks := l_eps_vlinks l; l_gre_vlinks := l_gre_vlinks l |}.
Definition set_l_vlinks (x : list VLink) (l : LSI) : LSI :=
  {| l_address := l_address l; l_port := l_port l; l_dpid := l_dpid l; l_physical := l_physical l;
     l_gre := l_gre l; l_ep_ids := l_ep_ids l; l_nfs := l_nfs l; l_vlinks := x;
     l_nfs_vlinks := l_nfs_vlinks l; l_ports_vlinks := l_ports_vlinks l;
     l_eps_vlinks := l_eps_vlinks l; l_gre_vlinks := l_gre_vlinks l |}.
Definition set_l_maps (nfs ports eps gre : gmap string Z) (l : LSI) : LSI :=
  {| l_address := l_address l; l_port := l_port l; l_dpid := l_dpid l; l_physical := l_physical l;
     l_gre := l_gre l; l_ep_ids := l_ep_ids l; l_nfs := l_nfs l; l_vlinks := l_vlinks l;
     l_nfs_vlinks := nfs; l_ports_vlinks := ports; l_eps_vlinks := eps; l_gre_vlinks := gre |}.

(** ** Network functions *)

(** "nf_port", the name of a port of a function (nf_port_name of lsi.cc). *)
Definition nf_port_name (nf_id : string) (port_id : Z) : string := nf_port_of nf_id port_id.

(** Ports are registered until one has no type: then nothing is kept. *)
Fixpoint add_nf_ports (nf_id : string) (types : gmap Z PortType) (ports : list Z) (d : nfData)
    : option nfData :=
  match ports with
  | [] => Some d
  | p :: ports =>
      match types !! p with
      | None => None
      | Some t =>
          let name := nf_port_name nf_id p in
          add_nf_ports nf_id types ports
            {| nd_ports_type := <[name := t]> (nd_ports_type d);
               nd_name_on_switch := nd_name_on_switch d;
               nd_switch_id := <[name := 0]> (nd_switch_id d);
               nd_ports_id := nd_ports_id d |}
      end
  end.
Definition addNF (nf_id : string) (ports : list Z) (types : gmap Z PortType) (l : LSI) : LSI * bool :=
  let d := default nfData_new (l_nfs l !! nf_id) in
  let d := {| nd_ports_type := nd_ports_type d; nd_name_on_switch := nd_name_on_switch d;
              nd_switch_id := nd_switch_id d; nd_ports_id := nd_ports_id d ++ ports |} in
  match add_nf_ports nf_id types ports d with
  | Some d => (set_l_nfs (<[nf_id := d]> (l_nfs l)) l, true)
  | None => (l, false)
  end.
Definition removeNF (nf_id : string) (l : LSI) : LSI := set_l_nfs (delete nf_id (l_nfs l)) l.

(** ** Construction

    The constructor does not initialise the identifier: it is [dpid]. *)
Definition LSI_new (dpid : Z) (address port : string) (physical : gset string) (nfs : list VNFs)
    (gre : list EndPointGre) (vlinks : list VLink) (types : gmap string (gmap Z PortType)) : res LSI :=
  let l := {| l_address := address; l_port := port; l_dpid := dpid;
              l_physical := gset_to_gmap 0 physical; l_gre := []; l_ep_ids := ∅; l_nfs := ∅;
              l_vlinks := vlinks; l_nfs_vlinks := ∅; l_ports_vlinks := ∅; l_eps_vlinks := ∅;
              l_gre_vlinks := ∅ |} in
  l ← res_fold (fun l nf =>
        ports ← getPortsId nf;
        Ok (fst (addNF (v_id nf) ports (default ∅ (types !! v_id nf)) l))) l nfs;
  Ok (set_l_gre gre l).

(** ** Getters *)
Definition getNetworkFunctionsPorts (nf_id : string) (l : LSI) : gmap string Z :=
  nd_switch_id (default nfData_new (l_nfs l !! nf_id)).
Definition getNetworkFunctionPortType (nf_id name : string) (l : LSI) : PortType :=
  match l_nfs l !! nf_id with
  | None => UNDEFINED_PORT
  | Some d => default UNDEFINED_PORT (nd_ports_type d !! name)
  end.
Record nf_port_info := { pi_name : string; pi_type : PortType; pi_id : Z }.
Definition getNetworkFunctionsPortsInfo (l : LSI) : gmap string (list nf_port_info) :=
  map_imap (fun nf_id d => Some ((fun p =>
      let name := nf_port_name nf_id p in
      {| pi_name := name; pi_type := getNetworkFunctionPortType nf_id name l; pi_id := p |})
    <$> nd_ports_id d)) (l_nfs l).
Definition getVirtualLink (id : Z) (l : LSI) : res VLink :=
  match find_first (fun v => vl_id v =? id) (l_vlinks l) with
  | Some v => Ok v
  | None => Err Assert
  end.
Definition getVirtualLinksRemoteLSI (l : LSI) : list Z := vl_remote_dpid <$> l_vlinks l.
Definition getPhysicalPortsName (l : LSI) : list string := (fun '(n, _) => n) <$> map_list (l_physical l).
Definition getNetworkFunctionsPortsNameOnSwitchMap (nf_id : string) (l : LSI) : gmap Z string :=
  match l_nfs l !! nf_id with Some d => nd_name_on_switch d | None => ∅ end.

(** ** Setters *)
Definition setPhysicalPortID (port : string) (id : Z) (l : LSI) : res LSI :=
  _ ← c_assert (bool_decide (is_Some (l_physical l !! port)));
  Ok (set_l_physical (<[port := u32 id]> (l_physical l)) l).
Definition setNfSwitchPortsID (nf_id : string) (translation : gmap string Z) (l : LSI) : res LSI :=
  match l_nfs l !! nf_id with
  | None => Err Assert
  | Some d =>
      ids ← res_fold (fun ids '(name, id) =>
              _ ← c_assert (bool_decide (is_Some (ids !! name)));
              Ok (<[name := id]> ids)) (nd_switch_id d) (map_list translation);
      Ok (set_l_nfs (<[nf_id := {| nd_ports_type := nd_ports_type d;
                                   nd_name_on_switch := nd_name_on_switch d;
                                   nd_switch_id := ids; nd_ports_id := nd_ports_id d |}]> (l_nfs l)) l)
  end.
Definition setEndpointPortID (ep : string) (id : Z) (l : LSI) : res LSI :=
  _ ← c_assert (existsb (fun e => bool_decide (eg_id e = ep)) (l_gre l));
  Ok (set_l_ep_ids (<[ep := u32 id]> (l_ep_ids l)) l).
(** An entry that is there is not replaced ([map::insert]). *)
Definition setNetworkFunctionsPortsNameOnSwitch (nf_id : string) (names : gmap string Z) (l : LSI) : LSI :=
  match l_nfs l !! nf_id with
  | None => l
  | Some d =>
      let m := foldl (fun m '(name, id) =>
                  match m !! id with Some _ => m | None => <[id := name]> m end)
                (nd_name_on_switch d) (map_list names) in
      set_l_nfs (<[nf_id := {| nd_ports_type := nd_ports_type d; nd_name_on_switch := m;
                               nd_switch_id := nd_switch_id d; nd_ports_id := nd_ports_id d |}]> (l_nfs l)) l
  end.
(** Writing past the end of the vector is undefined. *)
Definition setVLinkIDs (position : nat) (localID remoteID : Z) (l : LSI) : res LSI :=
  match l_vlinks l !! position with
  | None => Err Oob
  | Some v =>
      Ok (set_l_vlinks (<[position := {| vl_id := vl_id v; vl_remote_dpid := vl_remote_dpid v;
                                         vl_local_id := localID; vl_remote_id := remoteID |}]>
                          (l_vlinks l)) l)
  end.

(** [map::insert] of every element: entries that are there stay. *)
Definition setNFsVLinks (m : gmap string Z) (l : LSI) : LSI :=
  set_l_maps (l_nfs_vlinks l ∪ m) (l_ports_vlinks l) (l_eps_vlinks l) (l_gre_vlinks l) l.
Definition setPortsVLinks (m : gmap string Z) (l : LSI) : LSI :=
  set_l_maps (l_nfs_vlinks l) (l_ports_vlinks l ∪ m) (l_eps_vlinks l) (l_gre_vlinks l) l.
Definition setEndPointsVLinks (m : gmap string Z) (l : LSI) : LSI :=
  set_l_maps (l_nfs_vlinks l) (l_ports_vlinks l) (l_eps_vlinks l ∪ m) (l_gre_vlinks l) l.
Definition setEndPointsGreVLinks (m : gmap string Z) (l : LSI) : LSI :=
  set_l_maps (l_nfs_vlinks l) (l_ports_vlinks l) (l_eps_vlinks l) (l_gre_vlinks l ∪ m) l.
Definition addNFvlink (k : string) (id : Z) (l : LSI) : LSI :=
  set_l_maps (<[k := id]> (l_nfs_vlinks l)) (l_ports_vlinks l) (l_eps_vlinks l) (l_gre_vlinks l) l.
Definition addPortvlink (k : string) (id : Z) (l : LSI) : LSI :=
  set_l_maps (l_nfs_vlinks l) (<[k := id]> (l_ports_vlinks l)) (l_eps_vlinks l) (l_gre_vlinks l) l.
Definition addEndpointInternalvlink (k : string) (id : Z) (l : LSI) : LSI :=
  set_l_maps (l_nfs_vlinks l) (l_ports_vlinks l) (<[k := id]> (l_eps_vlinks l)) (l_gre_vlinks l) l.
Definition addEndpointGrevlink (k : string) (id : Z) (l : LSI) : LSI :=
  set_l_maps (l_nfs_vlinks l) (l_ports_vlinks l) (l_eps_vlinks l) (<[k := id]> (l_gre_vlinks l)) l.

Definition has_key {V} (m : gmap string V) (k : string) : bool := bool_decide (is_Some (m !! k)).
Definition removeNFvlink (k : string) (l : LSI) : res LSI :=
  _ ← c_assert (has_key (l_nfs_vlinks l) k);
  Ok (set_l_maps (delete k (l_nfs_vlinks l)) (l_ports_vlinks l) (l_eps_vlinks l) (l_gre_vlinks l) l).
Definition removePortvlink (k : string) (l : LSI) : res LSI :=
  _ ← c_assert (has_key (l_ports_vlinks l) k);
  Ok (set_l_maps (l_nfs_vlinks l) (delete k (l_ports_vlinks l)) (l_eps_vlinks l) (l_gre_vlinks l) l).
Definition removeEndPointvlink (k : string) (l : LSI) : res LSI :=
  _ ← c_assert (has_key (l_eps_vlinks l) k);
  Ok (set_l_maps (l_nfs_vlinks l) (l_ports_vlinks l) (delete k (l_eps_vlinks l)) (l_gre_vlinks l) l).
Definition removeEndPointGrevlink (k : string) (l : LSI) : res LSI :=
  _ ← c_assert (has_key (l_gre_vlinks l) k);
  Ok (set_l_maps (l_nfs_vlinks l) (l_ports_vlinks l) (l_eps_vlinks l) (delete k (l_gre_vlinks l)) l).

Definition addEndpoint (e : EndPointGre) (l : LSI) : LSI := set_l_gre (l_gre l ++ [e]) l.
Definition removeEndpoint (ep : string) (l : LSI) : res LSI :=
  match erase_first (fun e => bool_decide (eg_id e = ep)) (l_gre l) with
  | Some g => Ok (set_l_gre g l)
  | None => Err Assert
  end.
Definition addVlink (v : VLink) (l : LSI) : LSI * nat :=
  (set_l_vlinks (l_vlinks l ++ [v]) l, length (l_vlinks l)).
Definition removeVlink (id : Z) (l : LSI) : res LSI :=
  match erase_first (fun v => vl_id v =? id) (l_vlinks l) with
  | Some vs => Ok (set_l_vlinks vs l)
  | None => Err Assert
  end.
