(* ===== verification/Vlinks.v ===== *)
(** * Virtual links between a tenant LSI and LSI-0 (graph_manager.cc)

    Which virtual links the rules of a graph need, how [newGraph] and
    [updateGraph_add] assign them, and how [removeUselessVlinks] takes them
    away.  A link carries traffic both ways: upwards to a port of a function or
    to a tunnel, downwards to a physical port or to an internal endpoint.  The
    switch is a parameter: class [LinkSwitch], with what its documentation
    promises in [LinkSwitchLaws]. *)

From Stdlib Require Import ZArith Lia String.
From stdpp Require Import gmap strings numbers base list.
From S2P Require Import Prelude Cpp Keyed FlowMatch HighLevel HLGraph LowLevel Lsi.

(** ** The links the rules need *)

(** A point that a link serves, by the map of the LSI that records it. *)
Inductive vkey := VNf (nf_port : string) | VPort (port : string) | VGre (ep : string) | VInt (group : string).
#[export] Instance vkey_eq_dec : EqDecision vkey.
Proof. solve_decision. Defined.
Definition upward (k : vkey) : bool := match k with VNf _ | VGre _ => true | VPort _ | VInt _ => false end.

(** The link a rule needs, branch by branch of the two loops. *)
Definition rule_key (r : Rule) : option vkey :=
  let m := r_match r in
  match a_output (r_action r) with
  | ActionNetworkFunction nfId _ port =>
      if matchOnPort m || matchOnEndPointInternal m then Some (VNf (nf_port_of nfId port)) else None
  | ActionEndPointGre _ _ =>
      if matchOnPort m || matchOnEndPointInternal m then Some (VGre (a_toString (r_action r))) else None
  | ActionPort portName _ =>
      if matchOnNF m || matchOnEndPointGre m then Some (VPort portName) else None
  | ActionEndPointInternal _ _ =>
      if negb (matchOnPort m) && negb (matchOnEndPointInternal m)
      then Some (VInt (a_toString (r_action r))) else None
  end.

(** The vector of four sets that is returned. *)
Record vset := {
  need_nfs : gset string; need_ports : gset string; need_gre : gset string; need_internal : gset string
}.
Definition vset_empty : vset := {| need_nfs := ∅; need_ports := ∅; need_gre := ∅; need_internal := ∅ |}.
Definition vset_insert (k : vkey) (s : vset) : vset :=
  match k with
  | VNf x => {| need_nfs := {[x]} ∪ need_nfs s; need_ports := need_ports s;
                need_gre := need_gre s; need_internal := need_internal s |}
  | VPort x => {| need_nfs := need_nfs s; need_ports := {[x]} ∪ need_ports s;
                  need_gre := need_gre s; need_internal := need_internal s |}
  | VGre x => {| need_nfs := need_nfs s; need_ports := need_ports s;
                 need_gre := {[x]} ∪ need_gre s; need_internal := need_internal s |}
  | VInt x => {| need_nfs := need_nfs s; need_ports := need_ports s;
                 need_gre := need_gre s; need_internal := {[x]} ∪ need_internal s |}
  end.
Definition vset_in (k : vkey) (s : vset) : Prop :=
  match k with
  | VNf x => x ∈ need_nfs s | VPort x => x ∈ need_ports s
  | VGre x => x ∈ need_gre s | VInt x => x ∈ need_internal s
  end.

(** The link recorded for a point. *)
Definition vlookup (l : LSI) (k : vkey) : option Z :=
  match k with
  | VNf x => l_nfs_vlinks l !! x | VPort x => l_ports_vlinks l !! x
  | VGre x => l_gre_vlinks l !! x | VInt x => l_eps_vlinks l !! x
  end.

Definition identifyVirtualLinksRequired (rules : list Rule) : vset :=
  foldl (fun s r => match rule_key r with Some k => vset_insert k s | None => s end) vset_empty rules.
(** The overload for an update: only points that have no link yet. *)
Definition identifyVirtualLinksRequired_new (rules : list Rule) (l : LSI) : vset :=
  foldl (fun s r => match rule_key r with
                    | Some k => match vlookup l k with None => vset_insert k s | Some _ => s end
                    | None => s
                    end) vset_empty rules.

(** ** A new graph *)

(** [toUp], [toDown] and the larger of the two, as [unsigned int]. *)
Definition numberOfVLrequired (s : vset) : Z :=
  let toUp := u32 (Z.of_nat (size (need_nfs s)) + Z.of_nat (size (need_gre s))) in
  let toDown := u32 (Z.of_nat (size (need_ports s)) + Z.of_nat (size (need_internal s))) in
  if toDown <? toUp then toUp else toDown.

(** [push_back(VLink(dpid0))], [n] times. *)
Fixpoint make_vlinks (n : nat) (dpid0 nextID : Z) : list VLink * Z :=
  match n with
  | O => ([], nextID)
  | S n =>
      let '(v, nextID) := VLink_new nextID dpid0 in
      let '(vs, nextID) := make_vlinks n dpid0 nextID in
      (v :: vs, nextID)
  end.

(** The numbers the switch gave, position by position. *)
Definition set_vlink_ids (pairs : list (Z * Z)) (l : LSI) : res LSI :=
  '(l, _) ← res_fold (fun '(l, i) '(a, b) => l ← setVLinkIDs i a b l; Ok (l, S i)) (l, O) pairs;
  Ok l.

(** Assigns the links from the iterator [vls] on to the names; the iterator is
    given back.  Reading at the end of the vector is undefined. *)
Fixpoint associate (names : list string) (vls : list VLink) (m : gmap string Z)
    : res (gmap string Z * list VLink) :=
  match names with
  | [] => Ok (m, vls)
  | x :: names =>
      match vls with
      | [] => Err Oob
      | v :: vls => associate names vls (<[x := vl_id v]> m)
      end
  end.
Definition associate_vlinks (s : vset) (l : LSI) : res LSI :=
  match l_vlinks l with
  | [] => Ok l
  | vls =>
      '(nfs, vlToUp) ← associate (set_list (need_nfs s)) vls ∅;
      let l := setNFsVLinks nfs l in
      '(ports, vlToDown) ← associate (set_list (need_ports s)) vls ∅;
      let l := setPortsVLinks ports l in
      '(gre, _) ← associate (set_list (need_gre s)) vlToUp ∅;
      let l := setEndPointsGreVLinks gre l in
      '(eps, _) ← associate (set_list (need_internal s)) vlToDown ∅;
      Ok (setEndPointsVLinks eps l)
  end.

(** ** An update *)

(** The calls of the switch manager that concern virtual links: the port
    numbers at the two ends come back, or an exception is thrown. *)
Class LinkSwitch (SW : Type) := {
  addVirtualLink (dpidA dpidB : Z) : SW -> SW * out (Z * Z);
  destroyVirtualLink (dpidA idA dpidB idB : Z) : SW -> SW * out unit
}.

Section update.
Context {SW : Type} `{!LinkSwitch SW} (dpid0 : Z).

Record vstate := { vs_lsi : LSI; vs_next : Z; vs_sw : SW }.
Definition set_vs_lsi (l : LSI) (s : vstate) : vstate :=
  {| vs_lsi := l; vs_next := vs_next s; vs_sw := vs_sw s |}.
Definition on_lsi {A} (f : LSI -> LSI * A) : prog vstate A := fun s =>
  let '(l, a) := f (vs_lsi s) in (set_vs_lsi l s, Ret a).
Definition on_lsi_res (f : LSI -> res LSI) : prog vstate unit := fun s =>
  match f (vs_lsi s) with Ok l => (set_vs_lsi l s, Ret tt) | Err e => (s, Halt e) end.
Definition on_switch {A} (f : SW -> SW * out A) : prog vstate A := fun s =>
  let '(sw, o) := f (vs_sw s) in ({| vs_lsi := vs_lsi s; vs_next := vs_next s; vs_sw := sw |}, o).
Definition new_vlink : prog vstate VLink := fun s =>
  let '(v, n) := VLink_new (vs_next s) dpid0 in
  ({| vs_lsi := vs_lsi s; vs_next := n; vs_sw := vs_sw s |}, Ret v).

(** The link is recorded for a point. *)
Definition use_link (id : Z) (k : vkey) (l : LSI) : LSI :=
  match k with
  | VNf x => addNFvlink x id l
  | VPort x => addPortvlink x id l
  | VGre x => addEndpointGrevlink x id l
  | VInt x => addEndpointInternalvlink x id l
  end.
(** A new link, created on the switch and recorded for the points of [uses].
    The loop for internal endpoints has no assert on the identifier: [check]. *)
Definition add_vlink (check : bool) (uses : list vkey) : prog vstate unit :=
  try_catch SwitchManagerException
    (dpid ← gets (fun s => l_dpid (vs_lsi s));
     newLink ← new_vlink;
     pos ← on_lsi (addVlink newLink);
     '(idA, idB) ← on_switch (addVirtualLink dpid dpid0);
     _ ← on_lsi_res (setVLinkIDs pos idA idB);
     l ← gets vs_lsi;
     vlink ← of_out (of_res (getVirtualLink (vl_id newLink) l));
     _ ← prog_assert (negb check || (vl_id newLink =? vl_id vlink));
     modify (fun s => set_vs_lsi (foldl (fun l k => use_link (vl_id newLink) k l) (vs_lsi s) uses) s))
    (throw GraphManagerException).

(** The two iterators of the first loop advance together. *)
Fixpoint share (nfs ports : list string) : list (list vkey) :=
  match nfs with
  | [] => (fun p => [VPort p]) <$> ports
  | nf :: nfs =>
      match ports with
      | [] => [VNf nf] :: share nfs []
      | p :: ports => [VNf nf; VPort p] :: share nfs ports
      end
  end.
(** Step 3-a of [updateGraph_add]. *)
Definition updateGraph_add_vlinks (diff : list Rule) : prog vstate unit :=
  l ← gets vs_lsi;
  let s := identifyVirtualLinksRequired_new diff l in
  _ ← for_each (add_vlink true) (share (set_list (need_nfs s)) (set_list (need_ports s)));
  _ ← for_each (fun ep => add_vlink true [VGre ep]) (set_list (need_gre s));
  for_each (fun ep => add_vlink false [VInt ep]) (set_list (need_internal s)).

(** ** Removal *)

Definition info_key (rri : RuleRemovedInfo) : vkey :=
  match rri with
  | RemovedPort x => VPort x
  | RemovedNFport x => VNf x
  | RemovedEndpointGre x => VGre x
  | RemovedEndpointInternal x => VInt x
  end.
Definition remove_vkey (k : vkey) (l : LSI) : res LSI :=
  match k with
  | VNf x => removeNFvlink x l
  | VPort x => removePortvlink x l
  | VGre x => removeEndPointGrevlink x l
  | VInt x => removeEndPointvlink x l
  end.
(** A rule that is left still uses the point over a link. *)
Definition still_uses (k : vkey) (r : Rule) : bool :=
  let m := r_match r in
  match k, a_output (r_action r) with
  | VNf x, ActionNetworkFunction nfId _ port =>
      (matchOnEndPointInternal m || matchOnPort m) && bool_decide (nf_port_of nfId port = x)
  | VGre x, ActionEndPointGre _ _ =>
      (matchOnEndPointInternal m || matchOnPort m) && bool_decide (a_toString (r_action r) = x)
  | VPort x, ActionPort portName _ =>
      (matchOnEndPointGre m || matchOnNF m) && bool_decide (portName = x)
  | VInt x, ActionEndPointInternal _ _ =>
      (matchOnEndPointGre m || matchOnNF m) && bool_decide (a_toString (r_action r) = x)
  | _, _ => false
  end.
(** An entry of a map has this link. *)
Definition has_link (m : gmap string Z) (id : Z) : bool :=
  existsb (fun '(_, i) => i =? id) (map_list m).
(** The link is used in the direction opposite to that of [k]: the maps are
    those read at the start. *)
Definition used_opposite (k : vkey) (l : LSI) (id : Z) : bool :=
  if upward k then has_link (l_ports_vlinks l) id || has_link (l_eps_vlinks l) id
  else has_link (l_nfs_vlinks l) id || has_link (l_gre_vlinks l) id.

(** One of the four flags of the removed rule is set. *)
Definition removeUselessVlinks (rules : list Rule) (rri : RuleRemovedInfo) : prog vstate unit :=
  l ← gets vs_lsi;
  let k := info_key rri in
  match vlookup l k with
  | None => mret tt
  | Some tobeRemovedID =>
      if existsb (still_uses k) rules then mret tt
      else
        _ ← on_lsi_res (remove_vkey k);
        if used_opposite k l tobeRemovedID then mret tt
        else
          try_catch SwitchManagerException
            (l ← gets vs_lsi;
             toBeRemoved ← of_out (of_res (getVirtualLink tobeRemovedID l));
             _ ← on_switch (destroyVirtualLink (l_dpid l) (vl_local_id toBeRemoved)
                              (vl_remote_dpid toBeRemoved) (vl_remote_id toBeRemoved));
             on_lsi_res (removeVlink tobeRemovedID))
            (throw GraphManagerException)
  end.
(** Step 3 of [updateGraph_remove]. *)
Definition updateGraph_remove_vlinks (rules : list Rule) (infos : list RuleRemovedInfo)
    : prog vstate unit :=
  for_each (removeUselessVlinks rules) infos.
End update.
#[global] Arguments vstate : clear implicits.

(** ** What the sets hold *)

Lemma vset_in_insert k k' s : vset_in k (vset_insert k' s) <-> k = k' \/ vset_in k s.
Proof. destruct k, k'; cbn; set_solver. Qed.
Lemma vset_in_empty k : ~ vset_in k vset_empty.
Proof. destruct k; cbn; set_solver. Qed.

Definition needed (rules : list Rule) (k : vkey) : Prop :=
  exists r, r ∈ rules /\ rule_key r = Some k.
#[export] Instance needed_dec rules k : Decision (needed rules k).
Proof.
  refine (cast_if (decide (Exists (fun r => rule_key r = Some k) rules)));
    [by apply list.Exists_exists|by intros H%list.Exists_exists].
Defined.

Lemma needed_cons r rules k : needed (r :: rules) k <-> rule_key r = Some k \/ needed rules k.
Proof.
  unfold needed. split.
  - intros (r' & [->|Hr]%elem_of_cons & E); [by left|right; eauto].
  - intros [E|(r' & Hr & E)]; [exists r|exists r']; (split; [|done]); [left|by right].
Qed.
Lemma needed_nil k : ~ needed [] k.
Proof. by intros (? & []%elem_of_nil & _). Qed.
Lemma needed_app l1 l2 k : needed (l1 ++ l2) k <-> needed l1 k \/ needed l2 k.
Proof.
  induction l1 as [|r l1 IH]; cbn [app]; [pose proof (needed_nil k); tauto|].
  rewrite !needed_cons, IH. tauto.
Qed.

Lemma identify_fold (f : vkey -> bool) rules s k :
  vset_in k (foldl (fun s r => match rule_key r with
                    | Some k => if f k then vset_insert k s else s
                    | None => s end) s rules)
  <-> vset_in k s \/ (needed rules k /\ f k = true).
Proof.
  revert s. induction rules as [|r rules IH]; intros s; cbn [foldl].
  - pose proof (needed_nil k). tauto.
  - rewrite IH, needed_cons. destruct (rule_key r) as [k0|] eqn:Er.
    + assert (Hk : Some k0 = Some k <-> k = k0) by (split; congruence). rewrite Hk. clear Hk.
      assert (Hf : k = k0 -> f k = f k0) by congruence.
      destruct (f k0) eqn:Ef; [rewrite vset_in_insert|]; destruct (f k); naive_solver.
    + assert (Hk : None = Some k <-> False) by done. rewrite Hk. tauto.
Qed.
Lemma identify_in rules k : vset_in k (identifyVirtualLinksRequired rules) <-> needed rules k.
Proof.
  unfold identifyVirtualLinksRequired.
  pose proof (identify_fold (fun _ => true) rules vset_empty k) as H. cbn beta iota in H.
  rewrite H. pose proof (vset_in_empty k). tauto.
Qed.
Lemma identify_new_in rules l k :
  vset_in k (identifyVirtualLinksRequired_new rules l) <-> needed rules k /\ vlookup l k = None.
Proof.
  unfold identifyVirtualLinksRequired_new.
  pose proof (identify_fold (fun k => bool_decide (vlookup l k = None)) rules vset_empty k) as H.
  cbn beta in H. rewrite bool_decide_eq_true in H.
  transitivity (vset_in k vset_empty \/ needed rules k /\ vlookup l k = None).
  - rewrite <- H. clear H. revert k. generalize vset_empty.
    induction rules as [|r rules IH]; intros s k; cbn [foldl]; [done|].
    rewrite <- IH. by destruct (rule_key r) as [k0|]; [destruct (vlookup l k0)|].
  - pose proof (vset_in_empty k). tauto.
Qed.
