(* ===== verification/VlinksOk.v ===== *)
(** * The virtual links are the ones the rules need

    The invariant of a tenant LSI's virtual links, and that the assignment of
    [newGraph], the additions of [updateGraph_add] and the removals of
    [updateGraph_remove] keep it, with the switch holding exactly the links the
    LSI records. *)

From Stdlib Require Import ZArith Lia String.
From stdpp Require Import gmap strings numbers base list propset.
From S2P Require Import Prelude Cpp Keyed FlowMatch HighLevel HLGraph HLUpdate LowLevel Lsi Vlinks.

(** ** The invariant

    [need] tells the points that need a link.  Exactly those have one; each
    link serves a point, and at most one in each direction. *)
Record vl_ok (need : vkey -> Prop) (l : LSI) : Prop := {
  ok_dom k : is_Some (vlookup l k) <-> need k;
  ok_ids : NoDup (keys vl_id (l_vlinks l));
  ok_link k id : vlookup l k = Some id -> id ∈ keys vl_id (l_vlinks l);
  ok_used v : v ∈ l_vlinks l -> exists k, vlookup l k = Some (vl_id v);
  ok_own k k' id : vlookup l k = Some id -> vlookup l k' = Some id -> upward k = upward k' -> k = k'
}.

(** Identifiers given out so far are below the counter. *)
Definition ids_below (n : Z) (l : LSI) : Prop := forall v, v ∈ l_vlinks l -> vl_id v < n.

Lemma vl_ok_ext P Q l : (forall k, P k <-> Q k) -> vl_ok P l -> vl_ok Q l.
Proof. intros E []. split; auto. intros k. by rewrite <- E. Qed.

(** Only the links and the four maps matter. *)
Lemma vl_ok_same P l l' :
  (forall k, vlookup l' k = vlookup l k) -> keys vl_id (l_vlinks l') = keys vl_id (l_vlinks l) ->
  vl_ok P l -> vl_ok P l'.
Proof.
  intros El Ev [Hd Hi Hl Hu Ho]. split.
  - intros k. by rewrite El.
  - by rewrite Ev.
  - intros k id. rewrite El, Ev. apply Hl.
  - intros v Hv. assert (Hin : vl_id v ∈ keys vl_id (l_vlinks l')) by (by apply list_elem_of_fmap_2).
    rewrite Ev in Hin. apply list_elem_of_fmap in Hin as (v' & Ev' & Hv'). rewrite Ev'.
    destruct (Hu v' Hv') as [k Hk]. exists k. by rewrite El.
  - intros k k' id. rewrite !El. apply Ho.
Qed.

(** ** Lookups after the elementary operations *)

Lemma vlookup_use id k l k' :
  vlookup (use_link id k l) k' = if decide (k' = k) then Some id else vlookup l k'.
Proof.
  destruct k, k'; cbn; try (by case_decide); case_decide as Hk; simplify_eq;
    try (by rewrite lookup_insert_eq); rewrite lookup_insert_ne; congruence.
Qed.
Lemma vlinks_use id k l : l_vlinks (use_link id k l) = l_vlinks l.
Proof. by destruct k. Qed.
Lemma dpid_use id k l : l_dpid (use_link id k l) = l_dpid l.
Proof. by destruct k. Qed.

Lemma use_links id ks l :
  let l' := foldl (fun l k => use_link id k l) l ks in
  l_vlinks l' = l_vlinks l /\ l_dpid l' = l_dpid l
  /\ forall k, vlookup l' k = if decide (k ∈ ks) then Some id else vlookup l k.
Proof.
  cbn zeta. revert l. induction ks as [|k0 ks IH]; intros l; cbn [foldl].
  - split; [done|]. split; [done|]. intros k. rewrite decide_False; [done|apply not_elem_of_nil].
  - destruct (IH (use_link id k0 l)) as (-> & -> & H). rewrite vlinks_use, dpid_use.
    split; [done|]. split; [done|]. intros k. rewrite H, vlookup_use.
    repeat case_decide; try done; exfalso; subst; set_solver.
Qed.

Lemma remove_vkey_ok k l id :
  vlookup l k = Some id ->
  exists l', remove_vkey k l = Ok l' /\ l_vlinks l' = l_vlinks l /\ l_dpid l' = l_dpid l
    /\ forall k', vlookup l' k' = if decide (k' = k) then None else vlookup l k'.
Proof.
  intros Hk. destruct k; cbn in Hk |- *.
  all: unfold removeNFvlink, removePortvlink, removeEndPointGrevlink, removeEndPointvlink, has_key.
  all: rewrite bool_decide_eq_true_2 by eauto; cbn; eexists; (split; [done|]); (split; [done|]);
    (split; [done|]); intros k'; destruct k'; cbn; try (by case_decide); case_decide as Ek; simplify_eq;
    try (by rewrite lookup_delete_eq); rewrite lookup_delete_ne; congruence.
Qed.

Lemma has_link_true m id : has_link m id = true <-> exists x, m !! x = Some id.
Proof.
  unfold has_link. rewrite existsb_exists. split.
  - intros ([x i] & Hx%list_elem_of_In & Hi%Z.eqb_eq). subst. exists x. by apply elem_of_map_list.
  - intros (x & Hx). exists (x, id). split; [|apply Z.eqb_refl].
    by apply list_elem_of_In, elem_of_map_list.
Qed.
Lemma used_opposite_true k l id :
  used_opposite k l id = true <-> exists k', upward k' = negb (upward k) /\ vlookup l k' = Some id.
Proof.
  unfold used_opposite. destruct (upward k); rewrite orb_true_iff, !has_link_true; cbn [negb]; split.
  - intros [[x Hx]|[x Hx]]; [by exists (VPort x)|by exists (VInt x)].
  - intros ([x|x|x|x] & Hu & Hx); try done; [left|right]; by exists x.
  - intros [[x Hx]|[x Hx]]; [by exists (VNf x)|by exists (VGre x)].
  - intros ([x|x|x|x] & Hu & Hx); try done; [left|right]; by exists x.
Qed.

(** ** Adding and dropping *)

Definition with_vlink (v : VLink) (l : LSI) : LSI := set_l_vlinks (l_vlinks l ++ [v]) l.

Lemma vl_ok_add P l v ks :
  vl_ok P l -> (forall w, w ∈ l_vlinks l -> vl_id w <> vl_id v) ->
  ks <> [] -> (forall k, k ∈ ks -> ~ P k) ->
  (forall k k', k ∈ ks -> k' ∈ ks -> upward k = upward k' -> k = k') ->
  vl_ok (fun k => P k \/ k ∈ ks) (foldl (fun l k => use_link (vl_id v) k l) (with_vlink v l) ks).
Proof.
  intros [Hd Hi Hl Hu Ho] Hfresh Hks HP Hdir. destruct (use_links (vl_id v) ks (with_vlink v l)) as (Ev & _ & Elk).
  cbn in Ev. change (forall k, vlookup (foldl (fun l k => use_link (vl_id v) k l) (with_vlink v l) ks) k
    = if decide (k ∈ ks) then Some (vl_id v) else vlookup l k) in Elk.
  assert (Hold : forall k, vlookup l k <> Some (vl_id v)).
  { intros k Hk. apply Hl, list_elem_of_fmap in Hk as (w & Ew & Hw). by destruct (Hfresh w Hw). }
  split.
  - intros k. rewrite Elk. case_decide; [split; eauto|]. rewrite Hd. tauto.
  - rewrite Ev. unfold keys. rewrite fmap_app. apply list.NoDup_app. split; [done|]. split.
    + intros x (w & -> & Hw)%list_elem_of_fmap Hx%list_elem_of_singleton. by destruct (Hfresh w Hw).
    + apply NoDup_singleton.
  - intros k id. rewrite Elk, Ev. unfold keys. rewrite fmap_app, elem_of_app. case_decide.
    + intros [= <-]. right. by left.
    + intros Hk. left. by apply Hl in Hk.
  - intros w. rewrite Ev, elem_of_app. intros [Hw|Hw%list_elem_of_singleton].
    + destruct (Hu w Hw) as [k Hk]. exists k. rewrite Elk, decide_False; [done|].
      intros Hin. apply (HP k Hin), Hd. eauto.
    + subst. destruct ks as [|k ks]; [done|]. exists k. rewrite Elk, decide_True; [done|left].
  - intros k k' id. rewrite !Elk. repeat case_decide; intros E1 E2 Hup.
    + by apply Hdir.
    + injection E1 as <-. by destruct (Hold k').
    + injection E2 as <-. by destruct (Hold k).
    + by eapply Ho.
Qed.

Lemma keys_erase id (vs vs' : list VLink) :
  NoDup (keys vl_id vs) -> erase_first (fun v => vl_id v =? id) vs = Some vs' ->
  NoDup (keys vl_id vs') /\ forall v, v ∈ vs' <-> v ∈ vs /\ vl_id v <> id.
Proof.
  intros Hnd He. apply erase_first_Some in He as (l1 & x & l2 & -> & -> & Hx%Z.eqb_eq & Hl1).
  unfold keys in *. rewrite fmap_app, fmap_cons in Hnd. rewrite fmap_app.
  apply list.NoDup_app in Hnd as (N1 & N2 & N3). apply NoDup_cons in N3 as [N3 N4]. split.
  - apply list.NoDup_app. split; [done|]. split; [|done]. intros y H1 H2. apply (N2 y H1). by right.
  - intros v. rewrite !elem_of_app, elem_of_cons. split.
    + intros [Hv|Hv].
      * split; [by left|]. intros E. apply (N2 id); [|rewrite Hx; left].
        rewrite <- E. by apply list_elem_of_fmap_2.
      * split; [by right; right|]. intros E. apply N3. rewrite Hx, <- E. by apply list_elem_of_fmap_2.
    + intros [[?|[->|?]] Hv]; [by left|done|by right].
Qed.

(** An entry goes, and its link with it unless it carries traffic the other way. *)
Lemma vl_ok_drop P l k id l1 :
  vl_ok P l -> vlookup l k = Some id -> l_vlinks l1 = l_vlinks l ->
  (forall k', vlookup l1 k' = if decide (k' = k) then None else vlookup l k') ->
  used_opposite k l id = true -> vl_ok (fun k' => P k' /\ k' <> k) l1.
Proof.
  intros [Hd Hi Hl Hu Ho] Hk Ev El Hopp. split.
  - intros k'. rewrite El. case_decide as E; [split; [by intros []|tauto]|]. rewrite Hd. tauto.
  - by rewrite Ev.
  - intros k' i. rewrite El, Ev. case_decide; [done|]. apply Hl.
  - intros v. rewrite Ev. intros Hv. destruct (Hu v Hv) as [k' Hk'].
    destruct (decide (k' = k)) as [->|Hne].
    + apply used_opposite_true in Hopp as (k2 & Hdir & Hk2). exists k2. rewrite El, decide_False; [congruence|].
      intros ->. by destruct (upward k).
    + exists k'. by rewrite El, decide_False.
  - intros a b i. rewrite !El. repeat case_decide; try done. apply Ho.
Qed.
Lemma vl_ok_drop_link P l k id l1 vs :
  vl_ok P l -> vlookup l k = Some id -> l_vlinks l1 = l_vlinks l ->
  (forall k', vlookup l1 k' = if decide (k' = k) then None else vlookup l k') ->
  used_opposite k l id = false ->
  erase_first (fun v => vl_id v =? id) (l_vlinks l1) = Some vs ->
  vl_ok (fun k' => P k' /\ k' <> k) (set_l_vlinks vs l1).
Proof.
  intros [Hd Hi Hl Hu Ho] Hk Ev El Hopp He. rewrite Ev in He. destruct (keys_erase _ _ _ Hi He) as [Hnd Hin].
  change (forall k', vlookup (set_l_vlinks vs l1) k' = if decide (k' = k) then None else vlookup l k') in El.
  assert (Hother : forall k', k' <> k -> vlookup l k' <> Some id).
  { intros k' Hne Hk'. destruct (decide (upward k' = upward k)) as [E|E].
    - by apply Hne, (Ho _ _ id).
    - assert (used_opposite k l id = true) as Ht; [|congruence].
      apply used_opposite_true. exists k'. split; [|done]. by destruct (upward k), (upward k'). }
  split.
  - intros k'. rewrite El. case_decide as E; [split; [by intros []|tauto]|]. rewrite Hd. tauto.
  - done.
  - intros k' i. rewrite El. case_decide as E; [done|]. intros Hi'. cbn.
    pose proof (Hl _ _ Hi') as Hin'. apply list_elem_of_fmap in Hin' as (v & -> & Hv).
    apply list_elem_of_fmap_2, Hin. split; [done|]. intros Ei. rewrite Ei in Hi'. by destruct (Hother _ E).
  - intros v [Hv Hne]%Hin. destruct (Hu v Hv) as [k' Hk']. exists k'. rewrite El, decide_False; [done|].
    intros ->. congruence.
  - intros a b i. rewrite !El. repeat case_decide; try done. apply Ho.
Qed.

(** ** A new graph *)

Lemma associate_ok names vls m :
  NoDup names -> (length names <= length vls)%nat ->
  exists m', associate names vls m = Ok (m', drop (length names) vls)
    /\ (forall i x, names !! i = Some x -> m' !! x = vl_id <$> vls !! i)
    /\ (forall x, x ∉ names -> m' !! x = m !! x).
Proof.
  revert vls m. induction names as [|x names IH]; intros vls m Hnd Hlen; cbn [associate length].
  - exists m. rewrite drop_0. split; [done|]. split; [|done]. intros i x. by rewrite lookup_nil.
  - destruct vls as [|v vls]; [cbn in Hlen; lia|]. apply NoDup_cons in Hnd as [Hx Hnd].
    destruct (IH vls (<[x := vl_id v]> m) Hnd ltac:(cbn in Hlen; lia)) as (m' & -> & H1 & H2).
    exists m'. split; [done|]. split.
    + intros [|i] y Hy; cbn in Hy.
      * injection Hy as <-. rewrite H2 by done. by rewrite lookup_insert_eq.
      * by apply H1.
    + intros y Hy. apply not_elem_of_cons in Hy as [Hy1 Hy2]. rewrite H2 by done.
      by rewrite lookup_insert_ne.
Qed.

(** The points in the order in which the links are given to them. *)
Definition ups (s : vset) : list vkey :=
  (VNf <$> set_list (need_nfs s)) ++ (VGre <$> set_list (need_gre s)).
Definition downs (s : vset) : list vkey :=
  (VPort <$> set_list (need_ports s)) ++ (VInt <$> set_list (need_internal s)).

Lemma elem_of_keys_list (f : string -> vkey) `{!Inj (=) (=) f} x s : f x ∈ f <$> set_list s <-> x ∈ s.
Proof.
  rewrite list_elem_of_fmap. setoid_rewrite elem_of_set_list. split; [|eauto].
  by intros (y & ->%(inj f) & ?).
Qed.
#[local] Instance VNf_inj : Inj (=) (=) VNf.
Proof. by intros ?? [=]. Qed.
#[local] Instance VGre_inj : Inj (=) (=) VGre.
Proof. by intros ?? [=]. Qed.
#[local] Instance VPort_inj : Inj (=) (=) VPort.
Proof. by intros ?? [=]. Qed.
#[local] Instance VInt_inj : Inj (=) (=) VInt.
Proof. by intros ?? [=]. Qed.

Lemma elem_of_ups s k : k ∈ ups s <-> vset_in k s /\ upward k = true.
Proof.
  unfold ups. rewrite elem_of_app. destruct k; cbn [upward vset_in].
  - rewrite (elem_of_keys_list VNf). split; [|tauto].
    intros [?|(? & ? & _)%list_elem_of_fmap]; [done|discriminate].
  - split; [|by intros [_ ?]]. intros [(? & ? & _)%list_elem_of_fmap|(? & ? & _)%list_elem_of_fmap]; discriminate.
  - rewrite (elem_of_keys_list VGre). split; [|tauto].
    intros [(? & ? & _)%list_elem_of_fmap|?]; [discriminate|done].
  - split; [|by intros [_ ?]]. intros [(? & ? & _)%list_elem_of_fmap|(? & ? & _)%list_elem_of_fmap]; discriminate.
Qed.
Lemma elem_of_downs s k : k ∈ downs s <-> vset_in k s /\ upward k = false.
Proof.
  unfold downs. rewrite elem_of_app. destruct k; cbn [upward vset_in].
  - split; [|by intros [_ ?]]. intros [(? & ? & _)%list_elem_of_fmap|(? & ? & _)%list_elem_of_fmap]; discriminate.
  - rewrite (elem_of_keys_list VPort). split; [|tauto].
    intros [?|(? & ? & _)%list_elem_of_fmap]; [done|discriminate].
  - split; [|by intros [_ ?]]. intros [(? & ? & _)%list_elem_of_fmap|(? & ? & _)%list_elem_of_fmap]; discriminate.
  - rewrite (elem_of_keys_list VInt). split; [|tauto].
    intros [(? & ? & _)%list_elem_of_fmap|?]; [discriminate|done].
Qed.
Lemma NoDup_ups s : NoDup (ups s).
Proof.
  unfold ups. apply list.NoDup_app. split; [apply NoDup_fmap; [apply _|apply NoDup_set_list]|]. split.
  - intros ? (? & -> & _)%list_elem_of_fmap (? & ? & _)%list_elem_of_fmap. discriminate.
  - apply NoDup_fmap; [apply _|apply NoDup_set_list].
Qed.
Lemma NoDup_downs s : NoDup (downs s).
Proof.
  unfold downs. apply list.NoDup_app. split; [apply NoDup_fmap; [apply _|apply NoDup_set_list]|]. split.
  - intros ? (? & -> & _)%list_elem_of_fmap (? & ? & _)%list_elem_of_fmap. discriminate.
  - apply NoDup_fmap; [apply _|apply NoDup_set_list].
Qed.

(** Different points that need a link come from different rules. *)
Lemma needed_length rules ks :
  NoDup ks -> (forall k, k ∈ ks -> needed rules k) -> (length ks <= length rules)%nat.
Proof.
  intros Hnd Hks. transitivity (length (omap rule_key rules)).
  - apply submseteq_length, NoDup_submseteq; [done|]. intros k (r & Hr & Hk)%Hks.
    apply list_elem_of_omap. eauto.
  - clear. induction rules as [|r rules IH]; [done|]. cbn. destruct (rule_key r); cbn; lia.
Qed.

Lemma length_ups s : length (ups s) = (size (need_nfs s) + size (need_gre s))%nat.
Proof. unfold ups. by rewrite length_app, !length_fmap, !length_set_list. Qed.
Lemma length_downs s : length (downs s) = (size (need_ports s) + size (need_internal s))%nat.
Proof. unfold downs. by rewrite length_app, !length_fmap, !length_set_list. Qed.

Lemma number_max rules :
  Z.of_nat (length rules) < 4294967296 ->
  let s := identifyVirtualLinksRequired rules in
  Z.to_nat (numberOfVLrequired s) = Nat.max (length (ups s)) (length (downs s))
  /\ (Nat.max (length (ups s)) (length (downs s)) <= length rules)%nat.
Proof.
  intros Hlt s.
  assert (Hu : (length (ups s) <= length rules)%nat).
  { apply needed_length; [apply NoDup_ups|]. by intros k [?%identify_in _]%elem_of_ups. }
  assert (Hd : (length (downs s) <= length rules)%nat).
  { apply needed_length; [apply NoDup_downs|]. by intros k [?%identify_in _]%elem_of_downs. }
  split; [|lia]. unfold numberOfVLrequired.
  rewrite length_ups, length_downs in *. rewrite <- !Nat2Z.inj_add. unfold u32. rewrite !Z.mod_small by lia.
  destruct (Z.ltb_spec (Z.of_nat (size (need_ports s) + size (need_internal s)))
              (Z.of_nat (size (need_nfs s) + size (need_gre s)))); lia.
Qed.

Lemma vl_ok_assigned s l :
  NoDup (keys vl_id (l_vlinks l)) ->
  length (l_vlinks l) = Nat.max (length (ups s)) (length (downs s)) ->
  (forall i k, ups s !! i = Some k -> vlookup l k = vl_id <$> l_vlinks l !! i) ->
  (forall i k, downs s !! i = Some k -> vlookup l k = vl_id <$> l_vlinks l !! i) ->
  (forall k, ~ vset_in k s -> vlookup l k = None) ->
  vl_ok (fun k => vset_in k s) l.
Proof.
  intros Hnd Hlen Hup Hdown Hnone.
  (* the position of a point in its direction *)
  assert (Hpos : forall k, vset_in k s -> exists i v,
    (if upward k then ups s !! i = Some k else downs s !! i = Some k)
    /\ l_vlinks l !! i = Some v /\ vlookup l k = Some (vl_id v)).
  { intros k Hk. destruct (upward k) eqn:Eu.
    - assert (Hin : k ∈ ups s) by (by apply elem_of_ups).
      apply list_elem_of_lookup in Hin as [i Hi]. pose proof (lookup_lt_Some _ _ _ Hi).
      destruct (lookup_lt_is_Some_2 (l_vlinks l) i) as [v Hv]; [lia|].
      exists i, v. by rewrite (Hup _ _ Hi), Hv.
    - assert (Hin : k ∈ downs s) by (by apply elem_of_downs).
      apply list_elem_of_lookup in Hin as [i Hi]. pose proof (lookup_lt_Some _ _ _ Hi).
      destruct (lookup_lt_is_Some_2 (l_vlinks l) i) as [v Hv]; [lia|].
      exists i, v. by rewrite (Hdown _ _ Hi), Hv. }
  assert (Hin : forall k id, vlookup l k = Some id -> vset_in k s).
  { intros k id Hk. destruct (decide (k ∈ ups s ++ downs s)) as [Hi|Hi].
    - apply elem_of_app in Hi as [[? _]%elem_of_ups|[? _]%elem_of_downs]; done.
    - rewrite Hnone in Hk; [done|]. intros Hs. apply Hi. rewrite elem_of_app, elem_of_ups, elem_of_downs.
      destruct (upward k); auto. }
  split.
  - intros k. split; [intros [id Hk]; eauto|]. intros (i & v & _ & _ & ->)%Hpos. eauto.
  - done.
  - intros k id Hk. destruct (Hpos k ltac:(eauto)) as (i & v & _ & Hv & Hk').
    rewrite Hk in Hk'. injection Hk' as ->. apply list_elem_of_fmap_2. by eapply list_elem_of_lookup_2.
  - intros v [i Hi]%list_elem_of_lookup. pose proof (lookup_lt_Some _ _ _ Hi) as Hlt. rewrite Hlen in Hlt.
    destruct (decide (i < length (ups s))%nat) as [Hl|Hl].
    + destruct (lookup_lt_is_Some_2 _ _ Hl) as [k Hk]. exists k. by rewrite (Hup _ _ Hk), Hi.
    + destruct (lookup_lt_is_Some_2 (downs s) i ltac:(lia)) as [k Hk]. exists k.
      by rewrite (Hdown _ _ Hk), Hi.
  - intros k k' id Hk Hk' Edir.
    destruct (Hpos k ltac:(eauto)) as (i & v & Hi & Hv & E), (Hpos k' ltac:(eauto)) as (j & w & Hj & Hw & E').
    assert (i = j) as ->.
    { eapply (NoDup_lookup _ i j (vl_id v) Hnd); unfold keys; rewrite list_lookup_fmap; [by rewrite Hv|].
      rewrite Hw. cbn. congruence. }
    rewrite Edir in Hi. destruct (upward k'); congruence.
Qed.

(** The two halves of a direction: the second continues where the first ended. *)
Lemma two_halves {f g : string -> vkey} (xs ys : list string) (vls : list VLink) (lk : vkey -> option Z) :
  (forall i x, xs !! i = Some x -> lk (f x) = vl_id <$> vls !! i) ->
  (forall i y, ys !! i = Some y -> lk (g y) = vl_id <$> drop (length xs) vls !! i) ->
  forall i k, ((f <$> xs) ++ (g <$> ys)) !! i = Some k -> lk k = vl_id <$> vls !! i.
Proof.
  intros Hf Hg i k Hk. apply lookup_app_Some in Hk as [Hk|[Hlen Hk]].
  - rewrite list_lookup_fmap in Hk. apply fmap_Some in Hk as (x & Hx & ->). by apply Hf.
  - rewrite list_lookup_fmap in Hk. apply fmap_Some in Hk as (y & Hy & ->). rewrite length_fmap in *.
    rewrite (Hg _ _ Hy), lookup_drop. do 2 f_equal. lia.
Qed.

Lemma vlookup_None_inv l :
  (forall k, vlookup l k = None) ->
  l_nfs_vlinks l = ∅ /\ l_ports_vlinks l = ∅ /\ l_gre_vlinks l = ∅ /\ l_eps_vlinks l = ∅.
Proof.
  intros H. split; [|split; [|split]]; apply map_eq; intros x.
  - apply (H (VNf x)).
  - apply (H (VPort x)).
  - apply (H (VGre x)).
  - apply (H (VInt x)).
Qed.

Lemma associate_vlinks_ok s l :
  (forall k, vlookup l k = None) -> NoDup (keys vl_id (l_vlinks l)) ->
  length (l_vlinks l) = Nat.max (length (ups s)) (length (downs s)) ->
  exists nfs ports eps gre, associate_vlinks s l = Ok (set_l_maps nfs ports eps gre l)
    /\ vl_ok (fun k => vset_in k s) (set_l_maps nfs ports eps gre l).
Proof.
  intros Hnone Hnd Hlen. destruct (vlookup_None_inv l Hnone) as (E1 & E2 & E3 & E4).
  unfold associate_vlinks. destruct (l_vlinks l) as [|v0 vls0] eqn:Evl.
  - exists ∅, ∅, ∅, ∅. assert (set_l_maps ∅ ∅ ∅ ∅ l = l) as -> by (destruct l; cbn in *; by subst).
    split; [done|]. rewrite <- Evl in Hnd, Hlen. apply vl_ok_assigned; [done|done| | |by intros k _].
    all: rewrite Evl in Hlen; cbn in Hlen; intros i k Hk%lookup_lt_Some; lia.
  - rewrite <- Evl in *. clear vls0 v0 Evl. rewrite length_ups, length_downs in Hlen.
    destruct (associate_ok (set_list (need_nfs s)) (l_vlinks l) ∅) as (nfs & -> & N1 & N2);
      [apply NoDup_set_list|rewrite length_set_list; lia|]. cbn [mbind res_bind].
    destruct (associate_ok (set_list (need_ports s)) (l_vlinks l) ∅) as (ports & -> & P1 & P2);
      [apply NoDup_set_list|rewrite length_set_list; lia|]. cbn [mbind res_bind].
    destruct (associate_ok (set_list (need_gre s)) (drop (length (set_list (need_nfs s))) (l_vlinks l)) ∅)
      as (gre & -> & G1 & G2);
      [apply NoDup_set_list|rewrite length_drop, !length_set_list; lia|]. cbn [mbind res_bind].
    destruct (associate_ok (set_list (need_internal s)) (drop (length (set_list (need_ports s))) (l_vlinks l)) ∅)
      as (eps & -> & I1 & I2);
      [apply NoDup_set_list|rewrite length_drop, !length_set_list; lia|]. cbn [mbind res_bind].
    exists nfs, ports, eps, gre. split.
    + unfold setEndPointsVLinks, setEndPointsGreVLinks, setPortsVLinks, setNFsVLinks. cbn.
      by rewrite E1, E2, E3, E4, !(left_id_L ∅ (∪)).
    + apply vl_ok_assigned; [done|by rewrite length_ups, length_downs| | |].
      * apply (two_halves (f := VNf) (g := VGre)); [exact N1|exact G1].
      * apply (two_halves (f := VPort) (g := VInt)); [exact P1|exact I1].
      * intros [x|x|x|x] Hx; cbn in Hx |- *; rewrite <- elem_of_set_list in Hx;
          first [rewrite N2 by done|rewrite P2 by done|rewrite G2 by done|rewrite I2 by done];
          by rewrite lookup_empty.
Qed.

Lemma make_vlinks_spec n dpid0 next vs next' :
  0 <= next -> next + Z.of_nat n < 18446744073709551616 -> make_vlinks n dpid0 next = (vs, next') ->
  next' = next + Z.of_nat n /\ length vs = n /\ keys vl_id vs = seqZ next (Z.of_nat n)
  /\ vl_remote_dpid <$> vs = replicate n dpid0.
Proof.
  revert next vs next'. induction n as [|n IH]; intros next vs next' H0 Hn; cbn [make_vlinks].
  - intros [= <- <-]. cbn. split; [lia|done].
  - cbn. unfold u64. rewrite (Z.mod_small (next + 1)) by lia. destruct (make_vlinks n dpid0 (next + 1)) as [vs0 n0] eqn:E.
    intros [= <- <-]. destruct (IH (next + 1) vs0 n0 ltac:(lia) ltac:(lia) E) as (-> & Hl & Hk & Hd).
    split; [lia|]. split; [cbn; lia|]. unfold keys in *. rewrite !fmap_cons. cbn.
    rewrite Hk, Hd. split; [|done]. rewrite (seqZ_cons next) by lia. f_equal. f_equal; lia.
Qed.

(** The numbers of the switch leave the identifiers and the maps as they are. *)
Lemma setVLinkIDs_same i a b l l' :
  setVLinkIDs i a b l = Ok l' ->
  keys vl_id (l_vlinks l') = keys vl_id (l_vlinks l) /\ (forall k, vlookup l' k = vlookup l k)
  /\ l_nfs l' = l_nfs l /\ l_ep_ids l' = l_ep_ids l /\ l_dpid l' = l_dpid l.
Proof.
  unfold setVLinkIDs. destruct (l_vlinks l !! i) as [v|] eqn:E; [|done]. intros [= <-]. cbn.
  split; [|by split; [intros []|]]. unfold keys. rewrite list_fmap_insert. cbn.
  apply list_insert_id. by rewrite list_lookup_fmap, E.
Qed.

(** ** The switch

    What the documentation of the switch manager promises: in the states the
    switch can be in, a new link joins two ports that no link uses; a link that
    is destroyed is gone; errors are [SwitchManagerException]s.  Nothing is said
    of the state after an error. *)
Class LinkSwitchLaws (SW : Type) `{!LinkSwitch SW} := {
  sw_inv : SW -> Prop;
  sw_links : SW -> propset (Z * Z * (Z * Z));
  law_addVirtualLink a b s :
    sw_inv s ->
    match addVirtualLink a b s with
    | (s', Ret (ia, ib)) =>
        sw_inv s'
        /\ (forall x, x ∈ sw_links s' <-> x = (a, ia, (b, ib)) \/ x ∈ sw_links s)
        /\ (forall y, (a, ia, y) ∉ sw_links s) /\ (forall y, (y, (b, ib)) ∉ sw_links s)
    | (_, Throw e) => e = SwitchManagerException
    | (_, Halt _) => False
    end;
  law_destroyVirtualLink a ia b ib s :
    sw_inv s -> (a, ia, (b, ib)) ∈ sw_links s ->
    match destroyVirtualLink a ia b ib s with
    | (s', Ret _) => sw_inv s' /\ forall x, x ∈ sw_links s' <-> x ∈ sw_links s /\ x <> (a, ia, (b, ib))
    | (_, Throw e) => e = SwitchManagerException
    | (_, Halt _) => False
    end
}.

Section programs.
Context {SW : Type} `{LinkSwitchLaws SW} (dpid0 : Z).
#[local] Abbreviation vstate := (vstate SW).

(** The links on the switch at this LSI are those the LSI records, and no two
    have an end in common. *)
Record sw_ok (l : LSI) (sw : SW) : Prop := {
  so_inv : sw_inv sw;
  so_links x y : (l_dpid l, x, y) ∈ sw_links sw <->
    exists v, v ∈ l_vlinks l /\ x = vl_local_id v /\ y = (vl_remote_dpid v, vl_remote_id v);
  so_local v w : v ∈ l_vlinks l -> w ∈ l_vlinks l -> vl_local_id v = vl_local_id w -> v = w;
  so_remote v w : v ∈ l_vlinks l -> w ∈ l_vlinks l ->
    vl_remote_dpid v = vl_remote_dpid w -> vl_remote_id v = vl_remote_id w -> v = w
}.

Record vinv (need : vkey -> Prop) (dpid next : Z) (s : vstate) : Prop := {
  vi_ok : vl_ok need (vs_lsi s);
  vi_below : ids_below next (vs_lsi s);
  vi_next : vs_next s = next;
  vi_dpid : l_dpid (vs_lsi s) = dpid;
  vi_sw : sw_ok (vs_lsi s) (vs_sw s)
}.

Lemma vinv_ext P Q d n s : (forall k, P k <-> Q k) -> vinv P d n s -> vinv Q d n s.
Proof. intros E []. split; auto. by apply (vl_ok_ext P). Qed.

Lemma wp_on_switch {A} (f : SW -> SW * out A) (Q : vstate -> A -> Prop) E s :
  match f (vs_sw s) with
  | (sw, Ret a) => Q {| vs_lsi := vs_lsi s; vs_next := vs_next s; vs_sw := sw |} a
  | (sw, Throw e) => E {| vs_lsi := vs_lsi s; vs_next := vs_next s; vs_sw := sw |} e
  | (_, Halt _) => False
  end -> wp (on_switch f) Q E s.
Proof. unfold wp, on_switch. by destruct (f (vs_sw s)) as [sw [a|e|]]. Qed.
Lemma wp_on_lsi_res f l (Q : vstate -> unit -> Prop) E s :
  f (vs_lsi s) = Ok l -> Q (set_vs_lsi l s) tt -> wp (on_lsi_res f) Q E s.
Proof. unfold wp, on_lsi_res. by intros ->. Qed.

(** The link appended last, with its numbers. *)
Lemma setVLinkIDs_last l v a b :
  setVLinkIDs (length (l_vlinks l)) a b (with_vlink v l)
  = Ok (with_vlink {| vl_id := vl_id v; vl_remote_dpid := vl_remote_dpid v;
                      vl_local_id := a; vl_remote_id := b |} l).
Proof.
  unfold setVLinkIDs, with_vlink. cbn. rewrite lookup_app_r, Nat.sub_diag by lia. cbn.
  by rewrite insert_app_r_alt, Nat.sub_diag by lia.
Qed.
Lemma getVirtualLink_last l v :
  (forall w, w ∈ l_vlinks l -> vl_id w <> vl_id v) -> getVirtualLink (vl_id v) (with_vlink v l) = Ok v.
Proof.
  intros Hf. unfold getVirtualLink, with_vlink. cbn [set_l_vlinks l_vlinks]. induction (l_vlinks l) as [|w vs IH]; cbn [app].
  - by rewrite find_first_cons, Z.eqb_refl.
  - rewrite find_first_cons. destruct (Z.eqb_spec (vl_id w) (vl_id v)) as [E|_].
    + by destruct (Hf w); [left|].
    + apply IH. intros. apply Hf. by right.
Qed.

Lemma sw_ok_add l sw sw' v :
  sw_ok l sw -> sw_inv sw' ->
  (forall x, x ∈ sw_links sw' <->
     x = (l_dpid l, vl_local_id v, (vl_remote_dpid v, vl_remote_id v)) \/ x ∈ sw_links sw) ->
  (forall y, (l_dpid l, vl_local_id v, y) ∉ sw_links sw) ->
  (forall y, (y, (vl_remote_dpid v, vl_remote_id v)) ∉ sw_links sw) ->
  sw_ok (with_vlink v l) sw'.
Proof.
  intros [Hi Hl Ha Hb] Hi' Hin Fa Fb.
  assert (Hlocal : forall w, w ∈ l_vlinks l -> vl_local_id w <> vl_local_id v).
  { intros w Hw E. apply (Fa (vl_remote_dpid w, vl_remote_id w)), Hl. eauto. }
  assert (Hremote : forall w, w ∈ l_vlinks l ->
    vl_remote_dpid w = vl_remote_dpid v -> vl_remote_id w <> vl_remote_id v).
  { intros w Hw E1 E2. apply (Fb (l_dpid l, vl_local_id w)), Hl. exists w. by rewrite E1, E2. }
  split; [done|cbn..].
  - intros x y. rewrite Hin, Hl. split.
    + intros [[= -> ->]|(w & ? & ? & ?)]; [exists v|exists w];
        (split; [apply elem_of_app; rewrite ?list_elem_of_singleton; auto|done]).
    + intros (w & [Hw| ->%list_elem_of_singleton]%elem_of_app & -> & ->); [right; eauto|by left].
  - intros a b [Hv| ->%list_elem_of_singleton]%elem_of_app [Hw| ->%list_elem_of_singleton]%elem_of_app E; try done.
    + by apply Ha.
    + by destruct (Hlocal a Hv).
    + by destruct (Hlocal b Hw).
  - intros a b [Hv| ->%list_elem_of_singleton]%elem_of_app [Hw| ->%list_elem_of_singleton]%elem_of_app E1 E2; try done.
    + by apply Hb.
    + by destruct (Hremote a Hv).
    + by destruct (Hremote b Hw).
Qed.

Definition gm_error (s : vstate) (e : exn) : Prop := e = GraphManagerException.

Lemma add_vlink_ok check P d n ks s :
  0 <= n -> n + 1 < 18446744073709551616 ->
  ks <> [] -> (forall k, k ∈ ks -> ~ P k) ->
  (forall k k', k ∈ ks -> k' ∈ ks -> upward k = upward k' -> k = k') ->
  vinv P d n s ->
  wp (add_vlink dpid0 check ks) (fun s' _ => vinv (fun k => P k \/ k ∈ ks) d (n + 1) s') gm_error s.
Proof.
  intros H0 H1 Hks HP Hdir [Hok Hbelow Hnext Hd Hsw]. destruct s as [l next sw]; cbn in *. subst next.
  unfold add_vlink. apply wp_catch. apply prog_wp_bind, wp_gets. apply prog_wp_bind.
  unfold new_vlink, VLink_new. unfold wp at 1. cbn [vs_next vs_lsi vs_sw].
  set (v0 := {| vl_id := n |}). apply prog_wp_bind. unfold on_lsi, addVlink. unfold wp at 1. cbn [vs_lsi].
  change (set_l_vlinks (l_vlinks l ++ [v0]) l) with (with_vlink v0 l). apply prog_wp_bind, wp_on_switch. cbn.
  pose proof (law_addVirtualLink (l_dpid l) dpid0 sw (so_inv _ _ Hsw)) as Hlaw.
  destruct (addVirtualLink (l_dpid l) dpid0 sw) as [sw' [[ia ib]|e|]]; [|subst e; cbn; done|done].
  destruct Hlaw as (Hi' & Hin & Fa & Fb).
  set (v := {| vl_id := n; vl_remote_dpid := dpid0; vl_local_id := ia; vl_remote_id := ib |}).
  assert (Hfresh : forall w, w ∈ l_vlinks l -> vl_id w <> n).
  { intros w Hw. specialize (Hbelow w Hw). lia. }
  apply prog_wp_bind. eapply wp_on_lsi_res; [apply (setVLinkIDs_last l v0)|]. fold v.
  apply prog_wp_bind, wp_gets. apply prog_wp_bind.
  apply (wp_of_out _ v).
  { change (of_res (getVirtualLink (vl_id v) (with_vlink v l)) = Ret v). by rewrite getVirtualLink_last. }
  apply prog_wp_bind, prog_wp_assert; [cbn; rewrite Z.eqb_refl; apply orb_true_r|].
  apply wp_modify. destruct (use_links n ks (with_vlink v l)) as (Ev & Ed & _).
  change (vinv (fun k => P k \/ k ∈ ks) d (n + 1)
    {| vs_lsi := foldl (fun l k => use_link n k l) (with_vlink v l) ks; vs_next := u64 (n + 1); vs_sw := sw' |}).
  split; cbn [vs_lsi vs_next vs_sw].
  - by apply (vl_ok_add P l v).
  - intros w. rewrite Ev. cbn. intros [Hw| ->%list_elem_of_singleton]%elem_of_app; cbn; [|lia].
    specialize (Hbelow w Hw). lia.
  - unfold u64. rewrite Z.mod_small; lia.
  - by rewrite Ed.
  - assert (Hsw' : sw_ok (with_vlink v l) sw') by (by eapply sw_ok_add).
    destruct Hsw' as [I A B C]. split; [exact I|rewrite Ev, ?Ed..]; [exact A|exact B|exact C].
Qed.

(** A loop that adds links, one for each list of points. *)
Lemma add_vlinks_ok {A} check (f : A -> list vkey) P d n xs s :
  0 <= n -> n + Z.of_nat (length xs) < 18446744073709551616 ->
  (forall x, x ∈ xs -> f x <> []) ->
  (forall x k k', x ∈ xs -> k ∈ f x -> k' ∈ f x -> upward k = upward k' -> k = k') ->
  (forall k, k ∈ concat (f <$> xs) -> ~ P k) -> NoDup (concat (f <$> xs)) ->
  vinv P d n s ->
  wp (for_each (fun x => add_vlink dpid0 check (f x)) xs)
    (fun s' _ => vinv (fun k => P k \/ k ∈ concat (f <$> xs)) d (n + Z.of_nat (length xs)) s') gm_error s.
Proof.
  intros H0 Hn Hne Hdir HP Hnd Hinv.
  apply (wp_for_each _ (fun ys s' => vinv (fun k => P k \/ k ∈ concat (f <$> ys)) d (n + Z.of_nat (length ys)) s')).
  - cbn. rewrite Z.add_0_r. eapply vinv_ext; [|exact Hinv]. intros k. rewrite elem_of_nil. tauto.
  - intros ys x zs s' -> Hs'. rewrite length_app in Hn. cbn in Hn.
    rewrite fmap_app, fmap_cons, concat_app in HP, Hnd. cbn in HP, Hnd.
    eapply prog_wp_mono; [eapply (add_vlink_ok check _ _ _ (f x)); [| | | | |exact Hs']| |done].
    + lia.
    + lia.
    + apply Hne. apply elem_of_app. right. left.
    + intros k Hk [HPk|Hys].
      * apply (HP k); [|done]. rewrite !elem_of_app. auto.
      * apply list.NoDup_app in Hnd as (_ & Hnd & _). apply (Hnd k Hys). apply elem_of_app. by left.
    + intros k k' ? ?. apply (Hdir x); [|done..]. apply elem_of_app. right. left.
    + intros s'' u Hs''. rewrite fmap_app, concat_app, length_app. cbn. rewrite app_nil_r.
      replace (n + Z.of_nat (length ys + 1)) with (n + Z.of_nat (length ys) + 1) by lia.
      eapply vinv_ext; [|exact Hs'']. intros k. rewrite elem_of_app. tauto.
Qed.

(** The first loop of the update. *)
Lemma concat_share nfs ports :
  concat (share nfs ports) ≡ₚ (VNf <$> nfs) ++ (VPort <$> ports).
Proof.
  revert ports. induction nfs as [|nf nfs IH]; intros ports; cbn [share].
  - induction ports as [|p ports IHp]; [done|]. cbn. by rewrite IHp.
  - destruct ports as [|p ports]; cbn; [by rewrite IH|]. rewrite IH. cbn.
    by rewrite Permutation_middle.
Qed.
Lemma share_shape nfs ports ks :
  ks ∈ share nfs ports -> ks <> [] /\ forall k k', k ∈ ks -> k' ∈ ks -> upward k = upward k' -> k = k'.
Proof.
  revert ports. induction nfs as [|nf nfs IH]; intros ports; cbn [share].
  - intros (p & -> & _)%list_elem_of_fmap. split; [done|]. set_solver.
  - destruct ports as [|p ports]; intros [->|Hk]%elem_of_cons; eauto; (split; [done|]).
    + set_solver.
    + intros k k' [->| ->%list_elem_of_singleton]%elem_of_cons [->| ->%list_elem_of_singleton]%elem_of_cons; done.
Qed.
Lemma length_share nfs ports : length (share nfs ports) = Nat.max (length nfs) (length ports).
Proof.
  revert ports. induction nfs as [|nf nfs IH]; intros ports; cbn [share]; [by rewrite length_fmap|].
  destruct ports; cbn; rewrite IH; cbn; lia.
Qed.
Lemma concat_singletons {A B} (f : A -> B) xs : concat ((fun x => [f x]) <$> xs) = f <$> xs.
Proof. induction xs as [|x xs IH]; cbn; congruence. Qed.

Lemma NoDup_ups_downs s : NoDup (ups s ++ downs s).
Proof.
  apply list.NoDup_app. split; [apply NoDup_ups|]. split; [|apply NoDup_downs].
  intros k [_ H1]%elem_of_ups [_ H2]%elem_of_downs. congruence.
Qed.

(** All points of a set of four, in the order of the update. *)
Definition points (v : vset) : list vkey :=
  ((VNf <$> set_list (need_nfs v)) ++ (VPort <$> set_list (need_ports v)))
  ++ (VGre <$> set_list (need_gre v)) ++ (VInt <$> set_list (need_internal v)).
Lemma points_perm v : points v ≡ₚ ups v ++ downs v.
Proof. unfold points, ups, downs. solve_Permutation. Qed.
Lemma NoDup_points v : NoDup (points v).
Proof. rewrite points_perm. apply NoDup_ups_downs. Qed.
Lemma elem_of_points v k : k ∈ points v <-> vset_in k v.
Proof.
  rewrite points_perm, elem_of_app, elem_of_ups, elem_of_downs.
  destruct (upward k); intuition congruence.
Qed.

Lemma add_shared_ok P d n nfs ports s :
  0 <= n -> n + Z.of_nat (length nfs + length ports) < 18446744073709551616 ->
  (forall k, k ∈ (VNf <$> nfs) ++ (VPort <$> ports) -> ~ P k) ->
  NoDup ((VNf <$> nfs) ++ (VPort <$> ports)) -> vinv P d n s ->
  wp (for_each (add_vlink dpid0 true) (share nfs ports))
    (fun s' _ => vinv (fun k => P k \/ k ∈ (VNf <$> nfs) ++ (VPort <$> ports)) d
                   (n + Z.of_nat (Nat.max (length nfs) (length ports))) s') gm_error s.
Proof.
  intros H0 Hn HP Hnd Hinv. pose proof (length_share nfs ports) as Hls.
  eapply prog_wp_mono;
    [eapply (add_vlinks_ok true id P d n (share nfs ports)); [done|lia| | | | |exact Hinv]| |done];
    rewrite ?list_fmap_id.
  - intros ks Hks. by destruct (share_shape _ _ _ Hks).
  - intros ks k k' Hks. destruct (share_shape _ _ _ Hks) as [_ Hshape]. apply Hshape.
  - intros k. rewrite concat_share. apply HP.
  - by rewrite concat_share.
  - intros s1 _ Hs1. rewrite <- Hls. eapply vinv_ext; [|exact Hs1]. intros k.
    cbn beta. by rewrite concat_share.
Qed.
Lemma add_singles_ok check (f : string -> vkey) P d n xs s :
  0 <= n -> n + Z.of_nat (length xs) < 18446744073709551616 ->
  (forall k, k ∈ f <$> xs -> ~ P k) -> NoDup (f <$> xs) -> vinv P d n s ->
  wp (for_each (fun x => add_vlink dpid0 check [f x]) xs)
    (fun s' _ => vinv (fun k => P k \/ k ∈ f <$> xs) d (n + Z.of_nat (length xs)) s') gm_error s.
Proof.
  intros H0 Hn HP Hnd Hinv. rewrite <- (concat_singletons f).
  apply (add_vlinks_ok check (fun x => [f x])); rewrite ?concat_singletons; try done. set_solver.
Qed.

Lemma updateGraph_add_vlinks_ok rules diff d n s :
  0 <= n -> n + Z.of_nat (length diff) < 18446744073709551616 ->
  vinv (needed rules) d n s ->
  wp (updateGraph_add_vlinks dpid0 diff)
    (fun s' _ => exists n', n <= n' <= n + Z.of_nat (length diff) /\ vinv (needed (rules ++ diff)) d n' s')
    gm_error s.
Proof.
  intros H0 Hn Hinv. unfold updateGraph_add_vlinks. apply prog_wp_bind, wp_gets.
  set (v := identifyVirtualLinksRequired_new diff (vs_lsi s)). cbn zeta.
  assert (Hv : forall k, k ∈ points v <-> needed diff k /\ ~ needed rules k).
  { intros k. unfold v. rewrite elem_of_points, identify_new_in.
    rewrite <- (ok_dom _ _ (vi_ok _ _ _ _ Hinv)). by rewrite <- eq_None_not_Some. }
  assert (Hlen : (length (points v) <= length diff)%nat).
  { apply needed_length; [apply NoDup_points|]. by intros k [? _]%Hv. }
  pose proof (NoDup_points v) as Hnd. unfold points in Hv, Hlen, Hnd.
  rewrite !length_app, !length_fmap in Hlen.
  apply list.NoDup_app in Hnd as (N1 & D1 & Hnd). apply list.NoDup_app in Hnd as (N2 & D2 & N3).
  apply prog_wp_bind. eapply prog_wp_mono; [apply (add_shared_ok (needed rules) d n)| |done]; [done|lia| |done|done|].
  { intros k Hk. apply Hv, elem_of_app. by left. }
  intros s1 u1 Hs1. apply prog_wp_bind. eapply prog_wp_mono; [eapply (add_singles_ok true VGre)| |done];
    [| | | |exact Hs1|]; [lia|lia| |done|].
  { intros k Hk [Hr|Ho]; [revert Hr; apply Hv|apply (D1 k Ho)]; rewrite !elem_of_app; auto. }
  intros s2 u2 Hs2. eapply prog_wp_mono; [eapply (add_singles_ok false VInt)| |done];
    [| | | |exact Hs2|]; [lia|lia| |done|].
  { intros k Hk [[Hr|Ho]|Ho]; [revert Hr; apply Hv|apply (D1 k Ho)|by apply (D2 k Ho)];
      rewrite !elem_of_app; auto. }
  intros s3 u3 Hs3. eexists. split; [|eapply vinv_ext; [|exact Hs3]]; [lia|].
  intros k. specialize (Hv k). cbn beta. rewrite !elem_of_app in Hv. rewrite !elem_of_app, needed_app.
  destruct (decide (needed rules k)); tauto.
Qed.

(** ** Removal *)

(** Every rule says where its packets come from. *)
Definition not_generic (r : Rule) : Prop := hm_type (r_match r) <> MATCH_GENERIC.

Lemma still_uses_key k r : not_generic r -> still_uses k r = true <-> rule_key r = Some k.
Proof.
  unfold not_generic, still_uses, rule_key, matchOnPort, matchOnNF, matchOnEndPointInternal, matchOnEndPointGre.
  intros Hg. destruct k, (a_output (r_action r)), (hm_type (r_match r)); try done.
  all: repeat match goal with |- context [bool_decide (?a = ?b :> match_t)] =>
         first [rewrite (bool_decide_eq_true_2 (a = b)) by reflexivity
               |rewrite (bool_decide_eq_false_2 (a = b)) by discriminate] end.
  all: cbn [andb orb negb]; rewrite ?bool_decide_eq_true; split; congruence.
Qed.

Lemma sw_ok_drop l l1 sw sw' v vs :
  sw_ok l sw -> v ∈ l_vlinks l -> l_dpid l1 = l_dpid l ->
  (forall w, w ∈ vs <-> w ∈ l_vlinks l /\ vl_id w <> vl_id v) ->
  (forall w, w ∈ l_vlinks l -> vl_id w = vl_id v -> w = v) -> sw_inv sw' ->
  (forall x, x ∈ sw_links sw' <->
     x ∈ sw_links sw /\ x <> (l_dpid l, vl_local_id v, (vl_remote_dpid v, vl_remote_id v))) ->
  sw_ok (set_l_vlinks vs l1) sw'.
Proof.
  intros [Hi Hl Ha Hb] Hv Hd Hvs Hid Hi' Hin. split; [done|cbn..].
  - intros x y. rewrite Hd, Hin, Hl. split.
    + intros [(w & Hw & -> & ->) Hne]. exists w. split; [|done]. apply Hvs. split; [done|].
      intros E. apply Hne. by rewrite (Hid w Hw E).
    + intros (w & [Hw Hne]%Hvs & -> & ->). split; [eauto|]. intros [= E _ _].
      apply Hne. f_equal. by apply Ha.
  - intros a b [? _]%Hvs [? _]%Hvs. by apply Ha.
  - intros a b [? _]%Hvs [? _]%Hvs. by apply Hb.
Qed.

Lemma removeUselessVlinks_ok rules rri P d n s :
  Forall not_generic rules -> (forall k, needed rules k -> P k) -> vinv P d n s ->
  wp (removeUselessVlinks rules rri)
    (fun s' _ => vinv (fun k => P k /\ (k <> info_key rri \/ needed rules k)) d n s') gm_error s.
Proof.
  intros Hgen HP Hinv. pose proof Hinv as [Hok Hbelow Hnext Hd Hsw]. destruct s as [l next sw]; cbn in *. subst next.
  unfold removeUselessVlinks. apply prog_wp_bind, wp_gets. cbn [vs_lsi]. set (k := info_key rri). cbn zeta.
  destruct (vlookup l k) as [id|] eqn:Ek.
  2: { apply prog_wp_ret. eapply vinv_ext; [|exact Hinv]. intros k'. split; [|tauto]. intros Hk. split; [done|]. left.
       intros ->. apply (ok_dom _ _ Hok) in Hk as [? Hk]. congruence. }
  destruct (existsb (still_uses k) rules) eqn:Eu.
  { apply existsb_exists in Eu as (r & Hr%list_elem_of_In & Eu). apply still_uses_key in Eu;
      [|by eapply list.Forall_forall]. apply prog_wp_ret. eapply vinv_ext; [|exact Hinv]. intros k'. split; [|tauto].
    intros Hk'. split; [done|]. destruct (decide (k' = k)) as [->|]; [right; exists r; auto|by left]. }
  assert (Hno : ~ needed rules k).
  { intros (r & Hr & E). rewrite <- not_true_iff_false in Eu. apply Eu, existsb_exists.
    exists r. split; [by apply list_elem_of_In|]. apply still_uses_key; [by eapply list.Forall_forall|done]. }
  assert (HQ : forall k', P k' /\ k' <> k <-> P k' /\ (k' <> k \/ needed rules k')).
  { intros k'. destruct (decide (k' = k)) as [->|]; tauto. }
  destruct (remove_vkey_ok k l id Ek) as (l1 & Hr1 & Ev1 & Ed1 & El1).
  apply prog_wp_bind. eapply wp_on_lsi_res; [exact Hr1|]. unfold set_vs_lsi. cbn [vs_next vs_sw].
  destruct (used_opposite k l id) eqn:Eo.
  { apply prog_wp_ret. eapply vinv_ext; [exact HQ|]. split; cbn; try done.
    - by eapply vl_ok_drop.
    - unfold ids_below. by rewrite Ev1.
    - by rewrite Ed1.
    - destruct Hsw as [I A B C]. split; rewrite ?Ev1, ?Ed1; done. }
  apply wp_catch, prog_wp_bind, wp_gets. cbn [vs_lsi].
  pose proof (ok_link _ _ Hok _ _ Ek) as Hid. apply list_elem_of_fmap in Hid as (v & -> & Hv).
  assert (Hget : getVirtualLink (vl_id v) l1 = Ok v).
  { unfold getVirtualLink. rewrite Ev1.
    destruct (find_first_is_Some (fun w => vl_id w =? vl_id v) (l_vlinks l) v Hv (Z.eqb_refl _)) as [w Hw].
    rewrite Hw. apply find_first_Some in Hw as [Hw ?%Z.eqb_eq].
    by rewrite (keys_inj vl_id _ _ _ (ok_ids _ _ Hok) Hw Hv). }
  apply prog_wp_bind, (wp_of_out _ v); [by rewrite Hget|]. apply prog_wp_bind, wp_on_switch. cbn [vs_sw vs_lsi vs_next].
  rewrite Ed1. pose proof (law_destroyVirtualLink (l_dpid l) (vl_local_id v) (vl_remote_dpid v) (vl_remote_id v) sw
    (so_inv _ _ Hsw) ltac:(apply (so_links _ _ Hsw); by exists v)) as Hlaw.
  destruct (destroyVirtualLink _ _ _ _ sw) as [sw' [u|e|]]; [destruct Hlaw as [Hi' Hlaw]|subst e; cbn; done|done].
  destruct (erase_first_is_Some (fun w => vl_id w =? vl_id v) (l_vlinks l1) v) as [vs Hvs];
    [by rewrite Ev1|apply Z.eqb_refl|].
  eapply wp_on_lsi_res; [unfold removeVlink; cbn [vs_lsi]; by rewrite Hvs|].
  pose proof Hvs as Hvs'. rewrite Ev1 in Hvs'. destruct (keys_erase _ _ _ (ok_ids _ _ Hok) Hvs') as [_ Hin].
  eapply vinv_ext; [exact HQ|]. split; cbn; try done.
  - by eapply vl_ok_drop_link.
  - intros w [Hw _]%Hin. by apply Hbelow.
  - by rewrite Ed1.
  - eapply sw_ok_drop; eauto. intros w Hw E. by apply (keys_inj vl_id _ _ _ (ok_ids _ _ Hok)).
Qed.

(** The removals for a list of rules [gone]. *)
Lemma updateGraph_remove_vlinks_ok rules gone P d n s :
  Forall not_generic rules -> (forall k, needed rules k -> P k) ->
  (forall k, P k -> needed rules k \/ needed gone k) -> vinv P d n s ->
  wp (updateGraph_remove_vlinks rules ((fun r => removed_info (r_action r)) <$> gone))
    (fun s' _ => vinv (needed rules) d n s') gm_error s.
Proof.
  intros Hgen HP Hgone Hinv. set (infos := (fun r => removed_info (r_action r)) <$> gone).
  eapply (prog_wp_mono _ (fun s' _ => vinv (fun k => P k /\ (k ∉ info_key <$> infos \/ needed rules k)) d n s'));
    [|intros s' u Hs'; eapply vinv_ext; [|exact Hs']|done].
  - apply (wp_for_each _ (fun done s' => vinv (fun k => P k /\ (k ∉ info_key <$> done \/ needed rules k)) d n s')).
    + eapply vinv_ext; [|exact Hinv]. intros k. cbn. rewrite elem_of_nil. tauto.
    + intros l1 x l2 s1 _ Hs1. eapply prog_wp_mono; [eapply removeUselessVlinks_ok; [done| |exact Hs1]| |done].
      * intros k Hk. split; [by apply HP|by right].
      * intros s2 u Hs2. eapply vinv_ext; [|exact Hs2]. intros k. cbn beta.
        rewrite fmap_app, elem_of_app. cbn. rewrite list_elem_of_singleton.
        destruct (decide (needed rules k)); tauto.
  - intros k. cbn beta. split; [|auto]. intros [HPk [Hno|?]]; [|done].
    destruct (Hgone k HPk) as [?|(r & Hr & Ek)]; [done|]. destruct Hno.
    unfold infos. rewrite <- list_fmap_compose. apply list_elem_of_fmap. exists r. split; [|done].
    unfold compose, removed_info, rule_key in *. destruct (a_output (r_action r)); by case_match; simplify_eq.
Qed.
End programs.

(** ** The update of a graph *)

Lemma needed_merged g n k :
  needed (merged r_id (g_rules g) (g_rules n)) k ->
  needed (g_rules g ++ fresh r_id (g_rules g) (g_rules n)) k.
Proof.
  intros (r & Hr & Hk). exists r. split; [|done]. unfold merged in Hr. rewrite elem_of_app in *.
  destruct Hr as [Hr|Hr]; [left|by right]. by apply list_elem_of_filter in Hr as [_ ?].
Qed.
Lemma needed_old g n k :
  needed (g_rules g ++ fresh r_id (g_rules g) (g_rules n)) k ->
  needed (merged r_id (g_rules g) (g_rules n)) k \/ needed (fresh r_id (g_rules n) (g_rules g)) k.
Proof.
  intros (r & Hr & Hk). unfold merged. rewrite needed_app. apply elem_of_app in Hr as [Hr|Hr].
  - destruct (decide (r_id r ∈ keys r_id (g_rules n))) as [Hin|Hin].
    + left. left. exists r. split; [|done]. apply list_elem_of_filter. done.
    + right. exists r. split; [|done]. by apply elem_of_fresh.
  - left. right. exists r. done.
Qed.

(** C7: the virtual links follow the rules through an update.  Let the links of
    a tenant LSI be exactly those its graph [g] needs, each serving at most one
    point per direction, and the switch hold exactly these links.  Then
    updating the graph to [n], adding the links of the new rules and removing
    those of the rules that went never trips an assert; unless the switch
    reports an error, the same holds afterwards for the updated graph: no
    point lacks a link and no link is left over. *)
Theorem update_vlinks_invariant {SW} `{LinkSwitchLaws SW} dpid0 g n d next (s : vstate SW) :
  graph_wf g -> graph_wf n -> removable g n ->
  Forall not_generic (g_rules g) -> Forall not_generic (g_rules n) ->
  let diff := calculateDiff g n (g_id g) in
  0 <= next -> next + Z.of_nat (length (g_rules diff)) < 18446744073709551616 ->
  vinv (needed (g_rules g)) d next s ->
  exists g2, update_graph g n = Ok (g2, removed_infos g n) /\ updated g n g2
    /\ wp (_ ← updateGraph_add_vlinks dpid0 (g_rules diff);
           updateGraph_remove_vlinks (g_rules g2) (removed_infos g n))
         (fun s' _ => exists next', vinv (needed (g_rules g2)) d next' s')
         (fun _ e => e = GraphManagerException) s.
Proof.
  intros Hg Hn Hrem Hgg Hgn diff H0 Hnext Hinv.
  destruct (update_graph_ok g n Hg Hn Hrem) as (g2 & E & Hu). exists g2. split; [done|]. split; [done|].
  pose proof (ds_rules _ _ _ (calculateDiff_ok g n (g_id g) Hn)) as Hdiff. fold diff in Hdiff.
  apply prog_wp_bind. eapply prog_wp_mono; [by apply (updateGraph_add_vlinks_ok dpid0 (g_rules g))| |done].
  intros s1 u (n1 & _ & Hs1). rewrite Hdiff in Hs1. rewrite (up_rules _ _ _ Hu).
  eapply prog_wp_mono; [eapply (updateGraph_remove_vlinks_ok _ (fresh r_id (g_rules n) (g_rules g)));
    [|intros k; apply needed_merged|intros k; apply needed_old|exact Hs1]| |done].
  - rewrite list.Forall_forall in Hgg, Hgn |- *. unfold merged, fresh.
    intros r [[_ Hr]%list_elem_of_filter|[_ Hr]%list_elem_of_filter]%elem_of_app; auto.
  - intros s2 u2 Hs2. exists n1. exact Hs2.
Qed.

(** ** How many links *)

Lemma omap_length_inj {A B} (f : A -> option B) (l : list A) (m : list B) :
  NoDup l -> (forall x, x ∈ l -> exists y, f x = Some y /\ y ∈ m) ->
  (forall x x' y, x ∈ l -> x' ∈ l -> f x = Some y -> f x' = Some y -> x = x') ->
  (length l <= length m)%nat.
Proof.
  intros Hnd Hf Hinj. assert (Hl : length (omap f l) = length l /\ NoDup (omap f l)).
  { revert Hnd Hf Hinj. induction l as [|x l IH]; intros Hnd Hf Hinj; [by split; [|constructor]|].
    apply NoDup_cons in Hnd as [Hx Hnd]. destruct (Hf x ltac:(left)) as (y & Hy & _). cbn. rewrite Hy. cbn.
    destruct IH as [IH1 IH2]; [done|by intros; apply Hf; right|by intros; eapply Hinj; eauto; right|].
    split; [lia|]. apply NoDup_cons. split; [|done].
    intros (x' & Hx' & E)%list_elem_of_omap. apply Hx.
    by rewrite (Hinj x x' y) by (try left; try right; done). }
  destruct Hl as [<- Hl]. apply submseteq_length, NoDup_submseteq; [done|].
  intros y (x & Hx & E)%list_elem_of_omap. destruct (Hf x Hx) as (y' & E' & ?). congruence.
Qed.

(** C10: the number of virtual links of a tenant LSI is bounded on both sides by
    the points its rules need them for: at least the larger of those reached
    upwards and those reached downwards, at most their sum, which is at most
    the number of rules; and a new graph asks for exactly the least number. *)
Theorem vlink_count_bounds rules l :
  Z.of_nat (length rules) < 4294967296 -> vl_ok (needed rules) l ->
  let s := identifyVirtualLinksRequired rules in
  numberOfVLrequired s <= Z.of_nat (length (l_vlinks l))
  /\ Z.of_nat (length (l_vlinks l)) <= Z.of_nat (length (ups s) + length (downs s))
  /\ Z.of_nat (length (ups s) + length (downs s)) <= Z.of_nat (length rules)
  /\ numberOfVLrequired s = Z.max (Z.of_nat (length (ups s))) (Z.of_nat (length (downs s))).
Proof.
  intros Hlt [Hd Hi Hl Hu Ho] s. destruct (number_max rules Hlt) as [Hnum Hle]. fold s in Hnum, Hle.
  assert (H0 : 0 <= numberOfVLrequired s).
  { unfold numberOfVLrequired, u32. case_match; apply Z.mod_pos_bound; lia. }
  assert (Hdir : forall (b : bool) ks, NoDup ks -> (forall k, k ∈ ks -> vset_in k s /\ upward k = b) ->
    (length ks <= length (l_vlinks l))%nat).
  { intros b ks Hks Hin. rewrite <- (length_fmap vl_id (l_vlinks l)).
    apply (omap_length_inj (vlookup l)); [done| |].
    - intros k Hk. destruct (Hin k Hk) as [Hs _]. apply identify_in, Hd in Hs as [id Hid]. exists id.
      split; [done|]. by apply Hl in Hid.
    - intros k k' id Hk Hk' E E'. apply (Ho k k' id); [done|done|].
      destruct (Hin k Hk), (Hin k' Hk'). congruence. }
  pose proof (Hdir true (ups s) (NoDup_ups s) ltac:(intros; by apply elem_of_ups)).
  pose proof (Hdir false (downs s) (NoDup_downs s) ltac:(intros; by apply elem_of_downs)).
  assert (length (l_vlinks l) <= length (points s))%nat.
  { rewrite <- (length_fmap vl_id). transitivity (length (omap (vlookup l) (points s))).
    - apply submseteq_length, NoDup_submseteq; [done|]. intros id (v & -> & Hv)%list_elem_of_fmap.
      destruct (Hu v Hv) as [k Hk]. apply list_elem_of_omap. exists k. split; [|done].
      apply elem_of_points, identify_in, Hd. eauto.
    - generalize (points s). intros ks. induction ks as [|k ks IH]; [done|]. cbn. destruct (vlookup l k); cbn; lia. }
  assert (length (points s) <= length rules)%nat.
  { apply needed_length; [apply NoDup_points|]. intros k Hk. by apply identify_in, elem_of_points. }
  rewrite points_perm, length_app in *. lia.
Qed.
