(* ===== verification/Translator.v ===== *)
(** * Lowering a graph to the switches (graph_manager/graph_translator.cc)

    A high-level rule becomes a rule of LSI-0, a rule of the tenant LSI, or one
    of each, joined by a virtual link.  [lower_rule_lsi0] and
    [lower_rule_tenant] are the bodies of the two loops, branch by branch;
    [None] is a [continue] without a rule.  Port numbers are [unsigned int]. *)

From Stdlib Require Import ZArith Lia String.
From stdpp Require Import gmap strings numbers base list.
From S2P Require Import Prelude Cpp Keyed FlowMatch HighLevel HLGraph LowLevel Lsi.

Abbreviation conns := (gmap string (gmap string Z)).

(** The port of LSI-0 towards an internal endpoint: [operator\[\]] twice. *)
Definition conn_port (c : conns) (group gid : string) : Z :=
  default 0 (default ∅ (c !! group) !! gid).

(** The virtual link of an entry of one of the maps; [missing] is what happens
    when the entry is not there (an assert, or [end()->second]). *)
Definition vlink_of (missing : fault) (m : gmap string Z) (key : string) (tenant : LSI) : out VLink :=
  match m !! key with
  | None => Halt missing
  | Some id => of_res (getVirtualLink id tenant)
  end.

Definition lsi0_rule_id (gid rid : string) : string := gid +:+ "_" +:+ rid.

Definition mk_rule (m : LMatch) (a : LAction) (id : string) (r : Rule) : LRule :=
  {| lr_match := m; lr_action := a; lr_id := id; lr_priority := r_priority r |}.

Definition common_match (r : Rule) : out LMatch :=
  of_res (lm_setAllCommonFields (hm_base (r_match r)) (LMatch_new false)).
Definition port_match (p : Z) : LMatch := lm_setInputPort p (LMatch_new false).
Definition with_generic (p : Z) (r : Rule) : LAction :=
  la_addGenericActions (LAction_port p) (a_generic (r_action r)).

Section lsi0.
Context (gid : string) (tenant lsi0 : LSI) (c : conns).

Definition lower_port_lsi0 (r : Rule) : out (option LRule) :=
  port ← of_res (getPhysicalPort (r_match r));
  match l_physical lsi0 !! port with
  | None => Throw GraphManagerException
  | Some n =>
      m ← common_match r;
      let m := lm_setInputPort n m in
      info ← of_res (a_getInfo (r_action r));
      match a_output (r_action r) with
      | ActionPort _ _ =>
          match l_physical lsi0 !! info with
          | None => Throw GraphManagerException
          | Some p => Ret (Some (mk_rule m (with_generic p r) (lsi0_rule_id gid (r_id r)) r))
          end
      | ActionEndPointGre endpointID _ =>
          v ← vlink_of Assert (l_gre_vlinks tenant) endpointID tenant;
          Ret (Some (mk_rule m (with_generic (vl_remote_id v) r) (lsi0_rule_id gid (r_id r)) r))
      | ActionNetworkFunction _ _ port =>
          v ← vlink_of Assert (l_nfs_vlinks tenant) (nf_port_of info port) tenant;
          Ret (Some (mk_rule m (with_generic (vl_remote_id v) r) (lsi0_rule_id gid (r_id r)) r))
      | ActionEndPointInternal _ _ => Ret None
      end
  end.

Definition lower_gre_lsi0 (r : Rule) : out (option LRule) :=
  _ ← out_assert (bool_decide (a_type (r_action r) = ACTION_ON_PORT));
  info ← of_res (a_getInfo (r_action r));
  m ← match l_ports_vlinks tenant !! info with
      | None => Ret (LMatch_new false)
      | Some id =>
          v ← of_res (getVirtualLink id tenant);
          m ← common_match r;
          Ret (lm_setInputPort (vl_remote_id v) m)
      end;
  match l_physical lsi0 !! info with
  | None => Throw GraphManagerException
  | Some p => Ret (Some (mk_rule m (with_generic p r) (lsi0_rule_id gid (r_id r)) r))
  end.

Definition lower_internal_lsi0 (r : Rule) : out (option LRule) :=
  _ ← out_assert (bool_decide (a_type (r_action r) = ACTION_ON_NETWORK_FUNCTION)
                  || bool_decide (a_type (r_action r) = ACTION_ON_ENDPOINT_GRE));
  g ← of_res (getEndPointInternal (r_match r));
  m ← common_match r;
  let m := lm_setInputPort (conn_port c (show g) gid) m in
  info ← of_res (a_getInfo (r_action r));
  match a_output (r_action r) with
  | ActionNetworkFunction _ _ port =>
      v ← vlink_of Assert (l_nfs_vlinks tenant) (nf_port_of info port) tenant;
      Ret (Some (mk_rule m (with_generic (vl_remote_id v) r) (lsi0_rule_id gid (r_id r)) r))
  | _ =>
      v ← vlink_of Assert (l_gre_vlinks tenant) (a_toString (r_action r)) tenant;
      Ret (Some (mk_rule m (with_generic (vl_remote_id v) r) (lsi0_rule_id gid (r_id r)) r))
  end.

Definition lower_nf_lsi0 (r : Rule) : out (option LRule) :=
  _ ← out_assert (matchOnNF (r_match r));
  match a_output (r_action r) with
  | ActionPort _ _ =>
      info ← of_res (a_getInfo (r_action r));
      match l_physical lsi0 !! info with
      | None => Throw GraphManagerException
      | Some p =>
          v ← vlink_of Undef (l_ports_vlinks tenant) info tenant;
          Ret (Some (mk_rule (port_match (vl_remote_id v)) (LAction_port p)
                       (lsi0_rule_id gid (r_id r)) r))
      end
  | _ => Ret None
  end.

Definition lower_rule_lsi0 (r : Rule) : out (option LRule) :=
  let m := r_match r in
  let t := a_type (r_action r) in
  if matchOnNF m && bool_decide (t = ACTION_ON_NETWORK_FUNCTION) then Ret None
  else if matchOnNF m && bool_decide (t = ACTION_ON_ENDPOINT_GRE) then Ret None
  else if matchOnEndPointGre m && bool_decide (t = ACTION_ON_ENDPOINT_GRE) then Ret None
  else if matchOnEndPointGre m && bool_decide (t = ACTION_ON_NETWORK_FUNCTION) then Ret None
  else if (matchOnNF m || matchOnEndPointGre m) && bool_decide (t = ACTION_ON_ENDPOINT_INTERNAL) then
    v ← vlink_of Undef (l_eps_vlinks tenant) (a_toString (r_action r)) tenant;
    Ret (Some (mk_rule (port_match (vl_remote_id v))
                 (LAction_port (conn_port c (a_toString (r_action r)) gid))
                 (lsi0_rule_id gid (r_id r)) r))
  else if matchOnPort m then lower_port_lsi0 r
  else if matchOnEndPointGre m then lower_gre_lsi0 r
  else if matchOnEndPointInternal m then lower_internal_lsi0 r
  else lower_nf_lsi0 r.

Definition lowerGraphToLSI0 (rules : list Rule) : out LGraph :=
  out_fold (fun g r =>
    o ← lower_rule_lsi0 r;
    Ret (match o with Some lr => lg_addRule g lr | None => g end)) [] rules.
End lsi0.

(** [stale s] is what reading [s] through the pointer [getInputEndpoint]
    returns gives, the string having been destroyed. *)
Section tenant.
Context (stale : string -> string) (tenant : LSI).

(** The search over the endpoint numbers: 0 when the name is not there. *)
Definition endpoint_no (ep : string) : Z := default 0 (l_ep_ids tenant !! ep).

Definition lower_up_tenant (r : Rule) : out (option LRule) :=
  info ← of_res (a_getInfo (r_action r));
  match a_output (r_action r) with
  | ActionEndPointGre endpointID _ =>
      v ← vlink_of Undef (l_gre_vlinks tenant) endpointID tenant;
      Ret (Some (mk_rule (port_match (vl_local_id v)) (LAction_port (endpoint_no endpointID))
                   (r_id r) r))
  | ActionNetworkFunction _ _ port =>
      match l_nfs tenant !! info with
      | None => Throw GraphManagerException
      | Some _ =>
          match getNetworkFunctionsPorts info tenant !! nf_port_of info port with
          | None => Throw GraphManagerException
          | Some n =>
              v ← vlink_of Undef (l_nfs_vlinks tenant) (nf_port_of info port) tenant;
              Ret (Some (mk_rule (port_match (vl_local_id v)) (LAction_port n) (r_id r) r))
          end
      end
  | _ => Halt Assert
  end.

(** The endpoint name is copied into 64 characters. *)
Definition lower_gre_tenant (r : Rule) : out (option LRule) :=
  ep ← of_res (getInputEndpoint (r_match r));
  _ ← (if Z.of_nat (String.length (stale ep)) <? 64 then Ret tt else Halt Oob);
  _ ← out_assert (negb (bool_decide (a_type (r_action r) = ACTION_ON_ENDPOINT_GRE)));
  info ← of_res (a_getInfo (r_action r));
  m ← common_match r;
  let m := lm_setInputPort (endpoint_no (stale ep)) m in
  match a_output (r_action r) with
  | ActionNetworkFunction _ _ port =>
      n ← deref (getNetworkFunctionsPorts info tenant !! nf_port_of info port);
      Ret (Some (mk_rule m (with_generic n r) (r_id r) r))
  | ActionEndPointInternal _ _ =>
      v ← vlink_of Assert (l_eps_vlinks tenant) info tenant;
      Ret (Some (mk_rule m (with_generic (vl_local_id v) r) (r_id r) r))
  | _ =>
      v ← vlink_of Assert (l_ports_vlinks tenant) info tenant;
      Ret (Some (mk_rule m (with_generic (vl_local_id v) r) (r_id r) r))
  end.

Definition lower_nf_tenant (r : Rule) : out (option LRule) :=
  _ ← out_assert (matchOnNF (r_match r));
  nf ← of_res (getNF (r_match r));
  nfPort ← of_res (getPortOfNF (r_match r));
  match l_nfs tenant !! nf with
  | None => Throw GraphManagerException
  | Some _ =>
      match getNetworkFunctionsPorts nf tenant !! nf_port_of nf nfPort with
      | None => Throw GraphManagerException
      | Some n =>
          m ← common_match r;
          let m := lm_setInputPort n m in
          info ← of_res (a_getInfo (r_action r));
          match a_output (r_action r) with
          | ActionNetworkFunction _ _ port =>
              match l_nfs tenant !! info with
              | None => Throw GraphManagerException
              | Some _ =>
                  match getNetworkFunctionsPorts info tenant !! nf_port_of info port with
                  | None => Throw GraphManagerException
                  | Some p => Ret (Some (mk_rule m (with_generic p r) (r_id r) r))
                  end
              end
          | ActionPort _ _ =>
              v ← vlink_of Undef (l_ports_vlinks tenant) info tenant;
              Ret (Some (mk_rule m (with_generic (vl_local_id v) r) (r_id r) r))
          | ActionEndPointInternal _ _ =>
              v ← vlink_of Assert (l_eps_vlinks tenant) (a_toString (r_action r)) tenant;
              Ret (Some (mk_rule m (with_generic (vl_local_id v) r) (r_id r) r))
          | ActionEndPointGre endpointID _ =>
              Ret (Some (mk_rule m (with_generic (endpoint_no endpointID) r) (r_id r) r))
          end
      end
  end.

Definition lower_rule_tenant (r : Rule) : out (option LRule) :=
  let m := r_match r in
  let t := a_type (r_action r) in
  let low := bool_decide (t = ACTION_ON_PORT) || bool_decide (t = ACTION_ON_ENDPOINT_INTERNAL) in
  if matchOnPort m && low then Ret None
  else if matchOnEndPointInternal m && low then Ret None
  else if matchOnPort m || matchOnEndPointInternal m then lower_up_tenant r
  else if matchOnEndPointGre m then lower_gre_tenant r
  else lower_nf_tenant r.

Definition lowerGraphToTenantLSI (rules : list Rule) : out LGraph :=
  out_fold (fun g r =>
    o ← lower_rule_tenant r;
    Ret (match o with Some lr => lg_addRule g lr | None => g end)) [] rules.
End tenant.

(** ** The loops *)

Section loops.
Context (f : Rule -> out (option LRule)).
#[local] Abbreviation loop := (out_fold (fun g r =>
    o ← f r; Ret (match o with Some lr => lg_addRule g lr | None => g end))).

Lemma lower_loop_ret g rules t :
  loop g rules = Ret t ->
  (forall r, r ∈ rules -> exists o, f r = Ret o)
  /\ (forall lr, lr ∈ t <-> lr ∈ g \/ exists r, r ∈ rules /\ f r = Ret (Some lr)).
Proof.
  revert g. induction rules as [|r rules IH]; intros g; cbn [out_fold].
  - intros [= <-]. split; [intros r []%elem_of_nil|]. intros lr. split; [by left|].
    intros [?|(? & []%elem_of_nil & _)]; done.
  - intros (g1 & H1 & H2)%out_bind_ret. apply out_bind_ret in H1 as (o & Ho & [= <-]).
    destruct (IH _ H2) as [Hr Ht]. split.
    + intros r' [->|?]%elem_of_cons; eauto.
    + intros lr. rewrite Ht. split.
      * intros [Hlr|(r' & ? & ?)]; [|right; exists r'; split; [by right|done]].
        destruct o as [lr0|]; [|by left]. unfold lg_addRule in Hlr.
        apply elem_of_app in Hlr as [?|Hlr]; [by left|].
        apply list_elem_of_singleton in Hlr as ->. right. exists r. split; [left|done].
      * intros [Hlr|(r' & [->|Hr']%elem_of_cons & Hf)].
        -- left. destruct o; [|done]. apply elem_of_app. by left.
        -- rewrite Ho in Hf. injection Hf as ->. left. apply elem_of_app. right. left.
        -- right. eauto.
Qed.
End loops.
