(* ===== verification/Controller.v ===== *)
(** * The OpenFlow controller of a switch (openflow_controller/controller.cc)

    A controller keeps the rules of its switch and, while the datapath is
    connected, sends the flow-mods that install and remove them.  [handle_dpt_open]
    and the calls that install and remove rules take the controller's mutex, so
    they happen one after the other.  [handle_dpt_close], which
    only clears [isOpen], takes no mutex; the model has it happen between calls
    too, which leaves out a close in the middle of one.  The flow table
    of the datapath is modelled as OpenFlow prescribes: an addition replaces
    the entry with the same match and priority, a strict deletion removes it. *)

From Stdlib Require Import ZArith Lia String.
From stdpp Require Import gmap strings numbers base list.
From S2P Require Import Prelude Cpp Keyed FlowMatch HighLevel LowLevel.

Record Controller := { c_open : bool; c_graph : LGraph; c_port : string }.
Definition Controller_new (graph : LGraph) (port : string) : Controller :=
  {| c_open := false; c_graph := graph; c_port := port |}.
Definition set_c_graph (g : LGraph) (c : Controller) : Controller :=
  {| c_open := c_open c; c_graph := g; c_port := c_port c |}.

Inductive dp_msg := FlowReset | GroupReset | FlowMod (f : flow_mod).

(** A rule whose output port was never set cannot be written. *)
Definition rule_add (r : LRule) : res dp_msg :=
  match lr_flow_add r with Some f => Ok (FlowMod f) | None => Err Undef end.
Definition rule_delete (r : LRule) : dp_msg := FlowMod (lr_flow_delete r).

Definition installNewRulesIntoLSI (c : Controller) (rules : list LRule) : res (list dp_msg * bool) :=
  match rules with
  | [] => Ok ([], true)
  | _ => if c_open c then ms ← mapM rule_add rules; Ok (ms, true) else Ok ([], false)
  end.
Definition removeRulesFromLSI (c : Controller) (rules : list LRule) : list dp_msg * bool :=
  if c_open c then (rule_delete <$> rules, true) else ([], false).

Definition handle_dpt_open (c : Controller) : res (Controller * list dp_msg) :=
  let c := {| c_open := true; c_graph := c_graph c; c_port := c_port c |} in
  '(ms, _) ← installNewRulesIntoLSI c (c_graph c);
  Ok (c, FlowReset :: GroupReset :: ms).
Definition handle_dpt_close (c : Controller) : Controller :=
  {| c_open := false; c_graph := c_graph c; c_port := c_port c |}.

Definition installNewRule (c : Controller) (r : LRule) : res (Controller * list dp_msg * bool) :=
  let c := set_c_graph (lg_addRule (c_graph c) r) c in
  '(ms, ret) ← installNewRulesIntoLSI c [r];
  Ok (c, ms, ret).
Definition installNewRules (c : Controller) (rules : list LRule) : res (Controller * list dp_msg * bool) :=
  let c := set_c_graph (lg_addRules (c_graph c) rules) c in
  '(ms, ret) ← installNewRulesIntoLSI c rules;
  Ok (c, ms, ret).

Section removal.
Context (garbage : bool).
Definition removeRules (c : Controller) (rules : list LRule) : res (Controller * list dp_msg * bool) :=
  g ← lg_removeRules garbage (c_graph c) rules;
  let c := set_c_graph g c in
  let '(ms, ret) := removeRulesFromLSI c rules in
  Ok (c, ms, ret).
(** [getRule] throws when no rule has this identifier: nothing is done. *)
Definition removeRuleFromID (c : Controller) (id : string) : Controller * list dp_msg * bool :=
  match lg_getRule (c_graph c) id with
  | Ret rule =>
      let '(g, again) := lg_removeRuleFromID garbage (c_graph c) id in
      let c := set_c_graph g c in
      if again then (c, [], false)
      else let '(ms, ret) := removeRulesFromLSI c [rule] in (c, ms, ret)
  | _ => (c, [], false)
  end.
End removal.

(** ** The flow table *)

Abbreviation fkey := (Z * flow_match)%type.
Abbreviation entry := (fkey * list action_op)%type.

Definition dp_apply (t : list entry) (m : dp_msg) : list entry :=
  match m with
  | FlowReset => []
  | GroupReset => t
  | FlowMod (FlowAdd prio fm ops) => filter (fun e => fst e <> (prio, fm)) t ++ [((prio, fm), ops)]
  | FlowMod (FlowDeleteStrict prio fm) => filter (fun e => fst e <> (prio, fm)) t
  end.
Definition dp_run (t : list entry) (ms : list dp_msg) : list entry := foldl dp_apply t ms.

Definition lr_fkey (r : LRule) : fkey := (u16 (lr_priority r), lm_flow (lr_match r)).
Definition lr_entry (r : LRule) : option entry := (fun ops => (lr_fkey r, ops)) <$> la_ops (lr_action r).

(** What happens to a controller and its datapath.  While the connection is
    down the table of the datapath may change in any way: [EClose] gives it. *)
Inductive event :=
| EOpen
| EClose (t : list entry)
| EInstallRule (r : LRule)
| EInstall (rules : list LRule)
| ERemove (rules : list LRule)
| ERemoveID (id : string).

Record system := { sys_ctl : Controller; sys_table : list entry }.

Definition step (garbage : bool) (s : system) (e : event) : res system :=
  let c := sys_ctl s in
  let t := sys_table s in
  match e with
  | EOpen => '(c, ms) ← handle_dpt_open c; Ok {| sys_ctl := c; sys_table := dp_run t ms |}
  | EClose t' => Ok {| sys_ctl := handle_dpt_close c; sys_table := t' |}
  | EInstallRule r => '(c, ms, _) ← installNewRule c r; Ok {| sys_ctl := c; sys_table := dp_run t ms |}
  | EInstall rs => '(c, ms, _) ← installNewRules c rs; Ok {| sys_ctl := c; sys_table := dp_run t ms |}
  | ERemove rs => '(c, ms, _) ← removeRules garbage c rs; Ok {| sys_ctl := c; sys_table := dp_run t ms |}
  | ERemoveID id =>
      let '(c, ms, _) := removeRuleFromID garbage c id in
      Ok {| sys_ctl := c; sys_table := dp_run t ms |}
  end.
Definition run (garbage : bool) (s : system) (evs : list event) : res system :=
  res_fold (step garbage) s evs.

(** ** The table follows the rules *)

(** Rules as the translator makes them: an input and an output port that are
    set, and no VLAN of an endpoint. *)
Record rule_ok (r : LRule) : Prop := {
  ro_in : is_Some (lm_input_port (lr_match r));
  ro_local : lm_is_local_port (lr_match r) = false;
  ro_vlan : isEndpointVlanID (lm_base (lr_match r)) = false;
  ro_out : is_Some (la_port_id (lr_action r))
}.
#[export] Instance rule_ok_dec r : Decision (rule_ok r).
Proof.
  refine (cast_if (decide (is_Some (lm_input_port (lr_match r)) /\ lm_is_local_port (lr_match r) = false
    /\ isEndpointVlanID (lm_base (lr_match r)) = false /\ is_Some (la_port_id (lr_action r)))));
    [abstract (split; tauto)|abstract (intros []; tauto)].
Defined.
(** No two rules have the same match and priority. *)
Definition distinct (g : LGraph) : Prop := NoDup (keys lr_fkey g).
Definition table_ok (g : LGraph) (t : list entry) : Prop :=
  forall e, e ∈ t <-> exists r, r ∈ g /\ lr_entry r = Some e.

Lemma put_port_eq m o b src : (negb b || ports_equal m o) = true ->
  put_port b (if src : bool then transport_src_port m else transport_dst_port m)
  = put_port b (if src then transport_src_port o else transport_dst_port o).
Proof.
  unfold put_port, ports_equal. destruct b; cbn; [|done].
  intros [->%Z.eqb_eq ->%Z.eqb_eq]%andb_true_iff. done.
Qed.

(** Matches that compare equal are written as the same match. *)
Lemma isEqual_fields m o :
  isEndpointVlanID m = false -> isEndpointVlanID o = false ->
  isEqual m o = true -> match_fields m = match_fields o.
Proof.
  intros Em Eo. unfold isEqual. rewrite !andb_true_iff.
  intros [[[[[[[[[[[Hs Hn] Hv] Hvid] Hno] Hany] Ht] Htp] Hu] Hup] Hsc] Hscp].
  assert (Estr : forall f, str_of m f = str_of o f).
  { intros f. rewrite forallb_forall in Hs. apply (bool_decide_unpack _), Is_true_true, Hs, list_elem_of_In, all_cfields_complete. }
  assert (Enum : forall f, num_of m f = num_of o f).
  { intros f. rewrite forallb_forall in Hn. apply (bool_decide_unpack _), Is_true_true, Hn, list_elem_of_In, all_nfields_complete. }
  apply eqb_prop in Hv, Hno, Hany, Ht, Hu, Hsc.
  assert (Hvlan : put_vlan m = put_vlan o).
  { unfold put_vlan. rewrite <- Hv, <- Hno, <- Hany, Em, Eo. destruct (isVlanID m); cbn in *; [|done].
    by apply Z.eqb_eq in Hvid as ->. }
  unfold match_fields. rewrite Hvlan, <- Ht, <- Hu, <- Hsc.
  rewrite (put_port_eq m o _ true Htp), (put_port_eq m o _ false Htp),
    (put_port_eq m o _ true Hup), (put_port_eq m o _ false Hup),
    (put_port_eq m o _ true Hscp), (put_port_eq m o _ false Hscp).
  unfold put_addr, put_field, put_icmpv6_code, put_gre_key. cbn [mbind option_bind].
  by rewrite !Estr, !Enum.
Qed.

Lemma lr_eqb_key garbage r o :
  rule_ok r -> rule_ok o -> lr_eqb garbage r o = true -> lr_fkey r = lr_fkey o.
Proof.
  intros [[p Hp] Hl Hv _] [[q Hq] Hl' Hv' _]. unfold lr_eqb, lm_eqb, lr_fkey. rewrite !andb_true_iff, Hp, Hq.
  intros [[->%Z.eqb_eq _] [->%Z.eqb_eq H]%andb_true_iff]. f_equal. unfold lm_flow, lm_in_port.
  rewrite Hl, Hl', Hp, Hq. f_equal. by apply isEqual_fields.
Qed.
Lemma isEqual_refl m : isEqual m m = true.
Proof.
  unfold isEqual, ports_equal. rewrite !eqb_reflx, !Z.eqb_refl.
  assert (forall (A : Type) (f : A -> bool) l, (forall x, f x = true) -> forallb f l = true) as Hall.
  { intros A f l Hf. induction l; cbn; [done|]. by rewrite Hf. }
  rewrite !Hall by (intros; by apply bool_decide_eq_true_2). cbn. by rewrite !orb_true_r.
Qed.
Lemma lr_eqb_refl garbage r : rule_ok r -> lr_eqb garbage r r = true.
Proof.
  intros [[p Hp] _ _ [q Hq]]. unfold lr_eqb, la_eqb, lm_eqb. by rewrite Hp, Hq, !Z.eqb_refl, isEqual_refl.
Qed.
Lemma rule_ok_entry r : rule_ok r -> exists ops, la_ops (lr_action r) = Some ops.
Proof.
  intros [_ _ _ [p Hp]]. unfold la_ops, la_output. rewrite Hp. by destruct (la_is_local_port (lr_action r)), (la_is_normal (lr_action r)); cbn; eauto.
Qed.

Lemma table_ok_add g t r m :
  table_ok g t -> distinct (g ++ [r]) -> rule_add r = Ok m -> table_ok (g ++ [r]) (dp_apply t m).
Proof.
  intros Ht Hd Hm. unfold rule_add, lr_flow_add in Hm. destruct (la_ops (lr_action r)) as [ops|] eqn:Eo; [|done].
  injection Hm as <-. cbn [dp_apply]. fold (lr_fkey r).
  assert (Hr : lr_entry r = Some (lr_fkey r, ops)) by (unfold lr_entry; by rewrite Eo).
  unfold distinct in Hd. rewrite keys_app in Hd. apply list.NoDup_app in Hd as (_ & Hd & _).
  intros e. rewrite elem_of_app, list_elem_of_singleton, list_elem_of_filter, (Ht e). split.
  - intros [[_ (x & Hx & E)]| ->]; [exists x|exists r]; rewrite elem_of_app, list_elem_of_singleton; auto.
  - intros (x & [Hx| ->%list_elem_of_singleton]%elem_of_app & E); [left|right; congruence].
    split; [|eauto]. unfold lr_entry in E. apply fmap_Some in E as (o & _ & ->). cbn.
    intros Ek. apply (Hd (lr_fkey x)); [by apply elem_of_keys|]. rewrite Ek. left.
Qed.
Lemma table_ok_adds g t rs ms :
  table_ok g t -> distinct (g ++ rs) -> mapM rule_add rs = Ok ms -> table_ok (g ++ rs) (dp_run t ms).
Proof.
  revert g t ms. induction rs as [|r rs IH]; intros g t ms Ht Hd Hm; cbn in Hm.
  - injection Hm as <-. by rewrite app_nil_r.
  - apply res_bind_ok in Hm as (m & H1 & Hm). apply res_bind_ok in Hm as (ms' & H2 & [= <-]).
    replace (g ++ r :: rs) with ((g ++ [r]) ++ rs) in * by (by rewrite <- app_assoc).
    cbn [dp_run foldl]. apply IH; [|done|done]. eapply table_ok_add; [done| |done].
    unfold distinct in *. rewrite keys_app in Hd. by apply list.NoDup_app in Hd as [? _].
Qed.
Lemma table_ok_delete l1 r l2 t :
  table_ok (l1 ++ r :: l2) t -> distinct (l1 ++ r :: l2) -> table_ok (l1 ++ l2) (dp_apply t (rule_delete r)).
Proof.
  intros Ht Hd. cbn [dp_apply rule_delete lr_flow_delete]. fold (lr_fkey r).
  unfold distinct, keys in Hd. rewrite fmap_app, fmap_cons in Hd.
  apply list.NoDup_app in Hd as (_ & D1 & D2). apply NoDup_cons in D2 as [D2 _].
  assert (Hne : forall x, x ∈ l1 ++ l2 -> lr_fkey x <> lr_fkey r).
  { intros x [Hx|Hx]%elem_of_app E.
    - apply (D1 (lr_fkey x)); [by apply list_elem_of_fmap_2|]. rewrite E. left.
    - apply D2. rewrite <- E. by apply list_elem_of_fmap_2. }
  intros e. rewrite list_elem_of_filter, (Ht e). split.
  - intros [Hk (x & Hx & E)]. exists x. split; [|done]. apply elem_of_app in Hx as [Hx|[->|Hx]%elem_of_cons];
      [apply elem_of_app; by left| |apply elem_of_app; by right].
    unfold lr_entry in E. apply fmap_Some in E as (o & _ & ->). done.
  - intros (x & Hx & E). split.
    + unfold lr_entry in E. apply fmap_Some in E as (o & _ & ->). by apply Hne.
    + exists x. split; [|done]. apply elem_of_app in Hx as [Hx|Hx]; apply elem_of_app; [by left|right; by right].
Qed.

Lemma distinct_split l1 r l2 : distinct (l1 ++ r :: l2) -> distinct (l1 ++ l2).
Proof.
  unfold distinct, keys. rewrite <- Permutation_middle, fmap_cons. by intros [_ ?]%NoDup_cons.
Qed.
Lemma lg_removeRule_split garbage g r g' :
  Forall rule_ok g -> rule_ok r -> r ∈ g -> distinct g -> lg_removeRule garbage g r = Ok g' ->
  exists l1 l2, g = l1 ++ r :: l2 /\ g' = l1 ++ l2.
Proof.
  intros Hg Hr Hin Hd. unfold lg_removeRule. destruct (erase_first _ g) as [g0|] eqn:E; [|done].
  intros [= <-]. apply erase_first_Some in E as (l1 & x & l2 & -> & -> & Hx & _).
  exists l1, l2. split; [|done]. assert (Hx' : x ∈ l1 ++ x :: l2) by set_solver.
  rewrite list.Forall_forall in Hg. apply lr_eqb_key in Hx; [|by apply Hg|done].
  by rewrite (keys_inj lr_fkey _ _ _ Hd Hx' Hin Hx).
Qed.

(** ** Executions *)

Definition allowed (s : system) (e : event) : Prop :=
  let g := c_graph (sys_ctl s) in
  match e with
  | EInstallRule r => rule_ok r /\ distinct (g ++ [r])
  | EInstall rs => Forall rule_ok rs /\ distinct (g ++ rs)
  | ERemove rs => rs ⊆ g /\ NoDup rs
  | EOpen | EClose _ | ERemoveID _ => True
  end.

Inductive exec (garbage : bool) : system -> list event -> system -> Prop :=
| exec_nil s : exec garbage s [] s
| exec_cons s e s1 evs s' :
    allowed s e -> step garbage s e = Ok s1 -> exec garbage s1 evs s' -> exec garbage s (e :: evs) s'.

Record sys_inv (s : system) : Prop := {
  si_rules : Forall rule_ok (c_graph (sys_ctl s));
  si_distinct : distinct (c_graph (sys_ctl s));
  si_table : c_open (sys_ctl s) = true -> table_ok (c_graph (sys_ctl s)) (sys_table s)
}.

Lemma mapM_rule_add rs : Forall rule_ok rs -> exists ms, mapM rule_add rs = Ok ms.
Proof.
  induction 1 as [|r rs Hr Hrs [ms IH]]; [by exists []|]. destruct (rule_ok_entry r Hr) as [ops Hops].
  assert (E : exists m, rule_add r = Ok m) by (unfold rule_add, lr_flow_add; rewrite Hops; cbn; eauto).
  destruct E as [m E]. exists (m :: ms). cbn. rewrite E. cbn. by rewrite IH.
Qed.

Lemma install_ok c t rs :
  sys_inv {| sys_ctl := c; sys_table := t |} -> Forall rule_ok rs -> distinct (c_graph c ++ rs) ->
  exists ms b, installNewRulesIntoLSI (set_c_graph (c_graph c ++ rs) c) rs = Ok (ms, b)
    /\ sys_inv {| sys_ctl := set_c_graph (c_graph c ++ rs) c; sys_table := dp_run t ms |}.
Proof.
  intros [Hr Hd Ht] Hrs Hd'. cbn in *. destruct (mapM_rule_add rs Hrs) as [ms Hms].
  unfold installNewRulesIntoLSI. destruct rs as [|r rs].
  - exists [], true. split; [done|]. rewrite app_nil_r in *. by destruct c.
  - cbn [c_open set_c_graph]. destruct (c_open c) eqn:Eo.
    + rewrite Hms. exists ms, true. split; [done|]. split; cbn; [by apply Forall_app|done|].
      intros _. eapply table_ok_adds; eauto.
    + exists [], false. split; [done|]. split; cbn; [by apply Forall_app|done|congruence].
Qed.

(** Removing rules of the graph, one after the other. *)
Lemma removeRules_ok garbage g rs t :
  Forall rule_ok g -> distinct g -> rs ⊆ g -> NoDup rs ->
  exists g', lg_removeRules garbage g rs = Ok g' /\ Forall rule_ok g' /\ distinct g'
    /\ (table_ok g t -> table_ok g' (dp_run t (rule_delete <$> rs))).
Proof.
  revert g t. induction rs as [|r rs IH]; intros g t Hg Hd Hsub Hnd; [by exists g|].
  apply NoDup_cons in Hnd as [Hr Hnd]. assert (Hin : r ∈ g) by (apply Hsub; left).
  assert (Hok : rule_ok r) by (by eapply list.Forall_forall).
  destruct (erase_first_is_Some (fun x => lr_eqb garbage x r) g r Hin (lr_eqb_refl _ _ Hok)) as [g0 Hg0].
  assert (H1 : lg_removeRule garbage g r = Ok g0) by (unfold lg_removeRule; by rewrite Hg0).
  destruct (lg_removeRule_split garbage g r g0 Hg Hok Hin Hd H1) as (l1 & l2 & -> & ->).
  destruct (IH (l1 ++ l2) (dp_apply t (rule_delete r))) as (g' & H2 & Hg' & Hd' & Ht').
  - apply Forall_app in Hg as [? Hg]. apply Forall_cons in Hg as [_ ?]. by apply Forall_app.
  - by eapply distinct_split.
  - intros x Hx. specialize (Hsub x ltac:(by right)). rewrite !elem_of_app, elem_of_cons in *.
    destruct Hsub as [?|[->|?]]; auto. done.
  - done.
  - exists g'. split; [|split; [done|]; split; [done|]].
    + unfold lg_removeRules. rewrite res_fold_cons, H1. exact H2.
    + intros Ht. apply Ht'. by apply table_ok_delete.
Qed.

Lemma ctl_removeRuleFromID_ok garbage c t id :
  sys_inv {| sys_ctl := c; sys_table := t |} ->
  let '(c', ms, _) := removeRuleFromID garbage c id in
  sys_inv {| sys_ctl := c'; sys_table := dp_run t ms |}.
Proof.
  intros Hinv. pose proof Hinv as [Hr Hd Ht]. cbn in *. unfold removeRuleFromID, lg_getRule, lg_removeRuleFromID.
  destruct (find_first (fun r => bool_decide (lr_id r = id)) (c_graph c)) as [r|] eqn:Ef; [|done].
  pose proof (find_first_Some _ _ _ Ef) as [Hin Hid].
  destruct (erase_first_is_Some (fun r => bool_decide (lr_id r = id)) (c_graph c) r Hin Hid) as [g' Eg].
  rewrite Eg. cbn [default].
  assert (Hagain : existsb (fun again => negb (bool_decide (lr_id r = lr_id again)) && lr_eqb garbage r again)
    (c_graph c) = false).
  { apply not_true_iff_false. intros (x & Hx%list_elem_of_In & [Hne Heq]%andb_true_iff)%existsb_exists.
    rewrite list.Forall_forall in Hr. apply lr_eqb_key in Heq; [|by apply Hr..].
    rewrite (keys_inj lr_fkey _ _ _ Hd Hin Hx Heq) in Hne.
    by rewrite bool_decide_eq_true_2 in Hne by done. }
  rewrite Hagain. apply erase_first_Some in Eg as (l1 & x & l2 & Eg & -> & Hx & Hl1).
  assert (x = r) as ->.
  { rewrite Eg in Ef. clear -Ef Hx Hl1. induction l1 as [|y l1 IH]; cbn [app] in Ef; rewrite find_first_cons in Ef.
    - rewrite Hx in Ef. congruence.
    - apply Forall_cons in Hl1 as [Hy Hl1]. rewrite Hy in Ef. auto. }
  unfold removeRulesFromLSI. cbn [c_open set_c_graph]. rewrite Eg in *.
  apply Forall_app in Hr as [Hr1 Hr2]. apply Forall_cons in Hr2 as [_ Hr2].
  destruct (c_open c) eqn:Eo; split; cbn; try (by apply Forall_app); try (by eapply distinct_split); [|congruence].
  intros _. apply (table_ok_delete l1 r l2); auto.
Qed.

Lemma step_ok garbage s e :
  sys_inv s -> allowed s e -> exists s', step garbage s e = Ok s' /\ sys_inv s'.
Proof.
  intros Hinv Ha. pose proof Hinv as [Hr Hd Ht]. destruct s as [c t]. destruct e; cbn in Ha; cbn [step sys_ctl sys_table].
  - unfold handle_dpt_open. cbn [c_graph]. destruct (mapM_rule_add _ Hr) as [ms Hms]. cbn in Hms.
    assert (Hi : installNewRulesIntoLSI {| c_open := true; c_graph := c_graph c; c_port := c_port c |} (c_graph c)
      = Ok (ms, true)).
    { unfold installNewRulesIntoLSI. cbn in *. destruct (c_graph c) as [|r rs]; [by cbn in Hms; injection Hms as <-|].
      cbn [c_open]. by rewrite Hms. }
    rewrite Hi. cbn. eexists. split; [done|]. split; cbn; [done|done|]. intros _.
    change (dp_run [] ms) with (dp_run [] ms). apply (table_ok_adds []); [|done|done].
    intros e. split; [by intros []%elem_of_nil|]. by intros (? & []%elem_of_nil & _).
  - eexists. split; [done|]. by split.
  - destruct Ha as [Ha1 Ha2]. destruct (install_ok c t [r] Hinv) as (ms & b & E & Hs); [by constructor|done|].
    unfold installNewRule, lg_addRule. rewrite E. cbn. eauto.
  - destruct Ha as [Ha1 Ha2]. destruct (install_ok c t rules Hinv Ha1 Ha2) as (ms & b & E & Hs).
    unfold installNewRules. rewrite lg_addRules_app, E. cbn. eauto.
  - destruct Ha as [Ha1 Ha2]. destruct (removeRules_ok garbage (c_graph c) rules t Hr Hd Ha1 Ha2) as (g' & E & Hg & Hd' & Ht').
    unfold removeRules, removeRulesFromLSI. rewrite E. cbn. destruct (c_open c) eqn:Eo; cbn; eexists; (split; [done|]);
      split; cbn; try done; [auto|congruence].
  - pose proof (ctl_removeRuleFromID_ok garbage c t id Hinv) as Hs.
    destruct (removeRuleFromID garbage c id) as [[c' ms] b]. cbn. eauto.
Qed.

Lemma exec_inv garbage s evs s' : sys_inv s -> exec garbage s evs s' -> sys_inv s'.
Proof.
  intros Hi He. induction He as [|s e s1 evs s' Ha Hs He IH]; [done|]. apply IH.
  destruct (step_ok garbage s e Hi Ha) as (s2 & E & ?). congruence.
Qed.
(** The connection stays up until it is closed. *)
Lemma step_open garbage s e s' :
  step garbage s e = Ok s' -> (forall t, e <> EClose t) -> c_open (sys_ctl s) = true \/ e = EOpen ->
  c_open (sys_ctl s') = true.
Proof.
  destruct s as [c t], e; cbn; intros Hs Hc Ho.
  - apply res_bind_ok in Hs as ([c' ms] & H & [= <-]). unfold handle_dpt_open in H.
    by apply res_bind_ok in H as ([] & _ & [= <- <-]).
  - by destruct (Hc t0).
  - destruct Ho as [Ho|?]; [|done]. apply res_bind_ok in Hs as ([[c' ms] b] & H & [= <-]).
    by apply res_bind_ok in H as ([] & _ & [= <- <- <-]).
  - destruct Ho as [Ho|?]; [|done]. apply res_bind_ok in Hs as ([[c' ms] b] & H & [= <-]).
    by apply res_bind_ok in H as ([] & _ & [= <- <- <-]).
  - destruct Ho as [Ho|?]; [|done]. apply res_bind_ok in Hs as ([[c' ms] b] & H & [= <-]).
    apply res_bind_ok in H as (g & _ & H). cbn zeta in H. case_match. by injection H as <- <- <-.
  - destruct Ho as [Ho|?]; [|done]. unfold removeRuleFromID in Hs.
    by repeat case_match; simplify_eq/=.
Qed.
Lemma exec_open garbage s evs s' :
  exec garbage s evs s' -> c_open (sys_ctl s) = true -> (forall t, EClose t ∉ evs) -> c_open (sys_ctl s') = true.
Proof.
  intros He. induction He as [|s e s1 evs s' Ha Hs He IH]; intros Ho Hc; [done|]. apply IH.
  - eapply step_open; [done| |by left]. intros t ->. apply (Hc t). left.
  - intros t Ht. apply (Hc t). by right.
Qed.
Lemma exec_app garbage s l1 l2 s' :
  exec garbage s (l1 ++ l2) s' -> exists s1, exec garbage s l1 s1 /\ exec garbage s1 l2 s'.
Proof.
  revert s. induction l1 as [|e l1 IH]; intros s He; cbn in He; [by exists s; split; [constructor|]|].
  inversion He as [|? ? s1 ? ? Ha Hs He1]; subst. destruct (IH _ He1) as (s2 & H1 & H2).
  exists s2. split; [by econstructor|done].
Qed.

(** C9: every rule handed to a controller ends up in the switch. In a run of
    events that are [allowed] (installed rules have an input and an output
    port and neither the local port nor the VLAN of an endpoint; no two rules
    of the graph have the same priority and match; [removeRules] gets
    different rules of the graph), whatever is installed and removed before
    the datapath connects, from the moment it does and until it disconnects
    its flow table holds exactly the rules of the controller's graph, and no
    further allowed call fails. Without the condition on matches the claim is
    false, see [equal_rule_flow_lost]. *)
Theorem connected_rules_installed garbage s evs1 evs2 s' :
  sys_inv s -> exec garbage s (evs1 ++ EOpen :: evs2) s' -> (forall t, EClose t ∉ evs2) ->
  c_open (sys_ctl s') = true
  /\ table_ok (c_graph (sys_ctl s')) (sys_table s')
  /\ forall e, allowed s' e -> exists s'', step garbage s' e = Ok s''.
Proof.
  intros Hi He Hc. pose proof (exec_inv _ _ _ _ Hi He) as Hi'.
  assert (Ho : c_open (sys_ctl s') = true).
  { apply exec_app in He as (s1 & _ & He). inversion He as [|? ? s2 ? ? Ha Hs He2]; subst.
    eapply exec_open; [done| |done]. eapply step_open; [done|done|by right]. }
  split; [done|]. split; [by apply Hi'|]. intros e Ha. destruct (step_ok garbage s' e Hi' Ha) as (s'' & E & _). eauto.
Qed.

(** Two rules arrive before the datapath connects; one goes afterwards. *)
Definition sample_rule (id : string) (inp outp : Z) : LRule :=
  {| lr_match := lm_setInputPort inp (LMatch_new false); lr_action := LAction_port outp;
     lr_id := id; lr_priority := 10 |}.
Definition sample_system : system :=
  {| sys_ctl := Controller_new [] "6653"; sys_table := [] |}.

Lemma connected_rules_installed_witness :
  exists s', exec false sample_system
      ([EInstall [sample_rule "a" 1 2; sample_rule "b" 2 1]] ++ EOpen :: [ERemoveID "a"]) s'
    /\ c_graph (sys_ctl s') = [sample_rule "b" 2 1] /\ table_ok (c_graph (sys_ctl s')) (sys_table s').
Proof.
  eexists. match goal with |- ?P /\ _ => assert (He : P) end.
  { eapply exec_cons; [split; [by repeat constructor|]|reflexivity|].
    - by apply (bool_decide_unpack _); vm_compute.
    - eapply exec_cons; [done|reflexivity|]. eapply exec_cons; [done|reflexivity|]. apply exec_nil. }
  split; [exact He|]. split; [reflexivity|].
  apply (connected_rules_installed false sample_system
    [EInstall [sample_rule "a" 1 2; sample_rule "b" 2 1]] [ERemoveID "a"]).
  - split; [constructor|constructor|done].
  - exact He.
  - intros t [?|[]%elem_of_nil]%elem_of_cons. discriminate.
Defined.

(** Two equal rules: [removeRuleFromID] keeps the flow the other one needs,
    [removeRules] does not. *)
Example equal_rule_flow_lost :
  exists s, run false sample_system
      [EInstall [sample_rule "a" 1 2; sample_rule "b" 1 2]; EOpen; ERemove [sample_rule "a" 1 2]] = Ok s
    /\ c_graph (sys_ctl s) = [sample_rule "b" 1 2] /\ sys_table s = [].
Proof. eexists. split; [vm_compute; reflexivity|by vm_compute]. Qed.
