(* ===== verification/Forwarding.v ===== *)
(** * What the lowered rules do to packets

    The contract of the translation: a graph says that a packet entering at one
    of its points (a physical port, a port of a function, an endpoint) leaves
    at another; the rules put on LSI-0 and on the tenant LSI, joined by the
    virtual links, make packets do exactly that.

    A switch applies the rule of highest priority among those that match, and
    never sends a packet back to the port it came from (OpenFlow 1.2).  What a
    header match means and what a VLAN action does are parameters. *)

From Stdlib Require Import ZArith Lia String.
From stdpp Require Import gmap strings numbers base list.
From S2P Require Import Prelude Cpp Keyed FlowMatch HighLevel HLGraph LowLevel Lsi Translator.

(** ** Points of a graph *)
Inductive point :=
| AtPort (port : string)
| AtNF (nf : string) (port : Z)
| AtGre (endpoint : string)
| AtInternal (group : string).
#[export] Instance point_eq_dec : EqDecision point.
Proof. solve_decision. Defined.

Definition in_point (m : HMatch) : option point :=
  match hm_type m with
  | MATCH_PORT => AtPort <$> hm_input m
  | MATCH_NF => (fun nf => AtNF nf (hm_nf_port m)) <$> hm_input m
  | MATCH_ENDPOINT_INTERNAL => (fun g => AtInternal (show g)) <$> hm_group m
  | MATCH_ENDPOINT_GRE =>
      match getInputEndpoint m with Ok e => Some (AtGre e) | Err _ => None end
  | MATCH_GENERIC => None
  end.
Definition out_point (a : Action) : point :=
  match a_output a with
  | ActionPort portName _ => AtPort portName
  | ActionNetworkFunction nfId _ port => AtNF nfId port
  | ActionEndPointGre endpointID _ => AtGre endpointID
  | ActionEndPointInternal group _ => AtInternal group
  end.

Inductive side := Lsi0 | Tenant.
Definition other (s : side) : side := match s with Lsi0 => Tenant | Tenant => Lsi0 end.
Definition side_of (p : point) : side :=
  match p with AtPort _ | AtInternal _ => Lsi0 | AtNF _ _ | AtGre _ => Tenant end.

Section forwarding.
Context {pkt : Type} (matches : list oxm -> pkt -> bool) (vlan_op : VlanAction -> pkt -> pkt).

Definition apply_all (gas : list VlanAction) (p : pkt) : pkt := foldl (fun p ga => vlan_op ga p) p gas.

(** ** The graph as a forwarder *)
Definition hl_hits (pt : point) (p : pkt) (r : Rule) : Prop :=
  in_point (r_match r) = Some pt /\ matches (match_fields (hm_base (r_match r))) p = true.
Definition hl_fires (rules : list Rule) (pt : point) (p : pkt) (r : Rule) : Prop :=
  r ∈ rules /\ hl_hits pt p r
  /\ forall r', r' ∈ rules -> hl_hits pt p r' -> r_priority r' <= r_priority r.
Definition hl_forward (rules : list Rule) (pt : point) (p : pkt) (pt' : point) (p' : pkt) : Prop :=
  exists r, hl_fires rules pt p r /\ out_point (r_action r) = pt'
            /\ p' = apply_all (a_generic (r_action r)) p.

(** ** The switches *)

(** A rule without an input port matches at every port; priorities are the 16
    bits of the flow-mod. *)
Definition hits (n : Z) (p : pkt) (r : LRule) : Prop :=
  match lm_in_port (lr_match r) with None => True | Some q => q = PortNo n end
  /\ matches (match_fields (lm_base (lr_match r))) p = true.
Definition fires (t : LGraph) (n : Z) (p : pkt) (r : LRule) : Prop :=
  r ∈ t /\ hits n p r /\ forall r', r' ∈ t -> hits n p r' -> u16 (lr_priority r') <= u16 (lr_priority r).

Context (vlinks : list VLink) (t : side -> LGraph).

Definition end_of (s : side) (v : VLink) : Z :=
  match s with Lsi0 => vl_remote_id v | Tenant => vl_local_id v end.

(** From a packet entering switch [s] at port [n] to the port it leaves by. *)
Inductive delivers : side -> Z -> pkt -> side -> Z -> pkt -> Prop :=
| deliver_out s n p r q :
    fires (t s) n p r -> la_output (lr_action r) = Some (PortNo q) -> q <> n ->
    (forall v, v ∈ vlinks -> end_of s v <> q) ->
    delivers s n p s q (apply_all (la_generic (lr_action r)) p)
| deliver_link s n p r v s' n' p' :
    fires (t s) n p r -> la_output (lr_action r) = Some (PortNo (end_of s v)) ->
    end_of s v <> n -> v ∈ vlinks ->
    delivers (other s) (end_of (other s) v) (apply_all (la_generic (lr_action r)) p) s' n' p' ->
    delivers s n p s' n' p'.

(** ** Wiring *)

(** What a port number of a switch stands for. *)
Inductive role := RPoint (p : point) | RLink (id : Z).

(** [num pt n]: the point [pt] is port [n] of its switch. *)
Context (num : point -> Z -> Prop) (owner : side -> Z -> point -> Prop).

(** Each number of a switch stands for one thing. *)
Record wiring (dec : side -> Z -> option role) : Prop := {
  w_num pt n : num pt n -> dec (side_of pt) n = Some (RPoint pt);
  w_link s v : v ∈ vlinks -> dec s (end_of s v) = Some (RLink (vl_id v));
  w_num_fun pt n n' : num pt n -> num pt n' -> n = n';
  w_ids : NoDup (keys vl_id vlinks)
}.

Definition shape (lr : LRule) (n : Z) (f : list oxm) (q : Z) (gas : list VlanAction) (prio : Z) : Prop :=
  lm_in_port (lr_match lr) = Some (PortNo n) /\ match_fields (lm_base (lr_match lr)) = f
  /\ la_output (lr_action lr) = Some (PortNo q) /\ la_generic (lr_action lr) = gas
  /\ lr_priority lr = prio.

(** The two ways a rule is lowered: on one switch, or on both with a virtual
    link between. *)
Inductive lowered (r : Rule) (o : side -> option LRule) : Prop :=
| low_direct pt pt' n n' lr :
    in_point (r_match r) = Some pt -> out_point (r_action r) = pt' ->
    side_of pt' = side_of pt -> num pt n -> num pt' n' ->
    o (side_of pt) = Some lr -> o (other (side_of pt)) = None ->
    shape lr n (match_fields (hm_base (r_match r))) n' (a_generic (r_action r)) (r_priority r) ->
    lowered r o
| low_cross pt pt' n n' v lr lr' f' :
    in_point (r_match r) = Some pt -> out_point (r_action r) = pt' ->
    side_of pt' = other (side_of pt) -> num pt n -> num pt' n' ->
    v ∈ vlinks -> owner (side_of pt) (vl_id v) pt' ->
    o (side_of pt) = Some lr -> o (other (side_of pt)) = Some lr' ->
    shape lr n (match_fields (hm_base (r_match r))) (end_of (side_of pt) v)
      (a_generic (r_action r)) (r_priority r) ->
    shape lr' (end_of (other (side_of pt)) v) f' n' [] (r_priority r) ->
    (f' = [] \/ (f' = match_fields (hm_base (r_match r)) /\ a_generic (r_action r) = [])) ->
    lowered r o.
End forwarding.

Lemma other_other s : other (other s) = s.
Proof. by destruct s. Qed.
Lemma other_ne s : other s <> s.
Proof. by destruct s. Qed.
Lemma side_cases (s s' : side) : s = s' \/ s = other s'.
Proof. destruct s, s'; auto. Qed.

(** A finite table with a matching rule has one of highest priority. *)
Lemma exists_max {A} (P : A -> Prop) (f : A -> Z) (l : list A) x :
  (forall y, Decision (P y)) -> x ∈ l -> P x ->
  exists y, y ∈ l /\ P y /\ forall z, z ∈ l -> P z -> f z <= f y.
Proof.
  intros Hdec. revert x. induction l as [|a l IH]; intros x Hx HP; [by apply elem_of_nil in Hx|].
  destruct (decide (Exists P l)) as [He|He].
  - apply list.Exists_exists in He as (b & Hb & HPb). destruct (IH b Hb HPb) as (y & Hy & HPy & Hmax).
    destruct (decide (P a /\ f y < f a)) as [[HPa Hlt]|Hn].
    + exists a. split; [left|]. split; [done|].
      intros z [->|Hz]%elem_of_cons HPz; [lia|]. specialize (Hmax z Hz HPz). lia.
    + exists y. split; [by right|]. split; [done|].
      intros z [->|Hz]%elem_of_cons HPz; [|by apply Hmax].
      destruct (decide (f y < f a)); [tauto|lia].
  - exists a. apply elem_of_cons in Hx as [->|Hx].
    + split; [left|]. split; [done|]. intros z [->|Hz]%elem_of_cons HPz; [lia|].
      destruct He. apply list.Exists_exists. eauto.
    + destruct He. apply list.Exists_exists. eauto.
Qed.

Lemma lowered_ext vlinks num owner r o o' :
  (forall s, o s = o' s) -> lowered vlinks num owner r o -> lowered vlinks num owner r o'.
Proof.
  intros E []; [eapply low_direct|eapply low_cross]; try eassumption; by rewrite <- E.
Qed.

Section refinement.
Context {pkt : Type} (matches : list oxm -> pkt -> bool) (vlan_op : VlanAction -> pkt -> pkt).
Context (vlinks : list VLink) (t : side -> LGraph).
Context (num : point -> Z -> Prop) (owner : side -> Z -> point -> Prop).
Context (dec : side -> Z -> option role) (Hw : wiring vlinks num dec).
Context (rules : list Rule) (low : Rule -> side -> option LRule).
Hypothesis Hlow : forall r, r ∈ rules -> lowered vlinks num owner r (low r).
Hypothesis Ht : forall s lr, lr ∈ t s <-> exists r, r ∈ rules /\ low r s = Some lr.
Hypothesis Hown : forall s id pt pt', owner s id pt -> owner s id pt' -> pt = pt'.
Hypothesis Hnil : forall p, matches [] p = true.
Hypothesis Hprio : forall r, r ∈ rules -> is_u16 (r_priority r).
Hypothesis Hne : forall r, r ∈ rules -> in_point (r_match r) <> Some (out_point (r_action r)).

#[local] Instance hits_dec n p r : Decision (hits matches n p r).
Proof. unfold hits. destruct (lm_in_port _); apply _. Qed.

(** The rule that takes a packet in at the point of [r]. *)
Lemma first_rule r pt :
  r ∈ rules -> in_point (r_match r) = Some pt ->
  exists lr n, num pt n /\ low r (side_of pt) = Some lr
    /\ lm_in_port (lr_match lr) = Some (PortNo n)
    /\ match_fields (lm_base (lr_match lr)) = match_fields (hm_base (r_match r))
    /\ lr_priority lr = r_priority r.
Proof using Hlow.
  intros Hr Hpt. destruct (Hlow r Hr) as
    [pt0 pt' n n' lr Hin Hout Hs Hn Hn' Ho Ho' (H1 & H2 & H3 & H4 & H5)
    |pt0 pt' n n' v lr lr' f' Hin Hout Hs Hn Hn' Hv Hsrv Ho Ho' (H1 & H2 & H3 & H4 & H5) _ _];
    rewrite Hin in Hpt; injection Hpt as ->; exists lr, n; done.
Qed.

(** A rule of the switch of [pt] that matches at its port is the first rule of
    a rule of the graph that matches at [pt]. *)
Lemma hit_point pt n p lr :
  num pt n -> lr ∈ t (side_of pt) -> hits matches n p lr ->
  exists r, r ∈ rules /\ low r (side_of pt) = Some lr /\ hl_hits matches pt p r
            /\ lr_priority lr = r_priority r.
Proof using Hlow Ht Hw.
  intros Hnum Hlr [Hin Hm]. apply Ht in Hlr as (r & Hr & Hlr). exists r. split; [done|]. split; [done|].
  pose proof (w_num _ _ _ Hw _ _ Hnum) as Hd. unfold hl_hits.
  destruct (Hlow r Hr) as
    [pt0 pt' k k' l0 Hi Hout Hs Hk Hk' Ho Ho' (H1 & H2 & H3 & H4 & H5)
    |pt0 pt' k k' v l0 l1 f' Hi Hout Hs Hk Hk' Hv Hsrv Ho Ho' (H1 & H2 & H3 & H4 & H5) (G1 & G2 & G3 & G4 & G5) _].
  - destruct (side_cases (side_of pt) (side_of pt0)) as [E|E]; rewrite E in Hlr; [|congruence].
    assert (l0 = lr) as -> by congruence. rewrite H1 in Hin. injection Hin as ->.
    pose proof (w_num _ _ _ Hw _ _ Hk) as Hd'. rewrite E, Hd' in Hd. injection Hd as ->.
    by rewrite <- H2.
  - destruct (side_cases (side_of pt) (side_of pt0)) as [E|E]; rewrite E in Hlr.
    + assert (l0 = lr) as -> by congruence. rewrite H1 in Hin. injection Hin as ->.
      pose proof (w_num _ _ _ Hw _ _ Hk) as Hd'. rewrite E, Hd' in Hd. injection Hd as ->.
      by rewrite <- H2.
    + assert (l1 = lr) as -> by congruence. rewrite G1 in Hin. injection Hin as <-.
      rewrite E, (w_link _ _ _ Hw _ _ Hv) in Hd. discriminate.
Qed.

Lemma vlink_inj s v v' : v ∈ vlinks -> v' ∈ vlinks -> end_of s v = end_of s v' -> v = v'.
Proof using Hw.
  intros Hv Hv' E. pose proof (w_link _ _ _ Hw s v Hv) as H1.
  rewrite E, (w_link _ _ _ Hw s v' Hv') in H1. injection H1 as H1.
  eapply (keys_inj vl_id); eauto using w_ids.
Qed.

(** A rule that matches at the end of a virtual link sends the packet, as it
    is, to the point the link serves. *)
Lemma hit_link s v p lr :
  v ∈ vlinks -> lr ∈ t s -> hits matches (end_of s v) p lr ->
  exists pt' n', owner (other s) (vl_id v) pt' /\ side_of pt' = s /\ num pt' n'
    /\ la_output (lr_action lr) = Some (PortNo n') /\ la_generic (lr_action lr) = [].
Proof using Hlow Ht Hw.
  intros Hv Hlr [Hin _]. apply Ht in Hlr as (r & Hr & Hlr).
  pose proof (w_link _ _ _ Hw s v Hv) as Hd.
  destruct (Hlow r Hr) as
    [pt0 pt' k k' l0 Hi Hout Hs Hk Hk' Ho Ho' (H1 & H2 & H3 & H4 & H5)
    |pt0 pt' k k' v0 l0 l1 f' Hi Hout Hs Hk Hk' Hv0 Hsrv Ho Ho' (H1 & H2 & H3 & H4 & H5) (G1 & G2 & G3 & G4 & G5) _];
    pose proof (w_num _ _ _ Hw _ _ Hk) as Hd'.
  - destruct (side_cases s (side_of pt0)) as [->| ->]; [|congruence].
    assert (l0 = lr) as -> by congruence. rewrite H1 in Hin. injection Hin as ->. congruence.
  - destruct (side_cases s (side_of pt0)) as [->| ->].
    + assert (l0 = lr) as -> by congruence. rewrite H1 in Hin. injection Hin as ->. congruence.
    + assert (l1 = lr) as -> by congruence. rewrite G1 in Hin. injection Hin as Hin.
      assert (v0 = v) as -> by (by eapply vlink_inj). rewrite other_other. exists pt', k'. auto.
Qed.

Lemma fires_point pt n p r lr :
  num pt n -> r ∈ rules -> low r (side_of pt) = Some lr -> hl_fires matches rules pt p r ->
  lm_in_port (lr_match lr) = Some (PortNo n) ->
  match_fields (lm_base (lr_match lr)) = match_fields (hm_base (r_match r)) ->
  lr_priority lr = r_priority r ->
  fires matches (t (side_of pt)) n p lr.
Proof using Hlow Hprio Ht Hw.
  intros Hnum Hr Hl (_ & [Hi Hm] & Hmax) H1 H2 H3. split; [|split].
  - apply Ht. eauto.
  - split; [by rewrite H1|by rewrite H2].
  - intros lr' Hlr' Hh. destruct (hit_point pt n p lr' Hnum Hlr' Hh) as (r' & Hr' & _ & Hh' & Hp').
    rewrite Hp', H3, !u16_id by auto. by apply Hmax.
Qed.

Lemma hl_fires_point pt n p lr :
  num pt n -> fires matches (t (side_of pt)) n p lr ->
  exists r, hl_fires matches rules pt p r /\ low r (side_of pt) = Some lr.
Proof using Hlow Hprio Ht Hw.
  intros Hnum (Hlr & Hh & Hmax). destruct (hit_point pt n p lr Hnum Hlr Hh) as (r & Hr & Hl & Hhl & Hp).
  exists r. split; [|done]. split; [done|]. split; [done|]. intros r' Hr' [Hi' Hm'].
  destruct (first_rule r' pt Hr' Hi') as (lr' & n' & Hn' & Hl' & H1 & H2 & H3).
  rewrite (w_num_fun _ _ _ Hw _ _ _ Hn' Hnum) in H1.
  specialize (Hmax lr' ltac:(apply Ht; eauto)).
  rewrite H3, Hp, !u16_id in Hmax by auto. apply Hmax. split; [by rewrite H1|by rewrite H2].
Qed.

Lemma num_not_link pt n v : num pt n -> v ∈ vlinks -> end_of (side_of pt) v <> n.
Proof using Hw.
  intros Hn Hv E. pose proof (w_link _ _ _ Hw (side_of pt) v Hv) as H.
  rewrite E, (w_num _ _ _ Hw _ _ Hn) in H. discriminate.
Qed.
Lemma num_inj pt pt' n : num pt n -> num pt' n -> side_of pt = side_of pt' -> pt = pt'.
Proof using Hw.
  intros H H' E. pose proof (w_num _ _ _ Hw _ _ H) as D. rewrite E, (w_num _ _ _ Hw _ _ H') in D.
  congruence.
Qed.

#[local] Abbreviation delivers' := (delivers matches vlan_op vlinks t).
#[local] Abbreviation hl_forward' := (hl_forward matches vlan_op rules).

(** The second hop. *)
Lemma deliver_hop s v p pt' n' :
  v ∈ vlinks -> owner (other s) (vl_id v) pt' -> side_of pt' = s -> num pt' n' ->
  (exists lr, lr ∈ t s /\ hits matches (end_of s v) p lr) ->
  delivers' s (end_of s v) p s n' p.
Proof using Hlow Ht Hw Hown.
  intros Hv Hsrv Hs Hn' (lr0 & Hlr0 & Hh0).
  destruct (exists_max (hits matches (end_of s v) p) (fun r => u16 (lr_priority r)) (t s) lr0
    _ Hlr0 Hh0) as (lr & Hlr & Hh & Hmax).
  destruct (hit_link s v p lr Hv Hlr Hh) as (pt2 & n2 & Hown2 & Hs2 & Hn2 & Hout & Hgen).
  assert (pt2 = pt') as -> by eauto.
  assert (n2 = n') as -> by eauto using w_num_fun.
  replace p with (apply_all vlan_op (la_generic (lr_action lr)) p) at 2 by (by rewrite Hgen).
  eapply deliver_out; [by split|done| |].
  - intros E. symmetry in E. revert E. rewrite <- Hs. by apply num_not_link.
  - intros w Hw'. rewrite <- Hs. by apply num_not_link.
Qed.

Lemma forward_delivers pt n p pt' p' :
  num pt n -> hl_forward' pt p pt' p' ->
  exists n', num pt' n' /\ delivers' (side_of pt) n p (side_of pt') n' p'.
Proof using Hlow Ht Hw Hown Hnil Hprio Hne.
  intros Hnum (r & Hf & Hout & ->). pose proof Hf as (Hr & [Hi Hm] & _).
  specialize (Hne r Hr).
  destruct (Hlow r Hr) as
    [pt0 pt1 k k' l0 Hi0 Hout0 Hs Hk Hk' Ho Ho' (H1 & H2 & H3 & H4 & H5)
    |pt0 pt1 k k' v l0 l1 f' Hi0 Hout0 Hs Hk Hk' Hv Hsrv Ho Ho' (H1 & H2 & H3 & H4 & H5) (G1 & G2 & G3 & G4 & G5) Hf'];
    assert (pt0 = pt) as -> by congruence; assert (pt1 = pt') as -> by congruence;
    assert (k = n) as -> by eauto using w_num_fun; exists k'; (split; [done|]);
    pose proof (fires_point pt n p r l0 Hnum Hr Ho Hf H1 H2 H5) as Hfire.
  - rewrite Hs, <- H4. apply deliver_out with (r := l0); [done|done| |].
    + intros ->. apply Hne. rewrite Hi0, Hout. f_equal. by eapply num_inj.
    + intros v Hv. rewrite <- Hs. by apply num_not_link.
  - eapply deliver_link with (r := l0) (v := v); [done|done|by apply num_not_link|done|].
    rewrite H4, Hs. apply (deliver_hop _ v _ pt'); [done|by rewrite other_other|done|done|].
    exists l1. split; [apply Ht; eauto|]. split; [by rewrite G1|]. rewrite G2.
    destruct Hf' as [->|[-> ->]]; [apply Hnil|done].
Qed.

Lemma delivers_forward pt n p s' n' p' :
  num pt n -> delivers' (side_of pt) n p s' n' p' ->
  exists pt', side_of pt' = s' /\ num pt' n' /\ hl_forward' pt p pt' p'.
Proof using Hlow Ht Hw Hown Hprio.
  intros Hnum Hd. inversion Hd as [s0 n0 p0 lr q Hfire Hq Hqn Hnl|s0 n0 p0 lr v s1 n1 p1 Hfire Hq Hqn Hv Hrest];
    subst; clear Hd; destruct (hl_fires_point pt n p lr Hnum Hfire) as (r & Hf & Hl);
    pose proof Hf as (Hr & [Hi Hm] & _);
    (destruct (Hlow r Hr) as
      [pt0 pt1 k k' l0 Hi0 Hout0 Hs Hk Hk' Ho Ho' (H1 & H2 & H3 & H4 & H5)
      |pt0 pt1 k k' w l0 l1 f' Hi0 Hout0 Hs Hk Hk' Hw' Hsrv Ho Ho' (H1 & H2 & H3 & H4 & H5) _ Hf'];
      assert (pt0 = pt) as -> by congruence; assert (l0 = lr) as -> by congruence;
      rewrite H3 in Hq; injection Hq as Hq).
  - subst. exists (out_point (r_action r)). split; [done|]. split; [done|]. exists r. by rewrite <- H4.
  - subst. by destruct (Hnl w Hw').
  - exfalso. rewrite <- Hs in Hq. symmetry in Hq. by eapply num_not_link.
  - assert (w = v) as -> by (by eapply vlink_inj).
    inversion Hrest as [s2 n2 p2 lr2 q2 Hfire2 Hq2 Hqn2 Hnl2|s2 n2 p2 lr2 v2 s3 n3 p3 Hfire2 Hq2 Hqn2 Hv2 Hrest2];
      subst; clear Hrest; destruct Hfire2 as (Hin2 & Hh2 & _);
      destruct (hit_link _ v _ lr2 Hv Hin2 Hh2) as (pt2 & m & Hown2 & Hs2 & Hm2 & Hout2 & Hgen2);
      rewrite other_other in Hown2; assert (pt2 = out_point (r_action r)) as -> by (subst; eauto);
      rewrite Hout2 in Hq2; injection Hq2 as ->.
    + exists (out_point (r_action r)). split; [done|]. split; [done|]. exists r. split; [done|]. split; [done|].
      rewrite Hgen2, <- H4. done.
    + exfalso. eapply num_not_link; [exact Hm2|exact Hv2|]. by rewrite Hs.
Qed.
End refinement.

(** ** The rules the translator makes *)

Section translation.
Context (stale : string -> string) (gid : string) (tenant lsi0 : LSI) (c : conns).

Definition point_no (pt : point) : option Z :=
  match pt with
  | AtPort s => l_physical lsi0 !! s
  | AtInternal g => c !! g ≫= fun m => m !! gid
  | AtNF nf port => getNetworkFunctionsPorts nf tenant !! nf_port_of nf port
  | AtGre e => l_ep_ids tenant !! e
  end.
Definition tnum (pt : point) (n : Z) : Prop := point_no pt = Some n.

(** The points a virtual link serves: upwards (from LSI-0) the ports of functions
    and the tunnels, downwards the physical ports and the internal endpoints. *)
Definition serves (s : side) (id : Z) (pt : point) : Prop :=
  match s, pt with
  | Lsi0, AtNF nf port => l_nfs_vlinks tenant !! nf_port_of nf port = Some id
  | Lsi0, AtGre e => l_gre_vlinks tenant !! e = Some id
  | Tenant, AtPort p => l_ports_vlinks tenant !! p = Some id
  | Tenant, AtInternal g => l_eps_vlinks tenant !! g = Some id
  | _, _ => False
  end.
(** A virtual link serves at most one point in each direction. *)
Definition links_distinct : Prop :=
  forall s id pt pt', serves s id pt -> serves s id pt' -> pt = pt'.

(** The connections the translation makes: not those from a port or an internal
    endpoint to an internal endpoint, from an internal endpoint to a port, nor
    between tunnels. *)
Definition connects (m : match_t) (a : action_t) : bool :=
  match m, a with
  | MATCH_PORT, (ACTION_ON_PORT | ACTION_ON_NETWORK_FUNCTION | ACTION_ON_ENDPOINT_GRE) => true
  | MATCH_ENDPOINT_INTERNAL, (ACTION_ON_NETWORK_FUNCTION | ACTION_ON_ENDPOINT_GRE) => true
  | MATCH_NF, (ACTION_ON_PORT | ACTION_ON_NETWORK_FUNCTION | ACTION_ON_ENDPOINT_GRE
              | ACTION_ON_ENDPOINT_INTERNAL) => true
  | MATCH_ENDPOINT_GRE, (ACTION_ON_PORT | ACTION_ON_NETWORK_FUNCTION | ACTION_ON_ENDPOINT_INTERNAL) => true
  | _, _ => false
  end.

(** Rules the translation handles as its documentation says. *)
Record supported (r : Rule) : Prop := {
  s_wf : match_wf (hm_base (r_match r));
  s_prio : is_u16 (r_priority r);
  s_in : exists pt, in_point (r_match r) = Some pt /\ is_Some (point_no pt);
  s_out : is_Some (point_no (out_point (r_action r)));
  s_ne : in_point (r_match r) <> Some (out_point (r_action r));
  s_pair : connects (hm_type (r_match r)) (a_type (r_action r)) = true;
  s_copy : str_of (hm_base (r_match r)) ipv6_dst = None \/ is_Some (str_of (hm_base (r_match r)) gre_key);
  s_info : exists i, a_getInfo (r_action r) = Ok i;
  s_gre : matchOnEndPointGre (r_match r) = true -> a_type (r_action r) = ACTION_ON_PORT ->
          a_generic (r_action r) = [];
  s_stale e : getInputEndpoint (r_match r) = Ok e ->
    stale e = e /\ Z.of_nat (String.length e) < 64
}.

Lemma vlink_of_ret m f k v :
  vlink_of f m k tenant = Ret v -> exists id, m !! k = Some id /\ getVirtualLink id tenant = Ok v.
Proof.
  unfold vlink_of. destruct (m !! k) as [id|]; [|done]. intros H%of_res_ret. eauto.
Qed.
Lemma getVirtualLink_ok id v : getVirtualLink id tenant = Ok v -> v ∈ l_vlinks tenant /\ vl_id v = id.
Proof.
  unfold getVirtualLink. destruct (find_first _ _) as [w|] eqn:E; [|done]. intros [= ->].
  by apply find_first_Some in E as [? ?%Z.eqb_eq].
Qed.
Lemma common_match_ret r m :
  match_wf (hm_base (r_match r)) -> common_match r = Ret m ->
  match_fields (lm_base m) = match_fields (hm_base (r_match r)) /\ lm_is_local_port m = false.
Proof.
  intros Hwf Hm. apply of_res_ret in Hm. unfold lm_setAllCommonFields in Hm.
  apply res_bind_ok in Hm as (b & Hb & [= <-]). split; [|done]. by apply setAllCommonFields_ok.
Qed.

(** The shapes of the rules that are built. *)
Lemma shape_common r m n q id :
  match_wf (hm_base (r_match r)) -> common_match r = Ret m ->
  shape (mk_rule (lm_setInputPort n m) (with_generic q r) id r) n
    (match_fields (hm_base (r_match r))) q (a_generic (r_action r)) (r_priority r).
Proof.
  intros Hwf Hm. destruct (common_match_ret r m Hwf Hm) as [Hf Hl].
  unfold shape, mk_rule, with_generic. rewrite la_addGenericActions_spec. cbn.
  unfold lm_in_port, la_output. cbn. by rewrite Hl.
Qed.
Lemma shape_port r n q id :
  shape (mk_rule (port_match n) (LAction_port q) id r) n [] q [] (r_priority r).
Proof. done. Qed.

Lemma conn_port_no g n : point_no (AtInternal g) = Some n -> conn_port c g gid = n.
Proof. unfold conn_port, point_no. destruct (c !! g); cbn; [|done]. by intros ->. Qed.
Lemma endpoint_no_no e n : point_no (AtGre e) = Some n -> endpoint_no tenant e = n.
Proof. unfold endpoint_no, point_no. by intros ->. Qed.

Ltac inv_out := repeat match goal with
  | H : _ ≫= _ = Ret _ |- _ => apply out_bind_ret in H as (? & ? & H)
  | H : of_res _ = Ret _ |- _ => apply of_res_ret in H
  | H : out_assert _ = Ret _ |- _ => apply out_assert_ret in H
  | H : deref _ = Ret _ |- _ => apply deref_ret in H
  | H : Ret _ = Ret _ |- _ => injection H as H
  | H : Ok _ = Ok _ |- _ => injection H as H
  | H : Some _ = Some _ |- _ => injection H as H
  | H : Halt _ = Ret _ |- _ => discriminate H
  | H : Throw _ = Ret _ |- _ => discriminate H
  | H : Err _ = Ok _ |- _ => discriminate H
  | H : vlink_of _ _ _ _ = Ret _ |- _ => apply vlink_of_ret in H as (? & ? & ?)
  | H : match ?x with _ => _ end = Ret _ |- _ => destruct x eqn:?
  | H : _ ≫= _ = Ok _ |- _ => apply res_bind_ok in H as (? & ? & H)
  | H : c_assert _ = Ok _ |- _ => apply c_assert_ok in H
  | H : of_cstr ?x = Ok _ |- _ => destruct x eqn:?; cbn in H
  end; subst.

(** Evaluates the tests on the type of the match and of the action. *)
Ltac eval_tests H :=
  repeat match type of H with
  | context [bool_decide ?P] =>
      first [rewrite (bool_decide_eq_true_2 P) in H by reflexivity
            |rewrite (bool_decide_eq_false_2 P) in H by discriminate]
  end; cbn [andb orb negb] in H.
Ltac dispatch H Ety Eo :=
  unfold lower_rule_lsi0, lower_rule_tenant, matchOnPort, matchOnNF, matchOnEndPointGre,
    matchOnEndPointInternal, a_type in H;
  rewrite Ety, Eo in H; eval_tests H.

Section cases.
Context (r : Rule) (Hs : supported r).
Context (o0 o1 : option LRule).
Hypothesis H0 : lower_rule_lsi0 gid tenant lsi0 c r = Ret o0.
Hypothesis H1 : lower_rule_tenant stale tenant r = Ret o1.
#[local] Abbreviation goal := (lowered (l_vlinks tenant) tnum serves r
  (fun s => match s with Lsi0 => o0 | Tenant => o1 end)).

(** Two readings of the same entry agree. *)
Ltac merge := repeat match goal with
  | H : ?x = Some ?a, H' : ?x = Some ?b |- _ =>
      assert (a = b) by congruence; clear H'; subst
  | H : ?x = Ok ?a, H' : ?x = Ok ?b |- _ =>
      assert (a = b) by congruence; clear H'; subst
  end.
(** The numbers of the points are the ones that were looked up. *)
Ltac point Eo := unfold tnum, out_point; rewrite ?Eo; cbn [point_no]; eassumption.
Ltac direct Hin Eo :=
  eapply low_direct;
  [exact Hin|reflexivity|unfold out_point; by rewrite Eo|point Eo|point Eo
  |reflexivity|reflexivity|by apply shape_common].
Ltac cross Hin Eo :=
  match goal with Hv : getVirtualLink ?id tenant = Ok ?v |- _ =>
    destruct (getVirtualLink_ok _ _ Hv) as [Hvin Hvid];
    eapply (low_cross _ _ _ _ _ _ _ _ _ v);
    [exact Hin|reflexivity|unfold out_point; by rewrite Eo|point Eo|point Eo|exact Hvin
    |rewrite Hvid; unfold out_point; rewrite Eo; cbn [side_of serves]; eassumption
    |reflexivity|reflexivity|by apply shape_common| |]
  end.

Lemma lower_case_port : hm_type (r_match r) = MATCH_PORT -> goal.
Proof using Hs H0 H1.
  intros Ety. destruct Hs. destruct s_in0 as (pt & Hpt & n & Hn). destruct s_out0 as (n' & Hn').
  pose proof Hpt as Hin. unfold in_point in Hpt. rewrite Ety in Hpt.
  apply fmap_Some in Hpt as (port & Hport & ->).
  destruct (a_output (r_action r)) as [p pe|nf pe p|e pe|g pe] eqn:Eo; dispatch H0 Ety Eo; dispatch H1 Ety Eo.
  4: { unfold a_type in s_pair0. by rewrite Ety, Eo in s_pair0. }
  all: unfold out_point in Hn'; rewrite Eo in Hn'.
  all: unfold lower_port_lsi0, getPhysicalPort, a_getInfo in H0; rewrite Eo in H0.
  all: unfold lower_up_tenant, a_getInfo in H1; rewrite ?Eo in H1; inv_out.
  all: cbn [point_no] in Hn, Hn'; merge.
  - direct Hin Eo.
  - cross Hin Eo; [apply shape_port|by left].
  - rewrite (endpoint_no_no _ _ Hn'). cross Hin Eo; [apply shape_port|by left].
Qed.

Lemma lower_case_internal : hm_type (r_match r) = MATCH_ENDPOINT_INTERNAL -> goal.
Proof using Hs H0 H1.
  intros Ety. destruct Hs. destruct s_in0 as (pt & Hpt & n & Hn). destruct s_out0 as (n' & Hn').
  pose proof Hpt as Hin. unfold in_point in Hpt. rewrite Ety in Hpt.
  apply fmap_Some in Hpt as (grp & Hgrp & ->).
  destruct (a_output (r_action r)) as [p pe|nf pe p|e pe|g pe] eqn:Eo; dispatch H0 Ety Eo; dispatch H1 Ety Eo.
  all: unfold out_point in Hn'; rewrite Eo in Hn'.
  all: unfold lower_internal_lsi0, getEndPointInternal, a_getInfo, a_toString, a_type in H0; rewrite Eo in H0.
  all: unfold lower_up_tenant, a_getInfo in H1; rewrite ?Eo in H1; inv_out; try discriminate.
  all: try match goal with H : match hm_group _ with _ => _ end = Ok _ |- _ => rewrite Hgrp in H; injection H as <- end.
  all: rewrite (conn_port_no _ _ Hn); cbn [point_no] in Hn, Hn'; merge.
  - cross Hin Eo; [apply shape_port|by left].
  - rewrite (endpoint_no_no _ _ Hn'). cross Hin Eo; [apply shape_port|by left].
Qed.

Lemma lower_case_nf : hm_type (r_match r) = MATCH_NF -> goal.
Proof using Hs H0 H1.
  intros Ety. destruct Hs. destruct s_in0 as (pt & Hpt & n & Hn). destruct s_out0 as (n' & Hn').
  pose proof Hpt as Hin. unfold in_point in Hpt. rewrite Ety in Hpt.
  apply fmap_Some in Hpt as (nf0 & Hnf & ->).
  destruct (a_output (r_action r)) as [p pe|nf pe p|e pe|g pe] eqn:Eo; dispatch H0 Ety Eo; dispatch H1 Ety Eo.
  all: unfold out_point in Hn'; rewrite Eo in Hn'.
  all: unfold lower_nf_lsi0, a_getInfo, a_toString in H0; rewrite ?Eo in H0.
  all: unfold lower_nf_tenant, getNF, getPortOfNF, a_getInfo, a_toString in H1; rewrite ?Eo in H1; inv_out.
  all: try rewrite (conn_port_no _ _ Hn'); cbn [point_no] in Hn, Hn'; merge.
  - cross Hin Eo; [apply shape_port|by left].
  - direct Hin Eo.
  - rewrite (endpoint_no_no _ _ Hn'). direct Hin Eo.
  - cross Hin Eo; [apply shape_port|by left].
Qed.

Lemma lower_case_gre : hm_type (r_match r) = MATCH_ENDPOINT_GRE -> goal.
Proof using Hs H0 H1.
  intros Ety. destruct Hs. destruct s_in0 as (pt & Hpt & n & Hn). destruct s_out0 as (n' & Hn').
  pose proof Hpt as Hin. unfold in_point in Hpt. rewrite Ety in Hpt.
  destruct (getInputEndpoint (r_match r)) as [ep|] eqn:Eep; [|done]. injection Hpt as <-.
  destruct (a_output (r_action r)) as [p pe|nf pe p|e pe|g pe] eqn:Eo; dispatch H0 Ety Eo; dispatch H1 Ety Eo.
  all: unfold out_point in Hn'; rewrite Eo in Hn'.
  all: unfold lower_gre_lsi0, a_getInfo, a_toString, a_type in H0; rewrite ?Eo in H0.
  all: unfold lower_gre_tenant, a_getInfo, a_type in H1; rewrite ?Eo, ?Eep in H1; inv_out; try discriminate.
  all: rewrite ?(proj1 (s_stale0 _ eq_refl)), ?(endpoint_no_no _ _ Hn).
  all: try rewrite (conn_port_no _ _ Hn'); cbn [point_no] in Hn, Hn'; merge.
  - assert (Hgas : a_generic (r_action r) = []).
    { apply s_gre0; [by apply bool_decide_eq_true_2|]. unfold a_type. by rewrite Eo. }
    cross Hin Eo; [rewrite <- Hgas; by apply shape_common|by right].
  - congruence.
  - direct Hin Eo.
  - cross Hin Eo; [apply shape_port|by left].
Qed.

Lemma lower_cases : goal.
Proof using Hs H0 H1.
  destruct (hm_type (r_match r)) eqn:Ety.
  - destruct Hs. destruct s_in0 as (pt & Hpt & _). unfold in_point in Hpt. by rewrite Ety in Hpt.
  - by apply lower_case_port.
  - by apply lower_case_nf.
  - by apply lower_case_internal.
  - by apply lower_case_gre.
Qed.
End cases.
End translation.

(** The rules for one switch, as the loop of the translator leaves them. *)
Definition tables (t0 t1 : LGraph) (s : side) : LGraph := match s with Lsi0 => t0 | Tenant => t1 end.

Lemma lowered_tables stale gid tenant lsi0 c rules t0 t1 :
  lowerGraphToLSI0 gid tenant lsi0 c rules = Ret t0 ->
  lowerGraphToTenantLSI stale tenant rules = Ret t1 ->
  exists low : Rule -> side -> option LRule,
    (forall r, r ∈ rules -> lower_rule_lsi0 gid tenant lsi0 c r = Ret (low r Lsi0)
                            /\ lower_rule_tenant stale tenant r = Ret (low r Tenant))
    /\ (forall s lr, lr ∈ tables t0 t1 s <-> exists r, r ∈ rules /\ low r s = Some lr).
Proof.
  intros H0 H1. apply lower_loop_ret in H0 as [Hr0 Ht0], H1 as [Hr1 Ht1].
  exists (fun r s => match s with
    | Lsi0 => match lower_rule_lsi0 gid tenant lsi0 c r with Ret o => o | _ => None end
    | Tenant => match lower_rule_tenant stale tenant r with Ret o => o | _ => None end end).
  split.
  - intros r Hr. cbn beta iota. destruct (Hr0 r Hr) as [o0 ->], (Hr1 r Hr) as [o1 ->]. done.
  - intros [] lr; cbn [tables]; [rewrite Ht0|rewrite Ht1]; cbn beta iota; split.
    + intros [[]%elem_of_nil|(r & Hr & E)]. exists r. by rewrite E.
    + intros (r & Hr & E). right. exists r. split; [done|].
      destruct (Hr0 r Hr) as [o Ho]. rewrite Ho in E |- *. by subst.
    + intros [[]%elem_of_nil|(r & Hr & E)]. exists r. by rewrite E.
    + intros (r & Hr & E). right. exists r. split; [done|].
      destruct (Hr1 r Hr) as [o Ho]. rewrite Ho in E |- *. by subst.
Qed.

(** Once both lowerings return, the tables forward as the graph says. *)
Lemma lowering_forwards_ok {pkt} (matches : list oxm -> pkt -> bool) vlan_op
    stale gid tenant lsi0 c rules t0 t1 dec :
  (forall p, matches [] p = true) ->
  lowerGraphToLSI0 gid tenant lsi0 c rules = Ret t0 ->
  lowerGraphToTenantLSI stale tenant rules = Ret t1 ->
  links_distinct tenant ->
  wiring (l_vlinks tenant) (tnum gid tenant lsi0 c) dec ->
  (forall r, r ∈ rules -> supported stale gid tenant lsi0 c r) ->
  forall pt n p, point_no gid tenant lsi0 c pt = Some n ->
    (forall pt' p', hl_forward matches vlan_op rules pt p pt' p' ->
       exists n', point_no gid tenant lsi0 c pt' = Some n'
         /\ delivers matches vlan_op (l_vlinks tenant) (tables t0 t1) (side_of pt) n p (side_of pt') n' p')
    /\ (forall s' n' p',
       delivers matches vlan_op (l_vlinks tenant) (tables t0 t1) (side_of pt) n p s' n' p' ->
       exists pt', side_of pt' = s' /\ point_no gid tenant lsi0 c pt' = Some n'
         /\ hl_forward matches vlan_op rules pt p pt' p').
Proof.
  intros Hnil H0 H1 Hown Hw Hsup pt n p Hn.
  destruct (lowered_tables _ _ _ _ _ _ _ _ H0 H1) as (low & Hlow & Ht).
  assert (Hl : forall r, r ∈ rules ->
    lowered (l_vlinks tenant) (tnum gid tenant lsi0 c) (serves tenant) r (low r)).
  { intros r Hr. destruct (Hlow r Hr) as [E0 E1].
    pose proof (lower_cases _ _ _ _ _ r (Hsup r Hr) _ _ E0 E1) as Hc.
    eapply lowered_ext; [|exact Hc]. by intros []. }
  split.
  - intros pt' p'.
    apply (forward_delivers matches vlan_op _ _ (tnum gid tenant lsi0 c) (serves tenant) dec Hw rules low);
      auto; intros r Hr; apply (Hsup r Hr).
  - intros s' n' p'.
    apply (delivers_forward matches vlan_op _ _ (tnum gid tenant lsi0 c) (serves tenant) dec Hw rules low);
      auto; intros r Hr; apply (Hsup r Hr).
Qed.
