(* ===== verification/NFManagers.v ===== *)
(** * Network functions and their managers (orchestrator/compute_controller)

    A description of a network function (description.cc), and the managers
    that start, update and stop it in an execution environment
    (plugins/docker, plugins/dpdk, plugins/native): each builds the command
    line of a script and runs it.  The host that runs the scripts, libvirt and
    the name resolver are behind the interface [Host]; the execution
    environments compiled in are the parameter [enabled]. *)

From Stdlib Require Import ZArith Lia String.
From stdpp Require Import gmap strings numbers sorting base list.
From S2P Require Import Prelude CString Cpp Lsi.

(** ** Descriptions *)

Inductive nf_t := DPDK | DOCKER | KVM | NATIVE.
#[export] Instance nf_t_eq_dec : EqDecision nf_t.
Proof. solve_decision. Defined.

(** [Description], [DPDKDescription] and [NativeDescription]. *)
Inductive details :=
| PlainDetails
| DPDKDetails (cores location : string)
| NativeDetails (location : string) (requirements : list string).
Record Description := {
  d_type : nf_t;
  d_uri : string;
  d_supported : bool;
  d_ports : gmap Z PortType;
  d_details : details
}.
Definition setSupported (b : bool) (d : Description) : Description :=
  {| d_type := d_type d; d_uri := d_uri d; d_supported := b; d_ports := d_ports d; d_details := d_details d |}.

Definition portTypeFromString (s : string) : PortType :=
  if bool_decide (s = "ivshmem") then IVSHMEM_PORT
  else if bool_decide (s = "usvhost") then USVHOST_PORT
  else if bool_decide (s = "vhost") then VHOST_PORT
  else INVALID_PORT.

Section build.
Context (enabled : nf_t -> bool).

(** [NFType::isValid]. *)
Definition isValid (type : string) : bool :=
  (enabled DPDK && bool_decide (type = "dpdk")) || (enabled DOCKER && bool_decide (type = "docker"))
  || (enabled KVM && bool_decide (type = "kvm")) || (enabled NATIVE && bool_decide (type = "native")).

(** The type, from the string the constructor of [Description] gets. *)
Definition nf_type (type : string) : out nf_t :=
  if bool_decide (type = "dpdk") then Ret DPDK
  else if enabled DOCKER && bool_decide (type = "docker") then Ret DOCKER
  else if enabled KVM && bool_decide (type = "kvm") then Ret KVM
  else if enabled NATIVE && bool_decide (type = "native") then Ret NATIVE
  else Halt Assert.
Definition Description_new (type uri : string) (ports : gmap Z PortType) (x : details) : out Description :=
  t ← nf_type type;
  Ret {| d_type := t; d_uri := uri; d_supported := false; d_ports := ports; d_details := x |}.
End build.

(** ** The host *)

(** What is asked of a manager to start a function ([StartNFIn]) or to update it
    ([UpdateNFIn]); the configuration of a port is its MAC address. *)
Record nf_request := {
  rq_lsi : Z;
  rq_nf : string;
  rq_names : gmap Z string;
  rq_conf : gmap Z string;
  rq_new : list Z;
  rq_mask : Z
}.

Class Host (HOST : Type) := {
  (** [system(3)]: the wait status *)
  host_system (command : string) : HOST -> HOST * Z;
  (** the capabilities of the XML file, [None] when it cannot be read *)
  host_capabilities : HOST -> HOST * option (gset string);
  (** the libvirt manager *)
  kvm_isSupported (d : Description) : HOST -> HOST * bool;
  kvm_startNF (d : Description) (rq : nf_request) : HOST -> HOST * bool;
  kvm_updateNF (d : Description) (rq : nf_request) : HOST -> HOST * bool;
  kvm_stopNF (lsi : Z) (nf : string) : HOST -> HOST * bool;
  (** the bytes of one read of the answer of the name resolver, [None] when a
      socket call fails *)
  host_resolve (nf_name : string) : HOST -> HOST * option string
}.

(** The host with the static members of [ComputeController] and [Native]. *)
Record node (HOST : Type) := {
  n_host : HOST;
  n_cores : gmap Z Z;
  n_nextCore : Z;
  n_capabilities : option (gset string)
}.
#[global] Arguments n_host {HOST} _.
Arguments n_cores {HOST} _.
Arguments n_nextCore {HOST} _.
Arguments n_capabilities {HOST} _.

(** Traversal of a [std::map<unsigned int, V>]. *)
Definition zmap_list {V} (m : gmap Z V) : list (Z * V) :=
  omap (fun k => pair k <$> m !! k) (merge_sort Z.le (elements (dom m))).

Section managers.
Context {HOST : Type} `{!Host HOST} (script_path : string).
Abbreviation P := (prog (node HOST)).

Definition set_host (h : HOST) (n : node HOST) : node HOST :=
  {| n_host := h; n_cores := n_cores n; n_nextCore := n_nextCore n; n_capabilities := n_capabilities n |}.
Definition set_cores (c : gmap Z Z) (next : Z) (n : node HOST) : node HOST :=
  {| n_host := n_host n; n_cores := c; n_nextCore := next; n_capabilities := n_capabilities n |}.
Definition set_capabilities (c : option (gset string)) (n : node HOST) : node HOST :=
  {| n_host := n_host n; n_cores := n_cores n; n_nextCore := n_nextCore n; n_capabilities := c |}.
Definition on_host {A} (f : HOST -> HOST * A) : P A := fun n =>
  let '(h, a) := f (n_host n) in (set_host h n, Ret a).

(** A script and its arguments. *)
Definition command (script : string) (args : list string) : string :=
  script_path +:+ script +:+ foldr (fun a s => " " +:+ a +:+ s) "" args.
Definition run_script (script : string) (args : list string) : P Z :=
  on_host (host_system (command script args)).
(** The scripts exit with 0 when they fail. *)
Definition exit_ok (status : Z) : bool := negb (Z.shiftr status 8 =? 0).

(** *** Docker *)

Definition mac_or_0 (mac : string) : string := if bool_decide (mac = "") then "0" else mac.
Definition docker_isSupported : P bool :=
  status ← run_script "./compute_controller/plugins/docker/scripts/checkDockerRun.sh" [];
  mret (0 <? Z.shiftr status 8).
Definition docker_startNF (d : Description) (rq : nf_request) : P bool :=
  _ ← prog_assert (size (rq_conf rq) =? size (rq_names rq))%nat;
  status ← run_script "./compute_controller/plugins/docker/scripts/pullAndRunNF.sh"
    ([show (rq_lsi rq); rq_nf rq; d_uri d; show (Z.of_nat (size (rq_names rq)))]
     ++ concat ((fun '(p, name) => [name; mac_or_0 (default "" (rq_conf rq !! p)); "0"]) <$> zmap_list (rq_names rq))
     ++ ["0"; "0"]);
  mret (exit_ok status).
Definition docker_stopNF (lsi : Z) (nf : string) : P bool :=
  status ← run_script "./compute_controller/plugins/docker/scripts/stopNF.sh" [show lsi; nf];
  mret (exit_ok status).
(** The new ports; each must have a configuration and a name. *)
Definition docker_port (rq : nf_request) (p : Z) : out (list string) :=
  _ ← out_assert (bool_decide (is_Some (rq_conf rq !! p)));
  _ ← out_assert (bool_decide (is_Some (rq_names rq !! p)));
  Ret [default "" (rq_names rq !! p); mac_or_0 (default "" (rq_conf rq !! p)); "0"].
(** Here the status is not shifted. *)
Definition docker_updateNF (rq : nf_request) : P bool :=
  ports ← of_out (mapM (docker_port rq) (rq_new rq));
  status ← run_script "./compute_controller/plugins/docker/scripts/hotplugNF.sh"
    ([show (rq_lsi rq); rq_nf rq; show (u32 (Z.of_nat (size (rq_names rq)) - Z.of_nat (length (rq_new rq))));
      show (Z.of_nat (length (rq_new rq)))] ++ concat ports);
  mret (negb (status =? 0)).

(** *** DPDK *)

Definition located (location uri : string) : string :=
  (if bool_decide (location = "local") then "file://" else "") +:+ uri.
Definition dpdk_startNF (d : Description) (rq : nf_request) : P bool :=
  match d_details d with
  | DPDKDetails _ location =>
      status ← run_script "./compute_controller/plugins/dpdk/scripts/pullAndRunNF.sh"
        ([show (rq_lsi rq); rq_nf rq; located location (d_uri d); show (rq_mask rq); "2";
          show (Z.of_nat (size (rq_names rq)))] ++ (snd <$> zmap_list (rq_names rq)));
      mret (exit_ok status)
  | _ => mret false
  end.
Definition dpdk_stopNF (lsi : Z) (nf : string) : P bool :=
  status ← run_script "./compute_controller/plugins/dpdk/scripts/stopNF.sh" [show lsi; nf];
  mret (exit_ok status).
Definition dpdk_getCores (d : Description) : string :=
  match d_details d with DPDKDetails cores _ => cores | _ => "" end.

(** *** Native functions *)

(** The constructor reads the capabilities once; when it cannot, it has already
    made the table, and throws a pointer. *)
Definition Native_new : P unit :=
  caps ← gets n_capabilities;
  match caps with
  | Some _ => mret tt
  | None =>
      caps ← on_host host_capabilities;
      _ ← modify (set_capabilities (Some (default ∅ caps)));
      match caps with Some _ => mret tt | None => throw NativeExceptionPtr end
  end.
Definition native_isSupported (d : Description) : P bool :=
  caps ← gets n_capabilities;
  match d_details d with
  | NativeDetails _ requirements => mret (forallb (fun r => bool_decide (r ∈ default ∅ caps)) requirements)
  | _ => mret false
  end.
Definition native_startNF (d : Description) (rq : nf_request) : P bool :=
  match d_details d with
  | NativeDetails location _ =>
      status ← run_script "./compute_controller/plugins/native/scripts/pullAndRunNativeNF_ns.sh"
        ([show (rq_lsi rq); rq_nf rq; located location (d_uri d); show (Z.of_nat (size (rq_names rq)))]
         ++ (snd <$> zmap_list (rq_names rq)));
      mret (exit_ok status)
  | _ => mret false
  end.
Definition native_updateNF (d : Description) (rq : nf_request) : P bool :=
  match d_details d with
  | NativeDetails location _ =>
      names ← of_out (mapM (fun p => match rq_names rq !! p with Some n => Ret n | None => Halt Assert end) (rq_new rq));
      status ← run_script "./compute_controller/plugins/native/scripts/updateNativeNF_ns.sh"
        ([show (rq_lsi rq); rq_nf rq; located location (d_uri d); show (Z.of_nat (length (rq_new rq)))] ++ names);
      mret (exit_ok status)
  | _ => mret false
  end.
Definition native_stopNF (lsi : Z) (nf : string) : P bool :=
  status ← run_script "./compute_controller/plugins/native/scripts/stopNativeNF_ns.sh" [show lsi; nf];
  mret (exit_ok status).

(** ** The virtual methods of [NFsManager], by the class of the manager *)

Definition mgr_isSupported (d : Description) : P bool :=
  match d_type d with
  | DPDK => mret true
  | DOCKER => docker_isSupported
  | KVM => on_host (kvm_isSupported d)
  | NATIVE => native_isSupported d
  end.
Definition mgr_startNF (d : Description) (rq : nf_request) : P bool :=
  match d_type d with
  | DPDK => dpdk_startNF d rq
  | DOCKER => docker_startNF d rq
  | KVM => on_host (kvm_startNF d rq)
  | NATIVE => native_startNF d rq
  end.
Definition mgr_updateNF (d : Description) (rq : nf_request) : P bool :=
  match d_type d with
  | DPDK => mret false
  | DOCKER => docker_updateNF rq
  | KVM => on_host (kvm_updateNF d rq)
  | NATIVE => native_updateNF d rq
  end.
Definition mgr_stopNF (d : Description) (lsi : Z) (nf : string) : P bool :=
  match d_type d with
  | DPDK => dpdk_stopNF lsi nf
  | DOCKER => docker_stopNF lsi nf
  | KVM => on_host (kvm_stopNF lsi nf)
  | NATIVE => native_stopNF lsi nf
  end.
Definition mgr_getCores (d : Description) : string :=
  match d_type d with DPDK => dpdk_getCores d | _ => "" end.
End managers.
