(* ===== verification/Json.v ===== *)
(** * JSON values

    The values of the JSON library, once a text is parsed: an object is the
    list of its members in the order in which the library traverses them.  An
    accessor used on a value of another type throws. *)

From Stdlib Require Import ZArith Lia String.
From stdpp Require Import gmap strings numbers base list.
From S2P Require Import Prelude Cpp.

Inductive json :=
| JNull
| JBool (b : bool)
| JInt (n : Z)
| JReal (text : string)
| JStr (s : string)
| JArr (l : list json)
| JObj (l : list (string * json)).

Definition getString (v : json) : out string :=
  match v with JStr s => Ret s | _ => Throw ParseError end.
Definition getInt (v : json) : out Z :=
  match v with JInt n => Ret (i32 n) | _ => Throw ParseError end.
Definition getBool (v : json) : out bool :=
  match v with JBool b => Ret b | _ => Throw ParseError end.
Definition getArray (v : json) : out (list json) :=
  match v with JArr l => Ret l | _ => Throw ParseError end.
Definition getObject (v : json) : out (list (string * json)) :=
  match v with JObj l => Ret l | _ => Throw ParseError end.

Lemma i32_range x : -2147483648 <= i32 x < 2147483648.
Proof. unfold i32. pose proof (Z.mod_pos_bound (x + 2147483648) 4294967296). lia. Qed.
Lemma i32_small x : -2147483648 <= x < 2147483648 -> i32 x = x.
Proof. intros H. unfold i32. rewrite Z.mod_small; lia. Qed.
Lemma u32_i32 x : u32 (i32 x) = u32 x.
Proof.
  unfold u32, i32. rewrite Zminus_mod_idemp_l. f_equal. lia.
Qed.

(** Objects are read by folding over their members. *)
Lemma out_fold_app {A B} (g : B -> A -> out B) b l1 l2 :
  out_fold g b (l1 ++ l2) = (b ← out_fold g b l1; out_fold g b l2).
Proof. revert b. induction l1 as [|x l1 IH]; intros b; [done|]. cbn. destruct (g b x); cbn; [apply IH|done..]. Qed.
