(* ===== verification/ComputeController.v ===== *)
(** * The compute controller (compute_controller/compute_controller.cc)

    It asks the name resolver for the descriptions of a network function,
    selects an implementation among those the host supports, and starts,
    updates and stops the functions of a graph through their managers.  Each
    graph has its controller; the processor cores given to DPDK processes are
    shared by all of them and live in the node. *)

From Stdlib Require Import ZArith Lia String Ascii.
From stdpp Require Import gmap strings numbers base list.
From S2P Require Import Prelude CString Cpp Json Lsi NFManagers.

Inductive nf_manager_ret_t := NFManager_OK | NFManager_SERVER_ERROR | NFManager_NO_NF.
#[export] Instance nf_manager_ret_t_eq_dec : EqDecision nf_manager_ret_t.
Proof. solve_decision. Defined.

(** ** The state *)

Record NF := {
  nf_name : string;
  nf_descriptions : list Description;
  nf_selected : option Description;
  nf_running : bool
}.
Definition NF_new (name : string) (ds : list Description) : NF :=
  {| nf_name := name; nf_descriptions := ds; nf_selected := None; nf_running := false |}.
Definition setSelectedDescription (d : Description) (f : NF) : NF :=
  {| nf_name := nf_name f; nf_descriptions := nf_descriptions f; nf_selected := Some d; nf_running := nf_running f |}.
Definition setRunning (b : bool) (f : NF) : NF :=
  {| nf_name := nf_name f; nf_descriptions := nf_descriptions f; nf_selected := nf_selected f; nf_running := b |}.
Definition support (i : nat) (f : NF) : NF :=
  {| nf_name := nf_name f; nf_descriptions := alter (setSupported true) i (nf_descriptions f);
     nf_selected := nf_selected f; nf_running := nf_running f |}.

Record CC := { cc_nfs : gmap string NF; cc_lsi : Z }.

(** ** The answer of the name resolver

    A key that is missing, unknown or of another type makes [parseAnswer]
    return false; that is the exception [ParseError] here. *)
Section parse.
Context (enabled : nf_t -> bool).

Definition reject {A} : out A := Throw ParseError.

Definition port_member (acc : Z * PortType) (kv : string * json) : out (Z * PortType) :=
  let '(id, t) := acc in
  let '(k, v) := kv in
  if bool_decide (k = "id") then i ← getInt v; Ret (i, t)
  else if bool_decide (k = "type") then
    s ← getString v;
    match portTypeFromString s with INVALID_PORT => reject | t => Ret (id, t) end
  else reject.
Definition parse_port (v : json) : out (Z * PortType) :=
  obj ← getObject v;
  '(id, t) ← out_fold port_member (-1, UNDEFINED_PORT) obj;
  if id =? -1 then reject
  else match t with UNDEFINED_PORT => reject | t => Ret (u32 id, t) end.

(** [std::map::insert] keeps what is there. *)
Definition insert_new {V} (k : Z) (v : V) (m : gmap Z V) : gmap Z V :=
  match m !! k with Some _ => m | None => <[k := v]> m end.
Definition parse_ports (m : gmap Z PortType) (l : list json) : out (gmap Z PortType) :=
  out_fold (fun m v => '(i, t) ← parse_port v; Ret (insert_new i t m)) m l.
(** The ports of an implementation that does not list them. *)
Definition default_ports (n : Z) (t : PortType) (m : gmap Z PortType) : gmap Z PortType :=
  foldl (fun m i => insert_new i t m) m (seqZ 1 n).

(** The members of an implementation read so far; [im_found_ports] outlives the
    implementation. *)
Record impl := {
  im_type : option string;
  im_uri : option string;
  im_cores : option string;
  im_location : option string;
  im_deps : option string;
  im_ports : gmap Z PortType;
  im_found_ports : bool
}.
Definition impl_new (found_ports : bool) : impl :=
  {| im_type := None; im_uri := None; im_cores := None; im_location := None; im_deps := None;
     im_ports := ∅; im_found_ports := found_ports |}.

(** The scan of the members; false when the type is not supported, which ends it. *)
Fixpoint scan_impl (els : list (string * json)) (i : impl) : out (impl * bool) :=
  match els with
  | [] => Ret (i, true)
  | (k, v) :: els =>
      if bool_decide (k = "type") then
        s ← getString v;
        let i := {| im_type := Some s; im_uri := im_uri i; im_cores := im_cores i; im_location := im_location i;
                    im_deps := im_deps i; im_ports := im_ports i; im_found_ports := im_found_ports i |} in
        if isValid enabled s then scan_impl els i else Ret (i, false)
      else if bool_decide (k = "uri") then
        s ← getString v;
        scan_impl els {| im_type := im_type i; im_uri := Some s; im_cores := im_cores i; im_location := im_location i;
                         im_deps := im_deps i; im_ports := im_ports i; im_found_ports := im_found_ports i |}
      else if bool_decide (k = "cores") then
        s ← getString v;
        scan_impl els {| im_type := im_type i; im_uri := im_uri i; im_cores := Some s; im_location := im_location i;
                         im_deps := im_deps i; im_ports := im_ports i; im_found_ports := im_found_ports i |}
      else if bool_decide (k = "location") then
        s ← getString v;
        scan_impl els {| im_type := im_type i; im_uri := im_uri i; im_cores := im_cores i; im_location := Some s;
                         im_deps := im_deps i; im_ports := im_ports i; im_found_ports := im_found_ports i |}
      else if bool_decide (k = "ports") then
        l ← getArray v;
        match l with
        | [] => reject
        | _ =>
            m ← parse_ports (im_ports i) l;
            scan_impl els {| im_type := im_type i; im_uri := im_uri i; im_cores := im_cores i;
                             im_location := im_location i; im_deps := im_deps i; im_ports := m; im_found_ports := true |}
        end
      else if bool_decide (k = "dependencies") then
        s ← getString v;
        scan_impl els {| im_type := im_type i; im_uri := im_uri i; im_cores := im_cores i; im_location := im_location i;
                         im_deps := Some s; im_ports := im_ports i; im_found_ports := im_found_ports i |}
      else reject
  end.

(** The words of a stream ([stream >> s]). *)
Definition words (s : string) : list string :=
  string_of_list_ascii <$> tokens (filter (fun c => isspace c = true) (ascii_of_nat <$> seq 0 256)) (txt s).

(** The description of an implementation, once its members are read. *)
Definition described (type uri : string) (ports : gmap Z PortType) (x : details) : out (option Description) :=
  d ← Description_new enabled type uri ports x; Ret (Some d).
Definition describe (numports : Z) (i : impl) : out (option Description) :=
  match im_uri i, im_type i with
  | Some uri, Some type =>
      if bool_decide (type = "dpdk") then
        if enabled DPDK then
          match im_cores i, im_location i with
          | Some cores, Some location =>
              _ ← out_assert (negb (im_found_ports i));
              described type uri (default_ports numports DPDKR_PORT (im_ports i)) (DPDKDetails cores location)
          | _, _ => reject
          end
        else Ret None
      else if bool_decide (type = "native") then
        if enabled NATIVE then
          _ ← out_assert (negb (im_found_ports i));
          match im_location i, im_deps i with
          | Some location, Some deps =>
              described type uri (default_ports numports VETH_PORT (im_ports i)) (NativeDetails location (words deps))
          | _, _ => reject
          end
        else Ret None
      else
        match im_cores i, im_location i, im_deps i with
        | None, None, None =>
            if im_found_ports i then described type uri (im_ports i) PlainDetails
            else if bool_decide (type = "docker")
                 then described type uri (default_ports numports VETH_PORT (im_ports i)) PlainDetails
                 else Halt Assert
        | _, _, _ => reject
        end
  | _, _ => reject
  end.

Fixpoint parse_impls (numports : Z) (found_ports : bool) (l : list json) : out (list Description) :=
  match l with
  | [] => Ret []
  | v :: l =>
      els ← getObject v;
      '(i, supported) ← scan_impl els (impl_new found_ports);
      if negb supported then parse_impls numports (im_found_ports i) l
      else
        d ← describe numports i;
        ds ← parse_impls numports (im_found_ports i) l;
        Ret (match d with Some d => d :: ds | None => ds end)
  end.

(** The members of the answer read so far. *)
Record answer := { an_name : bool; an_impls : bool; an_text : bool; an_descriptions : list Description }.
Definition answer_member (nf_name : string) (numports : Z) (a : answer) (kv : string * json) : out answer :=
  let '(k, v) := kv in
  if bool_decide (k = "name") then
    s ← getString v;
    if bool_decide (s = nf_name)
    then Ret {| an_name := true; an_impls := an_impls a; an_text := an_text a; an_descriptions := an_descriptions a |}
    else reject
  else if bool_decide (k = "nports") then Ret a
  else if bool_decide (k = "summary") then
    Ret {| an_name := an_name a; an_impls := an_impls a; an_text := true; an_descriptions := an_descriptions a |}
  else if bool_decide (k = "implementations") then
    l ← getArray v;
    match l with
    | [] => reject
    | _ =>
        ds ← parse_impls numports false l;
        Ret {| an_name := an_name a; an_impls := true; an_text := an_text a;
               an_descriptions := an_descriptions a ++ ds |}
    end
  else reject.
Definition parse_answer (v : json) (nf_name : string) : out (list Description) :=
  obj ← getObject v;
  numports ← match list_find (fun '(k, _) => k = "nports") obj with
             | Some (_, (_, n)) => n ← getInt n; Ret (u32 n)
             | None => reject
             end;
  a ← out_fold (answer_member nf_name numports)
        {| an_name := false; an_impls := false; an_text := false; an_descriptions := [] |} obj;
  if an_name a && an_impls a && an_text a
  then _ ← out_assert (negb (bool_decide (an_descriptions a = []))); Ret (an_descriptions a)
  else reject.
End parse.

(** ** The interface to the graph manager

    The compute controller of a graph works on its own state and on that of the
    node, which all of them share. *)
Class ComputeOps (CC NODE : Type) := {
  cc_new : CC;
  cc_retrieveDescription (nf_id nf_name : string) : prog (CC * NODE) nf_manager_ret_t;
  cc_selectImplementation : prog (CC * NODE) bool;
  cc_getNFType (nf_id : string) : CC -> out nf_t;
  (** the port types of the description, or NULL *)
  cc_getNFSelectedImplementation (nf_id : string) : CC -> option (gmap Z PortType);
  cc_setLsiID (dpid : Z) : CC -> CC;
  cc_startNF (nf_id : string) (names conf : gmap Z string) : prog (CC * NODE) bool;
  cc_updateNF (nf_id : string) (names conf : gmap Z string) (newPorts : list Z) : prog (CC * NODE) bool;
  cc_stopNF (nf_id : string) : prog (CC * NODE) bool;
  cc_stopAll : prog (CC * NODE) unit
}.

(** ** The operations *)
Section controller.
Context (enabled : nf_t -> bool) (script_path : string).
(** The JSON library's [read]: nothing when the text is not JSON. *)
Context (json_read : string -> option json).
Context {HOST : Type} `{!Host HOST}.
Abbreviation P := (prog (CC * node HOST)).

Definition on_node {A} (m : prog (node HOST) A) : P A := fun s =>
  let '(n, o) := m (snd s) in ((fst s, n), o).
Definition set_nfs (f : gmap string NF -> gmap string NF) : P unit :=
  modify (fun s => ({| cc_nfs := f (cc_nfs (fst s)); cc_lsi := cc_lsi (fst s) |}, snd s)).
Definition nfs : P (gmap string NF) := gets (fun s => cc_nfs (fst s)).

Definition parseAnswer (text nf_name nf_id : string) : P bool :=
  match json_read text with
  | None => mret false
  | Some v =>
      match parse_answer enabled v nf_name with
      | Ret ds => _ ← set_nfs (<[nf_id := NF_new nf_name ds]>); mret true
      | Throw _ => mret false
      | Halt f => of_out (Halt f)
      end
  end.

(** The body of the answer: what follows the first empty line, up to a NUL. *)
Definition cstring (s : string) : string :=
  string_of_list_ascii (fst (span (fun c => negb (Ascii.eqb c "000")) (txt s))).
Definition crlf2 : string := String "013" (String "010" (String "013" (String "010" ""))).
Definition http_body (answer : string) : string :=
  match index 0 crlf2 answer with
  | Some i => cstring (substring (i + 4) (String.length answer - (i + 4)) answer)
  | None => ""
  end.
(** Fewer than nine bytes leave the status code to what the buffer held before;
    a full buffer leaves no room for the terminator. *)
Definition retrieveDescription (nf_id nf_name : string) : P nf_manager_ret_t :=
  answer ← on_node (on_host (host_resolve nf_name));
  match answer with
  | None => mret NFManager_SERVER_ERROR
  | Some answer =>
      let n := Z.of_nat (String.length answer) in
      if (n <? 9) || (20480 <=? n) then of_out (Halt Undef)
      else
        let code := substring 9 3 answer in
        if bool_decide (code = "405") then mret NFManager_NO_NF
        else if bool_decide (code <> "200") then mret NFManager_SERVER_ERROR
        else
          ok ← parseAnswer (http_body answer) nf_name nf_id;
          mret (if ok : bool then NFManager_OK else NFManager_SERVER_ERROR)
  end.

(** *** Selection *)

(** One description: its manager says whether the host can run it; a type the
    orchestrator was built without is only logged. *)
Definition check_description (nf : string) (i : nat) : P unit :=
  m ← nfs;
  d ← of_out (deref (m !! nf ≫= fun f => nf_descriptions f !! i));
  if enabled (d_type d) then
    _ ← (if decide (d_type d = NATIVE) then on_node Native_new else mret tt);
    ok ← on_node (mgr_isSupported script_path d);
    if ok : bool then set_nfs (alter (support i) nf) else mret tt
  else mret tt.
Definition checkSupportedDescriptions : P unit :=
  m ← nfs;
  for_each (fun '(nf, i) => check_description nf i)
    (map_list m ≫= fun '(nf, f) => pair nf <$> seq 0 (length (nf_descriptions f))).

(** The first description that is supported. *)
Fixpoint selectNFImplementation (ds : list Description) : P (option Description) :=
  match ds with
  | [] => mret None
  | d :: ds =>
      if d_supported d then
        if enabled (d_type d) then
          _ ← (if decide (d_type d = NATIVE) then on_node Native_new else mret tt);
          mret (Some d)
        else of_out (Halt Assert)
      else selectNFImplementation ds
  end.
Fixpoint select_each (l : list string) : P bool :=
  match l with
  | [] => mret true
  | nf :: l =>
      m ← nfs;
      f ← of_out (deref (m !! nf));
      match nf_selected f with
      | Some _ => select_each l
      | None =>
          d ← selectNFImplementation (nf_descriptions f);
          match d with
          | None => mret false
          | Some d => _ ← set_nfs (alter (setSelectedDescription d) nf); select_each l
          end
      end
  end.
Definition is_selected (f : NF) : bool := bool_decide (is_Some (nf_selected f)).
Definition allSelected (m : gmap string NF) : bool := forallb (fun '(_, f) => is_selected f) (map_list m).
Definition selectImplementation : P bool :=
  _ ← checkSupportedDescriptions;
  m ← nfs;
  ok ← select_each (fst <$> map_list m);
  if negb ok then mret false else m ← nfs; mret (allSelected m).

Definition getNFType (nf : string) (c : CC) : out nf_t :=
  f ← match cc_nfs c !! nf with Some f => Ret f | None => Halt Assert end;
  match nf_selected f with Some d => Ret (d_type d) | None => Halt Assert end.
Definition getNFSelectedImplementation (nf : string) (c : CC) : option Description :=
  f ← cc_nfs c !! nf; nf_selected f.
Definition setLsiID (dpid : Z) (c : CC) : CC := {| cc_nfs := cc_nfs c; cc_lsi := dpid |}.

(** *** Cores *)

(** [sscanf("%d")]. *)
Definition sscanf_d (s : string) : option Z :=
  let '(v, rest) := strtol (txt s) in if bool_decide (rest = txt s) then None else Some (i32 v).
Definition setCoreMask (core_mask : Z) (n : node HOST) : node HOST :=
  let '(c, _) := foldl (fun '(c, next) i => if Z.testbit core_mask i then (<[next := Z.shiftl 1 i]> c, next + 1) else (c, next))
                   (n_cores n, n_nextCore n) (seqZ 0 64) in
  set_cores c 0 n.
(** [cores[nextCore]] makes an entry 0 when there is none. *)
Definition take_core (s : node HOST * Z) : node HOST * Z :=
  let '(n, mask) := s in
  let c := default 0 (n_cores n !! n_nextCore n) in
  let cores := <[n_nextCore n := c]> (n_cores n) in
  (set_cores cores ((n_nextCore n + 1) mod Z.of_nat (size cores)) n, Z.lor mask c).
Definition calculateCoreMask (coresRequired : string) : prog (node HOST) Z :=
  if bool_decide (coresRequired = "") then mret 0
  else
    match sscanf_d coresRequired with
    | None => of_out (Halt Undef)
    | Some k => fun n => let '(n, mask) := Nat.iter (Z.to_nat k) take_core (n, 0) in (n, Ret mask)
    end.

(** *** Start, update, stop *)

(** The selected manager of a function; calling through a null pointer is undefined. *)
Definition manager (nf : string) : P Description :=
  m ← nfs;
  of_out (deref (f ← m !! nf; nf_selected f)).
(** Printing the configuration of a port makes an empty one where there is none. *)
Definition printed_conf (names conf : gmap Z string) : gmap Z string :=
  foldl (fun c p => insert_new p "" c) conf (fst <$> zmap_list names).
Definition startNF (nf : string) (names conf : gmap Z string) : P bool :=
  m ← nfs;
  _ ← prog_assert (bool_decide (is_Some (m !! nf)));
  d ← manager nf;
  mask ← on_node (calculateCoreMask (mgr_getCores d));
  lsi ← gets (fun s => cc_lsi (fst s));
  ok ← on_node (mgr_startNF script_path d
                  {| rq_lsi := lsi; rq_nf := nf; rq_names := names; rq_conf := printed_conf names conf;
                     rq_new := []; rq_mask := mask |});
  if negb ok then mret false else _ ← set_nfs (alter (setRunning true) nf); mret true.
Definition updateNF (nf : string) (names conf : gmap Z string) (newPorts : list Z) : P bool :=
  d ← manager nf;
  lsi ← gets (fun s => cc_lsi (fst s));
  on_node (mgr_updateNF script_path d
             {| rq_lsi := lsi; rq_nf := nf; rq_names := names; rq_conf := conf; rq_new := newPorts; rq_mask := 0 |}).
Definition stopNF (nf : string) : P bool :=
  m ← nfs;
  if bool_decide (m !! nf = None) then mret false
  else
    d ← manager nf;
    lsi ← gets (fun s => cc_lsi (fst s));
    ok ← on_node (mgr_stopNF script_path d lsi nf);
    if negb ok then mret false else _ ← set_nfs (delete nf); mret true.
(** A function that is stopped leaves the map while the loop stands on it: the
    increment of the iterator is undefined. *)
Fixpoint stop_each (l : list string) : P unit :=
  match l with
  | [] => mret tt
  | nf :: l => stopped ← stopNF nf; if stopped : bool then of_out (Halt Undef) else stop_each l
  end.
Definition stopAll : P unit :=
  m ← nfs;
  stop_each (fst <$> map_list m).

(** *** The interface *)

(** [lsiID] is not initialised by the constructor. *)
Definition compute_ops (no_lsi : Z) : ComputeOps CC (node HOST) := {|
  cc_new := {| cc_nfs := ∅; cc_lsi := no_lsi |};
  cc_retrieveDescription := retrieveDescription;
  cc_selectImplementation := selectImplementation;
  cc_getNFType := getNFType;
  cc_getNFSelectedImplementation nf c := d_ports <$> getNFSelectedImplementation nf c;
  cc_setLsiID := setLsiID;
  cc_startNF := startNF;
  cc_updateNF := updateNF;
  cc_stopNF := stopNF;
  cc_stopAll := stopAll
|}.
End controller.
