(* ===== verification/GraphManager.v ===== *)
(** * The graph manager (graph_manager/graph_manager.cc)

    The handlers that create, update and delete a graph: they check it, ask
    the virtual switch for an LSI, virtual links and ports, start the network
    functions, and give the controllers the rules.  The virtual switch and the
    compute controller are interfaces ([SwitchOps], [ComputeController.ComputeOps]); a controller
    is kept with its datapath ([Controller.system]).  Handlers are programs
    over the manager's state: what they changed before an exception stays
    changed.  Requests are handled one at a time. *)

From Stdlib Require Import ZArith Lia String.
From stdpp Require Import gmap strings numbers base list.
From S2P Require Import Prelude Cpp Keyed FlowMatch HighLevel HLGraph LowLevel Lsi Vlinks Translator Controller NFManagers ComputeController.

(** ** The interfaces *)

(** The description of an LSI to be created, and what the switch answers. *)
Record CreateLsiIn := {
  cli_controller_port : string;
  cli_physical : list string;
  cli_nf_types : gmap string nf_t;
  cli_nfs_ports : gmap string (list nf_port_info);
  cli_gre : gmap string (list string);
  cli_vlinks : list Z
}.
Record CreateLsiOut := {
  clo_dpid : Z;
  clo_physical : gmap string Z;
  clo_nfs_ports : gmap string (gmap string Z);
  clo_endpoints : gmap string Z;
  clo_nfs_names : gmap string (gmap string Z);
  clo_vlinks : list (Z * Z)
}.

Class SwitchOps (SW : Type) := {
  sw_link :: LinkSwitch SW;
  createLsi (cli : CreateLsiIn) : SW -> SW * out CreateLsiOut;
  destroyLsi (dpid : Z) : SW -> SW * out unit;
  addNFPorts (dpid : Z) (nf : string) (t : nf_t) (ports : list nf_port_info) :
    SW -> SW * out (string * gmap string Z);
  destroyNFPorts (dpid : Z) (nf : string) (ports : gset string) : SW -> SW * out unit;
  addEndpoint (dpid : Z) (ep : string) (params : list string) : SW -> SW * out (string * Z);
  destroyEndpoint (dpid : Z) (ep : string) : SW -> SW * out unit
}.

(** ** The state *)
Section manager.
Context {SW CC NODE : Type} `{!SwitchOps SW} `{!ComputeOps CC NODE}.
(** Reading a destroyed string; comparing uninitialised port numbers. *)
Context (stale : string -> string) (garbage : bool).
(** The identifier of an LSI before the switch gave it one. *)
Context (no_dpid : Z).
Context (un_interface : string).

Record GraphInfo := { gi_graph : Graph; gi_lsi : LSI; gi_ctl : system; gi_cc : CC }.
(** The LSI of an internal endpoint is created after its controller. *)
Record InternalInfo := { ii_lsi : option LSI; ii_ctl : system }.

Record GM := {
  gm_tenants : gmap string GraphInfo;
  gm_internals : gmap string InternalInfo;
  gm_created : gmap string bool;
  gm_times : gmap string Z;
  gm_conns : conns;
  gm_lsi0 : LSI;
  gm_ctl0 : system;
  gm_low0 : LGraph;
  gm_dpid0 : Z;
  gm_next_port : Z;
  gm_next_vlink : Z;
  gm_sw : SW;
  gm_node : NODE
}.

Definition set_tenants (x : gmap string GraphInfo) (s : GM) : GM :=
  {| gm_tenants := x; gm_internals := gm_internals s; gm_created := gm_created s; gm_times := gm_times s;
     gm_conns := gm_conns s; gm_lsi0 := gm_lsi0 s; gm_ctl0 := gm_ctl0 s; gm_low0 := gm_low0 s;
     gm_dpid0 := gm_dpid0 s; gm_next_port := gm_next_port s; gm_next_vlink := gm_next_vlink s; gm_sw := gm_sw s;
     gm_node := gm_node s |}.
Definition set_internal (i : gmap string InternalInfo) (cr : gmap string bool) (t : gmap string Z) (c : conns)
    (s : GM) : GM :=
  {| gm_tenants := gm_tenants s; gm_internals := i; gm_created := cr; gm_times := t;
     gm_conns := c; gm_lsi0 := gm_lsi0 s; gm_ctl0 := gm_ctl0 s; gm_low0 := gm_low0 s;
     gm_dpid0 := gm_dpid0 s; gm_next_port := gm_next_port s; gm_next_vlink := gm_next_vlink s; gm_sw := gm_sw s;
     gm_node := gm_node s |}.
Definition set_ctl0 (c : system) (g : LGraph) (s : GM) : GM :=
  {| gm_tenants := gm_tenants s; gm_internals := gm_internals s; gm_created := gm_created s; gm_times := gm_times s;
     gm_conns := gm_conns s; gm_lsi0 := gm_lsi0 s; gm_ctl0 := c; gm_low0 := g;
     gm_dpid0 := gm_dpid0 s; gm_next_port := gm_next_port s; gm_next_vlink := gm_next_vlink s; gm_sw := gm_sw s;
     gm_node := gm_node s |}.
Definition set_counters (port vlink : Z) (sw : SW) (s : GM) : GM :=
  {| gm_tenants := gm_tenants s; gm_internals := gm_internals s; gm_created := gm_created s; gm_times := gm_times s;
     gm_conns := gm_conns s; gm_lsi0 := gm_lsi0 s; gm_ctl0 := gm_ctl0 s; gm_low0 := gm_low0 s;
     gm_dpid0 := gm_dpid0 s; gm_next_port := port; gm_next_vlink := vlink; gm_sw := sw;
     gm_node := gm_node s |}.
Definition set_node (n : NODE) (s : GM) : GM :=
  {| gm_tenants := gm_tenants s; gm_internals := gm_internals s; gm_created := gm_created s; gm_times := gm_times s;
     gm_conns := gm_conns s; gm_lsi0 := gm_lsi0 s; gm_ctl0 := gm_ctl0 s; gm_low0 := gm_low0 s;
     gm_dpid0 := gm_dpid0 s; gm_next_port := gm_next_port s; gm_next_vlink := gm_next_vlink s; gm_sw := gm_sw s;
     gm_node := n |}.

Definition on_sw {A} (f : SW -> SW * out A) : prog GM A := fun s =>
  let '(sw, o) := f (gm_sw s) in (set_counters (gm_next_port s) (gm_next_vlink s) sw s, o).
(** A program over the links of one LSI, run on the manager's counter and switch. *)
Definition on_vstate {A} (l : LSI) (m : prog (vstate SW) A) : GM -> GM * (LSI * out A) := fun s =>
  let '(v, o) := m {| vs_lsi := l; vs_next := gm_next_vlink s; vs_sw := gm_sw s |} in
  (set_counters (gm_next_port s) (vs_next v) (vs_sw v) s, (vs_lsi v, o)).
(** On the LSI of a deployed graph: it is reached through a pointer, so what is
    done to it stays. *)
Definition on_tenant {A} (gid : string) (m : prog (vstate SW) A) : prog GM A := fun s =>
  match gm_tenants s !! gid with
  | None => (s, Halt Undef)
  | Some gi =>
      let '(s, (l, o)) := on_vstate (gi_lsi gi) m s in
      (set_tenants (<[gid := {| gi_graph := gi_graph gi; gi_lsi := l; gi_ctl := gi_ctl gi; gi_cc := gi_cc gi |}]>
                      (gm_tenants s)) s, o)
  end.
Definition tenant (gid : string) : prog GM GraphInfo := fun s =>
  (s, deref (gm_tenants s !! gid)).
Definition put_tenant (gid : string) (gi : GraphInfo) : prog GM unit :=
  modify (fun s => set_tenants (<[gid := gi]> (gm_tenants s)) s).
(** A call on a compute controller that no graph has yet. *)
Definition with_cc {A} (cc : CC) (m : prog (CC * NODE) A) : prog GM (CC * A) := fun s =>
  let '((cc, n), o) := m (cc, gm_node s) in
  (set_node n s, a ← o; Ret (cc, a)).
(** On that of a deployed graph. *)
Definition on_cc {A} (gid : string) (m : prog (CC * NODE) A) : prog GM A :=
  gi ← tenant gid;
  r ← (fun s => let '((cc, n), o) := m (gi_cc gi, gm_node s) in (set_node n s, Ret (cc, o)));
  let '(cc, o) := r in
  _ ← put_tenant gid {| gi_graph := gi_graph gi; gi_lsi := gi_lsi gi; gi_ctl := gi_ctl gi; gi_cc := cc |};
  of_out o.

(** A call on the controller of LSI-0. *)
Definition lsi0_ctl (e : event) : prog GM unit := fun s =>
  match step garbage (gm_ctl0 s) e with
  | Ok c => (set_ctl0 c (gm_low0 s) s, Ret tt)
  | Err f => (s, Halt f)
  end.
Definition tenant_ctl (gid : string) (e : event) : prog GM unit :=
  gi ← tenant gid;
  c ← of_out (of_res (step garbage (gi_ctl gi) e));
  put_tenant gid {| gi_graph := gi_graph gi; gi_lsi := gi_lsi gi; gi_ctl := c; gi_cc := gi_cc gi |}.

(** The TCP port of the next controller, under the mutex. *)
Definition next_controller_port : prog GM string := fun s =>
  (set_counters (u32 (gm_next_port s + 1)) (gm_next_vlink s) (gm_sw s) s, Ret (show (gm_next_port s))).
(** A controller, not yet connected. *)
Definition new_controller : prog GM system :=
  port ← next_controller_port;
  mret {| sys_ctl := Controller_new [] port; sys_table := [] |}.

(** ** Checks *)

Fixpoint retrieve_all (nfs : list VNFs) : prog (CC * NODE) bool :=
  match nfs with
  | [] => mret true
  | nf :: nfs =>
      known ← gets (fun s => cc_getNFSelectedImplementation (v_id nf) (fst s));
      match known with
      | Some _ => retrieve_all nfs
      | None =>
          r ← cc_retrieveDescription (v_id nf) (v_name nf);
          match r with
          | NFManager_OK => retrieve_all nfs
          | NFManager_NO_NF => mret false
          | NFManager_SERVER_ERROR => throw GraphManagerException
          end
      end
  end.
Definition checkGraphValidity (physical : gmap string Z) (g : Graph) : prog (CC * NODE) bool :=
  if forallb (fun e => has_key physical (ei_interface e)) (g_interface g)
  then retrieve_all (g_vnfs g)
  else mret false.

(** The types of the ports of the functions; [None] when the graph names a port
    the selected implementation does not have ([newGraph] returns false). *)
Fixpoint nfs_types (nfs : list VNFs) (cc : CC) (t : gmap string nf_t) (p : gmap string (gmap Z PortType))
    : out (option (gmap string nf_t * gmap string (gmap Z PortType))) :=
  match nfs with
  | [] => Ret (Some (t, p))
  | nf :: nfs =>
      ports ← of_res (getPortsId nf);
      nt ← cc_getNFType (v_id nf) cc;
      types ← deref (cc_getNFSelectedImplementation (v_id nf) cc);
      if (size types <? length ports)%nat then Ret None
      else if forallb (fun i => bool_decide (is_Some (types !! i))) ports
           then nfs_types nfs cc (<[v_id nf := nt]> t) (<[v_id nf := types]> p)
           else Ret None
  end.

(** ** The tenant LSI *)

Definition bool_text (b : bool) : string := if b then "true" else "false".
Definition gre_description (eps : list EndPointGre) : gmap string (list string) :=
  foldl (fun m e => <[eg_id e := [eg_gre_key e; eg_local_ip e; eg_remote_ip e; un_interface;
                                  bool_text (eg_is_safe e)]]> m) ∅ eps.

(** What the switch answered is recorded in the LSI. *)
Definition register_lsi (clo : CreateLsiOut) (l : LSI) : out LSI :=
  let l := set_l_dpid (clo_dpid clo) l in
  if (1 <? size (clo_physical clo))%nat then Throw GraphManagerException
  else
    l ← of_res (res_fold (fun l '(nf, ports) => setNfSwitchPortsID nf ports l) l (map_list (clo_nfs_ports clo)));
    l ← of_res (res_fold (fun l '(ep, id) => setEndpointPortID ep id l) l (map_list (clo_endpoints clo)));
    let l := foldl (fun l '(nf, names) => setNetworkFunctionsPortsNameOnSwitch nf names l) l
               (map_list (clo_nfs_names clo)) in
    of_res (set_vlink_ids (clo_vlinks clo) l).

Definition create_lsi (types : gmap string nf_t) (l : LSI) : prog GM LSI :=
  let gre := gre_description (l_gre l) in
  try_catch SwitchManagerException
    (_ ← prog_assert (size gre =? length (l_gre l))%nat;
     clo ← on_sw (createLsi {| cli_controller_port := l_port l; cli_physical := getPhysicalPortsName l;
                               cli_nf_types := types; cli_nfs_ports := getNetworkFunctionsPortsInfo l;
                               cli_gre := gre; cli_vlinks := getVirtualLinksRemoteLSI l |});
     of_out (register_lsi clo l))
    (_ ← on_sw (destroyLsi (l_dpid l));
     throw GraphManagerException).

(** Step 3 of [newGraph]: first the virtual links the graph requires, which take
    the next identifiers, then (after the ports of the functions were checked)
    the LSI. *)
Definition new_vlinks (g : Graph) : prog GM (list VLink) :=
  dpid0 ← gets gm_dpid0;
  next ← gets gm_next_vlink;
  let '(vls, next) := make_vlinks (Z.to_nat (numberOfVLrequired (identifyVirtualLinksRequired (g_rules g)))) dpid0 next in
  _ ← modify (fun st => set_counters (gm_next_port st) next (gm_sw st) st);
  mret vls.
Definition new_tenant_lsi (g : Graph) (port : string) (vls : list VLink) (types : gmap string nf_t)
    (ports : gmap string (gmap Z PortType)) : prog GM LSI :=
  let s := identifyVirtualLinksRequired (g_rules g) in
  l ← of_out (of_res (LSI_new no_dpid "127.0.0.1" port ∅ (g_vnfs g) (g_gre g) vls ports));
  l ← create_lsi types l;
  of_out (of_res (associate_vlinks s l)).

(** Step 4: the functions are started, one thread each; all are waited for. *)
Fixpoint start_all (nfs : list VNFs) (l : LSI) (ok : bool) : prog (CC * NODE) bool :=
  match nfs with
  | [] => mret ok
  | nf :: nfs =>
      conf ← of_out (of_res (getPortsID_configuration nf));
      b ← cc_startNF (v_id nf) (getNetworkFunctionsPortsNameOnSwitchMap (v_id nf) l) conf;
      start_all nfs l (ok && b)
  end.
Definition stop_all (nfs : list VNFs) : prog (CC * NODE) unit :=
  for_each (fun nf => _ ← cc_stopNF (v_id nf); mret tt) nfs.
(** The functions are stopped and the LSI destroyed before the error is reported. *)
Definition undo_tenant {A} (g : Graph) (l : LSI) (cc : CC) : prog GM A :=
  _ ← with_cc cc (stop_all (g_vnfs g));
  _ ← on_sw (destroyLsi (l_dpid l));
  throw GraphManagerException.

(** ** Internal endpoints

    The LSI of an internal endpoint is shared by the graphs that use it. *)
Definition is_created (group : string) (s : GM) : bool := default false (gm_created s !! group).
Definition times_used (group : string) (s : GM) : Z := default 0 (gm_times s !! group).

Definition handleControllerForInternalEndpoint (g : Graph) : prog GM unit :=
  for_each (fun iep =>
    let group := en_group iep in
    created ← gets (is_created group);
    if created : bool then mret tt
    else
      ctl ← new_controller;
      modify (fun s => set_internal (<[group := {| ii_lsi := None; ii_ctl := ctl |}]> (gm_internals s))
                         (gm_created s) (gm_times s) (gm_conns s) s)) (g_internal g).

Definition HIGH_PRIORITY : Z := 65535.
Definition internal_rule_id (group gid : string) : string :=
  "INTERNAL-GRAPH" +:+ "-" +:+ group +:+ "_" +:+ gid.
(** What enters by the virtual link is forwarded as a learning switch does. *)
Definition internal_rule (group gid : string) (v : VLink) : LRule :=
  {| lr_match := lm_setInputPort (vl_local_id v) (LMatch_new false);
     lr_action := LAction_flags false true;
     lr_id := internal_rule_id group gid; lr_priority := HIGH_PRIORITY |}.

(** The port of LSI-0 that leads to the endpoint. *)
Definition connect (group gid : string) (port : Z) (c : conns) : conns :=
  <[group := <[gid := port]> (default ∅ (c !! group))]> c.

(** No port but the virtual link is expected on the new LSI. *)
Definition register_internal (clo : CreateLsiOut) (l : LSI) : out LSI :=
  let l := set_l_dpid (clo_dpid clo) l in
  if (0 <? size (clo_physical clo))%nat then Throw GraphManagerException
  else if (0 <? size (clo_nfs_ports clo))%nat then Throw GraphManagerException
  else if (0 <? size (clo_endpoints clo))%nat then Throw GraphManagerException
  else of_res (set_vlink_ids (clo_vlinks clo) l).

Definition internal_ctl (group : string) (l : LSI) (ctl : system) (rule : LRule) : prog GM unit :=
  ctl ← of_out (of_res (step garbage ctl (EInstall [rule])));
  modify (fun s => set_internal (<[group := {| ii_lsi := Some l; ii_ctl := ctl |}]> (gm_internals s))
                     (gm_created s) (gm_times s) (gm_conns s) s).

(** The first graph that uses the endpoint. *)
Definition create_internal (group gid : string) (info : InternalInfo) : prog GM unit :=
  dpid0 ← gets gm_dpid0;
  next ← gets gm_next_vlink;
  let '(v, next) := VLink_new next dpid0 in
  _ ← modify (fun s => set_counters (gm_next_port s) next (gm_sw s) s);
  l ← of_out (of_res (LSI_new no_dpid "127.0.0.1" (c_port (sys_ctl (ii_ctl info))) ∅ [] [] [v] ∅));
  l ← try_catch SwitchManagerException
    (clo ← on_sw (createLsi {| cli_controller_port := l_port l; cli_physical := getPhysicalPortsName l;
                               cli_nf_types := ∅; cli_nfs_ports := getNetworkFunctionsPortsInfo l;
                               cli_gre := ∅; cli_vlinks := getVirtualLinksRemoteLSI l |});
     l ← of_out (register_internal clo l);
     _ ← modify (fun s => set_internal (gm_internals s) (<[group := true]> (gm_created s))
                            (<[group := 1]> (gm_times s)) (gm_conns s) s);
     mret l)
    (_ ← on_sw (destroyLsi (l_dpid l));
     throw GraphManagerException);
  _ ← prog_assert (length (l_vlinks l) =? 1)%nat;
  v ← of_out (deref (l_vlinks l !! 0%nat));
  _ ← modify (fun s => set_internal (gm_internals s) (gm_created s) (gm_times s)
                         (connect group gid (vl_remote_id v) (gm_conns s)) s);
  internal_ctl group (setEndPointsVLinks {[group := vl_id v]} l) (ii_ctl info) (internal_rule group gid v).

(** A virtual link of the LSI of an internal endpoint to LSI-0. *)
Definition new_internal_link (dpid0 : Z) : prog (vstate SW) VLink :=
  newLink ← new_vlink dpid0;
  pos ← on_lsi (addVlink newLink);
  dpid ← gets (fun s => l_dpid (vs_lsi s));
  '(idA, idB) ← on_switch (addVirtualLink dpid dpid0);
  _ ← on_lsi_res (setVLinkIDs pos idA idB);
  l ← gets vs_lsi;
  of_out (of_res (getVirtualLink (vl_id newLink) l)).
(** A further graph: a virtual link is added.  What is done to the LSI through
    its pointer stays even when the switch fails. *)
Definition extend_internal (group gid : string) (info : InternalInfo) : prog GM unit :=
  l ← of_out (deref (ii_lsi info));
  dpid0 ← gets (fun s => l_dpid (gm_lsi0 s));
  r ← (fun s => let '(s, r) := on_vstate l (new_internal_link dpid0) s in (s, Ret r));
  let '(l, o) := r in
  _ ← modify (fun s => set_internal (<[group := {| ii_lsi := Some l; ii_ctl := ii_ctl info |}]> (gm_internals s))
                         (gm_created s) (gm_times s) (gm_conns s) s);
  v ← of_out o;
  _ ← modify (fun s => set_internal (gm_internals s) (gm_created s)
                         (<[group := u32 (times_used group s + 1)]> (gm_times s))
                         (connect group gid (vl_remote_id v) (gm_conns s)) s);
  internal_ctl group l (ii_ctl info) (internal_rule group gid v).

Definition handleGraphForInternalEndpoint (g : Graph) : prog GM unit :=
  for_each (fun iep =>
    let group := en_group iep in
    info ← (fun s => (s, deref (gm_internals s !! group)));
    created ← gets (is_created group);
    if created : bool then extend_internal group (g_id g) info
    else create_internal group (g_id g) info) (g_internal g).

(** ** A new graph *)

(** Step 7. *)
Definition install_graph (g : Graph) (l : LSI) (ctl : system) (cc : CC) : prog GM unit :=
  c ← gets gm_conns;
  lsi0 ← gets gm_lsi0;
  graphLSI0 ← of_out (lowerGraphToLSI0 (g_id g) l lsi0 c (g_rules g));
  _ ← modify (fun s => set_ctl0 (gm_ctl0 s) (lg_addRules (gm_low0 s) graphLSI0) s);
  graphTenant ← of_out (lowerGraphToTenantLSI stale l (g_rules g));
  ctl ← of_out (of_res (step garbage ctl (EInstall graphTenant)));
  _ ← put_tenant (g_id g) {| gi_graph := g; gi_lsi := l; gi_ctl := ctl; gi_cc := cc |};
  lsi0_ctl (EInstall graphLSI0).

Definition newGraph (g : Graph) : prog GM bool :=
  tenants ← gets gm_tenants;
  _ ← prog_assert (negb (has_key tenants (g_id g)));
  physical ← gets (fun s => l_physical (gm_lsi0 s));
  '(cc, valid) ← with_cc cc_new (checkGraphValidity physical g);
  if negb valid then mret false
  else
    ctl ← new_controller;
    '(cc, selected) ← with_cc cc cc_selectImplementation;
    if negb selected then throw GraphManagerException
    else
      vls ← new_vlinks g;
      types ← of_out (nfs_types (g_vnfs g) cc ∅ ∅);
      match types with
      | None => mret false
      | Some (types, ports) =>
          l ← new_tenant_lsi g (c_port (sys_ctl ctl)) vls types ports;
          '(cc, started) ← with_cc (cc_setLsiID (l_dpid l) cc) (start_all (g_vnfs g) l true);
          if negb started then undo_tenant g l cc
          else
            _ ← handleControllerForInternalEndpoint g;
            _ ← try_catch GraphManagerException (handleGraphForInternalEndpoint g) (undo_tenant g l cc);
            _ ← try_catch SwitchManagerException (install_graph g l ctl cc)
                  (_ ← with_cc cc (stop_all (g_vnfs g));
                   _ ← on_sw (destroyLsi (l_dpid l));
                   _ ← modify (fun s => set_tenants (delete (g_id g) (gm_tenants s)) s);
                   throw GraphManagerException);
            mret true
      end.

Definition graphExists (gid : string) (s : GM) : bool := has_key (gm_tenants s) gid.
Definition getGraphsNames (s : GM) : list string := fst <$> map_list (gm_tenants s).

(** ** Deletion *)

(** The last graph of an internal endpoint takes its LSI with it. *)
Definition destroy_internal (group : string) (l : LSI) : prog GM unit :=
  _ ← try_catch SwitchManagerException (on_sw (destroyLsi (l_dpid l))) (throw GraphManagerException);
  c ← gets gm_conns;
  _ ← of_out (deref (c !! group));
  modify (fun s => set_internal (delete group (gm_internals s)) (<[group := false]> (gm_created s))
                     (gm_times s) (delete group (gm_conns s)) s).
(** Otherwise only the rule and the virtual link of this graph go; the rule is
    gone also when the switch then fails. *)
Definition shrink_internal (group gid : string) (info : InternalInfo) (l : LSI) : prog GM unit :=
  ctl ← of_out (of_res (step garbage (ii_ctl info) (ERemoveID (internal_rule_id group gid))));
  _ ← modify (fun s => set_internal (<[group := {| ii_lsi := Some l; ii_ctl := ctl |}]> (gm_internals s))
                         (gm_created s) (gm_times s) (gm_conns s) s);
  c ← gets gm_conns;
  port ← of_out (match c !! group ≫= fun m => m !! gid with Some p => Ret p | None => Halt Assert end);
  match find_first (fun v => vl_remote_id v =? port) (l_vlinks l) with
  | None => of_out (Halt Assert)
  | Some vl =>
      _ ← on_sw (destroyVirtualLink (l_dpid l) (vl_local_id vl) (vl_remote_dpid vl) (vl_remote_id vl));
      l ← of_out (of_res (removeVlink (vl_id vl) l));
      modify (fun s => set_internal (<[group := {| ii_lsi := Some l; ii_ctl := ctl |}]> (gm_internals s))
                         (gm_created s) (gm_times s) (<[group := delete gid (default ∅ (gm_conns s !! group))]> (gm_conns s)) s)
  end.
Definition release_internal (gid : string) (iep : EndPointInternal) : prog GM unit :=
  let group := en_group iep in
  info ← (fun s => (s, deref (gm_internals s !! group)));
  l ← of_out (deref (ii_lsi info));
  times ← gets (times_used group);
  _ ← prog_assert (Z.of_nat (length (l_vlinks l)) =? times);
  _ ← (if times =? 1 then destroy_internal group l else shrink_internal group gid info l);
  modify (fun s => set_internal (gm_internals s) (gm_created s)
                     (<[group := u32 (times_used group s - 1)]> (gm_times s)) (gm_conns s) s).

(** [deleteGraph]; an error of the switch while a virtual link of an internal
    endpoint is destroyed is not caught. *)
Definition deleteGraph (gid : string) : prog GM bool :=
  known ← gets (graphExists gid);
  if negb known then mret false
  else
    gi ← tenant gid;
    let g := gi_graph gi in
    c ← gets gm_conns;
    lsi0 ← gets gm_lsi0;
    graphLSI0 ← of_out (lowerGraphToLSI0 (g_id g) (gi_lsi gi) lsi0 c (g_rules g));
    low0 ← gets gm_low0;
    low0 ← of_out (of_res (lg_removeRules garbage low0 graphLSI0));
    _ ← modify (fun s => set_ctl0 (gm_ctl0 s) low0 s);
    _ ← lsi0_ctl (ERemove graphLSI0);
    _ ← on_cc gid cc_stopAll;
    _ ← try_catch SwitchManagerException (on_sw (destroyLsi (l_dpid (gi_lsi gi)))) (throw GraphManagerException);
    _ ← tenant (g_id g);
    _ ← modify (fun s => set_tenants (delete (g_id g) (gm_tenants s)) s);
    _ ← for_each (release_internal (g_id g)) (g_internal g);
    mret true.

(** ** Update *)

(** Ports of a function on the switch that were not there before. *)
Definition new_ports (before after : list nf_port_info) : list nf_port_info :=
  filter (fun p => existsb (fun q => bool_decide (pi_name q = pi_name p)) before = false) after.

(** Step 3-b: the ports of the new functions (or the new ports of a function). *)
Definition add_nf_on_switch (gid : string) (nf : VNFs) : prog GM unit :=
  try_catch SwitchManagerException
    (ids ← of_out (of_res (getPortsId nf));
     gi ← tenant gid;
     let before := getNetworkFunctionsPortsInfo (gi_lsi gi) !! v_id nf in
     types ← of_out (deref (cc_getNFSelectedImplementation (v_id nf) (gi_cc gi)));
     let l := fst (addNF (v_id nf) ids types (gi_lsi gi)) in
     _ ← put_tenant gid {| gi_graph := gi_graph gi; gi_lsi := l; gi_ctl := gi_ctl gi; gi_cc := gi_cc gi |};
     after ← of_out (match getNetworkFunctionsPortsInfo l !! v_id nf with
                     | Some p => Ret p | None => Halt Assert end);
     ports ← (if (length after =? length (v_ports nf))%nat then mret after
              else before ← of_out (deref before); mret (new_ports before after));
     t ← of_out (cc_getNFType (v_id nf) (gi_cc gi));
     '(nf_id, ids) ← on_sw (addNFPorts (l_dpid l) (v_id nf) t ports);
     _ ← on_tenant gid (on_lsi_res (setNfSwitchPortsID nf_id ids));
     let names := foldl (fun m p => <[show (l_dpid l) +:+ "_" +:+ pi_name p := pi_id p]> m)
                    (∅ : gmap string Z) ports in
     on_tenant gid (on_lsi (fun l => (setNetworkFunctionsPortsNameOnSwitch nf_id names l, tt))))
    (_ ← on_tenant gid (on_lsi (fun l => (removeNF (v_id nf) l, tt)));
     throw GraphManagerException).

(** Step 3-c. *)
Definition add_gre_on_switch (gid : string) (e : EndPointGre) : prog GM unit :=
  try_catch SwitchManagerException
    (_ ← on_tenant gid (on_lsi (fun l => (Lsi.addEndpoint e l, tt)));
     gi ← tenant gid;
     '(name, id) ← on_sw (addEndpoint (l_dpid (gi_lsi gi)) (eg_id e)
        [eg_local_ip e; eg_gre_key e; eg_remote_ip e; un_interface; bool_text (eg_is_safe e)]);
     on_tenant gid (on_lsi_res (setEndpointPortID name id)))
    (_ ← on_tenant gid (on_lsi_res (removeEndpoint (eg_id e)));
     throw GraphManagerException).

(** Step 4: a function whose ports on the switch are not as many as those of the
    difference is updated, the others are started. *)
Fixpoint start_or_update (gid : string) (nfs : list VNFs) (ok : bool) : prog GM bool :=
  match nfs with
  | [] => mret ok
  | nf :: nfs =>
      gi ← tenant gid;
      let names := getNetworkFunctionsPortsNameOnSwitchMap (v_id nf) (gi_lsi gi) in
      conf ← of_out (of_res (getPortsID_configuration nf));
      ids ← of_out (of_res (getPortsId nf));
      if (size names =? length ids)%nat
      then b ← on_cc gid (cc_startNF (v_id nf) names conf); start_or_update gid nfs (ok && b)
      else b ← on_cc gid (cc_updateNF (v_id nf) names conf ids); _ ← prog_assert b; start_or_update gid nfs ok
  end.

(** [updateGraph_add] gives back the difference. *)
Definition updateGraph_add (gid : string) (newGraph : Graph) : prog GM Graph :=
  known ← gets (graphExists gid);
  _ ← prog_assert known;
  gi ← tenant gid;
  let g := gi_graph gi in
  let diff := calculateDiff g newGraph gid in
  physical ← gets (fun s => l_physical (gm_lsi0 s));
  valid ← on_cc gid (checkGraphValidity physical diff);
  if negb valid then throw GraphManagerException
  else
    gi ← tenant gid;
    _ ← put_tenant gid {| gi_graph := fst (addGraphToGraph g diff); gi_lsi := gi_lsi gi;
                          gi_ctl := gi_ctl gi; gi_cc := gi_cc gi |};
    selected ← on_cc gid cc_selectImplementation;
    if negb selected then throw GraphManagerException
    else
      dpid0 ← gets gm_dpid0;
      _ ← on_tenant gid (updateGraph_add_vlinks dpid0 (g_rules diff));
      _ ← for_each (add_nf_on_switch gid) (g_vnfs diff);
      _ ← for_each (add_gre_on_switch gid) (g_gre diff);
      _ ← prog_assert (bool_decide (g_internal diff = []));
      gi ← tenant gid;
      _ ← on_cc gid (modify (fun s => (cc_setLsiID (l_dpid (gi_lsi gi)) (fst s), snd s)));
      started ← start_or_update gid (g_vnfs diff) true;
      if negb started then
        _ ← on_cc gid (stop_all (g_vnfs diff));
        _ ← on_sw (destroyLsi (l_dpid (gi_lsi gi)));
        throw GraphManagerException
      else mret diff.

Definition remove_gre_on_switch (gid : string) (e : EndPointGre) : prog GM unit :=
  try_catch SwitchManagerException
    (gi ← tenant gid;
     _ ← on_sw (destroyEndpoint (l_dpid (gi_lsi gi)) (eg_id e));
     on_tenant gid (on_lsi_res (removeEndpoint (eg_id e))))
    (throw GraphManagerException).
Definition remove_nf_on_switch (gid : string) (nf : VNFs) : prog GM unit :=
  _ ← on_cc gid (cc_stopNF (v_id nf));
  gi ← tenant gid;
  let names := list_to_set (snd <$> map_to_list (getNetworkFunctionsPortsNameOnSwitchMap (v_id nf) (gi_lsi gi))) in
  try_catch SwitchManagerException
    (_ ← on_sw (destroyNFPorts (l_dpid (gi_lsi gi)) (v_id nf) names);
     on_tenant gid (on_lsi (fun l => (removeNF (v_id nf) l, tt))))
    (throw GraphManagerException).

Definition remove_rule_on_switch (gid : string) (r : Rule) : prog GM unit :=
  gi ← tenant gid;
  let id0 := lsi0_rule_id (g_id (gi_graph gi)) (r_id r) in
  _ ← lsi0_ctl (ERemoveID id0);
  _ ← modify (fun s => set_ctl0 (gm_ctl0 s) (fst (lg_removeRuleFromID garbage (gm_low0 s) id0)) s);
  tenant_ctl gid (ERemoveID (r_id r)).

Definition updateGraph_remove (gid : string) (newGraph : Graph) : prog GM bool :=
  known ← gets (graphExists gid);
  _ ← prog_assert known;
  gi ← tenant gid;
  let diff := calculateDiff newGraph (gi_graph gi) gid in
  '(g, infos) ← of_out (of_res (removeGraphFromGraph (gi_graph gi) diff));
  _ ← put_tenant gid {| gi_graph := g; gi_lsi := gi_lsi gi; gi_ctl := gi_ctl gi; gi_cc := gi_cc gi |};
  _ ← for_each (remove_rule_on_switch gid) (g_rules diff);
  _ ← prog_assert (length infos =? length (g_rules diff))%nat;
  _ ← on_tenant gid (updateGraph_remove_vlinks (g_rules g) infos);
  _ ← for_each (remove_gre_on_switch gid) (g_gre diff);
  _ ← for_each (remove_nf_on_switch gid) (g_vnfs diff);
  mret true.

Definition updateGraph_add_rules (gid : string) (diff : Graph) : prog GM bool :=
  gi ← tenant gid;
  c ← gets gm_conns;
  lsi0 ← gets gm_lsi0;
  graphLSI0 ← of_out (lowerGraphToLSI0 (g_id diff) (gi_lsi gi) lsi0 c (g_rules diff));
  _ ← modify (fun s => set_ctl0 (gm_ctl0 s) (lg_addRules (gm_low0 s) graphLSI0) s);
  graphTenant ← of_out (lowerGraphToTenantLSI stale (gi_lsi gi) (g_rules diff));
  _ ← lsi0_ctl (EInstall graphLSI0);
  _ ← tenant_ctl gid (EInstall graphTenant);
  mret true.

(** Only an exception of the first part is caught. *)
Definition updateGraph (gid : string) (newGraph : Graph) : prog GM bool :=
  diff ← try_catch GraphManagerException (d ← updateGraph_add gid newGraph; mret (Some d)) (mret None);
  match diff with
  | None => mret false
  | Some diff =>
      ok ← updateGraph_remove gid newGraph;
      if negb ok then mret false else updateGraph_add_rules gid diff
  end.
End manager.
