(* ===== verification/SwitchSample.v ===== *)
(** * A virtual switch and a host to run the manager with

    A small virtual switch and a host on which the compute controller runs; the
    switch satisfies what the proofs ask of one. *)

From Stdlib Require Import ZArith Lia String.
From stdpp Require Import gmap strings numbers base list propset.
From S2P Require Import Prelude Cpp Json FlowMatch HighLevel HLGraph LowLevel Lsi Vlinks VlinksOk Controller NFManagers ComputeController GraphManager.

(** The switch numbers LSIs and ports from one counter, and keeps the links. *)
Record toy_switch := { ts_next : Z; ts_links : list (Z * Z * (Z * Z)) }.
#[export] Instance toy_link_switch : LinkSwitch toy_switch := {
  addVirtualLink a b s :=
    if forallb (fun '(_, ia, (_, ib)) => (ia <? ts_next s) && (ib <? ts_next s)) (ts_links s)
    then ({| ts_next := ts_next s + 1; ts_links := (a, ts_next s, (b, ts_next s)) :: ts_links s |},
          Ret (ts_next s, ts_next s))
    else (s, Throw SwitchManagerException);
  destroyVirtualLink a ia b ib s :=
    ({| ts_next := ts_next s; ts_links := filter (fun x => x <> (a, ia, (b, ib))) (ts_links s) |}, Ret tt)
}.
#[export] Program Instance toy_link_laws : LinkSwitchLaws toy_switch :=
  { sw_inv _ := True; sw_links s := {[ x | x ∈ ts_links s ]} }.
Next Obligation.
  intros a b s _. cbn. destruct (forallb _ (ts_links s)) eqn:E; [|done]. rewrite forallb_forall in E. split; [done|].
  split; [|split].
  - intros x. rewrite !elem_of_PropSet. cbn. by rewrite elem_of_cons.
  - intros [b' ib]. rewrite elem_of_PropSet. intros Hin%list_elem_of_In. specialize (E _ Hin). cbn in E. lia.
  - intros [a' ia]. rewrite elem_of_PropSet. intros Hin%list_elem_of_In. specialize (E _ Hin). cbn in E. lia.
Qed.
Next Obligation.
  intros a ia b ib s _ _. cbn. split; [done|]. intros x. rewrite !elem_of_PropSet. cbn. rewrite list_elem_of_filter. tauto.
Qed.

(** Names numbered from [n]. *)
Definition number {A} (f : A -> string) (n : Z) (l : list A) : gmap string Z :=
  list_to_map (imap (fun i x => (f x, n + Z.of_nat i)) l).
Definition toy_dpid (s : toy_switch) : Z := ts_next s.
Definition toy_answer (cli : CreateLsiIn) (n : Z) : CreateLsiOut :=
  {| clo_dpid := n; clo_physical := ∅;
     clo_nfs_ports := number pi_name (n + 1) <$> cli_nfs_ports cli;
     clo_endpoints := number fst (n + 100) (map_list (cli_gre cli));
     clo_nfs_names := ∅;
     clo_vlinks := imap (fun i _ => (n + 200 + Z.of_nat i, n + 200 + Z.of_nat i)) (cli_vlinks cli) |}.
#[export] Instance toy_switch_ops : SwitchOps toy_switch := {
  sw_link := toy_link_switch;
  createLsi cli s :=
    let clo := toy_answer cli (ts_next s) in
    ({| ts_next := ts_next s + 1000;
        ts_links := imap (fun i d => (ts_next s, ts_next s + 200 + Z.of_nat i, (d, ts_next s + 200 + Z.of_nat i)))
                      (cli_vlinks cli) ++ ts_links s |}, Ret clo);
  destroyLsi d s :=
    ({| ts_next := ts_next s; ts_links := filter (fun '(a, _, _) => a <> d) (ts_links s) |}, Ret tt);
  addNFPorts d nf t ports s :=
    ({| ts_next := ts_next s + 1000; ts_links := ts_links s |}, Ret (nf, number pi_name (ts_next s) ports));
  destroyNFPorts d nf ports s := (s, Ret tt);
  addEndpoint d ep ps s := ({| ts_next := ts_next s + 1; ts_links := ts_links s |}, Ret (ep, ts_next s));
  destroyEndpoint d ep s := (s, Ret tt)
}.

(** ** A host

    Docker runs and every script succeeds; it counts the scripts.  The name
    resolver knows every function, with one Docker implementation of eight
    ports. *)
Definition resolver_head : string := "HTTP/1.1 200 OK" +:+ crlf2.
#[export] Instance toy_host : Host Z := {
  host_system _ h := (h + 1, 256);
  host_capabilities h := (h, Some ∅);
  kvm_isSupported _ h := (h, false);
  kvm_startNF _ _ h := (h, false);
  kvm_updateNF _ _ h := (h, false);
  kvm_stopNF _ _ h := (h, false);
  host_resolve nf h := (h, Some (resolver_head +:+ nf))
}.
Definition toy_read (text : string) : option json :=
  Some (JObj [("implementations", JArr [JObj [("type", JStr "docker"); ("uri", JStr "repo/image")]]);
              ("name", JStr text); ("nports", JInt 8); ("summary", JStr "")]).
#[export] Instance toy_compute : ComputeOps CC (node Z) := compute_ops (fun _ => true) "/opt/" toy_read 0.

(** The manager after its constructor, with two physical ports. *)
Definition sample_gm : GM (SW := toy_switch) (CC := CC) (NODE := node Z) :=
  {| gm_tenants := ∅; gm_internals := ∅; gm_created := ∅; gm_times := ∅; gm_conns := ∅;
     gm_lsi0 := {| l_address := "127.0.0.1"; l_port := "6653"; l_dpid := 1;
                   l_physical := <["eth0" := 1]> {["eth1" := 2]}; l_gre := []; l_ep_ids := ∅; l_nfs := ∅;
                   l_vlinks := []; l_nfs_vlinks := ∅; l_ports_vlinks := ∅; l_eps_vlinks := ∅; l_gre_vlinks := ∅ |};
     gm_ctl0 := {| sys_ctl := Controller_new [] "6653"; sys_table := [] |}; gm_low0 := [];
     gm_dpid0 := 1; gm_next_port := 6654; gm_next_vlink := 0;
     gm_sw := {| ts_next := 10; ts_links := [] |};
     gm_node := {| n_host := 0; n_cores := ∅; n_nextCore := 0; n_capabilities := None |} |}.
