(* ===== verification/Deploy.v ===== *)
(** * Deploying a graph

    The pieces together: the virtual links assigned to a graph make its
    lowering succeed, and the rules it yields forward as the graph says. *)

From Stdlib Require Import ZArith Lia String.
From stdpp Require Import gmap strings numbers base list propset.
From S2P Require Import Prelude Cpp Keyed FlowMatch HighLevel HLGraph GraphSamples HLUpdate LowLevel Lsi Vlinks VlinksOk Translator Forwarding Controller GraphManager SwitchSample.

(** The entry that records the link of a point. *)
Definition key_of (pt : point) : vkey :=
  match pt with
  | AtPort p => VPort p
  | AtInternal g => VInt g
  | AtNF nf port => VNf (nf_port_of nf port)
  | AtGre e => VGre e
  end.

Lemma serves_vlookup tenant s id pt :
  serves tenant s id pt -> vlookup tenant (key_of pt) = Some id
    /\ upward (key_of pt) = match s with Lsi0 => true | Tenant => false end.
Proof. by destruct s, pt. Qed.
Lemma key_of_inj pt pt' : key_of pt = key_of pt' -> pt = pt'.
Proof.
  destruct pt, pt'; cbn; intros E; try discriminate E; injection E as E; try congruence.
  by apply nf_port_of_inj in E as [-> ->].
Qed.

Lemma vl_ok_distinct need tenant : vl_ok need tenant -> links_distinct tenant.
Proof.
  intros Hok s id pt pt' [H1 U1]%serves_vlookup [H2 U2]%serves_vlookup.
  apply key_of_inj, (ok_own _ _ Hok _ _ id); congruence.
Qed.

(** A rule that crosses between the switches has its link. *)
Lemma crossing_key r pt :
  in_point (r_match r) = Some pt -> side_of (out_point (r_action r)) = other (side_of pt) ->
  rule_key r = Some (key_of (out_point (r_action r))).
Proof.
  unfold in_point, out_point, rule_key, matchOnPort, matchOnNF, matchOnEndPointInternal, matchOnEndPointGre.
  intros Hpt Hs. destruct (hm_type (r_match r)).
  - done.
  - apply fmap_Some in Hpt as (? & _ & ->). unfold a_toString. by destruct (a_output (r_action r)).
  - apply fmap_Some in Hpt as (? & _ & ->). unfold a_toString. by destruct (a_output (r_action r)).
  - apply fmap_Some in Hpt as (? & _ & ->). unfold a_toString. by destruct (a_output (r_action r)).
  - destruct (getInputEndpoint (r_match r)); [|done]. injection Hpt as <-.
    unfold a_toString. by destruct (a_output (r_action r)).
Qed.

Section total.
Context (stale : string -> string) (gid : string) (tenant lsi0 : LSI) (c : conns) (rules : list Rule).
Hypothesis Hok : vl_ok (needed rules) tenant.
Context (r : Rule) (Hr : r ∈ rules) (Hs : supported stale gid tenant lsi0 c r).

Lemma vlink_of_total f k m :
  (forall id, m !! k = Some id -> id ∈ keys vl_id (l_vlinks tenant)) -> is_Some (m !! k) ->
  exists v, vlink_of f m k tenant = Ret v.
Proof using.
  intros Hin [id Hid]. unfold vlink_of. rewrite Hid. specialize (Hin id Hid).
  apply list_elem_of_fmap in Hin as (v & -> & Hv). unfold getVirtualLink.
  destruct (find_first_is_Some (fun w => vl_id w =? vl_id v) (l_vlinks tenant) v Hv (Z.eqb_refl _)) as [w ->].
  by exists w.
Qed.

(** The links of the points this rule crosses to. *)
Lemma crossing_link pt f :
  in_point (r_match r) = Some pt -> side_of (out_point (r_action r)) = other (side_of pt) ->
  match key_of (out_point (r_action r)) with
  | VNf x => exists v, vlink_of f (l_nfs_vlinks tenant) x tenant = Ret v
  | VPort x => exists v, vlink_of f (l_ports_vlinks tenant) x tenant = Ret v
  | VGre x => exists v, vlink_of f (l_gre_vlinks tenant) x tenant = Ret v
  | VInt x => exists v, vlink_of f (l_eps_vlinks tenant) x tenant = Ret v
  end.
Proof using Hok Hr.
  intros Hpt Hside. pose proof (crossing_key r pt Hpt Hside) as Hk.
  assert (Hn : needed rules (key_of (out_point (r_action r)))) by (by exists r).
  apply (ok_dom _ _ Hok) in Hn. pose proof (ok_link _ _ Hok (key_of (out_point (r_action r)))) as Hl.
  destruct (key_of (out_point (r_action r))); by apply vlink_of_total.
Qed.

Lemma common_match_total : exists m, common_match r = Ret m.
Proof using Hs.
  unfold common_match, lm_setAllCommonFields. pose proof (s_copy _ _ _ _ _ _ Hs) as Hc.
  cbn [LMatch_new lm_base]. rewrite setAllCommonFields_run.
  destruct (str_of (hm_base (r_match r)) ipv6_dst) eqn:E1; [|by eexists].
  destruct (str_of (hm_base (r_match r)) gre_key) eqn:E2; [by eexists|]. by destruct Hc as [?|[]].
Qed.

Lemma nf_known nf port :
  is_Some (point_no gid tenant lsi0 c (AtNF nf port)) -> is_Some (l_nfs tenant !! nf).
Proof using.
  intros [n Hn]. cbn in Hn. unfold getNetworkFunctionsPorts in Hn.
  destruct (l_nfs tenant !! nf); [eauto|]. cbn in Hn. by rewrite lookup_empty in Hn.
Qed.

(** Runs a lowering whose every lookup is known. *)
Ltac known := cbn [mbind out_bind res_bind of_res out_assert c_assert deref of_cstr];
  repeat (match goal with
  | H : ?x = Ret _ |- context [?x] => rewrite H
  | H : ?x = Ok _ |- context [?x] => rewrite H
  | H : ?x = Some _ |- context [?x] => rewrite H
  end; cbn [mbind out_bind res_bind of_res out_assert c_assert deref of_cstr]); try (by eexists).

(** Evaluates the tests on the type of the match and of the action. *)
Ltac eval_goal :=
  repeat match goal with
  | |- context [bool_decide (?a = ?b :> match_t)] =>
      first [rewrite (bool_decide_eq_true_2 (a = b)) by reflexivity
            |rewrite (bool_decide_eq_false_2 (a = b)) by discriminate]
  | |- context [bool_decide (?a = ?b :> action_t)] =>
      first [rewrite (bool_decide_eq_true_2 (a = b)) by reflexivity
            |rewrite (bool_decide_eq_false_2 (a = b)) by discriminate]
  end; cbn [andb orb negb].

Lemma lower_total :
  (exists o, lower_rule_lsi0 gid tenant lsi0 c r = Ret o) /\ (exists o, lower_rule_tenant stale tenant r = Ret o).
Proof using Hok Hr Hs.
  destruct common_match_total as [m Hm]. pose proof Hs as [_ _ (pt & Hpt & n & Hn) [n' Hn'] _ Hpair _ [i Hi] _ Hstale].
  pose proof (fun f => crossing_link pt f Hpt) as Hlink. unfold out_point in Hn', Hlink. unfold in_point in Hpt.
  unfold a_type in Hpair.
  unfold lower_rule_lsi0, lower_rule_tenant, matchOnPort, matchOnNF, matchOnEndPointInternal, matchOnEndPointGre, a_type.
  destruct (hm_type (r_match r)) eqn:Ety; [done|..].
  - apply fmap_Some in Hpt as (port & Hport & ->).
    assert (Hgp : getPhysicalPort (r_match r) = Ok port) by (unfold getPhysicalPort, matchOnPort; by rewrite Ety, Hport).
    destruct (a_output (r_action r)) as [p pe|nf pe p|e pe|g pe] eqn:Eo; try discriminate Hpair; try (specialize (fun f => Hlink f eq_refl) as Hlk; cbn [key_of] in Hlk); eval_goal;
      unfold lower_port_lsi0, lower_up_tenant; rewrite ?Eo; cbn [point_no] in Hn, Hn'.
    + split; [|by eexists]. unfold a_getInfo in *. rewrite Eo in *. injection Hi as <-. known.
    + destruct (Hlk Assert) as [v Hv]. destruct (Hlk Undef) as [w Hw].
      destruct (nf_known nf p ltac:(by eexists)) as [nd Hnd].
      unfold a_getInfo in *. rewrite Eo in *. injection Hi as <-. split; known.
    + destruct (Hlk Assert) as [v Hv]. destruct (Hlk Undef) as [w Hw]. split; known.
  - apply fmap_Some in Hpt as (nf0 & Hnf0 & ->).
    assert (Hgn : getNF (r_match r) = Ok nf0) by (unfold getNF, matchOnNF; by rewrite Ety, Hnf0).
    assert (Hgp : getPortOfNF (r_match r) = Ok (hm_nf_port (r_match r))) by (unfold getPortOfNF, matchOnNF; by rewrite Ety).
    destruct (nf_known nf0 (hm_nf_port (r_match r)) ltac:(by eexists)) as [nd Hnd].
    destruct (a_output (r_action r)) as [p pe|nf pe p|e pe|g pe] eqn:Eo; try (specialize (fun f => Hlink f eq_refl) as Hlk; cbn [key_of] in Hlk); eval_goal;
      unfold lower_nf_lsi0, lower_nf_tenant, matchOnNF; rewrite ?Eo, ?Ety; eval_goal; cbn [point_no] in Hn, Hn'.
    + destruct (Hlk Undef) as [w Hw]. unfold a_getInfo in *. rewrite Eo in *. injection Hi as <-.
      split; known.
    + destruct (nf_known nf p ltac:(by eexists)) as [nd' Hnd'].
      split; [by eexists|]. unfold a_getInfo in *. rewrite Eo in *. injection Hi as <-. known.
    + split; [by eexists|]. known.
    + destruct (Hlk Undef) as [w Hw]. destruct (Hlk Assert) as [v Hv].
      unfold a_toString. rewrite Eo. split; known.
  - apply fmap_Some in Hpt as (grp & Hgrp & ->).
    assert (Hge : getEndPointInternal (r_match r) = Ok grp)
      by (unfold getEndPointInternal, matchOnEndPointInternal; by rewrite Ety, Hgrp).
    destruct (a_output (r_action r)) as [p pe|nf pe p|e pe|g pe] eqn:Eo; try discriminate Hpair; try (specialize (fun f => Hlink f eq_refl) as Hlk; cbn [key_of] in Hlk); eval_goal;
      unfold lower_internal_lsi0, lower_up_tenant, a_type; rewrite ?Eo; eval_goal; cbn [point_no] in Hn, Hn'.
    + destruct (Hlk Assert) as [v Hv]. destruct (Hlk Undef) as [w Hw].
      destruct (nf_known nf p ltac:(by eexists)) as [nd Hnd].
      unfold a_getInfo in *. rewrite Eo in *. injection Hi as <-. split; known.
    + destruct (Hlk Assert) as [v Hv]. destruct (Hlk Undef) as [w Hw].
      unfold a_toString. rewrite Eo. split; known.
  - destruct (getInputEndpoint (r_match r)) as [ep|] eqn:Eep; [|done]. injection Hpt as <-.
    destruct (Hstale ep eq_refl) as [Hst Hlen]. apply Z.ltb_lt in Hlen. rewrite <- Hst in Hlen.
    destruct (a_output (r_action r)) as [p pe|nf pe p|e pe|g pe] eqn:Eo; try discriminate Hpair; try (specialize (fun f => Hlink f eq_refl) as Hlk; cbn [key_of] in Hlk); eval_goal;
      unfold lower_gre_lsi0, lower_gre_tenant, a_type; rewrite ?Eo, ?Eep; eval_goal; cbn [point_no] in Hn, Hn'.
    + destruct (Hlk Assert) as [v Hv]. unfold a_getInfo in *. rewrite Eo in *. injection Hi as <-.
      split; [|known; rewrite Hlen; known]. pose proof Hv as (id & Hid & Hgv)%vlink_of_ret. known.
    + split; [by eexists|]. unfold a_getInfo in *. rewrite Eo in *. injection Hi as <-. known. rewrite Hlen. known.
    + destruct (Hlk Undef) as [w Hw]. destruct (Hlk Assert) as [v Hv].
      unfold a_getInfo, a_toString in *. rewrite Eo in *. injection Hi as <-. split; [known|]. known. rewrite Hlen. known.
Qed.
End total.

Lemma lower_loop_total (f : Rule -> out (option LRule)) rules g :
  (forall r, r ∈ rules -> exists o, f r = Ret o) ->
  exists t, out_fold (fun g r => o ← f r; Ret (match o with Some lr => lg_addRule g lr | None => g end)) g rules
            = Ret t.
Proof.
  revert g. induction rules as [|r rules IH]; intros g Hf; cbn [out_fold]; [by eexists|].
  destruct (Hf r ltac:(left)) as [o ->]. cbn [mbind out_bind]. apply IH. intros. apply Hf. by right.
Qed.

(** C1: a deployed graph forwards as the high-level graph says.  For rules the
    translation supports, on switches where every port number stands for one
    thing and the virtual links are those the rules need, both lowerings
    return, and the two rule tables deliver a packet that enters at the port of
    a point [pt] to the port of a point [pt'], changed to [p'], exactly when
    the graph forwards it from [pt] to [pt'] as [p']; and no packet leaves
    anywhere else. *)
Theorem deployed_graph_forwards {pkt} (matches : list oxm -> pkt -> bool) vlan_op
    stale gid tenant lsi0 c rules dec :
  (forall p, matches [] p = true) ->
  vl_ok (needed rules) tenant ->
  wiring (l_vlinks tenant) (tnum gid tenant lsi0 c) dec ->
  (forall r, r ∈ rules -> supported stale gid tenant lsi0 c r) ->
  exists t0 t1,
    lowerGraphToLSI0 gid tenant lsi0 c rules = Ret t0
    /\ lowerGraphToTenantLSI stale tenant rules = Ret t1
    /\ forall pt n p, point_no gid tenant lsi0 c pt = Some n ->
      (forall pt' p', hl_forward matches vlan_op rules pt p pt' p' ->
         exists n', point_no gid tenant lsi0 c pt' = Some n'
           /\ delivers matches vlan_op (l_vlinks tenant) (tables t0 t1) (side_of pt) n p (side_of pt') n' p')
      /\ (forall s' n' p',
         delivers matches vlan_op (l_vlinks tenant) (tables t0 t1) (side_of pt) n p s' n' p' ->
         exists pt', side_of pt' = s' /\ point_no gid tenant lsi0 c pt' = Some n'
           /\ hl_forward matches vlan_op rules pt p pt' p').
Proof.
  intros Hnil Hok Hw Hsup.
  destruct (lower_loop_total (lower_rule_lsi0 gid tenant lsi0 c) rules []) as [t0 H0].
  { intros r Hr. by destruct (lower_total stale gid tenant lsi0 c rules Hok r Hr (Hsup r Hr)). }
  destruct (lower_loop_total (lower_rule_tenant stale tenant) rules []) as [t1 H1].
  { intros r Hr. by destruct (lower_total stale gid tenant lsi0 c rules Hok r Hr (Hsup r Hr)). }
  exists t0, t1. split; [exact H0|]. split; [exact H1|].
  eapply lowering_forwards_ok; eauto using vl_ok_distinct.
Qed.

(** ** The sample graph, deployed *)

Definition sample_types : gmap string (gmap Z PortType) := {["fw" := <[1 := VETH_PORT]> {[2 := VETH_PORT]}]}.
Definition sample_lsi0 : LSI :=
  {| l_address := "127.0.0.1"; l_port := "6653"; l_dpid := 1; l_physical := <["eth0" := 1]> {["eth1" := 2]};
     l_gre := []; l_ep_ids := ∅; l_nfs := ∅; l_vlinks := []; l_nfs_vlinks := ∅; l_ports_vlinks := ∅;
     l_eps_vlinks := ∅; l_gre_vlinks := ∅ |}.
Definition sample_answer : CreateLsiOut :=
  {| clo_dpid := 2; clo_physical := ∅; clo_nfs_ports := {["fw" := <["fw_1" := 1]> {["fw_2" := 2]}]};
     clo_endpoints := {["gre1" := 3]}; clo_nfs_names := ∅; clo_vlinks := [(4, 10); (5, 11); (6, 12)] |}.
Definition sample_conns : conns := {["7" := {["g" := 13]}]}.
(** Step 3 of [newGraph] with this answer. *)
Definition sample_required : vset := identifyVirtualLinksRequired (g_rules sample_graph).
Definition sample_registration : out LSI :=
  let '(vls, _) := make_vlinks (Z.to_nat (numberOfVLrequired sample_required)) 1 0 in
  l ← of_res (LSI_new 0 "127.0.0.1" "6654" ∅ (g_vnfs sample_graph) (g_gre sample_graph) vls sample_types);
  register_lsi sample_answer l.
Definition sample_registered : LSI :=
  Eval vm_compute in match sample_registration with Ret l => l | _ => sample_lsi0 end.
Definition sample_tenant : LSI :=
  Eval vm_compute in match associate_vlinks sample_required sample_registered with Ok l => l | _ => sample_lsi0 end.

Lemma sample_registration_ok : sample_registration = Ret sample_registered.
Proof. vm_compute. reflexivity. Qed.
Lemma sample_association_ok : associate_vlinks sample_required sample_registered = Ok sample_tenant.
Proof. vm_compute. reflexivity. Qed.

Lemma sample_vl_ok : vl_ok (needed (g_rules sample_graph)) sample_tenant.
Proof.
  apply (vl_ok_ext (fun k => vset_in k sample_required)); [intros k; apply identify_in|].
  destruct (associate_vlinks_ok sample_required sample_registered) as (? & ? & ? & ? & E & Hok).
  - by intros [].
  - by apply (bool_decide_unpack _); vm_compute.
  - vm_compute. reflexivity.
  - rewrite sample_association_ok in E. assert (Ht : forall a b : LSI, Ok a = Ok b -> a = b) by congruence.
    rewrite (Ht _ _ E). exact Hok.
Qed.

(** What the ports of the two switches stand for. *)
Definition sample_dec (s : side) (n : Z) : option role :=
  match s with
  | Lsi0 => if n =? 1 then Some (RPoint (AtPort "eth0")) else if n =? 2 then Some (RPoint (AtPort "eth1"))
            else if n =? 13 then Some (RPoint (AtInternal "7"))
            else if n =? 10 then Some (RLink 0) else if n =? 11 then Some (RLink 1)
            else if n =? 12 then Some (RLink 2) else None
  | Tenant => if n =? 1 then Some (RPoint (AtNF "fw" 1)) else if n =? 2 then Some (RPoint (AtNF "fw" 2))
              else if n =? 3 then Some (RPoint (AtGre "gre1"))
              else if n =? 4 then Some (RLink 0) else if n =? 5 then Some (RLink 1)
              else if n =? 6 then Some (RLink 2) else None
  end.

(** Reads a lookup in a concrete map. *)
Ltac read_map H :=
  apply elem_of_map_to_list in H; vm_compute in H;
  repeat (apply elem_of_cons in H as [H|H]; [injection H; clear H; intros; subst|]); try exact (False_ind _ (not_elem_of_nil _ H)).

Lemma sample_wiring :
  wiring (l_vlinks sample_tenant) (tnum "g" sample_tenant sample_lsi0 sample_conns) sample_dec.
Proof.
  split.
  - intros [p|nf p|e|g] n Hn; unfold tnum, point_no in Hn.
    + by read_map Hn.
    + assert (Hnf : is_Some (l_nfs sample_tenant !! nf)).
      { apply (nf_known "g" sample_tenant sample_lsi0 sample_conns nf p). by eexists. }
      destruct Hnf as [d Hd]. assert (nf = "fw") as -> by (by read_map Hd).
      assert (Hc : nf_port_of "fw" p = nf_port_of "fw" 1 /\ n = 1 \/ nf_port_of "fw" p = nf_port_of "fw" 2 /\ n = 2).
      { apply elem_of_map_to_list in Hn.
        assert (Hl : map_to_list (getNetworkFunctionsPorts "fw" sample_tenant) = [("fw_1", 1); ("fw_2", 2)])
          by (by vm_compute). rewrite Hl in Hn.
        apply elem_of_cons in Hn as [[-> ->]%pair_eq|Hn]; [left; split; vm_compute; reflexivity|].
        apply elem_of_cons in Hn as [[-> ->]%pair_eq|Hn]; [right; split; vm_compute; reflexivity|].
        exact (False_ind _ (not_elem_of_nil _ Hn)). }
      destruct Hc as [[[_ ->]%nf_port_of_inj ->]|[[_ ->]%nf_port_of_inj ->]]; done.
    + by read_map Hn.
    + apply bind_Some in Hn as (m & Hm & Hn). assert (g = "7") as -> by (by read_map Hm).
      vm_compute in Hm. injection Hm as <-. by read_map Hn.
  - intros s v Hv. vm_compute in Hv.
    repeat (apply elem_of_cons in Hv as [->|Hv]; [by destruct s|]). by apply elem_of_nil in Hv.
  - intros pt n n' H H'. unfold tnum in *. congruence.
  - by apply (bool_decide_unpack _); vm_compute.
Qed.

Ltac base_wf := split; [intros [] v E; vm_compute in E; try discriminate E; injection E as <-; reflexivity|by vm_compute..].

Lemma sample_supported r :
  r ∈ g_rules sample_graph -> supported id "g" sample_tenant sample_lsi0 sample_conns r.
Proof.
  intros Hr. cbn in Hr. repeat (apply elem_of_cons in Hr as [->|Hr]); [..|by apply elem_of_nil in Hr].
  all: split; [base_wf|by vm_compute|eexists; split; [by vm_compute|by vm_compute; eexists]|by vm_compute; eexists
              |by vm_compute|by vm_compute|by left|by eexists|done|].
  all: intros e E; vm_compute in E; try discriminate E; injection E as <-; by vm_compute.
Qed.

(** Packets are their EtherType. *)
Definition sample_matches (fs : list oxm) (p : Z) : bool :=
  forallb (fun f => match f with ONum ethType v => p =? v | _ => true end) fs.

Lemma deployed_graph_forwards_witness :
  exists t0 t1,
    lowerGraphToLSI0 "g" sample_tenant sample_lsi0 sample_conns (g_rules sample_graph) = Ret t0
    /\ lowerGraphToTenantLSI id sample_tenant (g_rules sample_graph) = Ret t1
    /\ delivers sample_matches (fun _ p => p) (l_vlinks sample_tenant) (tables t0 t1) Lsi0 1 2048 Tenant 3 2048.
Proof.
  destruct (deployed_graph_forwards sample_matches (fun _ p => p) id "g" sample_tenant sample_lsi0 sample_conns
    (g_rules sample_graph) sample_dec ltac:(done) sample_vl_ok sample_wiring sample_supported) as (t0 & t1 & H0 & H1 & H).
  exists t0, t1. split; [exact H0|]. split; [exact H1|].
  destruct (H (AtPort "eth0") 1 2048 eq_refl) as [Hf _].
  destruct (Hf (AtGre "gre1") 2048) as (n' & Hn' & Hd).
  { exists ip_to_tunnel. split; [|by split]. split; [by right; left|]. split; [by split|].
    intros r' Hr' [Hin _]. cbn in Hr'. revert Hin.
    repeat (apply elem_of_cons in Hr' as [->|Hr']; [by vm_compute|]). by apply elem_of_nil in Hr'. }
  vm_compute in Hn'. injection Hn' as <-. exact Hd.
Defined.

Lemma vlink_count_bounds_witness :
  vl_ok (needed (g_rules sample_graph)) sample_tenant /\ length (l_vlinks sample_tenant) = 3%nat
  /\ numberOfVLrequired (identifyVirtualLinksRequired (g_rules sample_graph)) <= 3.
Proof.
  split; [exact sample_vl_ok|]. split; [reflexivity|].
  destruct (vlink_count_bounds (g_rules sample_graph) sample_tenant) as [H _].
  - vm_compute. reflexivity.
  - exact sample_vl_ok.
  - exact H.
Defined.

(** The tenant of the sample graph on this switch. *)
Definition sample_vstate : vstate toy_switch :=
  {| vs_lsi := sample_tenant; vs_next := 3;
     vs_sw := {| ts_next := 20;
                 ts_links := (fun v => (2, vl_local_id v, (vl_remote_dpid v, vl_remote_id v))) <$> l_vlinks sample_tenant |} |}.
Lemma sample_vinv : vinv (needed (g_rules sample_graph)) 2 3 sample_vstate.
Proof.
  split; [exact sample_vl_ok| |done|done|].
  - intros v Hv. vm_compute in Hv. repeat (apply elem_of_cons in Hv as [->|Hv]; [by vm_compute|]).
    exact (False_ind _ (not_elem_of_nil _ Hv)).
  - split; [done|..].
    + intros x y. cbn [vs_sw vs_lsi sample_vstate]. unfold sw_links. cbn [toy_link_laws ts_links].
      rewrite elem_of_PropSet, list_elem_of_fmap. change (l_dpid sample_tenant) with 2. split.
      * intros (v & [= -> ->] & Hv). eauto.
      * intros (v & Hv & -> & ->). eauto.
    + intros v w Hv Hw. vm_compute in Hv, Hw.
      repeat (apply elem_of_cons in Hv as [->|Hv]; [repeat (apply elem_of_cons in Hw as [->|Hw]; [by vm_compute|]);
        exact (False_ind _ (not_elem_of_nil _ Hw))|]). exact (False_ind _ (not_elem_of_nil _ Hv)).
    + intros v w Hv Hw. vm_compute in Hv, Hw.
      repeat (apply elem_of_cons in Hv as [->|Hv]; [repeat (apply elem_of_cons in Hw as [->|Hw]; [by vm_compute|]);
        exact (False_ind _ (not_elem_of_nil _ Hw))|]). exact (False_ind _ (not_elem_of_nil _ Hv)).
Qed.

Lemma update_vlinks_invariant_witness :
  exists g2, update_graph sample_graph sample_update = Ok (g2, removed_infos sample_graph sample_update)
    /\ wp (_ ← updateGraph_add_vlinks 1 (g_rules (calculateDiff sample_graph sample_update "g"));
          updateGraph_remove_vlinks (g_rules g2) (removed_infos sample_graph sample_update))
        (fun s' _ => exists next', vinv (needed (g_rules g2)) 2 next' s')
        (fun _ e => e = GraphManagerException) sample_vstate.
Proof.
  destruct (update_vlinks_invariant 1 sample_graph sample_update 2 3 sample_vstate) as (g2 & E & _ & H).
  - by apply (bool_decide_unpack _); vm_compute.
  - by apply (bool_decide_unpack _); vm_compute.
  - apply removable_b_true. by vm_compute.
  - by repeat constructor.
  - by repeat constructor.
  - done.
  - vm_compute. reflexivity.
  - exact sample_vinv.
  - exists g2. split; [exact E|exact H].
Defined.
