(* ===== verification/InternalOk.v ===== *)
(** * Internal endpoints are shared and released

    The LSI of an internal endpoint exists exactly while a deployed graph uses
    the endpoint; it has one virtual link per graph, and the counters and
    tables of the manager agree with it.  [newGraph] and [deleteGraph] keep
    this. *)

From Stdlib Require Import ZArith Lia String.
From stdpp Require Import gmap strings numbers base list.
From S2P Require Import Prelude Cpp Keyed FlowMatch HighLevel HLGraph LowLevel Lsi Vlinks Translator Controller NFManagers ComputeController GraphManager SwitchSample.

Section internal.
Context {SW CC NODE : Type} `{!SwitchOps SW} `{!ComputeOps CC NODE}.
Context (stale : string -> string) (garbage : bool) (no_dpid : Z) (un_interface : string).
#[local] Abbreviation GM := (GM (SW := SW) (CC := CC) (NODE := NODE)).
#[local] Abbreviation GraphInfo := (GraphInfo (CC := CC)).

(** What the manager knows of one endpoint. *)
Definition iproj (group : string) (s : GM) :=
  (gm_internals s !! group, is_created group s, times_used group s, gm_conns s !! group).

(** [U]: the graphs that use the endpoint. *)
Definition int_ok (U : gset string) (p : option InternalInfo * bool * Z * option (gmap string Z)) : Prop :=
  let '(info, created, times, conn) := p in
  if created : bool
  then exists l ctl m, info = Some {| ii_lsi := Some l; ii_ctl := ctl |} /\ conn = Some m /\ dom m = U
         /\ times = Z.of_nat (size m) /\ times = Z.of_nat (length (l_vlinks l)) /\ U <> ∅
  else conn = None /\ U = ∅.

Definition groups (g : Graph) : list string := en_group <$> g_internal g.
Definition users (group : string) (t : gmap string GraphInfo) : gset string :=
  dom (filter (fun '(_, gi) => group ∈ groups (gi_graph gi)) t).

Record int_inv (s : GM) : Prop := {
  ii_ok group : int_ok (users group (gm_tenants s)) (iproj group s);
  ii_id gid gi : gm_tenants s !! gid = Some gi -> g_id (gi_graph gi) = gid;
  ii_groups gid gi : gm_tenants s !! gid = Some gi -> NoDup (groups (gi_graph gi));
  ii_size : Z.of_nat (size (gm_tenants s)) < 4294967295
}.

Lemma elem_of_users group t gid :
  gid ∈ users group t <-> exists gi, t !! gid = Some gi /\ group ∈ groups (gi_graph gi).
Proof.
  unfold users. rewrite elem_of_dom. split.
  - intros [gi [H1 H2]%map_lookup_filter_Some]. eauto.
  - intros (gi & H1 & H2). exists gi. by apply map_lookup_filter_Some.
Qed.
Lemma users_size group t : (size (users group t) <= size t)%nat.
Proof.
  rewrite <- (size_dom (D := gset string) t). apply subseteq_size. intros gid (gi & H & _)%elem_of_users.
  apply elem_of_dom. eauto.
Qed.

(** ** One endpoint at a time *)

(** The rest of the state that counts. *)
Definition others (group : string) (s s' : GM) : Prop :=
  gm_tenants s' = gm_tenants s /\ forall group', group' <> group -> iproj group' s' = iproj group' s.

Lemma others_refl group s : others group s s.
Proof. done. Qed.
Lemma others_trans group s s1 s2 : others group s s1 -> others group s1 s2 -> others group s s2.
Proof. intros [E1 H1] [E2 H2]. split; [congruence|]. intros. rewrite H2, H1; done. Qed.

Definition iview (s : GM) := (gm_tenants s, gm_internals s, gm_created s, gm_times s, gm_conns s).
Lemma iview_others group s s' : iview s' = iview s -> others group s s' /\ iproj group s' = iproj group s.
Proof.
  unfold iview, others, iproj, is_created, times_used. intros [= -> -> -> -> ->]. done.
Qed.

Lemma keeps_on_sw {A} (f : SW -> SW * out A) : keeps iview (on_sw f).
Proof. intros s. unfold on_sw. by destruct (f (gm_sw s)). Qed.
Lemma keeps_counters port vlink sw :
  keeps iview (modify (fun s : GM => set_counters (port s) (vlink s) (sw s) s)).
Proof. done. Qed.
Lemma keeps_new_controller : keeps iview (new_controller : prog GM system).
Proof. done. Qed.

Lemma internal_link_length dpid0 (v : vstate SW) :
  post (new_internal_link dpid0)
    (fun v' _ => length (l_vlinks (vs_lsi v')) = S (length (l_vlinks (vs_lsi v)))) v.
Proof.
  unfold new_internal_link. apply post_bind. unfold new_vlink, VLink_new, post at 1. cbn [vs_lsi].
  apply post_bind. unfold on_lsi, addVlink, post at 1. cbn [vs_lsi set_vs_lsi].
  apply post_bind. unfold gets, post at 1. apply post_bind. unfold post at 1, on_switch.
  destruct (addVirtualLink _ _ _) as [sw [[ia ib]|e|]]; [|done..]. cbn [vs_lsi].
  apply post_bind. unfold post at 1, on_lsi_res, setVLinkIDs. cbn.
  destruct ((l_vlinks (vs_lsi v) ++ _) !! _); cbn; [|done]. apply post_bind. unfold gets, post at 1.
  apply post_of_out. intros w _. cbn. rewrite length_insert, length_app. cbn. lia.
Qed.

(** The projections after the elementary changes. *)
Lemma iproj_set_internal group s i cr t c :
  iproj group (set_internal i cr t c s) = (i !! group, default false (cr !! group), default 0 (t !! group), c !! group).
Proof. done. Qed.

Lemma set_internal_others group s i cr t c :
  (forall g, g <> group -> i !! g = gm_internals s !! g) ->
  (forall g, g <> group -> cr !! g = gm_created s !! g) ->
  (forall g, g <> group -> t !! g = gm_times s !! g) ->
  (forall g, g <> group -> c !! g = gm_conns s !! g) ->
  others group s (set_internal i cr t c s).
Proof.
  intros H1 H2 H3 H4. split; [done|]. intros g Hg. rewrite iproj_set_internal.
  unfold iproj, is_created, times_used. by rewrite H1, H2, H3, H4.
Qed.

(** The last step: the rule is given to the controller and the LSI is stored. *)
Lemma internal_ctl_post group l ctl rule s (Q : GM -> unit -> Prop) :
  (forall ctl', Q (set_internal (<[group := {| ii_lsi := Some l; ii_ctl := ctl' |}]> (gm_internals s))
                    (gm_created s) (gm_times s) (gm_conns s) s) tt) ->
  post (internal_ctl garbage group l ctl rule) Q s.
Proof.
  intros HQ. unfold internal_ctl. apply post_bind, post_of_out. intros ctl' _. apply HQ.
Qed.

Lemma extend_post group gid info U s :
  int_ok U (iproj group s) -> is_created group s = true -> gm_internals s !! group = Some info ->
  gid ∉ U -> Z.of_nat (size U) < 4294967295 ->
  post (extend_internal garbage group gid info)
    (fun s' _ => int_ok ({[gid]} ∪ U) (iproj group s') /\ others group s s') s.
Proof.
  intros Hok Hc Hi Hgid Hsize. unfold int_ok, iproj in Hok. rewrite Hc, Hi in Hok.
  destruct Hok as (l & ctl & m & [= ->] & Hm & Hdom & Ht & Hl & Hne).
  assert (Hgm : m !! gid = None) by (apply not_elem_of_dom; by rewrite Hdom).
  assert (Hsm : size U = size m) by (by rewrite <- Hdom, size_dom).
  unfold extend_internal. apply post_bind, post_of_out. cbn [ii_lsi deref]. intros l0 [= <-].
  apply post_bind. unfold gets, post at 1. apply post_bind. unfold post at 1, on_vstate.
  pose proof (internal_link_length (l_dpid (gm_lsi0 s))
    {| vs_lsi := l; vs_next := gm_next_vlink s; vs_sw := gm_sw s |}) as Hlen. unfold post in Hlen.
  destruct (new_internal_link _ _) as [v o]. cbn [vs_lsi] in Hlen.
  apply post_bind. unfold modify, post at 1. apply post_bind, post_of_out. intros w ->.
  apply post_bind. unfold modify, post at 1. apply internal_ctl_post. intros ctl'. cbn [gm_internals gm_created gm_times gm_conns set_internal set_counters].
  split.
  - unfold iproj, int_ok, is_created, times_used, connect. cbn. unfold is_created, times_used in Hc, Ht, Hl. rewrite Hc.
    rewrite !lookup_insert_eq. cbn.
    exists (vs_lsi v), ctl', (<[gid := vl_remote_id w]> m). split; [done|]. split; [by rewrite Hm|].
    rewrite dom_insert_L, Hdom. split; [done|]. rewrite map_size_insert_None by done. rewrite Hlen.
    unfold u32. rewrite Ht, Z.mod_small by lia. split; [lia|]. split; [lia|]. set_solver.
  - split; [done|]. intros g Hg. unfold iproj, is_created, times_used, connect. cbn.
    by rewrite !lookup_insert_ne by done.
Qed.

Lemma setEndPointsVLinks_vlinks m l : l_vlinks (setEndPointsVLinks m l) = l_vlinks l.
Proof. done. Qed.

Lemma create_post group gid info s :
  int_ok ∅ (iproj group s) -> is_created group s = false ->
  post (create_internal garbage no_dpid group gid info)
    (fun s' _ => int_ok {[gid]} (iproj group s') /\ others group s s') s.
Proof.
  intros Hok Hc. unfold int_ok, iproj in Hok. rewrite Hc in Hok. destruct Hok as [Hm _].
  unfold create_internal. apply post_bind. unfold gets, post at 1. apply post_bind. unfold gets, post at 1.
  cbn [VLink_new]. apply post_bind. unfold modify, post at 1. apply post_bind, post_of_out. intros l0 _.
  (* the switch creates the LSI *)
  apply post_bind. eapply (post_mono _ (fun s1 _ =>
    gm_tenants s1 = gm_tenants s /\ gm_internals s1 = gm_internals s /\ gm_conns s1 = gm_conns s
    /\ gm_created s1 = <[group := true]> (gm_created s) /\ gm_times s1 = <[group := 1]> (gm_times s))).
  { apply post_catch.
    - apply post_bind. eapply (post_keeps iview); [apply keeps_on_sw|]. intros s1 clo [= E1 E2 E3 E4 E5].
      apply post_bind, post_of_out. intros l1 _. apply post_bind. unfold modify, post at 1. apply post_ret.
      cbn. rewrite E1, E2, E3, E4, E5. done.
    - intros s1. apply post_bind. unfold post at 1. destruct (on_sw _ s1) as [? []]; done. }
  intros s1 l1 (E1 & E2 & E3 & E4 & E5). apply post_bind, post_assert. intros Hlen%Nat.eqb_eq.
  apply post_bind, post_of_out. intros w _. apply post_bind. unfold modify, post at 1.
  apply internal_ctl_post. intros ctl'. cbn [gm_internals gm_created gm_times gm_conns set_internal].
  split.
  - unfold iproj, int_ok, is_created, times_used, connect. cbn. rewrite E4, E5, E3, !lookup_insert_eq. cbn.
    eexists _, ctl', {[gid := vl_remote_id w]}. split; [done|]. rewrite Hm. split; [done|].
    rewrite dom_singleton_L, map_size_singleton, setEndPointsVLinks_vlinks, Hlen. split; [done|]. split; [done|].
    split; [done|]. set_solver.
  - split; [cbn; by rewrite E1|]. intros g Hg. unfold iproj, is_created, times_used, connect. cbn.
    by rewrite E2, E3, E4, E5, !lookup_insert_ne by done.
Qed.

Lemma erase_first_length {A} (p : A -> bool) l l' : erase_first p l = Some l' -> length l = S (length l').
Proof.
  intros (l1 & x & l2 & -> & -> & _)%erase_first_Some. rewrite !length_app. cbn. lia.
Qed.

Lemma release_post gid iep U s :
  int_ok U (iproj (en_group iep) s) -> gid ∈ U -> Z.of_nat (size U) < 4294967296 ->
  post (release_internal garbage gid iep)
    (fun s' _ => int_ok (U ∖ {[gid]}) (iproj (en_group iep) s') /\ others (en_group iep) s s') s.
Proof.
  intros Hok Hgid Hsize. set (group := en_group iep) in *. unfold int_ok, iproj in Hok.
  destruct (is_created group s) eqn:Hc; [|destruct Hok; set_solver].
  destruct Hok as (l & ctl & m & Hi & Hm & Hdom & Ht & Hl & Hne).
  assert (Hsm : size U = size m) by (by rewrite <- Hdom, size_dom).
  assert (Hgm : is_Some (m !! gid)) by (apply elem_of_dom; by rewrite Hdom).
  unfold release_internal. fold group. apply post_bind. unfold post at 1. rewrite Hi. cbn [deref].
  apply post_bind, post_of_out. cbn. intros l0 [= <-]. apply post_bind. unfold gets, post at 1.
  apply post_bind, post_assert. intros _. rewrite Ht. destruct (Z.eqb_spec (Z.of_nat (size m)) 1) as [H1|H1].
  - (* the last user *)
    assert (HU : U ∖ {[gid]} = ∅).
    { assert (Hs1 : size U = 1%nat) by lia. apply size_1_elem_of in Hs1 as [x Hx].
      fold_leibniz. rewrite Hx in *. set_solver. }
    apply post_bind. unfold destroy_internal. apply post_bind.
    eapply (post_keeps iview); [apply keeps_catch; [apply keeps_on_sw|apply keeps_throw]|].
    intros s1 [] [= E1 E2 E3 E4 E5]. apply post_bind. unfold gets, post at 1. apply post_bind, post_of_out. intros ? _.
    unfold modify, post at 1. unfold post at 1. split.
    + rewrite HU. unfold iproj, int_ok, is_created. cbn. rewrite lookup_insert_eq. cbn. by rewrite lookup_delete_eq.
    + split; [cbn; by rewrite E1|]. intros g Hg. unfold iproj, is_created, times_used. cbn.
      by rewrite !lookup_insert_ne, !lookup_delete_ne, E2, E3, E4, E5 by done.
  - assert (HU : U ∖ {[gid]} <> ∅).
    { intros HU. apply H1. assert (U ⊆ {[gid]}) as Hsub.
      { intros x Hx. destruct (decide (x = gid)) as [->|Hn]; [set_solver|]. exfalso.
        assert (Hin : x ∈ U ∖ {[gid]}) by set_solver. rewrite HU in Hin. set_solver. }
      assert (size U <> 0%nat) by (apply size_non_empty_iff; set_solver).
      apply subseteq_size in Hsub. rewrite size_singleton in Hsub. lia. }
    apply post_bind. unfold shrink_internal. apply post_bind, post_of_out. intros ctl' _.
    apply post_bind. unfold modify, post at 1. apply post_bind. unfold gets, post at 1. apply post_bind, post_of_out. intros port _.
    destruct (find_first _ (l_vlinks l)) as [vl|]; [|done]. apply post_bind.
    eapply (post_keeps iview); [apply keeps_on_sw|]. intros s1 [] [= E1 E2 E3 E4 E5]. cbn in E1, E2, E3, E4, E5.
    apply post_bind, post_of_out. intros l1 Hr%of_res_ret. unfold removeVlink in Hr.
    destruct (erase_first _ (l_vlinks l)) as [vs|] eqn:Ev; [|done]. injection Hr as <-. apply erase_first_length in Ev.
    unfold modify, post at 1. unfold post at 1. split.
    + unfold iproj, int_ok, is_created, times_used in *. cbn. rewrite E3, E5, Hc, E4, Hm, !lookup_insert_eq. cbn.
      eexists _, ctl', (delete gid m). split; [done|]. split; [done|]. rewrite dom_delete_L, Hdom. split; [done|].
      rewrite map_size_delete_Some by done. cbn. unfold u32. rewrite Ht, Z.mod_small by lia. split; [lia|].
      split; [lia|done].
    + split; [cbn; by rewrite E1|]. intros g Hg. unfold iproj, is_created, times_used. cbn.
      rewrite !lookup_insert_ne, E2, E3, E4, E5 by done. by rewrite lookup_insert_ne by done.
Qed.

(** ** The loops over the endpoints of a graph *)

Lemma handleController_post g s :
  post (handleControllerForInternalEndpoint g)
    (fun s' _ => gm_tenants s' = gm_tenants s
       /\ forall group U, int_ok U (iproj group s) -> int_ok U (iproj group s')) s.
Proof.
  apply (post_for_each _ (fun _ s' => gm_tenants s' = gm_tenants s
       /\ forall group U, int_ok U (iproj group s) -> int_ok U (iproj group s'))); [done|].
  intros l1 iep l2 s1 _ [Et H1]. cbn zeta. apply post_bind. unfold gets, post at 1.
  destruct (is_created (en_group iep) s1) eqn:Ec; [by apply post_ret|]. apply post_bind.
  eapply (post_keeps iview); [apply keeps_new_controller|]. intros s2 ctl [= E1 E2 E3 E4 E5].
  unfold modify, post. split; [cbn; congruence|]. intros group U HU. specialize (H1 group U HU).
  unfold int_ok, iproj, is_created, times_used in *. cbn. rewrite E2, E3, E4, E5.
  destruct (decide (group = en_group iep)) as [->|Hg]; [by rewrite Ec in *|]. by rewrite lookup_insert_ne.
Qed.

(** The users of an endpoint once the endpoints [done] were visited. *)
Definition joined (gid : string) (visited : list string) (group : string) (U : gset string) : gset string :=
  if decide (group ∈ visited) then {[gid]} ∪ U else U.
Definition left_by (gid : string) (visited : list string) (group : string) (U : gset string) : gset string :=
  if decide (group ∈ visited) then U ∖ {[gid]} else U.

Lemma handleGraph_post g s (U : string -> gset string) :
  NoDup (groups g) -> (forall group, g_id g ∉ U group /\ Z.of_nat (size (U group)) < 4294967295) ->
  (forall group, int_ok (U group) (iproj group s)) ->
  post (handleGraphForInternalEndpoint garbage no_dpid g)
    (fun s' _ => gm_tenants s' = gm_tenants s
       /\ forall group, int_ok (joined (g_id g) (groups g) group (U group)) (iproj group s')) s.
Proof.
  intros Hnd HU H0. unfold handleGraphForInternalEndpoint, groups in *.
  apply (post_for_each _ (fun visited s' => gm_tenants s' = gm_tenants s
    /\ forall group, int_ok (joined (g_id g) (en_group <$> visited) group (U group)) (iproj group s'))).
  - split; [done|]. intros group. unfold joined. rewrite decide_False; [done|]. apply not_elem_of_nil.
  - intros l1 iep l2 s1 El [Et H1]. cbn zeta. set (group := en_group iep).
    rewrite El, fmap_app, fmap_cons in Hnd. apply list.NoDup_app in Hnd as (_ & Hnd & _).
    assert (Hnew : group ∉ en_group <$> l1) by (intros Hin; apply (Hnd group Hin); left).
    pose proof (H1 group) as Hg. unfold joined in Hg. rewrite decide_False in Hg by done.
    (* other endpoints are as they were *)
    assert (Hrest : forall s2, others group s1 s2 -> int_ok ({[g_id g]} ∪ U group) (iproj group s2) ->
      gm_tenants s2 = gm_tenants s /\ forall g0,
        int_ok (joined (g_id g) (en_group <$> (l1 ++ [iep])) g0 (U g0)) (iproj g0 s2)).
    { intros s2 [Et2 Ho] Hok. split; [congruence|]. intros g0. unfold joined. rewrite fmap_app. cbn [fmap list_fmap].
      destruct (decide (g0 = group)) as [->|Hne].
      - rewrite decide_True; [done|]. apply elem_of_app. right. left.
      - rewrite Ho by done. specialize (H1 g0). unfold joined in H1.
        destruct (decide (g0 ∈ en_group <$> l1)).
        + rewrite decide_True; [done|]. apply elem_of_app. by left.
        + rewrite decide_False; [done|]. rewrite elem_of_app, list_elem_of_singleton. tauto. }
    apply post_bind. unfold post at 1. destruct (gm_internals s1 !! group) as [info|] eqn:Ei; cbn [deref]; [|done].
    apply post_bind. unfold gets, post at 1. destruct (HU group) as [Hgid Hsize].
    destruct (is_created group s1) eqn:Ec.
    + eapply post_mono; [by apply (extend_post group (g_id g) info (U group))|].
      intros s2 u [Hok Ho]. by apply Hrest.
    + assert (U group = ∅) as EU by (unfold int_ok, iproj in Hg; rewrite Ec in Hg; by destruct Hg).
      rewrite EU in Hg. eapply post_mono; [by apply (create_post group (g_id g) info)|].
      intros s2 u [Hok Ho]. apply Hrest; [done|]. by rewrite EU, (right_id_L ∅ (∪)).
Qed.

Lemma release_all_post g s (U : string -> gset string) :
  NoDup (groups g) ->
  (forall group, group ∈ groups g -> g_id g ∈ U group) ->
  (forall group, Z.of_nat (size (U group)) < 4294967296) ->
  (forall group, int_ok (U group) (iproj group s)) ->
  post (for_each (release_internal garbage (g_id g)) (g_internal g))
    (fun s' _ => gm_tenants s' = gm_tenants s
       /\ forall group, int_ok (left_by (g_id g) (groups g) group (U group)) (iproj group s')) s.
Proof.
  intros Hnd HU Hsize H0. unfold groups in *.
  apply (post_for_each _ (fun visited s' => gm_tenants s' = gm_tenants s
    /\ forall group, int_ok (left_by (g_id g) (en_group <$> visited) group (U group)) (iproj group s'))).
  - split; [done|]. intros group. unfold left_by. rewrite decide_False; [done|]. apply not_elem_of_nil.
  - intros l1 iep l2 s1 El [Et H1]. set (group := en_group iep).
    assert (Hin : group ∈ en_group <$> g_internal g).
    { rewrite El, fmap_app, fmap_cons. apply elem_of_app. right. left. }
    rewrite El, fmap_app, fmap_cons in Hnd. apply list.NoDup_app in Hnd as (_ & Hnd & _).
    assert (Hnew : group ∉ en_group <$> l1) by (intros Hi; apply (Hnd group Hi); left).
    pose proof (H1 group) as Hg. unfold left_by in Hg. rewrite decide_False in Hg by done.
    eapply post_mono; [apply (release_post (g_id g) iep (U group)); auto|]. intros s2 u [Hok [Et2 Ho]].
    split; [congruence|]. intros g0. unfold left_by. rewrite fmap_app. cbn [fmap list_fmap].
    destruct (decide (g0 = group)) as [->|Hne].
    + rewrite decide_True; [done|]. apply elem_of_app. right. left.
    + rewrite Ho by done. specialize (H1 g0). unfold left_by in H1. destruct (decide (g0 ∈ en_group <$> l1)).
      * rewrite decide_True; [done|]. apply elem_of_app. by left.
      * rewrite decide_False; [done|]. rewrite elem_of_app, list_elem_of_singleton. tauto.
Qed.

(** ** Who uses what *)

Lemma users_insert group t gid gi :
  t !! gid = None ->
  users group (<[gid := gi]> t) = joined gid (groups (gi_graph gi)) group (users group t).
Proof.
  intros Hn. apply set_eq. intros x. rewrite elem_of_users. unfold joined. split.
  - intros (gi' & Hx & Hg). destruct (decide (x = gid)) as [->|Hne].
    + rewrite lookup_insert_eq in Hx. injection Hx as <-. rewrite decide_True by done. set_solver.
    + rewrite lookup_insert_ne in Hx by done. assert (x ∈ users group t) by (apply elem_of_users; eauto).
      case_decide; set_solver.
  - case_decide as Hg.
    + intros [->%elem_of_singleton|(gi' & Hx & Hg')%elem_of_users]%elem_of_union.
      * exists gi. by rewrite lookup_insert_eq.
      * exists gi'. rewrite lookup_insert_ne; [done|]. intros <-. congruence.
    + intros (gi' & Hx & Hg')%elem_of_users. exists gi'. rewrite lookup_insert_ne; [done|]. intros <-. congruence.
Qed.
Lemma users_delete group t gid gi :
  t !! gid = Some gi -> users group (delete gid t) = left_by gid (groups (gi_graph gi)) group (users group t).
Proof.
  intros Hs. apply set_eq. intros x. rewrite elem_of_users. unfold left_by. split.
  - intros (gi' & Hx & Hg). apply lookup_delete_Some in Hx as [Hne Hx].
    assert (x ∈ users group t) by (apply elem_of_users; eauto). case_decide; set_solver.
  - case_decide as Hg.
    + intros [(gi' & Hx & Hg')%elem_of_users Hne]%elem_of_difference. exists gi'.
      rewrite lookup_delete_ne by set_solver. done.
    + intros (gi' & Hx & Hg')%elem_of_users. exists gi'. rewrite lookup_delete_ne; [done|]. intros <-. congruence.
Qed.
Lemma users_same group t gid gi gi' :
  t !! gid = Some gi -> groups (gi_graph gi') = groups (gi_graph gi) ->
  users group (<[gid := gi']> t) = users group t.
Proof.
  intros Hs Hg. apply set_eq. intros x. rewrite !elem_of_users. destruct (decide (x = gid)) as [->|Hne].
  - rewrite lookup_insert_eq, Hs. split; intros (y & [= <-] & Hy); eexists; split; try done; congruence.
  - by rewrite lookup_insert_ne.
Qed.

(** ** The handlers *)

Lemma int_inv_iview s s' : iview s' = iview s -> int_inv s -> int_inv s'.
Proof.
  intros E [H1 H2 H3 H4]. assert (Et : gm_tenants s' = gm_tenants s) by (by injection E).
  split; rewrite ?Et; try done. intros group. destruct (iview_others group s s' E) as [_ ->]. apply H1.
Qed.

#[local] Hint Resolve keeps_on_sw keeps_counters keeps_new_controller : keeps.
Lemma keeps_create_lsi types l : keeps iview (create_lsi un_interface types l).
Proof. unfold create_lsi. auto 8 with keeps. Qed.
Lemma keeps_new_vlinks g : keeps iview (new_vlinks g).
Proof.
  unfold new_vlinks. apply keeps_bind; [apply keeps_gets|]. intros d.
  apply keeps_bind; [apply keeps_gets|]. intros n. destruct (make_vlinks _ d n) as [vls n'].
  apply keeps_bind; [done|]. intros _. apply keeps_ret.
Qed.
Lemma keeps_new_tenant_lsi g port vls types ports :
  keeps iview (new_tenant_lsi no_dpid un_interface g port vls types ports).
Proof.
  unfold new_tenant_lsi. apply keeps_bind; [apply keeps_of_out|]. intros l.
  apply keeps_bind; [apply keeps_create_lsi|]. intros l'. apply keeps_of_out.
Qed.
Lemma keeps_lsi0_ctl e : keeps iview (lsi0_ctl garbage e).
Proof. intros s. unfold lsi0_ctl. by destruct (step _ _ _). Qed.
Lemma keeps_with_cc {A} (cc : CC) (m : prog (CC * NODE) A) : keeps iview (with_cc cc m).
Proof. intros s. unfold with_cc. by destruct (m (cc, gm_node s)) as [[cc' n] o]. Qed.
Lemma undo_never {A} g l (cc : CC) s : post (undo_tenant g l cc : prog GM A) (fun _ _ => False) s.
Proof.
  unfold undo_tenant. apply post_bind. eapply (post_keeps iview); [apply keeps_with_cc|]. intros s' _ _.
  apply post_bind. unfold post at 1. by destruct (on_sw _ s') as [? []].
Qed.

Lemma install_post g l ctl cc s :
  post (install_graph stale garbage g l ctl cc)
    (fun s' _ => exists gi, gi_graph gi = g /\ gm_tenants s' = <[g_id g := gi]> (gm_tenants s)
       /\ forall group, iproj group s' = iproj group s) s.
Proof.
  unfold install_graph. apply post_bind. unfold gets, post at 1. apply post_bind. unfold gets, post at 1.
  apply post_bind, post_of_out. intros t0 _. apply post_bind. unfold modify, post at 1.
  apply post_bind, post_of_out. intros t1 _. apply post_bind, post_of_out. intros ctl' _.
  apply post_bind. unfold put_tenant, modify, post at 1.
  eapply (post_keeps iview); [apply keeps_lsi0_ctl|]. intros s' u E.
  eexists. split; [|split]; [|by injection E|]; [done|]. intros group.
  by destruct (iview_others group _ _ E) as [_ ->].
Qed.

Lemma newGraph_post g s :
  int_inv s -> NoDup (groups g) -> Z.of_nat (size (gm_tenants s)) + 1 < 4294967295 ->
  post (newGraph stale garbage no_dpid un_interface g) (fun s' _ => int_inv s') s.
Proof.
  intros Hinv Hnd Hsize. unfold newGraph. apply post_bind. unfold gets, post at 1.
  apply post_bind, post_assert. intros Hnew. apply post_bind. unfold gets, post at 1.
  apply post_bind. eapply (post_keeps iview); [apply keeps_with_cc|].
  intros sa [cc [|]] Ea; cbn [negb]; [|apply post_ret; by eapply int_inv_iview].
  apply post_bind. eapply (post_keeps iview); [apply keeps_new_controller|]. intros sb ctl Eb.
  apply post_bind. eapply (post_keeps iview); [apply keeps_with_cc|].
  intros sc [cc1 [|]] Ec; cbn [negb]; [|done]. apply post_bind. eapply (post_keeps iview); [apply keeps_new_vlinks|].
  intros s1 vls Ev. assert (E1 : iview s1 = iview s) by congruence.
  apply post_bind, post_of_out. intros [[types ports]|] _; [|apply post_ret; by eapply int_inv_iview].
  apply post_bind. eapply (post_keeps iview); [apply keeps_new_tenant_lsi|]. intros sd l Ed.
  apply post_bind. eapply (post_keeps iview); [apply keeps_with_cc|].
  intros s2 [cc2 [|]] E2; cbn [negb]; [|eapply post_mono; [apply undo_never|done]].
  assert (E : iview s2 = iview s) by congruence. pose proof (int_inv_iview _ _ E Hinv) as [Hok Hid Hgr _].
  assert (Et : gm_tenants s2 = gm_tenants s) by (by injection E).
  assert (Hno : gm_tenants s2 !! g_id g = None).
  { rewrite Et. unfold has_key in Hnew. apply negb_true_iff, bool_decide_eq_false in Hnew. by apply eq_None_not_Some. }
  apply post_bind. eapply post_mono; [apply handleController_post|]. intros s3 u3 [Et3 H3].
  apply post_bind. eapply post_mono; [apply post_catch; [|apply undo_never]|].
  { apply (handleGraph_post g s3 (fun group => users group (gm_tenants s2))); [done| |].
    - intros group. split; [intros (gi & Hgi & _)%elem_of_users; congruence|].
      pose proof (users_size group (gm_tenants s2)) as Hu. rewrite Et in *. lia.
    - intros group. apply H3, Hok. }
  intros s4 u4 [Et4 H4]. apply post_bind. eapply post_mono; [apply post_catch; [apply install_post|]|].
  { intros s'. apply post_bind. eapply (post_keeps iview); [apply keeps_with_cc|]. intros s'' _ _.
    apply post_bind. unfold post at 1. by destruct (on_sw _ s'') as [? []]. }
  intros s5 u5 (gi & Hg & Et5 & H5). apply post_ret. rewrite Et4, Et3 in Et5. split.
  - intros group. rewrite H5, Et5, users_insert, Hg by done. apply H4.
  - intros gid gi' Hx. rewrite Et5 in Hx. apply lookup_insert_Some in Hx as [[<- <-]|[_ Hx]]; [by rewrite Hg|by apply Hid].
  - intros gid gi' Hx. rewrite Et5 in Hx. apply lookup_insert_Some in Hx as [[<- <-]|[_ Hx]]; [by rewrite Hg|by eapply Hgr].
  - rewrite Et5, map_size_insert_None by done. rewrite Et. lia.
Qed.

Lemma deleteGraph_post gid s :
  int_inv s -> post (deleteGraph garbage gid) (fun s' _ => int_inv s') s.
Proof.
  intros Hinv. unfold deleteGraph. apply post_bind. unfold gets, post at 1. unfold graphExists, has_key.
  destruct (gm_tenants s !! gid) as [gi|] eqn:Egi; [|done]. rewrite bool_decide_eq_true_2 by eauto. cbn [negb].
  apply post_bind. unfold tenant, post at 1. rewrite Egi. cbn [deref]. cbn zeta.
  apply post_bind. unfold gets, post at 1. apply post_bind. unfold gets, post at 1.
  apply post_bind, post_of_out. intros t0 _. apply post_bind. unfold gets, post at 1.
  apply post_bind, post_of_out. intros low0 _. apply post_bind. unfold modify, post at 1.
  apply post_bind. eapply (post_keeps iview); [apply keeps_lsi0_ctl|]. intros s1 u1 E1.
  assert (E1' : iview s1 = iview s) by (rewrite E1; done). clear E1.
  pose proof (int_inv_iview _ _ E1' Hinv) as [Hok Hid Hgr Hsz].
  assert (Egi1 : gm_tenants s1 !! gid = Some gi) by (injection E1' as -> _ _ _ _; done).
  pose proof (Hid gid gi Egi1) as Eid. pose proof (Hgr gid gi Egi1) as Hnd.
  (* the functions are stopped *)
  apply post_bind. unfold on_cc. apply post_bind. unfold tenant, post at 1. rewrite Egi1. cbn [deref].
  apply post_bind. unfold post at 1. destruct (cc_stopAll (gi_cc gi, gm_node s1)) as [[cc n] o].
  apply post_bind. unfold put_tenant, modify, post at 1.
  apply post_of_out. intros _ _. set (gi' := {| gi_graph := gi_graph gi |}).
  set (s2 := set_tenants _ (set_node n s1)). assert (Hok2 : forall group, int_ok (users group (gm_tenants s2)) (iproj group s2)).
  { intros group. cbn. rewrite (users_same group _ gid gi gi') by done. apply Hok. }
  apply post_bind. eapply (post_keeps iview); [apply keeps_catch; [apply keeps_on_sw|apply keeps_throw]|]. intros s3 u3 E3.
  assert (Et3 : gm_tenants s3 = gm_tenants s2) by (by injection E3).
  apply post_bind. unfold tenant, post at 1. rewrite Eid. rewrite Et3. cbn [s2 set_tenants gm_tenants].
  rewrite lookup_insert_eq. cbn [deref]. apply post_bind. unfold modify, post at 1.
  apply post_bind. eapply post_mono; [rewrite <- Eid at 1;
    apply (release_all_post (gi_graph gi) _ (fun group => users group (gm_tenants s2)))|].
  - done.
  - intros group Hg. rewrite Eid. apply elem_of_users. exists gi'. split; [cbn; by rewrite lookup_insert_eq|done].
  - intros group. pose proof (users_size group (gm_tenants s2)) as Hu.
    assert (Hsz2 : size (gm_tenants s2) = size (gm_tenants s1)) by (by apply map_size_insert_Some; eauto).
    cbn in Hu, Hsz2 |- *. lia.
  - intros group. specialize (Hok2 group). destruct (iview_others group s2 s3 E3) as [_ Ep].
    change (int_ok (users group (gm_tenants s2)) (iproj group s3)). by rewrite Ep.
  - intros s4 u4 [Et4 H4]. apply post_ret. cbn [set_tenants gm_tenants] in Et4. rewrite Et3 in Et4. cbn [s2 set_tenants set_node gm_tenants] in Et4. rewrite delete_insert_eq in Et4.
    split.
    + intros group. specialize (H4 group). rewrite Et4, (users_delete group _ gid gi) by done.
      cbn in H4. rewrite (users_same group _ gid gi gi') in H4 by done. by rewrite Eid in H4.
    + intros x y Hx. rewrite Et4 in Hx. apply lookup_delete_Some in Hx as [_ Hx]. by apply Hid.
    + intros x y Hx. rewrite Et4 in Hx. apply lookup_delete_Some in Hx as [_ Hx]. by eapply Hgr.
    + rewrite Et4. pose proof (map_size_delete_Some gid (gm_tenants s1) ltac:(eauto)). lia.
Qed.

(** The states that requests lead to, as long as the handlers return. *)
Inductive served (s0 : GM) : GM -> Prop :=
| served_start : served s0 s0
| served_new s g s' b :
    served s0 s -> NoDup (groups g) -> Z.of_nat (size (gm_tenants s)) + 1 < 4294967295 ->
    newGraph stale garbage no_dpid un_interface g s = (s', Ret b) -> served s0 s'
| served_delete s gid s' b :
    served s0 s -> deleteGraph garbage gid s = (s', Ret b) -> served s0 s'.

Lemma served_inv s0 s : int_inv s0 -> served s0 s -> int_inv s.
Proof.
  intros H0. induction 1 as [|s g s' b _ IH Hnd Hsz E|s gid s' b _ IH E]; [done| |].
  - pose proof (newGraph_post g s IH Hnd Hsz) as H. unfold post in H. by rewrite E in H.
  - pose proof (deleteGraph_post gid s IH) as H. unfold post in H. by rewrite E in H.
Qed.
End internal.
#[export] Hint Resolve keeps_on_sw keeps_counters keeps_new_controller : keeps.

(** C2: internal endpoints are shared correctly. From a state that satisfies
    the invariant, such as the initial one, and through any sequence of graph
    creations and deletions that return, in which no created graph has two
    internal endpoints of the same group ([NoDup (groups g)] in [served]; such
    a graph would count twice and connect once) and fewer than 2^32-1 graphs
    are deployed, the LSI of an internal endpoint exists exactly while some
    deployed graph uses the endpoint; it has one virtual link per graph that
    uses it (README_NF-FG.md:832 speaks of twice the number of uses), the use
    counter is that number (the assertion of [deleteGraph]), and the table of
    connections names exactly those graphs. *)
Theorem internal_endpoints_invariant {SW CC NODE} `{!SwitchOps SW} `{!ComputeOps CC NODE}
    stale garbage no_dpid un_interface (s0 s : GM (SW := SW) (CC := CC) (NODE := NODE)) :
  int_inv s0 -> served stale garbage no_dpid un_interface s0 s ->
  forall group,
    let U := users group (gm_tenants s) in
    (is_created group s = true <-> U <> ∅)
    /\ dom (default ∅ (gm_conns s !! group)) = U
    /\ (is_created group s = true -> exists l ctl,
          gm_internals s !! group = Some {| ii_lsi := Some l; ii_ctl := ctl |}
          /\ Z.of_nat (length (l_vlinks l)) = times_used group s
          /\ times_used group s = Z.of_nat (size U)).
Proof.
  intros H0 Hs group U. pose proof (ii_ok _ (served_inv _ _ _ _ _ _ H0 Hs) group) as Hok. fold U in Hok.
  unfold int_ok, iproj in Hok. destruct (is_created group s).
  - destruct Hok as (l & ctl & m & -> & -> & Hd & Ht & Hl & Hne). split; [done|]. split; [done|]. intros _.
    exists l, ctl. split; [done|]. split; [done|]. rewrite <- Hd, size_dom. done.
  - destruct Hok as [-> HU]. rewrite HU. split; [split; [done|congruence]|]. cbn. by rewrite dom_empty_L.
Qed.

(** Two graphs use the endpoint "7"; then one goes. *)
Definition sample_user (gid : string) : Graph :=
  {| g_id := gid; g_name := ""; g_endpoints := {["7" := true]}; g_rules := []; g_interface := [];
     g_internal := [{| en_id := "i"; en_name := ""; en_group := "7" |}]; g_gre := []; g_vlan := []; g_vnfs := [] |}.
Lemma sample_gm_inv : int_inv sample_gm.
Proof.
  split; [|by intros ?? H; cbn in H; rewrite lookup_empty in H..|done]. intros group. cbn. rewrite lookup_empty. split; [done|].
  unfold users. by rewrite map_filter_empty, dom_empty_L.
Qed.

Definition gm1 : GM := Eval vm_compute in fst (newGraph id false 0 "" (sample_user "a") sample_gm).
Definition gm2 : GM := Eval vm_compute in fst (newGraph id false 0 "" (sample_user "b") gm1).
Definition gm3 : GM := Eval vm_compute in fst (deleteGraph false "a" gm2).
Lemma gm3_served : served id false 0 "" sample_gm gm3.
Proof.
  apply (served_delete _ _ _ _ _ gm2 "a" _ true); [|vm_compute; reflexivity].
  apply (served_new _ _ _ _ _ gm1 (sample_user "b") _ true); [|apply NoDup_singleton|vm_compute; reflexivity..].
  apply (served_new _ _ _ _ _ sample_gm (sample_user "a") _ true); [|apply NoDup_singleton|vm_compute; reflexivity..].
  apply served_start.
Qed.

Lemma internal_endpoints_invariant_witness :
  users "7" (gm_tenants gm3) = {["b"]} /\ is_created "7" gm3 = true.
Proof.
  assert (HU : users "7" (gm_tenants gm3) = {["b"]}) by (vm_compute; reflexivity). split; [exact HU|].
  apply (internal_endpoints_invariant id false 0 "" sample_gm gm3 sample_gm_inv gm3_served "7").
  rewrite HU. apply non_empty_singleton_L.
Defined.
