(* ===== verification/ComputeOk.v ===== *)
(** * Correctness of the compute controller

    Which implementation is selected, which cores a process gets, and what
    becomes of the functions that are stopped. *)

From Stdlib Require Import ZArith Lia String Ascii.
From stdpp Require Import gmap strings numbers base list.
From S2P Require Import Prelude CString Cpp Json Lsi NFManagers ComputeController SwitchSample.

(** ** Selection *)
Section selection.
Context (enabled : nf_t -> bool) (script_path : string).
Context {HOST : Type} `{!Host HOST}.
#[local] Abbreviation state := (CC * node HOST)%type.

(** The host, asked in some state, answered [b]. *)
Definition verdict (d : Description) (b : bool) : Prop :=
  exists n n' : node HOST, mgr_isSupported script_path d n = (n', Ret b).

Definition buildable (c : CC) : Prop :=
  forall nf f d, cc_nfs c !! nf = Some f -> d ∈ nf_descriptions f -> enabled (d_type d) = true.

(** [f'] is [f] with the descriptions that [P] holds of judged by the host. *)
Record judged (P : nat -> Prop) (f f' : NF) : Prop := {
  jd_name : nf_name f' = nf_name f;
  jd_selected : nf_selected f' = nf_selected f;
  jd_running : nf_running f' = nf_running f;
  jd_length : length (nf_descriptions f') = length (nf_descriptions f);
  jd_done i d : P i -> nf_descriptions f !! i = Some d ->
    exists b, verdict d b /\ nf_descriptions f' !! i = Some (setSupported (d_supported d || b) d);
  jd_todo i : ~ P i -> nf_descriptions f' !! i = nf_descriptions f !! i
}.
Lemma setSupported_id d : setSupported (d_supported d) d = d.
Proof. by destruct d. Qed.

Lemma judged_step P i f f' d b :
  judged P f f' -> ~ P i -> nf_descriptions f !! i = Some d -> verdict d b ->
  judged (fun j => P j \/ j = i) f (if b then support i f' else f').
Proof.
  intros [Hn Hs Hr Hl Hd Ht] Hi Ed Hv. pose proof (Ht i Hi) as Ei.
  assert (Hdesc : forall j, nf_descriptions (if b then support i f' else f') !! j
    = if decide (j = i) then Some (setSupported (d_supported d || b) d) else nf_descriptions f' !! j).
  { intros j. destruct b; cbn.
    - rewrite list_lookup_alter. case_decide; case_decide; try congruence; subst.
      rewrite Ei, Ed. cbn. by rewrite orb_true_r.
    - case_decide; [|done]. subst. rewrite Ei, Ed, orb_false_r. by rewrite setSupported_id. }
  split; [by destruct b..| | |].
  - rewrite <- Hl. destruct b; [|done]. cbn. by rewrite length_alter.
  - intros j d' Hj Ej. rewrite Hdesc. case_decide as Hji.
    + subst. exists b. split; [congruence|]. congruence.
    + destruct Hj as [Hj|]; [|done]. by apply Hd.
  - intros j Hj. rewrite Hdesc, decide_False by tauto. apply Ht. tauto.
Qed.
Lemma judged_refl f : judged (fun _ => False) f f.
Proof. split; try done. Qed.
Lemma judged_ext P Q f f' : (forall i, P i <-> Q i) -> judged P f f' -> judged Q f f'.
Proof. intros H [? ? ? ? Hd Ht]. split; try done; intros; [apply Hd|apply Ht]; rewrite ?H; tauto. Qed.

(** The functions of [c], with the visited descriptions judged. *)
Definition checked (c0 : CC) (visited : list (string * nat)) (c : CC) : Prop :=
  forall nf, match cc_nfs c0 !! nf, cc_nfs c !! nf with
             | Some f, Some f' => judged (fun i => (nf, i) ∈ visited) f f'
             | None, None => True
             | _, _ => False
             end.

Lemma wp_host_answer (d : Description) Q E (s : state) :
  (forall n b, verdict d b -> Q (fst s, n) b) -> wp (on_node (mgr_isSupported script_path d)) Q E s.
Proof.
  intros H. destruct s as [c n]. unfold wp, on_node. cbn [fst snd].
  destruct (mgr_isSupported script_path d n) as [n' o] eqn:E0.
  assert (Hr : exists b, o = Ret b).
  { unfold mgr_isSupported in E0. destruct (d_type d).
    - injection E0 as _ <-. eauto.
    - unfold docker_isSupported, run_script, on_host, mbind, prog_bind in E0.
      destruct (host_system _ (n_host n)). injection E0 as _ <-. eauto.
    - unfold on_host in E0. destruct (kvm_isSupported _ (n_host n)). injection E0 as _ <-. eauto.
    - unfold native_isSupported in E0. cbn in E0. destruct (d_details d); injection E0 as _ <-; eauto. }
  destruct Hr as [b ->]. apply H. by exists n, n'.
Qed.
Lemma wp_native_new (d : Description) Q (s : state) :
  (forall n, Q (fst s, n) tt) ->
  wp (if decide (d_type d = NATIVE) then on_node Native_new else mret tt) Q (fun _ e => e = NativeExceptionPtr) s.
Proof.
  intros H. destruct s as [c n]. case_decide; [|apply H]. unfold wp, on_node, Native_new, on_host, mbind, prog_bind, gets. cbn [fst snd].
  destruct (n_capabilities n); [apply H|]. destruct (host_capabilities (n_host n)) as [h [caps|]]; cbn; [apply H|done].
Qed.

Lemma checked_lookup c0 v c nf f i d :
  checked c0 v c -> cc_nfs c0 !! nf = Some f -> nf_descriptions f !! i = Some d -> (nf, i) ∉ v ->
  exists f', cc_nfs c !! nf = Some f' /\ nf_descriptions f' !! i = Some d.
Proof.
  intros Hc Ef Ed Hv. specialize (Hc nf). rewrite Ef in Hc. destruct (cc_nfs c !! nf) as [f'|] eqn:Ef'; [|done].
  exists f'. split; [done|]. by rewrite (jd_todo _ _ _ Hc).
Qed.

Lemma check_description_ok c0 v nf f i d (s : state) :
  buildable c0 -> checked c0 v (fst s) -> cc_nfs c0 !! nf = Some f -> nf_descriptions f !! i = Some d ->
  (nf, i) ∉ v ->
  wp (check_description enabled script_path nf i) (fun s' _ => checked c0 (v ++ [(nf, i)]) (fst s'))
     (fun _ e => e = NativeExceptionPtr) s.
Proof.
  intros Hb Hc Ef Ed Hv. destruct (checked_lookup _ _ _ _ _ _ _ Hc Ef Ed Hv) as (f' & Ef' & Ed').
  unfold check_description. apply prog_wp_bind, wp_gets. apply prog_wp_bind.
  eapply wp_of_out; [rewrite Ef'; cbn; rewrite Ed'; done|].
  rewrite (Hb nf f d) by (done || by eapply list_elem_of_lookup_2). apply prog_wp_bind, wp_native_new. intros n1.
  apply prog_wp_bind, wp_host_answer. intros n2 b Hbv. cbn [fst].
  assert (Hfin : forall m, (forall nf', m !! nf' = (if b then alter (support i) nf (cc_nfs (fst s)) else cc_nfs (fst s)) !! nf') ->
    checked c0 (v ++ [(nf, i)]) {| cc_nfs := m; cc_lsi := cc_lsi (fst s) |}).
  { intros m Hm nf'. cbn [cc_nfs]. rewrite Hm. clear Hm. destruct (decide (nf' = nf)) as [->|Hne].
    - rewrite Ef. assert (Hj : judged (fun j => (nf, j) ∈ v) f f') by (specialize (Hc nf); by rewrite Ef, Ef' in Hc).
      pose proof (judged_step _ i f f' d b Hj Hv Ed Hbv) as Hj'.
      destruct b; rewrite ?lookup_alter_eq, Ef'; cbn; (eapply judged_ext; [|exact Hj']);
        intros j; rewrite elem_of_app, list_elem_of_singleton; cbn; split; intros [?|E]; auto; right; congruence.
    - specialize (Hc nf').
      assert (El : (if b then alter (support i) nf (cc_nfs (fst s)) else cc_nfs (fst s)) !! nf' = cc_nfs (fst s) !! nf')
        by (destruct b; [by rewrite lookup_alter_ne|done]).
      rewrite El. destruct (cc_nfs c0 !! nf'), (cc_nfs (fst s) !! nf'); try done.
      eapply judged_ext; [|exact Hc]. intros j. rewrite elem_of_app, list_elem_of_singleton.
      split; [auto|]. intros [?|E]; [done|congruence]. }
  destruct b; [apply wp_modify; cbn [fst]; by apply Hfin|apply prog_wp_ret; cbn [fst]].
  destruct (fst s) as [m l]; by apply Hfin.
Qed.

Lemma elem_of_pairs (m : gmap string NF) nf i :
  (nf, i) ∈ (map_list m ≫= fun '(nf, f) => pair nf <$> seq 0 (length (nf_descriptions f)))
  <-> exists f, m !! nf = Some f /\ (i < length (nf_descriptions f))%nat.
Proof.
  rewrite list_elem_of_bind. split.
  - intros ([nf' f] & (j & [= -> ->] & Hj)%list_elem_of_fmap & Hin%elem_of_map_list).
    apply elem_of_seq in Hj. exists f. split; [done|lia].
  - intros (f & Ef & Hi). exists (nf, f). split; [|by apply elem_of_map_list].
    apply list_elem_of_fmap. exists i. split; [done|]. apply elem_of_seq. lia.
Qed.
Lemma NoDup_pairs (m : gmap string NF) :
  NoDup (map_list m ≫= fun '(nf, f) => pair nf <$> seq 0 (length (nf_descriptions f))).
Proof.
  apply NoDup_bind; [| |apply NoDup_map_list].
  - intros [nf1 f1] [nf2 f2] [nf i] H1%elem_of_map_list H2%elem_of_map_list
      (? & [= -> _] & _)%list_elem_of_fmap (? & [= -> _] & _)%list_elem_of_fmap. congruence.
  - intros [nf f] _. apply NoDup_fmap_2; [by intros ?? [=]|]. apply NoDup_seq.
Qed.

(** Every description has been judged. *)
Definition all_judged (c0 c : CC) : Prop :=
  cc_lsi c = cc_lsi c0 /\
  forall nf, match cc_nfs c0 !! nf, cc_nfs c !! nf with
             | Some f, Some f' => judged (fun _ => True) f f'
             | None, None => True
             | _, _ => False
             end.

Lemma judged_all f f' : judged (fun i => (i < length (nf_descriptions f))%nat) f f' -> judged (fun _ => True) f f'.
Proof.
  intros [? ? ? ? Hd Ht]. split; try done. intros i d _ E. apply Hd; [|done]. by eapply lookup_lt_Some.
Qed.

Lemma keeps_lsi_check nf i : keeps (fun s : state => cc_lsi (fst s)) (check_description enabled script_path nf i).
Proof.
  assert (Hn : forall A (m : prog (node HOST) A), keeps (fun s : state => cc_lsi (fst s)) (on_node m)).
  { intros A m [c n]. unfold on_node. cbn. by destruct (m n). }
  unfold check_description. apply keeps_bind; [apply keeps_gets|]. intros m. apply keeps_bind; [apply keeps_of_out|].
  intros d. destruct (enabled _); [|apply keeps_ret].
  apply keeps_bind; [case_decide; [apply Hn|apply keeps_ret]|]. intros _.
  apply keeps_bind; [apply Hn|]. intros [|]; [|apply keeps_ret]. by apply keeps_modify.
Qed.

Lemma checkSupportedDescriptions_ok (s : state) :
  buildable (fst s) ->
  wp (checkSupportedDescriptions enabled script_path) (fun s' _ => all_judged (fst s) (fst s'))
     (fun _ e => e = NativeExceptionPtr) s.
Proof.
  intros Hb. unfold checkSupportedDescriptions. apply prog_wp_bind, wp_gets. set (c0 := fst s).
  eapply prog_wp_mono; [apply (wp_for_each _ (fun v s' => checked c0 v (fst s') /\ cc_lsi (fst s') = cc_lsi c0) (fun _ e => e = NativeExceptionPtr))| |done].
  - split; [|done]. intros nf. fold c0. destruct (cc_nfs c0 !! nf); [|done]. eapply judged_ext; [|apply judged_refl].
    intros i. split; [done|]. by intros ?%not_elem_of_nil.
  - intros l1 [nf i] l2 s' El [Hc Hl].
    assert (Hin : (nf, i) ∈ (map_list (cc_nfs c0) ≫= fun '(nf, f) => pair nf <$> seq 0 (length (nf_descriptions f))))
      by (rewrite El; apply elem_of_app; right; left).
    apply elem_of_pairs in Hin as (f & Ef & Hi). apply lookup_lt_is_Some in Hi as [d Ed].
    pose proof (NoDup_pairs (cc_nfs c0)) as Hnd. rewrite El in Hnd.
    apply NoDup_app in Hnd as (_ & Hnd & _). assert (Hv : (nf, i) ∉ l1) by (intros H; apply (Hnd _ H); left).
    pose proof (check_description_ok c0 l1 nf f i d s' Hb Hc Ef Ed Hv) as Hw.
    pose proof (keeps_lsi_check nf i s') as Hk. unfold wp in *.
    destruct (check_description _ _ nf i s') as [s'' [a|e|]]; [|done|done]. cbn in Hk. split; [done|congruence].
  - intros s' _ [Hc Hl]. split; [done|]. intros nf. specialize (Hc nf). destruct (cc_nfs c0 !! nf) as [f|] eqn:Ef; [|done].
    destruct (cc_nfs (fst s') !! nf) as [f'|]; [|done]. apply judged_all. eapply judged_ext; [|exact Hc].
    intros i. rewrite elem_of_pairs. split; [intros (? & ? & ?); congruence|eauto].
Qed.

(** The implementation a function gets: the one it has, or the first one the
    host supports. *)
Definition chosen (f : NF) : option Description :=
  match nf_selected f with Some d => Some d | None => find_first d_supported (nf_descriptions f) end.
Definition select (f : NF) : NF :=
  match nf_selected f, chosen f with None, Some d => setSelectedDescription d f | _, _ => f end.

Lemma selectNF_ok ds (s : state) Q :
  (forall d, d ∈ ds -> enabled (d_type d) = true) ->
  (forall n, Q (fst s, n) (find_first d_supported ds)) ->
  wp (selectNFImplementation enabled ds) Q (fun _ e => e = NativeExceptionPtr) s.
Proof.
  induction ds as [|d ds IH]; intros Hb HQ; cbn [selectNFImplementation].
  - apply prog_wp_ret. destruct s as [c n]. apply HQ.
  - rewrite find_first_cons in HQ. destruct (d_supported d) eqn:Ed.
    + rewrite Hb by left. apply prog_wp_bind, wp_native_new. intros n. apply prog_wp_ret, HQ.
    + apply IH; [|done]. intros d' Hd. apply Hb. by right.
Qed.

Lemma select_each_ok l (s : state) :
  buildable (fst s) -> NoDup l -> (forall nf, nf ∈ l -> is_Some (cc_nfs (fst s) !! nf)) ->
  wp (select_each enabled l)
     (fun s' b => (b = true <-> forall nf f, nf ∈ l -> cc_nfs (fst s) !! nf = Some f -> is_Some (chosen f))
        /\ cc_lsi (fst s') = cc_lsi (fst s)
        /\ (b = true -> forall nf, cc_nfs (fst s') !! nf
              = if decide (nf ∈ l) then select <$> cc_nfs (fst s) !! nf else cc_nfs (fst s) !! nf))
     (fun _ e => e = NativeExceptionPtr) s.
Proof.
  revert s. induction l as [|nf l IH]; intros s Hb Hnd Hin; cbn [select_each].
  - apply prog_wp_ret. split; [split; [intros _ ?? ?%not_elem_of_nil; done|done]|]. split; [done|]. intros _ nf.
    rewrite decide_False by apply not_elem_of_nil. done.
  - apply NoDup_cons in Hnd as [Hnf Hnd]. destruct (Hin nf) as [f Ef]; [by left|].
    apply prog_wp_bind, wp_gets, prog_wp_bind. eapply wp_of_out; [by rewrite Ef|].
    assert (Hskip : forall (m' : gmap string NF) (b : bool), (b = true <-> forall nf' f', nf' ∈ l -> m' !! nf' = Some f' -> is_Some (chosen f')) ->
      (forall nf', nf' ∈ l -> m' !! nf' = cc_nfs (fst s) !! nf') -> is_Some (chosen f) ->
      (b = true <-> forall nf' f', nf' ∈ nf :: l -> cc_nfs (fst s) !! nf' = Some f' -> is_Some (chosen f'))).
    { intros m' b Hbm Hm Hch. rewrite Hbm. split.
      - intros H nf' f' [->|Hx]%elem_of_cons E; [congruence|]. eapply H; [done|]. by rewrite Hm.
      - intros H nf' f' Hx E. eapply H; [by right|]. by rewrite <- Hm. }
    destruct (nf_selected f) as [d|] eqn:Esel.
    + eapply prog_wp_mono; [apply IH; [done|done|]| |done]; [intros; apply Hin; by right|].
      intros s' b (H1 & H2 & H3). split; [|split; [done|]].
      * apply (Hskip (cc_nfs (fst s))); [done|done|]. unfold chosen. rewrite Esel. eauto.
      * intros Hbt nf'. rewrite (H3 Hbt). destruct (decide (nf' = nf)) as [->|Hne].
        -- rewrite decide_False by done. rewrite decide_True by left. rewrite Ef. cbn. unfold select. by rewrite Esel.
        -- destruct (decide (nf' ∈ l)); [by rewrite decide_True by (by right)|].
           rewrite decide_False; [done|]. intros [?|?]%elem_of_cons; done.
    + apply prog_wp_bind, selectNF_ok; [intros d; by eapply Hb|]. intros n.
      destruct (find_first d_supported (nf_descriptions f)) as [d|] eqn:Ech.
      2:{ apply prog_wp_ret. split; [|done]. split; [done|]. intros H. destruct (H nf f) as [d Hd]; [left|done|].
          unfold chosen in Hd. rewrite Esel, Ech in Hd. done. }
      apply prog_wp_bind, wp_modify. cbn [fst snd].
      set (c' := {| cc_nfs := alter (setSelectedDescription d) nf (cc_nfs (fst s)); cc_lsi := cc_lsi (fst s) |}).
      assert (Hne : forall nf', nf' <> nf -> cc_nfs c' !! nf' = cc_nfs (fst s) !! nf') by (intros; by apply lookup_alter_ne).
      assert (Hl : forall nf', nf' ∈ l -> nf' <> nf) by (intros ? ? ->; done).
      eapply prog_wp_mono; [apply (IH (c', n))| |done]; [|done| |].
      * intros nf' f' d' Hf' Hd'. cbn [fst c' cc_nfs] in Hf'. rewrite lookup_alter in Hf'. case_decide as Hx.
        -- subst nf'. rewrite Ef in Hf'. injection Hf' as <-. by eapply (Hb nf f).
        -- by eapply Hb.
      * intros nf' Hx. cbn [fst]. rewrite Hne by auto. apply Hin. by right.
      * intros s' b (H1 & H2 & H3). cbn [fst] in H1, H2, H3. split; [|split; [done|]].
        -- apply (Hskip (cc_nfs c')); [done|auto|].
           unfold chosen. rewrite Esel, Ech. eauto.
        -- intros Hbt nf'. rewrite (H3 Hbt). destruct (decide (nf' = nf)) as [->|Hx].
           ++ rewrite decide_False by done. rewrite decide_True by left. cbn [c' cc_nfs]. rewrite lookup_alter_eq, Ef.
              cbn. unfold select, chosen. by rewrite Esel, Ech.
           ++ rewrite Hne by done. destruct (decide (nf' ∈ l)); [by rewrite decide_True by (by right)|].
              rewrite decide_False; [done|]. intros [?|?]%elem_of_cons; done.
Qed.
End selection.

Lemma select_selected f d : chosen f = Some d -> nf_selected (select f) = Some d.
Proof. unfold select, chosen. by destruct (nf_selected f) eqn:E; [rewrite E|intros ->]. Qed.

(** C36: an implementation is selected for every function that has one the
    host supports, and it is the first such description; a function that
    already has an implementation keeps it. When the orchestrator is built
    with every type the descriptions have ([buildable]),
    [selectImplementation] never trips an assert; it judges every description,
    returns true exactly when every function then has a choice, and in that
    case the type and the description of each function are those of its
    choice. The only exception is the one of the native capabilities file. *)
Theorem implementations_selected {HOST} `{!Host HOST} enabled script_path (c : CC) (n : node HOST) :
  buildable enabled c ->
  wp (selectImplementation enabled script_path)
     (fun s' b => exists c1, all_judged script_path c c1
        /\ (b = true <-> forall nf f, cc_nfs c1 !! nf = Some f -> is_Some (chosen f))
        /\ (b = true -> cc_nfs (fst s') = select <$> cc_nfs c1
              /\ forall nf f, cc_nfs c1 !! nf = Some f -> exists d, chosen f = Some d
                   /\ getNFType nf (fst s') = Ret (d_type d)
                   /\ getNFSelectedImplementation nf (fst s') = Some d))
     (fun _ e => e = NativeExceptionPtr) (c, n).
Proof.
  intros Hb. unfold selectImplementation. apply prog_wp_bind.
  eapply prog_wp_mono; [by apply checkSupportedDescriptions_ok| |done]. intros s1 u Hj. cbn [fst] in Hj.
  assert (Hb1 : buildable enabled (fst s1)).
  { intros nf f' d Ef' Hd. destruct Hj as [_ Hj]. specialize (Hj nf). rewrite Ef' in Hj.
    destruct (cc_nfs c !! nf) as [f|] eqn:Ef; [|done]. apply list_elem_of_lookup in Hd as [i Ei].
    destruct (lookup_lt_is_Some_2 (nf_descriptions f) i) as [d0 E0].
    { rewrite <- (jd_length _ _ _ _ Hj). by eapply lookup_lt_Some. }
    destruct (jd_done _ _ _ _ Hj i d0 I E0) as (b & _ & E). assert (d = setSupported (d_supported d0 || b) d0) by congruence.
    subst d. apply (Hb nf f d0 Ef). by eapply list_elem_of_lookup_2. }
  apply prog_wp_bind, wp_gets, prog_wp_bind. rewrite fst_map_list.
  eapply prog_wp_mono; [apply select_each_ok| |done]; [done|apply NoDup_set_list| |].
  { intros nf. by rewrite elem_of_set_list, elem_of_dom. }
  intros s2 b (H1 & _ & H3).
  assert (Hall : b = true <-> forall nf f, cc_nfs (fst s1) !! nf = Some f -> is_Some (chosen f)).
  { rewrite H1. split; intros H nf f; [|eauto]. intros E. apply (H nf f); [|done].
    rewrite elem_of_set_list, elem_of_dom. eauto. }
  assert (Hmap : b = true -> cc_nfs (fst s2) = select <$> cc_nfs (fst s1)).
  { intros Hbt. apply map_eq. intros nf. rewrite (H3 Hbt), lookup_fmap. case_decide as Hd; [done|].
    rewrite elem_of_set_list, not_elem_of_dom in Hd. by rewrite Hd. }
  assert (Hget : b = true -> forall nf f, cc_nfs (fst s1) !! nf = Some f -> exists d, chosen f = Some d
    /\ getNFType nf (fst s2) = Ret (d_type d) /\ getNFSelectedImplementation nf (fst s2) = Some d).
  { intros Hbt nf f Ef. destruct (proj1 Hall Hbt nf f Ef) as [d Hd]. exists d. split; [done|].
    unfold getNFType, getNFSelectedImplementation. rewrite (Hmap Hbt), lookup_fmap, Ef. cbn.
    by rewrite (select_selected f d Hd). }
  destruct b; cbn [negb].
  2:{ apply prog_wp_ret. exists (fst s1). split; [done|]. split; [done|]. done. }
  apply prog_wp_bind, wp_gets, prog_wp_ret. exists (fst s1). split; [done|].
  assert (Et : allSelected (cc_nfs (fst s2)) = true).
  { unfold allSelected. apply forallb_forall. intros [nf f2] Hin%list_elem_of_In%elem_of_map_list.
    rewrite (Hmap eq_refl), lookup_fmap in Hin. destruct (cc_nfs (fst s1) !! nf) as [f|] eqn:Ef; [|done].
    injection Hin as <-. destruct (proj1 Hall eq_refl nf f Ef) as [d Hd]. unfold is_selected.
    rewrite (select_selected f d Hd). by rewrite bool_decide_eq_true_2 by eauto. }
  rewrite Et. split; [done|]. auto.
Qed.

(** A virtual machine the host cannot run, and a container it can. *)
Definition sample_vm : Description :=
  {| d_type := KVM; d_uri := "vm"; d_supported := false; d_ports := {[1 := VHOST_PORT]}; d_details := PlainDetails |}.
Definition sample_container : Description :=
  {| d_type := DOCKER; d_uri := "image"; d_supported := false; d_ports := {[1 := VETH_PORT]}; d_details := PlainDetails |}.
Definition sample_cc : CC := {| cc_nfs := {["fw" := NF_new "firewall" [sample_vm; sample_container]]}; cc_lsi := 3 |}.
Definition sample_node : node Z := {| n_host := 0; n_cores := ∅; n_nextCore := 0; n_capabilities := None |}.

Definition sample_selected : CC * node Z :=
  Eval vm_compute in fst (selectImplementation (fun _ => true) "" (sample_cc, sample_node)).

Lemma implementations_selected_witness :
  exists c1 f d, cc_nfs c1 !! "fw" = Some f /\ chosen f = Some d
    /\ getNFSelectedImplementation "fw" (fst sample_selected) = Some d /\ d_type d = DOCKER.
Proof.
  assert (Hb : buildable (fun _ => true) sample_cc) by done.
  pose proof (implementations_selected (fun _ => true) "" sample_cc sample_node Hb) as Hw. unfold wp in Hw.
  replace (selectImplementation (fun _ => true) "" (sample_cc, sample_node)) with (sample_selected, Ret true : out bool) in Hw
    by (vm_compute; reflexivity).
  destruct Hw as (c1 & _ & _ & Hw). destruct (Hw eq_refl) as [Hmap Hget].
  destruct (cc_nfs c1 !! "fw") as [f|] eqn:Ef.
  - destruct (Hget "fw" f Ef) as (d & Hd & Ht & Hs). exists c1, f, d. repeat split; try done.
    assert (E : Some DOCKER = Some (d_type d)); [|congruence]. rewrite <- (f_equal (option_map d_type) Hs : _ = Some (d_type d)).
    vm_compute. reflexivity.
  - exfalso. assert (E : cc_nfs (fst sample_selected) !! "fw" = None) by (by rewrite Hmap, lookup_fmap, Ef).
    vm_compute in E. discriminate E.
Defined.

(** ** Cores *)
Section cores.
Context {HOST : Type} `{!Host HOST}.
Implicit Types n : node HOST.

(** The cores of a mask, in the order of their numbers. *)
Definition core_list (core_mask : Z) : list Z := filter (fun i => Z.testbit core_mask i = true) (seqZ 0 64).
Record cores_ok (core_mask : Z) n : Prop := {
  co_cores : n_cores n = map_seqZ 0 (Z.shiftl 1 <$> core_list core_mask);
  co_next : 0 <= n_nextCore n < Z.of_nat (length (core_list core_mask))
}.

Lemma elem_of_core_list core_mask i : i ∈ core_list core_mask <-> 0 <= i < 64 /\ Z.testbit core_mask i = true.
Proof. unfold core_list. rewrite list_elem_of_filter, elem_of_seqZ. intuition lia. Qed.
Lemma NoDup_core_list core_mask : NoDup (core_list core_mask).
Proof. apply NoDup_filter, NoDup_seqZ. Qed.

Lemma size_map_seqZ {A} (l : list A) : size (map_seqZ 0 l : gmap Z A) = length l.
Proof.
  induction l as [|x l IH] using rev_ind; [done|]. rewrite map_seqZ_snoc, map_size_insert_None, IH.
  - rewrite length_app. cbn. lia.
  - apply lookup_map_seqZ_None. lia.
Qed.

Lemma setCoreMask_ok core_mask n :
  n_cores n = ∅ -> n_nextCore n = 0 -> core_list core_mask <> [] -> cores_ok core_mask (setCoreMask core_mask n)
  /\ n_nextCore (setCoreMask core_mask n) = 0.
Proof.
  intros E0 E1 Hne. unfold setCoreMask. rewrite E0, E1.
  assert (H : forall l L0 : list Z,
    foldl (fun '(c, next) i => if Z.testbit core_mask i then (<[next := Z.shiftl 1 i]> c, next + 1) else (c, next))
      (map_seqZ (M := gmap Z Z) 0 (Z.shiftl 1 <$> L0), Z.of_nat (length L0)) l
    = (map_seqZ 0 (Z.shiftl 1 <$> (L0 ++ filter (fun i => Z.testbit core_mask i = true) l)),
       Z.of_nat (length (L0 ++ filter (fun i => Z.testbit core_mask i = true) l)))).
  { induction l as [|i l IH]; intros L0; cbn [foldl]; [by rewrite filter_nil, app_nil_r|].
    rewrite filter_cons. destruct (Z.testbit core_mask i); cbn [decide].
    - rewrite decide_True by done. replace (L0 ++ i :: filter (fun i => Z.testbit core_mask i = true) l)
        with ((L0 ++ [i]) ++ filter (fun i => Z.testbit core_mask i = true) l) by (by rewrite <- app_assoc).
      rewrite <- IH. rewrite fmap_app. cbn. rewrite map_seqZ_snoc, length_fmap, length_app. cbn.
      repeat f_equal; lia.
    - rewrite decide_False by done. apply IH. }
  specialize (H (seqZ 0 64) []). cbn [fmap list_fmap app length] in H. change (Z.of_nat 0) with 0 in H.
  change (map_seqZ (M := gmap Z Z) 0 []) with (∅ : gmap Z Z) in H. rewrite H. fold (core_list core_mask). split; [|done].
  split; [done|]. cbn [set_cores n_nextCore]. destruct (core_list core_mask); [done|]. cbn. lia.
Qed.

Lemma take_core_ok core_mask n m i :
  cores_ok core_mask n -> core_list core_mask !! Z.to_nat (n_nextCore n) = Some i ->
  exists n', take_core (n, m) = (n', Z.lor m (Z.shiftl 1 i)) /\ cores_ok core_mask n'
    /\ n_nextCore n' = (n_nextCore n + 1) mod Z.of_nat (length (core_list core_mask)).
Proof.
  intros [Ec Hn] Ei. unfold take_core.
  assert (El : n_cores n !! n_nextCore n = Some (Z.shiftl 1 i)).
  { rewrite Ec. apply lookup_map_seqZ_Some. split; [lia|]. rewrite Z.sub_0_r, list_lookup_fmap, Ei. done. }
  rewrite El. cbn [default]. rewrite insert_id by done.
  assert (Es : size (n_cores n) = length (core_list core_mask)) by (by rewrite Ec, size_map_seqZ, length_fmap).
  eexists. split; [done|]. rewrite Es. split; [|done]. split; [done|]. cbn [set_cores n_nextCore]. apply Z.mod_pos_bound. lia.
Qed.

(** The cores of [k] requests from position [next] on. *)
Definition given (core_mask next k i : Z) : Prop :=
  exists j, next <= j < next + k
    /\ core_list core_mask !! Z.to_nat (j mod Z.of_nat (length (core_list core_mask))) = Some i.

Lemma take_cores_ok core_mask k n :
  cores_ok core_mask n ->
  exists n' m, Nat.iter k take_core (n, 0) = (n', m) /\ cores_ok core_mask n'
    /\ n_nextCore n' = (n_nextCore n + Z.of_nat k) mod Z.of_nat (length (core_list core_mask))
    /\ forall i, Z.testbit m i = true <-> given core_mask (n_nextCore n) (Z.of_nat k) i.
Proof.
  intros Hok. pose proof (co_next _ _ Hok) as Hn. induction k as [|k IH].
  - exists n, 0. split; [done|]. split; [done|]. split; [rewrite Z.add_0_r, Z.mod_small; lia|].
    intros i. rewrite Z.testbit_0_l. split; [done|]. intros (j & Hj & _). lia.
  - destruct IH as (n1 & m & E & Hok1 & Hn1 & Hm). cbn [Nat.iter nat_rect]. unfold Nat.iter in E. rewrite E.
    set (L := Z.of_nat (length (core_list core_mask))) in *.
    assert (Hb : 0 <= (n_nextCore n + Z.of_nat k) mod L < L) by (apply Z.mod_pos_bound; lia).
    destruct (lookup_lt_is_Some_2 (core_list core_mask) (Z.to_nat (n_nextCore n1))) as [c Hc]; [rewrite Hn1; lia|].
    destruct (take_core_ok core_mask n1 m c Hok1 Hc) as (n2 & -> & Hok2 & Hn2). exists n2. eexists.
    split; [done|]. split; [done|]. split.
    + rewrite Hn2, Hn1. fold L. rewrite Zplus_mod_idemp_l. f_equal. lia.
    + intros i. rewrite Z.lor_spec, orb_true_iff, Hm. rewrite Hn1 in Hc.
      assert (Hin : c ∈ core_list core_mask) by (by eapply list_elem_of_lookup_2).
      apply elem_of_core_list in Hin as [Hc0 _]. rewrite Z.shiftl_1_l, Z.pow2_bits_eqb by lia. split.
      * intros [(j & Hj & Ej)|Hi%Z.eqb_eq].
        -- exists j. split; [lia|done].
        -- subst i. exists (n_nextCore n + Z.of_nat k). split; [lia|done].
      * intros (j & Hj & Ej). destruct (decide (j = n_nextCore n + Z.of_nat k)) as [->|Hne].
        -- right. apply Z.eqb_eq. fold L in Ej. congruence.
        -- left. exists j. split; [lia|done].
Qed.
End cores.

Lemma prog_mapM_cons {S A B} (f : A -> prog S B) x l s s1 b s2 bs :
  f x s = (s1, Ret b) -> mapM (M := prog S) f l s1 = (s2, Ret bs) -> mapM (M := prog S) f (x :: l) s = (s2, Ret (b :: bs)).
Proof. intros E1 E2. cbn [mapM]. unfold mbind at 1, prog_bind at 1. rewrite E1. unfold mbind at 1, prog_bind at 1. by rewrite E2. Qed.

(** The requests of several processes, one after the other. *)
Definition total (requests : list (string * Z)) : Z := foldr Z.add 0 (snd <$> requests).
Lemma core_masks_ok {HOST} `{!Host HOST} core_mask (requests : list (string * Z)) (n : node HOST) :
  Forall (fun '(s, k) => sscanf_d s = Some k /\ 0 <= k) requests -> cores_ok core_mask n ->
  exists n' masks, mapM (M := prog (node HOST)) calculateCoreMask (fst <$> requests) n = (n', Ret masks)
    /\ length masks = length requests /\ cores_ok core_mask n'
    /\ forall r m k, masks !! r = Some m -> snd <$> requests !! r = Some k -> forall i, Z.testbit m i = true
         <-> given core_mask (n_nextCore n + total (take r requests)) k i.
Proof.
  intros Hr. revert n. induction Hr as [|[s k] rs [Hs Hk] Hr IH]; intros n Hok.
  - exists n, []. repeat split; try done; try apply Hok.
  - destruct (take_cores_ok core_mask (Z.to_nat k) n Hok) as (n1 & m & E & Hok1 & Hn1 & Hm).
    destruct (IH n1 Hok1) as (n2 & ms & E2 & Hl & Hok2 & Hms).
    assert (Hne : s <> "") by (intros ->; discriminate Hs).
    exists n2, (m :: ms). split; [|split; [cbn; by rewrite Hl|split; [done|]]].
    + apply (prog_mapM_cons _ _ _ _ n1); [|done]. unfold calculateCoreMask. cbn [fst].
      by rewrite bool_decide_eq_false_2, Hs, E by done.
    + intros [|r] m' k' Em Ek i; cbn in Em, Ek.
      * injection Em as <-. injection Ek as <-. rewrite Hm, Z2Nat.id by done. cbn. by rewrite Z.add_0_r.
      * rewrite (Hms r m' k' Em Ek). unfold total. cbn [take fmap list_fmap foldr snd]. rewrite Hn1, Z2Nat.id by done.
        set (L := Z.of_nat (length (core_list core_mask))). set (t := foldr Z.add 0 _).
        assert (HL : 0 < L) by (pose proof (co_next _ _ Hok); lia).
        unfold given. fold L. assert (Hmod : exists q, n_nextCore n + (k + t) = q * L + ((n_nextCore n + k) mod L + t)).
        { exists ((n_nextCore n + k) / L). pose proof (Z.div_mod (n_nextCore n + k) L). lia. }
        destruct Hmod as [q Hq]. split; intros (j & Hj & Ej).
        -- exists (j + q * L). split; [lia|]. by rewrite Z_mod_plus_full.
        -- exists (j + (-q) * L). split; [lia|]. by rewrite Z_mod_plus_full.
Qed.

Lemma total_nonneg rs : Forall (fun '(s, k) => sscanf_d s = Some k /\ 0 <= k) rs -> 0 <= total rs.
Proof. unfold total. induction 1 as [|[s k] rs [_ Hk] _ IH]; cbn in *; lia. Qed.
Lemma total_take rs r s k :
  Forall (fun '(s, k) => sscanf_d s = Some k /\ 0 <= k) rs -> rs !! r = Some (s, k) ->
  0 <= total (take r rs) /\ total (take r rs) + k = total (take (S r) rs) /\ total (take (S r) rs) <= total rs.
Proof.
  unfold total. intros H. revert r. induction H as [|[s' k'] rs [_ Hk] Hr IH]; intros [|r]; cbn; try done.
  - intros [= -> ->]. rewrite take_0. cbn. pose proof (total_nonneg rs Hr). unfold total in *. lia.
  - intros E. destruct (IH r E) as (? & E2 & ?). cbn in *. lia.
Qed.
Lemma total_take_le rs r1 r2 :
  Forall (fun '(s, k) => sscanf_d s = Some k /\ 0 <= k) rs -> (r1 <= r2)%nat -> total (take r1 rs) <= total (take r2 rs).
Proof.
  intros H. revert r1 r2. induction H as [|[s k] rs [_ Hk] Hr IH]; intros [|r1] [|r2] Hle; cbn; try lia.
  - pose proof (total_nonneg (take r2 rs) (Forall_take _ r2 _ Hr)). unfold total in *. cbn. lia.
  - specialize (IH r1 r2 ltac:(lia)). unfold total in *. cbn. lia.
Qed.
Lemma land_sub m core_mask : (forall i, Z.testbit m i = true -> Z.testbit core_mask i = true) -> Z.land m core_mask = m.
Proof.
  intros H. apply Z.bits_inj'. intros i _. rewrite Z.land_spec. specialize (H i).
  destruct (Z.testbit m i); [by rewrite H|done].
Qed.

(** processes that need cores get them in turn.  With the cores of a mask,
    the requests made one after the other (the allocator holds a mutex) are
    served from successive positions of the list of cores, wrapping around;
    no process gets a core outside the mask, and as long as no more cores are
    asked for than there are, no core is given twice. *)
Theorem cores_round_robin {HOST} `{!Host HOST} core_mask (requests : list (string * Z)) (n : node HOST) :
  n_cores n = ∅ -> n_nextCore n = 0 -> core_list core_mask <> [] ->
  Forall (fun '(s, k) => sscanf_d s = Some k /\ 0 <= k) requests ->
  exists n' masks,
    mapM (M := prog (node HOST)) calculateCoreMask (fst <$> requests) (setCoreMask core_mask n) = (n', Ret masks)
    /\ length masks = length requests
    /\ (forall r m k, masks !! r = Some m -> snd <$> requests !! r = Some k ->
          Z.land m core_mask = m
          /\ forall i, Z.testbit m i = true <-> given core_mask (total (take r requests)) k i)
    /\ (total requests <= Z.of_nat (length (core_list core_mask)) ->
          forall r1 r2 m1 m2, masks !! r1 = Some m1 -> masks !! r2 = Some m2 -> r1 <> r2 -> Z.land m1 m2 = 0).
Proof.
  intros E0 E1 Hne Hr. destruct (setCoreMask_ok core_mask n E0 E1 Hne) as [Hok Hnext].
  destruct (core_masks_ok core_mask requests _ Hr Hok) as (n' & ms & E & Hl & _ & Hms). rewrite Hnext in Hms.
  exists n', ms. split; [done|]. split; [done|]. cbn in Hms. split.
  - intros r m k Em Ek. split; [|by apply Hms]. apply land_sub. intros i Hi.
    apply (Hms r m k Em Ek) in Hi as (j & _ & Hj). apply list_elem_of_lookup_2, elem_of_core_list in Hj. tauto.
  - intros Htot r1 r2 m1 m2 Em1 Em2 Hne'. apply Z.bits_inj'. intros i _. rewrite Z.land_spec, Z.testbit_0_l.
    destruct (Z.testbit m1 i) eqn:B1; [|done]. destruct (Z.testbit m2 i) eqn:B2; [|done]. exfalso.
    destruct (lookup_lt_is_Some_2 requests r1) as [[s1 k1] R1]; [rewrite <- Hl; by eapply lookup_lt_Some|].
    destruct (lookup_lt_is_Some_2 requests r2) as [[s2 k2] R2]; [rewrite <- Hl; by eapply lookup_lt_Some|].
    apply (Hms r1 m1 k1) in B1 as (j1 & Hj1 & Ej1); [|done|by rewrite R1].
    apply (Hms r2 m2 k2) in B2 as (j2 & Hj2 & Ej2); [|done|by rewrite R2].
    destruct (total_take requests r1 s1 k1 Hr R1) as (? & T1 & ?), (total_take requests r2 s2 k2 Hr R2) as (? & T2 & ?).
    rewrite Z.mod_small in Ej1, Ej2 by lia.
    pose proof (NoDup_lookup _ _ _ _ (NoDup_core_list core_mask) Ej1 Ej2).
    destruct (Nat.lt_trichotomy r1 r2) as [Hlt|[?|Hlt]]; [|done|];
      [pose proof (total_take_le requests (S r1) r2 Hr Hlt)|pose proof (total_take_le requests (S r2) r1 Hr Hlt)]; lia.
Qed.

(** Cores 1, 3 and 4; a process with two cores and one with one. *)
Lemma cores_round_robin_witness :
  exists n m1 m2, mapM (M := prog (node Z)) calculateCoreMask ["2"; "1"] (setCoreMask 26 sample_node) = (n, Ret [m1; m2])
    /\ Z.land m1 m2 = 0.
Proof.
  destruct (cores_round_robin 26 [("2", 2); ("1", 1)] sample_node) as (n & ms & E & Hl & _ & Hd);
    [done|done|by vm_compute|repeat constructor; vm_compute; done|].
  destruct ms as [|m1 [|m2 [|]]]; try discriminate Hl. exists n, m1, m2. split; [exact E|].
  apply (Hd ltac:(vm_compute; discriminate) 0%nat 1%nat); done.
Defined.

(** ** Stopping *)

Lemma wp_stop_answer {HOST} `{!Host HOST} script_path d lsi nf Q E (s : CC * node HOST) :
  (forall n b, Q (fst s, n) b) -> wp (on_node (mgr_stopNF script_path d lsi nf)) Q E s.
Proof.
  intros H. destruct s as [c n]. unfold wp, on_node. cbn [fst snd].
  unfold mgr_stopNF, dpdk_stopNF, docker_stopNF, native_stopNF, run_script, on_host, mbind, prog_bind.
  destruct (d_type d); [| |destruct (kvm_stopNF lsi nf (n_host n)); apply H|];
    destruct (host_system _ (n_host n)); apply H.
Qed.
Lemma stopNF_ok {HOST} `{!Host HOST} script_path nf f d (s : CC * node HOST) :
  cc_nfs (fst s) !! nf = Some f -> nf_selected f = Some d ->
  wp (stopNF script_path nf)
     (fun s' b => cc_nfs (fst s') = if b : bool then delete nf (cc_nfs (fst s)) else cc_nfs (fst s)) (fun _ _ => False) s.
Proof.
  intros Ef Ed. unfold stopNF. apply prog_wp_bind, wp_gets. rewrite Ef, bool_decide_eq_false_2 by done.
  apply prog_wp_bind. unfold manager. apply prog_wp_bind, wp_gets. eapply wp_of_out; [rewrite Ef; cbn; rewrite Ed; done|].
  apply prog_wp_bind, wp_gets. apply prog_wp_bind, wp_stop_answer. intros n [|]; cbn [negb]; [|by apply prog_wp_ret].
  apply prog_wp_bind, wp_modify. by apply prog_wp_ret.
Qed.

(** [stopAll] cannot stop the functions of a graph.  When every function
    has an implementation, it comes back only if none could be stopped; as soon
    as one is, its entry is erased under the iterator of the loop: that
    function alone has been stopped and the next step is undefined. *)
Theorem stopAll_undefined {HOST} `{!Host HOST} script_path (c : CC) (n : node HOST) :
  (forall nf f, cc_nfs c !! nf = Some f -> is_Some (nf_selected f)) ->
  match stopAll script_path (c, n) with
  | (s, Ret _) => cc_nfs (fst s) = cc_nfs c
  | (s, Halt e) => e = Undef /\ exists nf, is_Some (cc_nfs c !! nf) /\ cc_nfs (fst s) = delete nf (cc_nfs c)
  | (_, Throw _) => False
  end.
Proof.
  intros Hsel. unfold stopAll, mbind at 1, prog_bind at 1, nfs, gets. cbn [fst].
  assert (Hl : forall nf, nf ∈ (map_list (cc_nfs c)).*1 -> is_Some (cc_nfs c !! nf)).
  { intros nf. rewrite fst_map_list, elem_of_set_list, elem_of_dom. done. }
  revert Hl. generalize (map_list (cc_nfs c)).*1 as l. intros l.
  assert (Ec : cc_nfs (fst (c, n)) = cc_nfs c) by done. revert Ec. generalize (c, n) as s.
  induction l as [|nf l IH]; intros s Ec Hl; [done|]. cbn [stop_each].
  destruct (Hl nf) as [f Ef]; [by left|]. destruct (Hsel nf f Ef) as [d Ed].
  pose proof (stopNF_ok script_path nf f d s) as Hw. rewrite Ec in Hw. specialize (Hw Ef Ed). unfold wp in Hw.
  unfold mbind, prog_bind. destruct (stopNF script_path nf s) as [s1 [b| |]]; [|done|done].
  destruct b; [split; [done|]; exists nf; split; [eauto|done]|]. apply IH; [done|]. intros. apply Hl. by right.
Qed.

Lemma stopAll_undefined_witness :
  exists s, stopAll "" sample_selected = (s, Halt Undef : out unit)
    /\ exists nf, is_Some (cc_nfs (fst sample_selected) !! nf) /\ cc_nfs (fst s) = delete nf (cc_nfs (fst sample_selected)).
Proof.
  assert (Hs : forall nf f, cc_nfs (fst sample_selected) !! nf = Some f -> is_Some (nf_selected f)).
  { intros nf f. destruct (decide (nf = "fw")) as [->|Hne]; [vm_compute; intros [= <-]; eauto|].
    assert (E : cc_nfs (fst sample_selected) = {["fw" := default (NF_new "" []) (cc_nfs (fst sample_selected) !! "fw")]})
      by (vm_compute; reflexivity).
    rewrite E, lookup_singleton_ne by done. discriminate. }
  pose proof (stopAll_undefined "" (fst sample_selected) (snd sample_selected) Hs) as H.
  change (fst sample_selected, snd sample_selected) with sample_selected in H.
  destruct (stopAll "" sample_selected) as [s o] eqn:E. exists s.
  assert (Eo : o = snd (stopAll "" sample_selected)) by (by rewrite E).
  assert (Ev : snd (stopAll "" sample_selected) = Halt Undef) by (vm_compute; reflexivity).
  rewrite Ev in Eo. subst o. split; [reflexivity|]. exact (proj2 H).
Defined.
