(* ===== verification/NameResolver.v ===== *)
(** * The name resolver (name-resolver/)

    A server that reads the network functions and their implementations from an
    XML file and describes them in JSON.  Its client is the compute controller,
    whose parser of the answers is in ComputeController: here the two are put
    together.

    The XML library gives the element tree, already validated against the
    schema; of the JSON library, [traversal] is the order in which it goes
    through the members of an object.  The functions are kept in a set of
    pointers, so their order is that of the addresses: any order here. *)

From Stdlib Require Import ZArith Lia String Ascii.
From stdpp Require Import gmap strings numbers base list.
From S2P Require Import Prelude CString Cpp Json Lsi NFManagers ComputeController SwitchSample.

(** ** The configuration file *)

(** The elements of the tree; text and comments are skipped by the code. *)
Inductive xml := Elem (name : string) (attrs : list (string * string)) (children : list xml).
Definition xmlName (e : xml) : string := let 'Elem n _ _ := e in n.
Definition xmlChildren (e : xml) : list xml := let 'Elem _ _ c := e in c.
Definition xmlGetProp (e : xml) (attr : string) : option string :=
  let 'Elem _ a _ := e in snd <$> find_first (fun kv => bool_decide (fst kv = attr)) a.
(** A missing attribute is reported by an exception. *)
Definition required (v : option string) : out string :=
  match v with Some s => Ret s | None => Throw ParseError end.

Module Resolver.

Inductive Implementation :=
| DPDKImplementation (uri cores location : string)
| DockerImplementation (uri : string)
| KVMImplementation (uri : string) (ports : list (Z * string))
| NativeImplementation (uri dependencies location : string).

Definition kvm_port (e : xml) : out (Z * string) :=
  id ← required (xmlGetProp e "port-id");
  type ← required (xmlGetProp e "port-type");
  Ret (i32 (fst (strtol (txt id))), type).
Definition kvm_ports (e : xml) : out (list (Z * string)) :=
  out_fold (fun ps c => if bool_decide (xmlName c = "port") then p ← kvm_port c; Ret (ps ++ [p]) else Ret ps)
    [] (xmlChildren e).

(** [Implementation::create]; NULL for an unknown type. *)
Definition create (type : string) (e : xml) : out (option Implementation) :=
  if bool_decide (type = "dpdk") then
    uri ← required (xmlGetProp e "uri");
    cores ← required (xmlGetProp e "cores");
    location ← required (xmlGetProp e "location");
    Ret (Some (DPDKImplementation uri cores location))
  else if bool_decide (type = "docker") then
    uri ← required (xmlGetProp e "uri");
    Ret (Some (DockerImplementation uri))
  else if bool_decide (type = "kvm") then
    uri ← required (xmlGetProp e "uri");
    ports ← kvm_ports e;
    Ret (Some (KVMImplementation uri ports))
  else if bool_decide (type = "native") then
    uri ← required (xmlGetProp e "uri");
    dependencies ← required (xmlGetProp e "dependencies");
    location ← required (xmlGetProp e "location");
    Ret (Some (NativeImplementation uri dependencies location))
  else Ret None.

Record NF := {
  name : string;
  nports : Z;
  summary : string;
  implementations : list (option Implementation)
}.
Definition addImplementation (i : option Implementation) (f : NF) : NF :=
  {| name := name f; nports := nports f; summary := summary f; implementations := implementations f ++ [i] |}.

(** One [network-function] element.  A string built from a NULL summary throws. *)
Definition load_nf (e : xml) : out NF :=
  attr_name ← match xmlGetProp e "name" with Some n => Ret n | None => Halt Assert end;
  let n := match xmlGetProp e "num-ports" with Some t => default 0 (sscanf_d t) | None => 0 end in
  attr_summary ← required (xmlGetProp e "summary");
  out_fold (fun f c => i ← create (xmlName c) c; Ret (addImplementation i f))
    {| name := attr_name; nports := n; summary := attr_summary; implementations := [] |} (xmlChildren e).

(** The loop of [init] over the validated document: the functions, and whether
    it ends without an exception; those loaded before one stay. *)
Fixpoint load_nfs (root : list xml) (nfs : list NF) : out (list NF * bool) :=
  match root with
  | [] => Ret (nfs, true)
  | e :: root =>
      if bool_decide (xmlName e = "network-function") then
        match load_nf e with
        | Ret f => load_nfs root (nfs ++ [f])
        | Throw _ => Ret (nfs, false)
        | Halt x => Halt x
        end
      else load_nfs root nfs
  end.
(** [doc] is NULL when a file cannot be read or is not valid. *)
Definition init (doc : option xml) : out (list NF * bool) :=
  match doc with
  | None => Ret ([], false)
  | Some root => load_nfs (xmlChildren root) []
  end.

(** ** The answers *)
Section json.
Context (traversal : list (string * json) -> list (string * json)).
Definition Object (members : list (string * json)) : json := JObj (traversal members).

Definition port_toJSON (p : Z * string) : json := Object [("id", JInt (fst p)); ("type", JStr (snd p))].
Definition impl_toJSON (i : Implementation) : json :=
  match i with
  | DPDKImplementation uri cores location =>
      Object [("uri", JStr uri); ("type", JStr "dpdk"); ("cores", JStr cores); ("location", JStr location)]
  | DockerImplementation uri => Object [("uri", JStr uri); ("type", JStr "docker")]
  | KVMImplementation uri ports =>
      Object [("uri", JStr uri); ("type", JStr "kvm"); ("ports", JArr (port_toJSON <$> ports))]
  | NativeImplementation uri dependencies location =>
      Object [("uri", JStr uri); ("type", JStr "native"); ("dependencies", JStr dependencies); ("location", JStr location)]
  end.
(** A virtual call through NULL is undefined. *)
Definition NF_toJSON (f : NF) : out json :=
  impls ← mapM (M := out) (fun i => i ← deref i; Ret (impl_toJSON i)) (implementations f);
  Ret (Object [("name", JStr (name f)); ("nports", JInt (nports f)); ("summary", JStr (summary f));
               ("implementations", JArr impls)]).

(** [doGet]: the status and the body.  The URL is copied to a buffer of 1024
    bytes; [host] says whether the request has the header. *)
Definition all_functions (nfs : list NF) : out json :=
  l ← mapM (M := out) NF_toJSON nfs; Ret (Object [("network-functions", JArr l)]).
Definition digest (nfs : list NF) : json :=
  Object [("network-functions", JArr ((fun f => Object [("name", JStr (name f))]) <$> nfs))].
Definition doGet (nfs : list NF) (url : string) (host : bool) : out (Z * option json) :=
  if 1024 <=? Z.of_nat (String.length url) then Halt Undef
  else
    let toks := string_of_list_ascii <$> tokens ["/"%char] (txt url) in
    match toks with
    | [] => Ret (404, None)
    | base :: rest =>
        if bool_decide (base <> "nfs") then Ret (404, None)
        else
          match rest with
          | _ :: _ :: _ => Ret (404, None)
          | _ =>
              if negb host then Ret (400, None)
              else
                match rest with
                | nf_name :: _ =>
                    if bool_decide (nf_name = "digest") then Ret (200, Some (digest nfs))
                    else
                      match find_first (fun f => bool_decide (name f = nf_name)) nfs with
                      | Some f => v ← NF_toJSON f; Ret (200, Some v)
                      | None => Ret (405, None)
                      end
                | [] => v ← all_functions nfs; Ret (200, Some v)
                end
          end
    end.
End json.
End Resolver.
Import Resolver.

(** ** What the compute controller makes of an answer *)

(** The description an implementation stands for. *)
Definition published (n : Z) (i : Implementation) : Description :=
  let d t uri ports x := {| d_type := t; d_uri := uri; d_supported := false; d_ports := ports; d_details := x |} in
  match i with
  | DPDKImplementation uri cores location =>
      d DPDK uri (default_ports n DPDKR_PORT ∅) (DPDKDetails cores location)
  | DockerImplementation uri => d DOCKER uri (default_ports n VETH_PORT ∅) PlainDetails
  | KVMImplementation uri ports =>
      d KVM uri (foldl (fun m p => insert_new (fst p) (portTypeFromString (snd p)) m) ∅ ports) PlainDetails
  | NativeImplementation uri deps location =>
      d NATIVE uri (default_ports n VETH_PORT ∅) (NativeDetails location (words deps))
  end.
(** The descriptions the controller keeps, in order.  [found] is its flag of that
    name: once an implementation has listed its ports, the later ones are taken
    to have listed theirs. *)
Definition described_by (n : Z) (found : bool) (i : Implementation) : out Description :=
  match i with
  | KVMImplementation _ _ => Ret (published n i)
  | DockerImplementation uri =>
      Ret (if found then {| d_type := DOCKER; d_uri := uri; d_supported := false; d_ports := ∅; d_details := PlainDetails |}
           else published n i)
  | _ => if found then Halt Assert else Ret (published n i)
  end.
Definition lists_ports (i : Implementation) : bool := match i with KVMImplementation _ _ => true | _ => false end.
Fixpoint received (n : Z) (found : bool) (l : list Implementation) : out (list Description) :=
  match l with
  | [] => Ret []
  | i :: l =>
      d ← described_by n found i;
      ds ← received n (found || lists_ports i) l;
      Ret (d :: ds)
  end.

(** What the schema says of the ports of a KVM implementation; it allows none,
    which the parser does not. *)
Definition port_ok (p : Z * string) : Prop := 1 <= fst p < 2147483648 /\ portTypeFromString (snd p) <> INVALID_PORT.
Definition impl_ok (i : Implementation) : Prop :=
  match i with KVMImplementation _ ports => ports <> [] /\ Forall port_ok ports | _ => True end.

(** ** The members of an object, in any order *)

Section scan.
Context (enabled : nf_t -> bool) (all_enabled : forall t, enabled t = true).

Definition members (els : list (string * json)) : gmap string json := list_to_map els.
Definition str_member (m : gmap string json) (k : string) : option string :=
  match m !! k with Some (JStr s) => Some s | _ => None end.
Definition ports_member (m : gmap string json) : option (gmap Z PortType) :=
  match m !! "ports" with
  | Some (JArr l) => match parse_ports ∅ l with Ret m => Some m | _ => None end
  | _ => None
  end.

Definition known (kv : string * json) : Prop :=
  match snd kv with
  | JStr s =>
      fst kv = "uri" \/ fst kv = "cores" \/ fst kv = "location" \/ fst kv = "dependencies"
      \/ fst kv = "type" /\ isValid enabled s = true
  | JArr l => fst kv = "ports" /\ l <> [] /\ exists m, parse_ports ∅ l = Ret m
  | _ => False
  end.

Lemma str_member_same m k s : str_member (<[k := JStr s]> m) k = Some s.
Proof. unfold str_member. by rewrite lookup_insert_eq. Qed.
Lemma str_member_other m k k' v : k' <> k -> str_member (<[k := v]> m) k' = str_member m k'.
Proof. intros H. unfold str_member. by rewrite lookup_insert_ne. Qed.
Lemma str_member_none m k : m !! k = None -> str_member m k = None.
Proof. intros H. unfold str_member. by rewrite H. Qed.
Lemma ports_member_other m k v : k <> "ports" -> ports_member (<[k := v]> m) = ports_member m.
Proof. intros H. unfold ports_member. by rewrite lookup_insert_ne. Qed.

Lemma scan_impl_known els i :
  Forall known els -> NoDup (fst <$> els) -> (im_ports i = ∅ \/ members els !! "ports" = None) ->
  scan_impl enabled els i =
  Ret ({| im_type := str_member (members els) "type" ∪ im_type i;
          im_uri := str_member (members els) "uri" ∪ im_uri i;
          im_cores := str_member (members els) "cores" ∪ im_cores i;
          im_location := str_member (members els) "location" ∪ im_location i;
          im_deps := str_member (members els) "dependencies" ∪ im_deps i;
          im_ports := default (im_ports i) (ports_member (members els));
          im_found_ports := match ports_member (members els) with Some _ => true | None => im_found_ports i end |}, true).
Proof.
  intros Hk. revert i. induction Hk as [|[k v] els Hkv Hk IH]; intros i Hnd Hp.
  { cbn. unfold str_member, ports_member, members. cbn. rewrite !lookup_empty. cbn.
    by destruct i as [[] [] [] [] []]. }
  cbn in Hnd. apply NoDup_cons in Hnd as [Hni Hnd].
  assert (Hno : members els !! k = None) by (by apply not_elem_of_list_to_map_1).
  unfold members in Hp, Hno |- *. cbn [list_to_map foldr fst snd] in Hp |- *. fold (members els) in *.
  destruct v as [| | | |s|l|]; cbn in Hkv; try done.
  - destruct Hkv as [->|[->|[->|[->|[-> Hv]]]]]; cbn [scan_impl getString mbind out_bind];
      repeat (rewrite bool_decide_false by done); rewrite ?bool_decide_true by done; cbn [mbind out_bind];
      rewrite ?Hv, IH by first [done|destruct Hp as [Hp|Hp]; [by left|right; by rewrite lookup_insert_ne in Hp]];
      cbn; rewrite str_member_same, ports_member_other by done; rewrite !str_member_other by done;
      rewrite (str_member_none _ _ Hno); by destruct i as [[] [] [] [] []].
  - destruct Hkv as (-> & Hne & m & Hm). cbn [scan_impl getArray mbind out_bind].
    repeat (rewrite bool_decide_false by done). rewrite bool_decide_true by done. cbn [mbind out_bind].
    destruct Hp as [Hp|Hp]; [|by rewrite lookup_insert_eq in Hp].
    destruct l as [|x l]; [done|]. rewrite Hp, Hm. cbn [mbind out_bind]. rewrite IH; [|done|by right].
    cbn. rewrite !str_member_other by done. unfold ports_member. rewrite lookup_insert_eq, Hno, Hm. done.
Qed.
End scan.

(** ** The answer, read back *)

Section answer.
Context (enabled : nf_t -> bool) (all_enabled : forall t, enabled t = true).
Context (traversal : list (string * json) -> list (string * json)) (traversal_perm : forall l, traversal l ≡ₚ l).

Lemma members_traversal els : NoDup (fst <$> els) -> members (traversal els) = members els.
Proof.
  intros H. apply list_to_map_proper; [|apply traversal_perm]. by rewrite (fmap_Permutation _ _ _ (traversal_perm els)).
Qed.

Lemma port_member_id acc id : port_member acc ("id", JInt id) = Ret (i32 id, snd acc).
Proof. by destruct acc. Qed.
Lemma port_member_type acc s : portTypeFromString s <> INVALID_PORT ->
  port_member acc ("type", JStr s) = Ret (fst acc, portTypeFromString s).
Proof.
  intros H. destruct acc. unfold port_member. rewrite bool_decide_false, bool_decide_true by done.
  cbn -[portTypeFromString]. by destruct (portTypeFromString s).
Qed.
Lemma parse_port_toJSON p : port_ok p ->
  parse_port (port_toJSON traversal p) = Ret (fst p, portTypeFromString (snd p)).
Proof.
  destruct p as [id t]. intros [Hid Ht]. cbn in Hid, Ht. unfold parse_port, port_toJSON, Object.
  cbn [fst snd getObject mbind out_bind].
  assert (Hf : out_fold port_member (-1, UNDEFINED_PORT) (traversal [("id", JInt id); ("type", JStr t)])
               = Ret (i32 id, portTypeFromString t)).
  { destruct (Permutation_length_2_inv (Permutation_sym (traversal_perm [("id", JInt id); ("type", JStr t)]))) as [->| ->];
      cbn [out_fold]; rewrite ?port_member_id; cbn [mbind out_bind]; rewrite ?port_member_type by done;
      cbn [mbind out_bind]; by rewrite ?port_member_id. }
  rewrite Hf. cbn [mbind out_bind]. rewrite i32_small by lia.
  rewrite (proj2 (Z.eqb_neq id (-1))) by lia.
  assert (Hu : u32 id = id) by (unfold u32; rewrite Z.mod_small; lia). rewrite Hu.
  assert (Hne : portTypeFromString t <> UNDEFINED_PORT) by (unfold portTypeFromString; repeat case_bool_decide; done).
  by destruct (portTypeFromString t).
Qed.
Lemma parse_ports_toJSON ps m : Forall port_ok ps ->
  parse_ports m (port_toJSON traversal <$> ps)
  = Ret (foldl (fun m p => insert_new (fst p) (portTypeFromString (snd p)) m) m ps).
Proof.
  intros H. revert m. induction H as [|p ps Hp H IH]; intros m; [done|].
  change (port_toJSON traversal <$> p :: ps) with (port_toJSON traversal p :: (port_toJSON traversal <$> ps)).
  unfold parse_ports. cbn [out_fold]. rewrite parse_port_toJSON by done. apply IH.
Qed.

(** One implementation. *)
Lemma scan_object els found :
  Forall (known enabled) els -> NoDup (fst <$> els) ->
  scan_impl enabled (traversal els) (impl_new found) =
  Ret ({| im_type := str_member (members els) "type"; im_uri := str_member (members els) "uri";
          im_cores := str_member (members els) "cores"; im_location := str_member (members els) "location";
          im_deps := str_member (members els) "dependencies";
          im_ports := default ∅ (ports_member (members els));
          im_found_ports := match ports_member (members els) with Some _ => true | None => found end |}, true).
Proof.
  intros Hk Hnd. rewrite scan_impl_known.
  - rewrite members_traversal by done. unfold impl_new. cbn.
    by destruct (str_member _ "type"), (str_member _ "uri"), (str_member _ "cores"), (str_member _ "location"),
      (str_member _ "dependencies").
  - by rewrite traversal_perm.
  - by rewrite (fmap_Permutation _ _ _ (traversal_perm els)).
  - by left.
Qed.

Lemma valid_type t s :
  In (t, s) [(DPDK, "dpdk"); (DOCKER, "docker"); (KVM, "kvm"); (NATIVE, "native")] ->
  isValid enabled s = true /\ nf_type enabled s = Ret t.
Proof.
  intros H. unfold isValid, nf_type. rewrite !all_enabled. cbn in H.
  destruct H as [[= <- <-]|[[= <- <-]|[[= <- <-]|[[= <- <-]|[]]]]]; done.
Qed.

Definition impl_members (i : Implementation) : list (string * json) :=
  match i with
  | DPDKImplementation uri cores location =>
      [("uri", JStr uri); ("type", JStr "dpdk"); ("cores", JStr cores); ("location", JStr location)]
  | DockerImplementation uri => [("uri", JStr uri); ("type", JStr "docker")]
  | KVMImplementation uri ports =>
      [("uri", JStr uri); ("type", JStr "kvm"); ("ports", JArr (port_toJSON traversal <$> ports))]
  | NativeImplementation uri dependencies location =>
      [("uri", JStr uri); ("type", JStr "native"); ("dependencies", JStr dependencies); ("location", JStr location)]
  end.
Lemma impl_members_known i : impl_ok i -> Forall (known enabled) (impl_members i).
Proof.
  assert (H : forall s, In s ["dpdk"; "docker"; "kvm"; "native"] -> known enabled ("type", JStr s)).
  { intros s Hs. unfold known. cbn. do 4 right. split; [done|]. unfold isValid. rewrite !all_enabled.
    cbn in Hs. by destruct Hs as [<-|[<-|[<-|[<-|[]]]]]. }
  intros Hi. destruct i; cbn [impl_members]; repeat (apply Forall_cons; split); try apply Forall_nil;
    try (apply H; cbn; tauto); unfold known; cbn [fst snd]; auto 10.
  destruct Hi as [Hne Hp]. split; [done|]. split; [by destruct ports|]. eexists. by apply parse_ports_toJSON.
Qed.
Lemma impl_members_NoDup i : NoDup (fst <$> impl_members i).
Proof. destruct i; cbn; repeat (constructor; [set_solver|]); constructor. Qed.

Ltac look_members :=
  repeat first [rewrite lookup_insert_eq|rewrite lookup_insert_ne by done|rewrite lookup_empty].
Lemma describe_toJSON n found i : impl_ok i ->
  exists im, scan_impl enabled (traversal (impl_members i)) (impl_new found) = Ret (im, true)
    /\ im_found_ports im = found || lists_ports i
    /\ describe enabled n im = (d ← described_by n found i; Ret (Some d)).
Proof.
  intros Hi. rewrite scan_object by auto using impl_members_known, impl_members_NoDup.
  eexists. split; [reflexivity|].
  assert (Hv : forall t s, In (t, s) [(DPDK, "dpdk"); (DOCKER, "docker"); (KVM, "kvm"); (NATIVE, "native")] ->
    nf_type enabled s = Ret t) by (intros; by apply valid_type).
  destruct i as [uri cores loc|uri|uri ports|uri deps loc]; cbn [impl_members];
    unfold str_member, ports_member, members; cbn [list_to_map foldr fst snd im_found_ports lists_ports]; look_members.
  1, 2, 4: (split; [by destruct found|]).
  4: destruct Hi as [_ Hp]; rewrite parse_ports_toJSON by done; split; [by destruct found|].
  all: unfold describe; cbn [im_uri im_type im_cores im_location im_deps im_ports im_found_ports];
    repeat (rewrite bool_decide_false by done); rewrite ?bool_decide_true by done; rewrite ?all_enabled;
    unfold described_by, described, Description_new; erewrite ?Hv by (cbn; eauto 10); by destruct found.
Qed.

(** All of them. *)
Lemma parse_impls_toJSON n found l : Forall impl_ok l ->
  parse_impls enabled n found (impl_toJSON traversal <$> l) = received n found l.
Proof.
  intros H. revert found. induction H as [|i l Hi H IH]; intros found; [done|].
  change (impl_toJSON traversal <$> i :: l) with (impl_toJSON traversal i :: (impl_toJSON traversal <$> l)).
  assert (E : impl_toJSON traversal i = JObj (traversal (impl_members i))) by (by destruct i).
  rewrite E. cbn [parse_impls received getObject mbind out_bind].
  destruct (describe_toJSON n found i Hi) as (im & Hs & Hf & Hd). rewrite Hs. cbn [mbind out_bind negb].
  rewrite Hd, Hf, IH. by destruct (described_by n found i).
Qed.

(** The answer. *)
Definition nf_members (f : Resolver.NF) (impls : list Implementation) : list (string * json) :=
  [("name", JStr (name f)); ("nports", JInt (nports f)); ("summary", JStr (summary f));
   ("implementations", JArr (impl_toJSON traversal <$> impls))].
Lemma NF_toJSON_members f impls : implementations f = Some <$> impls ->
  NF_toJSON traversal f = Ret (JObj (traversal (nf_members f impls))).
Proof.
  intros H. unfold NF_toJSON. rewrite H.
  assert (E : mapM (M := out) (fun i => i ← deref i; Ret (impl_toJSON traversal i)) (Some <$> impls)
              = Ret (impl_toJSON traversal <$> impls)).
  { clear H. induction impls as [|i l IH]; [done|]. cbn. by rewrite IH. }
  by rewrite E.
Qed.

Definition plain_members (f : Resolver.NF) : list (string * json) :=
  [("name", JStr (name f)); ("nports", JInt (nports f)); ("summary", JStr (summary f))].
Lemma answer_member_plain f n a kv : kv ∈ plain_members f ->
  answer_member enabled (name f) n a kv
  = Ret {| an_name := an_name a || bool_decide (fst kv = "name"); an_impls := an_impls a;
           an_text := an_text a || bool_decide (fst kv = "summary"); an_descriptions := an_descriptions a |}.
Proof.
  unfold plain_members. rewrite !elem_of_cons. intros [->|[->|[->|[]%elem_of_nil]]]; cbn; rewrite ?bool_decide_true by done;
    by destruct a as [[] ? [] ?].
Qed.
Lemma answer_plain f n a els : Forall (fun kv => kv ∈ plain_members f) els ->
  out_fold (answer_member enabled (name f) n) a els
  = Ret {| an_name := an_name a || bool_decide ("name" ∈ fst <$> els); an_impls := an_impls a;
           an_text := an_text a || bool_decide ("summary" ∈ fst <$> els); an_descriptions := an_descriptions a |}.
Proof.
  intros H. revert a. induction H as [|kv els Hkv H IH]; intros a; [by destruct a as [[] ? [] ?]|].
  rewrite fmap_cons. cbn [out_fold]. rewrite answer_member_plain by done. cbn [mbind out_bind].
  rewrite IH. cbn [an_name an_impls an_text an_descriptions]. rewrite <- !orb_assoc, <- !bool_decide_or.
  do 2 f_equal; f_equal; apply bool_decide_ext; set_solver.
Qed.
Lemma answer_impls nf_name n a l : l <> [] ->
  answer_member enabled nf_name n a ("implementations", JArr l)
  = (ds ← parse_impls enabled n false l;
     Ret {| an_name := an_name a; an_impls := true; an_text := an_text a; an_descriptions := an_descriptions a ++ ds |}).
Proof. by destruct l. Qed.

Lemma parse_answer_toJSON f impls :
  implementations f = Some <$> impls -> impls <> [] -> Forall impl_ok impls -> 0 <= nports f < 2147483648 ->
  exists v, NF_toJSON traversal f = Ret v
    /\ parse_answer enabled v (name f) = received (nports f) false impls.
Proof.
  intros Hi Hne Hok Hn. eexists. split; [by apply NF_toJSON_members|]. unfold parse_answer.
  cbn [getObject mbind out_bind]. set (els := nf_members f impls).
  assert (Hp : traversal els ≡ₚ ("implementations", JArr (impl_toJSON traversal <$> impls)) :: plain_members f).
  { rewrite traversal_perm. unfold els, nf_members, plain_members. solve_Permutation. }
  assert (Hf : exists i, list_find (fun '(k, _) => k = "nports") (traversal els) = Some (i, ("nports", JInt (nports f)))).
  { destruct (list_find_elem_of (fun '(k, _) => k = "nports") (traversal els) ("nports", JInt (nports f)))
      as [[i [k v]] Hl]; [rewrite Hp; set_solver|done|].
    exists i. rewrite Hl. apply list_find_Some in Hl as (Hl%list_elem_of_lookup_2 & -> & _).
    rewrite Hp in Hl. unfold plain_members in Hl. set_solver. }
  destruct Hf as [i ->]. cbn [mbind out_bind getInt].
  rewrite i32_small by lia. assert (Hu : u32 (nports f) = nports f) by (unfold u32; rewrite Z.mod_small; lia). rewrite Hu.
  assert (Hin : ("implementations", JArr (impl_toJSON traversal <$> impls)) ∈ traversal els) by (rewrite Hp; set_solver).
  apply list_elem_of_split in Hin as (l1 & l2 & E). rewrite E in Hp |- *.
  rewrite <- Permutation_middle in Hp. apply Permutation_cons_inv in Hp.
  assert (Hall : Forall (fun kv => kv ∈ plain_members f) (l1 ++ l2)) by (rewrite Hp; apply Forall_forall; auto).
  apply Forall_app in Hall as [H1 H2]. rewrite out_fold_app, answer_plain by done. cbn [mbind out_bind out_fold].
  rewrite answer_impls, parse_impls_toJSON by (try done; by destruct impls).
  destruct impls as [|j impls]; [done|]. cbn [received].
  destruct (described_by (nports f) false j) as [d|e|x]; cbn [mbind out_bind]; [|done|done].
  destruct (received _ _ impls) as [ds|e|x]; cbn [mbind out_bind]; [|done|done].
  rewrite answer_plain by done. cbn [mbind out_bind an_name an_impls an_text an_descriptions].
  assert (Hk : forall k, k ∈ fst <$> plain_members f -> k ∈ fst <$> l1 \/ k ∈ fst <$> l2).
  { intros k. rewrite <- Hp, fmap_app. set_solver. }
  rewrite !orb_false_l.
  assert (Hb : forall k, k ∈ fst <$> plain_members f ->
    bool_decide (k ∈ fst <$> l1) || bool_decide (k ∈ fst <$> l2) = true).
  { intros k Hk'. destruct (Hk k Hk'); [rewrite (bool_decide_true (k ∈ fst <$> l1))|rewrite (bool_decide_true (k ∈ fst <$> l2)), orb_true_r]; done. }
  rewrite (Hb "name"), (Hb "summary") by (cbn; rewrite !elem_of_cons; auto). done.
Qed.
End answer.

(** ** The two programs together *)

(** Only implementations that list their ports follow one that does. *)
Definition kvm_last (l : list Implementation) : Prop :=
  exists plain kvm, l = plain ++ kvm /\ Forall (fun i => lists_ports i = false) plain
    /\ Forall (fun i => lists_ports i = true) kvm.

Lemma received_kvm n found kvm : Forall (fun i => lists_ports i = true) kvm ->
  received n found kvm = Ret (published n <$> kvm).
Proof.
  intros H. revert found. induction H as [|i l Hi H IH]; intros found; [done|]. destruct i; try done.
  cbn. by rewrite IH.
Qed.
Lemma received_kvm_last n l : kvm_last l -> received n false l = Ret (published n <$> l).
Proof.
  intros (plain & kvm & -> & Hp & Hk). induction Hp as [|i plain Hi Hp IH]; [by apply received_kvm|].
  rewrite <- app_comm_cons, fmap_cons. cbn [received]. rewrite Hi. cbn [orb]. rewrite IH.
  by destruct i.
Qed.
Lemma received_needs_default n found l1 i l2 :
  (found = true \/ exists k, k ∈ l1 /\ lists_ports k = true) ->
  match i with DPDKImplementation _ _ _ | NativeImplementation _ _ _ => True | _ => False end ->
  received n found (l1 ++ i :: l2) = Halt Assert.
Proof.
  intros Hf Hi. revert found Hf. induction l1 as [|j l1 IH]; intros found Hf.
  { destruct Hf as [->|(k & []%elem_of_nil & _)]. by destruct i. }
  rewrite <- app_comm_cons. cbn [received]. rewrite IH.
  - destruct j; cbn; by destruct found.
  - destruct Hf as [->|(k & Hk & Hl)]; [by left|]. apply elem_of_cons in Hk as [<-|Hk].
    + left. rewrite Hl. apply orb_true_r.
    + right. eauto.
Qed.

(** The names the schema allows have no slash. *)
Lemma doGet_name traversal nfs f :
  f ∈ nfs -> NoDup (name <$> nfs) -> word ["/"%char] (txt (name f)) -> name f <> "digest" ->
  Z.of_nat (String.length (name f)) < 1000 ->
  doGet traversal nfs ("/nfs/" +:+ name f) true = (v ← NF_toJSON traversal f; Ret (200, Some v)).
Proof.
  intros Hin Hnd Hw Hd Hlen. unfold doGet.
  assert (Ht : tokens ["/"%char] (txt ("/nfs/" +:+ name f)) = [txt "nfs"; txt (name f)]).
  { change (txt ("/nfs/" +:+ name f)) with (txt "/nfs/" ++ txt (name f)).
    assert (E : strtok ["/"%char] (txt "/nfs/" ++ txt (name f)) = (Some (txt "nfs"), txt (name f)))
      by (by apply (strtok_word ["/"%char] (txt "nfs") "/"%char (txt (name f)))).
    unfold tokens. rewrite length_app. change (length (txt "/nfs/")) with 5%nat.
    generalize (length (txt (name f))). intros k. cbn [Nat.add tokens_fuel]. rewrite E.
    by rewrite strtok_last. }
  rewrite Ht. cbn [fmap list_fmap]. unfold txt. rewrite !string_of_list_ascii_of_string.
  change (String.length ("/nfs/" +:+ name f)) with (5 + String.length (name f))%nat.
  rewrite (proj2 (Z.leb_gt _ _)) by lia.
  rewrite bool_decide_false by (by intros H). cbn [negb]. rewrite bool_decide_false by done.
  destruct (find_first _ nfs) as [g|] eqn:E.
  - apply find_first_Some in E as [Hg Hn]. apply bool_decide_eq_true in Hn.
    apply list_elem_of_lookup in Hg as [i Hi]. apply list_elem_of_lookup in Hin as [j Hj].
    assert (i = j) as ->; [|by simplify_eq].
    apply (NoDup_lookup (name <$> nfs) i j (name f)); [done|rewrite list_lookup_fmap, Hi; cbn; by rewrite Hn|].
    by rewrite list_lookup_fmap, Hj.
  - destruct (find_first_is_Some (fun g => bool_decide (name g = name f)) nfs f) as [g Hg];
      [done|by apply bool_decide_eq_true|by rewrite E in Hg].
Qed.

Section together.
Context {HOST : Type} `{!Host HOST} (enabled : nf_t -> bool).
Context (traversal : list (string * json) -> list (string * json)).
Context (json_read : string -> option json).

(** A function of the server that a client can ask for. *)
Record served (nfs : list Resolver.NF) (f : Resolver.NF) (impls : list Implementation) : Prop := {
  sv_in : f ∈ nfs;
  sv_names : NoDup (name <$> nfs);
  sv_word : word ["/"%char] (txt (name f));
  sv_digest : name f <> "digest";
  sv_length : Z.of_nat (String.length (name f)) < 1000;
  sv_nports : 0 <= nports f < 2147483648;
  sv_impls : implementations f = Some <$> impls;
  sv_some : impls <> [];
  sv_ok : Forall impl_ok impls
}.

Lemma served_answer nfs f impls :
  (forall t, enabled t = true) -> (forall l, traversal l ≡ₚ l) ->
  served nfs f impls ->
  exists v, doGet traversal nfs ("/nfs/" +:+ name f) true = Ret (200, Some v)
    /\ parse_answer enabled v (name f) = received (nports f) false impls.
Proof.
  intros He Ht Hs.
  destruct (parse_answer_toJSON enabled He traversal Ht f impls) as (v & Hv & Hp); [apply Hs..|].
  exists v. split; [|done]. rewrite doGet_name by apply Hs. by rewrite Hv.
Qed.

(** the name resolver and the compute controller agree on the interface.
    In whatever order the JSON library traverses objects and the set of
    functions its pointers, a function that is served is found, and from every
    text the library reads as the answer the controller registers exactly its
    implementations, in the order of the configuration, with their types,
    locations, cores, dependencies and ports, when those that list their ports
    come last. *)
Theorem resolver_roundtrip nfs f impls nf_id (c : CC) (n : node HOST) :
  (forall t, enabled t = true) -> (forall l, traversal l ≡ₚ l) ->
  served nfs f impls -> kvm_last impls ->
  exists v, doGet traversal nfs ("/nfs/" +:+ name f) true = Ret (200, Some v)
    /\ forall text, json_read text = Some v ->
       parseAnswer enabled json_read text (name f) nf_id (c, n)
       = ({| cc_nfs := <[nf_id := NF_new (name f) (published (nports f) <$> impls)]> (cc_nfs c); cc_lsi := cc_lsi c |}, n,
          Ret true).
Proof.
  intros He Ht Hs Hk. destruct (served_answer nfs f impls He Ht Hs) as (v & Hg & Hp).
  exists v. split; [done|]. intros text Hj. unfold parseAnswer. rewrite Hj, Hp, received_kvm_last by done. done.
Qed.

(** the order of the implementations matters to the controller although the
    schema leaves it open: when a DPDK or a native one follows one that lists
    its ports, asking for the function ends the orchestrator at an assert. *)
Theorem ports_before_default_abort nfs f l1 k i l2 nf_id (s : CC * node HOST) :
  (forall t, enabled t = true) -> (forall l, traversal l ≡ₚ l) ->
  served nfs f (l1 ++ i :: l2) -> k ∈ l1 -> lists_ports k = true ->
  match i with DPDKImplementation _ _ _ | NativeImplementation _ _ _ => True | _ => False end ->
  exists v, doGet traversal nfs ("/nfs/" +:+ name f) true = Ret (200, Some v)
    /\ forall text, json_read text = Some v ->
       parseAnswer enabled json_read text (name f) nf_id s = (s, Halt Assert).
Proof.
  intros He Ht Hs Hk Hl Hi. destruct (served_answer nfs f _ He Ht Hs) as (v & Hg & Hp).
  exists v. split; [done|]. intros text Hj. unfold parseAnswer. rewrite Hj, Hp, received_needs_default; [done|eauto|done].
Qed.
End together.

(** A configuration, as the XML library gives it. *)
Definition sample_xml : xml :=
  let impl n a c := Elem n a c in
  Elem "network-functions" [] [
    Elem "network-function" [("name", "firewall"); ("num-ports", "2"); ("summary", "a firewall")]
      [impl "docker" [("uri", "hub/firewall")] [];
       impl "native" [("uri", "file://firewall"); ("dependencies", "iptables ebtables"); ("location", "local")] [];
       impl "kvm" [("uri", "http://image")] [Elem "port" [("port-id", "1"); ("port-type", "vhost")] [];
                                             Elem "port" [("port-id", "2"); ("port-type", "ivshmem")] []]];
    Elem "network-function" [("name", "switch"); ("num-ports", "3"); ("summary", "a switch")]
      [impl "kvm" [("uri", "http://switch")] [Elem "port" [("port-id", "1"); ("port-type", "usvhost")] []];
       impl "dpdk" [("uri", "file://switch"); ("cores", "2"); ("location", "local")] []]].
Definition firewall : list Implementation :=
  [DockerImplementation "hub/firewall"; NativeImplementation "file://firewall" "iptables ebtables" "local";
   KVMImplementation "http://image" [(1, "vhost"); (2, "ivshmem")]].
Definition sample_nfs : list Resolver.NF :=
  [{| name := "firewall"; nports := 2; summary := "a firewall"; implementations := Some <$> firewall |};
   {| name := "switch"; nports := 3; summary := "a switch";
      implementations := Some <$> [KVMImplementation "http://switch" [(1, "usvhost")];
                                   DPDKImplementation "file://switch" "2" "local"] |}].
Lemma sample_loaded : Resolver.init (Some sample_xml) = Ret (sample_nfs, true).
Proof. vm_compute. reflexivity. Qed.
Lemma sample_served i f impls : sample_nfs !! i = Some f -> implementations f = Some <$> impls -> impls <> [] ->
  Forall impl_ok impls -> served sample_nfs f impls.
Proof.
  intros Hf Hi Hne Hok. assert (Hin : f ∈ sample_nfs) by (by eapply list_elem_of_lookup_2).
  split; try done.
  - by apply (bool_decide_unpack (NoDup (name <$> sample_nfs))).
  - apply elem_of_cons in Hin as [->|Hin%list_elem_of_singleton]; [|subst f]; done.
  - apply elem_of_cons in Hin as [->|Hin%list_elem_of_singleton]; [|subst f]; done.
  - apply elem_of_cons in Hin as [->|Hin%list_elem_of_singleton]; [|subst f]; done.
  - apply elem_of_cons in Hin as [->|Hin%list_elem_of_singleton]; [|subst f]; cbn; lia.
Qed.

Definition resolver_node : node Z := {| n_host := 0; n_cores := ∅; n_nextCore := 0; n_capabilities := None |}.
Definition firewall_nf : Resolver.NF :=
  {| name := "firewall"; nports := 2; summary := "a firewall"; implementations := Some <$> firewall |}.
Definition firewall_answer : json := Eval vm_compute in
  match doGet (@rev _) sample_nfs "/nfs/firewall" true with Ret (_, Some v) => v | _ => JNull end.
Lemma resolver_roundtrip_witness :
  served sample_nfs firewall_nf firewall /\ kvm_last firewall
  /\ doGet (@rev _) sample_nfs "/nfs/firewall" true = Ret (200, Some firewall_answer)
  /\ parseAnswer (fun _ => true) (fun _ => Some firewall_answer) "" "firewall" "7" ({| cc_nfs := ∅; cc_lsi := 0 |}, resolver_node)
     = ({| cc_nfs := <["7" := NF_new "firewall" (published 2 <$> firewall)]> ∅; cc_lsi := 0 |}, resolver_node, Ret true).
Proof.
  assert (Hs : served sample_nfs firewall_nf firewall).
  { apply (sample_served 0); [done|done|done|]. unfold firewall. repeat constructor; cbn; try done; lia. }
  assert (Hk : kvm_last firewall).
  { exists (take 2 firewall), (drop 2 firewall). split; [done|]. split; repeat constructor. }
  assert (Hg : doGet (@rev _) sample_nfs "/nfs/firewall" true = Ret (200, Some firewall_answer)) by (vm_compute; reflexivity).
  split; [exact Hs|]. split; [exact Hk|]. split; [exact Hg|].
  destruct (resolver_roundtrip (fun _ => true) (@rev _) (fun _ => Some firewall_answer) sample_nfs firewall_nf firewall "7"
              {| cc_nfs := ∅; cc_lsi := 0 |} resolver_node (fun _ => eq_refl) (fun l => Permutation_sym (Permutation_rev l)) Hs Hk)
    as (v & Hv & Hp).
  change ("/nfs/" +:+ name firewall_nf) with "/nfs/firewall" in Hv. rewrite Hg in Hv. injection Hv as <-.
  exact (Hp "" eq_refl).
Defined.

Definition switch_impls : list Implementation :=
  [KVMImplementation "http://switch" [(1, "usvhost")]; DPDKImplementation "file://switch" "2" "local"].
Definition switch_nf : Resolver.NF :=
  {| name := "switch"; nports := 3; summary := "a switch"; implementations := Some <$> switch_impls |}.
Definition switch_answer : json := Eval vm_compute in
  match doGet (@rev _) sample_nfs "/nfs/switch" true with Ret (_, Some v) => v | _ => JNull end.
Lemma ports_before_default_abort_witness :
  served sample_nfs switch_nf switch_impls
  /\ doGet (@rev _) sample_nfs "/nfs/switch" true = Ret (200, Some switch_answer)
  /\ parseAnswer (fun _ => true) (fun _ => Some switch_answer) "" "switch" "7" ({| cc_nfs := ∅; cc_lsi := 0 |}, resolver_node)
     = ({| cc_nfs := ∅; cc_lsi := 0 |}, resolver_node, Halt Assert).
Proof.
  assert (Hs : served sample_nfs switch_nf switch_impls).
  { apply (sample_served 1); [done|done|done|]. unfold switch_impls. repeat constructor; cbn; try done; lia. }
  assert (Hg : doGet (@rev _) sample_nfs "/nfs/switch" true = Ret (200, Some switch_answer)) by (vm_compute; reflexivity).
  split; [exact Hs|]. split; [exact Hg|].
  destruct (ports_before_default_abort (fun _ => true) (@rev _) (fun _ => Some switch_answer) sample_nfs switch_nf
              (take 1 switch_impls) (KVMImplementation "http://switch" [(1, "usvhost")])
              (DPDKImplementation "file://switch" "2" "local") [] "7" ({| cc_nfs := ∅; cc_lsi := 0 |}, resolver_node)
              (fun _ => eq_refl) (fun l => Permutation_sym (Permutation_rev l)) Hs) as (v & Hv & Hp);
    [by left|done|exact I|].
  change ("/nfs/" +:+ name switch_nf) with "/nfs/switch" in Hv. rewrite Hg in Hv. injection Hv as <-.
  exact (Hp "" eq_refl).
Defined.
