(* ===== verification/Validator.v ===== *)
(** * Validation of addresses (graph/graph-parser/address_validator.cc)

    The checks the graph parser makes on MAC and IP addresses, with what they
    use of the C library: [sscanf] conversions and [inet_pton]. *)

From Stdlib Require Import ZArith Lia String Ascii.
From stdpp Require Import gmap strings numbers base list.
From S2P Require Import Prelude CString Cpp FlowMatch.

(** ** The C library *)

(** [strtol] with base 0: an octal or hexadecimal prefix is taken. *)
Definition oct_digit (c : ascii) : option Z :=
  if (48 <=? code c) && (code c <=? 55) then Some (code c - 48) else None.
Definition clamp_long (v : Z) : Z := Z.max (-9223372036854775808) (Z.min 9223372036854775807 v).
Definition magnitude0 (s : str) : option Z :=
  match s with
  | "0"%char :: c :: s' =>
      if Ascii.eqb c "x" || Ascii.eqb c "X"
      then match scan_digits 16 hex_digit s' with Some v => Some v | None => Some 0 end
      else scan_digits 8 oct_digit s
  | _ => scan_digits 10 dec_digit s
  end.
Definition strtol0 (s : string) : option Z :=
  let '(neg, s) := scan_sign (snd (span isspace (txt s))) in
  (fun v => clamp_long (if neg then - v else v)) <$> magnitude0 s.
(** The value of a %d conversion, before it is stored at the width of its argument. *)
Definition scan_long (s : string) : option Z :=
  let '(v, rest) := strtol (txt s) in if bool_decide (rest = txt s) then None else Some v.

(** [inet_pton(AF_INET)]: four decimal octets without leading zeros. *)
Definition octet (s : str) : option Z :=
  match s with
  | [] => None
  | c :: s' =>
      if forallb isdigit s && (Z.of_nat (length s) <=? 3) && (bool_decide (s' = []) || negb (Ascii.eqb c "0"))
         && (dec_value s <=? 255)
      then Some (dec_value s) else None
  end.
(** The pieces of a text between the delimiters, empty ones included. *)
Fixpoint split_on (d : ascii) (s : str) : list str :=
  match s with
  | [] => [[]]
  | c :: s =>
      match split_on d s with
      | [] => []
      | w :: ws => if Ascii.eqb c d then [] :: w :: ws else (c :: w) :: ws
      end
  end.
Definition inet_pton4 (s : str) : option (Z * Z * Z * Z) :=
  match split_on "." s with
  | [a; b; c; d] =>
      a ← octet a; b ← octet b; c ← octet c; d ← octet d; Some (a, b, c, d)
  | _ => None
  end.

(** [inet_pton(AF_INET6)], as a count of the bytes stored: groups of up to four
    hexadecimal digits, one "::", an IPv4 address at the end.  [digits] is the
    length of the group read so far, [tok] the text where it began. *)
Fixpoint pton6 (s tok : str) (stored digits : Z) (colons : bool) : bool :=
  match s with
  | [] =>
      let stored := if 0 <? digits then stored + 2 else stored in
      (stored <=? 16) && (if colons then stored <? 16 else stored =? 16)
  | c :: s' =>
      match hex_digit c with
      | Some _ => if digits =? 4 then false else pton6 s' tok stored (digits + 1) colons
      | None =>
          if Ascii.eqb c ":" then
            if digits =? 0 then if colons then false else pton6 s' s' stored 0 true
            else if bool_decide (s' = []) then false
            else if 16 <? stored + 2 then false
            else pton6 s' s' (stored + 2) 0 colons
          else if Ascii.eqb c "." then
            match inet_pton4 tok with
            | Some _ => let stored := stored + 4 in
                (stored <=? 16) && (if colons then stored <? 16 else stored =? 16)
            | None => false
            end
          else false
      end
  end.
Definition inet_pton6 (s : str) : bool :=
  match s with
  | ":"%char :: ":"%char :: s' => pton6 s' s' 0 0 true
  | ":"%char :: _ => false
  | _ => pton6 s s 0 0 false
  end.

(** ** The checks *)

(** The loop of [validateMac]: the number of hexadecimal digits and of separators. *)
Fixpoint mac_loop (mac : str) (i s : Z) : Z * Z :=
  match mac with
  | [] => (i, s)
  | c :: mac =>
      if bool_decide (is_Some (hex_digit c)) then mac_loop mac (i + 1) s
      else if Ascii.eqb c ":" || Ascii.eqb c "-" then
        if (i =? 0) || negb (Z.quot i 2 - 1 =? s) then (i, s) else mac_loop mac i (s + 1)
      else mac_loop mac i (-1)
  end.
Definition validateMac (mac : string) : bool :=
  let '(i, s) := mac_loop (txt mac) 0 0 in (i =? 12) && ((s =? 5) || (s =? 0)).

(** Only the first of the six conversions is used. *)
Definition isUnicastMac (mac : string) : out bool :=
  _ ← out_assert (validateMac mac);
  Ret (Z.land (u8 (default 0 (sscanf_x mac))) 1 =? 0).

Definition validateIpv4 (ip : string) : bool := bool_decide (is_Some (inet_pton4 (txt ip))).
(** The sixteen bytes of an address that is valid are written to the four bytes
    of an IPv4 address at the end of which there are eight more: beyond the
    structure. *)
Definition validateIpv6 (ip : string) : out bool :=
  if inet_pton6 (txt ip) then Halt Oob else Ret false.

Fixpoint netmask_loop (n : nat) (mask : Z) (zero : bool) : bool :=
  match n with
  | O => true
  | S n =>
      if (Z.land mask 1 =? 0) && negb zero then false
      else netmask_loop n (Z.shiftr mask 1) (zero && negb (Z.land mask 1 =? 1))
  end.
(** The four octets are read again by [sscanf]. *)
Definition validateIpv4Netmask (netmask : string) : bool :=
  match inet_pton4 (txt netmask) with
  | None => false
  | Some (first, second, third, fourth) =>
      netmask_loop 32 (u32 (Z.shiftl first 24 + Z.shiftl second 16 + Z.shiftl third 8 + fourth)) true
  end.

(** ** Their meaning *)

Lemma netmask_step n mask zero : 0 <= mask ->
  netmask_loop (S n) mask zero
  = if (mask mod 2 =? 0) && negb zero then false else netmask_loop n (mask / 2) (zero && (mask mod 2 =? 0)).
Proof.
  intros Hm. cbn [netmask_loop]. change 1 with (Z.ones 1) at 1 3. rewrite Z.land_ones, Z.shiftr_div_pow2 by lia.
  change (2 ^ 1) with 2. pose proof (Z.mod_pos_bound mask 2).
  destruct (Z.eqb_spec (mask mod 2) 0) as [E|E]; [rewrite E; done|].
  assert (mask mod 2 = 1) as -> by lia. done.
Qed.
Lemma netmask_loop_ones n mask : 0 <= mask < 2 ^ Z.of_nat n ->
  netmask_loop n mask false = true <-> mask = 2 ^ Z.of_nat n - 1.
Proof.
  revert mask. induction n as [|n IH]; intros mask Hm; [cbn in *; split; [lia|done]|].
  rewrite netmask_step by lia. rewrite Nat2Z.inj_succ, Z.pow_succ_r in Hm |- * by lia.
  pose proof (Z.div_mod mask 2). pose proof (Z.mod_pos_bound mask 2).
  cbn [negb andb]. rewrite andb_true_r. destruct (Z.eqb_spec (mask mod 2) 0); [split; [done|lia]|].
  rewrite IH by lia. lia.
Qed.
(** Ones, then zeros. *)
Lemma netmask_loop_spec n mask : 0 <= mask < 2 ^ Z.of_nat n ->
  netmask_loop n mask true = true <-> exists k, 0 <= k <= Z.of_nat n /\ mask = 2 ^ Z.of_nat n - 2 ^ k.
Proof.
  revert mask. induction n as [|n IH]; intros mask Hm.
  { cbn in *. split; [intros _; exists 0; cbn; lia|done]. }
  rewrite netmask_step by lia. rewrite Nat2Z.inj_succ, Z.pow_succ_r in Hm |- * by lia.
  pose proof (Z.div_mod mask 2). pose proof (Z.mod_pos_bound mask 2).
  cbn [negb andb]. rewrite andb_false_r. destruct (Z.eqb_spec (mask mod 2) 0) as [E|E].
  - rewrite IH by lia. split; intros (k & Hk & Hmask).
    + exists (Z.succ k). rewrite Z.pow_succ_r by lia. lia.
    + destruct (Z.eq_dec k 0) as [->|Hk0]; [change (2 ^ 0) with 1 in Hmask; lia|].
      exists (Z.pred k). rewrite <- (Z.succ_pred k), Z.pow_succ_r in Hmask by lia. lia.
  - rewrite netmask_loop_ones by lia. split.
    + intros Hq. exists 0. change (2 ^ 0) with 1. lia.
    + intros (k & Hk & Hmask). destruct (Z.eq_dec k 0) as [->|Hk0]; [change (2 ^ 0) with 1 in Hmask; lia|].
      rewrite <- (Z.succ_pred k), Z.pow_succ_r in Hmask by lia. lia.
Qed.

Lemma octet_range s v : octet s = Some v -> 0 <= v <= 255.
Proof.
  unfold octet. destruct s as [|c s]; [done|]. destruct (_ && _) eqn:E; [|done]. intros [= <-].
  apply andb_prop in E as [E Hle]. apply andb_prop in E as [E _]. apply andb_prop in E as [E _].
  split; [|lia]. unfold dec_value.
  assert (H : forall l a, forallb isdigit l = true -> 0 <= a -> 0 <= foldl (fun acc c => 10 * acc + (code c - 48)) a l).
  { induction l as [|x l IH]; intros a Hl Ha; [done|]. cbn [forallb foldl] in *. apply andb_prop in Hl as [Hx Hl].
    apply IH; [done|]. unfold isdigit in Hx. lia. }
  apply H; [done|lia].
Qed.
Lemma inet_pton4_range s a b c d : inet_pton4 s = Some (a, b, c, d) ->
  0 <= a <= 255 /\ 0 <= b <= 255 /\ 0 <= c <= 255 /\ 0 <= d <= 255.
Proof.
  unfold inet_pton4. destruct (split_on "." s) as [|x [|y [|z [|t [|]]]]]; try done.
  destruct (octet x) eqn:Ex, (octet y) eqn:Ey, (octet z) eqn:Ez, (octet t) eqn:Et; try done.
  cbn. intros [= <- <- <- <-]. apply octet_range in Ex, Ey, Ez, Et. lia.
Qed.

(** [validateIpv4Netmask] accepts exactly the texts of an IPv4 address whose
    32 bits are ones followed by zeros, from /0 to /32. *)
Theorem netmask_spec (s : string) :
  validateIpv4Netmask s = true
  <-> exists a b c d k, inet_pton4 (txt s) = Some (a, b, c, d) /\ 0 <= k <= 32
      /\ a * 2 ^ 24 + b * 2 ^ 16 + c * 2 ^ 8 + d = 2 ^ 32 - 2 ^ k.
Proof.
  unfold validateIpv4Netmask. destruct (inet_pton4 (txt s)) as [[[[a b] c] d]|] eqn:E.
  2: { split; [done|]. intros (? & ? & ? & ? & ? & [=] & _). }
  apply inet_pton4_range in E as (Ha & Hb & Hc & Hd). rewrite !Z.shiftl_mul_pow2 by lia.
  assert (H : 0 <= a * 2 ^ 24 + b * 2 ^ 16 + c * 2 ^ 8 + d < 2 ^ 32) by lia.
  unfold u32. rewrite Z.mod_small by (change 4294967296 with (2 ^ 32); lia).
  rewrite netmask_loop_spec by (change (Z.of_nat 32) with 32; lia). change (Z.of_nat 32) with 32. split.
  - intros (k & Hk & Hm). by exists a, b, c, d, k.
  - intros (? & ? & ? & ? & k & [= <- <- <- <-] & Hk & Hm). by exists k.
Qed.

(** Six pairs of digits with separators. *)
Definition hexes (l : list ascii) : Prop := Forall (fun c => is_Some (hex_digit c)) l.
Definition separators (l : list ascii) : Prop := Forall (fun c => c = ":"%char \/ c = "-"%char) l.
Definition mac_text (p0 q0 : ascii) (l : list (ascii * ascii * ascii)) : str :=
  p0 :: q0 :: (l ≫= fun '(sep, p, q) => [sep; p; q]).

Lemma mac_loop_pairs l i :
  separators ((fun x => x.1.1) <$> l) -> hexes ((fun x => x.1.2) <$> l) -> hexes (snd <$> l) -> 1 <= i ->
  mac_loop (l ≫= fun '(sep, p, q) => [sep; p; q]) (2 * i) (i - 1)
  = (2 * (i + Z.of_nat (length l)), i - 1 + Z.of_nat (length l)).
Proof.
  revert i. induction l as [|[[sep p] q] l IH]; intros i Hs Hp Hq Hi.
  { cbn [mbind list_bind mac_loop length]. f_equal; lia. }
  apply Forall_cons in Hs as [Hs Hs'], Hp as [Hp Hp'], Hq as [Hq Hq'].
  rewrite bind_cons. cbn [app mac_loop fst snd] in *.
  rewrite (bool_decide_false (is_Some (hex_digit sep))) by (destruct Hs as [-> | ->]; by intros [? [=]]).
  assert (E : Ascii.eqb sep ":" || Ascii.eqb sep "-" = true) by (by destruct Hs as [-> | ->]). rewrite E.
  rewrite (proj2 (Z.eqb_neq (2 * i) 0)) by lia. rewrite Z.mul_comm, Z.quot_mul, Z.eqb_refl by lia. cbn [orb negb].
  rewrite !bool_decide_true by done. replace (i * 2 + 1 + 1) with (2 * (i + 1)) by lia.
  replace (i - 1 + 1) with (i + 1 - 1) by lia. rewrite IH by (done || lia). cbn [length]. f_equal; lia.
Qed.
Lemma mac_loop_text p0 q0 l :
  hexes [p0; q0] -> separators ((fun x => x.1.1) <$> l) -> hexes ((fun x => x.1.2) <$> l) -> hexes (snd <$> l) ->
  mac_loop (mac_text p0 q0 l) 0 0 = (2 * (1 + Z.of_nat (length l)), Z.of_nat (length l)).
Proof.
  intros [Hp [Hq _]%Forall_cons]%Forall_cons H1 H2 H3. unfold mac_text. cbn [mac_loop]. rewrite !bool_decide_true by done.
  change (0 + 1 + 1) with (2 * 1). change 0 with (1 - 1) at 1. rewrite mac_loop_pairs by (done || lia). f_equal; lia.
Qed.
Lemma hex_digit_range c v : hex_digit c = Some v -> 0 <= v < 16.
Proof. unfold hex_digit. repeat case_match; intros; simplify_eq; lia. Qed.
Lemma hex_not c : is_Some (hex_digit c) ->
  isspace c = false /\ c <> "-"%char /\ c <> "+"%char /\ Ascii.eqb c "x" || Ascii.eqb c "X" = false.
Proof.
  intros [v Hv]. destruct c as [[] [] [] [] [] [] [] []]; vm_compute in Hv; try discriminate Hv; by repeat split.
Qed.
Lemma scan_sign_hex c s : is_Some (hex_digit c) -> scan_sign (c :: s) = (false, c :: s).
Proof.
  intros [v Hv]. destruct c as [[] [] [] [] [] [] [] []]; vm_compute in Hv; try discriminate Hv; done.
Qed.
Lemma sscanf_x_pair p q s vp vq :
  hex_digit p = Some vp -> hex_digit q = Some vq -> (forall c, head s = Some c -> hex_digit c = None) ->
  sscanf_x (string_of_list_ascii (p :: q :: s)) = Some (16 * vp + vq).
Proof.
  intros Hp Hq Hs. unfold sscanf_x, txt. rewrite list_ascii_of_string_of_list_ascii.
  destruct (hex_not p) as (Hsp & _); [by eexists|]. rewrite span_none by done. cbn [snd].
  rewrite scan_sign_hex by (by eexists).
  destruct (hex_not q) as (_ & _ & _ & Hx); [by eexists|].
  assert (E : match p :: q :: s with
              | "0"%char :: c :: s' => if Ascii.eqb c "x" || Ascii.eqb c "X" then s' else p :: q :: s
              | _ => p :: q :: s
              end = p :: q :: s) by (rewrite Hx; by destruct p as [[] [] [] [] [] [] [] []]).
  rewrite E. unfold scan_digits. change (p :: q :: s) with ([p; q] ++ s).
  rewrite span_app; [|cbn; rewrite Hp, Hq; done|intros c Hc; rewrite Hs by done; done].
  cbn [foldl]. rewrite Hp, Hq. cbn [from_option id fmap option_fmap option_map].
  apply hex_digit_range in Hp, Hq. f_equal. unfold id.
  unfold u32. rewrite Z.min_r by lia. rewrite Z.mod_small; lia.
Qed.

(** Every MAC address written as six pairs of hexadecimal digits with colons
    or dashes passes [validateMac], and [isUnicastMac] reads the group bit of
    its first octet. *)
Theorem mac_spec p0 q0 (l : list (ascii * ascii * ascii)) v0 w0 :
  hex_digit p0 = Some v0 -> hex_digit q0 = Some w0 -> length l = 5%nat ->
  separators ((fun x => x.1.1) <$> l) -> hexes ((fun x => x.1.2) <$> l) -> hexes (snd <$> l) ->
  let mac := string_of_list_ascii (mac_text p0 q0 l) in
  validateMac mac = true /\ isUnicastMac mac = Ret (negb (Z.testbit (16 * v0 + w0) 0)).
Proof.
  intros Hp Hq Hl H1 H2 H3 mac.
  assert (Hv : validateMac mac = true).
  { unfold validateMac, mac, txt. rewrite list_ascii_of_string_of_list_ascii, mac_loop_text by (repeat constructor; try done; by eexists).
    rewrite Hl. done. }
  split; [done|]. unfold isUnicastMac. rewrite Hv. cbn [out_assert mbind out_bind]. unfold mac, mac_text.
  rewrite (sscanf_x_pair p0 q0 _ v0 w0 Hp Hq).
  - cbn [from_option]. unfold id. f_equal. change 1 with (Z.ones 1).
    rewrite Z.land_ones by lia. unfold u8. apply hex_digit_range in Hp, Hq. rewrite (Z.mod_small _ 256) by lia.
    rewrite Z.bit0_odd, Zmod_odd. by destruct (Z.odd _).
  - intros c Hc. destruct l as [|[[sep p] q] l]; [done|]. cbn in Hc. injection Hc as <-.
    apply Forall_cons in H1 as [Hs _]. cbn in Hs. by destruct Hs as [-> | ->].
Qed.
Lemma mac_spec_witness :
  mac_text "0" "2" [(":", "0", "0"); ("-", "1", "1"); (":", "a", "B"); (":", "f", "f"); (":", "0", "9")]%char
  = txt "02:00-11:aB:ff:09"
  /\ validateMac "02:00-11:aB:ff:09" = true /\ isUnicastMac "02:00-11:aB:ff:09" = Ret true.
Proof.
  split; [done|].
  apply (mac_spec "0" "2" [(":", "0", "0"); ("-", "1", "1"); (":", "a", "B"); (":", "f", "f"); (":", "0", "9")]%char 0 2);
    [done|done|done|..]; repeat constructor; (by eexists) || (by left) || (by right).
Defined.

(** What else passes: twelve digits in a row, of which the last octet is taken for
    the first, and texts that are no address. *)
Example mac_unseparated :
  validateMac "011122334454" = true /\ isUnicastMac "011122334454" = Ret true.
Proof. by vm_compute. Qed.
Example mac_not_an_address : validateMac "x0:11223344556" = true.
Proof. by vm_compute. Qed.
Example ipv6_overflows : validateIpv6 "2001:db8::1" = Halt Oob /\ validateIpv6 "2001:db8:::1" = Ret false.
Proof. by vm_compute. Qed.
Example netmasks :
  validateIpv4Netmask "255.255.254.0" = true /\ validateIpv4Netmask "0.0.0.0" = true
  /\ validateIpv4Netmask "255.0.255.0" = false /\ validateIpv4Netmask "255.255.255.256" = false.
Proof. by vm_compute. Qed.

(** ** Numerals read back *)

Lemma scan_digits_dec ds : ds <> [] -> forallb isdigit ds = true ->
  scan_digits 10 dec_digit ds = Some (Z.min 18446744073709551615 (dec_value ds)).
Proof.
  intros Hne Hd. unfold scan_digits.
  assert (H : forallb (fun c => bool_decide (is_Some (dec_digit c))) ds = true).
  { rewrite forallb_forall in *. intros c Hc. unfold dec_digit. by rewrite Hd. }
  assert (F : forall l a, forallb isdigit l = true ->
    foldl (fun acc c => 10 * acc + default 0 (dec_digit c)) a l = foldl (fun acc c => 10 * acc + (code c - 48)) a l).
  { induction l as [|c l IH]; intros a Hl; [done|]. cbn [foldl forallb] in *. apply andb_prop in Hl as [Hc Hl].
    rewrite IH by done. f_equal. unfold dec_digit. by rewrite Hc. }
  rewrite span_all by done. destruct ds as [|c ds]; [done|]. do 2 f_equal. by apply F.
Qed.
Lemma skip_sign ds : ds <> [] -> forallb isdigit ds = true -> scan_sign (snd (span isspace ds)) = (false, ds).
Proof.
  intros Hne Hd. destruct ds as [|c ds]; [done|]. cbn [forallb] in Hd. apply andb_prop in Hd as [Hc _].
  destruct (isdigit_cases c Hc) as (Hsp & _). rewrite span_none by done. cbn [snd].
  destruct c as [[] [] [] [] [] [] [] []]; done.
Qed.
Lemma dec_small n : 0 <= n <= 9223372036854775807 -> 0 <= n < 10 ^ 20.
Proof. change (10 ^ 20) with 100000000000000000000. lia. Qed.
Lemma dec_head fuel n : 0 < n < 10 ^ Z.of_nat fuel -> exists c ds, dec_fuel fuel n = c :: ds /\ c <> "0"%char.
Proof.
  revert n. induction fuel as [|fuel IH]; intros n Hn; [cbn in Hn; lia|]. cbn [dec_fuel].
  destruct (Z.ltb_spec n 10) as [Hlt|Hge].
  - exists (digit n), []. split; [done|]. intros E. apply (f_equal code) in E. rewrite code_digit in E by lia.
    change (code "0") with 48 in E. lia.
  - rewrite Nat2Z.inj_succ, Z.pow_succ_r in Hn by lia. destruct (IH (n / 10)) as (c & ds & -> & Hc); [dlia|].
    by exists c, (ds ++ [digit (n mod 10)]).
Qed.
Lemma dec_fuel_length fuel n : (length (dec_fuel fuel n) <= fuel)%nat.
Proof.
  revert n. induction fuel as [|fuel IH]; intros n; [done|]. cbn [dec_fuel]. case_match; [cbn; lia|].
  rewrite length_app. specialize (IH (n / 10)). cbn. lia.
Qed.
Lemma magnitude0_dec n : 0 <= n < 10 ^ 20 -> magnitude0 (dec n) = Some (Z.min 18446744073709551615 n).
Proof.
  intros Hn. destruct (dec_spec n Hn) as (H1 & H2 & H3).
  assert (E : magnitude0 (dec n) = scan_digits 10 dec_digit (dec n)).
  { destruct (decide (n = 0)) as [->|Hn0]; [done|].
    destruct (dec_head 20 n) as (c & ds & Hd & Hc); [change (Z.of_nat 20) with 20; lia|].
    unfold dec. rewrite Hd. unfold magnitude0. destruct c as [[] [] [] [] [] [] [] []]; done. }
  rewrite E, scan_digits_dec by done. by rewrite H3.
Qed.
