(* ===== verification/CidrParse.v ===== *)
(** * Netblocks and filters from the command line (common/cidr.c, common/list.c, common/xX.c)

    The texts of the options that name netblocks, pairs of netblocks, packet
    numbers and filters.  Text is cut with [strtok_r]; IPv6 addresses are written
    in brackets, and their colons are hidden from it while they are cut.  [errx]
    is [Exit]. *)

From Stdlib Require Import ZArith Lia String Ascii.
From stdpp Require Import gmap strings numbers base list.
From S2P Require Import Prelude Wire Cidr CString Cpp FlowMatch Validator.

(** ** The C library *)

(** %u of [sscanf], into an [unsigned int]. *)
Definition ULONG_MAX : Z := 18446744073709551615.
Definition scan_u (s : str) : option (Z * str) :=
  let '(neg, s) := scan_sign (snd (span isspace s)) in
  let '(ds, rest) := span isdigit s in
  match ds with
  | [] => None
  | _ =>
      let v := dec_value ds in
      Some (u32 (if ULONG_MAX <? v then ULONG_MAX else if (neg : bool) then u64 (- v) else v), rest)
  end.
(** %d, into an [int]. *)
Definition scan_d (s : str) : option (Z * str) :=
  let '(v, rest) := strtol s in if bool_decide (rest = s) then None else Some (i32 v, rest).
(** A character of the format. *)
Definition scan_lit (c : ascii) (s : str) : option str :=
  match s with c' :: s' => if Ascii.eqb c' c then Some s' else None | [] => None end.

(** [sscanf(s, "%u.%u.%u.%u/%d", ...)]: the octets when four or five values are
    read, with the fifth. *)
Definition scan_octets (s : str) : option (list Z * option Z) :=
  '(a, s) ← scan_u s; s ← scan_lit "." s;
  '(b, s) ← scan_u s; s ← scan_lit "." s;
  '(c, s) ← scan_u s; s ← scan_lit "." s;
  '(d, s) ← scan_u s;
  Some ([a; b; c; d], s ← scan_lit "/" s; '(m, _) ← scan_d s; Some m).

(** [inet_pton(AF_INET6)]: the bytes stored so far, the group being read (its
    digits, its value, the text where it began), and where a "::" was. *)
Definition pton6_end (acc : list Z) (colon : option nat) : option (list Z) :=
  match colon with
  | Some i => if (length acc <? 16)%nat then Some (take i acc ++ replicate (16 - length acc) 0 ++ drop i acc) else None
  | None => if (length acc =? 16)%nat then Some acc else None
  end.
Fixpoint pton6_go (s tok : str) (acc : list Z) (digits val : Z) (colon : option nat) : option (list Z) :=
  match s with
  | [] =>
      if 0 <? digits then if (length acc <=? 14)%nat then pton6_end (acc ++ [val / 256; val mod 256]) colon else None
      else pton6_end acc colon
  | c :: s' =>
      match FlowMatch.hex_digit c with
      | Some v => if digits =? 4 then None else pton6_go s' tok acc (digits + 1) (16 * val + v) colon
      | None =>
          if Ascii.eqb c ":" then
            if digits =? 0 then match colon with Some _ => None | None => pton6_go s' s' acc 0 0 (Some (length acc)) end
            else if bool_decide (s' = []) then None
            else if (length acc <=? 14)%nat then pton6_go s' s' (acc ++ [val / 256; val mod 256]) 0 0 colon
            else None
          else if Ascii.eqb c "." then
            if (length acc <=? 12)%nat then '(a, b, c, d) ← inet_pton4 tok; pton6_end (acc ++ [a; b; c; d]) colon else None
          else None
      end
  end.
Definition get_name2addr6 (s : str) : option (list Z) :=
  match s with
  | ":"%char :: ":"%char :: s' => pton6_go s' s' [] 0 0 (Some 0%nat)
  | ":"%char :: _ => None
  | _ => pton6_go s s [] 0 0 None
  end.

(** ** One netblock *)

Definition EBUF_SIZE : Z := 1024.
(** Hidden colons come back, and the text ends at a closing bracket. *)
Fixpoint unmask (s : str) : str :=
  match s with
  | [] => []
  | c :: s => if Ascii.eqb c "#" then ":"%char :: unmask s else if Ascii.eqb c "]" then [] else c :: unmask s
  end.
(** [inet_aton] of the four octets printed in decimal. *)
Definition network_of (octets : list Z) : Z :=
  match octets with [a; b; c; d] => a + 256 * b + 65536 * c + 16777216 * d | _ => 0 end.
Definition cidr_v4 (octets : list Z) (mask : Z) : res tcpr_cidr :=
  if 32 <? mask then Err (Exit (-1))
  else if existsb (fun o => 255 <? o) octets then Err (Exit (-1))
  else Ok {| family := AF_INET; network := network_of octets; network6 := network6 new_cidr; masklen := mask |}.
Definition cidr_v6 (s : str) : res tcpr_cidr :=
  let '(addr, rest) := span (fun c => negb (Ascii.eqb c "/")) s in
  let mask := match rest with
              | [] => 128
              | _ :: m => match scan_d m with Some (m, _) => m | None => masklen new_cidr end
              end in
  if (mask <? 0) || (128 <? mask) then Err (Exit (-1))
  else
    let addr := match addr with "["%char :: a => a | a => a end in
    match get_name2addr6 addr with
    | Some bytes => Ok {| family := AF_INET6; network := 0; network6 := bytes; masklen := mask |}
    | None => Err (Exit (-1))
    end.
Definition cidr2cidr (cidr : option str) : res tcpr_cidr :=
  match cidr with
  | None => Err Assert
  | Some s =>
      if EBUF_SIZE <? Z.of_nat (length s) then Err Assert
      else
        let s := unmask s in
        match scan_octets s with
        | Some (octets, mask) => cidr_v4 octets (default 32 mask)
        | None => cidr_v6 s
        end
  end.

(** ** Lists of netblocks *)

(** Up to the closing bracket, colons are hidden. *)
Fixpoint hide_colons (s : str) : str :=
  match s with
  | [] => []
  | c :: s' => if Ascii.eqb c "]" then s else (if Ascii.eqb c ":" then "#"%char else c) :: hide_colons s'
  end.
Definition mask_cidr6 (delim s : str) : str :=
  match s, delim with
  | "["%char :: s', ":"%char :: _ => hide_colons s'
  | _, _ => s
  end.
(** The loop on the rest of the text; each turn consumes a character. *)
Fixpoint parse_cidr_loop (fuel : nat) (delim rest : str) : res (list tcpr_cidr) :=
  match fuel with
  | O => Ok []
  | S fuel =>
      match strtok delim (mask_cidr6 delim rest) with
      | (None, _) => Ok []
      | (Some network, rest) =>
          c ← cidr2cidr (Some network);
          cs ← parse_cidr_loop fuel delim rest;
          Ok (c :: cs)
      end
  end.
Definition parse_cidr (delim cidrin : str) : res (list tcpr_cidr) :=
  let '(network, rest) := strtok delim (mask_cidr6 delim cidrin) in
  c ← cidr2cidr network;
  cs ← parse_cidr_loop (length cidrin) delim rest;
  Ok (c :: cs).

(** Pairs: [None] when a map does not have two netblocks. *)
Fixpoint cidr_maps (maps : list str) : res (option (list tcpr_cidrmap)) :=
  match maps with
  | [] => Ok (Some [])
  | map :: maps =>
      cs ← parse_cidr (txt ":") map;
      match cs with
      | c1 :: c2 :: _ =>
          rest ← cidr_maps maps;
          Ok (option_map (cons {| from := c1; to := c2 |}) rest)
      | _ => Ok None
      end
  end.
Definition parse_cidr_map (optarg : str) : res (option (list tcpr_cidrmap)) :=
  match tokens (txt ",") optarg with
  | [] => Err Undef
  | maps => cidr_maps maps
  end.

(** [parse_endpoints]: [strlcat] cuts at the size of the buffer. *)
Definition NEWMAP_LEN : nat := 92.
Definition newmap (a b : str) : str := take (NEWMAP_LEN - 1) (a ++ b).
(** The text before and after the first [pat]. *)
Fixpoint strstr (pat s : str) : option (str * str) :=
  if bool_decide (take (length pat) s = pat) then Some ([], s)
  else match s with
       | [] => None
       | c :: s' => '(a, b) ← strstr pat s'; Some (c :: a, b)
       end.
Definition parse_endpoints (optarg : str) : res (option (list tcpr_cidrmap * list tcpr_cidrmap)) :=
  let both a b :=
    m1 ← parse_cidr_map a;
    match m1 with
    | None => Ok None
    | Some m1 => m2 ← b; m2 ← parse_cidr_map m2; Ok (option_map (pair m1) m2)
    end in
  match optarg with
  | "["%char :: _ =>
      match strstr (txt "]:[") optarg with
      | None => Ok None
      | Some (a, p) => both (newmap (newmap (txt "[::/0]:") a) (txt "]")) (Ok (newmap (txt "[::/0]:") (drop 2 p)))
      end
  | _ =>
      match strtok (txt ":") optarg with
      | (None, _) => Err Undef
      | (Some ip1, rest) =>
          both (newmap (txt "0.0.0.0/0:") ip1)
            (match strtok (txt ":") rest with
             | (None, _) => Err Undef
             | (Some ip2, _) => Ok (newmap (txt "0.0.0.0/0:") ip2)
             end)
      end
  end.

(** ** Lists of packet numbers (common/list.c) *)
Record tcpr_list := { l_min : Z; l_max : Z }.

(** The regular expression ^[0-9]+(-[0-9]+)?$: the two numbers of a range. *)
Definition list_regex (s : str) : option (str * option str) :=
  let '(first, rest) := span isdigit s in
  match first, rest with
  | [], _ => None
  | _, [] => Some (first, None)
  | _, "-"%char :: second =>
      if bool_decide (second <> []) && forallb isdigit second then Some (first, Some second) else None
  | _, _ => None
  end.
(** [strtoull] with base 0, on digits. *)
Definition strtoull0 (s : str) : Z := Z.min ULONG_MAX (default 0 (magnitude0 s)).
Definition list_range (r : str * option str) : tcpr_list :=
  let min := strtoull0 (fst r) in
  {| l_min := min; l_max := match snd r with Some second => strtoull0 second | None => min end |}.
Fixpoint parse_ranges (toks : list str) : option (list tcpr_list) :=
  match toks with
  | [] => Some []
  | t :: toks => r ← list_regex t; rs ← parse_ranges toks; Some (list_range r :: rs)
  end.
(** [None]: a range that does not parse. *)
Definition parse_list (ourstr : str) : res (option (list tcpr_list)) :=
  match tokens (txt ",") ourstr with
  | [] => Err Undef
  | toks => Ok (parse_ranges toks)
  end.

(** [check_list]: [true] is TCPR_DIR_C2S. *)
Definition in_range (value : Z) (r : tcpr_list) : bool :=
  if negb (l_min r =? 0) && negb (l_max r =? 0) then (l_min r <=? value) && (value <=? l_max r)
  else if l_min r =? 0 then value <=? l_max r
  else l_min r <=? value.
Definition check_list (l : list tcpr_list) (value : Z) : res bool :=
  match l with [] => Err Undef | _ => Ok (existsb (in_range value) l) end.

(** ** Filters (common/xX.c) *)
Definition xXError : Z := 0.
Definition xXSource : Z := 1.
Definition xXDest : Z := 2.
Definition xXBoth : Z := 4.
Definition xXEither : Z := 8.
Definition xXPacket : Z := 16.
Definition xXBPF : Z := 32.
Definition xXExclude : Z := 128.
(** [tcpr_xX_t], with the filter of the [tcpr_bpf_t] next to it; its [type] is not used. *)
Record tcpr_xX := { x_mode : Z; x_cidr : list tcpr_cidr; x_list : list tcpr_list; x_filter : option str }.

(** [exclude]: the option is -X; [bpf]: the filter so far.  [None]: the packet
    numbers do not parse. *)
Definition parse_xX_str (exclude : bool) (bpf : option str) (s : str) : res (option tcpr_xX) :=
  let finish out cidr list filter :=
    if exclude && bool_decide (is_Some filter) then Err (Exit (-1))
    else Ok (Some {| x_mode := if exclude then out + xXExclude else out; x_cidr := cidr; x_list := list; x_filter := filter |}) in
  let netblocks out s := cs ← parse_cidr (txt ",") s; finish out cs [] bpf in
  let after (s : str) (k : str -> res (option tcpr_xX)) := match s with _ :: _ :: s => k s | _ => Err Undef end in
  match s with
  | "B"%char :: _ => after s (netblocks xXBoth)
  | "D"%char :: _ => after s (netblocks xXDest)
  | "E"%char :: _ => after s (netblocks xXEither)
  | "F"%char :: _ => after s (fun s => finish xXBPF [] [] (Some s))
  | "P"%char :: _ =>
      after s (fun s => l ← parse_list s; match l with Some l => finish xXPacket [] l bpf | None => Ok None end)
  | "S"%char :: _ => after s (netblocks xXSource)
  | _ => Err (Exit (-1))
  end.

(** The addresses of the packet against the netblocks; [true] is SEND. *)
Section process.
Context {A : Type} (check : list tcpr_cidr -> A -> res bool).
Definition cidr_verdict (mode : Z) (cidr : list tcpr_cidr) (src dst : A) : option (res bool) :=
  if mode =? xXSource then Some (check cidr src)
  else if mode =? xXDest then Some (check cidr dst)
  else if mode =? xXBoth then Some (d ← check cidr dst; if d : bool then check cidr src else Ok false)
  else if mode =? xXEither then Some (d ← check cidr dst; if d : bool then Ok true else check cidr src)
  else None.
Definition process_xX (mode : Z) (cidr : list tcpr_cidr) (src dst : A) : res bool :=
  if negb (Z.land mode xXExclude =? 0) then
    match cidr_verdict (Z.lxor mode xXExclude) cidr src dst with
    | Some r => b ← r; Ok (negb b)
    | None => Ok false
    end
  else
    match cidr_verdict mode cidr src dst with
    | Some r => r
    | None => Ok true
    end.
End process.
Definition process_xX_by_cidr_ipv4 : Z -> list tcpr_cidr -> Z -> Z -> res bool := process_xX check_ip_cidr.
Definition process_xX_by_cidr_ipv6 : Z -> list tcpr_cidr -> list Z -> list Z -> res bool := process_xX check_ip6_cidr.

(** ** Netblocks written out *)

Record block := { b_octets : list Z; b_mask : Z }.
Definition block_ok (b : block) : Prop :=
  length (b_octets b) = 4%nat /\ Forall (fun o => 0 <= o <= 255) (b_octets b) /\ 0 <= b_mask b <= 32.
(** x.x.x.x/y *)
Definition block_text (b : block) : str := join "." (dec <$> b_octets b) ++ "/"%char :: dec (b_mask b).
Definition block_cidr (b : block) : tcpr_cidr :=
  {| family := AF_INET; network := network_of (b_octets b); network6 := replicate 16 0; masklen := b_mask b |}.

Definition net_char (c : ascii) : bool := isdigit c || Ascii.eqb c "." || Ascii.eqb c "/".

Lemma dec_digits n : 0 <= n <= 255 -> dec n <> [] /\ forallb isdigit (dec n) = true /\ dec_value (dec n) = n.
Proof. intros Hn. apply dec_spec. change (10 ^ 20) with 100000000000000000000. lia. Qed.
Lemma scan_sign_digit c s : isdigit c = true -> scan_sign (c :: s) = (false, c :: s).
Proof.
  intros Hc. destruct (isdigit_cases c Hc) as (_ & Hm & Hp). unfold scan_sign.
  destruct c as [[] [] [] [] [] [] [] []]; done.
Qed.
Lemma scan_u_dec n s :
  0 <= n <= 255 -> (forall c, head s = Some c -> isdigit c = false) -> scan_u (dec n ++ s) = Some (n, s).
Proof.
  intros Hn Hs. destruct (dec_digits n Hn) as (H1 & H2 & H3). unfold scan_u.
  destruct (dec n) as [|c ds] eqn:Hd; [done|]. pose proof H2 as H2'. cbn in H2'. apply andb_prop in H2' as [Hc _].
  destruct (isdigit_cases c Hc) as (Hsp & _ & _). rewrite <- app_comm_cons, span_none by done. cbn [snd].
  rewrite scan_sign_digit by done. rewrite app_comm_cons, span_app by done. rewrite H3.
  replace (ULONG_MAX <? n) with false by (unfold ULONG_MAX; lia). do 2 f_equal. unfold u32. rewrite Z.mod_small; lia.
Qed.
Lemma scan_d_dec n : 0 <= n <= 255 -> scan_d (dec n) = Some (n, []).
Proof.
  intros Hn. unfold scan_d. rewrite strtol_dec_end by lia. destruct (dec_digits n Hn) as (H1 & _).
  rewrite bool_decide_false by done. do 2 f_equal. unfold i32. rewrite Z.mod_small; lia.
Qed.

Lemma block_ok_cases b : block_ok b -> exists a1 a2 a3 a4, b_octets b = [a1; a2; a3; a4]
  /\ 0 <= a1 <= 255 /\ 0 <= a2 <= 255 /\ 0 <= a3 <= 255 /\ 0 <= a4 <= 255.
Proof.
  intros (Hl & Ho & _). destruct (b_octets b) as [|a1 [|a2 [|a3 [|a4 [|]]]]]; try done.
  rewrite !Forall_cons in Ho. exists a1, a2, a3, a4. tauto.
Qed.
Lemma scan_octets_block b : block_ok b -> scan_octets (block_text b) = Some (b_octets b, Some (b_mask b)).
Proof.
  intros Hb. destruct (block_ok_cases b Hb) as (a1 & a2 & a3 & a4 & E & H1 & H2 & H3 & H4). destruct Hb as (_ & _ & Hm).
  unfold block_text. rewrite E. change (join "." (dec <$> [a1; a2; a3; a4])) with
    (dec a1 ++ "."%char :: dec a2 ++ "."%char :: dec a3 ++ "."%char :: dec a4).
  repeat (rewrite <- ?app_assoc; rewrite <- ?app_comm_cons). unfold scan_octets.
  do 4 (rewrite scan_u_dec by (done || (intros c [= <-]; done)); cbn [mbind option_bind scan_lit]; rewrite Ascii.eqb_refl;
    cbn [mbind option_bind]).
  by rewrite scan_d_dec by lia.
Qed.

Lemma digits_net s : forallb isdigit s = true -> forallb net_char s = true.
Proof. rewrite !forallb_forall. intros H c Hc. unfold net_char. by rewrite (H c Hc). Qed.
Lemma length_dec n : (length (dec n) <= 20)%nat.
Proof. apply dec_fuel_length. Qed.
Lemma block_text_ok b : block_ok b -> forallb net_char (block_text b) = true /\ (length (block_text b) <= 104)%nat.
Proof.
  intros Hb. destruct (block_ok_cases b Hb) as (a1 & a2 & a3 & a4 & E & H1 & H2 & H3 & H4). destruct Hb as (_ & _ & Hm).
  unfold block_text. rewrite E. change (join "." (dec <$> [a1; a2; a3; a4])) with
    (dec a1 ++ "."%char :: dec a2 ++ "."%char :: dec a3 ++ "."%char :: dec a4).
  assert (Hd : forall n, 0 <= n <= 255 -> forallb net_char (dec n) = true) by (intros n Hn; by apply digits_net, dec_digits).
  split.
  - rewrite forallb_app. cbn [forallb]. rewrite !forallb_app. cbn [forallb]. rewrite !forallb_app. cbn [forallb].
    rewrite !forallb_app. cbn [forallb]. rewrite !Hd by lia. done.
  - repeat (rewrite length_app; cbn [length]). pose proof (length_dec a1). pose proof (length_dec a2).
    pose proof (length_dec a3). pose proof (length_dec a4). pose proof (length_dec (b_mask b)). lia.
Qed.
Lemma net_char_not s c : forallb net_char s = true -> net_char c = false -> c_in c s = false.
Proof.
  rewrite forallb_forall. intros H Hc. apply not_true_is_false. intros (x & Hx & ->%Ascii.eqb_eq)%existsb_exists.
  by rewrite (H x Hx) in Hc.
Qed.
Lemma unmask_net s : forallb net_char s = true -> unmask s = s.
Proof.
  induction s as [|c s IH]; [done|]. cbn [forallb unmask]. intros [Hc Hs]%andb_prop.
  destruct (Ascii.eqb_spec c "#") as [->|_]; [done|]. destruct (Ascii.eqb_spec c "]") as [->|_]; [done|]. by rewrite IH.
Qed.
Lemma network_of_octets a1 a2 a3 a4 :
  0 <= a1 <= 255 -> 0 <= a2 <= 255 -> 0 <= a3 <= 255 -> 0 <= a4 <= 255 -> is_u32 (network_of [a1; a2; a3; a4]).
Proof. intros. unfold is_u32. cbn. lia. Qed.
Lemma block_cidr_ok b : block_ok b -> cidr4_ok (block_cidr b).
Proof.
  intros Hb. destruct (block_ok_cases b Hb) as (a1 & a2 & a3 & a4 & E & H). destruct Hb as (_ & _ & Hm).
  split; [done|]. split; [|done]. cbn [block_cidr network]. rewrite E. by apply network_of_octets; tauto.
Qed.
Lemma cidr2cidr_block b : block_ok b -> cidr2cidr (Some (block_text b)) = Ok (block_cidr b).
Proof.
  intros Hb. destruct (block_text_ok b Hb) as [Hn Hl]. unfold cidr2cidr.
  replace (EBUF_SIZE <? Z.of_nat (length (block_text b))) with false by (unfold EBUF_SIZE; lia).
  rewrite (unmask_net _ Hn), (scan_octets_block b Hb). change (default 32 (Some (b_mask b))) with (b_mask b).
  destruct (block_ok_cases b Hb) as (a1 & a2 & a3 & a4 & E & H). destruct Hb as (_ & _ & Hm).
  unfold cidr_v4. replace (32 <? b_mask b) with false by lia. rewrite E. cbn [existsb].
  replace (255 <? a1) with false by lia. replace (255 <? a2) with false by lia. replace (255 <? a3) with false by lia.
  replace (255 <? a4) with false by lia. cbn [orb]. unfold block_cidr. by rewrite E.
Qed.
(** The text of a netblock is one word for the delimiters. *)
Lemma block_word delim b : block_ok b -> forallb (fun c => negb (net_char c)) delim = true -> word delim (block_text b).
Proof.
  intros Hb Hd. destruct (block_text_ok b Hb) as [Hn _]. split.
  - unfold block_text. by destruct (join _ _).
  - rewrite forallb_forall in *. intros c Hc. apply negb_true_iff, not_true_is_false.
    intros (x & Hx & E)%existsb_exists. apply Ascii.eqb_eq in E as ->. specialize (Hd x Hx).
    first [by rewrite (Hn x Hc) in Hd | by rewrite (Hn _ Hc) in Hd].
Qed.
Lemma mask_net delim s : (forall c, head s = Some c -> net_char c = true) -> mask_cidr6 delim s = s.
Proof.
  intros H. destruct s as [|c s]; [done|]. specialize (H c eq_refl). unfold mask_cidr6.
  destruct c as [[] [] [] [] [] [] [] []]; done.
Qed.
Lemma head_join d b bs : block_ok b -> forall c, head (join d (block_text <$> (b :: bs))) = Some c -> net_char c = true.
Proof.
  intros Hb c Hc. destruct (block_text_ok b Hb) as [Hn _].
  assert (Hh : head (block_text b) = Some c).
  { destruct bs; cbn in Hc; [done|]. destruct (block_text b) eqn:E; [|done]. unfold block_text in E. by destruct (join _ _). }
  destruct (block_text b); [done|]. injection Hh as ->. cbn in Hn. by apply andb_prop in Hn as [? _].
Qed.

Section netblocks.
Context (delim : str) (d : ascii).
Context (Hd : c_in d delim = true) (Hdelim : forallb (fun c => negb (net_char c)) delim = true).

Lemma strtok_blocks b bs : block_ok b ->
  strtok delim (mask_cidr6 delim (join d (block_text <$> (b :: bs)))) = (Some (block_text b), join d (block_text <$> bs)).
Proof.
  intros Hb. rewrite mask_net by (by eapply head_join). pose proof (block_word delim b Hb Hdelim) as Hw. destruct bs as [|b' bs].
  - by apply strtok_last.
  - change (join d (block_text <$> b :: b' :: bs)) with (block_text b ++ d :: join d (block_text <$> b' :: bs)).
    by apply strtok_word.
Qed.
Lemma parse_cidr_loop_blocks bs fuel : Forall block_ok bs -> (length bs <= fuel)%nat ->
  parse_cidr_loop fuel delim (join d (block_text <$> bs)) = Ok (block_cidr <$> bs).
Proof.
  intros Hbs. revert fuel. induction Hbs as [|b bs Hb Hbs IH]; intros fuel Hf; [by destruct fuel, delim as [|[[] [] [] [] [] [] [] []] ?]|].
  destruct fuel as [|fuel]; [cbn in Hf; lia|]. cbn [parse_cidr_loop]. rewrite strtok_blocks by done.
  rewrite cidr2cidr_block by done. cbn [mbind res_bind]. rewrite IH by (done || cbn in Hf; lia). done.
Qed.
Lemma parse_cidr_blocks b bs : block_ok b -> Forall block_ok bs ->
  parse_cidr delim (join d (block_text <$> (b :: bs))) = Ok (block_cidr <$> (b :: bs)).
Proof.
  intros Hb Hbs. unfold parse_cidr. rewrite strtok_blocks by done. rewrite cidr2cidr_block by done. cbn [mbind res_bind].
  rewrite parse_cidr_loop_blocks; [done|done|].
  assert (Hl : (length (b :: bs) <= length (join d (block_text <$> (b :: bs))))%nat).
  { rewrite <- (length_fmap block_text (b :: bs)). apply length_join. apply Forall_fmap. constructor; [by apply (block_word delim)|].
    apply (Forall_impl _ _ _ Hbs). intros b' Hb'. by apply (block_word delim b' Hb' Hdelim). }
  cbn in Hl |- *. lia.
Qed.
End netblocks.

(** ** Maps of netblocks *)

Definition map_text (p : block * block) : str := join ":" (block_text <$> [p.1; p.2]).
Definition map_cidr (p : block * block) : tcpr_cidrmap := {| from := block_cidr p.1; to := block_cidr p.2 |}.
Definition map_ok (p : block * block) : Prop := block_ok p.1 /\ block_ok p.2.

Lemma map_word p : map_ok p -> word (txt ",") (map_text p).
Proof.
  intros [H1 H2]. destruct (block_word (txt ",") p.1 H1 eq_refl) as [Hne W1].
  destruct (block_word (txt ",") p.2 H2 eq_refl) as [_ W2]. unfold map_text. cbn [fmap list_fmap join]. split.
  - by destruct (block_text p.1).
  - rewrite forallb_app. cbn [forallb]. by rewrite W1, W2.
Qed.
Lemma parse_map p : map_ok p -> parse_cidr (txt ":") (map_text p) = Ok [block_cidr p.1; block_cidr p.2].
Proof. intros [H1 H2]. apply (parse_cidr_blocks (txt ":") ":" eq_refl eq_refl p.1 [p.2]); [done|by constructor]. Qed.
Lemma cidr_maps_ok ps : Forall map_ok ps -> cidr_maps (map_text <$> ps) = Ok (Some (map_cidr <$> ps)).
Proof.
  induction 1 as [|p ps Hp Hps IH]; [done|]. rewrite !fmap_cons. cbn [cidr_maps]. rewrite parse_map by done.
  cbn [mbind res_bind]. by rewrite IH.
Qed.

(** the text of a list of netblock pairs, x.x.x.x/y:x.x.x.x/y separated by
    commas, is read back as those pairs, for every list that is not empty. *)
Theorem cidr_map_roundtrip p ps :
  Forall map_ok (p :: ps) -> parse_cidr_map (join "," (map_text <$> (p :: ps))) = Ok (Some (map_cidr <$> (p :: ps))).
Proof.
  intros H. unfold parse_cidr_map. rewrite tokens_join.
  - by apply (cidr_maps_ok (p :: ps)).
  - done.
  - apply Forall_fmap. apply (Forall_impl _ _ _ H). exact map_word.
Qed.

(** ** Filters by netblock *)

Inductive side := SrcIp | DstIp | BothIps | EitherIp.
Definition side_char (x : side) : ascii := match x with SrcIp => "S" | DstIp => "D" | BothIps => "B" | EitherIp => "E" end.
Definition side_mode (x : side) : Z := match x with SrcIp => xXSource | DstIp => xXDest | BothIps => xXBoth | EitherIp => xXEither end.
Definition side_holds (x : side) (src dst : bool) : bool :=
  match x with SrcIp => src | DstIp => dst | BothIps => src && dst | EitherIp => src || dst end.
(** The address agrees with the netblock on its leading bits. *)
Definition in_block (ip : Z) (b : block) : bool := prefix4 (b_mask b) ip =? prefix4 (b_mask b) (network_of (b_octets b)).
Definition in_blocks (bs : list block) (ip : Z) : bool := existsb (in_block ip) bs.
Definition filter_text (x : side) (bs : list block) : str := side_char x :: ":"%char :: join "," (block_text <$> bs).

Lemma check_blocks b bs ip :
  Forall block_ok (b :: bs) -> is_u32 ip -> check_ip_cidr (block_cidr <$> (b :: bs)) ip = Ok (in_blocks (b :: bs) ip).
Proof.
  intros H Hi. unfold check_ip_cidr. rewrite (check_any_spec _ (fun c => prefix4 (masklen c) ip =? prefix4 (masklen c) (network c))).
  - rewrite bool_decide_false by done. cbn [orb]. unfold in_blocks. f_equal. induction (b :: bs) as [|b' bs' IH]; [done|].
    inversion H; subst. cbn [fmap list_fmap existsb]. f_equal. by apply IH.
  - apply Forall_fmap. apply (Forall_impl _ _ _ H). intros b' Hb'. by apply ip_in_cidr_prefix; [apply block_cidr_ok|].
Qed.
Lemma parse_filter (exclude : bool) x b bs : Forall block_ok (b :: bs) ->
  parse_xX_str exclude None (filter_text x (b :: bs))
  = Ok (Some {| x_mode := if exclude then side_mode x + xXExclude else side_mode x;
                x_cidr := block_cidr <$> (b :: bs); x_list := []; x_filter := None |}).
Proof.
  intros [Hb Hbs]%Forall_cons. unfold filter_text, parse_xX_str.
  destruct x; cbn [side_char]; rewrite (parse_cidr_blocks (txt ",") "," eq_refl eq_refl b bs Hb Hbs);
    cbn [mbind res_bind]; rewrite andb_false_r by done; done.
Qed.
Lemma process_sides {A} (check : list tcpr_cidr -> A -> res bool) (exclude : bool) x cidr src dst s d :
  check cidr src = Ok s -> check cidr dst = Ok d ->
  process_xX check (if exclude then side_mode x + xXExclude else side_mode x) cidr src dst = Ok (xorb exclude (side_holds x s d)).
Proof.
  intros Hs Hd. unfold process_xX, cidr_verdict. rewrite Hs, Hd. by destruct exclude, x, s, d.
Qed.

(** C35: a filter -x or -X with side S, D, B or E and a list of netblocks
    written x.x.x.x/y,...: the option is accepted, and with -x the packet is
    sent exactly when its source, destination, both or either address lies in
    one of the netblocks; with -X it is sent exactly when that is not so: for
    B when not both addresses lie inside, for E when neither does. The help
    text of -X has it the other way round (B: both must not match, E: either
    must not match), which differs when one of the two addresses lies inside. *)
Theorem filter_spec (exclude : bool) x b bs src dst :
  Forall block_ok (b :: bs) -> is_u32 src -> is_u32 dst ->
  exists f, parse_xX_str exclude None (filter_text x (b :: bs)) = Ok (Some f)
    /\ process_xX_by_cidr_ipv4 (x_mode f) (x_cidr f) src dst
       = Ok (xorb exclude (side_holds x (in_blocks (b :: bs) src) (in_blocks (b :: bs) dst))).
Proof.
  intros H Hs Hd. eexists. split; [by apply parse_filter|]. cbn [x_mode x_cidr].
  by apply process_sides; apply check_blocks.
Qed.

(** ** Packet numbers read back *)

Lemma digits_no_comma s : forallb isdigit s = true -> forallb (fun c => negb (c_in c (txt ","))) s = true.
Proof.
  rewrite !forallb_forall. intros H c Hc. specialize (H c Hc). by destruct c as [[] [] [] [] [] [] [] []].
Qed.

(** A number, or a range written first-last. *)
Definition range_text (r : Z * option Z) : str :=
  match r with (a, None) => dec a | (a, Some b) => dec a ++ "-"%char :: dec b end.
Definition range_ok (r : Z * option Z) : Prop :=
  0 < fst r <= ULONG_MAX /\ match snd r with Some b => 0 < b <= ULONG_MAX | None => True end.
Definition in_text_range (value : Z) (r : Z * option Z) : bool := (fst r <=? value) && (value <=? default (fst r) (snd r)).
Definition range_of (r : Z * option Z) : tcpr_list := {| l_min := fst r; l_max := default (fst r) (snd r) |}.

Lemma number_dec n : 0 < n <= ULONG_MAX -> dec n <> [] /\ forallb isdigit (dec n) = true /\ strtoull0 (dec n) = n.
Proof.
  unfold ULONG_MAX. intros Hn. assert (Hs : 0 <= n < 10 ^ 20) by (change (10 ^ 20) with 100000000000000000000; lia).
  destruct (dec_spec n Hs) as (H1 & H2 & _). split; [done|]. split; [done|]. unfold strtoull0. rewrite magnitude0_dec by done.
  unfold default, id, ULONG_MAX. lia.
Qed.
Lemma regex_range r : range_ok r ->
  list_regex (range_text r) = Some (dec (fst r), dec <$> snd r) /\ word (txt ",") (range_text r).
Proof.
  destruct r as [a [b|]]; intros [Ha Hb]; cbn [fst snd range_text] in *;
    destruct (number_dec a Ha) as (A1 & A2 & _); unfold list_regex.
  - destruct (number_dec b Hb) as (B1 & B2 & _). rewrite span_app by (done || (intros c [= <-]; done)).
    rewrite bool_decide_true, B2 by done. cbn [andb]. split; [by destruct (dec a)|]. split; [by destruct (dec a)|].
    rewrite forallb_app. cbn [forallb]. rewrite (digits_no_comma _ A2), (digits_no_comma _ B2). done.
  - rewrite span_all by done. split; [by destruct (dec a)|]. split; [done|]. by apply digits_no_comma.
Qed.
Lemma parse_ranges_text rs : Forall range_ok rs ->
  parse_ranges (range_text <$> rs) = Some (range_of <$> rs).
Proof.
  induction 1 as [|r rs Hr Hrs IH]; [done|]. rewrite !fmap_cons. cbn [parse_ranges].
  destruct (regex_range r Hr) as [-> _]. cbn [mbind option_bind]. rewrite IH. cbn [mbind option_bind]. do 2 f_equal.
  destruct r as [a [b|]], Hr as [Ha Hb]; unfold list_range; cbn [fst snd fmap option_fmap option_map] in *;
    destruct (number_dec a Ha) as (_ & _ & ->); [|done]. by destruct (number_dec b Hb) as (_ & _ & ->).
Qed.
Lemma in_ranges rs value : Forall range_ok rs ->
  existsb (in_range value) (range_of <$> rs) = existsb (in_text_range value) rs.
Proof.
  induction 1 as [|x xs [Hx Hy] Hxs IH]; [done|]. rewrite fmap_cons. cbn [existsb]. f_equal; [|exact IH].
  unfold in_range, in_text_range, range_of. cbn [l_min l_max]. replace (fst x =? 0) with false by lia.
  destruct x as [a [b|]]; cbn in *; [replace (b =? 0) with false by lia|replace (a =? 0) with false by lia]; done.
Qed.

(** a list of packet numbers and ranges first-last separated by commas, with
    numbers from 1 to 2^64-1 written without leading zeros, is accepted, and a
    packet is in the list exactly when its number is one of them or in one of
    the ranges. *)
Theorem list_spec r rs value :
  Forall range_ok (r :: rs) ->
  exists l, parse_list (join "," (range_text <$> (r :: rs))) = Ok (Some l)
    /\ check_list l value = Ok (existsb (in_text_range value) (r :: rs)).
Proof.
  intros H. eexists. split.
  - unfold parse_list. rewrite tokens_join.
    + rewrite fmap_cons. f_equal. exact (parse_ranges_text (r :: rs) H).
    + done.
    + apply Forall_fmap. apply (Forall_impl _ _ _ H). intros x Hx. by apply regex_range.
  - rewrite fmap_cons. unfold check_list. f_equal. exact (in_ranges (r :: rs) value H).
Qed.

(** ** The fuel of the loop *)

Lemma span_length p s : (length (fst (span p s)) + length (snd (span p s)) = length s)%nat.
Proof. induction s as [|c s IH]; [done|]. cbn. destruct (p c); [|done]. destruct (span p s). cbn in *. lia. Qed.
Lemma strtok_shorter delim s t rest : strtok delim s = (Some t, rest) -> (length rest < length s)%nat.
Proof.
  unfold strtok. pose proof (span_length (fun c => c_in c delim) s) as H1. destruct (span _ s) as [a b]. cbn in H1.
  destruct b as [|c b]; [done|]. pose proof (span_length (fun c => negb (c_in c delim)) (c :: b)) as H2.
  destruct (span _ (c :: b)) as [t' r]. intros [= <- <-]. cbn [fst snd length] in *. destruct t', r; cbn in *; lia.
Qed.
Lemma mask_cidr6_length delim s : (length (mask_cidr6 delim s) <= length s)%nat.
Proof.
  assert (H : forall t, length (hide_colons t) = length t).
  { induction t as [|c t IH]; [done|]. cbn. destruct (Ascii.eqb c "]"); cbn; congruence. }
  unfold mask_cidr6. repeat case_match; rewrite ?H; cbn; lia.
Qed.
(** Any fuel from the length of the text on gives the same netblocks: the loop
    of [parse_cidr] ends by itself. *)
Lemma parse_cidr_loop_enough delim f g s :
  (length s <= f)%nat -> (length s <= g)%nat -> parse_cidr_loop f delim s = parse_cidr_loop g delim s.
Proof.
  assert (H0 : forall f, parse_cidr_loop f delim [] = Ok []).
  { intros [|n]; [done|]. cbn. by destruct delim. }
  revert g s. induction f as [|f IH]; intros g s Hf Hg.
  - destruct s; [by rewrite !H0|cbn in Hf; lia].
  - destruct g as [|g]; [destruct s; [by rewrite !H0|cbn in Hg; lia]|]. cbn [parse_cidr_loop].
    destruct (strtok delim (mask_cidr6 delim s)) as [[t|] rest] eqn:E; [|done].
    apply strtok_shorter in E. pose proof (mask_cidr6_length delim s). rewrite (IH g) by lia. done.
Qed.

(** ** On concrete texts *)

Definition b10 : block := {| b_octets := [10; 1; 0; 0]; b_mask := 16 |}.
Definition b192 : block := {| b_octets := [192; 168; 7; 0]; b_mask := 24 |}.
Lemma b10_ok : block_ok b10.
Proof. split; [done|]. split; [repeat constructor; done|done]. Defined.
Lemma b192_ok : block_ok b192.
Proof. split; [done|]. split; [repeat constructor; done|done]. Defined.

Lemma cidr_map_roundtrip_witness :
  parse_cidr_map (txt "10.1.0.0/16:192.168.7.0/24,192.168.7.0/24:10.1.0.0/16")
  = Ok (Some [map_cidr (b10, b192); map_cidr (b192, b10)]).
Proof.
  refine (cidr_map_roundtrip (b10, b192) [(b192, b10)] _).
  constructor; [exact (conj b10_ok b192_ok)|]. constructor; [exact (conj b192_ok b10_ok)|constructor].
Defined.
(** 10.1.2.3 to 192.168.7.9, with -X and the netblocks on both sides. *)
Lemma filter_spec_witness :
  exists f, parse_xX_str true None (txt "B:10.1.0.0/16,192.168.7.0/24") = Ok (Some f)
    /\ process_xX_by_cidr_ipv4 (x_mode f) (x_cidr f) 50462986 151496896 = Ok false.
Proof.
  refine (filter_spec true BothIps b10 [b192] 50462986 151496896 _ _ _); [|done|done].
  constructor; [exact b10_ok|]. constructor; [exact b192_ok|constructor].
Defined.
Lemma list_spec_witness :
  exists l, parse_list (txt "1-3,7,9-18446744073709551615") = Ok (Some l) /\ check_list l 8 = Ok false.
Proof.
  refine (list_spec (1, Some 3) [(7, None); (9, Some 18446744073709551615)] 8 _).
  repeat (constructor; [split; cbn; unfold ULONG_MAX; lia|]). constructor.
Defined.

(** IPv6 netblocks are written in brackets when they are paired. *)
Example endpoints6 :
  parse_endpoints (txt "[2001:db8::1]:[2001:db8::2]")
  = let host n := {| family := AF_INET6; network := 0; network6 := [32; 1; 13; 184] ++ replicate 11 0 ++ [n]; masklen := 128 |} in
    let any := {| family := AF_INET6; network := 0; network6 := replicate 16 0; masklen := 0 |} in
    Ok (Some ([{| from := any; to := host 1 |}], [{| from := any; to := host 2 |}])).
Proof. by vm_compute. Qed.
(** The test of the mask length has no lower bound for IPv4. *)
Example negative_mask :
  cidr2cidr (Some (txt "1.2.3.4/-5"))
  = Ok {| family := AF_INET; network := 67305985; network6 := replicate 16 0; masklen := -5 |}.
Proof. by vm_compute. Qed.
(** From -32 on the mask is shifted by more than its width. *)
Example negative_mask_undefined :
  (c ← cidr2cidr (Some (txt "1.2.3.4/-40")); ip_in_cidr c 67305985) = Err Undef.
Proof. by vm_compute. Qed.
(** A mask that is no number leaves the placeholder 99 of [new_cidr], which the
    range test of an IPv6 mask lets through. *)
Example mask_not_a_number : (c ← cidr2cidr (Some (txt "::1/x")); Ok (masklen c)) = Ok 99.
Proof. by vm_compute. Qed.
(** Base 0: a leading zero is octal, and "08" is packet 0, for which [check_list]
    takes the range as open below. *)
Example octal_packet_numbers :
  parse_list (txt "010,08-09") = Ok (Some [{| l_min := 8; l_max := 8 |}; {| l_min := 0; l_max := 0 |}]).
Proof. by vm_compute. Qed.
(** A text without any netblock stops the program by an assertion, without any
    packet number by a null pointer. *)
Example empty_texts :
  parse_cidr (txt ",") (txt ",") = Err Assert /\ parse_cidr_map (txt ",") = Err Undef /\ parse_list (txt ",") = Err Undef.
Proof. by vm_compute. Qed.
