(* ===== verification/MatchParser.v ===== *)
(** * The parser of matches (graph/graph-parser/match_parser.cc)

    The "match" object of a flow rule, as the JSON library gives it, turned
    into a high-level match.  Every way to reject it (an unknown key, a value of
    another type, a text that does not validate) makes the whole graph rejected
    and is the exception [ParseError] here. *)

From Stdlib Require Import ZArith Lia String Ascii.
From stdpp Require Import gmap strings numbers base list.
From S2P Require Import Prelude CString Cpp FlowMatch HighLevel Json Validator.

Definition reject {A} : out A := Throw ParseError.
Definition check (b : bool) : out unit := if b then Ret tt else reject.

(** ** References to ports

    "vnf:id:port:n" or "endpoint:id"; what does not start with "endpoint" is
    taken for a network function. *)
Inductive port_type := VNF_PORT_TYPE | EP_PORT_TYPE.
Definition refers_to (toks : list string) : port_type :=
  match toks with t :: _ => if bool_decide (t = "endpoint") then EP_PORT_TYPE else VNF_PORT_TYPE | [] => VNF_PORT_TYPE end.
(** The buffer "id:n", not initialised without a second token. *)
Definition vnf_id_tmp (toks : list string) : out string :=
  match toks !! 1%nat with
  | Some id => Ret (id +:+ ":" +:+ default "" (toks !! 3%nat))
  | None => Halt Undef
  end.

Definition nfId (id_port : string) : out string :=
  toks ← of_res (colon_tokens id_port); Ret (default "" (toks !! 0%nat)).
Definition nfPort (name_port : string) : out Z :=
  toks ← of_res (colon_tokens name_port);
  Ret (match toks !! 1%nat with Some t => default 0 (sscanf_u t) | None => 0 end).
Definition nfIsPort (name_port : string) : out bool :=
  toks ← of_res (colon_tokens name_port); Ret (bool_decide (is_Some (toks !! 1%nat))).
Definition epName (name_port : string) : out string :=
  toks ← of_res (colon_tokens name_port); Ret (default "" (toks !! 1%nat)).
(** The function and its port, numbered from 1. *)
Definition vnf_ref (toks : list string) : out (string * Z) :=
  vnf_name ← vnf_id_tmp toks;
  nf_name ← nfId vnf_name;
  port ← nfPort vnf_name;
  is_port ← nfIsPort vnf_name;
  if bool_decide (nf_name = "") || negb is_port then reject else Ret (nf_name, u32 (port + 1)).

(** The endpoints declared in the graph, by identifier. *)
Record endpoints := {
  iface_id : gmap string string;
  internal_id : gmap string string;
  vlan_id : gmap string (string * string);
  gre_id : gmap string string
}.
Inductive ep_kind :=
| EpInterface (name : string) | EpInternal (group : string) | EpVlan (v_id iface : string) | EpGre | EpUnknown.
Definition ep_lookup (e : endpoints) (eP : string) : ep_kind :=
  if bool_decide (eP = "") then EpUnknown
  else match iface_id e !! eP, internal_id e !! eP, vlan_id e !! eP, gre_id e !! eP with
       | Some n, _, _, _ => EpInterface n
       | None, Some g, _, _ => EpInternal g
       | None, None, Some (v, i), _ => EpVlan v i
       | None, None, None, Some _ => EpGre
       | None, None, None, None => EpUnknown
       end.

(** ** The members *)

Definition with_base (b : Match) (m : HMatch) : HMatch :=
  {| hm_base := b; hm_input := hm_input m; hm_nf_port := hm_nf_port m; hm_group := hm_group m; hm_gre := hm_gre m;
     hm_input_endpoint := hm_input_endpoint m; hm_nf_endpoint_port := hm_nf_endpoint_port m; hm_type := hm_type m |}.
Definition setNFEndpointPort (s : string) (m : HMatch) : HMatch :=
  {| hm_base := hm_base m; hm_input := hm_input m; hm_nf_port := hm_nf_port m; hm_group := hm_group m; hm_gre := hm_gre m;
     hm_input_endpoint := hm_input_endpoint m; hm_nf_endpoint_port := Some s; hm_type := hm_type m |}.

(** The match, the action of the rule (NULL unless it was parsed before), and
    whether a port has been given. *)
Record mstate := { ms_match : HMatch; ms_action : option Action; ms_found : bool }.
Definition on_match (f : HMatch -> HMatch) (s : mstate) : mstate :=
  {| ms_match := f (ms_match s); ms_action := ms_action s; ms_found := ms_found s |}.
Definition on_base (f : Match -> Match) (s : mstate) : mstate := on_match (fun m => with_base (f (hm_base m)) m) s.

Definition parse_port_in (e : endpoints) (value : string) (s : mstate) : out mstate :=
  _ ← check (negb (ms_found s));
  let s := {| ms_match := ms_match s; ms_action := ms_action s; ms_found := true |} in
  toks ← of_res (colon_tokens value);
  let s := match toks with
           | t :: _ =>
               if bool_decide (t = "vnf") then on_match (setNFEndpointPort value) s
               else if bool_decide (t = "endpoint") then on_match (setInputEndpoint value) s
               else s
           | [] => s
           end in
  match refers_to toks with
  | VNF_PORT_TYPE =>
      '(nf, port) ← vnf_ref toks;
      Ret (on_match (fun m => fst (setNFport nf port m)) s)
  | EP_PORT_TYPE =>
      eP ← epName value;
      match ep_lookup e eP with
      | EpInterface realName => Ret (on_match (fun m => fst (setInputPort realName m)) s)
      | EpInternal group =>
          _ ← check (negb (bool_decide (group = "")));
          Ret (on_match (fun m => fst (setEndPointInternal group m)) s)
      | EpVlan v_id iface =>
          (* out of range is rejected only when nothing could be read *)
          let vlanID := default 0 (u32 <$> scan_long v_id) in
          let s := on_base (setEndpointVlanID (Z.land vlanID 65535)) s in
          let s := on_match (fun m => fst (setInputPort iface m)) s in
          action ← deref (ms_action s);
          Ret {| ms_match := ms_match s;
                 ms_action := Some (addGenericAction {| va_type := ACTION_ENDPOINT_VLAN_POP; va_endpoint := ""; va_label := vlanID |} action);
                 ms_found := ms_found s |}
      | EpGre => Ret (on_match (fun m => fst (setEndPointGre eP m)) s)
      | EpUnknown => Ret s
      end
  end.

(** The keys whose value is kept as a text, with the check it passes. *)
Inductive check_kind := CheckMac | CheckIpv4 | CheckNetmask | CheckIpv6 | CheckNothing.
Definition validate (k : check_kind) (v : string) : out bool :=
  match k with
  | CheckMac => Ret (validateMac v)
  | CheckIpv4 => Ret (validateIpv4 v)
  | CheckNetmask => Ret (validateIpv4Netmask v)
  | CheckIpv6 => validateIpv6 v
  | CheckNothing => Ret true
  end.
Definition str_keys : list (string * (check_kind * cfield)) :=
  [("source_mac", (CheckMac, eth_src)); ("eth_src_mask", (CheckMac, eth_src_mask));
   ("dest_mac", (CheckMac, eth_dst)); ("eth_dst_mask", (CheckMac, eth_dst_mask));
   ("ipv4_src_mask", (CheckNetmask, ipv4_src_mask)); ("ipv4_dst_mask", (CheckNetmask, ipv4_dst_mask));
   ("arp_spa", (CheckIpv4, arp_spa)); ("arp_spa_mask", (CheckNetmask, arp_spa_mask));
   ("arp_tpa", (CheckIpv4, arp_tpa)); ("arp_tpa_mask", (CheckNetmask, arp_tpa_mask));
   ("arp_sha", (CheckMac, arp_sha)); ("arp_tha", (CheckMac, arp_tha));
   ("ipv6_src_mask", (CheckIpv6, ipv6_src_mask)); ("ipv6_dst_mask", (CheckIpv6, ipv6_dst_mask));
   ("ipv6_nd_target", (CheckNothing, ipv6_nd_target)); ("ipv6_nd_sll", (CheckNothing, ipv6_nd_sll));
   ("ipv6_nd_tll", (CheckNothing, ipv6_nd_tll))].
(** "source_ip" and "dest_ip" are IPv6 when they have a colon. *)
Definition str_key (k v : string) : option (check_kind * cfield) :=
  let v6 := c_in ":" (txt v) in
  if bool_decide (k = "source_ip") then Some (if v6 then (CheckIpv6, ipv6_src) else (CheckIpv4, ipv4_src))
  else if bool_decide (k = "dest_ip") then Some (if v6 then (CheckIpv6, ipv6_dst) else (CheckIpv4, ipv4_dst))
  else snd <$> find_first (fun x => bool_decide (fst x = k)) str_keys.

(** The keys whose value is read as a number: the variable it is stored in and
    the greatest value accepted. *)
Definition u64 (x : Z) : Z := x mod 18446744073709551616.
Definition num_keys : list (string * ((string -> option Z) * Z * (Z -> Match -> Match))) :=
  let d16 v := u16 <$> scan_long v in
  let d32 v := u32 <$> scan_long v in
  let d64 v := u64 <$> scan_long v in
  let i32 v := u32 <$> strtol0 v in
  [("ether_type", (i32, 65535, set_num ethType));
   ("vlan_pcp", (d16, 255, set_num vlanPCP)); ("ip_dscp", (d16, 255, set_num ipDSCP)); ("ip_ecn", (d16, 255, set_num ipECN));
   ("source_port", (d32, 65535, setTransportSrcPort)); ("sctp_src", (d32, 65535, setTransportSrcPort));
   ("dest_port", (d32, 65535, setTransportDstPort)); ("sctp_dst", (d32, 65535, setTransportDstPort));
   ("icmpv4_type", (d16, 255, set_num icmpv4Type)); ("icmpv4_code", (d16, 255, set_num icmpv4Code));
   ("arp_opcode", (d32, 65535, set_num arpOpcode));
   ("ipv6_flabel", (d64, 4294967295, set_num ipv6_flabel));
   ("icmpv6_type", (d16, 255, set_num icmpv6Type)); ("icmpv6_code", (d16, 255, set_num icmpv6Code));
   ("mpls_label", (d64, 1048575, set_num mplsLabel)); ("mpls_tc", (d16, 255, set_num mplsTC));
   ("protocol", (d16, 255, setIpProto))].

(** Out of range is rejected only when nothing could be read, and then the
    variable is not initialised. *)
Definition parse_vlan_id (v : string) (m : Match) : out Match :=
  if bool_decide (v = "ANY") then Ret (setVlanIDAnyVlan m)
  else if bool_decide (v = "NO_VLAN") then Ret (setVlanIDNoVlan m)
  else match strtol0 v with
       | Some n => Ret (setVlanID (Z.land (u32 n) 65535) m)
       | None => Halt Undef
       end.

(** Keys that are read and then ignored. *)
Definition ignored_keys : list string := ["hard_timeout"; "vlan_priority"; "tos_bits"].

Definition match_member (e : endpoints) (s : mstate) (kv : string * json) : out mstate :=
  let '(k, v) := kv in
  if bool_decide (k = "port_in") then v ← getString v; parse_port_in e v s
  else if bool_decide (k = "vlan_id") then
    v ← getString v;
    b ← parse_vlan_id v (hm_base (ms_match s));
    Ret (on_base (fun _ => b) s)
  else if bool_decide (k ∈ ignored_keys) then _ ← getString v; Ret s
  else
    match snd <$> find_first (fun x => bool_decide (fst x = k)) num_keys with
    | Some (read, limit, set) =>
        v ← getString v;
        match read v with
        | Some n => if n <=? limit then Ret (on_base (set n) s) else reject
        | None => reject
        end
    | None =>
        match v with
        | JStr v =>
            match str_key k v with
            | Some (c, f) =>
                ok ← validate c v;
                _ ← check ok;
                b ← of_res (set_str f (Some v) (hm_base (ms_match s)));
                Ret (on_base (fun _ => b) s)
            | None => reject
            end
        | _ => reject
        end
    end.

Definition parseMatch (e : endpoints) (object : list (string * json)) (m : HMatch) (action : option Action)
    : out (HMatch * option Action) :=
  s ← out_fold (match_member e) {| ms_match := m; ms_action := action; ms_found := false |} object;
  _ ← check (ms_found s);
  Ret (ms_match s, ms_action s).
