(* ===== verification/GraphParser.v ===== *)
(** * The parser of graphs (graph/graph-parser/graph_parser.cc)

    A forwarding graph in JSON, as the library gives it, turned into a
    high-level graph.  The members of an object come in the order of their keys
    ([std::map]), which the code relies on: the actions of a rule come before
    its match, the identifier of an endpoint before its description unless that
    is a GRE tunnel.  A graph that is rejected is [ParseError]; what was added
    to it before is dropped by the caller. *)

From Stdlib Require Import ZArith Lia String Ascii.
From stdpp Require Import gmap strings numbers base list.
From S2P Require Import Prelude CString Cpp FlowMatch HighLevel HLGraph Json Validator MatchParser.

Definition setName (n : string) (g : Graph) : Graph :=
  {| g_id := g_id g; g_name := n; g_endpoints := g_endpoints g; g_rules := g_rules g; g_interface := g_interface g;
     g_internal := g_internal g; g_gre := g_gre g; g_vlan := g_vlan g; g_vnfs := g_vnfs g |}.

(** ** Network functions *)

Definition vnf_port_member (p : vnf_port) (kv : string * json) : out vnf_port :=
  let '(k, v) := kv in
  if bool_decide (k = "id") then s ← getString v; Ret {| vp_id := s; vp_name := vp_name p; vp_mac := vp_mac p |}
  else if bool_decide (k = "name") then s ← getString v; Ret {| vp_id := vp_id p; vp_name := s; vp_mac := vp_mac p |}
  else if bool_decide (k = "mac") then
    s ← getString v;
    _ ← check (validateMac s);
    uni ← isUnicastMac s;
    _ ← check uni;
    Ret {| vp_id := vp_id p; vp_name := vp_name p; vp_mac := s |}
  else if bool_decide (k = "unify-ip") then Ret p
  else reject.
Definition parse_vnf_port (v : json) : out vnf_port :=
  port ← getObject v; out_fold vnf_port_member {| vp_id := ""; vp_name := ""; vp_mac := "" |} port.

(** The function read so far, whether it has a name, and the identifiers used. *)
Record vnf_state := { vs_vnf : VNFs; vs_named : bool; vs_used : gset string }.
Definition set_vnf (id name : string) (groups : list string) (template : string) (ports : list vnf_port)
    (named : bool) (used : gset string) : vnf_state :=
  {| vs_vnf := {| v_id := id; v_name := name; v_groups := groups; v_template := template; v_ports := ports |};
     vs_named := named; vs_used := used |}.
Definition vnf_member (s : vnf_state) (kv : string * json) : out vnf_state :=
  let '(k, v) := kv in
  let f := vs_vnf s in
  if bool_decide (k = "name") then
    n ← getString v; Ret (set_vnf (v_id f) n (v_groups f) (v_template f) (v_ports f) true (vs_used s))
  else if bool_decide (k = "vnf_template") then
    t ← getString v; Ret (set_vnf (v_id f) (v_name f) (v_groups f) t (v_ports f) (vs_named s) (vs_used s))
  else if bool_decide (k = "id") then
    id ← getString v;
    _ ← check (negb (bool_decide (id ∈ vs_used s)));
    Ret (set_vnf id (v_name f) (v_groups f) (v_template f) (v_ports f) (vs_named s) ({[id]} ∪ vs_used s))
  else if bool_decide (k = "unify-control") || bool_decide (k = "unify-env-variables") then Ret s
  else if bool_decide (k = "ports") then
    l ← getArray v;
    ps ← mapM (M := out) parse_vnf_port l;
    Ret (set_vnf (v_id f) (v_name f) (v_groups f) (v_template f) (v_ports f ++ ps) (vs_named s) (vs_used s))
  else if bool_decide (k = "groups") then
    l ← getArray v;
    gs ← mapM (M := out) getString l;
    Ret (set_vnf (v_id f) (v_name f) (v_groups f ++ gs) (v_template f) (v_ports f) (vs_named s) (vs_used s))
  else reject.
Definition parse_vnf (acc : Graph * gset string) (v : json) : out (Graph * gset string) :=
  let '(g, used) := acc in
  obj ← getObject v;
  s ← out_fold vnf_member (set_vnf "" "" [] "" [] false used) obj;
  _ ← check (vs_named s);
  Ret (addVNF g (vs_vnf s), vs_used s).
Definition parse_vnfs (v : json) (g : Graph) : out Graph :=
  l ← getArray v;
  '(g, _) ← out_fold parse_vnf (g, ∅) l;
  Ret g.

(** ** Endpoints *)

(** The variables of the loop, which keep their values from one endpoint to the
    next, the tables of the endpoints and the graph. *)
Record ep_state := {
  es_id : string; es_name : string; es_interface : string; es_v_id : string; es_in_group : string;
  es_if : bool; es_internal : bool; es_vlan : bool;
  es_used : gset string;
  es_eps : endpoints;
  es_graph : Graph
}.
Definition set_ep (id name interface v_id in_group : string) (f_if f_internal f_vlan : bool) (s : ep_state) : ep_state :=
  {| es_id := id; es_name := name; es_interface := interface; es_v_id := v_id; es_in_group := in_group;
     es_if := f_if; es_internal := f_internal; es_vlan := f_vlan;
     es_used := es_used s; es_eps := es_eps s; es_graph := es_graph s |}.
Definition set_ep_env (used : gset string) (e : endpoints) (g : Graph) (s : ep_state) : ep_state :=
  {| es_id := es_id s; es_name := es_name s; es_interface := es_interface s; es_v_id := es_v_id s;
     es_in_group := es_in_group s; es_if := es_if s; es_internal := es_internal s; es_vlan := es_vlan s;
     es_used := used; es_eps := e; es_graph := g |}.
Definition set_id (id : string) (s : ep_state) : ep_state :=
  set_ep id (es_name s) (es_interface s) (es_v_id s) (es_in_group s) (es_if s) (es_internal s) (es_vlan s) s.
Definition add_iface (id n : string) (e : endpoints) : endpoints :=
  {| iface_id := <[id := n]> (iface_id e); internal_id := internal_id e; vlan_id := vlan_id e; gre_id := gre_id e |}.
Definition add_internal (id g : string) (e : endpoints) : endpoints :=
  {| iface_id := iface_id e; internal_id := <[id := g]> (internal_id e); vlan_id := vlan_id e; gre_id := gre_id e |}.
Definition add_vlan (id v i : string) (e : endpoints) : endpoints :=
  {| iface_id := iface_id e; internal_id := internal_id e; vlan_id := <[id := (v, i)]> (vlan_id e); gre_id := gre_id e |}.
Definition add_gre (id ip : string) (e : endpoints) : endpoints :=
  {| iface_id := iface_id e; internal_id := internal_id e; vlan_id := vlan_id e; gre_id := <[id := ip]> (gre_id e) |}.

Definition iface_member (s : ep_state) (kv : string * json) : out ep_state :=
  let '(k, v) := kv in
  if bool_decide (k = "node-id") then _ ← getString v; Ret s
  else if bool_decide (k = "if-name") then
    n ← getString v;
    let s := set_ep (es_id s) (es_name s) n (es_v_id s) (es_in_group s) (es_if s) (es_internal s) (es_vlan s) s in
    Ret (set_ep_env (es_used s) (add_iface (es_id s) n (es_eps s)) (es_graph s) s)
  else reject.
Definition internal_member (s : ep_state) (kv : string * json) : out ep_state :=
  let '(k, v) := kv in
  if bool_decide (k = "internal-group") then
    g ← getString v;
    Ret (set_ep (es_id s) (es_name s) (es_interface s) (es_v_id s) g (es_if s) (es_internal s) (es_vlan s) s)
  else Ret s.
Definition vlan_member (s : ep_state) (kv : string * json) : out ep_state :=
  let '(k, v) := kv in
  if bool_decide (k = "vlan-id") then
    t ← getString v;
    Ret (set_ep (es_id s) (es_name s) (es_interface s) t (es_in_group s) (es_if s) (es_internal s) (es_vlan s) s)
  else if bool_decide (k = "if-name") then
    n ← getString v;
    Ret (set_ep (es_id s) (es_name s) n (es_v_id s) (es_in_group s) (es_if s) (es_internal s) (es_vlan s) s)
  else if bool_decide (k = "node-id") then _ ← getString v; Ret s
  else Ret s.

(** A tunnel: what has been found. *)
Record gre_state := {
  gs_local : option string; gs_remote : option string; gs_key : option string; gs_ttl : string; gs_safe : bool
}.
Definition gre_member (s : gre_state) (kv : string * json) : out gre_state :=
  let '(k, v) := kv in
  if bool_decide (k = "local-ip") then
    t ← getString v;
    Ret {| gs_local := Some t; gs_remote := gs_remote s; gs_key := gs_key s; gs_ttl := gs_ttl s; gs_safe := gs_safe s |}
  else if bool_decide (k = "remote-ip") then
    t ← getString v;
    Ret {| gs_local := gs_local s; gs_remote := Some t; gs_key := gs_key s; gs_ttl := gs_ttl s; gs_safe := gs_safe s |}
  else if bool_decide (k = "ttl") then
    t ← getString v;
    Ret {| gs_local := gs_local s; gs_remote := gs_remote s; gs_key := gs_key s; gs_ttl := t; gs_safe := gs_safe s |}
  else if bool_decide (k = "gre-key") then
    t ← getString v;
    Ret {| gs_local := gs_local s; gs_remote := gs_remote s; gs_key := Some t; gs_ttl := gs_ttl s; gs_safe := gs_safe s |}
  else if bool_decide (k = "secure") then
    b ← getBool v;
    Ret {| gs_local := gs_local s; gs_remote := gs_remote s; gs_key := gs_key s; gs_ttl := gs_ttl s; gs_safe := b |}
  else reject.
(** The identifier is looked for among the members that follow. *)
Definition id_ahead (rest : list (string * json)) (id : string) : out string :=
  match find_first (fun kv => bool_decide (fst kv = "id")) rest with
  | Some (_, v) => getString v
  | None => Ret id
  end.
Definition parse_gre (v : json) (rest : list (string * json)) (s : ep_state) : out ep_state :=
  obj ← getObject v;
  id ← id_ahead rest (es_id s);
  let s := set_id id s in
  t ← out_fold gre_member {| gs_local := None; gs_remote := None; gs_key := None; gs_ttl := ""; gs_safe := false |} obj;
  match gs_local t, gs_remote t, gs_key t with
  | Some local_ip, Some remote_ip, Some key =>
      let ep := {| eg_id := id; eg_name := es_name s; eg_local_ip := local_ip; eg_remote_ip := remote_ip;
                   eg_gre_key := key; eg_ttl := gs_ttl t; eg_is_safe := gs_safe t |} in
      Ret (set_ep_env (es_used s) (add_gre id local_ip (es_eps s)) (fst (addEndPointGre (es_graph s) ep)) s)
  | _, _, _ => reject
  end.

(** The members of an endpoint. *)
Fixpoint ep_members (els : list (string * json)) (s : ep_state) : out ep_state :=
  match els with
  | [] => Ret s
  | (k, v) :: els =>
      s ← (if bool_decide (k = "id") then
             id ← getString v;
             _ ← check (negb (bool_decide (id ∈ es_used s)));
             Ret (set_ep_env ({[id]} ∪ es_used s) (es_eps s) (es_graph s) (set_id id s))
           else if bool_decide (k = "name") then
             n ← getString v;
             Ret (set_ep (es_id s) n (es_interface s) (es_v_id s) (es_in_group s) (es_if s) (es_internal s) (es_vlan s) s)
           else if bool_decide (k = "type") then _ ← getString v; Ret s
           else if bool_decide (k = "interface") then
             obj ← getObject v;
             out_fold iface_member
               (set_ep (es_id s) (es_name s) (es_interface s) (es_v_id s) (es_in_group s) true (es_internal s) (es_vlan s) s) obj
           else if bool_decide (k = "internal") then
             obj ← getObject v;
             s ← out_fold internal_member
               (set_ep (es_id s) (es_name s) (es_interface s) (es_v_id s) (es_in_group s) (es_if s) true (es_vlan s) s) obj;
             Ret (set_ep_env (es_used s) (add_internal (es_id s) (es_in_group s) (es_eps s)) (es_graph s) s)
           else if bool_decide (k = "interface-out") then Ret s
           else if bool_decide (k = "vlan") then
             obj ← getObject v;
             s ← out_fold vlan_member
               (set_ep (es_id s) (es_name s) (es_interface s) (es_v_id s) (es_in_group s) (es_if s) (es_internal s) true s) obj;
             Ret (set_ep_env (es_used s) (add_vlan (es_id s) (es_v_id s) (es_interface s) (es_eps s)) (es_graph s) s)
           else if bool_decide (k = "gre-tunnel") then parse_gre v els s
           else _ ← getString v; Ret s);
      ep_members els s
  end.
(** What the flags say is added. *)
Definition add_endpoint (s : ep_state) : ep_state :=
  let flags f1 f2 f3 := set_ep (es_id s) (es_name s) (es_interface s) (es_v_id s) (es_in_group s) f1 f2 f3 s in
  if es_if s then
    let ep := {| ei_id := es_id s; ei_name := es_name s; ei_interface := es_interface s |} in
    set_ep_env (es_used s) (es_eps s) (fst (addEndPointInterface (es_graph s) ep)) (flags false (es_internal s) (es_vlan s))
  else if es_internal s then
    let ep := {| en_id := es_id s; en_name := es_name s; en_group := es_in_group s |} in
    set_ep_env (es_used s) (es_eps s) (fst (addEndPointInternal (es_graph s) ep)) (flags (es_if s) false (es_vlan s))
  else if es_vlan s then
    let ep := {| ev_id := es_id s; ev_name := es_name s; ev_vlan_id := es_v_id s; ev_interface := es_interface s |} in
    set_ep_env (es_used s) (es_eps s) (fst (addEndPointVlan (es_graph s) ep)) (flags (es_if s) (es_internal s) false)
  else s.
Definition parse_endpoint (s : ep_state) (v : json) : out ep_state :=
  obj ← getObject v;
  s ← ep_members obj s;
  Ret (add_endpoint s).
Definition ep_start (e : endpoints) (g : Graph) : ep_state :=
  {| es_id := ""; es_name := ""; es_interface := ""; es_v_id := ""; es_in_group := "";
     es_if := false; es_internal := false; es_vlan := false; es_used := ∅; es_eps := e; es_graph := g |}.
Definition parse_endpoints (v : json) (e : endpoints) (g : Graph) : out (endpoints * Graph) :=
  l ← getArray v;
  s ← out_fold parse_endpoint (ep_start e g) l;
  Ret (es_eps s, es_graph s).

(** ** Rules *)

(** The action, what is to be added to it, and whether an output was found. *)
Record act_state := { as_action : option Action; as_generic : list VlanAction; as_found : bool }.
Definition output_to (o : output_action) (gas : list VlanAction) : option Action := Some {| a_output := o; a_generic := gas |}.
Definition parse_output (e : endpoints) (value : string) (s : act_state) : out act_state :=
  toks ← of_res (colon_tokens value);
  _ ← check (negb (as_found s));
  a ← match refers_to toks with
      | VNF_PORT_TYPE =>
          '(id, port) ← vnf_ref toks;
          Ret (output_to (ActionNetworkFunction id value port) [])
      | EP_PORT_TYPE =>
          epID ← epName value;
          match ep_lookup e epID with
          | EpInterface realName => Ret (output_to (ActionPort realName value) [])
          | EpInternal group =>
              _ ← check (negb (bool_decide (group = "")));
              Ret (output_to (ActionEndPointInternal group value) [])
          | EpVlan v_id iface =>
              let vlanID := default 0 (sscanf_u v_id) in
              Ret (output_to (ActionPort iface value)
                     [{| va_type := ACTION_ENDPOINT_VLAN_PUSH; va_endpoint := value; va_label := vlanID |}])
          | EpGre => Ret (output_to (ActionEndPointGre epID value) [])
          | EpUnknown => Ret (as_action s)
          end
      end;
  Ret {| as_action := a; as_generic := as_generic s; as_found := true |}.
Definition ignored_actions : list string :=
  ["set_vlan_id"; "set_vlan_priority"; "set_ethernet_src_address"; "set_ethernet_dst_address"; "set_ip_src_address";
   "set_ip_dst_address"; "set_ip_tos"; "set_l4_src_port"; "set_l4_dst_port"; "output_to_queue"; "drop";
   "output_to_controller"].
Definition add_generic (ga : VlanAction) (s : act_state) : act_state :=
  {| as_action := as_action s; as_generic := as_generic s ++ [ga]; as_found := as_found s |}.
(** One element of the array; it has a single key. *)
Definition parse_action (e : endpoints) (s : act_state) (v : json) : out act_state :=
  obj ← getObject v;
  match obj with
  | [(k, v)] =>
      if bool_decide (k = "output_to_port") then v ← getString v; parse_output e v s
      else if bool_decide (k = "push_vlan") then
        t ← getString v;
        Ret (add_generic {| va_type := ACTION_VLAN_PUSH; va_endpoint := ""; va_label := u32 (default 0 (strtol0 t)) |} s)
      else if bool_decide (k = "pop_vlan") then
        b ← getBool v;
        Ret (if b : bool then add_generic {| va_type := ACTION_VLAN_POP; va_endpoint := ""; va_label := 0 |} s else s)
      else if bool_decide (k ∈ ignored_actions) then _ ← getString v; Ret s
      else reject
  | _ => Halt Assert
  end.
Definition parse_actions (e : endpoints) (v : json) (a : option Action) : out (option Action * bool) :=
  l ← getArray v;
  s ← out_fold (parse_action e) {| as_action := a; as_generic := []; as_found := false |} l;
  _ ← check (as_found s);
  match as_action s with
  | None => Halt Assert
  | Some a => Ret (Some (foldl (fun a ga => addGenericAction ga a) a (as_generic s)), negb (bool_decide (l = [])))
  end.

Record rule_state := {
  rs_id : option string; rs_priority : Z; rs_match : option HMatch; rs_action : option Action; rs_found_action : bool
}.
Definition rule_member (e : endpoints) (s : rule_state) (kv : string * json) : out rule_state :=
  let '(k, v) := kv in
  if bool_decide (k = "id") then
    id ← getString v;
    Ret {| rs_id := Some id; rs_priority := rs_priority s; rs_match := rs_match s; rs_action := rs_action s;
           rs_found_action := rs_found_action s |}
  else if bool_decide (k = "description") then _ ← getString v; Ret s
  else if bool_decide (k = "priority") then
    n ← getInt v;
    Ret {| rs_id := rs_id s; rs_priority := u64 n; rs_match := rs_match s; rs_action := rs_action s;
           rs_found_action := rs_found_action s |}
  else if bool_decide (k = "match") then
    obj ← getObject v;
    '(m, a) ← parseMatch e obj (default HMatch_new (rs_match s)) (rs_action s);
    Ret {| rs_id := rs_id s; rs_priority := rs_priority s; rs_match := Some m; rs_action := a;
           rs_found_action := rs_found_action s |}
  else if bool_decide (k = "actions") then
    '(a, found) ← parse_actions e v (rs_action s);
    Ret {| rs_id := rs_id s; rs_priority := rs_priority s; rs_match := rs_match s; rs_action := a;
           rs_found_action := rs_found_action s || found |}
  else reject.
(** A rule is checked after it is added: popping a tag needs a match on one. *)
Definition pops_vlan (a : Action) : bool :=
  existsb (fun ga => bool_decide (va_type ga = ACTION_VLAN_POP)) (a_generic a).
Definition parse_rule (e : endpoints) (g : Graph) (v : json) : out Graph :=
  obj ← getObject v;
  s ← out_fold (rule_member e)
        {| rs_id := None; rs_priority := 0; rs_match := None; rs_action := None; rs_found_action := false |} obj;
  _ ← check (rs_found_action s);
  match rs_match s, rs_id s with
  | Some m, Some id =>
      action ← deref (rs_action s);
      let '(g, added) := addRule g {| r_match := m; r_action := action; r_id := id; r_priority := rs_priority s |} in
      _ ← check added;
      _ ← check (negb (pops_vlan action) || checkVlanPresence m);
      Ret g
  | _, _ => reject
  end.
(** The rules; that two have the same priority is only reported. *)
Definition parse_big_switch (e : endpoints) (big_switch : list (string * json)) (g : Graph) : out (Graph * bool) :=
  out_fold (fun '(g, found) '(k, v) =>
    if bool_decide (k = "flow-rules") then
      l ← getArray v;
      g ← out_fold (parse_rule e) g l;
      Ret (g, true)
    else reject) (g, false) big_switch.

(** ** The graph *)

Record fg_state := { fg_graph : Graph; fg_eps : endpoints; fg_big_switch : option (list (string * json)) }.
Definition fg_member (s : fg_state) (kv : string * json) : out fg_state :=
  let '(k, v) := kv in
  let with_graph g := {| fg_graph := g; fg_eps := fg_eps s; fg_big_switch := fg_big_switch s |} in
  if bool_decide (k = "id") then _ ← getString v; Ret s
  else if bool_decide (k = "name") then n ← getString v; Ret (with_graph (setName n (fg_graph s)))
  else if bool_decide (k = "description") then _ ← getString v; Ret s
  else if bool_decide (k = "unify-monitoring") then Ret s
  else if bool_decide (k = "VNFs") then g ← parse_vnfs v (fg_graph s); Ret (with_graph g)
  else if bool_decide (k = "end-points") then
    '(e, g) ← parse_endpoints v (fg_eps s) (fg_graph s);
    Ret {| fg_graph := g; fg_eps := e; fg_big_switch := fg_big_switch s |}
  else if bool_decide (k = "big-switch") then
    obj ← getObject v;
    Ret {| fg_graph := fg_graph s; fg_eps := fg_eps s; fg_big_switch := Some obj |}
  else reject.
(** The content of the big switch is parsed last. *)
Definition parse_forwarding_graph (v : json) (s : fg_state) : out fg_state :=
  obj ← getObject v;
  s ← out_fold fg_member s obj;
  '(g, found) ← parse_big_switch (fg_eps s) (default [] (fg_big_switch s)) (fg_graph s);
  _ ← check (negb (bool_decide (is_Some (fg_big_switch s))) || found);
  Ret {| fg_graph := g; fg_eps := fg_eps s; fg_big_switch := fg_big_switch s |}.
Definition no_endpoints : endpoints := {| iface_id := ∅; internal_id := ∅; vlan_id := ∅; gre_id := ∅ |}.
Definition parseGraph (v : json) (graph : Graph) : out Graph :=
  obj ← getObject v;
  '(s, found) ← out_fold (fun '(s, found) '(k, v) =>
      if bool_decide (k = "forwarding-graph") then s ← parse_forwarding_graph v s; Ret (s, true) else reject)
    ({| fg_graph := graph; fg_eps := no_endpoints; fg_big_switch := None |}, false) obj;
  _ ← check found;
  Ret (fg_graph s).
