(* ===== verification/GraphJson.v ===== *)
(** * Graphs in JSON (the [toJSON] methods of graph/ and graph/high_level_graph/)

    What the REST server answers to a GET, and what a client sends back to
    change a graph.  An object is a [std::map], filled by assignments. *)

From Stdlib Require Import ZArith Lia String Ascii.
From stdpp Require Import gmap strings numbers base list.
From S2P Require Import Prelude CString Cpp FlowMatch HighLevel HLGraph Json.

(** [obj[k] = v]. *)
Fixpoint obj_set (k : string) (v : json) (o : list (string * json)) : list (string * json) :=
  match o with
  | [] => [(k, v)]
  | (k', v') :: o' =>
      match String.compare k k' with
      | Lt => (k, v) :: o
      | Eq => (k, v) :: o'
      | Gt => (k', v') :: obj_set k v o'
      end
  end.
Definition obj (l : list (string * json)) : list (string * json) := foldl (fun o '(k, v) => obj_set k v o) [] l.

(** ** Numbers on a stream *)
Definition udec (n : Z) : string := string_of_list_ascii (dec n).
Fixpoint hex_fuel (fuel : nat) (n : Z) : str :=
  let d n := ascii_of_nat (Z.to_nat (if n <? 10 then 48 + n else 87 + n)) in
  match fuel with
  | O => [d (n mod 16)]
  | S fuel => if n <? 16 then [d n] else hex_fuel fuel (n / 16) ++ [d (n mod 16)]
  end.
Definition uhex (n : Z) : string := string_of_list_ascii (hex_fuel 4 n).
(** A [uint8_t] is printed as a character; taken through [c_str] its NUL is lost. *)
Definition uchar (n : Z) : string :=
  if n =? 0 then "" else String (ascii_of_nat (Z.to_nat n)) "".

(** ** Matches (match.cc, high_level_match.cc) *)

Definition num_text (f : nfield) (n : Z) : string :=
  match f with
  | ethType => uhex n
  | ipProto => udec (Z.land n 255)
  | arpOpcode | ipv6_flabel | mplsLabel => udec n
  | _ => uchar n
  end.
Definition put_str (m : Match) (k : string) (f : cfield) (o : list (string * json)) : list (string * json) :=
  match str_of m f with Some s => obj_set k (JStr s) o | None => o end.
Definition put_num (m : Match) (k : string) (f : nfield) (o : list (string * json)) : list (string * json) :=
  match num_of m f with Some n => obj_set k (JStr (num_text f n)) o | None => o end.
Definition put_vlan (m : Match) (o : list (string * json)) : list (string * json) :=
  if isVlanID m then obj_set "vlan_id" (JStr (udec (vlanID m))) o
  else if isAnyVlan m then obj_set "vlan_id" (JStr "ANY") o
  else if isNoVlan m then obj_set "vlan_id" (JStr "NO_VLAN") o
  else o.
(** The destination port only when there is no source port. *)
Definition put_ports (b : bool) (ks kd : string) (m : Match) (o : list (string * json)) : list (string * json) :=
  if b then
    if negb (transport_src_port m =? 0) then obj_set ks (JStr (udec (transport_src_port m))) o
    else if negb (transport_dst_port m =? 0) then obj_set kd (JStr (udec (transport_dst_port m))) o
    else o
  else o.
Definition match_toJSON (m : Match) (o : list (string * json)) : list (string * json) :=
  let o := put_str m "source_mac" eth_src o in
  let o := put_str m "eth_src_mask" eth_src_mask o in
  let o := put_str m "dest_mac" eth_dst o in
  let o := put_str m "eth_dst_mask" eth_dst_mask o in
  let o := put_num m "ether_type" ethType o in
  let o := put_vlan m o in
  let o := put_num m "vlan_pcp" vlanPCP o in
  let o := put_num m "ip_dscp" ipDSCP o in
  let o := put_num m "ip_ecn" ipECN o in
  let o := put_num m "ip_proto" ipProto o in
  let o := put_str m "source_ip" ipv4_src o in
  let o := put_str m "ipv4_src_mask" ipv4_src_mask o in
  let o := put_str m "dest_ip" ipv4_dst o in
  let o := put_str m "ipv4_dst_mask" ipv4_dst_mask o in
  let o := put_ports (isTcpProtocol m || isUdpProtocol m) "source_port" "dest_port" m o in
  let o := put_ports (isSctpProtocol m) "sctp_src" "sctp_dst" m o in
  let o := put_num m "icmpv4_type" icmpv4Type o in
  let o := put_num m "icmpv4_code" icmpv4Code o in
  let o := put_num m "arp_opcode" arpOpcode o in
  let o := put_str m "arp_spa" arp_spa o in
  let o := put_str m "arp_spa_mask" arp_spa_mask o in
  let o := put_str m "arp_tpa" arp_tpa o in
  let o := put_str m "arp_tpa_mask" arp_tpa_mask o in
  let o := put_str m "arp_sha" arp_sha o in
  let o := put_str m "arp_tha" arp_tha o in
  let o := put_str m "source_ip" ipv6_src o in
  let o := put_str m "ipv6_src_mask" ipv6_src_mask o in
  let o := put_str m "dest_ip" ipv6_dst o in
  let o := put_str m "ipv6_dst_mask" ipv6_dst_mask o in
  let o := put_num m "ipv6_flabel" ipv6_flabel o in
  let o := put_str m "ipv6_nd_target" ipv6_nd_target o in
  let o := put_str m "ipv6_nd_sll" ipv6_nd_sll o in
  let o := put_str m "ipv6_nd_tll" ipv6_nd_tll o in
  let o := put_num m "icmpv6_type" icmpv6Type o in
  let o := put_num m "icmpv6_code" icmpv6Code o in
  let o := put_num m "mpls_label" mplsLabel o in
  let o := put_num m "mpls_tc" mplsTC o in
  put_str m "gre-key" gre_key o.
Definition hmatch_toJSON (m : HMatch) : out (list (string * json)) :=
  o ← match hm_type m with
      | MATCH_PORT | MATCH_ENDPOINT_GRE | MATCH_ENDPOINT_INTERNAL =>
          s ← of_res (of_cstr (hm_input_endpoint m)); Ret (obj_set "port_in" (JStr s) [])
      | MATCH_NF => s ← of_res (of_cstr (hm_nf_endpoint_port m)); Ret (obj_set "port_in" (JStr s) [])
      | MATCH_GENERIC => Ret []
      end;
  Ret (match_toJSON (hm_base m) o).

(** ** Actions and rules *)

(** What implements a VLAN endpoint is not shown. *)
Definition vlan_action_toJSON (ga : VlanAction) (o : list (string * json)) : list (string * json) :=
  match va_type ga with
  | ACTION_ENDPOINT_VLAN_PUSH | ACTION_ENDPOINT_VLAN_POP => o
  | ACTION_VLAN_PUSH => obj_set "push_vlan" (JStr (udec (va_label ga))) o
  | ACTION_VLAN_POP => obj_set "pop_vlan" (JBool true) o
  end.
Definition output_name (a : output_action) : string :=
  match a with
  | ActionPort _ n | ActionNetworkFunction _ n _ | ActionEndPointGre _ n | ActionEndPointInternal _ n => n
  end.
Definition action_toJSON (a : Action) : json :=
  JObj (foldl (fun o ga => vlan_action_toJSON ga o) (obj [("output_to_port", JStr (output_name (a_output a)))]) (a_generic a)).
Definition rule_toJSON (r : Rule) : out json :=
  m ← hmatch_toJSON (r_match r);
  Ret (JObj (obj [("id", JStr (r_id r)); ("priority", JInt (r_priority r)); ("match", JObj m);
                  ("actions", JArr [action_toJSON (r_action r)])])).

(** ** Endpoints and network functions *)
Definition ei_toJSON (e : EndPointInterface) : json :=
  JObj (obj [("id", JStr (ei_id e)); ("name", JStr (ei_name e)); ("type", JStr "interface");
             ("interface", JObj (obj [("if-name", JStr (ei_interface e))]))]).
Definition en_toJSON (e : EndPointInternal) : json :=
  JObj (obj [("id", JStr (en_id e)); ("name", JStr (en_name e)); ("type", JStr "internal");
             ("internal", JObj (obj [("internal-group", JStr (en_group e))]))]).
Definition eg_toJSON (e : EndPointGre) : json :=
  let tunnel := [("local-ip", JStr (eg_local_ip e)); ("remote-ip", JStr (eg_remote_ip e)); ("gre-key", JStr (eg_gre_key e))]
    ++ (if bool_decide (eg_ttl e = "") then [] else [("ttl", JStr (eg_ttl e))]) ++ [("secure", JBool (eg_is_safe e))] in
  JObj (obj [("id", JStr (eg_id e)); ("name", JStr (eg_name e)); ("type", JStr "gre-tunnel"); ("gre-tunnel", JObj (obj tunnel))]).
Definition ev_toJSON (e : EndPointVlan) : json :=
  JObj (obj [("id", JStr (ev_id e)); ("name", JStr (ev_name e)); ("type", JStr "vlan");
             ("vlan", JObj (obj [("vlan-id", JStr (ev_vlan_id e)); ("if-name", JStr (ev_interface e))]))]).
Definition vnf_port_toJSON (p : vnf_port) : json :=
  JObj (obj ([("id", JStr (vp_id p)); ("name", JStr (vp_name p))]
             ++ if bool_decide (vp_mac p = "") then [] else [("mac", JStr (vp_mac p))])).
Definition vnf_toJSON (v : VNFs) : json :=
  JObj (obj ([("id", JStr (v_id v)); ("name", JStr (v_name v)); ("vnf_template", JStr (v_template v))]
             ++ (if bool_decide (v_groups v = []) then [] else [("groups", JArr (JStr <$> v_groups v))])
             ++ [("ports", JArr (vnf_port_toJSON <$> v_ports v))])).

(** ** The graph (high_level_graph.cc); the server puts it under its key *)
Definition graph_toJSON (g : Graph) : out json :=
  rules ← mapM (M := out) rule_toJSON (g_rules g);
  let eps := (ei_toJSON <$> g_interface g) ++ (en_toJSON <$> g_internal g) ++ (eg_toJSON <$> g_gre g) ++ (ev_toJSON <$> g_vlan g) in
  let vnfs := vnf_toJSON <$> g_vnfs g in
  Ret (JObj (obj ([("id", JStr (g_id g)); ("name", JStr (g_name g))]
    ++ (if bool_decide (eps = []) then [] else [("end-points", JArr eps)])
    ++ (if bool_decide (vnfs = []) then [] else [("VNFs", JArr vnfs)])
    ++ [("big-switch", JObj (obj [("flow-rules", JArr rules)]))]))).
Definition graph_document (g : Graph) : out json :=
  v ← graph_toJSON g; Ret (JObj (obj [("forwarding-graph", v)])).
