(* ===== verification/ParserOk.v ===== *)
(** * What the graph parser accepts

    Whatever the JSON, a graph that is accepted is well formed: identifiers of
    rules and network functions are not repeated, MAC addresses are unicast,
    and a tag is popped only where one is matched. *)

From Stdlib Require Import ZArith Lia String Ascii.
From stdpp Require Import gmap strings numbers base list.
From S2P Require Import Prelude CString Cpp FlowMatch HighLevel HLGraph Json Validator MatchParser GraphParser.

Lemma out_fold_inv {A B} (f : B -> A -> out B) (I : B -> Prop) l :
  (forall b x b', I b -> f b x = Ret b' -> I b') -> forall b b', I b -> out_fold f b l = Ret b' -> I b'.
Proof.
  intros Hf. induction l as [|x l IH]; intros b b' Hb H; cbn [out_fold] in H; [by injection H as <-|].
  destruct (f b x) as [b1| |] eqn:E; cbn [mbind out_bind] in H; try done. eauto.
Qed.
(** Taking apart a computation that has returned. *)
Ltac returned :=
  repeat match goal with
  | H : Ret _ = Ret _ |- _ => injection H as H; try subst
  | H : Throw _ = Ret _ |- _ => discriminate H
  | H : Halt _ = Ret _ |- _ => discriminate H
  | H : reject = Ret _ |- _ => discriminate H
  | H : check ?b = Ret _ |- _ => destruct b eqn:?; cbn [check] in H
  | H : (mbind _ ?m) = Ret _ |- _ => let E := fresh "E" in destruct m eqn:E; cbn [mbind out_bind] in H
  | H : (if bool_decide ?P then _ else _) = Ret _ |- _ => case_bool_decide
  | H : (if ?b then _ else _) = Ret _ |- _ => destruct b eqn:?
  | H : (let '(_, _) := ?x in _) = Ret _ |- _ => destruct x eqn:?
  end.

Definition mac_ok (p : vnf_port) : Prop :=
  vp_mac p = "" \/ validateMac (vp_mac p) = true /\ isUnicastMac (vp_mac p) = Ret true.
Definition vnf_key (v : VNFs) : string * string := (v_id v, v_name v).
Definition tags_ok (r : Rule) : Prop := pops_vlan (r_action r) = true -> checkVlanPresence (r_match r) = true.
Record accepted (id : string) (g : Graph) : Prop := {
  ac_id : g_id g = id;
  ac_rules : NoDup (r_id <$> g_rules g);
  ac_tags : Forall tags_ok (g_rules g);
  ac_vnfs : NoDup (vnf_key <$> g_vnfs g);
  ac_macs : Forall (fun v => Forall mac_ok (v_ports v)) (g_vnfs g)
}.

(** ** Network functions *)

Lemma parse_vnf_port_ok v p : parse_vnf_port v = Ret p -> mac_ok p.
Proof.
  unfold parse_vnf_port. destruct (getObject v) as [o| |]; cbn [mbind out_bind]; try done.
  apply (out_fold_inv _ mac_ok); [|by left]. clear. intros p [k v] p' Hp H. unfold vnf_port_member in H.
  returned; try exact Hp. by right.
Qed.
Lemma mapM_forall {A B} (f : A -> out B) (P : B -> Prop) l l' :
  (forall x y, f x = Ret y -> P y) -> mapM (M := out) f l = Ret l' -> Forall P l'.
Proof.
  intros Hf. revert l'. induction l as [|x l IH]; intros l' H; cbn [mapM] in H; [by injection H as <-|].
  destruct (f x) as [y| |] eqn:E; cbn [mbind out_bind] in H; try done.
  destruct (mapM f l) as [ys| |]; cbn [mbind out_bind] in H; try done. injection H as <-. constructor; eauto.
Qed.
Lemma parse_vnf_macs s l s' : Forall mac_ok (v_ports (vs_vnf s)) -> out_fold vnf_member s l = Ret s' ->
  Forall mac_ok (v_ports (vs_vnf s')).
Proof.
  apply (out_fold_inv _ (fun s => Forall mac_ok (v_ports (vs_vnf s)))). clear. intros s [k v] s' Hs H. unfold vnf_member in H.
  returned; try exact Hs. cbn. apply Forall_app. split; [done|]. eapply mapM_forall; [|done]. apply parse_vnf_port_ok.
Qed.
Lemma addPort_key v p : vnf_key (addPort v p) = vnf_key v.
Proof. unfold addPort. by case_match. Qed.
Lemma addPort_macs v p : Forall mac_ok (v_ports v) -> mac_ok p -> Forall mac_ok (v_ports (addPort v p)).
Proof. intros Hv Hp. unfold addPort. case_match; [done|]. apply Forall_app. by split; [|constructor]. Qed.
Lemma add_ports ps v : Forall mac_ok (v_ports v) -> Forall mac_ok ps ->
  vnf_key (foldl addPort v ps) = vnf_key v /\ Forall mac_ok (v_ports (foldl addPort v ps)).
Proof.
  intros Hv Hps. revert v Hv. induction Hps as [|p ps Hp Hps IH]; intros v Hv; [done|]. cbn [foldl].
  rewrite <- (addPort_key v p). apply IH. by apply addPort_macs.
Qed.
Lemma vnf_eqb_key v w : vnf_eqb v w = true <-> vnf_key v = vnf_key w.
Proof.
  unfold vnf_eqb, vnf_key. rewrite andb_true_iff, !bool_decide_eq_true. split; [intros [-> ->]; done|by intros [= -> ->]].
Qed.
Lemma add_vnf_ok l w : NoDup (vnf_key <$> l) -> Forall (fun v => Forall mac_ok (v_ports v)) l -> Forall mac_ok (v_ports w) ->
  NoDup (vnf_key <$> add_vnf l w) /\ Forall (fun v => Forall mac_ok (v_ports v)) (add_vnf l w)
  /\ forall k, k ∈ vnf_key <$> add_vnf l w -> k ∈ vnf_key <$> l \/ k = vnf_key w.
Proof.
  intros Hnd Hl Hw. induction Hl as [|v l Hv Hl IH]; cbn [add_vnf].
  { split_and!; [apply NoDup_singleton|by constructor|]. intros k Hk. apply list_elem_of_singleton in Hk. by right. }
  rewrite fmap_cons in Hnd. apply NoDup_cons in Hnd as [Hni Hnd]. destruct (vnf_eqb v w) eqn:E.
  - destruct (add_ports (v_ports w) v Hv Hw) as [Hk Hm]. rewrite !fmap_cons, Hk. split_and!; [by constructor|by constructor|auto].
  - destruct (IH Hnd) as (H1 & H2 & H3). rewrite !fmap_cons. split_and!; [|by constructor|].
    + constructor; [|done]. intros [Hin|Hin]%H3; [done|]. by rewrite (proj2 (vnf_eqb_key v w) Hin) in E.
    + intros k. rewrite !elem_of_cons. intros [->|[?|?]%H3]; auto.
Qed.
Lemma parse_vnfs_ok id v g g' : accepted id g -> parse_vnfs v g = Ret g' -> accepted id g'.
Proof.
  intros Hg H. unfold parse_vnfs in H. returned.
  apply (out_fold_inv _ (fun s => accepted id (fst s))) in E0; [done| |done]. clear.
  intros [g used] v [g' used'] [A1 A2 A3 A4 A5] H. unfold parse_vnf in H. returned. cbn.
  apply parse_vnf_macs in E0; [|by constructor]. destruct (add_vnf_ok (g_vnfs g) (vs_vnf a0) A4 A5 E0) as (B1 & B2 & _).
  split; done.
Qed.

(** ** Endpoints leave the rest alone *)

Definition rest (g : Graph) : string * list Rule * list VNFs := (g_id g, g_rules g, g_vnfs g).
Lemma accepted_rest id g g' : rest g' = rest g -> accepted id g -> accepted id g'.
Proof. intros [= H1 H2 H3] [A1 A2 A3 A4 A5]. split; by rewrite ?H1, ?H2, ?H3. Qed.
Lemma add_rest g :
  (forall e, rest (fst (addEndPointInterface g e)) = rest g) /\ (forall e, rest (fst (addEndPointInternal g e)) = rest g)
  /\ (forall e, rest (fst (addEndPointGre g e)) = rest g) /\ (forall e, rest (fst (addEndPointVlan g e)) = rest g).
Proof.
  unfold addEndPointInterface, addEndPointInternal, addEndPointGre, addEndPointVlan.
  split_and!; intros e; destruct (list_add _ _ e) as [l []]; done.
Qed.
Lemma ep_fold_rest (f : ep_state -> string * json -> out ep_state) l s s' : (forall s kv s', f s kv = Ret s' -> es_graph s' = es_graph s) ->
  out_fold f s l = Ret s' -> es_graph s' = es_graph s.
Proof.
  intros Hf. apply (out_fold_inv f (fun x => es_graph x = es_graph s)); [|done]. intros x kv x' Hx H. rewrite <- Hx. eauto.
Qed.
Ltac folded := match goal with H : out_fold _ _ _ = Ret _ |- _ => apply ep_fold_rest in H; [cbn; by rewrite H|] end.
Lemma parse_gre_rest v l s s' : parse_gre v l s = Ret s' -> rest (es_graph s') = rest (es_graph s).
Proof.
  unfold parse_gre. intros H. returned. destruct (gs_local a1), (gs_remote a1), (gs_key a1); try done. returned. apply add_rest.
Qed.
Lemma ep_members_rest l s s' : ep_members l s = Ret s' -> rest (es_graph s') = rest (es_graph s).
Proof.
  revert s. induction l as [|[k v] l IH]; intros s H; cbn [ep_members] in H; [by injection H as <-|].
  match type of H with (mbind _ ?m) = _ => destruct m as [s1| |] eqn:E end; cbn [mbind out_bind] in H; try done.
  apply IH in H. rewrite H. clear H IH. returned; try done.
  - folded. clear. intros s [k v] s' H. unfold iface_member in H. by returned.
  - folded. clear. intros s [k v] s' H. unfold internal_member in H. by returned.
  - folded. clear. intros s [k v] s' H. unfold vlan_member in H. by returned.
  - by apply parse_gre_rest in E.
Qed.
Lemma parse_endpoints_ok id v e g e' g' : accepted id g -> parse_endpoints v e g = Ret (e', g') -> accepted id g'.
Proof.
  intros Hg H. apply (accepted_rest id g); [|done]. unfold parse_endpoints in H. returned.
  apply (out_fold_inv _ (fun s => rest (es_graph s) = rest g)) in E0; [done| |done]. clear.
  intros s v s' Hs H. unfold parse_endpoint in H. returned. apply ep_members_rest in E0. rewrite <- Hs, <- E0.
  unfold add_endpoint. repeat case_match; try done; apply add_rest.
Qed.

(** ** Rules *)

Lemma parse_rule_ok id e g v g' : accepted id g -> parse_rule e g v = Ret g' -> accepted id g'.
Proof.
  intros [A1 A2 A3 A4 A5] H. unfold parse_rule in H. returned.
  destruct (rs_match a0) as [m|]; [|done]. destruct (rs_id a0) as [i|]; [|done]. returned.
  match goal with H : addRule _ _ = _ |- _ => unfold addRule, list_add in H; rename H into Ha end.
  destruct (existsb _ (g_rules g)) eqn:Ex; [done|]. injection Ha as <-. split; cbn; [done| | |done|done].
  - rewrite fmap_app. apply NoDup_app. split_and!; [done| |apply NoDup_singleton].
    intros x Hx ->%list_elem_of_singleton. apply list_elem_of_fmap in Hx as (r & Hr & Hin).
    apply not_true_iff_false in Ex. apply Ex, existsb_exists. exists r. split; [by apply list_elem_of_In|].
    by apply bool_decide_eq_true.
  - apply Forall_app. split; [done|]. constructor; [|constructor]. intros Hp. cbn in *. by destruct (pops_vlan _).
Qed.
Lemma parse_big_switch_ok id e l g g' b : accepted id g -> parse_big_switch e l g = Ret (g', b) -> accepted id g'.
Proof.
  intros Hg H. unfold parse_big_switch in H. apply (out_fold_inv _ (fun s => accepted id (fst s))) in H; [done| |done]. clear.
  intros [g f] [k v] [g' f'] Hg H. cbn in Hg. returned. cbn.
  eapply (out_fold_inv (parse_rule e) (accepted id)); [|exact Hg|done]. intros. by eapply parse_rule_ok.
Qed.

Lemma parseGraph_accepted v id g : parseGraph v (Graph_new id) = Ret g -> accepted id g.
Proof.
  intros H. assert (H0 : accepted id (Graph_new id)) by (split; try done; constructor).
  unfold parseGraph in H. returned. apply (out_fold_inv _ (fun s => accepted id (fg_graph (fst s)))) in E0; [done| |done].
  clear. intros [s f] [k v] [s' f'] Hs H. cbn in Hs. returned. cbn. unfold parse_forwarding_graph in E. returned. cbn.
  eapply parse_big_switch_ok; [|done].
  match goal with H : out_fold fg_member _ _ = Ret _ |- _ =>
    apply (out_fold_inv _ (fun s => accepted id (fg_graph s))) in H; [done| |done] end.
  clear. intros s [k v] s' Hs H. unfold fg_member in H. returned; try done; cbn.
  - by apply (accepted_rest id (fg_graph s)).
  - by eapply parse_vnfs_ok.
  - by eapply parse_endpoints_ok.
Qed.

(** C38: whatever document is accepted for a new graph, the graph keeps its
    identifier, no two rules have the same identifier, a rule pops a VLAN tag
    only if it matches on one, no two network functions have the same
    identifier and name, and the MAC addresses asked for their ports passed the
    checks. *)
Theorem parsed_graph_accepted v id g : parseGraph v (Graph_new id) = Ret g -> accepted id g.
Proof. apply parseGraph_accepted. Qed.

(** A document as a client writes it. *)
Definition client_document : json :=
  JObj [("forwarding-graph", JObj [
    ("VNFs", JArr [JObj [("id", JStr "1"); ("name", JStr "nat");
                         ("ports", JArr [JObj [("id", JStr "port:0"); ("mac", JStr "02:00:00:00:00:07"); ("name", JStr "in")]])]]);
    ("big-switch", JObj [("flow-rules", JArr [
       JObj [("actions", JArr [JObj [("output_to_port", JStr "vnf:1:port:0")]; JObj [("pop_vlan", JBool true)]]);
             ("id", JStr "r1"); ("match", JObj [("port_in", JStr "endpoint:e"); ("source_port", JStr "80"); ("vlan_id", JStr "25")]);
             ("priority", JInt 10)]])]);
    ("end-points", JArr [JObj [("id", JStr "e"); ("interface", JObj [("if-name", JStr "eth0")]); ("name", JStr "port");
                               ("type", JStr "interface")]]);
    ("id", JStr "g"); ("name", JStr "a graph")])].
Lemma parsed_graph_accepted_witness :
  exists g, parseGraph client_document (Graph_new "g") = Ret g /\ (r_id <$> g_rules g) = ["r1"] /\ accepted "g" g.
Proof.
  destruct (parseGraph client_document (Graph_new "g")) as [g| |] eqn:E; [|vm_compute in E; discriminate E..].
  exists g. split; [done|]. split; [|exact (parsed_graph_accepted client_document "g" g E)].
  vm_compute in E. injection E as <-. done.
Defined.
