(* ===== verification/MatchRoundtrip.v ===== *)
(** * A match that is sent back (match_parser.cc with the [toJSON] of a match)

    What the parser makes of the object of a match: the references to ports, the
    numbers and the fields it reads back, and in the end the match itself. *)

From Stdlib Require Import ZArith Lia String Ascii FunctionalExtensionality.
From stdpp Require Import gmap strings numbers base list.
From S2P Require Import Prelude CString Cpp FlowMatch HighLevel HLGraph Json Validator MatchParser GraphParser GraphJson.

(** ** Numbers read back *)

Lemma txt_udec n : txt (udec n) = dec n.
Proof. apply list_ascii_of_string_of_list_ascii. Qed.
Lemma sscanf_u_dec n : 0 <= n < 4294967296 -> sscanf_u (udec n) = Some n.
Proof.
  intros Hn. destruct (dec_spec n) as (H1 & H2 & H3); [apply dec_small; lia|].
  unfold sscanf_u. rewrite txt_udec, skip_sign, scan_digits_dec by done. rewrite H3, Z.min_r by lia.
  cbn. f_equal. unfold u32. rewrite Z.mod_small; lia.
Qed.
Lemma scan_long_dec n : 0 <= n <= 9223372036854775807 -> scan_long (udec n) = Some n.
Proof.
  intros Hn. unfold scan_long. rewrite txt_udec, strtol_dec_end by done.
  destruct (dec_spec n) as (H1 & _ & _); [by apply dec_small|]. by rewrite bool_decide_false.
Qed.
Lemma strtol0_dec n : 0 <= n <= 9223372036854775807 -> strtol0 (udec n) = Some n.
Proof.
  intros Hn. destruct (dec_spec n) as (H1 & H2 & H3); [by apply dec_small|].
  unfold strtol0. rewrite txt_udec, skip_sign by done.
  rewrite magnitude0_dec by by apply dec_small. cbn. f_equal. unfold clamp_long. lia.
Qed.

(** ** References to ports *)

Inductive portref := RVnf (nf : string) (n : Z) | REp (id : string).
Definition ref_text (r : portref) : string :=
  match r with
  | RVnf nf n => string_of_list_ascii (join ":" [txt "vnf"; txt nf; txt "port"; dec n])
  | REp id => string_of_list_ascii (join ":" [txt "endpoint"; txt id])
  end.
Definition name_ok (s : string) : Prop := word (txt ":") (txt s) /\ Z.of_nat (String.length s) < 20000.
Definition ref_ok (r : portref) : Prop :=
  match r with RVnf nf n => name_ok nf /\ 0 <= n < 2147483647 | REp id => name_ok id end.

Lemma length_txt s : length (txt s) = String.length s.
Proof. unfold txt. induction s; cbn; congruence. Qed.
Lemma length_of_ascii l : String.length (string_of_list_ascii l) = length l.
Proof. induction l; cbn; congruence. Qed.
Lemma txt_of_ascii l : txt (string_of_list_ascii l) = l.
Proof. apply list_ascii_of_string_of_list_ascii. Qed.
Lemma of_ascii_txt s : string_of_list_ascii (txt s) = s.
Proof. apply string_of_list_ascii_of_string. Qed.
Lemma txt_app a b : txt (a +:+ b) = txt a ++ txt b.
Proof. induction a as [|c a IH]; [done|]. change (txt (String c a +:+ b)) with (c :: txt (a +:+ b)). by rewrite IH. Qed.

Lemma colon_tokens_join ws :
  Forall (word (txt ":")) ws -> Z.of_nat (length (join ":" ws)) < 20480 ->
  colon_tokens (string_of_list_ascii (join ":" ws)) = Ok (string_of_list_ascii <$> ws).
Proof.
  intros Hw Hl. unfold colon_tokens. rewrite length_of_ascii. unfold BUFFER_SIZE.
  rewrite (proj2 (Z.ltb_lt _ _)) by done. by rewrite txt_of_ascii, tokens_join.
Qed.
Definition ref_tokens (r : portref) : list string :=
  match r with RVnf nf n => ["vnf"; nf; "port"; udec n] | REp id => ["endpoint"; id] end.
Ltac words :=
  repeat (apply Forall_cons; split); try apply Forall_nil; try assumption; try (by split);
  try (apply word_dec; [lia|done]).
Lemma ref_text_tokens r : ref_ok r -> colon_tokens (ref_text r) = Ok (ref_tokens r).
Proof.
  intros H. destruct r as [nf n|id]; cbn [ref_text ref_tokens].
  - destruct H as [[Hw Hl] Hn]. rewrite colon_tokens_join.
    + cbn [fmap list_fmap]. by rewrite !of_ascii_txt.
    + words.
    + pose proof (dec_fuel_length 20 n). rewrite <- length_txt in Hl. unfold dec. cbn [join txt list_ascii_of_string length app].
      rewrite length_app. cbn [length]. lia.
  - destruct H as [Hw Hl]. rewrite colon_tokens_join.
    + cbn [fmap list_fmap]. by rewrite !of_ascii_txt.
    + words.
    + rewrite <- length_txt in Hl. cbn [join txt list_ascii_of_string length app]. lia.
Qed.
Lemma vnf_ref_tokens nf n : ref_ok (RVnf nf n) -> vnf_ref (ref_tokens (RVnf nf n)) = Ret (nf, n + 1).
Proof.
  intros [[Hw Hl] Hn]. unfold vnf_ref, vnf_id_tmp, nfId, nfPort, nfIsPort. cbn [ref_tokens lookup list_lookup].
  cbn [mbind out_bind from_option id].
  assert (E : nf +:+ ":" +:+ udec n = string_of_list_ascii (join ":" [txt nf; dec n])).
  { rewrite <- (of_ascii_txt (nf +:+ ":" +:+ udec n)). f_equal. by rewrite !txt_app, txt_udec. }
  rewrite E, colon_tokens_join.
  - cbn [of_res mbind out_bind fmap list_fmap lookup list_lookup from_option id].
    rewrite of_ascii_txt. change (string_of_list_ascii (dec n)) with (udec n). rewrite sscanf_u_dec by lia.
    cbn [from_option id]. rewrite bool_decide_false.
    + rewrite bool_decide_true by (by eexists). cbn. do 2 f_equal. unfold u32, id. rewrite Z.mod_small; lia.
    + intros ->. by destruct Hw.
  - words.
  - pose proof (dec_fuel_length 20 n). rewrite <- length_txt in Hl. unfold dec. cbn [join]. rewrite length_app. cbn [length]. lia.
Qed.

(** ** Matches *)

(** The key under which a field is shown, and the check its text passes. *)
Definition key_of (f : cfield) : string :=
  match f with
  | eth_src => "source_mac" | eth_src_mask => "eth_src_mask" | eth_dst => "dest_mac" | eth_dst_mask => "eth_dst_mask"
  | ipv4_src | ipv6_src => "source_ip" | ipv4_dst | ipv6_dst => "dest_ip"
  | ipv4_src_mask => "ipv4_src_mask" | ipv4_dst_mask => "ipv4_dst_mask"
  | arp_spa => "arp_spa" | arp_spa_mask => "arp_spa_mask" | arp_tpa => "arp_tpa" | arp_tpa_mask => "arp_tpa_mask"
  | arp_sha => "arp_sha" | arp_tha => "arp_tha"
  | ipv6_src_mask => "ipv6_src_mask" | ipv6_dst_mask => "ipv6_dst_mask"
  | ipv6_nd_target => "ipv6_nd_target" | ipv6_nd_sll => "ipv6_nd_sll" | ipv6_nd_tll => "ipv6_nd_tll"
  | gre_key => "gre-key"
  end.
Definition valid_text (f : cfield) (s : string) : Prop :=
  match f with
  | eth_src | eth_src_mask | eth_dst | eth_dst_mask | arp_sha | arp_tha => validateMac s = true
  | ipv4_src | ipv4_dst => validateIpv4 s = true /\ c_in ":" (txt s) = false
  | arp_spa | arp_tpa => validateIpv4 s = true
  | ipv4_src_mask | ipv4_dst_mask | arp_spa_mask | arp_tpa_mask => validateIpv4Netmask s = true
  | ipv6_nd_target | ipv6_nd_sll | ipv6_nd_tll => True
  | ipv6_src | ipv6_dst | ipv6_src_mask | ipv6_dst_mask | gre_key => False
  end.
Definition nkey_of (f : nfield) : string :=
  match f with arpOpcode => "arp_opcode" | ipv6_flabel => "ipv6_flabel" | mplsLabel => "mpls_label" | _ => "" end.
Definition valid_num (f : nfield) (n : Z) : Prop :=
  match f with
  | arpOpcode => 0 <= n <= 65535 | ipv6_flabel => 0 <= n <= 4294967295 | mplsLabel => 0 <= n <= 1048575
  | _ => False
  end.
Definition vlan_part (m : Match) : bool * Z * bool * bool := (isVlanID m, vlanID m, isNoVlan m, isAnyVlan m).
Definition valid_vlan (v : bool * Z * bool * bool) : Prop :=
  v = (false, 0, false, false) \/ (exists id, 0 <= id <= 65535 /\ v = (true, id, false, false))
  \/ v = (false, 0, true, false) \/ v = (false, 0, false, true).
Definition vlan_text (v : bool * Z * bool * bool) : string :=
  match v with
  | (true, id, _, _) => udec id
  | (false, _, _, true) => "ANY"
  | (false, _, _, false) => "NO_VLAN"
  end.

(** The matches that survive: Ethernet, VLAN, IPv4 addresses, ARP, neighbour
    discovery, flow and MPLS labels.  The other fields are shown under a key or
    in a form the parser does not read back. *)
Record clean (b : Match) : Prop := {
  cl_str : forall f s, str_of b f = Some s -> valid_text f s;
  cl_num : forall f n, num_of b f = Some n -> valid_num f n;
  cl_vlan : valid_vlan (vlan_part b);
  cl_endpoint : isEndpointVlanID b = false;
  cl_transport : (isTcpProtocol b, isUdpProtocol b, isSctpProtocol b) = (false, false, false);
  cl_ports : (transport_src_port b, transport_dst_port b) = (0, 0)
}.

(** The members of its object. *)
Inductive entry (b : Match) : string * json -> Prop :=
| entry_str f s : str_of b f = Some s -> valid_text f s -> entry b (key_of f, JStr s)
| entry_num f n : num_of b f = Some n -> valid_num f n -> entry b (nkey_of f, JStr (udec n))
| entry_vlan : valid_vlan (vlan_part b) -> vlan_part b <> (false, 0, false, false) ->
    entry b ("vlan_id", JStr (vlan_text (vlan_part b))).
(** Where reading a member leads. *)
Definition reached (b s : Match) (kv : string * json) : Prop :=
  (forall f v, str_of b f = Some v -> fst kv = key_of f -> str_of s f = str_of b f)
  /\ (forall f n, num_of b f = Some n -> fst kv = nkey_of f -> num_of s f = num_of b f)
  /\ (fst kv = "vlan_id" -> vlan_part s = vlan_part b).
Record toward (b s s' : Match) : Prop := {
  to_str : forall f, str_of s' f = str_of s f \/ str_of s' f = str_of b f;
  to_num : forall f, num_of s' f = num_of s f \/ num_of s' f = num_of b f;
  to_vlan : vlan_part s' = vlan_part s \/ vlan_part s' = vlan_part b;
  to_rest : (isEndpointVlanID s', isTcpProtocol s', isUdpProtocol s', isSctpProtocol s', transport_src_port s', transport_dst_port s')
          = (isEndpointVlanID s, isTcpProtocol s, isUdpProtocol s, isSctpProtocol s, transport_src_port s, transport_dst_port s)
}.
(** Nothing but what [b] has. *)
Record within (b s : Match) : Prop := {
  in_str : forall f, str_of s f = None \/ str_of s f = str_of b f;
  in_num : forall f, num_of s f = None \/ num_of s f = num_of b f;
  in_vlan : vlan_part s = (false, 0, false, false) \/ vlan_part s = vlan_part b
}.
Lemma toward_refl b s : toward b s s.
Proof. split; auto. Qed.
Lemma toward_trans b s1 s2 s3 : toward b s1 s2 -> toward b s2 s3 -> toward b s1 s3.
Proof.
  intros [A1 B1 C1 D1] [A2 B2 C2 D2]. split; [intros f|intros f|..].
  - destruct (A2 f) as [->|]; auto.
  - destruct (B2 f) as [->|]; auto.
  - destruct C2 as [->|]; auto.
  - congruence.
Qed.
Lemma within_toward b s s' : within b s -> toward b s s' -> within b s'.
Proof.
  intros [A1 B1 C1] [A2 B2 C2 _]. split; [intros f|intros f|].
  - destruct (A2 f) as [->|]; auto.
  - destruct (B2 f) as [->|]; auto.
  - destruct C2 as [->|]; auto.
Qed.
Lemma reached_toward b s s' kv : reached b s kv -> toward b s s' -> reached b s' kv.
Proof.
  intros (A1 & B1 & C1) [A2 B2 C2 _]. split_and!.
  - intros f v Hv Hf. destruct (A2 f) as [->|]; eauto.
  - intros f n Hn Hf. destruct (B2 f) as [->|]; eauto.
  - intros Hk. destruct C2 as [->|]; auto.
Qed.

(** One member. *)
Definition str_set (f : cfield) (s : string) (b : Match) : Match :=
  match set_str f (Some s) b with Ok b' => b' | Err _ => b end.
Lemma str_of_set f s b g : str_of (str_set f s b) g = if decide (g = f) then Some s else str_of b g.
Proof. done. Qed.
Lemma num_of_set f n b g : num_of (set_num f n b) g = if decide (g = f) then Some (narrow f n) else num_of b g.
Proof. done. Qed.

Section members.
Context (e : endpoints).
Lemma valid_text_key f s : valid_text f s -> exists c, str_key (key_of f) s = Some (c, f) /\ validate c s = Ret true.
Proof.
  intros Hv. destruct f; cbn [key_of valid_text] in *; try done; eexists; unfold str_key;
    rewrite ?(proj2 Hv); (split; [reflexivity|]); cbn [validate]; by rewrite ?Hv, ?(proj1 Hv).
Qed.
Lemma key_of_other f : f <> gre_key ->
  key_of f <> "port_in" /\ key_of f <> "vlan_id" /\ bool_decide (key_of f ∈ ignored_keys) = false
  /\ snd <$> find_first (fun x => bool_decide (fst x = key_of f)) num_keys = None.
Proof. intros Hf. destruct f; done. Qed.
Lemma member_str f s st : valid_text f s ->
  match_member e st (key_of f, JStr s) = Ret (on_base (fun _ => str_set f s (hm_base (ms_match st))) st).
Proof.
  intros Hv. destruct (valid_text_key f s Hv) as (c & Hk & Hc).
  destruct (key_of_other f) as (H1 & H2 & H3 & H4); [by intros ->|].
  unfold match_member. rewrite H3, H4. rewrite !bool_decide_false by done. rewrite Hk.
  cbn [mbind out_bind]. rewrite Hc. done.
Qed.
Lemma valid_num_key f n : valid_num f n ->
  exists read limit, snd <$> find_first (fun x => bool_decide (fst x = nkey_of f)) num_keys = Some (read, limit, set_num f)
    /\ read (udec n) = Some n /\ n <= limit.
Proof.
  intros Hv. assert (E : scan_long (udec n) = Some n) by (apply scan_long_dec; destruct f; cbn in Hv; done || lia).
  destruct f; cbn [valid_num] in Hv; try done; eexists _, _; (split; [reflexivity|]); cbv beta; rewrite E;
    cbn [fmap option_fmap option_map]; (split; [f_equal; unfold u32, u64; apply Z.mod_small; lia|lia]).
Qed.
Lemma member_num f n st : valid_num f n ->
  match_member e st (nkey_of f, JStr (udec n)) = Ret (on_base (set_num f n) st).
Proof.
  intros Hv. destruct (valid_num_key f n Hv) as (read & limit & Hk & Hr & Hl).
  unfold match_member. rewrite Hk. cbn [getString mbind out_bind]. rewrite Hr, (proj2 (Z.leb_le n limit)) by done.
  assert (H : nkey_of f <> "port_in" /\ nkey_of f <> "vlan_id" /\ bool_decide (nkey_of f ∈ ignored_keys) = false)
    by (by destruct f).
  destruct H as (H1 & H2 & H3). by rewrite H3, !bool_decide_false.
Qed.
Lemma member_vlan st v : valid_vlan v -> v <> (false, 0, false, false) -> vlan_part (hm_base (ms_match st)) = (false, 0, false, false) ->
  exists b', match_member e st ("vlan_id", JStr (vlan_text v)) = Ret (on_base (fun _ => b') st)
    /\ vlan_part b' = v
    /\ b' = set_vlan v.1.1.1 v.1.1.2 v.1.2 v.2 (isEndpointVlanID (hm_base (ms_match st))) (hm_base (ms_match st)).
Proof.
  intros Hv Hne H0. unfold vlan_part in H0. injection H0 as H1 H2 H3 H4. unfold match_member.
  rewrite bool_decide_false, bool_decide_true by done. cbn [getString mbind out_bind]. unfold parse_vlan_id.
  destruct Hv as [?|[(id & Hid & ->)|[->| ->]]]; [done|..]; cbn [vlan_text].
  - assert (E : udec id <> "ANY" /\ udec id <> "NO_VLAN").
    { destruct (dec_spec id) as (_ & Hd & _); [apply dec_small; lia|].
      split; intros E; apply (f_equal txt) in E; rewrite txt_udec in E; by rewrite E in Hd. }
    destruct E as [E1 E2]. rewrite !bool_decide_false, strtol0_dec by (done || lia). cbn [mbind out_bind].
    eexists. split; [reflexivity|]. unfold setVlanID. rewrite H3, H4.
    assert (Hl : u16 (Z.land (u32 id) 65535) = id).
    { unfold u32, u16. change 65535 with (Z.ones 16). rewrite Z.land_ones by lia.
      change (2 ^ 16) with 65536. rewrite (Z.mod_small id 4294967296), !(Z.mod_small id 65536) by lia. done. }
    by rewrite Hl.
  - rewrite bool_decide_false, bool_decide_true by done. eexists. split; [reflexivity|].
    unfold setVlanIDNoVlan. by rewrite H2.
  - rewrite bool_decide_true by done. eexists. split; [reflexivity|]. unfold setVlanIDAnyVlan. by rewrite H2.
Qed.

Lemma member_entry b kv st : clean b -> entry b kv ->
  (fst kv = "vlan_id" -> vlan_part (hm_base (ms_match st)) = (false, 0, false, false)) ->
  exists b', match_member e st kv = Ret (on_base (fun _ => b') st)
    /\ toward b (hm_base (ms_match st)) b' /\ reached b b' kv
    /\ (fst kv <> "vlan_id" -> vlan_part b' = vlan_part (hm_base (ms_match st))).
Proof.
  intros Hc He Hvl. destruct He as [f s Hs Hv|f n Hn Hv|Hv Hne].
  - rewrite member_str by done. eexists. split; [reflexivity|]. split; [|split; [|done]].
    + split; try (by auto); intros g. rewrite str_of_set. destruct (decide (g = f)) as [->|]; auto.
    + split_and!.
      * intros g w Hg Hk. rewrite str_of_set. destruct (decide (g = f)) as [->|Hgf]; [done|].
        apply (cl_str b Hc) in Hg. destruct f, g; done.
      * intros g w Hg Hk. apply (cl_num b Hc) in Hg. destruct f, g; done.
      * intros Hk. destruct f; done.
  - rewrite member_num by done. eexists (set_num f n (hm_base (ms_match st))). split; [reflexivity|].
    assert (Hnar : narrow f n = n).
    { destruct f; cbn in Hv |- *; try done; unfold u16, u32; apply Z.mod_small; lia. }
    split; [|split; [|done]].
    + split; try (by auto); intros g. rewrite num_of_set, Hnar. destruct (decide (g = f)) as [->|]; auto.
    + split_and!.
      * intros g w Hg Hk. apply (cl_str b Hc) in Hg. destruct f, g; done.
      * intros g w Hg Hk. rewrite num_of_set, Hnar. destruct (decide (g = f)) as [->|Hgf]; [done|].
        apply (cl_num b Hc) in Hg. destruct f, g; done.
      * intros Hk. destruct f; done.
  - destruct (member_vlan st (vlan_part b) Hv Hne) as (b' & Hm & Hp & Hb'); [by apply Hvl|].
    exists b'. split; [done|]. split; [|split; [|done]].
    + subst b'. split; auto.
    + split_and!; [| |done].
      * intros g w Hg Hk. apply (cl_str b Hc) in Hg. destruct g; done.
      * intros g w Hg Hk. apply (cl_num b Hc) in Hg. destruct g; done.
Qed.

(** All of them. *)
Lemma members_entries b l st : clean b -> Forall (entry b) l -> NoDup (fst <$> l) ->
  ("vlan_id" ∈ fst <$> l -> vlan_part (hm_base (ms_match st)) = (false, 0, false, false)) ->
  exists b', out_fold (match_member e) st l = Ret (on_base (fun _ => b') st)
    /\ toward b (hm_base (ms_match st)) b' /\ Forall (reached b b') l
    /\ ("vlan_id" ∉ fst <$> l -> vlan_part b' = vlan_part (hm_base (ms_match st))).
Proof.
  intros Hc Hl. revert st. induction Hl as [|kv l He Hl IH]; intros st Hnd Hvl.
  { exists (hm_base (ms_match st)). split; [by destruct st as [[]]|]. split_and!; [apply toward_refl|constructor|done]. }
  rewrite fmap_cons in Hnd, Hvl. apply NoDup_cons in Hnd as [Hni Hnd].
  destruct (member_entry b kv st Hc He) as (b1 & H1 & T1 & R1 & V1); [intros E; apply Hvl; rewrite E; set_solver|].
  destruct (IH (on_base (fun _ => b1) st) Hnd) as (b2 & H2 & T2 & R2 & V2).
  { intros Hin. cbn. rewrite V1; [apply Hvl; set_solver|]. intros E. by rewrite E in Hni. }
  exists b2. cbn [out_fold]. rewrite H1. cbn [mbind out_bind]. rewrite H2. split; [done|]. split_and!.
  - eapply toward_trans; [done|exact T2].
  - constructor; [|done]. eapply reached_toward; [done|exact T2].
  - rewrite fmap_cons, not_elem_of_cons. intros [Hk Hl']. rewrite V2 by done. by apply V1.
Qed.

End members.

(** ** The object of a match *)

Lemma obj_set_perm k v o : k ∉ fst <$> o -> obj_set k v o ≡ₚ (k, v) :: o.
Proof.
  induction o as [|[k0 v0] o IH]; intros Hk; [done|]. cbn [obj_set]. rewrite fmap_cons, not_elem_of_cons in Hk.
  destruct Hk as [Hne Hk]. destruct (String.compare k k0) eqn:Ec.
  - by apply String.compare_eq_iff in Ec.
  - done.
  - rewrite IH by done. constructor.
Qed.
Definition put_opt (o : list (string * json)) (kv : string * option json) : list (string * json) :=
  match snd kv with Some v => obj_set (fst kv) v o | None => o end.
Definition present (l : list (string * option json)) : list (string * json) :=
  omap (fun kv => pair (fst kv) <$> snd kv) l.
Lemma present_keys l k : k ∈ fst <$> present l -> k ∈ fst <$> l.
Proof.
  unfold present. rewrite !list_elem_of_fmap. intros ([k' v] & -> & Hin).
  apply list_elem_of_omap in Hin as ([k0 [v0|]] & Hin & [= <- <-]). by exists (k0, Some v0).
Qed.
Lemma present_NoDup l : NoDup (fst <$> l) -> NoDup (fst <$> present l).
Proof.
  induction l as [|[k [v|]] l IH]; cbn; intros H; [done|..]; apply NoDup_cons in H as [Hk H].
  - constructor; [|by apply IH]. intros Hin. by apply Hk, present_keys.
  - by apply IH.
Qed.
Lemma foldl_put_perm l o : NoDup (fst <$> l) -> (forall k, k ∈ fst <$> l -> k ∉ fst <$> o) ->
  foldl put_opt o l ≡ₚ o ++ present l.
Proof.
  revert o. induction l as [|[k [v|]] l IH]; intros o Hnd Hk; cbn [foldl].
  - by rewrite app_nil_r.
  - rewrite fmap_cons in Hnd, Hk. apply NoDup_cons in Hnd as [Hni Hnd].
    assert (Ho : obj_set k v o ≡ₚ (k, v) :: o) by (apply obj_set_perm, Hk; set_solver).
    rewrite IH; [|done|].
    + unfold put_opt at 1. cbn [fst snd]. rewrite Ho. cbn. apply Permutation_middle.
    + intros k' Hk'. unfold put_opt. cbn [fst snd]. rewrite Ho, fmap_cons, not_elem_of_cons. split; [set_solver|].
      apply Hk. set_solver.
  - rewrite fmap_cons in Hnd, Hk. apply NoDup_cons in Hnd as [Hni Hnd]. apply IH; [done|]. intros k' Hk'. apply Hk. set_solver.
Qed.

Definition vlan_member_of (m : Match) : option json :=
  if bool_decide (vlan_part m = (false, 0, false, false)) then None else Some (JStr (vlan_text (vlan_part m))).
Definition shown_fields (m : Match) : list (string * option json) :=
  let t f := (key_of f, JStr <$> str_of m f) in
  let n f := (nkey_of f, (fun v => JStr (udec v)) <$> num_of m f) in
  [t eth_src; t eth_src_mask; t eth_dst; t eth_dst_mask; ("vlan_id", vlan_member_of m);
   t ipv4_src; t ipv4_src_mask; t ipv4_dst; t ipv4_dst_mask; n arpOpcode;
   t arp_spa; t arp_spa_mask; t arp_tpa; t arp_tpa_mask; t arp_sha; t arp_tha;
   n ipv6_flabel; t ipv6_nd_target; t ipv6_nd_sll; t ipv6_nd_tll; n mplsLabel].
Lemma shown_fields_NoDup m : NoDup (fst <$> shown_fields m).
Proof.
  change (fst <$> shown_fields m) with (fst <$> shown_fields Match_new). apply (bool_decide_unpack _). by vm_compute.
Qed.

Lemma clean_none_str m f : clean m -> (forall s, ~ valid_text f s) -> str_of m f = None.
Proof. intros Hc Hv. destruct (str_of m f) as [s|] eqn:E; [|done]. by apply (cl_str m Hc) in E as ?%Hv. Qed.
Lemma clean_none_num m f : clean m -> (forall n, ~ valid_num f n) -> num_of m f = None.
Proof. intros Hc Hv. destruct (num_of m f) as [n|] eqn:E; [|done]. by apply (cl_num m Hc) in E as ?%Hv. Qed.

Lemma match_toJSON_shown m o : clean m -> match_toJSON m o = foldl put_opt o (shown_fields m).
Proof.
  intros Hc. unfold match_toJSON.
  assert (Hs : forall k f o, put_str m k f o = put_opt o (k, JStr <$> str_of m f)).
  { intros. unfold put_str, put_opt. by destruct (str_of m f). }
  assert (Hn : forall k f o, (f = arpOpcode \/ f = ipv6_flabel \/ f = mplsLabel) ->
    put_num m k f o = put_opt o (k, (fun v => JStr (udec v)) <$> num_of m f)).
  { intros k f o' Hf. unfold put_num, put_opt. destruct (num_of m f); [|done]. by destruct Hf as [->|[->| ->]]. }
  assert (Hsn : forall k f o, (forall s, ~ valid_text f s) -> put_str m k f o = o).
  { intros k f o' Hf. unfold put_str. by rewrite (clean_none_str m f). }
  assert (Hnn : forall k f o, (forall n, ~ valid_num f n) -> put_num m k f o = o).
  { intros k f o' Hf. unfold put_num. by rewrite (clean_none_num m f). }
  assert (Hv : forall o, put_vlan m o = put_opt o ("vlan_id", vlan_member_of m)).
  { intros o'. unfold put_vlan, put_opt, vlan_member_of, vlan_part. destruct (cl_vlan m Hc) as [E|[(id & _ & E)|[E|E]]];
      unfold vlan_part in E; injection E as -> -> -> ->; done. }
  pose proof (cl_transport m Hc) as Ht. injection Ht as Ht1 Ht2 Ht3. rewrite Ht1, Ht2, Ht3. cbn [orb put_ports].
  rewrite (Hnn "ether_type" ethType), (Hnn "vlan_pcp" vlanPCP), (Hnn "ip_dscp" ipDSCP), (Hnn "ip_ecn" ipECN),
    (Hnn "ip_proto" ipProto), (Hnn "icmpv4_type" icmpv4Type), (Hnn "icmpv4_code" icmpv4Code), (Hnn "icmpv6_type" icmpv6Type),
    (Hnn "icmpv6_code" icmpv6Code), (Hnn "mpls_tc" mplsTC), (Hsn "source_ip" ipv6_src), (Hsn "ipv6_src_mask" ipv6_src_mask),
    (Hsn "dest_ip" ipv6_dst), (Hsn "ipv6_dst_mask" ipv6_dst_mask), (Hsn "gre-key" gre_key) by (intros ? []).
  rewrite (Hn _ arpOpcode), (Hn _ ipv6_flabel), (Hn _ mplsLabel) by auto. rewrite Hv, !Hs. done.
Qed.

Lemma present_elem l k v : (k, Some v) ∈ l -> (k, v) ∈ present l.
Proof. intros H. apply list_elem_of_omap. by exists (k, Some v). Qed.
Lemma present_inv l k v : (k, v) ∈ present l -> (k, Some v) ∈ l.
Proof. intros H. by apply list_elem_of_omap in H as ([k' [w|]] & Hin & [= -> ->]). Qed.
Lemma shown_str m f s : clean m -> str_of m f = Some s -> (key_of f, JStr s) ∈ present (shown_fields m).
Proof.
  intros Hc Hs. apply present_elem. pose proof (cl_str m Hc f s Hs) as Hv. unfold shown_fields. rewrite !elem_of_cons.
  destruct f; cbn [valid_text] in Hv; try done; rewrite Hs; auto 30.
Qed.
Lemma shown_num m f n : clean m -> num_of m f = Some n -> (nkey_of f, JStr (udec n)) ∈ present (shown_fields m).
Proof.
  intros Hc Hs. apply present_elem. pose proof (cl_num m Hc f n Hs) as Hv. unfold shown_fields. rewrite !elem_of_cons.
  destruct f; cbn [valid_num] in Hv; try done; rewrite Hs; auto 30.
Qed.
Lemma shown_vlan m : vlan_part m <> (false, 0, false, false) ->
  ("vlan_id", JStr (vlan_text (vlan_part m))) ∈ present (shown_fields m).
Proof.
  intros H. apply present_elem. unfold shown_fields, vlan_member_of. rewrite bool_decide_false by done.
  rewrite !elem_of_cons. auto 10.
Qed.
Lemma shown_entries m : clean m -> Forall (entry m) (present (shown_fields m)).
Proof.
  intros Hc. unfold present, shown_fields.
  assert (Ht : forall f l, Forall (entry m) (omap (fun kv => pair (fst kv) <$> snd kv) l) ->
    Forall (entry m) (omap (fun kv => pair (fst kv) <$> snd kv) ((key_of f, JStr <$> str_of m f) :: l))).
  { intros f l Hl. cbn. destruct (str_of m f) as [s|] eqn:E; [|done]. constructor; [|done].
    apply entry_str; [done|by apply (cl_str m Hc)]. }
  assert (Hn : forall f l, Forall (entry m) (omap (fun kv => pair (fst kv) <$> snd kv) l) ->
    Forall (entry m) (omap (fun kv => pair (fst kv) <$> snd kv) ((nkey_of f, (fun v => JStr (udec v)) <$> num_of m f) :: l))).
  { intros f l Hl. cbn. destruct (num_of m f) as [n|] eqn:E; [|done]. constructor; [|done].
    apply entry_num; [done|by apply (cl_num m Hc)]. }
  assert (Hv : forall l, Forall (entry m) (omap (fun kv => pair (fst kv) <$> snd kv) l) ->
    Forall (entry m) (omap (fun kv => pair (fst kv) <$> snd kv) (("vlan_id", vlan_member_of m) :: l))).
  { intros l Hl. cbn. unfold vlan_member_of. case_bool_decide as E; [done|]. constructor; [|done].
    apply entry_vlan; [apply (cl_vlan m Hc)|done]. }
  repeat first [apply Ht|apply Hn|apply Hv]. constructor.
Qed.

(** ** Where a rule matches *)

Definition vlan_label (v : string) : Z := default 0 (u32 <$> scan_long v).
Definition match_of (k : ep_kind) (r : portref) (b : Match) : HMatch :=
  let m b input port group gre ep nf t :=
    {| hm_base := b; hm_input := Some input; hm_nf_port := port; hm_group := group; hm_gre := gre; hm_input_endpoint := ep;
       hm_nf_endpoint_port := nf; hm_type := t |} in
  let t := Some (ref_text r) in
  match r with
  | RVnf nf n => m b nf (n + 1) None "" None t MATCH_NF
  | REp id =>
      match k with
      | EpInterface p => m b p 0 None "" t None MATCH_PORT
      | EpInternal g => m b (ref_text r) 0 (sscanf_u g) "" t None MATCH_ENDPOINT_INTERNAL
      | EpVlan v i => m (setEndpointVlanID (Z.land (vlan_label v) 65535) b) i 0 None "" t None MATCH_PORT
      | EpGre => m b (ref_text r) 0 None id t None MATCH_ENDPOINT_GRE
      | EpUnknown => m b (ref_text r) 0 None "" t None MATCH_GENERIC
      end
  end.
Definition pops_of (k : ep_kind) (r : portref) : list VlanAction :=
  match r, k with
  | REp _, EpVlan v _ => [{| va_type := ACTION_ENDPOINT_VLAN_POP; va_endpoint := ""; va_label := vlan_label v |}]
  | _, _ => []
  end.
(** The reference is resolved, to something that can be used. *)
Definition resolves (e : endpoints) (r : portref) (k : ep_kind) : Prop :=
  ref_ok r /\ match r with
              | RVnf _ _ => True
              | REp id => ep_lookup e id = k /\ k <> EpUnknown /\ k <> EpInternal ""
              end.
Definition with_pops (a : Action) (l : list VlanAction) : Action := {| a_output := a_output a; a_generic := a_generic a ++ l |}.

Lemma parse_port_in_ref e r k b a : resolves e r k ->
  parse_port_in e (ref_text r) {| ms_match := with_base b HMatch_new; ms_action := Some a; ms_found := false |}
  = Ret {| ms_match := match_of k r b; ms_action := Some (with_pops a (pops_of k r)); ms_found := true |}.
Proof.
  intros [Hr Hk]. unfold parse_port_in. cbn [ms_found negb check mbind out_bind].
  rewrite ref_text_tokens by done. cbn [of_res mbind out_bind].
  assert (Ha : with_pops a [] = a) by (destruct a; unfold with_pops; by rewrite app_nil_r).
  destruct r as [nf n|id].
  - cbn [ref_tokens refers_to]. rewrite bool_decide_false, bool_decide_true by done.
    change ["vnf"; nf; "port"; udec n] with (ref_tokens (RVnf nf n)). rewrite vnf_ref_tokens by done.
    cbn [mbind out_bind pops_of]. rewrite Ha. unfold on_match, setNFport. destruct Hr as [_ Hn].
    rewrite i32_small by lia. done.
  - destruct Hk as (Hl & Hu & Hi). cbn [ref_tokens refers_to]. rewrite bool_decide_true by done.
    rewrite (bool_decide_false ("endpoint" = "vnf")) by done.
    unfold epName. rewrite ref_text_tokens by done. cbn [of_res mbind out_bind ref_tokens lookup list_lookup from_option].
    unfold Datatypes.id. rewrite Hl.
    destruct k as [p|g|v i| |]; try done; cbn [pops_of]; rewrite ?Ha; try done.
    rewrite bool_decide_false by (intros ->; done). unfold on_match, setEndPointInternal.
    cbn -[sscanf_u ref_text]. by destruct (sscanf_u g).
Qed.

(** *** The match, read back *)

Lemma split_perm {A} (x : A) (l l' : list A) : l ≡ₚ x :: l' -> exists l1 l2, l = l1 ++ x :: l2 /\ l1 ++ l2 ≡ₚ l'.
Proof.
  intros H. assert (Hin : x ∈ l) by (rewrite H; set_solver). apply list_elem_of_split in Hin as (l1 & l2 & ->).
  exists l1, l2. split; [done|]. rewrite <- Permutation_middle in H. by apply Permutation_cons_inv in H.
Qed.

(** Everything has been reached. *)
Lemma reached_all b s : clean b -> (forall f, str_of s f = None \/ str_of s f = str_of b f) ->
  (forall f, num_of s f = None \/ num_of s f = num_of b f) -> Forall (reached b s) (present (shown_fields b)) ->
  str_of s = str_of b /\ num_of s = num_of b
  /\ (vlan_part b <> (false, 0, false, false) -> vlan_part s = vlan_part b).
Proof.
  intros Hc Hs Hn Hr. rewrite Forall_forall in Hr. split_and!.
  - extensionality f. destruct (str_of b f) as [v|] eqn:E.
    + pose proof (Hr _ (shown_str b f v Hc E)) as (H & _). rewrite (H f v E) by done. done.
    + destruct (Hs f) as [?|?]; congruence.
  - extensionality f. destruct (num_of b f) as [v|] eqn:E.
    + pose proof (Hr _ (shown_num b f v Hc E)) as (_ & H & _). rewrite (H f v E) by done. done.
    + destruct (Hn f) as [?|?]; congruence.
  - intros Hv. pose proof (Hr _ (shown_vlan b Hv)) as (_ & _ & H). by apply H.
Qed.
Lemma Match_eta (m m' : Match) : str_of m = str_of m' -> num_of m = num_of m' -> vlan_part m = vlan_part m' ->
  isEndpointVlanID m = isEndpointVlanID m' ->
  (isTcpProtocol m, isUdpProtocol m, isSctpProtocol m) = (isTcpProtocol m', isUdpProtocol m', isSctpProtocol m') ->
  (transport_src_port m, transport_dst_port m) = (transport_src_port m', transport_dst_port m') -> m = m'.
Proof. destruct m, m'. unfold vlan_part. cbn. congruence. Qed.

Lemma match_toJSON_ext m m' o : str_of m = str_of m' -> num_of m = num_of m' ->
  (isTcpProtocol m, isUdpProtocol m, isSctpProtocol m) = (isTcpProtocol m', isUdpProtocol m', isSctpProtocol m') ->
  (transport_src_port m, transport_dst_port m) = (transport_src_port m', transport_dst_port m') ->
  (forall o, put_vlan m o = put_vlan m' o) -> match_toJSON m o = match_toJSON m' o.
Proof.
  intros Hs Hn Ht Hp Hv. injection Ht as Ht1 Ht2 Ht3. injection Hp as Hp1 Hp2.
  assert (Es : forall k f o, put_str m k f o = put_str m' k f o) by (intros; unfold put_str; by rewrite Hs).
  assert (En : forall k f o, put_num m k f o = put_num m' k f o) by (intros; unfold put_num; by rewrite Hn).
  assert (Ep : forall b ks kd o, put_ports b ks kd m o = put_ports b ks kd m' o)
    by (intros; unfold put_ports; by rewrite Hp1, Hp2).
  unfold match_toJSON. rewrite Ht1, Ht2, Ht3, !Es, !En, !Ep, Hv. reflexivity.
Qed.
Lemma hmatch_shown k r b : clean b -> (k = EpUnknown -> exists nf n, r = RVnf nf n) ->
  (forall v i, k = EpVlan v i -> vlan_part b = (false, 0, false, false)) ->
  hmatch_toJSON (match_of k r b) = Ret (match_toJSON b [("port_in", JStr (ref_text r))]).
Proof.
  intros Hc Hu Hv. unfold hmatch_toJSON, match_of. destruct r as [nf n|id]; [done|].
  destruct k as [p|g|v i| |]; try done.
  - cbn [hm_type hm_input_endpoint of_cstr of_res mbind out_bind hm_base obj_set]. f_equal.
    specialize (Hv v i eq_refl). unfold vlan_part in Hv. injection Hv as H1 H2 H3 H4.
    apply match_toJSON_ext; [done..|]. intros o. unfold put_vlan. cbn [isVlanID isAnyVlan isNoVlan setEndpointVlanID set_vlan].
    by rewrite H1, H3, H4.
  - by destruct Hu as (? & ? & [=]).
Qed.

Definition base_of (k : ep_kind) (r : portref) (b : Match) : Match := hm_base (match_of k r b).
Lemma base_of_cases k r b :
  base_of k r b = b \/ exists v i, k = EpVlan v i /\ base_of k r b = setEndpointVlanID (Z.land (vlan_label v) 65535) b
    /\ forall b', base_of k r b' = setEndpointVlanID (Z.land (vlan_label v) 65535) b'.
Proof. destruct r; [by left|]. destruct k; try (by left). right. eexists _, _. done. Qed.
Lemma with_base_of k r b b1 : with_base (base_of k r b) (match_of k r b1) = match_of k r b.
Proof. destruct r; [done|]. by destruct k. Qed.
Lemma base_of_id k r b b' : base_of k r b = b -> isEndpointVlanID b = false -> base_of k r b' = b'.
Proof.
  destruct r; [done|]. destruct k; try done. intros H Hf. apply (f_equal isEndpointVlanID) in H. cbn in H. congruence.
Qed.
Lemma keys_functional {V} (l : list (string * V)) k v w : NoDup (fst <$> l) -> (k, v) ∈ l -> (k, w) ∈ l -> v = w.
Proof.
  intros Hnd Hv Hw. apply list_elem_of_lookup in Hv as [i Hi], Hw as [j Hj].
  assert (i = j) as ->; [|congruence].
  apply (NoDup_lookup (fst <$> l) i j k); [done|by rewrite list_lookup_fmap, Hi|by rewrite list_lookup_fmap, Hj].
Qed.
Lemma vlan_shown b : ("vlan_id", vlan_member_of b) ∈ shown_fields b.
Proof. unfold shown_fields. do 4 apply list_elem_of_further. apply list_elem_of_here. Qed.
Lemma vlan_member_none b : vlan_part b = (false, 0, false, false) -> vlan_member_of b = None.
Proof. intros E. unfold vlan_member_of. by rewrite bool_decide_true. Qed.
Lemma vlan_key_shown b : "vlan_id" ∈ fst <$> present (shown_fields b) -> vlan_part b <> (false, 0, false, false).
Proof.
  intros Hin E. apply list_elem_of_fmap in Hin as ([k v] & Hk & Hin). cbn in Hk. subst k.
  apply present_inv in Hin.
  pose proof (keys_functional _ _ _ _ (shown_fields_NoDup b) Hin (vlan_shown b)) as Hw.
  by rewrite (vlan_member_none b E) in Hw.
Qed.

Lemma reached_base b k r b1 l : (forall v i, k = EpVlan v i -> vlan_part b = (false, 0, false, false)) ->
  Forall (fun kv => kv ∈ present (shown_fields b)) l -> Forall (reached b b1) l -> Forall (reached b (base_of k r b1)) l.
Proof.
  intros Hk Hin Hr. rewrite !Forall_forall in *. intros kv Hkv.
  destruct (base_of_cases k r b1) as [->|(v & i & -> & -> & _)]; [by apply Hr|].
  destruct (Hr kv Hkv) as (H1 & H2 & _). split_and!; [done|done|]. intros E. exfalso.
  eapply vlan_key_shown; [|by eapply Hk]. rewrite <- E. apply list_elem_of_fmap_2. by apply Hin.
Qed.

Lemma base_final b k r b1 b2 : clean b ->
  (forall v i, k = EpVlan v i -> vlan_part b = (false, 0, false, false)) ->
  toward b Match_new b1 -> toward b (base_of k r b1) b2 -> Forall (reached b b2) (present (shown_fields b)) ->
  (vlan_part b = (false, 0, false, false) -> vlan_part b1 = (false, 0, false, false) /\ vlan_part b2 = vlan_part (base_of k r b1)) ->
  b2 = base_of k r b.
Proof.
  intros Hc Hv T1 T2 Hall Hnone. pose proof (cl_transport b Hc) as Ct. pose proof (cl_ports b Hc) as Cp.
  assert (Es : str_of (base_of k r b1) = str_of b1 /\ num_of (base_of k r b1) = num_of b1)
    by (destruct (base_of_cases k r b1) as [->|(v & i & _ & -> & _)]; done).
  destruct Es as [Es En].
  destruct (reached_all b b2 Hc) as (Hs & Hn & Hvl); [..|done|].
  { intros f. destruct (to_str _ _ _ T2 f) as [->|]; [rewrite Es|by right]. destruct (to_str _ _ _ T1 f) as [->|]; auto. }
  { intros f. destruct (to_num _ _ _ T2 f) as [->|]; [rewrite En|by right]. destruct (to_num _ _ _ T1 f) as [->|]; auto. }
  pose proof (to_rest _ _ _ T1) as R1. pose proof (to_rest _ _ _ T2) as R2. injection R1 as E1 E2 E3 E4 E5 E6.
  injection Ct as Ct1 Ct2 Ct3. injection Cp as Cp1 Cp2.
  destruct (base_of_cases k r b1) as [Eb|(v & i & Hk & Eb & Eb')].
  - rewrite Eb in R2, Hnone. injection R2 as G1 G2 G3 G4 G5 G6.
    rewrite (base_of_id k r b1 b Eb E1).
    apply Match_eta; [done|done| |rewrite G1, E1; symmetry; apply (cl_endpoint b Hc)|congruence|congruence].
    destruct (decide (vlan_part b = (false, 0, false, false))) as [Hb|Hb]; [|by apply Hvl].
    destruct (Hnone Hb) as [N1 N2]. congruence.
  - rewrite (Eb' b). rewrite Eb in R2, Hnone. injection R2 as G1 G2 G3 G4 G5 G6.
    pose proof (Hv v i Hk) as Hb. destruct (Hnone Hb) as [N1 N2].
    apply Match_eta; [done|done| |done|cbn; congruence|cbn; congruence].
    rewrite N2. unfold vlan_part in *. injection N1 as N1 _ N3 N4. injection Hb as B1 _ B3 B4. cbn. congruence.
Qed.
Lemma parseMatch_shown e k r b a : clean b -> resolves e r k ->
  (forall v i, k = EpVlan v i -> vlan_part b = (false, 0, false, false)) ->
  parseMatch e (match_toJSON b [("port_in", JStr (ref_text r))]) HMatch_new (Some a)
  = Ret (match_of k r b, Some (with_pops a (pops_of k r))).
Proof.
  intros Hc Hr Hv. unfold parseMatch.
  assert (Hp : match_toJSON b [("port_in", JStr (ref_text r))] ≡ₚ ("port_in", JStr (ref_text r)) :: present (shown_fields b)).
  { rewrite match_toJSON_shown by done. rewrite foldl_put_perm; [done|apply shown_fields_NoDup|].
    intros k' Hk' ->%list_elem_of_singleton. revert Hk'.
    change (fst <$> shown_fields b) with (fst <$> shown_fields Match_new). apply (bool_decide_unpack (_ ∉ _)). by vm_compute. }
  apply split_perm in Hp as (l1 & l2 & -> & Hp).
  assert (He : Forall (entry b) (l1 ++ l2)) by (rewrite Hp; by apply shown_entries).
  assert (Hin : Forall (fun kv => kv ∈ present (shown_fields b)) (l1 ++ l2)) by (rewrite Hp; apply Forall_forall; auto).
  assert (Hnd : NoDup (fst <$> l1 ++ l2)) by (rewrite Hp; apply present_NoDup, shown_fields_NoDup).
  apply Forall_app in He as [He1 He2]. apply Forall_app in Hin as [Hi1 Hi2].
  rewrite fmap_app in Hnd. apply NoDup_app in Hnd as (Hn1 & Hn12 & Hn2).
  set (st0 := {| ms_match := HMatch_new; ms_action := Some a; ms_found := false |}).
  destruct (members_entries e b l1 st0 Hc He1 Hn1) as (b1 & F1 & T1 & R1 & V1); [done|].
  rewrite out_fold_app, F1. cbn [mbind out_bind out_fold].
  assert (Hpi : match_member e (on_base (fun _ => b1) st0) ("port_in", JStr (ref_text r))
    = Ret {| ms_match := match_of k r b1; ms_action := Some (with_pops a (pops_of k r)); ms_found := true |})
    by (by apply parse_port_in_ref).
  rewrite Hpi. cbn [mbind out_bind].
  set (st1 := {| ms_match := match_of k r b1; ms_action := Some (with_pops a (pops_of k r)); ms_found := true |}).
  destruct (members_entries e b l2 st1 Hc He2 Hn2) as (b2 & F2 & T2 & R2 & V2).
  { intros Hk. cbn [st1 ms_match]. fold (base_of k r b1).
    assert (Hb : vlan_part b <> (false, 0, false, false)) by (apply vlan_key_shown; rewrite <- Hp, fmap_app; apply elem_of_app; by right).
    destruct (base_of_cases k r b1) as [->|(v & i & Hk' & _)]; [|by apply Hv in Hk'].
    rewrite V1; [done|]. intros Hk1. by apply (Hn12 _ Hk1). }
  rewrite F2. cbn [mbind out_bind on_base on_match ms_found check ms_match ms_action st1].
  assert (Hall : Forall (reached b b2) (present (shown_fields b))).
  { rewrite <- Hp. apply Forall_app. split; [|done]. eapply Forall_impl; [by eapply (reached_base b k r b1)|].
    intros kv Hkv. eapply reached_toward; [exact Hkv|exact T2]. }
  do 2 f_equal. rewrite <- (with_base_of k r b b1). f_equal.
  apply (base_final b k r b1 b2 Hc Hv T1 T2 Hall). intros Hb.
  assert (Hno : "vlan_id" ∉ fst <$> l1 ++ l2) by (rewrite Hp; intros Hk; by apply vlan_key_shown in Hk).
  rewrite fmap_app, not_elem_of_app in Hno. destruct Hno as [Hno1 Hno2]. split; [by apply V1|by apply V2].
Qed.
