(* ===== verification/GraphRoundtrip.v ===== *)
(** * A graph that is sent back (graph_parser.cc with the [toJSON] methods)

    A client reads a graph, and sends the document back to update it.  The
    results say which graphs survive, and how: what the parser makes of the
    document of a graph is the graph itself but for the names of its GRE
    endpoints. *)

From Stdlib Require Import ZArith Lia String Ascii.
From stdpp Require Import gmap strings numbers base list.
From S2P Require Import Prelude CString Cpp FlowMatch HighLevel HLGraph Json Validator MatchParser GraphParser GraphJson MatchRoundtrip.

(** ** Rules *)

Definition output_of (k : ep_kind) (r : portref) : output_action * list VlanAction :=
  let t := ref_text r in
  match r with
  | RVnf nf n => (ActionNetworkFunction nf t (n + 1), [])
  | REp id =>
      match k with
      | EpInterface p => (ActionPort p t, [])
      | EpInternal g => (ActionEndPointInternal g t, [])
      | EpVlan v i =>
          (ActionPort i t, [{| va_type := ACTION_ENDPOINT_VLAN_PUSH; va_endpoint := t; va_label := default 0 (sscanf_u v) |}])
      | EpGre | EpUnknown => (ActionEndPointGre id t, [])
      end
  end.
Lemma output_name_of k r : output_name (fst (output_of k r)) = ref_text r.
Proof. destruct r; [done|]. by destruct k. Qed.

Lemma parse_output_ref e r k a gas : resolves e r k ->
  parse_output e (ref_text r) {| as_action := a; as_generic := gas; as_found := false |}
  = Ret {| as_action := output_to (fst (output_of k r)) (snd (output_of k r)); as_generic := gas; as_found := true |}.
Proof.
  intros [Hr Hk]. unfold parse_output. rewrite ref_text_tokens by done. cbn [of_res mbind out_bind as_found negb check].
  destruct r as [nf n|id].
  - change (refers_to (ref_tokens (RVnf nf n))) with VNF_PORT_TYPE. cbn [mbind out_bind]. by rewrite vnf_ref_tokens.
  - destruct Hk as (Hl & Hu & Hi). change (refers_to (ref_tokens (REp id))) with EP_PORT_TYPE. unfold epName.
    rewrite ref_text_tokens by done. cbn [of_res mbind out_bind ref_tokens lookup list_lookup from_option].
    unfold Datatypes.id. rewrite Hl. destruct k as [p|g|v i| |]; try done.
    rewrite bool_decide_false by (intros ->; done). done.
Qed.

(** A rule from a resolved reference to another, without VLAN actions of its own. *)
Record rule_ok (e : endpoints) (r : Rule) : Prop := {
  ro_parts : exists ri ki ro ko b, clean b /\ resolves e ri ki /\ resolves e ro ko
    /\ (forall v i, ki = EpVlan v i -> vlan_part b = (false, 0, false, false))
    /\ r_match r = match_of ki ri b
    /\ r_action r = {| a_output := fst (output_of ko ro); a_generic := snd (output_of ko ro) ++ pops_of ki ri |};
  ro_priority : 0 <= r_priority r < 2147483648
}.

Lemma action_shown k r pops : Forall (fun ga => va_type ga = ACTION_ENDPOINT_VLAN_POP) pops ->
  action_toJSON {| a_output := fst (output_of k r); a_generic := snd (output_of k r) ++ pops |}
  = JObj [("output_to_port", JStr (ref_text r))].
Proof.
  intros Hp. unfold action_toJSON. cbn [a_output a_generic]. rewrite output_name_of, foldl_app. f_equal.
  assert (E : foldl (fun o ga => vlan_action_toJSON ga o) (obj [("output_to_port", JStr (ref_text r))]) (snd (output_of k r))
    = [("output_to_port", JStr (ref_text r))]) by (destruct r; [done|]; by destruct k).
  rewrite E. induction Hp as [|ga pops Hga Hp IH]; [done|]. cbn [foldl]. unfold vlan_action_toJSON at 2. by rewrite Hga.
Qed.
Lemma pops_of_type k r : Forall (fun ga => va_type ga = ACTION_ENDPOINT_VLAN_POP) (pops_of k r).
Proof. destruct r, k; repeat constructor. Qed.

Lemma parse_action_output e s t : parse_action e s (JObj [("output_to_port", JStr t)]) = parse_output e t s.
Proof. done. Qed.
Lemma parse_actions_shown e k r pops : resolves e r k -> Forall (fun ga => va_type ga = ACTION_ENDPOINT_VLAN_POP) pops ->
  parse_actions e (JArr [action_toJSON {| a_output := fst (output_of k r); a_generic := snd (output_of k r) ++ pops |}]) None
  = Ret (Some {| a_output := fst (output_of k r); a_generic := snd (output_of k r) |}, true).
Proof.
  intros Hr Hp. rewrite action_shown by done. unfold parse_actions. cbn [getArray mbind out_bind out_fold].
  rewrite parse_action_output, (parse_output_ref e r k) by done. cbn [mbind out_bind as_found check as_action output_to as_generic foldl].
  by rewrite bool_decide_false.
Qed.

Lemma pops_none k r ki ri :
  pops_vlan {| a_output := fst (output_of k r); a_generic := snd (output_of k r) ++ pops_of ki ri |} = false.
Proof. unfold pops_vlan. cbn [a_generic]. rewrite existsb_app. destruct r, k, ri, ki; done. Qed.

Lemma rule_member_actions e s v : rule_member e s ("actions", v)
  = ('(a, found) ← parse_actions e v (rs_action s);
     Ret {| rs_id := rs_id s; rs_priority := rs_priority s; rs_match := rs_match s; rs_action := a;
            rs_found_action := rs_found_action s || found |}).
Proof. done. Qed.
Lemma rule_member_id e s id : rule_member e s ("id", JStr id)
  = Ret {| rs_id := Some id; rs_priority := rs_priority s; rs_match := rs_match s; rs_action := rs_action s;
           rs_found_action := rs_found_action s |}.
Proof. done. Qed.
Lemma rule_member_match e s o : rule_member e s ("match", JObj o)
  = ('(m, a) ← parseMatch e o (default HMatch_new (rs_match s)) (rs_action s);
     Ret {| rs_id := rs_id s; rs_priority := rs_priority s; rs_match := Some m; rs_action := a;
            rs_found_action := rs_found_action s |}).
Proof. done. Qed.
Lemma rule_member_priority e s n : rule_member e s ("priority", JInt n)
  = Ret {| rs_id := rs_id s; rs_priority := u64 (i32 n); rs_match := rs_match s; rs_action := rs_action s;
           rs_found_action := rs_found_action s |}.
Proof. done. Qed.
Lemma parse_rule_shown e g r : rule_ok e r -> r_id r ∉ r_id <$> g_rules g ->
  exists v, rule_toJSON r = Ret v /\ parse_rule e g v = Ret (with_rules g (g_rules g ++ [r])).
Proof.
  intros [(ri & ki & ro & ko & b & Hc & Hri & Hro & Hv & Hm & Ha) Hp] Hid. destruct r as [m a id prio].
  cbn [r_match r_action r_id r_priority] in *. subst m a. unfold rule_toJSON. cbn [r_match r_action r_id r_priority].
  rewrite hmatch_shown; [|done| |done].
  2: { intros ->. destruct ri; [by eexists _, _|]. by destruct Hri as (_ & _ & ? & _). }
  cbn [mbind out_bind]. eexists. split; [reflexivity|].
  unfold parse_rule. cbn [getObject mbind out_bind].
  match goal with |- context [obj [("id", ?x); ("priority", ?y); ("match", ?z); ("actions", ?w)]] =>
    change (obj [("id", x); ("priority", y); ("match", z); ("actions", w)])
      with [("actions", w); ("id", x); ("match", z); ("priority", y)] end.
  cbn [out_fold]. rewrite rule_member_actions. cbn [rs_action]. rewrite parse_actions_shown by auto using pops_of_type.
  cbn [mbind out_bind]. rewrite rule_member_id. cbn [mbind out_bind]. rewrite rule_member_match. cbn [mbind out_bind rs_match rs_action from_option].
  rewrite (parseMatch_shown e ki ri b) by done. cbn [mbind out_bind]. rewrite rule_member_priority.
  cbn [getInt mbind out_bind rs_id rs_match rs_action rs_found_action rs_priority orb check deref].
  rewrite i32_small by lia. assert (Hu : u64 prio = prio) by (unfold u64; apply Z.mod_small; lia). rewrite Hu.
  unfold with_pops. cbn [a_output a_generic]. unfold addRule, list_add.
  destruct (existsb _ (g_rules g)) eqn:Ex.
  { apply existsb_exists in Ex as (r' & Hin & E). unfold rule_eqb in E. apply bool_decide_eq_true in E. cbn in E. subst id.
    destruct Hid. apply list_elem_of_fmap_2. by apply list_elem_of_In. }
  cbn [check mbind out_bind]. by rewrite pops_none.
Qed.

Lemma with_rules_twice g l l' : with_rules (with_rules g l) l' = with_rules g l'.
Proof. done. Qed.
Lemma parse_rules_shown e rules g : Forall (rule_ok e) rules -> NoDup (r_id <$> g_rules g ++ rules) ->
  exists vs, mapM (M := out) rule_toJSON rules = Ret vs
    /\ out_fold (parse_rule e) g vs = Ret (with_rules g (g_rules g ++ rules)).
Proof.
  intros Hr. revert g. induction Hr as [|r rules Hr Hrs IH]; intros g Hnd.
  { exists []. split; [done|]. cbn. rewrite app_nil_r. by destruct g. }
  assert (Hid : r_id r ∉ r_id <$> g_rules g).
  { rewrite fmap_app, fmap_cons in Hnd. apply NoDup_app in Hnd as (_ & H & _). intros Hin. by apply (H _ Hin), list_elem_of_here. }
  destruct (parse_rule_shown e g r Hr Hid) as (v & Hv & Hp).
  destruct (IH (with_rules g (g_rules g ++ [r]))) as (vs & Hvs & Hps); [cbn [g_rules with_rules]; by rewrite <- app_assoc|].
  exists (v :: vs). cbn [mapM]. rewrite Hv. cbn [mbind out_bind]. rewrite Hvs. split; [done|].
  cbn [out_fold]. rewrite Hp. cbn [mbind out_bind]. rewrite Hps, with_rules_twice. cbn [g_rules with_rules].
  by rewrite <- app_assoc.
Qed.

(** ** Network functions *)

Definition port_shown_ok (p : vnf_port) : Prop :=
  vp_mac p = "" \/ validateMac (vp_mac p) = true /\ isUnicastMac (vp_mac p) = Ret true.
Lemma parse_vnf_port_shown p : port_shown_ok p -> parse_vnf_port (vnf_port_toJSON p) = Ret p.
Proof.
  destruct p as [id name mac]. intros Hp. unfold vnf_port_toJSON. cbn [vp_id vp_name vp_mac] in *.
  case_bool_decide as E; [by subst mac|]. destruct Hp as [?|[H1 H2]]; [done|]. cbn [vp_mac] in *.
  change (obj ([("id", JStr id); ("name", JStr name)] ++ [("mac", JStr mac)]))
    with [("id", JStr id); ("mac", JStr mac); ("name", JStr name)].
  unfold parse_vnf_port. cbn [getObject mbind out_bind out_fold].
  assert (Em : forall p, vnf_port_member p ("mac", JStr mac) = Ret {| vp_id := vp_id p; vp_name := vp_name p; vp_mac := mac |}).
  { intros p. unfold vnf_port_member. rewrite !bool_decide_false, bool_decide_true by done. cbn [getString mbind out_bind].
    rewrite H1. cbn [check mbind out_bind]. by rewrite H2. }
  change (vnf_port_member {| vp_id := ""; vp_name := ""; vp_mac := "" |} ("id", JStr id))
    with (Ret {| vp_id := id; vp_name := ""; vp_mac := "" |}). cbn [mbind out_bind]. by rewrite Em.
Qed.
Lemma mapM_out_ret {A B} (f : A -> json) (g : json -> out B) (h : A -> B) l :
  Forall (fun x => g (f x) = Ret (h x)) l -> mapM (M := out) g (f <$> l) = Ret (h <$> l).
Proof. induction 1 as [|x l Hx Hl IH]; [done|]. cbn. rewrite Hx. cbn. cbn in IH. by rewrite IH. Qed.

Lemma vnf_member_ports s l ps : mapM (M := out) parse_vnf_port l = Ret ps ->
  vnf_member s ("ports", JArr l)
  = Ret (let f := vs_vnf s in set_vnf (v_id f) (v_name f) (v_groups f) (v_template f) (v_ports f ++ ps) (vs_named s) (vs_used s)).
Proof. intros H. unfold vnf_member. repeat (rewrite bool_decide_false by done). cbn [orb]. rewrite bool_decide_true by done.
  cbn [getArray mbind out_bind]. by rewrite H. Qed.
Lemma vnf_member_groups s gs :
  vnf_member s ("groups", JArr (JStr <$> gs))
  = Ret (let f := vs_vnf s in set_vnf (v_id f) (v_name f) (v_groups f ++ gs) (v_template f) (v_ports f) (vs_named s) (vs_used s)).
Proof.
  unfold vnf_member. repeat (rewrite bool_decide_false by done). cbn [orb]. rewrite bool_decide_true by done.
  cbn [getArray mbind out_bind]. rewrite (mapM_out_ret JStr getString (fun s => s)) by (apply Forall_forall; done).
  by rewrite list_fmap_id.
Qed.
Lemma vnf_member_id s id : id ∉ vs_used s ->
  vnf_member s ("id", JStr id)
  = Ret (let f := vs_vnf s in set_vnf id (v_name f) (v_groups f) (v_template f) (v_ports f) (vs_named s) ({[id]} ∪ vs_used s)).
Proof.
  intros H. unfold vnf_member. rewrite !(bool_decide_false ("id" = _)) by done. rewrite (bool_decide_true ("id" = "id")) by done.
  cbn [getString mbind out_bind]. by rewrite bool_decide_false.
Qed.
Lemma add_vnf_append l v : v_id v ∉ v_id <$> l -> add_vnf l v = l ++ [v].
Proof.
  induction l as [|w l IH]; intros H; [done|]. rewrite fmap_cons, not_elem_of_cons in H. destruct H as [Hne H].
  cbn [add_vnf]. unfold vnf_eqb. rewrite bool_decide_false by (intros E; by apply Hne). cbn [andb app]. by rewrite IH.
Qed.
Lemma parse_vnf_shown g used v : v_id v ∉ used -> v_id v ∉ v_id <$> g_vnfs g -> Forall port_shown_ok (v_ports v) ->
  parse_vnf (g, used) (vnf_toJSON v) = Ret (with_vnfs g (g_vnfs g ++ [v]), {[v_id v]} ∪ used).
Proof.
  intros Hu Hid Hp. destruct v as [id n gs t ps]. cbn [v_id v_ports] in *. unfold vnf_toJSON. cbn [v_id v_name v_groups v_template v_ports].
  assert (Hps : mapM (M := out) parse_vnf_port (vnf_port_toJSON <$> ps) = Ret ps).
  { rewrite (mapM_out_ret vnf_port_toJSON parse_vnf_port (fun p => p)); [by rewrite list_fmap_id|].
    eapply Forall_impl; [done|]. apply parse_vnf_port_shown. }
  assert (Hadd : addVNF g {| v_id := id; v_name := n; v_groups := gs; v_template := t; v_ports := ps |}
    = with_vnfs g (g_vnfs g ++ [{| v_id := id; v_name := n; v_groups := gs; v_template := t; v_ports := ps |}]))
    by (unfold addVNF; by rewrite add_vnf_append).
  unfold parse_vnf. cbn [getObject mbind out_bind].
  case_bool_decide as E.
  - subst gs. change (obj ([("id", JStr id); ("name", JStr n); ("vnf_template", JStr t)] ++ [] ++ [("ports", JArr (vnf_port_toJSON <$> ps))]))
      with [("id", JStr id); ("name", JStr n); ("ports", JArr (vnf_port_toJSON <$> ps)); ("vnf_template", JStr t)].
    cbn [out_fold]. rewrite vnf_member_id by done. cbn [mbind out_bind].
    match goal with |- context [vnf_member ?s ("name", JStr n)] => change (vnf_member s ("name", JStr n))
      with (Ret (set_vnf id n [] "" [] true ({[id]} ∪ used))) end.
    cbn [mbind out_bind]. rewrite (vnf_member_ports _ _ _ Hps). cbn [mbind out_bind].
    match goal with |- context [vnf_member ?s ("vnf_template", JStr t)] => change (vnf_member s ("vnf_template", JStr t))
      with (Ret (set_vnf id n [] t ps true ({[id]} ∪ used))) end.
    cbn [mbind out_bind vs_named set_vnf check vs_vnf vs_used]. by rewrite Hadd.
  - change (obj ([("id", JStr id); ("name", JStr n); ("vnf_template", JStr t)] ++ [("groups", JArr (JStr <$> gs))]
        ++ [("ports", JArr (vnf_port_toJSON <$> ps))]))
      with [("groups", JArr (JStr <$> gs)); ("id", JStr id); ("name", JStr n); ("ports", JArr (vnf_port_toJSON <$> ps)); ("vnf_template", JStr t)].
    cbn [out_fold]. rewrite vnf_member_groups. cbn [mbind out_bind]. rewrite vnf_member_id by done. cbn [mbind out_bind].
    match goal with |- context [vnf_member ?s ("name", JStr n)] => change (vnf_member s ("name", JStr n))
      with (Ret (set_vnf id n gs "" [] true ({[id]} ∪ used))) end.
    cbn [mbind out_bind]. rewrite (vnf_member_ports _ _ _ Hps). cbn [mbind out_bind].
    match goal with |- context [vnf_member ?s ("vnf_template", JStr t)] => change (vnf_member s ("vnf_template", JStr t))
      with (Ret (set_vnf id n gs t ps true ({[id]} ∪ used))) end.
    cbn [mbind out_bind vs_named set_vnf check vs_vnf vs_used]. by rewrite Hadd.
Qed.
Lemma parse_vnfs_shown l g used : NoDup (v_id <$> g_vnfs g ++ l) -> (forall v, v ∈ l -> v_id v ∉ used) ->
  Forall (fun v => Forall port_shown_ok (v_ports v)) l ->
  exists used', out_fold parse_vnf (g, used) (vnf_toJSON <$> l) = Ret (with_vnfs g (g_vnfs g ++ l), used').
Proof.
  revert g used. induction l as [|v l IH]; intros g used Hnd Hu Hp.
  { exists used. cbn. rewrite app_nil_r. by destruct g. }
  apply Forall_cons in Hp as [Hp Hps]. pose proof Hnd as Hnd'.
  rewrite fmap_app, fmap_cons in Hnd'. apply NoDup_app in Hnd' as (_ & H12 & H2). apply NoDup_cons in H2 as [Hni _].
  change (vnf_toJSON <$> v :: l) with (vnf_toJSON v :: (vnf_toJSON <$> l)). cbn [out_fold]. rewrite parse_vnf_shown; [|by apply Hu, list_elem_of_here| |done].
  2: { intros Hin. by apply (H12 _ Hin), list_elem_of_here. }
  cbn [mbind out_bind]. destruct (IH (with_vnfs g (g_vnfs g ++ [v])) ({[v_id v]} ∪ used)) as [used' ->].
  - cbn [g_vnfs with_vnfs]. by rewrite <- app_assoc.
  - intros w Hw. rewrite not_elem_of_union, not_elem_of_singleton. split; [|by apply Hu, list_elem_of_further].
    intros E. apply Hni. rewrite <- E. by apply list_elem_of_fmap_2.
  - done.
  - exists used'. cbn [g_vnfs with_vnfs]. by rewrite <- app_assoc.
Qed.

(** ** Endpoints *)

Definition flags_clear (s : ep_state) : Prop := es_if s = false /\ es_internal s = false /\ es_vlan s = false.
Definition ep_ids (g : Graph) : list string :=
  (ei_id <$> g_interface g) ++ (en_id <$> g_internal g) ++ (eg_id <$> g_gre g) ++ (ev_id <$> g_vlan g).
Definition ids_used (s : ep_state) : Prop := forall id, id ∈ ep_ids (es_graph s) -> id ∈ es_used s.

(** The states of the loop after an endpoint of each kind. *)
Definition ep_after (s : ep_state) (id name iface v_id group : string) (e : endpoints) (g : Graph) : ep_state :=
  {| es_id := id; es_name := name; es_interface := iface; es_v_id := v_id; es_in_group := group;
     es_if := false; es_internal := false; es_vlan := false; es_used := {[id]} ∪ es_used s; es_eps := e; es_graph := g |}.
Definition after_ei (s : ep_state) (e : EndPointInterface) : ep_state :=
  ep_after s (ei_id e) (ei_name e) (ei_interface e) (es_v_id s) (es_in_group s)
    (add_iface (ei_id e) (ei_interface e) (es_eps s)) (with_interface (es_graph s) (g_interface (es_graph s) ++ [e])).
Definition after_en (s : ep_state) (e : EndPointInternal) : ep_state :=
  ep_after s (en_id e) (en_name e) (es_interface s) (es_v_id s) (en_group e)
    (add_internal (en_id e) (en_group e) (es_eps s))
    (with_internal (es_graph s) (g_internal (es_graph s) ++ [e]) (<[en_group e := true]> (g_endpoints (es_graph s)))).
(** The name is read after the tunnel is made: it is that of the endpoint before. *)
Definition renamed (n : string) (e : EndPointGre) : EndPointGre :=
  {| eg_id := eg_id e; eg_name := n; eg_local_ip := eg_local_ip e; eg_remote_ip := eg_remote_ip e;
     eg_gre_key := eg_gre_key e; eg_ttl := eg_ttl e; eg_is_safe := eg_is_safe e |}.
Definition after_eg (s : ep_state) (e : EndPointGre) : ep_state :=
  ep_after s (eg_id e) (eg_name e) (es_interface s) (es_v_id s) (es_in_group s)
    (add_gre (eg_id e) (eg_local_ip e) (es_eps s)) (with_gre (es_graph s) (g_gre (es_graph s) ++ [renamed (es_name s) e])).
Definition after_ev (s : ep_state) (e : EndPointVlan) : ep_state :=
  ep_after s (ev_id e) (ev_name e) (ev_interface e) (ev_vlan_id e) (es_in_group s)
    (add_vlan (ev_id e) (ev_vlan_id e) (ev_interface e) (es_eps s)) (with_vlan (es_graph s) (g_vlan (es_graph s) ++ [e])).

Lemma list_add_new {A} (eqb : A -> A -> bool) (key : A -> string) l x :
  (forall y, eqb y x = true -> key y = key x) -> key x ∉ key <$> l -> list_add eqb l x = (l ++ [x], true).
Proof.
  intros Hk Hx. unfold list_add. destruct (existsb _ l) eqn:E; [|done].
  apply existsb_exists in E as (y & Hy & Hyx). destruct Hx. rewrite <- (Hk y Hyx). by apply list_elem_of_fmap_2, list_elem_of_In.
Qed.
Lemma member_of_ids g id :
  id ∉ ep_ids g ->
  (id ∉ (ei_id <$> g_interface g)) /\ (id ∉ (en_id <$> g_internal g)) /\ (id ∉ (eg_id <$> g_gre g)) /\ (id ∉ (ev_id <$> g_vlan g)).
Proof. unfold ep_ids. rewrite !not_elem_of_app. tauto. Qed.

Lemma ep_members_id id els s : id ∉ es_used s ->
  ep_members (("id", JStr id) :: els) s
  = ep_members els (set_ep_env ({[id]} ∪ es_used s) (es_eps s) (es_graph s) (set_id id s)).
Proof. intros H. cbn [ep_members]. rewrite bool_decide_true by done. cbn [getString mbind out_bind]. by rewrite bool_decide_false. Qed.

Lemma ep_members_name n els s :
  ep_members (("name", JStr n) :: els) s
  = ep_members els (set_ep (es_id s) n (es_interface s) (es_v_id s) (es_in_group s) (es_if s) (es_internal s) (es_vlan s) s).
Proof. done. Qed.
Lemma ep_members_type t els s : ep_members (("type", JStr t) :: els) s = ep_members els s.
Proof. done. Qed.
Lemma ep_members_iface n els s :
  ep_members (("interface", JObj [("if-name", JStr n)]) :: els) s
  = ep_members els (set_ep_env (es_used s) (add_iface (es_id s) n (es_eps s)) (es_graph s)
      (set_ep (es_id s) (es_name s) n (es_v_id s) (es_in_group s) true (es_internal s) (es_vlan s) s)).
Proof. done. Qed.
Lemma ep_members_internal g els s :
  ep_members (("internal", JObj [("internal-group", JStr g)]) :: els) s
  = ep_members els (set_ep_env (es_used s) (add_internal (es_id s) g (es_eps s)) (es_graph s)
      (set_ep (es_id s) (es_name s) (es_interface s) (es_v_id s) g (es_if s) true (es_vlan s) s)).
Proof. done. Qed.
Lemma ep_members_vlan v i els s :
  ep_members (("vlan", JObj [("if-name", JStr i); ("vlan-id", JStr v)]) :: els) s
  = ep_members els (set_ep_env (es_used s) (add_vlan (es_id s) v i (es_eps s)) (es_graph s)
      (set_ep (es_id s) (es_name s) i v (es_in_group s) (es_if s) (es_internal s) true s)).
Proof. done. Qed.
Lemma ep_members_gre v els s : ep_members (("gre-tunnel", v) :: els) s = (s ← parse_gre v els s; ep_members els s).
Proof. done. Qed.

Lemma parse_ei s e : flags_clear s -> ei_id e ∉ es_used s -> ids_used s -> parse_endpoint s (ei_toJSON e) = Ret (after_ei s e).
Proof.
  intros (F1 & F2 & F3) Hid Hu. destruct (member_of_ids (es_graph s) (ei_id e)) as (Hn & _); [by intros ?%Hu|].
  unfold parse_endpoint, ei_toJSON. cbn [getObject mbind out_bind].
  match goal with |- context [obj [("id", ?a); ("name", ?b); ("type", ?c); ("interface", JObj ?d)]] =>
    change (obj [("id", a); ("name", b); ("type", c); ("interface", JObj d)])
      with [("id", a); ("interface", JObj [("if-name", JStr (ei_interface e))]); ("name", b); ("type", c)] end.
  rewrite ep_members_id, ep_members_iface, ep_members_name, ep_members_type by done. cbn [ep_members mbind out_bind].
  destruct s as [x1 x2 x3 x4 x5 i1 i2 i3 used eps g], e as [id n i]. cbn in F1, F2, F3, Hid, Hn. subst.
  unfold add_endpoint, addEndPointInterface. cbn [es_if set_ep set_ep_env set_id es_graph es_id es_name es_interface ei_id ei_name ei_interface].
  rewrite (list_add_new ei_eqb ei_id); [done| |done].
  intros y Hy. unfold ei_eqb in Hy. apply andb_prop in Hy as [Hy _]. apply andb_prop in Hy as [Hy _].
  by apply bool_decide_eq_true in Hy.
Qed.
Lemma parse_en s e : flags_clear s -> en_id e ∉ es_used s -> ids_used s -> parse_endpoint s (en_toJSON e) = Ret (after_en s e).
Proof.
  intros (F1 & F2 & F3) Hid Hu. destruct (member_of_ids (es_graph s) (en_id e)) as (_ & Hn & _); [by intros ?%Hu|].
  unfold parse_endpoint, en_toJSON. cbn [getObject mbind out_bind].
  match goal with |- context [obj [("id", ?a); ("name", ?b); ("type", ?c); ("internal", JObj ?d)]] =>
    change (obj [("id", a); ("name", b); ("type", c); ("internal", JObj d)])
      with [("id", a); ("internal", JObj [("internal-group", JStr (en_group e))]); ("name", b); ("type", c)] end.
  rewrite ep_members_id, ep_members_internal, ep_members_name, ep_members_type by done. cbn [ep_members mbind out_bind].
  destruct s as [x1 x2 x3 x4 x5 i1 i2 i3 used eps g], e as [id n i]. cbn in F1, F2, F3, Hid, Hn. subst.
  unfold add_endpoint, addEndPointInternal.
  cbn [es_if es_internal set_ep set_ep_env set_id es_graph es_id es_name es_in_group en_id en_name en_group].
  rewrite (list_add_new en_eqb en_id); [done| |done].
  intros y Hy. unfold en_eqb in Hy. apply andb_prop in Hy as [Hy _]. apply andb_prop in Hy as [Hy _].
  by apply bool_decide_eq_true in Hy.
Qed.
Lemma parse_ev s e : flags_clear s -> ev_id e ∉ es_used s -> ids_used s -> parse_endpoint s (ev_toJSON e) = Ret (after_ev s e).
Proof.
  intros (F1 & F2 & F3) Hid Hu. destruct (member_of_ids (es_graph s) (ev_id e)) as (_ & _ & _ & Hn); [by intros ?%Hu|].
  unfold parse_endpoint, ev_toJSON. cbn [getObject mbind out_bind].
  match goal with |- context [obj [("id", ?a); ("name", ?b); ("type", ?c); ("vlan", JObj ?d)]] =>
    change (obj [("id", a); ("name", b); ("type", c); ("vlan", JObj d)])
      with [("id", a); ("name", b); ("type", c); ("vlan", JObj [("if-name", JStr (ev_interface e)); ("vlan-id", JStr (ev_vlan_id e))])] end.
  rewrite ep_members_id, ep_members_name, ep_members_type, ep_members_vlan by done. cbn [ep_members mbind out_bind].
  destruct s as [x1 x2 x3 x4 x5 i1 i2 i3 used eps g], e as [id n v i]. cbn in F1, F2, F3, Hid, Hn. subst.
  unfold add_endpoint, addEndPointVlan.
  cbn [es_if es_internal es_vlan set_ep set_ep_env set_id es_graph es_id es_name es_v_id es_interface ev_id ev_name ev_vlan_id ev_interface].
  rewrite (list_add_new ev_eqb ev_id); [done| |done].
  intros y Hy. unfold ev_eqb in Hy. do 3 apply andb_prop in Hy as [Hy _]. by apply bool_decide_eq_true in Hy.
Qed.
Lemma parse_eg s e : flags_clear s -> eg_id e ∉ es_used s -> ids_used s -> parse_endpoint s (eg_toJSON e) = Ret (after_eg s e).
Proof.
  intros (F1 & F2 & F3) Hid Hu. destruct (member_of_ids (es_graph s) (eg_id e)) as (_ & _ & Hn & _); [by intros ?%Hu|].
  unfold parse_endpoint, eg_toJSON. cbn [getObject mbind out_bind].
  match goal with |- context [obj [("id", ?a); ("name", ?b); ("type", ?c); ("gre-tunnel", ?d)]] =>
    change (obj [("id", a); ("name", b); ("type", c); ("gre-tunnel", d)])
      with [("gre-tunnel", d); ("id", a); ("name", b); ("type", c)] end.
  rewrite ep_members_gre.
  destruct e as [id n l r k t safe]. cbn [eg_id eg_name eg_local_ip eg_remote_ip eg_gre_key eg_ttl eg_is_safe] in *.
  assert (Hg : parse_gre (JObj (obj ([("local-ip", JStr l); ("remote-ip", JStr r); ("gre-key", JStr k)]
      ++ (if bool_decide (t = "") then [] else [("ttl", JStr t)]) ++ [("secure", JBool safe)])))
      [("id", JStr id); ("name", JStr n); ("type", JStr "gre-tunnel")] s
    = Ret (set_ep_env (es_used s) (add_gre id l (es_eps s))
        (fst (addEndPointGre (es_graph s) {| eg_id := id; eg_name := es_name s; eg_local_ip := l; eg_remote_ip := r;
                                             eg_gre_key := k; eg_ttl := t; eg_is_safe := safe |})) (set_id id s))).
  { case_bool_decide as Et; [subst t|]; done. }
  rewrite Hg. cbn [mbind out_bind]. clear Hg.
  rewrite ep_members_id, ep_members_name, ep_members_type by done. cbn [ep_members mbind out_bind].
  destruct s as [x1 x2 x3 x4 x5 i1 i2 i3 used eps g]. cbn in F1, F2, F3, Hid, Hn. subst.
  unfold add_endpoint, addEndPointGre. cbn [es_if es_internal es_vlan set_ep set_ep_env set_id es_graph es_name].
  rewrite (list_add_new eg_eqb eg_id); [done| |done].
  intros y Hy. unfold eg_eqb in Hy. do 4 apply andb_prop in Hy as [Hy _]. by apply bool_decide_eq_true in Hy.
Qed.

Section endpoint_list.
Context {A : Type} (shown : A -> json) (after : ep_state -> A -> ep_state) (key : A -> string).
Context (step : forall s e, flags_clear s -> key e ∉ es_used s -> ids_used s -> parse_endpoint s (shown e) = Ret (after s e)).
Context (after_clear : forall s e, flags_clear (after s e)).
Context (after_used : forall s e, es_used (after s e) = {[key e]} ∪ es_used s).
Context (after_ids : forall s e, ep_ids (es_graph (after s e)) ≡ₚ key e :: ep_ids (es_graph s)).

Lemma parse_endpoint_list l s : flags_clear s -> ids_used s -> NoDup (key <$> l) -> (forall e, e ∈ l -> key e ∉ es_used s) ->
  out_fold parse_endpoint s (shown <$> l) = Ret (foldl after s l)
  /\ flags_clear (foldl after s l) /\ ids_used (foldl after s l)
  /\ (forall id, id ∈ es_used (foldl after s l) <-> id ∈ es_used s \/ id ∈ key <$> l).
Proof.
  revert s. induction l as [|e l IH]; intros s Hc Hu Hnd Hn.
  { split_and!; [done|done|done|]. intros id. split; [by left|]. intros [?|[]%elem_of_nil]; done. }
  rewrite fmap_cons in Hnd. apply NoDup_cons in Hnd as [Hni Hnd].
  assert (Hu' : ids_used (after s e)).
  { intros id. rewrite after_ids, after_used, elem_of_cons, elem_of_union, elem_of_singleton. intros [->|H]; auto. }
  destruct (IH (after s e) (after_clear s e) Hu' Hnd) as (H1 & H2 & H3 & H4).
  { intros e' He'. rewrite after_used, not_elem_of_union, not_elem_of_singleton.
    split; [|by apply Hn, list_elem_of_further]. intros E. apply Hni. rewrite <- E. by apply list_elem_of_fmap_2. }
  change (shown <$> e :: l) with (shown e :: (shown <$> l)). cbn [out_fold foldl].
  rewrite step by (done || apply Hn, list_elem_of_here). cbn [mbind out_bind]. split_and!; [done|done|done|].
  intros id. rewrite H4, after_used, elem_of_union, elem_of_singleton, fmap_cons, elem_of_cons. tauto.
Qed.
End endpoint_list.

(** The names GRE endpoints come back with: each has that of the endpoint before. *)
Fixpoint stale_names (prev : string) (l : list EndPointGre) : list EndPointGre :=
  match l with
  | [] => []
  | e :: l => renamed prev e :: stale_names (eg_name e) l
  end.
Lemma stale_names_ids prev l : eg_id <$> stale_names prev l = eg_id <$> l.
Proof. revert prev. induction l as [|e l IH]; intros prev; [done|]. cbn. f_equal. apply IH. Qed.

Definition last_name (prev : string) (names : list string) : string := default prev (last names).
Lemma last_name_cons prev n names : last_name prev (n :: names) = last_name n names.
Proof. unfold last_name. rewrite last_cons. by destruct (last names). Qed.

(** The tables the parser ends up with. *)
Definition tables (g : Graph) : endpoints :=
  {| iface_id := foldl (fun m e => <[ei_id e := ei_interface e]> m) ∅ (g_interface g);
     internal_id := foldl (fun m e => <[en_id e := en_group e]> m) ∅ (g_internal g);
     vlan_id := foldl (fun m e => <[ev_id e := (ev_vlan_id e, ev_interface e)]> m) ∅ (g_vlan g);
     gre_id := foldl (fun m e => <[eg_id e := eg_local_ip e]> m) ∅ (g_gre g) |}.

Lemma after_ei_list l s :
  let s' := foldl after_ei s l in
  es_graph s' = with_interface (es_graph s) (g_interface (es_graph s) ++ l)
  /\ es_eps s' = {| iface_id := foldl (fun m e => <[ei_id e := ei_interface e]> m) (iface_id (es_eps s)) l;
                    internal_id := internal_id (es_eps s); vlan_id := vlan_id (es_eps s); gre_id := gre_id (es_eps s) |}
  /\ es_name s' = last_name (es_name s) (ei_name <$> l).
Proof.
  revert s. induction l as [|e l IH]; intros s; cbn [foldl fmap list_fmap].
  { rewrite app_nil_r. split_and!; [by destruct (es_graph s)|by destruct (es_eps s)|done]. }
  destruct (IH (after_ei s e)) as (H1 & H2 & H3). rewrite H1, H2, H3, last_name_cons. cbn.
  by rewrite <- app_assoc.
Qed.
Lemma after_en_list l s :
  let s' := foldl after_en s l in
  es_graph s' = with_internal (es_graph s) (g_internal (es_graph s) ++ l)
                  (foldl (fun m e => <[en_group e := true]> m) (g_endpoints (es_graph s)) l)
  /\ es_eps s' = {| iface_id := iface_id (es_eps s);
                    internal_id := foldl (fun m e => <[en_id e := en_group e]> m) (internal_id (es_eps s)) l;
                    vlan_id := vlan_id (es_eps s); gre_id := gre_id (es_eps s) |}
  /\ es_name s' = last_name (es_name s) (en_name <$> l).
Proof.
  revert s. induction l as [|e l IH]; intros s; cbn [foldl fmap list_fmap].
  { rewrite app_nil_r. split_and!; [by destruct (es_graph s)|by destruct (es_eps s)|done]. }
  destruct (IH (after_en s e)) as (H1 & H2 & H3). rewrite H1, H2, H3, last_name_cons. cbn.
  by rewrite <- app_assoc.
Qed.
Lemma after_eg_list l s :
  let s' := foldl after_eg s l in
  es_graph s' = with_gre (es_graph s) (g_gre (es_graph s) ++ stale_names (es_name s) l)
  /\ es_eps s' = {| iface_id := iface_id (es_eps s); internal_id := internal_id (es_eps s); vlan_id := vlan_id (es_eps s);
                    gre_id := foldl (fun m e => <[eg_id e := eg_local_ip e]> m) (gre_id (es_eps s)) l |}.
Proof.
  revert s. induction l as [|e l IH]; intros s; cbn [foldl stale_names].
  { rewrite app_nil_r. split_and!; [by destruct (es_graph s)|by destruct (es_eps s)]. }
  destruct (IH (after_eg s e)) as (H1 & H2). rewrite H1, H2. cbn. by rewrite <- app_assoc.
Qed.
Lemma after_ev_list l s :
  let s' := foldl after_ev s l in
  es_graph s' = with_vlan (es_graph s) (g_vlan (es_graph s) ++ l)
  /\ es_eps s' = {| iface_id := iface_id (es_eps s); internal_id := internal_id (es_eps s);
                    vlan_id := foldl (fun m e => <[ev_id e := (ev_vlan_id e, ev_interface e)]> m) (vlan_id (es_eps s)) l;
                    gre_id := gre_id (es_eps s) |}.
Proof.
  revert s. induction l as [|e l IH]; intros s; cbn [foldl].
  { rewrite app_nil_r. split_and!; [by destruct (es_graph s)|by destruct (es_eps s)]. }
  destruct (IH (after_ev s e)) as (H1 & H2). rewrite H1, H2. cbn. by rewrite <- app_assoc.
Qed.

Definition shown_endpoints (g : Graph) : list json :=
  (ei_toJSON <$> g_interface g) ++ (en_toJSON <$> g_internal g) ++ (eg_toJSON <$> g_gre g) ++ (ev_toJSON <$> g_vlan g).
(** The graph with the parts that are shown as endpoints. *)
Definition with_endpoints (g0 g : Graph) (gre : list EndPointGre) : Graph :=
  {| g_id := g_id g0; g_name := g_name g0;
     g_endpoints := foldl (fun m e => <[en_group e := true]> m) ∅ (g_internal g); g_rules := g_rules g0;
     g_interface := g_interface g; g_internal := g_internal g; g_gre := gre; g_vlan := g_vlan g; g_vnfs := g_vnfs g0 |}.
Definition no_parts (g : Graph) : Prop :=
  g_endpoints g = ∅ /\ g_interface g = [] /\ g_internal g = [] /\ g_gre g = [] /\ g_vlan g = [].
Definition gre_reread (g : Graph) : list EndPointGre :=
  stale_names (last_name "" ((ei_name <$> g_interface g) ++ (en_name <$> g_internal g))) (g_gre g).
Lemma last_name_app prev l l' : last_name prev (l ++ l') = last_name (last_name prev l) l'.
Proof.
  revert prev. induction l as [|n l IH]; intros prev; [done|]. rewrite <- app_comm_cons, !last_name_cons. apply IH.
Qed.

Definition ei_list_shown := parse_endpoint_list ei_toJSON after_ei ei_id parse_ei (fun _ _ => conj eq_refl (conj eq_refl eq_refl)) (fun _ _ => eq_refl).
Definition en_list_shown := parse_endpoint_list en_toJSON after_en en_id parse_en (fun _ _ => conj eq_refl (conj eq_refl eq_refl)) (fun _ _ => eq_refl).
Definition eg_list_shown := parse_endpoint_list eg_toJSON after_eg eg_id parse_eg (fun _ _ => conj eq_refl (conj eq_refl eq_refl)) (fun _ _ => eq_refl).
Definition ev_list_shown := parse_endpoint_list ev_toJSON after_ev ev_id parse_ev (fun _ _ => conj eq_refl (conj eq_refl eq_refl)) (fun _ _ => eq_refl).
Lemma after_ei_ids s e : ep_ids (es_graph (after_ei s e)) ≡ₚ ei_id e :: ep_ids (es_graph s).
Proof. unfold ep_ids. cbn. rewrite fmap_app. cbn. solve_Permutation. Qed.
Lemma after_en_ids s e : ep_ids (es_graph (after_en s e)) ≡ₚ en_id e :: ep_ids (es_graph s).
Proof. unfold ep_ids. cbn. rewrite fmap_app. cbn. solve_Permutation. Qed.
Lemma after_eg_ids s e : ep_ids (es_graph (after_eg s e)) ≡ₚ eg_id e :: ep_ids (es_graph s).
Proof. unfold ep_ids. cbn. rewrite fmap_app. cbn. solve_Permutation. Qed.
Lemma after_ev_ids s e : ep_ids (es_graph (after_ev s e)) ≡ₚ ev_id e :: ep_ids (es_graph s).
Proof. unfold ep_ids. cbn. rewrite fmap_app. cbn. solve_Permutation. Qed.

(** Both facts about the loop: it runs, and what it leaves. *)
Lemma parse_endpoints_run g s0 : flags_clear s0 -> es_used s0 = ∅ -> ids_used s0 -> NoDup (ep_ids g) ->
  out_fold parse_endpoint s0 (shown_endpoints g)
  = Ret (foldl after_ev (foldl after_eg (foldl after_en (foldl after_ei s0 (g_interface g)) (g_internal g)) (g_gre g)) (g_vlan g)).
Proof.
  intros C0 U0 I0 Hnd. unfold ep_ids in Hnd.
  apply NoDup_app in Hnd as (D1 & D1' & Hnd). apply NoDup_app in Hnd as (D2 & D2' & Hnd).
  apply NoDup_app in Hnd as (D3 & D3' & D4). unfold shown_endpoints. rewrite out_fold_app.
  assert (Happ : forall (x : string) l l', x ∈ l' -> x ∈ l ++ l') by (intros; apply elem_of_app; auto).
  destruct (ei_list_shown after_ei_ids (g_interface g) s0 C0 I0 D1) as (-> & C1 & I1 & U1).
  { intros e _. rewrite U0. apply not_elem_of_empty. }
  cbn [mbind out_bind]. rewrite out_fold_app. destruct (en_list_shown after_en_ids (g_internal g) _ C1 I1 D2) as (-> & C2 & I2 & U2).
  { intros e He. rewrite U1, U0. intros [[]%elem_of_empty|Hin]. apply (D1' _ Hin), elem_of_app. left. by apply list_elem_of_fmap_2. }
  cbn [mbind out_bind]. rewrite out_fold_app. destruct (eg_list_shown after_eg_ids (g_gre g) _ C2 I2 D3) as (-> & C3 & I3 & U3).
  { intros e He. rewrite U2, U1, U0. assert (Hg : eg_id e ∈ eg_id <$> g_gre g) by (by apply list_elem_of_fmap_2).
    intros [[[]%elem_of_empty|Hin]|Hin]; [apply (D1' _ Hin), Happ|apply (D2' _ Hin)]; apply elem_of_app; by left. }
  cbn [mbind out_bind]. destruct (ev_list_shown after_ev_ids (g_vlan g) _ C3 I3 D4) as (-> & _); [|done].
  intros e He. rewrite U3, U2, U1, U0. assert (Hg : ev_id e ∈ ev_id <$> g_vlan g) by (by apply list_elem_of_fmap_2).
  intros [[[[]%elem_of_empty|Hin]|Hin]|Hin]; [apply (D1' _ Hin), Happ, Happ|apply (D2' _ Hin), Happ|apply (D3' _ Hin)]; done.
Qed.
Lemma parse_endpoints_shown g g0 : no_parts g0 -> NoDup (ep_ids g) ->
  parse_endpoints (JArr (shown_endpoints g)) no_endpoints g0 = Ret (tables g, with_endpoints g0 g (gre_reread g)).
Proof.
  intros (N1 & N2 & N3 & N4 & N5) Hnd. unfold parse_endpoints. cbn [getArray mbind out_bind].
  rewrite parse_endpoints_run; [|done|done| |done].
  2: { intros id. unfold ep_ids. cbn. rewrite N2, N3, N4, N5. by intros []%elem_of_nil. }
  cbn [mbind out_bind]. set (s0 := ep_start no_endpoints g0).
  destruct (after_ei_list (g_interface g) s0) as (G1 & E1 & M1). set (s1 := foldl after_ei s0 _) in *.
  destruct (after_en_list (g_internal g) s1) as (G2 & E2 & M2). set (s2 := foldl after_en s1 _) in *.
  destruct (after_eg_list (g_gre g) s2) as (G3 & E3). set (s3 := foldl after_eg s2 _) in *.
  destruct (after_ev_list (g_vlan g) s3) as (G4 & E4). rewrite G4, E4, G3, E3, G2, E2, G1, E1, M2, M1.
  unfold gre_reread. rewrite last_name_app. cbn. unfold with_endpoints, tables. cbn. rewrite N1, N2, N3, N4, N5. done.
Qed.

(** ** The graph *)

(** A graph a client could have written: identifiers are not repeated, the rules
    refer to its endpoints. *)
Record parts_ok (g : Graph) : Prop := {
  po_ids : NoDup (ep_ids g);
  po_vnfs : NoDup (v_id <$> g_vnfs g);
  po_ports : Forall (fun v => Forall port_shown_ok (v_ports v)) (g_vnfs g)
}.
Record graph_ok (g : Graph) : Prop := {
  go_parts : parts_ok g;
  go_groups : g_endpoints g = foldl (fun m e => <[en_group e := true]> m) ∅ (g_internal g);
  go_rule_ids : NoDup (r_id <$> g_rules g);
  go_rules : Forall (rule_ok (tables g)) (g_rules g)
}.

Definition opt_member (k : string) (l : list json) : list (string * json) :=
  if bool_decide (l = []) then [] else [(k, JArr l)].
Lemma document_members g rules :
  obj ([("id", JStr (g_id g)); ("name", JStr (g_name g))]
    ++ opt_member "end-points" (shown_endpoints g) ++ opt_member "VNFs" (vnf_toJSON <$> g_vnfs g)
    ++ [("big-switch", JObj (obj [("flow-rules", JArr rules)]))])
  = opt_member "VNFs" (vnf_toJSON <$> g_vnfs g) ++ [("big-switch", JObj [("flow-rules", JArr rules)])]
    ++ opt_member "end-points" (shown_endpoints g) ++ [("id", JStr (g_id g)); ("name", JStr (g_name g))].
Proof. unfold opt_member. case_bool_decide; case_bool_decide; reflexivity. Qed.

Lemma with_vnfs_nil g : g_vnfs g = [] -> with_vnfs g [] = g.
Proof. destruct g. cbn. by intros ->. Qed.
Lemma parse_vnfs_member g g0 e b : g_vnfs g0 = [] -> NoDup (v_id <$> g_vnfs g) ->
  Forall (fun v => Forall port_shown_ok (v_ports v)) (g_vnfs g) ->
  out_fold fg_member {| fg_graph := g0; fg_eps := e; fg_big_switch := b |} (opt_member "VNFs" (vnf_toJSON <$> g_vnfs g))
  = Ret {| fg_graph := with_vnfs g0 (g_vnfs g); fg_eps := e; fg_big_switch := b |}.
Proof.
  intros N0 Hnd Hp. unfold opt_member. case_bool_decide as E.
  { apply fmap_nil_inv in E. rewrite E. cbn [out_fold]. by rewrite with_vnfs_nil. }
  cbn [out_fold]. change (fg_member {| fg_graph := g0; fg_eps := e; fg_big_switch := b |} ("VNFs", JArr (vnf_toJSON <$> g_vnfs g)))
    with (g1 ← parse_vnfs (JArr (vnf_toJSON <$> g_vnfs g)) g0; Ret {| fg_graph := g1; fg_eps := e; fg_big_switch := b |}).
  unfold parse_vnfs. cbn [getArray mbind out_bind].
  destruct (parse_vnfs_shown (g_vnfs g) g0 ∅) as [used ->]; [by rewrite N0|intros; apply not_elem_of_empty|done|].
  cbn [mbind out_bind]. by rewrite N0.
Qed.
Lemma parse_endpoints_member g g0 b : no_parts g0 -> NoDup (ep_ids g) ->
  out_fold fg_member {| fg_graph := g0; fg_eps := no_endpoints; fg_big_switch := b |} (opt_member "end-points" (shown_endpoints g))
  = Ret {| fg_graph := with_endpoints g0 g (gre_reread g); fg_eps := tables g; fg_big_switch := b |}.
Proof.
  intros N0 Hnd. unfold opt_member. case_bool_decide as E.
  - unfold shown_endpoints in E. apply app_eq_nil in E as [E1 E]. apply app_eq_nil in E as [E2 E]. apply app_eq_nil in E as [E3 E4].
    apply fmap_nil_inv in E1, E2, E3, E4. destruct N0 as (N1 & N2 & N3 & N4 & N5). destruct g0. cbn in *. subst.
    unfold with_endpoints, gre_reread, tables. rewrite E1, E2, E3, E4. done.
  - cbn [out_fold].
    change (fg_member {| fg_graph := g0; fg_eps := no_endpoints; fg_big_switch := b |} ("end-points", JArr (shown_endpoints g)))
      with ('(e1, g1) ← parse_endpoints (JArr (shown_endpoints g)) no_endpoints g0;
            Ret {| fg_graph := g1; fg_eps := e1; fg_big_switch := b |}).
    by rewrite parse_endpoints_shown.
Qed.

(** Without its rules; these come last. *)
Definition skeleton (g : Graph) : Graph :=
  setName (g_name g) (with_endpoints (with_vnfs (Graph_new (g_id g)) (g_vnfs g)) g (gre_reread g)).
Lemma document_parsed g rules : parts_ok g -> mapM (M := out) rule_toJSON (g_rules g) = Ret rules ->
  exists v, graph_document g = Ret v
    /\ parseGraph v (Graph_new (g_id g)) = out_fold (parse_rule (tables g)) (skeleton g) rules.
Proof.
  intros [H1 H3 H4] Hr. unfold graph_document, graph_toJSON.
  rewrite Hr. cbn [mbind out_bind]. eexists. split; [reflexivity|].
  fold (shown_endpoints g). fold (opt_member "end-points" (shown_endpoints g)).
  fold (opt_member "VNFs" (vnf_toJSON <$> g_vnfs g)). rewrite document_members.
  unfold parseGraph. cbn [obj foldl obj_set getObject mbind out_bind out_fold]. rewrite bool_decide_true by done.
  unfold parse_forwarding_graph. cbn [getObject mbind out_bind]. rewrite out_fold_app.
  rewrite parse_vnfs_member by done. cbn [mbind out_bind]. rewrite out_fold_app.
  cbn [out_fold]. match goal with |- context [fg_member ?s ("big-switch", JObj ?o)] =>
    change (fg_member s ("big-switch", JObj o))
      with (Ret {| fg_graph := fg_graph s; fg_eps := fg_eps s; fg_big_switch := Some o |} : out fg_state) end.
  cbn [mbind out_bind fg_graph fg_eps]. rewrite out_fold_app, parse_endpoints_member by done. cbn [mbind out_bind].
  match goal with |- context [out_fold fg_member ?s [("id", JStr ?i); ("name", JStr ?n)]] =>
    change (out_fold fg_member s [("id", JStr i); ("name", JStr n)])
      with (Ret {| fg_graph := setName n (fg_graph s); fg_eps := fg_eps s; fg_big_switch := fg_big_switch s |} : out fg_state) end.
  cbn [mbind out_bind fg_graph fg_eps fg_big_switch from_option]. unfold Datatypes.id, parse_big_switch. cbn [out_fold].
  rewrite bool_decide_true by done. cbn [getArray mbind out_bind]. fold (skeleton g).
  destruct (out_fold (parse_rule (tables g)) (skeleton g) rules) as [g'|x|x]; cbn [mbind out_bind]; [|done|done].
  rewrite bool_decide_true by (by eexists). done.
Qed.

Definition reread (g : Graph) : Graph := with_gre g (gre_reread g).
Lemma graph_document_ok g : graph_ok g ->
  exists v, graph_document g = Ret v /\ parseGraph v (Graph_new (g_id g)) = Ret (reread g).
Proof.
  intros [Hp H2 H5 H6]. destruct (parse_rules_shown (tables g) (g_rules g) (skeleton g) H6 H5) as (rules & Hr & Hf).
  destruct (document_parsed g rules Hp Hr) as (v & Hv & E). exists v. split; [done|]. rewrite E, Hf.
  f_equal. unfold reread, skeleton. destruct g. cbn in *. by rewrite H2.
Qed.

(** C37: a graph read from the orchestrator and sent back is the same graph:
    when the identifiers of its endpoints, functions and rules are distinct,
    its rules refer to its endpoints, have a priority below 2^31, match on the
    fields that survive ([clean]; behind a VLAN endpoint on no VLAN) and have
    no VLAN push or pop ([graph_ok]; with one, what is shown aborts the
    orchestrator when it comes back, see [vlan_actions_abort]), the document
    is accepted and gives the graph with all its endpoints, network functions
    and rules in order. Only a GRE endpoint loses its name: it gets that of
    the endpoint before it. *)
Theorem graph_roundtrip g : graph_ok g ->
  exists v, graph_document g = Ret v
    /\ parseGraph v (Graph_new (g_id g)) = Ret (reread g)
    /\ (g_gre g = [] -> parseGraph v (Graph_new (g_id g)) = Ret g).
Proof.
  intros Hg. destruct (graph_document_ok g Hg) as (v & Hv & Hp). exists v. split_and!; [done|done|].
  intros Hgre. rewrite Hp. f_equal. unfold reread, gre_reread. rewrite Hgre. destruct g. cbn in *. by rewrite Hgre.
Qed.

(** *** VLAN actions *)

Lemma obj_set_keys k v o k' : k' ∈ fst <$> o \/ k' = k -> k' ∈ fst <$> obj_set k v o.
Proof.
  induction o as [|[k0 v0] o IH]; cbn [obj_set]; intros H.
  { destruct H as [[]%elem_of_nil| ->]. apply list_elem_of_here. }
  rewrite fmap_cons, elem_of_cons in H. cbn [fst] in H. destruct (String.compare k k0) eqn:E; rewrite !fmap_cons, !elem_of_cons; cbn [fst].
  - apply String.compare_eq_iff in E. subst k0. tauto.
  - tauto.
  - destruct H as [[->|H]|H]; auto.
Qed.
Lemma vlan_action_keys gas o k : k ∈ fst <$> o -> k ∈ fst <$> foldl (fun o ga => vlan_action_toJSON ga o) o gas.
Proof.
  revert o. induction gas as [|ga gas IH]; intros o Hk; [done|]. cbn [foldl]. apply IH. unfold vlan_action_toJSON.
  destruct (va_type ga); try done; apply obj_set_keys; by left.
Qed.
Definition own_vlan (ga : VlanAction) : Prop := va_type ga = ACTION_VLAN_PUSH \/ va_type ga = ACTION_VLAN_POP.
Lemma vlan_action_shown gas o : Exists own_vlan gas ->
  exists k, (k = "push_vlan" \/ k = "pop_vlan") /\ k ∈ fst <$> foldl (fun o ga => vlan_action_toJSON ga o) o gas.
Proof.
  intros H. revert o. induction H as [ga gas Hga|ga gas H IH]; intros o; cbn [foldl]; [|apply IH].
  destruct Hga as [E|E]; [exists "push_vlan"|exists "pop_vlan"]; (split; [tauto|]); apply vlan_action_keys;
    unfold vlan_action_toJSON; rewrite E; apply obj_set_keys; by right.
Qed.
Lemma parse_action_many e s o : (length o <> 1)%nat -> parse_action e s (JObj o) = Halt Assert.
Proof. destruct o as [ |[k v] [ |kv o]]; done. Qed.
Lemma parse_vlan_rule e g r v : Exists own_vlan (a_generic (r_action r)) -> rule_toJSON r = Ret v ->
  parse_rule e g v = Halt Assert.
Proof.
  intros Hg Hv. unfold rule_toJSON in Hv. destruct (hmatch_toJSON (r_match r)) as [o| |]; cbn [mbind out_bind] in Hv; try done.
  injection Hv as <-. unfold parse_rule. cbn [getObject mbind out_bind].
  match goal with |- context [obj [("id", ?x); ("priority", ?y); ("match", ?z); ("actions", ?w)]] =>
    change (obj [("id", x); ("priority", y); ("match", z); ("actions", w)])
      with [("actions", w); ("id", x); ("match", z); ("priority", y)] end.
  cbn [out_fold]. rewrite rule_member_actions. unfold parse_actions. cbn [getArray mbind out_bind out_fold].
  unfold action_toJSON. rewrite parse_action_many; [done|]. set (o0 := obj _).
  destruct (vlan_action_shown (a_generic (r_action r)) o0 Hg) as (k & Hk & Hin).
  assert (Hout : "output_to_port" ∈ fst <$> foldl (fun o ga => vlan_action_toJSON ga o) o0 (a_generic (r_action r)))
    by (apply vlan_action_keys, list_elem_of_here).
  destruct (foldl _ o0 _) as [ |[k1 v1] [ |kv o1]]; [done| |done]. intros _.
  apply list_elem_of_singleton in Hin, Hout. cbn in *. subst k1. destruct Hk; congruence.
Qed.

Lemma mapM_split {A B} (f : A -> out B) l1 x l2 q1 q : mapM (M := out) f l1 = Ret q1 -> mapM (M := out) f (l1 ++ x :: l2) = Ret q ->
  exists w q2, f x = Ret w /\ q = q1 ++ w :: q2.
Proof.
  revert q1 q. induction l1 as [|y l1 IH]; intros q1 q H1 H; cbn [app mapM] in *.
  - injection H1 as <-. destruct (f x) as [w| |]; cbn [mbind out_bind] in H; try done.
    destruct (mapM f l2) as [q2| |]; cbn [mbind out_bind] in H; try done. injection H as <-. by eexists _, _.
  - destruct (f y) as [w| |]; cbn [mbind out_bind] in H, H1; try done.
    destruct (mapM f l1) as [r1| |]; cbn [mbind out_bind] in H1; try done. injection H1 as <-.
    destruct (mapM f (l1 ++ x :: l2)) as [r| |]; cbn [mbind out_bind] in H; try done. injection H as <-.
    destruct (IH r1 r eq_refl eq_refl) as (w' & q2 & Hw & ->). by eexists _, _.
Qed.

(** a graph that pushes or pops VLAN tags cannot be sent back.  The document
    shows the output and the VLAN actions of a rule in one object, and the
    parser asserts that an object holds a single action: the orchestrator stops
    on its own document. *)
Theorem vlan_actions_abort g l1 r l2 v :
  parts_ok g -> g_rules g = l1 ++ r :: l2 -> Forall (rule_ok (tables g)) l1 -> NoDup (r_id <$> l1) ->
  Exists own_vlan (a_generic (r_action r)) -> graph_document g = Ret v ->
  parseGraph v (Graph_new (g_id g)) = Halt Assert.
Proof.
  intros Hp Hl H1 Hnd Hr Hv.
  assert (Hm : exists rules, mapM (M := out) rule_toJSON (g_rules g) = Ret rules).
  { unfold graph_document, graph_toJSON in Hv. destruct (mapM rule_toJSON (g_rules g)) as [rules| |]; [by eexists|done|done]. }
  destruct Hm as [rules Hm]. destruct (document_parsed g rules Hp Hm) as (v' & Hv' & E').
  assert (v' = v) as -> by congruence. rewrite E'. clear E'. rewrite Hl in Hm. destruct (parse_rules_shown (tables g) l1 (skeleton g) H1 Hnd) as (rules1 & Hm1 & Hf).
  destruct (mapM_split rule_toJSON l1 r l2 rules1 rules Hm1 Hm) as (w & rules2 & Hw & ->).
  rewrite out_fold_app, Hf. cbn [mbind out_bind out_fold].
  by rewrite (parse_vlan_rule _ _ r w).
Qed.

(** *** Examples *)

Definition mac_match : Match := str_set eth_src "02:00:00:00:00:01" (str_set ipv4_dst "10.0.0.1" (setVlanID 25 Match_new)).
Definition sample_endpoints : endpoints :=
  {| iface_id := <["1" := "eth0"]> ∅; internal_id := ∅; vlan_id := <["3" := ("40", "eth1")]> ∅; gre_id := <["2" := "10.0.0.9"]> ∅ |}.
Definition doc_rule (id : string) (ri ro : portref) (b : Match) : Rule :=
  let kind r := match r with RVnf _ _ => EpUnknown | REp i => ep_lookup sample_endpoints i end in
  {| r_match := match_of (kind ri) ri b;
     r_action := {| a_output := fst (output_of (kind ro) ro); a_generic := snd (output_of (kind ro) ro) ++ pops_of (kind ri) ri |};
     r_id := id; r_priority := 10 |}.
Definition doc_graph : Graph :=
  {| g_id := "g"; g_name := "a graph"; g_endpoints := ∅;
     g_rules := [doc_rule "r1" (REp "1") (RVnf "7" 0) mac_match; doc_rule "r2" (RVnf "7" 1) (REp "2") Match_new;
                 doc_rule "r3" (REp "3") (REp "3") Match_new];
     g_interface := [{| ei_id := "1"; ei_name := "port"; ei_interface := "eth0" |}]; g_internal := [];
     g_gre := [{| eg_id := "2"; eg_name := "tunnel"; eg_local_ip := "10.0.0.9"; eg_remote_ip := "10.0.0.8"; eg_gre_key := "0xff";
                  eg_ttl := ""; eg_is_safe := false |}];
     g_vlan := [{| ev_id := "3"; ev_name := "vlan"; ev_vlan_id := "40"; ev_interface := "eth1" |}];
     g_vnfs := [{| v_id := "7"; v_name := "nat"; v_groups := []; v_template := ""; v_ports :=
       [{| vp_id := "port:0"; vp_name := "in"; vp_mac := "02:00:00:00:00:07" |}; {| vp_id := "port:1"; vp_name := "out"; vp_mac := "" |}] |}] |}.

Lemma clean_new : clean Match_new.
Proof. split; try done. by left. Qed.
Lemma clean_mac : clean mac_match.
Proof.
  split; try done.
  - intros f s. unfold mac_match. rewrite !str_of_set. destruct (decide (f = eth_src)) as [->|]; [by intros [= <-]; vm_compute|].
    destruct (decide (f = ipv4_dst)) as [->|]; [|done]. intros [= <-]. by vm_compute.
  - right. left. by exists 25.
Qed.
Lemma sample_name s : s ∈ ["1"; "2"; "3"; "7"] -> name_ok s.
Proof.
  rewrite !elem_of_cons. intros [->|[->|[->|[->|[]%elem_of_nil]]]]; (split; [by split|by vm_compute]).
Qed.
Lemma doc_rule_ok id ri ro b : clean b ->
  (ri = REp "1" \/ ri = RVnf "7" 1 \/ ri = REp "3" /\ vlan_part b = (false, 0, false, false)) ->
  (ro = RVnf "7" 0 \/ ro = REp "2" \/ ro = REp "3") -> rule_ok sample_endpoints (doc_rule id ri ro b).
Proof.
  intros Hb Hi Ho. split; [|by vm_compute].
  set (kind := fun r => match r with RVnf _ _ => EpUnknown | REp i => ep_lookup sample_endpoints i end).
  exists ri, (kind ri), ro, (kind ro), b. split_and!; [done| | | |done|done].
  - destruct Hi as [->|[->|[-> _]]]; (split; [|done || by vm_compute]).
    + apply sample_name; set_solver. + split; [apply sample_name; set_solver|lia]. + apply sample_name; set_solver.
  - destruct Ho as [->|[->| ->]]; (split; [|done || by vm_compute]).
    + split; [apply sample_name; set_solver|lia]. + apply sample_name; set_solver. + apply sample_name; set_solver.
  - intros v i Hk. destruct Hi as [->|[->|[-> Hv]]]; [by vm_compute in Hk|done|done].
Qed.
Lemma doc_parts rules : parts_ok (with_rules doc_graph rules).
Proof.
  split.
  - change (ep_ids (with_rules doc_graph rules)) with (ep_ids doc_graph). apply (bool_decide_unpack (NoDup _)). by vm_compute.
  - apply NoDup_singleton.
  - apply Forall_singleton. apply Forall_cons. split; [right; by vm_compute|]. apply Forall_singleton. by left.
Qed.
Lemma doc_rules : Forall (rule_ok (tables doc_graph)) (g_rules doc_graph).
Proof.
  change (tables doc_graph) with sample_endpoints. cbn [g_rules doc_graph].
  repeat (apply Forall_cons; split); [..|by apply Forall_nil]; apply doc_rule_ok; auto using clean_new, clean_mac.
Qed.
Lemma graph_roundtrip_witness :
  graph_ok doc_graph
  /\ exists v, graph_document doc_graph = Ret v /\ parseGraph v (Graph_new "g") = Ret (reread doc_graph)
     /\ eg_name <$> g_gre (reread doc_graph) = ["port"].
Proof.
  assert (Hg : graph_ok doc_graph).
  { split; [exact (doc_parts (g_rules doc_graph))|done| |exact doc_rules]. apply (bool_decide_unpack (NoDup _)). by vm_compute. }
  split; [exact Hg|]. destruct (graph_roundtrip doc_graph Hg) as (v & Hv & Hp & _). by exists v.
Defined.

Definition vlan_rule : Rule :=
  {| r_match := match_of (EpInterface "eth0") (REp "1") (setVlanID 25 Match_new);
     r_action := {| a_output := fst (output_of EpGre (REp "2"));
                    a_generic := [{| va_type := ACTION_VLAN_POP; va_endpoint := ""; va_label := 0 |}] |};
     r_id := "r4"; r_priority := 1 |}.
Definition vlan_graph : Graph := with_rules doc_graph (g_rules doc_graph ++ [vlan_rule]).
Definition vlan_document : json := Eval vm_compute in
  match graph_document vlan_graph with Ret v => v | _ => JNull end.
Lemma vlan_actions_abort_witness :
  graph_document vlan_graph = Ret vlan_document /\ parseGraph vlan_document (Graph_new "g") = Halt Assert.
Proof.
  assert (Hv : graph_document vlan_graph = Ret vlan_document) by (vm_compute; reflexivity).
  split; [exact Hv|].
  apply (vlan_actions_abort vlan_graph (g_rules doc_graph) vlan_rule [] vlan_document);
    [exact (doc_parts _)|done|exact doc_rules| | |exact Hv].
  - apply (bool_decide_unpack (NoDup _)). by vm_compute.
  - apply Exists_cons_hd. by right.
Defined.

(** Other matches that do not come back: what is shown of an Ethernet type is read
    as another, an IP protocol is refused, and of two ports only one is shown. *)
Definition reparsed (b : Match) : out Match :=
  '(m, _) ← parseMatch sample_endpoints (match_toJSON b [("port_in", JStr (ref_text (REp "1")))]) HMatch_new
              (Some (r_action vlan_rule));
  Ret (hm_base m).
Example ethertype_misread :
  (b ← reparsed (set_num ethType 2048 Match_new); Ret (num_of b ethType)) = Ret (Some 800).
Proof. by vm_compute. Qed.
Example protocol_refused : (b ← reparsed (setIpProto 6 Match_new); Ret (num_of b ipProto)) = Throw ParseError.
Proof. by vm_compute. Qed.
Example second_port_lost :
  match_toJSON (setTransportDstPort 80 (setTransportSrcPort 1024 (setIpProto 6 Match_new))) []
  = [("ip_proto", JStr "6"); ("source_port", JStr "1024")].
Proof. by vm_compute. Qed.
(** A VLAN identifier beyond 4094 is accepted; without a number it is not initialised. *)
Example vlan_out_of_range :
  (b ← parse_vlan_id "5000" Match_new; Ret (vlanID b)) = Ret 5000 /\ parse_vlan_id "none" Match_new = Halt Undef.
Proof. by vm_compute. Qed.
(** An endpoint that is not declared stops the orchestrator when it is an output. *)
Example undeclared_output :
  parse_actions no_endpoints (JArr [JObj [("output_to_port", JStr "endpoint:5")]]) None = Halt Assert.
Proof. by vm_compute. Qed.
