(* ===== verification/UserDb.v ===== *)
(** * The database of users (database_manager/SQLite/, db_initializer/)

    The users, the logins and the permissions of the REST server are kept in six
    tables of text.  The statements are read as SQL defines them on tables whose
    rows satisfy the declared keys; the order in which a [select] delivers its
    rows is not defined by SQL and is a parameter, [scan].  A statement on a
    table that does not exist is not compiled ([sqlite3_prepare_v2] fails), and
    what guards on [rc == SQLITE_OK] is skipped. *)

From Stdlib Require Import ZArith Lia String Ascii.
From stdpp Require Import gmap strings numbers base list.
From S2P Require Import Prelude Cpp Keyed Lsi.

(** ** Tables *)

Definition row := list string.
(** The columns of each PRIMARY KEY and UNIQUE constraint, and the rows. *)
Record table := { t_keys : list (list nat); t_rows : list row }.
Abbreviation store := (gmap string table).

Definition SQLITE_OK : Z := 0.
Definition SQLITE_CONSTRAINT : Z := 19.
Definition SQLITE_ROW : Z := 100.
Definition SQLITE_DONE : Z := 101.

(** [sqlite3_column_text]. *)
Definition column (r : row) (i : nat) : option string := r !! i.
(** [where c1 = v1 and ...]. *)
Definition where_eq (conds : list (nat * string)) (r : row) : bool :=
  forallb (fun '(i, v) => bool_decide (column r i = Some v)) conds.
Definition rows (t : string) (s : store) : list row := default [] (t_rows <$> s !! t).
Definition prepare (t : string) (s : store) : bool := has_key s t.

Definition same_key (r r' : row) (ks : list nat) : bool := bool_decide (column r <$> ks = column r' <$> ks).
Definition clash (keys : list (list nat)) (r r' : row) : bool := existsb (same_key r r') keys.

(** [insert into t values (r)]. *)
Definition sql_insert (t : string) (r : row) (s : store) : store * Z :=
  match s !! t with
  | None => (s, SQLITE_OK)
  | Some tb =>
      if existsb (clash (t_keys tb) r) (t_rows tb) then (s, SQLITE_CONSTRAINT)
      else (<[t := {| t_keys := t_keys tb; t_rows := t_rows tb ++ [r] |}]> s, SQLITE_DONE)
  end.
(** [delete from t where p]. *)
Definition sql_delete (t : string) (p : row -> bool) (s : store) : store * Z :=
  match s !! t with
  | None => (s, SQLITE_OK)
  | Some tb => (<[t := {| t_keys := t_keys tb; t_rows := filter (fun r => p r = false) (t_rows tb) |}]> s, SQLITE_DONE)
  end.
(** [CREATE TABLE t]; [sqlite3_exec] stops at the first statement that fails. *)
Fixpoint sql_create (ts : list (string * list (list nat))) (s : store) : store * bool :=
  match ts with
  | [] => (s, true)
  | (t, keys) :: ts =>
      if has_key s t then (s, false) else sql_create ts (<[t := {| t_keys := keys; t_rows := [] |}]> s)
  end.

Definition matching (t : string) (p : row -> bool) (s : store) : list row := filter (fun r => p r = true) (rows t s).
(** [select count( * )], zero when the statement is not compiled. *)
Definition count (t : string) (p : row -> bool) (s : store) : Z :=
  if prepare t s then Z.of_nat (length (matching t p s)) else 0.

(** ** Constants (utils/constants.h) *)
Definition BASE_URL_GRAPH : string := "NF-FG".
Definition BASE_URL_LOGIN : string := "login".
Definition BASE_URL_USER : string := "users".
Definition BASE_URL_GROUP : string := "groups".
Definition URL_STATUS : string := "status".
Definition ADMIN : string := "admin".
Definition ALLOW : ascii := "A".
Definition DENY : ascii := "D".
Definition HASH_SIZE : nat := 20.

Inductive opcode_t := op_READ | op_UPDATE | op_DELETE | op_CREATE.
Definition opcode (o : opcode_t) : nat :=
  match o with op_READ => 0 | op_UPDATE => 1 | op_DELETE => 2 | op_CREATE => 3 end.
#[export] Instance opcode_eq_dec : EqDecision opcode_t.
Proof. solve_decision. Defined.

(** The members are pointers. *)
Record user_info := {
  ui_user : option string; ui_pwd : option string; ui_group : option string; ui_token : option string
}.

(** ** The schema *)
Definition USERS : string := "USERS".
Definition LOGIN : string := "LOGIN".
Definition GENERIC_RESOURCES : string := "GENERIC_RESOURCES".
Definition USER_CREATION_PERMISSIONS : string := "USER_CREATION_PERMISSIONS".
Definition DEFAULT_USAGE_PERMISSIONS : string := "DEFAULT_USAGE_PERMISSIONS".
Definition CURRENT_RESOURCES_PERMISSIONS : string := "CURRENT_RESOURCES_PERMISSIONS".

Definition schema : list (string * list (list nat)) :=
  [ (USERS, [[0]]);
    (LOGIN, [[0]; [1]]);
    (GENERIC_RESOURCES, [[0]]);
    (USER_CREATION_PERMISSIONS, [[0; 1]]);
    (DEFAULT_USAGE_PERMISSIONS, [[0]]);
    (CURRENT_RESOURCES_PERMISSIONS, [[0; 1]]) ]%nat.
Definition createTables : store -> store * bool := sql_create schema.

(** [sqlite3_exec] of two deletions. *)
Definition cleanTables (s : store) : store * bool :=
  if prepare LOGIN s then
    let '(s, _) := sql_delete LOGIN (fun _ => true) s in
    if prepare CURRENT_RESOURCES_PERMISSIONS s then
      (fst (sql_delete CURRENT_RESOURCES_PERMISSIONS
              (fun r => negb (where_eq [(0%nat, "groups")] r) && negb (where_eq [(0%nat, "users")] r)) s), true)
    else (s, false)
  else (s, false).

(** ** Permissions

    The flag of an operation is a character of the string of permissions; a
    read past its terminator is undefined. *)
Definition flag (permissions : string) (op : opcode_t) : out (option ascii) :=
  if (opcode op <=? String.length permissions)%nat then Ret (String.get (opcode op) permissions) else Halt Undef.
Definition is_flag (c : ascii) (f : option ascii) : bool := bool_decide (f = Some c).

(** ** Queries *)
Definition resourceExists_generic (generic_resource : string) (s : store) : bool :=
  0 <? count GENERIC_RESOURCES (where_eq [(0%nat, generic_resource)]) s.
Definition resourceExists (generic_resource resource : string) (s : store) : bool :=
  0 <? count CURRENT_RESOURCES_PERMISSIONS (where_eq [(0%nat, generic_resource); (1%nat, resource)]) s.
Definition usersExistForGroup (group : string) (s : store) : bool :=
  0 <? count USERS (where_eq [(2%nat, group)]) s.
Definition isLogged (user : string) (s : store) : bool :=
  0 <? count LOGIN (where_eq [(1%nat, user)]) s.
Definition userExists (user hash_pwd : string) (s : store) : bool :=
  0 <? count USERS (where_eq [(0%nat, user); (1%nat, hash_pwd)]) s.

Section manager.
Context (scan : list row -> list row).

Definition select (t : string) (p : row -> bool) (s : store) : list row :=
  scan (matching t p s).
(** The first row of a [select]. *)
Definition first_row (t : string) (p : row -> bool) (s : store) : option row :=
  if prepare t s then head (select t p s) else None.

(** Counts the columns of the row it finds; the table has one. *)
Definition isGenericResource (generic_resource : string) (s : store) : bool :=
  match first_row GENERIC_RESOURCES (where_eq [(0%nat, generic_resource)]) s with
  | Some r => 0 <? Z.of_nat (length r)
  | None => false
  end.

(** The join of [USERS] and [LOGIN] on the name of the user. *)
Definition getLoggedUserByName (username : string) (s : store) : option user_info :=
  if prepare USERS s && prepare LOGIN s then
    let joined := u ← matching USERS (where_eq [(0%nat, username)]) s;
                  l ← matching LOGIN (fun l => bool_decide (column l 1 = column u 0)) s;
                  [u ++ l] in
    r ← head (scan joined);
    Some {| ui_user := column r 0; ui_group := column r 2; ui_pwd := column r 1; ui_token := column r 3 |}
  else None.
(** The token is read from a column the query does not have. *)
Definition getUserByName (username : string) (s : store) : option user_info :=
  r ← first_row USERS (where_eq [(0%nat, username)]) s;
  Some {| ui_user := column r 0; ui_group := column r 2; ui_pwd := column r 1; ui_token := None |}.
Definition getUserByToken (token : string) (s : store) : option user_info :=
  if prepare USERS s && prepare LOGIN s then
    let logged := (fun l => column l 1) <$> matching LOGIN (where_eq [(0%nat, token)]) s in
    r ← head (select USERS (fun u => bool_decide (column u 0 ∈ logged)) s);
    Some {| ui_user := column r 0; ui_group := column r 2; ui_pwd := column r 1; ui_token := Some token |}
  else None.
Definition getGroup (user : string) (s : store) : option string :=
  r ← first_row USERS (where_eq [(0%nat, user)]) s; column r 2.

(** The string of permissions that applies to a user on a row of
    [CURRENT_RESOURCES_PERMISSIONS]; [strcmp] of a null pointer is undefined. *)
Definition permissions_of (usr : option user_info) (r : row) (s : store) : out string :=
  usr ← deref usr;
  user ← deref (ui_user usr);
  if bool_decide (user = ADMIN) then deref (column r 6)
  else
    owner ← deref (column r 2);
    if bool_decide (user = owner) then deref (column r 3)
    else
      owner_group ← deref (getGroup owner s);
      group ← deref (ui_group usr);
      if bool_decide (group = owner_group) then deref (column r 4) else deref (column r 5).

(** The loop of [getAllowedResourcesNames] on the rows of the query. *)
Definition allowed_name (usr : option user_info) (op : opcode_t) (s : store) (names : list string) (r : row) : out (list string) :=
  p ← permissions_of usr r s;
  f ← flag p op;
  if is_flag ALLOW f then resource ← deref (column r 1); Ret (names ++ [resource]) else Ret names.
Definition getAllowedResourcesNames (usr : option user_info) (op : opcode_t) (generic_resource : string) (s : store) : out (list string) :=
  if decide (op = op_CREATE) then Ret []
  else if prepare CURRENT_RESOURCES_PERMISSIONS s then
    out_fold (allowed_name usr op s) [] (select CURRENT_RESOURCES_PERMISSIONS (where_eq [(0%nat, generic_resource)]) s)
  else Ret [].
Definition getAllResourcesNames (generic_resource : string) (s : store) : out (list string) :=
  if prepare CURRENT_RESOURCES_PERMISSIONS s then
    mapM (M := out) (fun r => deref (column r 1)) (select CURRENT_RESOURCES_PERMISSIONS (where_eq [(0%nat, generic_resource)]) s)
  else Ret [].

(** ** Updates *)

(** [sqlite3_bind_text(p, n)]: the first [n] bytes. *)
Definition bind_text (p : string) (n : nat) : out string :=
  if (n <=? String.length p)%nat then Ret (String.substring 0 n p) else Halt Undef.

(** The permissions of the group are bound to the text of those of the owner. *)
Definition insertResource (generic_resource resource owner : string) : prog store Z := fun s =>
  if prepare DEFAULT_USAGE_PERMISSIONS s then
    match first_row DEFAULT_USAGE_PERMISSIONS (where_eq [(0%nat, generic_resource)]) s with
    | None => (s, Halt Assert)
    | Some r =>
        match column r 1, column r 2, column r 3, column r 4 with
        | Some owner_p, Some group_p, Some all_p, Some admin_p =>
            if prepare CURRENT_RESOURCES_PERMISSIONS s then
              match bind_text owner_p (String.length group_p) with
              | Ret group_p =>
                  let '(s, res) := sql_insert CURRENT_RESOURCES_PERMISSIONS
                                     [generic_resource; resource; owner; owner_p; group_p; all_p; admin_p] s in
                  (s, Ret res)
              | Throw e => (s, Throw e)
              | Halt f => (s, Halt f)
              end
            else (s, Ret SQLITE_ROW)
        | _, _, _, _ => (s, Halt Assert)
        end
    end
  else (s, Ret SQLITE_OK).
Definition insertResource_generic (generic_resource : string) : store -> store * Z :=
  sql_insert GENERIC_RESOURCES [generic_resource].
Definition insertLogin (user token timestamp : string) : store -> store * Z :=
  sql_insert LOGIN [token; user; timestamp].
Definition insertUser (user pwd group : string) : store -> store * Z :=
  sql_insert USERS [user; pwd; group].
(** Two statements are given, and only the first is compiled. *)
Definition deleteUser (user : string) : store -> store * Z :=
  sql_delete USERS (where_eq [(0%nat, user)]).
Definition deleteGroup (group : string) : store -> store * Z :=
  sql_delete CURRENT_RESOURCES_PERMISSIONS (where_eq [(0%nat, BASE_URL_GROUP); (1%nat, group)]).
Definition deleteResource (generic_resource resource : string) : store -> store * Z :=
  sql_delete CURRENT_RESOURCES_PERMISSIONS (where_eq [(0%nat, generic_resource); (1%nat, resource)]).
(** Only the first byte of the permission is bound. *)
Definition insertUserCreationPermission (user generic_resource permission : string) (s : store) : store * Z :=
  sql_insert USER_CREATION_PERMISSIONS [user; generic_resource; String.substring 0 1 permission] s.
Definition insertDefaultUsagePermissions (generic_resource owner_p group_p all_p admin_p : string) : store -> store * Z :=
  sql_insert DEFAULT_USAGE_PERMISSIONS [generic_resource; owner_p; group_p; all_p; admin_p].

(** ** The security manager (security_manager/security_manager.cc) *)

Definition isAuthenticated (token : string) (s : store) : bool :=
  0 <? count LOGIN (where_eq [(0%nat, token)]) s.

(** On a generic resource: every resource of the kind is asked. *)
Fixpoint none_denied (usr : option user_info) (op : opcode_t) (rs : list row) (s : store) : out bool :=
  match rs with
  | [] => Ret true
  | r :: rs =>
      p ← permissions_of usr r s;
      f ← flag p op;
      if is_flag DENY f then Ret false else none_denied usr op rs s
  end.
Definition isAuthorized_generic (usr : option user_info) (op : opcode_t) (generic_resource : string) (s : store) : out bool :=
  if prepare CURRENT_RESOURCES_PERMISSIONS s then
    none_denied usr op (select CURRENT_RESOURCES_PERMISSIONS (where_eq [(0%nat, generic_resource)]) s) s
  else Ret true.

Definition isAuthorizedForCreation (user generic_resource : string) (s : store) : bool :=
  match first_row USER_CREATION_PERMISSIONS (where_eq [(0%nat, user); (1%nat, generic_resource)]) s with
  | Some r => match column r 2 with Some p => is_flag ALLOW (String.get 0 p) | None => false end
  | None => false
  end.

(** The table this query names is not one of the schema. *)
Definition CURRENT_RESOURCE_PERMISSIONS : string := "CURRENT_RESOURCE_PERMISSIONS".
Definition isAuthorized (usr : option user_info) (op : opcode_t) (generic_resource resource : string) (s : store) : out bool :=
  match usr with
  | None => Halt Assert
  | Some usr =>
      match ui_user usr, ui_pwd usr, ui_group usr, ui_token usr with
      | Some user, Some _, Some _, Some _ =>
          if decide (op = op_CREATE) then Ret (isAuthorizedForCreation user generic_resource s)
          else
            match first_row CURRENT_RESOURCE_PERMISSIONS (where_eq [(0%nat, generic_resource); (1%nat, resource)]) s with
            | Some r =>
                p ← permissions_of (Some usr) r s;
                f ← flag p op;
                Ret (is_flag ALLOW f)
            | None => Ret true
            end
      | _, _, _, _ => Halt Assert
      end
  end.
End manager.

(** ** The text of a hash *)

(** ["%.2x"] of a byte. *)
Definition hex_digit (d : Z) : ascii :=
  Ascii.ascii_of_nat (Z.to_nat (if d <? 10 then 48 + d else 87 + d)).
Definition hex_byte (b : Z) : string :=
  String (hex_digit (b / 16 mod 16)) (String (hex_digit (b mod 16)) "").
(** [SHA256(d, n, hash_token)] writes the 32 bytes of the digest to an array of
    [HASH_SIZE]; [spill] tells whether those that go to the memory behind it
    overwrite something that is in use. *)
Definition hash_token (spill : list Z -> bool) (digest : list Z) : out (list Z) :=
  if spill (drop HASH_SIZE digest) then Halt Undef else Ret (take HASH_SIZE digest).
Definition hex_text (bytes : list Z) : string := String.concat "" (hex_byte <$> take HASH_SIZE bytes).

(** ** The initial database (db_initializer/db_initializer.cc)

    The password of the administrator is copied into [HASH_SIZE] bytes, and the
    text of its hash is appended to [junk], what the memory of [hash_pwd] held. *)
Definition DEFAULT_OWNER : string := "AAA".
Definition DEFAULT_GROUP : string := "ADD".
Definition DEFAULT_ALL : string := "DDD".
Definition DEFAULT_ADMIN : string := "AAA".
Definition do_ (f : store -> store * Z) : prog store Z := fun s => let '(s, r) := f s in (s, Ret r).
Definition initDB (scan : list row -> list row) (SHA256 : string -> list Z) (spill : list Z -> bool) (junk pass : string) : prog store bool :=
  created ← (fun s => let '(s, b) := createTables s in (s, Ret b));
  if negb created then mret false
  else
    _ ← of_out (if (String.length pass <? HASH_SIZE)%nat then Ret tt else Halt Undef);
    token ← of_out (hash_token spill (SHA256 pass));
    let hash_pwd := junk +:+ hex_text token in
    _ ← do_ (insertResource_generic BASE_URL_GRAPH);
    _ ← do_ (insertResource_generic BASE_URL_USER);
    _ ← do_ (insertResource_generic BASE_URL_GROUP);
    _ ← do_ (insertDefaultUsagePermissions BASE_URL_GRAPH DEFAULT_OWNER DEFAULT_GROUP DEFAULT_ALL DEFAULT_ADMIN);
    _ ← do_ (insertDefaultUsagePermissions BASE_URL_USER DEFAULT_OWNER DEFAULT_GROUP DEFAULT_ALL DEFAULT_ADMIN);
    _ ← do_ (insertDefaultUsagePermissions BASE_URL_GROUP DEFAULT_OWNER DEFAULT_GROUP DEFAULT_ALL DEFAULT_ADMIN);
    _ ← do_ (insertUserCreationPermission ADMIN BASE_URL_GRAPH (String ALLOW ""));
    _ ← do_ (insertUserCreationPermission ADMIN BASE_URL_USER (String ALLOW ""));
    _ ← do_ (insertUserCreationPermission ADMIN BASE_URL_GROUP (String ALLOW ""));
    _ ← insertResource scan BASE_URL_GROUP ADMIN ADMIN;
    _ ← insertResource scan BASE_URL_USER ADMIN ADMIN;
    _ ← do_ (insertUser ADMIN hash_pwd ADMIN);
    mret true.

Definition admin_db (SHA256 : string -> list Z) (pass : string) : store := fst (initDB id SHA256 (fun _ => false) "" pass ∅).
Example admin_logs_in : userExists ADMIN "7061" (admin_db (fun _ => [112; 97]) "secret") = true.
Proof. vm_compute. reflexivity. Qed.
