(* ===== verification/UserDbOk.v ===== *)
(** * The database of users: its invariant and its queries

    The tables of the schema, each with unique keys and complete rows, stay so
    whatever is inserted or deleted; queries by a key are then deterministic, and
    the answers of the others do not depend on the order of the rows.  What the
    server needs of the permissions is stated on such a database. *)

From Stdlib Require Import ZArith Lia String Ascii.
From stdpp Require Import gmap strings numbers base list.
From S2P Require Import Prelude Cpp Keyed Lsi UserDb.

(** ** The invariant *)

Definition arities : list (string * nat) :=
  [ (USERS, 3); (LOGIN, 3); (GENERIC_RESOURCES, 1); (USER_CREATION_PERMISSIONS, 3); (DEFAULT_USAGE_PERMISSIONS, 5);
    (CURRENT_RESOURCES_PERMISSIONS, 7) ]%nat.
Definition keys_of (t : string) : list (list nat) := default [] ((list_to_map schema : gmap string (list (list nat))) !! t).
Definition arity_of (t : string) : nat := default 0%nat ((list_to_map arities : gmap string nat) !! t).
Definition table_names : gset string := list_to_set (fst <$> schema).

(** The values of the columns of a key. *)
Definition key_values (ks : list nat) (r : row) : list (option string) := column r <$> ks.
Record table_ok (t : string) (tb : table) : Prop := {
  tok_keys : t_keys tb = keys_of t;
  tok_arity : Forall (fun r => length r = arity_of t) (t_rows tb);
  tok_unique : Forall (fun ks => NoDup (key_values ks <$> t_rows tb)) (keys_of t)
}.
Record db_ok (d : store) : Prop := {
  dok_tables : dom d = table_names;
  dok_rows : map_Forall table_ok d
}.

Lemma prepare_names t d : db_ok d -> prepare t d = bool_decide (t ∈ table_names).
Proof.
  intros [Hd _]. unfold prepare, has_key. apply bool_decide_ext. rewrite <- Hd. symmetry. apply elem_of_dom.
Qed.
Lemma table_lookup t d : db_ok d -> t ∈ table_names -> exists tb, d !! t = Some tb /\ table_ok t tb /\ rows t d = t_rows tb.
Proof.
  intros [Hd Hr] Ht. rewrite <- Hd in Ht. apply elem_of_dom in Ht as [tb E]. exists tb. split_and!; [done|by apply Hr|].
  unfold rows. by rewrite E.
Qed.

Lemma same_key_spec r r' ks : same_key r r' ks = true <-> key_values ks r = key_values ks r'.
Proof. unfold same_key. by rewrite bool_decide_eq_true. Qed.
Lemma no_clash_spec keys r rs :
  existsb (clash keys r) rs = false <-> Forall (fun ks => key_values ks r ∉ key_values ks <$> rs) keys.
Proof.
  split.
  - intros H. apply Forall_forall. intros ks Hk Hin. apply list_elem_of_fmap in Hin as (r' & E & Hr').
    assert (existsb (clash keys r) rs = true) as H'; [|congruence]. apply existsb_exists. exists r'.
    split; [by apply list_elem_of_In|]. apply existsb_exists. exists ks. split; [by apply list_elem_of_In|].
    by apply same_key_spec.
  - intros H. apply not_true_is_false. intros (r' & Hr' & (ks & Hk & E)%existsb_exists)%existsb_exists.
    rewrite Forall_forall in H. apply (H ks); [by apply list_elem_of_In|]. apply same_key_spec in E. rewrite E.
    apply list_elem_of_fmap_2. by apply list_elem_of_In.
Qed.

Lemma sql_insert_ok t r d : db_ok d -> (t ∈ table_names -> length r = arity_of t) -> db_ok (fst (sql_insert t r d)).
Proof.
  intros Hok Hl. unfold sql_insert. destruct (d !! t) as [tb|] eqn:E; [|done].
  destruct (existsb _ _) eqn:Ec; [done|]. destruct Hok as [Hd Hr]. assert (Ht := Hr _ _ E). destruct Ht as [Hk Ha Hu].
  assert (Hin : t ∈ table_names) by (rewrite <- Hd; apply elem_of_dom; eauto).
  cbn. split.
  - by rewrite dom_insert_lookup_L.
  - apply map_Forall_insert_2; [|done]. split; cbn; [done| |].
    + apply Forall_app. split; [done|]. rewrite Forall_singleton. auto.
    + rewrite <- Hk in *. apply no_clash_spec in Ec. apply Forall_forall. intros ks Hks. rewrite Forall_forall in Hu, Ec.
      rewrite fmap_app. apply NoDup_app. split_and!; [by apply Hu| |apply NoDup_singleton].
      intros x Hx ->%list_elem_of_singleton. by apply (Ec ks).
Qed.
Lemma sql_delete_ok t p d : db_ok d -> db_ok (fst (sql_delete t p d)).
Proof.
  intros [Hd Hr]. unfold sql_delete. destruct (d !! t) as [tb|] eqn:E; [|done]. destruct (Hr _ _ E) as [Hk Ha Hu].
  cbn. split; [by rewrite dom_insert_lookup_L|]. apply map_Forall_insert_2; [|done]. split; cbn; [done| |].
  - rewrite Forall_forall in *. intros r [_ ?]%list_elem_of_filter. auto.
  - apply (Forall_impl _ _ _ Hu). intros ks Hn. eapply sublist_NoDup; [exact Hn|].
    apply fmap_sublist, sublist_filter.
Qed.

(** What a statement does to the rows of each table. *)
Lemma rows_sql_insert t r d t' :
  db_ok d -> t ∈ table_names ->
  rows t' (fst (sql_insert t r d)) =
    if decide (t' = t) then if existsb (clash (keys_of t) r) (rows t d) then rows t d else rows t d ++ [r] else rows t' d.
Proof.
  intros Hok Ht. destruct (table_lookup _ _ Hok Ht) as (tb & E & Htb & Er). unfold sql_insert. rewrite E.
  rewrite (tok_keys _ _ Htb), Er. destruct (existsb _ _) eqn:Ec; cbn.
  - case_decide; [by subst|done].
  - unfold rows. case_decide; [subst; by rewrite lookup_insert_eq|by rewrite lookup_insert_ne].
Qed.
Lemma rows_sql_delete t p d t' :
  db_ok d -> t ∈ table_names ->
  rows t' (fst (sql_delete t p d)) = if decide (t' = t) then filter (fun r => p r = false) (rows t d) else rows t' d.
Proof.
  intros Hok Ht. destruct (table_lookup _ _ Hok Ht) as (tb & E & Htb & Er). unfold sql_delete. rewrite E, Er. cbn.
  unfold rows. case_decide; [subst; by rewrite lookup_insert_eq|by rewrite lookup_insert_ne].
Qed.

(** ** Queries by a key *)

Lemma count_pos t p d :
  db_ok d -> t ∈ table_names -> (0 <? count t p d) = true <-> exists r, r ∈ rows t d /\ p r = true.
Proof.
  intros Hok Ht. unfold count. rewrite (prepare_names _ _ Hok), bool_decide_true by done. rewrite Z.ltb_lt. unfold matching.
  split.
  - destruct (filter _ _) as [|r l] eqn:E; [cbn; lia|]. intros _. exists r.
    assert (r ∈ filter (fun r => p r = true) (rows t d)) as [? ?]%list_elem_of_filter by (rewrite E; left). done.
  - intros (r & Hr & Hp). destruct (filter _ _) as [|r' l] eqn:E; [|cbn; lia].
    assert (r ∈ filter (fun r => p r = true) (rows t d)) as H by (by apply list_elem_of_filter).
    rewrite E in H. by apply elem_of_nil in H.
Qed.

Lemma where_eq_spec conds r : where_eq conds r = true <-> Forall (fun '(i, v) => column r i = Some v) conds.
Proof.
  unfold where_eq. rewrite forallb_forall, Forall_forall. split; intros H [i v] Hx.
  - apply list_elem_of_In in Hx. specialize (H _ Hx). cbn in H. by apply bool_decide_eq_true in H.
  - apply list_elem_of_In in Hx. specialize (H _ Hx). cbn in H. by apply bool_decide_eq_true.
Qed.
(** Conditions on all the columns of a key. *)
Lemma where_key conds r : where_eq conds r = true -> key_values (fst <$> conds) r = (fun c => Some (snd c)) <$> conds.
Proof.
  rewrite where_eq_spec. unfold key_values. induction 1 as [|[i v] conds E _ IH]; [done|]. rewrite !fmap_cons. f_equal; [exact E|exact IH].
Qed.
Lemma by_key conds t d r r' :
  db_ok d -> t ∈ table_names -> (fst <$> conds) ∈ keys_of t -> r ∈ rows t d -> r' ∈ rows t d ->
  where_eq conds r = true -> where_eq conds r' = true -> r = r'.
Proof.
  intros Hok Ht Hk Hr Hr' E E'. destruct (table_lookup _ _ Hok Ht) as (tb & _ & Htb & Erows). rewrite Erows in *.
  apply where_key in E, E'. pose proof (tok_unique _ _ Htb) as Hu. rewrite Forall_forall in Hu. specialize (Hu _ Hk).
  apply list_elem_of_lookup in Hr as [i Hi], Hr' as [j Hj].
  assert (i = j) as <-; [|congruence].
  eapply NoDup_lookup; [exact Hu|by rewrite list_lookup_fmap, Hi|rewrite list_lookup_fmap, Hj; cbn; congruence].
Qed.

Section ordered.
Context (scan : list row -> list row) (Hscan : forall l, Permutation (scan l) l).

Lemma elem_of_select t p d r : r ∈ select scan t p d <-> r ∈ rows t d /\ p r = true.
Proof. unfold select, matching. rewrite Hscan, list_elem_of_filter. tauto. Qed.
Lemma first_row_Some t p d r : first_row scan t p d = Some r -> r ∈ rows t d /\ p r = true.
Proof.
  unfold first_row. destruct (prepare t d); [|done]. intros H. apply elem_of_select. destruct (select _ _ _ _); simplify_eq/=. left.
Qed.
Lemma first_row_key conds t d r :
  db_ok d -> t ∈ table_names -> (fst <$> conds) ∈ keys_of t ->
  first_row scan t (where_eq conds) d = Some r <-> r ∈ rows t d /\ where_eq conds r = true.
Proof.
  intros Hok Ht Hk. split; [apply first_row_Some|]. intros [Hr E].
  destruct (first_row scan t (where_eq conds) d) as [r'|] eqn:E'.
  - apply first_row_Some in E' as [Hr' ?]. f_equal. by eapply by_key.
  - unfold first_row in E'. rewrite (prepare_names _ _ Hok), bool_decide_true in E' by done.
    assert (r ∈ select scan t (where_eq conds) d) as H by (by apply elem_of_select).
    destruct (select _ _ _ _); [by apply elem_of_nil in H|done].
Qed.
Lemma first_row_none t p d : t ∉ table_names -> db_ok d -> first_row scan t p d = None.
Proof. intros Ht Hok. unfold first_row. by rewrite (prepare_names _ _ Hok), bool_decide_false. Qed.
End ordered.

(** ** Permissions

    The owners of the resources of a kind are users, and their permissions are
    made of allowing and denying flags, one per operation. *)
Definition flags_ok (p : string) : Prop :=
  String.length p = 3%nat /\ forall i, (i < 3)%nat -> String.get i p = Some ALLOW \/ String.get i p = Some DENY.
Record resource_ok (d : store) (r : row) : Prop := {
  rok_owner : exists o u g, column r 2 = Some o /\ u ∈ rows USERS d /\ column u 0 = Some o /\ column u 2 = Some g;
  rok_flags : forall i, (3 <= i <= 6)%nat -> exists p, column r i = Some p /\ flags_ok p
}.
Definition resources_ok (generic_resource : string) (d : store) : Prop :=
  forall r, r ∈ rows CURRENT_RESOURCES_PERMISSIONS d -> where_eq [(0%nat, generic_resource)] r = true -> resource_ok d r.

Lemma flag_ok p op : flags_ok p -> op <> op_CREATE -> flag p op = Ret (Some ALLOW) \/ flag p op = Ret (Some DENY).
Proof.
  intros [Hl Hf] Hop. assert (opcode op < 3)%nat as Hlt by (destruct op; cbn; [lia..|done]).
  unfold flag. rewrite Hl. rewrite (proj2 (Nat.leb_le _ _)) by lia. destruct (Hf _ Hlt) as [->| ->]; auto.
Qed.
Lemma getGroup_user scan d u o g :
  (forall l, Permutation (scan l) l) -> db_ok d -> u ∈ rows USERS d -> column u 0 = Some o -> column u 2 = Some g ->
  getGroup scan o d = Some g.
Proof.
  intros Hs Hok Hu E0 E2. unfold getGroup.
  rewrite (proj2 (first_row_key scan Hs [(0%nat, o)] USERS d u Hok ltac:(done) ltac:(left))); [done|].
  split; [done|]. cbn. by rewrite E0, bool_decide_true.
Qed.

(** What a user may do, read off the tables: a row of
    [CURRENT_RESOURCES_PERMISSIONS] is (kind, name, owner, permissions of the
    owner, of the owner's group, of everybody, of the administrator), one of
    [USERS] is (name, password, group), and permissions are the three characters
    for reading, updating and deleting. *)
Definition grants (op : opcode_t) (permissions : string) : bool :=
  match op, permissions with
  | op_READ, String c _ | op_UPDATE, String _ (String c _) | op_DELETE, String _ (String _ (String c _)) =>
      Ascii.eqb c "A"
  | _, _ => false
  end.
Definition in_group (d : store) (user group : string) : bool :=
  existsb (fun u => match u with [name; _; g] => bool_decide (name = user) && bool_decide (g = group) | _ => false end)
    (rows USERS d).
Definition may_do (d : store) (user group : string) (op : opcode_t) (r : row) : bool :=
  match r with
  | [_; _; owner; owner_perm; group_perm; all_perm; admin_perm] =>
      grants op (if bool_decide (user = "admin") then admin_perm
                 else if bool_decide (user = owner) then owner_perm
                 else if in_group d owner group then group_perm
                 else all_perm)
  | _ => false
  end.
Definition resources_of (kind : string) (d : store) : list row :=
  filter (fun r => head r = Some kind) (rows CURRENT_RESOURCES_PERMISSIONS d).
Definition name_of (r : row) : string := default "" (column r 1).

Lemma resources_matching gr d :
  matching CURRENT_RESOURCES_PERMISSIONS (where_eq [(0%nat, gr)]) d = resources_of gr d.
Proof.
  unfold matching, resources_of. apply list_filter_iff. intros [|k r]; cbn; [done|].
  rewrite andb_true_r, bool_decide_eq_true. done.
Qed.
Lemma row_arity t d r : db_ok d -> t ∈ table_names -> r ∈ rows t d -> length r = arity_of t.
Proof.
  intros Hok Ht Hr. destruct (table_lookup t d Hok Ht) as (tb & _ & Htb & Er). rewrite Er in Hr.
  pose proof (tok_arity _ _ Htb) as Ha. rewrite Forall_forall in Ha. by apply Ha.
Qed.
Lemma in_group_owner d u o g group :
  db_ok d -> u ∈ rows USERS d -> column u 0 = Some o -> column u 2 = Some g ->
  in_group d o group = bool_decide (group = g).
Proof.
  intros Hok Hu E0 E2. apply eq_bool_prop_intro. unfold in_group. rewrite Is_true_true, bool_decide_spec.
  rewrite existsb_exists. split.
  - intros (u' & Hu' & E). rewrite <- list_elem_of_In in Hu'.
    destruct u' as [|n [|w [|g' [|]]]]; try done. apply andb_true_iff in E as [->%bool_decide_eq_true ->%bool_decide_eq_true].
    assert (u = [o; w; group]) as ->; [|cbn in E2; congruence].
    apply (by_key [(0%nat, o)] USERS d); [done|done|left|done|done|..];
      cbn; by rewrite ?E0, bool_decide_true.
  - intros ->. pose proof (row_arity USERS d u Hok ltac:(done) Hu) as Hl.
    destruct u as [|n [|w [|g' [|]]]]; try discriminate Hl. cbn in E0, E2. simplify_eq.
    exists [o; w; g]. rewrite <- list_elem_of_In. split; [done|]. by rewrite !bool_decide_true.
Qed.
Lemma flag_grants p op : flags_ok p -> op <> op_CREATE ->
  exists f, flag p op = Ret f /\ is_flag ALLOW f = grants op p /\ is_flag DENY f = negb (grants op p).
Proof.
  intros [Hl Hf] Hop. pose proof (Hf 0%nat ltac:(lia)) as H0. pose proof (Hf 1%nat ltac:(lia)) as H1.
  pose proof (Hf 2%nat ltac:(lia)) as H2. destruct p as [|a [|b [|c [|]]]]; try discriminate Hl. cbn in H0, H1, H2.
  destruct op; [| | |done]; cbn; eexists; (split; [done|]);
    [destruct H0 as [[= ->]|[= ->]]|destruct H1 as [[= ->]|[= ->]]|destruct H2 as [[= ->]|[= ->]]]; by vm_compute.
Qed.

Section authorization.
Context (scan : list row -> list row) (Hscan : forall l, Permutation (scan l) l).
Context (d : store) (Hok : db_ok d) (usr : user_info) (user group : string).
Context (Huser : ui_user usr = Some user) (Hgroup : ui_group usr = Some group).

Notation allowed := (may_do d user group).

Lemma allowed_flag op r :
  r ∈ rows CURRENT_RESOURCES_PERMISSIONS d -> resource_ok d r -> op <> op_CREATE ->
  exists p f, permissions_of scan (Some usr) r d = Ret p /\ flag p op = Ret f
    /\ is_flag ALLOW f = allowed op r /\ is_flag DENY f = negb (allowed op r).
Proof.
  intros Hin [(o & u & g & Eo & Hu & E0 & E2) Hf] Hop. unfold permissions_of. cbn [deref mbind out_bind].
  rewrite Huser, Hgroup. cbn [deref mbind out_bind]. rewrite Eo. cbn [deref mbind out_bind].
  rewrite (getGroup_user _ _ _ _ _ Hscan Hok Hu E0 E2). cbn [deref mbind out_bind].
  pose proof (row_arity CURRENT_RESOURCES_PERMISSIONS d r Hok ltac:(done) Hin) as Hl.
  destruct r as [|kind [|name [|owner [|po [|pg [|pa [|pm [|]]]]]]]]; try discriminate Hl.
  cbn in Eo. injection Eo as ->. unfold may_do. rewrite (in_group_owner d u o g group Hok Hu E0 E2).
  destruct (Hf 3%nat ltac:(lia)) as (? & [= <-] & H3). destruct (Hf 4%nat ltac:(lia)) as (? & [= <-] & H4).
  destruct (Hf 5%nat ltac:(lia)) as (? & [= <-] & H5). destruct (Hf 6%nat ltac:(lia)) as (? & [= <-] & H6).
  change ADMIN with "admin".
  destruct (flag_grants _ op H3 Hop) as (f3 & ?), (flag_grants _ op H4 Hop) as (f4 & ?),
    (flag_grants _ op H5 Hop) as (f5 & ?), (flag_grants _ op H6 Hop) as (f6 & ?).
  repeat case_bool_decide; [exists pm, f6|exists po, f3|exists pg, f4|exists pa, f5]; by split.
Qed.

Lemma none_denied_spec op rs :
  Forall (fun r => r ∈ rows CURRENT_RESOURCES_PERMISSIONS d) rs -> Forall (resource_ok d) rs -> op <> op_CREATE ->
  none_denied scan (Some usr) op rs d = Ret (forallb (allowed op) rs).
Proof.
  intros Hin H Hop. induction H as [|r rs Hr _ IH]; [done|]. cbn [none_denied forallb].
  apply Forall_cons in Hin as [Hr0 Hin]. specialize (IH Hin).
  destruct (allowed_flag op r Hr0 Hr Hop) as (p & f & -> & Ef & Ea & Ed). cbn [mbind out_bind]. rewrite Ef. cbn [mbind out_bind].
  rewrite Ed. by destruct (allowed op r).
Qed.
Lemma allowed_names_spec op rs names :
  Forall (fun r => r ∈ rows CURRENT_RESOURCES_PERMISSIONS d) rs ->
  Forall (resource_ok d) rs -> Forall (fun r => is_Some (column r 1)) rs -> op <> op_CREATE ->
  out_fold (allowed_name scan (Some usr) op d) names rs = Ret (names ++ (name_of <$> filter (fun r => allowed op r = true) rs)).
Proof.
  intros Hin H Hn Hop. revert names Hin Hn.
  induction H as [|r rs Hr _ IH]; intros names Hin Hn; [cbn; by rewrite app_nil_r|].
  apply Forall_cons in Hin as [Hr0 Hin].
  inversion Hn as [|? ? [n En] Hn']; subst. cbn [out_fold]. unfold allowed_name at 2.
  destruct (allowed_flag op r Hr0 Hr Hop) as (p & f & -> & Ef & Ea & Ed). cbn [mbind out_bind]. rewrite Ef. cbn [mbind out_bind].
  rewrite Ea. destruct (allowed op r) eqn:E.
  - rewrite En. cbn [deref mbind out_bind]. rewrite (IH _ Hin Hn'), filter_cons_True by done. rewrite fmap_cons.
    assert (name_of r = n) as -> by (unfold name_of; by rewrite En). by rewrite <- app_assoc.
  - cbn [mbind out_bind]. rewrite (IH _ Hin Hn'), filter_cons_False; [done|]. by rewrite E.
Qed.

Lemma named_rows gr :
  Forall (fun r => is_Some (column r 1)) (resources_of gr d).
Proof.
  destruct (table_lookup CURRENT_RESOURCES_PERMISSIONS d Hok ltac:(done)) as (tb & _ & Htb & Er).
  apply Forall_forall. intros r [_ Hr]%list_elem_of_filter. rewrite Er in Hr.
  pose proof (tok_arity _ _ Htb) as Ha. rewrite Forall_forall in Ha. specialize (Ha r Hr).
  apply lookup_lt_is_Some. rewrite Ha. vm_compute. lia.
Qed.
End authorization.

Lemma filter_all {A} (P : A -> bool) (l : list A) : forallb P l = true -> filter (fun x => P x = true) l = l.
Proof.
  induction l as [|x l IH]; [done|]. cbn [forallb]. intros [Hx Hl]%andb_true_iff. rewrite filter_cons_True by done.
  f_equal. by apply IH.
Qed.
Lemma filter_all_length {A} (P : A -> bool) (l : list A) :
  length (filter (fun x => P x = true) l) = length l -> forallb P l = true.
Proof.
  induction l as [|x l IH]; [done|]. cbn [forallb]. destruct (decide (P x = true)) as [E|E].
  - rewrite filter_cons_True by done. intros [= H]. by rewrite E, IH.
  - rewrite filter_cons_False by done. intros H. pose proof (length_filter (fun x => P x = true) l) as Hl.
    rewrite H in Hl. cbn in Hl. lia.
Qed.

(** C15: reading all the resources of a kind is all or nothing.  The names a user
    may read ([getAllowedResourcesNames]) are those of the resources of the kind
    whose permissions grant it the operation ([may_do]: those of the
    administrator's column for "admin", else the owner's for the owner, the
    group's for a user of the owner's group, and everybody's); the user is
    authorized on the whole kind ([isAuthorized] on a generic resource) exactly
    when every resource grants the operation, that is, when those names are the
    names of all of them.  The right-hand sides do not mention the order in which
    the database returns rows ([scan], any permutation).  Permissions are three
    flags A or D and the owners of the resources are users ([resources_ok]). *)
Theorem listing_all_or_nothing scan d usr user group op gr :
  (forall l, Permutation (scan l) l) -> db_ok d -> resources_ok gr d -> op <> op_CREATE ->
  ui_user usr = Some user -> ui_group usr = Some group ->
  exists names b,
    getAllowedResourcesNames scan (Some usr) op gr d = Ret names
    /\ Permutation names (name_of <$> filter (fun r => may_do d user group op r = true) (resources_of gr d))
    /\ isAuthorized_generic scan (Some usr) op gr d = Ret b
    /\ (b = true <-> Forall (fun r => may_do d user group op r = true) (resources_of gr d))
    /\ (b = true <-> Permutation names (name_of <$> resources_of gr d)).
Proof.
  intros Hs Hok Hr Hop Hu Hg. set (rs := resources_of gr d).
  assert (Hrs : Forall (resource_ok d) rs).
  { apply Forall_forall. unfold rs. rewrite <- resources_matching. intros r [? ?]%list_elem_of_filter. by apply Hr. }
  assert (Hin : Forall (fun r => r ∈ rows CURRENT_RESOURCES_PERMISSIONS d) rs)
    by (apply Forall_forall; by intros r [_ ?]%list_elem_of_filter).
  pose proof (named_rows d Hok gr) as Hn. fold rs in Hn.
  exists (name_of <$> filter (fun r => may_do d user group op r = true) (scan rs)),
    (forallb (may_do d user group op) (scan rs)).
  split_and!.
  - unfold getAllowedResourcesNames. rewrite decide_False by done. rewrite (prepare_names _ _ Hok), bool_decide_true by done.
    unfold select. rewrite resources_matching. fold rs. erewrite allowed_names_spec; try done; by rewrite Hs.
  - by rewrite Hs.
  - unfold isAuthorized_generic. rewrite (prepare_names _ _ Hok), bool_decide_true by done. unfold select.
    rewrite resources_matching. fold rs. erewrite none_denied_spec; try done; by rewrite Hs.
  - rewrite Forall_forall, forallb_forall. setoid_rewrite <- list_elem_of_In. by setoid_rewrite Hs.
  - split.
    + intros E%filter_all. rewrite E. by rewrite Hs.
    + intros E%Permutation_length. rewrite !length_fmap in E. apply filter_all_length. by rewrite E, Hs.
Qed.
