(* ===== verification/RestServer.v ===== *)
(** * The REST server (rest_server/rest_server.cc)

    A request is received in pieces, checked, authenticated and authorized
    against the database of users when there is one, and handed to the graph
    manager.  The graph manager is reached through [GraphOps]; the HTTP library
    gives the headers of a request and takes an answer, the JSON library reads
    the body.  Handlers are programs over the server: its graph manager and its
    database ([None] is the null [dbmanager]: no authentication). *)

From Stdlib Require Import ZArith Lia String Ascii.
From stdpp Require Import gmap strings numbers base list.
From S2P Require Import Prelude Cpp HighLevel HLGraph Lsi Json Vlinks NFManagers ComputeController GraphManager GraphParser GraphJson UserDb.

(** ** What the server asks of the graph manager *)
Class GraphOps (M : Type) := {
  go_exists : string -> M -> bool;
  go_names : M -> list string;
  go_new : Graph -> prog M bool;
  go_update : string -> Graph -> prog M bool;
  go_delete : string -> prog M bool;
  go_json : string -> M -> out json
}.

(** [GraphManager::toJSON]: an exception of the graph reaches an assert. *)
Definition gm_toJSON {CC SW NODE} (gid : string) (s : GM (CC := CC) (SW := SW) (NODE := NODE)) : out json :=
  match gm_tenants s !! gid with
  | None => Halt Assert
  | Some gi => match graph_document (gi_graph gi) with Throw _ => Halt Assert | o => o end
  end.
Definition manager_ops {SW CC NODE} `{!SwitchOps SW} `{!ComputeOps CC NODE} (stale : string -> string) (garbage : bool)
    (no_dpid : Z) (un_interface : string) : GraphOps (GM (CC := CC) (SW := SW) (NODE := NODE)) := {|
  go_exists := graphExists;
  go_names := getGraphsNames;
  go_new := newGraph stale garbage no_dpid un_interface;
  go_update := updateGraph stale garbage un_interface;
  go_delete := deleteGraph garbage;
  go_json := gm_toJSON
|}.

(** ** Requests and answers *)

Definition GET : string := "GET".
Definition PUT : string := "PUT".
Definition POST : string := "POST".
Definition DELETE : string := "DELETE".
Definition JSON_C_TYPE : string := "application/json".
Definition TOKEN_TYPE : string := "application/token".
Definition NO_CACHE : string := "no-cache".
Definition BUFFER_SIZE : N := 20480.

Record request := {
  q_method : string;
  q_url : string;
  q_host : bool;                (* a "Host" header is present *)
  q_type : option string;       (* "Content-Type" *)
  q_token : option string       (* "X-Auth-Token" *)
}.

(** The body of an answer: [Dangling] is a local array that is gone when the
    library sends it, with what it held. *)
Inductive body := Empty | Text (s : string) | Document (v : json) | Dangling (s : string).
Record reply := { r_code : Z; r_headers : list (string * string); r_body : body }.
(** [Refused] is [MHD_NO]: the library closes the connection. *)
Inductive answer := Queued (r : reply) | Refused.

(** [con_info->message] and [con_info->length]. *)
Record con_info := { ci_message : option (nat -> ascii); ci_length : nat }.

(** ** C strings *)
Definition NUL : ascii := Ascii.zero.
(** The characters before the first NUL. *)
Fixpoint until_nul (l : list ascii) : list ascii :=
  match l with [] => [] | c :: l => if Ascii.eqb c NUL then [] else c :: until_nul l end.
Definition c_str (s : string) : string := string_of_list_ascii (until_nul (list_ascii_of_string s)).
(** [strcpy] into an array of [n] characters. *)
Definition strcpy_to (n : N) (s : string) : out string :=
  if (N.of_nat (String.length (c_str s)) <? n)%N then Ret (c_str s) else Halt Undef.

(** [localtime] and the stamp of a login; the minutes count from 1. *)
Record tm := { tm_mday : Z; tm_mon : Z; tm_year : Z; tm_hour : Z; tm_min : Z }.
Definition timestamp (t : tm) : string :=
  show (tm_mday t) +:+ "/" +:+ show (1 + tm_mon t) +:+ "/" +:+ show (1900 + tm_year t) +:+ " "
    +:+ show (tm_hour t) +:+ ":" +:+ show (1 + tm_min t).

(** The resource, the name and the extra part of an URL: [getline] up to the
    next slash, which fails at the end of the text. *)
Fixpoint split_slash (s : string) : string * string :=
  match s with
  | EmptyString => (EmptyString, EmptyString)
  | String c s => if Ascii.eqb c "/" then (EmptyString, s) else let '(a, b) := split_slash s in (String c a, b)
  end.
Definition getline (s : string) : option (string * string) :=
  match s with EmptyString => None | _ => Some (split_slash s) end.
Definition url_parts (url : string) : string * string * string :=
  match getline url with
  | None => ("", "", "")
  | Some (generic_resource, rest) =>
      match getline rest with
      | None => (generic_resource, "", "")
      | Some (resource, rest) =>
          match getline rest with
          | None => (generic_resource, resource, "")
          | Some (extra, _) => (generic_resource, resource, extra)
          end
      end
  end.

Definition isLoginRequest (method url : string) : bool :=
  bool_decide (method = POST) && String.prefix ("/" +:+ BASE_URL_LOGIN) url.

(** ** The forms in a body

    A value of the wrong type is an exception of the JSON library, caught in the
    functions themselves. *)
Definition login_member (f : option string * option string) (kv : string * json) : out (option string * option string) :=
  let '(user, pwd) := f in
  let '(name, value) := kv in
  if bool_decide (name = "username") then s ← getString value; u ← strcpy_to BUFFER_SIZE s; Ret (Some u, pwd)
  else if bool_decide (name = "password") then s ← getString value; p ← strcpy_to BUFFER_SIZE s; Ret (user, Some p)
  else Throw ParseError.
Definition parseLoginForm (value : json) : out (option (string * string)) :=
  match obj ← getObject value; out_fold login_member (None, None) obj with
  | Ret (Some u, Some p) => Ret (Some (u, p))
  | Ret _ => Ret None
  | Throw _ => Ret None
  | Halt f => Halt f
  end.

(** The two pointers of [parseUserCreationForm], into strings that are destroyed
    when it returns.  A missing group is only logged. *)
Definition user_member (f : option string * option string) (kv : string * json) : out (option string * option string) :=
  let '(pwd, group) := f in
  let '(name, value) := kv in
  if bool_decide (name = "password") then s ← getString value; Ret (Some (c_str s), group)
  else if bool_decide (name = "group") then s ← getString value; Ret (pwd, Some (c_str s))
  else Throw ParseError.
Definition parseUserCreationForm (value : json) : out (option (string * option string)) :=
  match obj ← getObject value; out_fold user_member (None, None) obj with
  | Ret (Some p, g) => Ret (Some (p, g))
  | Ret (None, _) => Ret None
  | Throw _ => Ret None
  | Halt f => Halt f
  end.

(** ** The server *)

(** The text found at a destroyed string, and whether the bytes [SHA256] writes
    past the end of [hash_token] overwrite something that is in use. *)
Record memory := { m_stale : string -> string; m_spill : list Z -> bool }.

Section server.
Context {M : Type} `{!GraphOps M}.
(** The order of the rows of a query. *)
Context (scan : list row -> list row).
(** [json_spirit::read] leaves a null value when it fails. *)
Context (read : string -> json).
(** SHA256, and the memory the handlers touch though it is not theirs. *)
Context (SHA256 : string -> list Z) (mem : memory).

Record server := { sv_gm : M; sv_db : option store }.
Definition set_gm (m : M) (s : server) : server := {| sv_gm := m; sv_db := sv_db s |}.
Definition set_db (d : store) (s : server) : server := {| sv_gm := sv_gm s; sv_db := Some d |}.

Definition on_gm {A} (m : prog M A) : prog server A := fun s =>
  let '(g, o) := m (sv_gm s) in (set_gm g s, o).
(** A method called on [dbmanager]. *)
Definition on_db {A} (m : prog store A) : prog server A := fun s =>
  match sv_db s with
  | None => (s, Halt Undef)
  | Some d => let '(d, o) := m d in (set_db d s, o)
  end.
Definition query {A} (f : store -> A) : prog server A := on_db (gets f).
Definition query_out {A} (f : store -> out A) : prog server A := on_db (fun d => (d, f d)).
Definition update (f : store -> store * Z) : prog server Z := on_db (do_ f).
Definition secured : prog server bool := gets (fun s => bool_decide (is_Some (sv_db s))).
(** [try m catch (...) h]. *)
Definition catch_all {A} (m h : prog server A) : prog server A := fun s =>
  match m s with (s, Throw _) => h s | r => r end.

Definition httpResponse (code : Z) : prog server answer := mret (Queued {| r_code := code; r_headers := []; r_body := Empty |}).
Definition MHD_HTTP_OK := 200.
Definition MHD_HTTP_CREATED := 201.
Definition MHD_HTTP_ACCEPTED := 202.
Definition MHD_HTTP_NO_CONTENT := 204.
Definition MHD_HTTP_BAD_REQUEST := 400.
Definition MHD_HTTP_UNAUTHORIZED := 401.
Definition MHD_HTTP_FORBIDDEN := 403.
Definition MHD_HTTP_NOT_FOUND := 404.
Definition MHD_HTTP_METHOD_NOT_ALLOWED := 405.
Definition MHD_HTTP_UNSUPPORTED_MEDIA_TYPE := 415.
Definition MHD_HTTP_INTERNAL_SERVER_ERROR := 500.
Definition MHD_HTTP_NOT_IMPLEMENTED := 501.

Definition not_allowed : prog server answer :=
  mret (Queued {| r_code := MHD_HTTP_METHOD_NOT_ALLOWED; r_headers := [("Allow", PUT)]; r_body := Empty |}).
Definition json_answer (v : json) : answer :=
  Queued {| r_code := MHD_HTTP_OK; r_headers := [("Content-Type", JSON_C_TYPE); ("Cache-Control", NO_CACHE)]; r_body := Document v |}.
Definition token_answer (b : body) : answer :=
  Queued {| r_code := MHD_HTTP_OK; r_headers := [("Content-Type", TOKEN_TYPE); ("Cache-Control", NO_CACHE)]; r_body := b |}.
Definition created (generic_resource resource : string) : answer :=
  Queued {| r_code := MHD_HTTP_CREATED;
            r_headers := [("Location", "http://localhost:8080/" +:+ generic_resource +:+ "/" +:+ resource)];
            r_body := Empty |}.

(** The text of the message, as a C string. *)
Fixpoint read_message (fuel : nat) (m : nat -> ascii) (i : nat) : list ascii :=
  match fuel with
  | 0%nat => []
  | S fuel => if Ascii.eqb (m i) NUL then [] else m i :: read_message fuel m (S i)
  end.
Definition REQ_SIZE : N := 2 * 1024 * 1024.
Definition message (c : con_info) : out string :=
  match ci_message c with
  | None => Halt Undef
  | Some m => Ret (string_of_list_ascii (read_message (N.to_nat REQ_SIZE) m 0))
  end.
(** [read(con_info.message, value)]. *)
Definition read_body (c : con_info) : prog server json := text ← of_out (message c); mret (read text).

(** *** Graphs *)
Definition readGraph (graphID : string) : prog server answer :=
  auth ← secured;
  missing ← (if auth : bool then e ← query (resourceExists BASE_URL_GRAPH graphID); mret (negb e)
             else gets (fun s => negb (go_exists graphID (sv_gm s))));
  if missing : bool then not_allowed
  else catch_all (v ← on_gm (fun m => (m, go_json graphID m)); mret (json_answer v))
                 (httpResponse MHD_HTTP_INTERNAL_SERVER_ERROR).
Definition readMultipleGraphs (usr : option user_info) : prog server answer :=
  _ ← prog_assert (bool_decide (is_Some usr));
  known ← query (resourceExists_generic BASE_URL_GRAPH);
  if negb known then not_allowed
  else catch_all
    (auth ← secured;
     names ← (if auth : bool then query_out (getAllowedResourcesNames scan usr op_READ BASE_URL_GRAPH)
              else gets (fun s => go_names (sv_gm s)));
     vs ← on_gm (fun m => (m, mapM (M := out) (fun n => go_json n m) names));
     mret (json_answer (JObj [(BASE_URL_GRAPH, JArr vs)])))
    (httpResponse MHD_HTTP_INTERNAL_SERVER_ERROR).

Definition parse_graph (v : json) (gid : string) : out (option Graph) :=
  match parseGraph v (Graph_new gid) with Ret g => Ret (Some g) | Throw _ => Ret None | Halt f => Halt f end.

Definition deployNewGraph (c : con_info) (resource : string) (usr : option user_info) : prog server answer :=
  v ← read_body c;
  parsed ← of_out (parse_graph v resource);
  match parsed with
  | None => httpResponse MHD_HTTP_BAD_REQUEST
  | Some graph =>
      done ← catch_all
        (known ← gets (fun s => go_exists resource (sv_gm s));
         ok ← on_gm (if known : bool then go_update resource graph else go_new graph);
         mret (Some ok))
        (mret (None : option bool));
      match done with
      | None => httpResponse MHD_HTTP_INTERNAL_SERVER_ERROR
      | Some false => httpResponse MHD_HTTP_BAD_REQUEST
      | Some true =>
          auth ← secured;
          _ ← (if auth : bool then
                 usr ← of_out (deref usr);
                 owner ← of_out (deref (ui_user usr));
                 _ ← on_db (insertResource scan BASE_URL_GRAPH resource owner);
                 mret tt
               else mret tt);
          mret (created BASE_URL_GRAPH resource)
      end
  end.

Definition deleteGraph (resource : string) : prog server answer :=
  auth ← secured;
  known ← (if auth : bool then query (resourceExists BASE_URL_GRAPH resource) else mret true);
  if negb known then not_allowed
  else
    known ← gets (fun s => go_exists resource (sv_gm s));
    if negb known then not_allowed
    else catch_all
      (ok ← on_gm (go_delete resource);
       if negb ok then httpResponse MHD_HTTP_BAD_REQUEST
       else
         _ ← (if auth : bool then _ ← update (deleteResource BASE_URL_GRAPH resource); mret tt else mret tt);
         httpResponse MHD_HTTP_NO_CONTENT)
      (httpResponse MHD_HTTP_INTERNAL_SERVER_ERROR).

Definition doGetStatus (graphID : string) : prog server answer :=
  known ← gets (fun s => go_exists graphID (sv_gm s));
  if negb known then httpResponse MHD_HTTP_NOT_FOUND
  else mret (json_answer (JObj [("percentage_completed", JInt 100); ("status", JStr "complete")])).

(** A graph of the start-up configuration, on behalf of the administrator. *)
Definition createGraphFromFile (graphID toBeCreated : string) : prog server bool :=
  parsed ← of_out (parse_graph (read toBeCreated) graphID);
  match parsed with
  | None => mret false
  | Some graph =>
      catch_all
        (ok ← on_gm (go_new graph);
         if negb ok then mret false
         else
           auth ← secured;
           _ ← (if auth : bool then _ ← on_db (insertResource scan BASE_URL_GRAPH graphID ADMIN); mret tt else mret tt);
           mret true)
        (mret false)
  end.
(** [boot_graphs] with the text of each file, [None] when it cannot be opened. *)
Fixpoint boot (boot_graphs : list (string * option string)) : prog server bool :=
  match boot_graphs with
  | [] => mret true
  | (gid, None) :: _ => mret false
  | (gid, Some text) :: rest => ok ← createGraphFromFile gid text; if ok : bool then boot rest else mret false
  end.
Definition init (cli_auth : bool) (boot_graphs : list (string * option string)) : prog server bool :=
  _ ← (if cli_auth then on_db (fun d => let '(d, b) := cleanTables d in (d, Ret tt)) else mret tt);
  boot boot_graphs.

(** *** Users and groups *)
Definition user_object (u : user_info) : out json :=
  user ← deref (ui_user u);
  group ← deref (ui_group u);
  Ret (JObj [("group", JStr group); ("username", JStr user)]).
Definition readUser (username : string) : prog server answer :=
  auth ← secured;
  _ ← prog_assert auth;
  known ← query (resourceExists BASE_URL_USER username);
  if negb known then not_allowed
  else catch_all
    (usr ← query (getUserByName scan username);
     usr ← of_out (deref usr);
     v ← of_out (user_object usr);
     mret (json_answer v))
    (httpResponse MHD_HTTP_INTERNAL_SERVER_ERROR).
Definition readMultipleUsers (usr : option user_info) : prog server answer :=
  auth ← secured;
  _ ← prog_assert (bool_decide (is_Some usr) && auth);
  known ← query (resourceExists_generic BASE_URL_USER);
  if negb known then not_allowed
  else catch_all
    (names ← query_out (getAllowedResourcesNames scan usr op_READ BASE_URL_USER);
     vs ← query_out (fun d => mapM (M := out) (fun n => u ← deref (getUserByName scan n d); user_object u) names);
     mret (json_answer (JObj [(BASE_URL_USER, JArr vs)])))
    (httpResponse MHD_HTTP_INTERNAL_SERVER_ERROR).
Definition readMultipleGroups (usr : option user_info) : prog server answer :=
  auth ← secured;
  _ ← prog_assert (bool_decide (is_Some usr) && auth);
  known ← query (resourceExists_generic BASE_URL_GROUP);
  if negb known then not_allowed
  else catch_all
    (names ← query_out (getAllowedResourcesNames scan usr op_READ BASE_URL_GROUP);
     mret (json_answer (JObj [(BASE_URL_GROUP, JArr ((fun n => JObj [("name", JStr n)]) <$> names))])))
    (httpResponse MHD_HTTP_INTERNAL_SERVER_ERROR).

Definition createGroup (resource : string) (usr : option user_info) : prog server answer :=
  auth ← secured;
  _ ← prog_assert auth;
  known ← query (resourceExists BASE_URL_GROUP resource);
  if known : bool then httpResponse MHD_HTTP_FORBIDDEN
  else
    usr ← of_out (deref usr);
    owner ← of_out (deref (ui_user usr));
    _ ← on_db (insertResource scan BASE_URL_GROUP resource owner);
    mret (created BASE_URL_GROUP resource).
Definition deleteGroup (group : string) : prog server answer :=
  auth ← secured;
  _ ← prog_assert auth;
  known ← query (resourceExists BASE_URL_GROUP group);
  if negb known then not_allowed
  else
    members ← query (usersExistForGroup group);
    if negb members then _ ← update (UserDb.deleteGroup group); httpResponse MHD_HTTP_ACCEPTED
    else httpResponse MHD_HTTP_FORBIDDEN.
Definition deleteUser (username : string) : prog server answer :=
  auth ← secured;
  known ← (if auth : bool then query (resourceExists BASE_URL_USER username) else mret true);
  if negb known then not_allowed
  else
    _ ← (if auth : bool then
           _ ← update (deleteResource BASE_URL_USER username);
           _ ← update (UserDb.deleteUser username);
           mret tt
         else mret tt);
    httpResponse MHD_HTTP_NO_CONTENT.

(** [hash_pwd], on the first [HASH_SIZE] bytes of the digest. *)
Definition hash_pwd (password : string) : string := hex_text (SHA256 password).
(** The digest and its text; both handlers keep it in a [hash_token] that is too small. *)
Definition hash (password : string) : prog server string :=
  token ← of_out (hash_token (m_spill mem) (SHA256 password)); mret (hex_text token).

Definition createUser (q : request) (c : con_info) (username : string) : prog server answer :=
  if negb (q_host q) then httpResponse MHD_HTTP_BAD_REQUEST
  else
    v ← read_body c;
    form ← of_out (parseUserCreationForm v);
    match form with
    | None => httpResponse MHD_HTTP_BAD_REQUEST
    | Some (password, group) =>
        group ← of_out (deref group);
        let t_group := m_stale mem group in
        let pwd := m_stale mem password in
        (* [pwd] is copied into [HASH_SIZE] bytes *)
        _ ← of_out (if (String.length pwd <? HASH_SIZE)%nat then Ret tt else Halt Undef);
        hash_pwd ← hash pwd;
        known ← query (userExists username hash_pwd);
        if known : bool then httpResponse MHD_HTTP_UNAUTHORIZED
        else
          group_known ← query (resourceExists BASE_URL_GROUP t_group);
          if negb group_known then httpResponse MHD_HTTP_UNAUTHORIZED
          else
            match q_token q with
            | None => mret Refused
            | Some token =>
                creator ← query (getUserByToken scan token);
                _ ← update (insertUser username hash_pwd t_group);
                creator ← of_out (deref creator);
                owner ← of_out (deref (ui_user creator));
                _ ← on_db (insertResource scan BASE_URL_USER username owner);
                _ ← update (insertUserCreationPermission username BASE_URL_GRAPH (String ALLOW ""));
                _ ← update (insertUserCreationPermission username BASE_URL_USER (String ALLOW ""));
                _ ← update (insertUserCreationPermission username BASE_URL_GROUP (String ALLOW ""));
                httpResponse MHD_HTTP_ACCEPTED
            end
    end.

(** The random bytes ([None]: the generator failed) and the time of a login. *)
Definition login (q : request) (c : con_info) (random : option (list Z)) (now : tm) : prog server answer :=
  auth ← secured;
  if negb auth then httpResponse MHD_HTTP_NOT_IMPLEMENTED
  else if negb (q_host q) then httpResponse MHD_HTTP_BAD_REQUEST
  else
    v ← read_body c;
    form ← of_out (parseLoginForm v);
    match form with
    | None => httpResponse MHD_HTTP_BAD_REQUEST
    | Some (username, password) =>
        hash_pwd ← hash password;
        known ← query (userExists username hash_pwd);
        if negb known then httpResponse MHD_HTTP_UNAUTHORIZED
        else
          logged ← query (isLogged username);
          if logged : bool then
            pUI ← query (getLoggedUserByName scan username);
            pUI ← of_out (deref pUI);
            token ← of_out (deref (ui_token pUI));
            mret (token_answer (Text token))
          else
            match random with
            | None => httpResponse MHD_HTTP_INTERNAL_SERVER_ERROR
            | Some temp =>
                let nonce := hex_text temp in
                _ ← update (insertLogin username nonce (timestamp now));
                mret (token_answer (Dangling nonce))
            end
    end.

(** *** Dispatch *)
Definition authorized (usr : option user_info) (op : opcode_t) (generic_resource resource : string) : prog server bool :=
  auth ← secured;
  if auth : bool then query_out (isAuthorized scan usr op generic_resource resource) else mret true.

Definition operation_generic (usr : option user_info) (method generic_resource : string) : prog server answer :=
  auth ← secured;
  known ← (if auth : bool then query (resourceExists_generic generic_resource) else mret true);
  if negb known then httpResponse MHD_HTTP_NOT_FOUND
  else if bool_decide (method = GET) then
    ok ← (if auth : bool then query_out (isAuthorized_generic scan usr op_READ generic_resource) else mret true);
    if negb ok then httpResponse MHD_HTTP_UNAUTHORIZED
    else if bool_decide (generic_resource = BASE_URL_GRAPH) then readMultipleGraphs usr
    else if bool_decide (generic_resource = BASE_URL_USER) then readMultipleUsers usr
    else if bool_decide (generic_resource = BASE_URL_GROUP) then readMultipleGroups usr
    else httpResponse MHD_HTTP_NOT_IMPLEMENTED
  else httpResponse MHD_HTTP_NOT_IMPLEMENTED.

Definition operation_single (q : request) (c : con_info) (usr : option user_info) (method generic_resource resource : string)
    : prog server answer :=
  if bool_decide (method = GET) then
    ok ← authorized usr op_READ generic_resource resource;
    if negb ok then httpResponse MHD_HTTP_UNAUTHORIZED
    else if bool_decide (generic_resource = BASE_URL_GRAPH) then readGraph resource
    else if bool_decide (generic_resource = BASE_URL_USER) then readUser resource
    else httpResponse MHD_HTTP_NOT_IMPLEMENTED
  else if bool_decide (method = PUT) then
    ok ← authorized usr op_CREATE generic_resource resource;
    if negb ok then httpResponse MHD_HTTP_UNAUTHORIZED
    else if bool_decide (generic_resource = BASE_URL_GRAPH) then deployNewGraph c resource usr
    else if bool_decide (generic_resource = BASE_URL_GROUP) then createGroup resource usr
    else httpResponse MHD_HTTP_NOT_IMPLEMENTED
  else if bool_decide (method = DELETE) then
    ok ← authorized usr op_DELETE generic_resource resource;
    if negb ok then httpResponse MHD_HTTP_UNAUTHORIZED
    else if bool_decide (generic_resource = BASE_URL_GRAPH) then deleteGraph resource
    else if bool_decide (generic_resource = BASE_URL_USER) then deleteUser resource
    else if bool_decide (generic_resource = BASE_URL_GROUP) then deleteGroup resource
    else httpResponse MHD_HTTP_NOT_IMPLEMENTED
  else if bool_decide (method = POST) then
    if bool_decide (generic_resource = BASE_URL_USER) then
      ok ← authorized usr op_CREATE generic_resource resource;
      if negb ok then httpResponse MHD_HTTP_UNAUTHORIZED else createUser q c resource
    else httpResponse MHD_HTTP_NOT_IMPLEMENTED
  else httpResponse MHD_HTTP_NOT_IMPLEMENTED.

Definition operation_extra (usr : option user_info) (method generic_resource resource extra_info : string) : prog server answer :=
  if bool_decide (method = GET) then
    ok ← authorized usr op_READ generic_resource resource;
    if negb ok then httpResponse MHD_HTTP_UNAUTHORIZED
    else if bool_decide (generic_resource = BASE_URL_GRAPH) && bool_decide (resource = URL_STATUS) then doGetStatus extra_info
    else httpResponse MHD_HTTP_NOT_IMPLEMENTED
  else httpResponse MHD_HTTP_NOT_IMPLEMENTED.

(** The checks on the headers and the body. *)
Definition routine_checks (q : request) (c : con_info) : option Z :=
  if negb (q_host q) then Some MHD_HTTP_BAD_REQUEST
  else if bool_decide (q_method q = GET) || bool_decide (q_method q = DELETE) then
    if (ci_length c =? 0)%nat then None else Some MHD_HTTP_BAD_REQUEST
  else if bool_decide (q_method q = PUT) || bool_decide (q_method q = POST) then
    if bool_decide (q_type q = Some JSON_C_TYPE) then None else Some MHD_HTTP_UNSUPPORTED_MEDIA_TYPE
  else None.

(** The request once the client is known. *)
Definition operate (q : request) (c : con_info) (usr : option user_info) : prog server answer :=
  let '(generic_resource, resource, extra) := url_parts (String.substring 1 (String.length (q_url q) - 1) (q_url q)) in
  let some s := negb (bool_decide (s = "")) in
  if some generic_resource && negb (some resource) && negb (some extra)
  then operation_generic usr (q_method q) generic_resource
  else if some generic_resource && some resource && negb (some extra)
  then operation_single q c usr (q_method q) generic_resource resource
  else if some generic_resource && some resource && some extra
  then operation_extra usr (q_method q) generic_resource resource extra
  else httpResponse MHD_HTTP_NOT_FOUND.

Definition doOperation (q : request) (c : con_info) (random : option (list Z)) (now : tm) : prog server answer :=
  match routine_checks q c with
  | Some code => httpResponse code
  | None =>
      auth ← secured;
      if auth && isLoginRequest (q_method q) (q_url q) then login q c random now
      else if auth : bool then
        match q_token q with
        | None => mret Refused
        | Some token =>
            ok ← query (isAuthenticated token);
            if negb ok then httpResponse MHD_HTTP_UNAUTHORIZED
            else
              _ ← prog_assert (String.prefix "/" (q_url q));
              usr ← query (getUserByToken scan token);
              operate q c usr
        end
      else
        _ ← prog_assert (String.prefix "/" (q_url q));
        operate q c None
  end.

(** ** Receiving a request

    A piece of a body: the bytes the library announces, and those that follow in
    its memory up to a NUL. *)
Record piece := { p_data : list ascii; p_after : list ascii }.
Definition write_at (m : nat -> ascii) (off : nat) (l : list ascii) : nat -> ascii := fun i =>
  if (i <? off)%nat then m i else default (m i) (l !! (i - off)%nat).
(** [strcpy(&message[length], upload_data)]. *)
Definition receive (p : piece) (c : con_info) : out con_info :=
  match ci_message c with
  | None => Halt Undef
  | Some m =>
      let text := until_nul (p_data p ++ p_after p) ++ [NUL] in
      if (N.of_nat (ci_length c + length text) <=? REQ_SIZE)%N
      then Ret {| ci_message := Some (write_at m (ci_length c) text); ci_length := ci_length c + length (p_data p) |}
      else Halt Undef
  end.
(** [message[length] = '\0']. *)
Definition terminate_message (c : con_info) : out con_info :=
  match ci_message c with
  | None => Halt Undef
  | Some m =>
      if (N.of_nat (ci_length c) <? REQ_SIZE)%N
      then Ret {| ci_message := Some (write_at m (ci_length c) [NUL]); ci_length := ci_length c |}
      else Halt Undef
  end.

(** The structure a connection starts with; [malloc] leaves [junk] in it. *)
Definition new_con (junk : nat -> ascii) (method : string) : con_info :=
  {| ci_message := if bool_decide (method = GET) then None else Some junk; ci_length := 0 |}.

(** Each call of the library: what it keeps for the connection, and the answer
    when the request is complete. *)
Definition answer_to_connection (junk : nat -> ascii) (q : request) (data : option piece) (random : option (list Z))
    (now : tm) (con_cls : option con_info) : prog server (con_info * option answer) :=
  match con_cls with
  | None => mret (new_con junk (q_method q), None)
  | Some c =>
      if bool_decide (q_method q = GET) then a ← doOperation q c random now; mret (c, Some a)
      else
        match data with
        | Some p => c ← of_out (receive p c); mret (c, None)
        | None =>
            c ← of_out (terminate_message c);
            if bool_decide (q_method q = PUT) || bool_decide (q_method q = POST) || bool_decide (q_method q = DELETE)
            then a ← doOperation q c random now; mret (c, Some a)
            else a ← httpResponse MHD_HTTP_NOT_IMPLEMENTED; mret (c, Some a)
        end
  end.
End server.
