(* ===== verification/RestOk.v ===== *)
(** * The REST server: what requests do and do not do

    Proved against the interface of the graph manager ([RestServer.GraphOps] with
    [GraphLaws]); [RestManager] shows that the graph manager satisfies it. *)

From Stdlib Require Import ZArith Lia String Ascii.
From stdpp Require Import gmap strings numbers base list.
From S2P Require Import Prelude Cpp Json HighLevel HLGraph Lsi GraphParser ParserOk UserDb UserDbOk RestServer.

(** ** What the server relies on in the graph manager

    [gl_inv] is an invariant of its state.  Nothing is said of a state in which
    the process ended. *)
Class GraphLaws (M : Type) `{!GraphOps M} := {
  gl_inv : M -> Prop;
  gl_new g m : gl_inv m ->
    match go_new g m with
    | (m', Ret true) => gl_inv m' /\ forall n, go_exists n m' = bool_decide (n = g_id g) || go_exists n m
    | (m', Halt _) => True
    | (m', _) => gl_inv m' /\ forall n, go_exists n m' = go_exists n m
    end;
  gl_update gid g m : gl_inv m ->
    match go_update gid g m with
    | (m', Halt _) => True
    | (m', _) => gl_inv m' /\ forall n, go_exists n m' = go_exists n m
    end;
  gl_delete gid m : gl_inv m ->
    match go_delete gid m with
    | (m', Ret true) => gl_inv m' /\ forall n, go_exists n m' = negb (bool_decide (n = gid)) && go_exists n m
    | (m', Halt _) => True
    | (m', _) => gl_inv m' /\ forall n, go_exists n m' = true -> go_exists n m = true
    end
}.

(** ** Invariants of programs *)

(** A program that does not end the process keeps [I]. *)
Definition stays {S A} (I : S -> Prop) (m : prog S A) : Prop :=
  forall s, I s -> match m s with (s', Halt _) => True | (s', _) => I s' end.

Section stays.
Context {S : Type} (I : S -> Prop).
Lemma stays_ret {A} (a : A) : stays I (mret a).
Proof. by intros s. Qed.
Lemma stays_gets {A} (f : S -> A) : stays I (gets f).
Proof. by intros s. Qed.
Lemma stays_of_out {A} (o : out A) : stays I (of_out o).
Proof. intros s H. by destruct o. Qed.
Lemma stays_assert c : stays I (prog_assert c).
Proof. intros s H. by destruct c. Qed.
Lemma stays_bind {A B} (m : prog S A) (k : A -> prog S B) : stays I m -> (forall a, stays I (k a)) -> stays I (m ≫= k).
Proof.
  intros Hm Hk s H. specialize (Hm s H). unfold mbind, prog_bind. destruct (m s) as [s' [a|e|f]]; [by apply Hk|done..].
Qed.
Lemma stays_if {A} (b : bool) (m n : prog S A) : stays I m -> stays I n -> stays I (if b then m else n).
Proof. by destruct b. Qed.
Lemma stays_option {A B} (o : option B) (m : B -> prog S A) n :
  (forall b, stays I (m b)) -> stays I n -> stays I (match o with Some b => m b | None => n end).
Proof. by destruct o. Qed.
End stays.
Create HintDb stays.
#[export] Hint Resolve stays_ret stays_gets stays_of_out stays_assert stays_bind stays_if stays_option : stays.

Section server.
Context {M : Type} `{!GraphOps M}.
Context (scan : list row -> list row) (read : string -> json) (SHA256 : string -> list Z) (mem : memory).
Abbreviation server := (server (M := M)).
Implicit Types (s : server).

Lemma stays_catch (I : server -> Prop) {A} (m h : prog server A) : stays I m -> stays I h -> stays I (catch_all m h).
Proof.
  intros Hm Hh s H. specialize (Hm s H). unfold catch_all. destruct (m s) as [s' [a|e|f]]; [done|by apply Hh|done].
Qed.
Lemma stays_query (I : server -> Prop) {A} (f : store -> A) : stays I (query f).
Proof.
  intros s H. unfold query, on_db, gets. destruct (sv_db s) as [d|] eqn:E; [|done]. unfold set_db. rewrite <- E. by destruct s.
Qed.
Lemma stays_query_out (I : server -> Prop) {A} (f : store -> out A) : stays I (query_out f).
Proof.
  intros s H. unfold query_out, on_db. destruct (sv_db s) as [d|] eqn:E; [|done].
  assert (set_db d s = s) as -> by (unfold set_db; rewrite <- E; by destruct s). by destruct (f d).
Qed.
Lemma stays_pure_gm (I : server -> Prop) {A} (f : M -> out A) : stays I (on_gm (fun m => (m, f m))).
Proof.
  intros s H. unfold on_gm. assert (set_gm (sv_gm s) s = s) as -> by (by destruct s). by destruct (f (sv_gm s)).
Qed.
Lemma stays_http (I : server -> Prop) code : stays I (httpResponse code : prog server answer).
Proof. apply stays_ret. Qed.
Lemma stays_not_allowed (I : server -> Prop) : stays I (not_allowed : prog server answer).
Proof. apply stays_ret. Qed.
Lemma stays_secured (I : server -> Prop) : stays I (secured : prog server bool).
Proof. apply stays_gets. Qed.
Lemma stays_read_body (I : server -> Prop) c : stays I (read_body read c : prog server json).
Proof. unfold read_body. auto with stays. Qed.
End server.
#[export] Hint Resolve stays_catch stays_query stays_query_out stays_pure_gm stays_http stays_not_allowed stays_secured
  stays_read_body : stays.

(** ** Deployed graphs are registered *)

Definition has_resource (gr r : string) (d : store) : Prop :=
  exists x, x ∈ rows CURRENT_RESOURCES_PERMISSIONS d /\ where_eq [(0%nat, gr); (1%nat, r)] x = true.

Lemma resourceExists_spec gr r d : db_ok d -> resourceExists gr r d = true <-> has_resource gr r d.
Proof. intros Hok. unfold resourceExists. by rewrite (count_pos CURRENT_RESOURCES_PERMISSIONS _ d Hok ltac:(done)). Qed.

(** An update of the database that forgets no graph. *)
Definition keeps_graphs (f : store -> store * Z) : Prop := forall d, db_ok d ->
  db_ok (fst (f d)) /\ forall g, has_resource BASE_URL_GRAPH g d -> has_resource BASE_URL_GRAPH g (fst (f d)).

Lemma insert_keeps_graphs t r : t ∈ table_names -> length r = arity_of t -> keeps_graphs (sql_insert t r).
Proof.
  intros Ht Hl d Hok. split; [by apply sql_insert_ok|]. intros g (x & Hx & E). exists x. split; [|done].
  rewrite (rows_sql_insert _ _ _ _ Hok Ht). case_decide as Et; [|done]. subst. destruct (existsb _ _); [done|].
  apply elem_of_app. by left.
Qed.
Lemma delete_keeps_graphs t p :
  t ∈ table_names -> (t = CURRENT_RESOURCES_PERMISSIONS -> forall x, where_eq [(0%nat, BASE_URL_GRAPH)] x = true -> p x = false) ->
  keeps_graphs (sql_delete t p).
Proof.
  intros Ht Hp d Hok. split; [by apply sql_delete_ok|]. intros g (x & Hx & E). exists x. split; [|done].
  rewrite (rows_sql_delete _ _ _ _ Hok Ht). case_decide as Et; [|done]. subst. apply list_elem_of_filter.
  split; [|done]. apply Hp; [done|]. revert E. cbn. destruct (bool_decide _); [done|]. done.
Qed.
Section registered.
Context {M : Type} `{!GraphOps M} `{!GraphLaws M}.
Context (scan : list row -> list row) (read : string -> json) (SHA256 : string -> list Z) (mem : memory).
Abbreviation server := (server (M := M)).
Implicit Types (s : server) (d : store).

(** The invariant of a server that authenticates its clients. *)
Definition graphs_registered (m : M) (d : store) : Prop := forall g, go_exists g m = true -> has_resource BASE_URL_GRAPH g d.
Definition server_ok s : Prop :=
  exists d, sv_db s = Some d /\ db_ok d /\ gl_inv (sv_gm s) /\ graphs_registered (sv_gm s) d.

Lemma stays_update f : keeps_graphs f -> stays server_ok (update f).
Proof.
  intros Hf s (d & E & Hok & Hi & Hg). unfold update, on_db, do_. rewrite E. destruct (Hf d Hok) as [Hok' Hg'].
  destruct (f d) as [d' r]. cbn in *. exists d'. split_and!; [done..|]. intros g Hx. by apply Hg', Hg.
Qed.
(** The registration of a resource: the row is there afterwards. *)
Lemma insertResource_spec gr r owner d :
  db_ok d ->
  match insertResource scan gr r owner d with
  | (_, Halt _) => True
  | (d', _) => db_ok d' /\ has_resource gr r d' /\ forall x, x ∈ rows CURRENT_RESOURCES_PERMISSIONS d -> x ∈ rows CURRENT_RESOURCES_PERMISSIONS d'
  end.
Proof.
  intros Hok. unfold insertResource. rewrite !(prepare_names _ _ Hok), !bool_decide_true by done.
  destruct (first_row _ _ _ _) as [x|]; [|done].
  destruct (column x 1) as [p1|], (column x 2) as [p2|], (column x 3) as [p3|], (column x 4) as [p4|]; try done.
  destruct (bind_text p1 _) as [p2'|e|f] eqn:Eb; [|unfold bind_text in Eb; by destruct (_ <=? _)%nat|done].
  set (x' := [gr; r; owner; p1; p2'; p3; p4]).
  pose proof (sql_insert_ok CURRENT_RESOURCES_PERMISSIONS x' d Hok (fun _ => eq_refl)) as Hok'.
  pose proof (rows_sql_insert CURRENT_RESOURCES_PERMISSIONS x' d CURRENT_RESOURCES_PERMISSIONS Hok ltac:(done)) as Hrows.
  rewrite decide_True in Hrows by done.
  destruct (sql_insert _ x' d) as [d' res]. cbn in *. split_and!; [done|..].
  - unfold has_resource. rewrite Hrows. destruct (existsb _ _) eqn:Ec.
    + apply existsb_exists in Ec as (y & Hy & (ks & Hk & Hs)%existsb_exists).
      exists y. split; [by apply list_elem_of_In|].
      vm_compute in Hk. destruct Hk as [<-|[]]. apply same_key_spec in Hs. apply where_eq_spec. injection Hs as H0 H1.
      repeat constructor; done.
    + exists x'. split; [apply elem_of_app; right; left|]. cbn. by rewrite !bool_decide_true.
  - intros y Hy. rewrite Hrows. destruct (existsb _ _); [done|]. apply elem_of_app. by left.
Qed.
Lemma stays_insertResource gr r owner : stays server_ok (on_db (insertResource scan gr r owner)).
Proof.
  intros s (d & E & Hok & Hi & Hg). unfold on_db. rewrite E. pose proof (insertResource_spec gr r owner d Hok) as H.
  destruct (insertResource _ _ _ _ _) as [d' [a|e|f]]; [| |done]; destruct H as (Hok' & _ & Hin); exists d';
    (split_and!; [done..|]); intros g Hx; destruct (Hg g Hx) as (x & ? & ?); exists x; auto.
Qed.

Lemma ins_keep t r : t ∈ table_names -> length r = arity_of t -> stays server_ok (update (sql_insert t r)).
Proof. intros. apply stays_update. by apply insert_keeps_graphs. Qed.
Lemma stays_insertUser u p g : stays server_ok (update (insertUser u p g)).
Proof. by apply ins_keep. Qed.
Lemma stays_insertLogin u p g : stays server_ok (update (insertLogin u p g)).
Proof. by apply ins_keep. Qed.
Lemma stays_insertPerm u p g : stays server_ok (update (insertUserCreationPermission u p g)).
Proof. by apply (ins_keep USER_CREATION_PERMISSIONS [u; p; String.substring 0 1 g]). Qed.
Lemma stays_deleteUser u : stays server_ok (update (UserDb.deleteUser u)).
Proof. apply stays_update. by apply delete_keeps_graphs. Qed.
(** A resource of another kind. *)
Lemma stays_deleteResource gr r : gr <> BASE_URL_GRAPH -> stays server_ok (update (deleteResource gr r)).
Proof.
  intros Hne. apply stays_update. apply delete_keeps_graphs; [done|]. intros _ x Hx. apply where_eq_spec in Hx.
  inversion Hx as [|? ? E _]; subst. cbn. rewrite E. by rewrite bool_decide_false by congruence.
Qed.
Lemma stays_deleteGroup g : stays server_ok (update (UserDb.deleteGroup g)).
Proof. by apply (stays_deleteResource BASE_URL_GROUP). Qed.
End registered.
#[export] Hint Resolve stays_insertResource stays_insertUser stays_insertLogin stays_insertPerm stays_deleteUser
  stays_deleteGroup : stays.

(** Runs through a handler whose calls keep the invariant. *)
Ltac stays_tac :=
  repeat first
    [ progress intros
    | solve [auto 2 with stays]
    | apply stays_bind | apply stays_catch | apply stays_if | apply stays_option
    | match goal with
      | |- stays _ (match ?x with _ => _ end) => destruct x
      | |- stays _ (let '(_, _) := ?x in _) => destruct x
      end ].

Section handlers.
Context {M : Type} `{!GraphOps M} `{!GraphLaws M}.
Context (scan : list row -> list row) (read : string -> json) (SHA256 : string -> list Z) (mem : memory).
Abbreviation server := (server (M := M)).

Lemma stays_readers gid usr :
  stays server_ok (readGraph gid : prog server answer) /\ stays server_ok (readMultipleGraphs scan usr : prog server answer)
  /\ stays server_ok (readUser scan gid : prog server answer) /\ stays server_ok (readMultipleUsers scan usr : prog server answer)
  /\ stays server_ok (readMultipleGroups scan usr : prog server answer) /\ stays server_ok (doGetStatus gid : prog server answer).
Proof.
  split_and!; unfold readGraph, readMultipleGraphs, readUser, readMultipleUsers, readMultipleGroups, doGetStatus; stays_tac.
Qed.
Lemma stays_createGroup r usr : stays server_ok (createGroup scan r usr : prog server answer).
Proof. unfold createGroup. stays_tac. Qed.
Lemma stays_group g : stays server_ok (deleteGroup g : prog server answer).
Proof. unfold deleteGroup. stays_tac. Qed.
Lemma stays_user u : stays server_ok (deleteUser u : prog server answer).
Proof. unfold deleteUser. stays_tac. by apply stays_deleteResource. Qed.
Lemma stays_createUser q c u : stays server_ok (createUser scan read SHA256 mem q c u : prog server answer).
Proof. unfold createUser. stays_tac. Qed.
Lemma stays_login q c random now : stays server_ok (login scan read SHA256 mem q c random now : prog server answer).
Proof. unfold login. stays_tac. Qed.

(** A graph is deployed, then registered. *)
Definition after_deploy (resource : string) (s : server) : Prop :=
  exists d, sv_db s = Some d /\ db_ok d /\ gl_inv (sv_gm s)
    /\ forall g, go_exists g (sv_gm s) = true -> g = resource \/ has_resource BASE_URL_GRAPH g d.
Lemma register_deployed resource owner s :
  after_deploy resource s ->
  match on_db (insertResource scan BASE_URL_GRAPH resource owner) s with (s', Halt _) => True | (s', _) => server_ok s' end.
Proof.
  intros (d & E & Hok & Hi & Hg). unfold on_db. rewrite E.
  pose proof (insertResource_spec scan BASE_URL_GRAPH resource owner d Hok) as H.
  destruct (insertResource _ _ _ _ _) as [d' [a|e|f]]; [| |done]; destruct H as (Hok' & Hr & Hin); exists d';
    (split_and!; [done..|]); intros g Hx; (destruct (Hg g Hx) as [->|(x & ? & ?)]; [done|exists x; auto]).
Qed.
Lemma deploy_manager resource g s :
  server_ok s -> g_id g = resource ->
  match on_gm (if go_exists resource (sv_gm s) then go_update resource g else go_new g) s with
  | (s', Ret true) => after_deploy resource s'
  | (s', Halt _) => True
  | (s', _) => server_ok s'
  end.
Proof.
  intros (d & E & Hok & Hi & Hg) Hid. unfold on_gm. destruct (go_exists resource (sv_gm s)) eqn:Ex.
  - pose proof (gl_update resource g _ Hi) as H. destruct (go_update _ _ _) as [m' [[]|e|f]]; [..|done];
      destruct H as [Hi' Hn]; exists d; (split_and!; [done..|]); intros n Hx; rewrite Hn in Hx; auto.
  - pose proof (gl_new g _ Hi) as H. destruct (go_new _ _) as [m' [[]|e|f]]; [..|done];
      destruct H as [Hi' Hn]; exists d; (split_and!; [done..|]); intros n Hx; rewrite Hn in Hx; auto.
    apply orb_true_iff in Hx as [->%bool_decide_eq_true|Hx]; [by left|right; by apply Hg].
Qed.
Lemma parse_graph_id v gid g : parse_graph v gid = Ret (Some g) -> g_id g = gid.
Proof.
  unfold parse_graph. destruct (parseGraph v (Graph_new gid)) as [g'| |] eqn:E; [|done..]. intros [= ->].
  by apply (ac_id _ _ (parseGraph_accepted _ _ _ E)).
Qed.

Lemma stays_deployNewGraph c resource usr : stays server_ok (deployNewGraph scan read c resource usr : prog server answer).
Proof.
  unfold deployNewGraph. apply stays_bind; [auto with stays|]. intros v s Hs.
  unfold mbind at 1, prog_bind at 1, of_out at 1. destruct (parse_graph v resource) as [[g|]| |] eqn:Ep; [|done..].
  pose proof (deploy_manager resource g s Hs (parse_graph_id _ _ _ Ep)) as H.
  unfold mbind at 1, prog_bind at 1, catch_all, mbind at 1 2, prog_bind at 1 2, gets at 1.
  destruct (on_gm _ s) as [s' [[]|e|f]]; [| |by cbn|done]; [|by cbn].
  cbn [mret prog_ret]. assert (Hdb := H). destruct Hdb as (d & Ed & _).
  unfold mbind at 1, prog_bind at 1, secured, gets. rewrite Ed, bool_decide_true by eauto.
  unfold mbind, prog_bind, of_out. destruct usr as [usr|]; [|done]. cbn [deref]. destruct (ui_user usr) as [owner|]; [|done].
  cbn [deref]. pose proof (register_deployed resource owner s' H) as H'.
  by destruct (on_db _ s') as [s'' [a|e|f]].
Qed.
Lemma stays_createGraphFromFile gid text : stays server_ok (createGraphFromFile scan read gid text : prog server bool).
Proof.
  unfold createGraphFromFile. intros s Hs. unfold mbind at 1, prog_bind at 1, of_out at 1.
  destruct (parse_graph _ gid) as [[g|]| |] eqn:Ep; [|done..]. destruct Hs as (d & Ed & Hok & Hi & Hg).
  pose proof (gl_new g _ Hi) as H. unfold catch_all, mbind at 1, prog_bind at 1, on_gm.
  destruct (go_new g (sv_gm s)) as [m' [[]|e|f]]; [..|done]; destruct H as [Hi' Hn].
  2,3: exists d; (split_and!; [done..|]); intros n Hx; rewrite Hn in Hx; auto.
  assert (after_deploy gid (set_gm m' s)) as Ha.
  { exists d. split_and!; [done..|]. cbn. intros n Hx. rewrite Hn, (parse_graph_id _ _ _ Ep) in Hx.
    apply orb_true_iff in Hx as [->%bool_decide_eq_true|Hx]; [by left|right; by apply Hg]. }
  cbn [negb]. unfold mbind at 1, prog_bind at 1, secured, gets. change (sv_db (set_gm m' s)) with (sv_db s).
  rewrite Ed, bool_decide_true by eauto. unfold mbind, prog_bind.
  pose proof (register_deployed gid ADMIN _ Ha) as H'. by destruct (on_db _ (set_gm m' s)) as [s'' [a|e|f]].
Qed.
Lemma stays_deleteGraph resource : stays server_ok (deleteGraph resource : prog server answer).
Proof.
  unfold deleteGraph. apply stays_bind; [auto with stays|]. intros auth.
  apply stays_bind; [stays_tac|]. intros known. apply stays_if; [auto with stays|].
  apply stays_bind; [auto with stays|]. intros known'. apply stays_if; [auto with stays|].
  intros s (d & Ed & Hok & Hi & Hg). pose proof (gl_delete resource _ Hi) as H.
  unfold catch_all, mbind at 1, prog_bind at 1, on_gm.
  destruct (go_delete resource (sv_gm s)) as [m' [[]|e|f]]; [..|done]; destruct H as [Hi' Hn].
  2,3: exists d; (split_and!; [done..|]); intros n Hx; apply Hg, Hn, Hx.
  cbn [negb]. destruct auth.
  - unfold mbind, prog_bind, update, on_db, do_. change (sv_db (set_gm m' s)) with (sv_db s). rewrite Ed.
    pose proof (sql_delete_ok CURRENT_RESOURCES_PERMISSIONS (where_eq [(0%nat, BASE_URL_GRAPH); (1%nat, resource)]) d Hok) as Hok'.
    pose proof (rows_sql_delete CURRENT_RESOURCES_PERMISSIONS (where_eq [(0%nat, BASE_URL_GRAPH); (1%nat, resource)]) d
      CURRENT_RESOURCES_PERMISSIONS Hok ltac:(done)) as Hr.
    unfold deleteResource. destruct (sql_delete _ _ d) as [d' z]. cbn in *. exists d'. split_and!; [done..|].
    intros n Hx. cbn in Hx. rewrite Hn in Hx. apply andb_true_iff in Hx as [Hne%negb_true_iff%bool_decide_eq_false Hx].
    destruct (Hg n Hx) as (x & Hin & Ex). exists x. split; [|done]. rewrite Hr. apply list_elem_of_filter.
    split; [|done]. apply where_eq_spec in Ex. inversion Ex as [|? ? E0 Ex1]; subst. inversion Ex1 as [|? ? E1 _]; subst.
    change (bool_decide (column x 0 = Some BASE_URL_GRAPH) && (bool_decide (column x 1 = Some resource) && true) = false).
    rewrite E1. rewrite (bool_decide_false (Some n = _)) by congruence. apply andb_false_r.
  - exists d. split_and!; [done..|]. intros n Hx. cbn in Hx. rewrite Hn in Hx. apply andb_true_iff in Hx as [_ Hx]. by apply Hg.
Qed.
End handlers.
#[export] Hint Resolve stays_createGroup stays_group stays_user stays_createUser stays_login stays_deployNewGraph
  stays_createGraphFromFile stays_deleteGraph : stays.

(** ** Every call of the library *)
Section calls.
Context {M : Type} `{!GraphOps M} `{!GraphLaws M}.
Context (scan : list row -> list row) (read : string -> json) (SHA256 : string -> list Z) (mem : memory).
Abbreviation server := (server (M := M)).

Lemma stays_authorized usr op gr r : stays server_ok (authorized scan usr op gr r : prog server bool).
Proof. unfold authorized. stays_tac. Qed.
Lemma stays_operate q c usr : stays server_ok (operate scan read SHA256 mem q c usr : prog server answer).
Proof.
  pose proof stays_authorized as Ha. pose proof (stays_readers scan) as Hr.
  assert (forall gid, stays server_ok (readGraph gid : prog server answer)) by (intros; apply (Hr gid None)).
  assert (forall gid, stays server_ok (readUser scan gid : prog server answer)) by (intros; apply (Hr gid None)).
  assert (forall gid, stays server_ok (doGetStatus gid : prog server answer)) by (intros; apply (Hr gid None)).
  assert (forall u, stays server_ok (readMultipleGraphs scan u : prog server answer)) by (intros u; apply (Hr "" u)).
  assert (forall u, stays server_ok (readMultipleUsers scan u : prog server answer)) by (intros u; apply (Hr "" u)).
  assert (forall u, stays server_ok (readMultipleGroups scan u : prog server answer)) by (intros u; apply (Hr "" u)).
  clear Hr. unfold operate, operation_generic, operation_single, operation_extra. destruct (url_parts _) as [[gr r] e].
  stays_tac.
Qed.
Lemma stays_doOperation q c random now : stays server_ok (doOperation scan read SHA256 mem q c random now : prog server answer).
Proof.
  pose proof stays_operate. unfold doOperation. destruct (routine_checks q c); [auto with stays|]. stays_tac.
Qed.
Lemma stays_answer junk q data random now con :
  stays server_ok (answer_to_connection scan read SHA256 mem junk q data random now con : prog server _).
Proof. pose proof stays_doOperation. unfold answer_to_connection. destruct con as [c|]; stays_tac. Qed.
Lemma stays_boot gs : stays server_ok (boot scan read gs : prog server bool).
Proof. induction gs as [|[gid [text|]] gs IH]; cbn [boot]; stays_tac. Qed.

(** A server that has just been built on an initialised database. *)
Definition started (s : server) : Prop :=
  exists d, sv_db s = Some d /\ db_ok d /\ gl_inv (sv_gm s) /\ forall g, go_exists g (sv_gm s) = false.
(** The states reached: start-up, then calls for any connections in any order. *)
Inductive serving : server -> Prop :=
| serving_init s0 gs s : started s0 -> init scan read true gs s0 = (s, Ret true) -> serving s
| serving_call s junk q data random now con s' r :
    serving s -> answer_to_connection scan read SHA256 mem junk q data random now con s = (s', Ret r) -> serving s'.

Lemma serving_ok s : serving s -> server_ok s.
Proof.
  induction 1 as [s0 gs s (d & Ed & Hok & Hi & Hg) E|s junk q data random now con s' r _ IH E].
  - unfold init, mbind, prog_bind, on_db in E. rewrite Ed in E.
    assert (db_ok (fst (cleanTables d))) as Hc.
    { unfold cleanTables. destruct (prepare LOGIN d); [|done]. pose proof (sql_delete_ok LOGIN (fun _ => true) d Hok) as H.
      destruct (sql_delete LOGIN _ d) as [d1 z]. destruct (prepare _ d1); [|done]. by apply sql_delete_ok. }
    destruct (cleanTables d) as [d1 b]. pose proof (stays_boot gs (set_db d1 s0)) as H.
    rewrite E in H. apply H. exists d1. split_and!; [done..|]. intros g Hx. cbn in Hx. by rewrite Hg in Hx.
  - pose proof (stays_answer junk q data random now con s IH) as H. by rewrite E in H.
Qed.
End calls.

(** C11: with authentication on, from start-up and through any calls of the HTTP
    library for any connections in any order (logins, deployments, updates and
    deletions that succeed, are refused or fail with an exception), the database
    keeps exactly the tables of the schema, with unique keys and complete rows,
    and every graph that is deployed is registered in it. *)
Theorem deployed_graphs_registered {M} `{!GraphOps M} `{!GraphLaws M} scan read SHA256 mem (s : server (M := M)) :
  serving scan read SHA256 mem s ->
  exists d, sv_db s = Some d /\ db_ok d
    /\ forall g, go_exists g (sv_gm s) = true -> resourceExists BASE_URL_GRAPH g d = true.
Proof.
  intros (d & E & Hok & _ & Hg)%serving_ok. exists d. split_and!; [done..|]. intros g Hx. apply resourceExists_spec; auto.
Qed.

(** ** The initial database *)
Lemma createTables_ok : db_ok (fst (createTables ∅)) /\ snd (createTables ∅) = true.
Proof.
  split; [|vm_compute; reflexivity]. split; [vm_compute; reflexivity|].
  assert (Hempty : forall t, table_ok t {| t_keys := keys_of t; t_rows := [] |}).
  { intros t. split; [done|constructor|]. apply Forall_forall. intros ks _. constructor. }
  assert (Hstep : forall t keys ts d, has_key d t = false -> keys = keys_of t -> map_Forall table_ok d ->
    (forall d', map_Forall table_ok d' -> dom d' = {[t]} ∪ dom d -> map_Forall table_ok (fst (sql_create ts d'))) ->
    map_Forall table_ok (fst (sql_create ((t, keys) :: ts) d))).
  { intros t keys ts d Hk -> Hd Hrest. cbn [sql_create]. rewrite Hk. apply Hrest; [|apply dom_insert_L].
    apply map_Forall_insert_2; [apply Hempty|done]. }
  assert (Hkey : forall (d : store) t (X : gset string), dom d = X -> bool_decide (t ∈ X) = false -> has_key d t = false).
  { intros d t X <- H. apply bool_decide_eq_false in H. apply bool_decide_eq_false. by rewrite <- elem_of_dom. }
  unfold createTables, schema.
  apply Hstep; [done|done|apply map_Forall_empty|]. intros d1 H1 E1.
  apply Hstep; [by eapply Hkey|done|done|]. intros d2 H2 E2. rewrite E1 in E2.
  apply Hstep; [by eapply Hkey|done|done|]. intros d3 H3 E3. rewrite E2 in E3.
  apply Hstep; [by eapply Hkey|done|done|]. intros d4 H4 E4. rewrite E3 in E4.
  apply Hstep; [by eapply Hkey|done|done|]. intros d5 H5 E5. rewrite E4 in E5.
  by apply Hstep; [eapply Hkey|done|done|intros d6 H6 _].
Qed.
Lemma stays_do f : (forall d, db_ok d -> db_ok (fst (f d))) -> stays db_ok (do_ f).
Proof. intros Hf d Hd. unfold do_. specialize (Hf d Hd). by destruct (f d). Qed.
(** What the initialiser leaves is a database of the schema. *)
Lemma initDB_ok scan SHA256 spill junk pass : match initDB scan SHA256 spill junk pass ∅ with (_, Halt _) => True | (d, _) => db_ok d end.
Proof.
  destruct createTables_ok as [Hok Hb]. unfold initDB. unfold mbind at 1, prog_bind at 1.
  destruct (createTables ∅) as [d0 b]. cbn in Hok, Hb. subst b. cbn [negb]. revert d0 Hok.
  assert (Hins : forall t r, t ∈ table_names -> length r = arity_of t -> stays db_ok (do_ (sql_insert t r))).
  { intros t r Ht Hl. apply stays_do. intros d Hd. by apply sql_insert_ok. }
  assert (Hres : forall gr r o, stays db_ok (insertResource scan gr r o)).
  { intros gr r o d Hd. pose proof (insertResource_spec scan gr r o d Hd) as H.
    destruct (insertResource scan gr r o d) as [d' [z|e|f]]; [by destruct H as [? _]..|done]. }
  match goal with |- forall d0, db_ok d0 -> match ?m d0 with _ => _ end => cut (stays db_ok m) end.
  { intros H d0 Hok. specialize (H d0 Hok). match goal with H : match ?x with _ => _ end |- _ => by destruct x as [d [a|e|f]] end. }
  apply stays_bind; [apply stays_of_out|intros _]. apply stays_bind; [apply stays_of_out|intros token]. cbn zeta.
  repeat (apply stays_bind; [first [apply Hres|apply (Hins GENERIC_RESOURCES)|apply (Hins DEFAULT_USAGE_PERMISSIONS)
    |apply (Hins USER_CREATION_PERMISSIONS [_; _; _])|apply (Hins USERS)]; done|intros _]).
  apply stays_ret.
Qed.
