(* ===== verification/RestManager.v ===== *)
(** * The graph manager behind the REST server

    [GraphManager] has what the server relies on ([RestOk.GraphLaws]): the graphs
    it knows are those it accepted and did not delete, whatever fails on the way,
    and each is filed under its own identifier. *)

From Stdlib Require Import ZArith Lia String.
From stdpp Require Import gmap strings numbers base list.
From S2P Require Import Prelude Cpp FlowMatch HighLevel HLGraph LowLevel Lsi Vlinks Translator Controller NFManagers ComputeController GraphManager InternalOk UserDb UserDbOk RestServer RestOk.

(** ** Outcomes of a program

    From [I], a return satisfies [Q] and an exception [E]. *)
Definition ends {S A} (I : S -> Prop) (Q : A -> S -> Prop) (E : S -> Prop) (m : prog S A) : Prop :=
  forall s, I s -> match m s with (s', Ret a) => Q a s' | (s', Throw _) => E s' | (_, Halt _) => True end.

Section ends.
Context {S : Type}.
Implicit Types (I E : S -> Prop).
Lemma ends_stays {A} I E (m : prog S A) : stays I m -> (forall s, I s -> E s) -> ends I (fun _ => I) E m.
Proof. intros H HE s Hs. specialize (H s Hs). destruct (m s) as [s' [a|e|f]]; auto. Qed.
Lemma ends_bind {A B} I (R : A -> S -> Prop) Q E (m : prog S A) (k : A -> prog S B) :
  ends I R E m -> (forall a, ends (R a) Q E (k a)) -> ends I Q E (m ≫= k).
Proof.
  intros Hm Hk s Hs. specialize (Hm s Hs). unfold mbind, prog_bind. destruct (m s) as [s' [a|e|f]]; [by apply Hk|done..].
Qed.
Lemma ends_ret {A} I (Q : A -> S -> Prop) E (a : A) : (forall s, I s -> Q a s) -> ends I Q E (mret a).
Proof. intros H s Hs. by apply H. Qed.
Lemma ends_catch {A} I (Q : A -> S -> Prop) E E' e (m h : prog S A) :
  ends I Q E m -> ends E Q E' h -> (forall s, E s -> E' s) -> ends I Q E' (try_catch e m h).
Proof.
  intros Hm Hh HE s Hs. specialize (Hm s Hs). unfold try_catch. destruct (m s) as [s' [a|e'|f]]; [done| |done].
  destruct (decide (e' = e)); [by apply Hh|auto].
Qed.
Lemma ends_of_out {A B} I (Q : B -> S -> Prop) E (o : out A) (k : A -> prog S B) :
  (forall s, I s -> E s) -> (forall a, o = Ret a -> ends I Q E (k a)) -> ends I Q E (of_out o ≫= k).
Proof. intros HE Hk s Hs. unfold mbind, prog_bind, of_out. destruct o; [by apply Hk|auto|done]. Qed.
Lemma stays_try {A} I e (m h : prog S A) : stays I m -> stays I h -> stays I (try_catch e m h).
Proof.
  intros Hm Hh s Hs. specialize (Hm s Hs). unfold try_catch. destruct (m s) as [s' [a|e'|f]]; [done| |done].
  destruct (decide (e' = e)); [by apply Hh|done].
Qed.
Lemma stays_throw {A} I e : stays I (throw e : prog S A).
Proof. by intros s Hs. Qed.
Lemma stays_for_each {A} I (f : A -> prog S unit) l : (forall x, stays I (f x)) -> stays I (for_each f l).
Proof. intros Hf. induction l as [|x l IH]; cbn [for_each]; [apply stays_ret|]. by apply stays_bind. Qed.
Lemma stays_modify I f : (forall s, I s -> I (f s)) -> stays I (modify f).
Proof. intros Hf s Hs. by apply Hf. Qed.
Lemma stays_of_out_bind {A B} I (o : out A) (k : A -> prog S B) :
  (forall a, o = Ret a -> stays I (k a)) -> stays I (of_out o ≫= k).
Proof. intros Hk s Hs. unfold mbind, prog_bind, of_out. destruct o; [by apply Hk|done..]. Qed.
End ends.
#[export] Hint Resolve stays_try stays_throw stays_for_each : stays.

(** ** Graphs keep their identifier *)
Lemma foldl_id {A} (f : Graph -> A -> Graph) l g : (forall g x, g_id (f g x) = g_id g) -> g_id (foldl f g l) = g_id g.
Proof. intros Hf. revert g. induction l as [|x l IH]; intros g; [done|]. cbn. by rewrite IH, Hf. Qed.
Lemma addRule_id g r : g_id (fst (addRule g r)) = g_id g.
Proof. unfold addRule. by destruct (list_add _ _ _). Qed.
Lemma add_rules_id g rs : g_id (fst (add_rules g rs)) = g_id g.
Proof.
  revert g. induction rs as [|r rs IH]; intros g; [done|]. cbn. pose proof (addRule_id g r) as H.
  destruct (addRule g r) as [g' []]; cbn in H; [by rewrite IH, H|done].
Qed.
Lemma addGraphToGraph_id g other : g_id (fst (addGraphToGraph g other)) = g_id g.
Proof.
  unfold addGraphToGraph. pose proof (add_rules_id g (g_rules other)) as H.
  destruct (add_rules g (g_rules other)) as [g' []]; cbn in H |- *; [|done]. rewrite !foldl_id; try done; intros g0 e;
    unfold addEndPointVlan, addEndPointInternal, addEndPointGre, addEndPointInterface;
    match goal with |- context [list_add ?a ?b ?c] => by destruct (list_add a b c) as [? []] end.
Qed.
Lemma res_fold_id {A} (f : Graph -> A -> res Graph) l g g' :
  (forall g x g', f g x = Ok g' -> g_id g' = g_id g) -> res_fold f g l = Ok g' -> g_id g' = g_id g.
Proof.
  intros Hf H. apply (res_fold_inv f (fun x => g_id x = g_id g) l) in H; [done| |done].
  intros b x b' _ Hb E. rewrite <- Hb. by eapply Hf.
Qed.
Lemma removeGraphFromGraph_id g other g' i : removeGraphFromGraph g other = Ok (g', i) -> g_id g' = g_id g.
Proof.
  unfold removeGraphFromGraph. intros H. apply res_bind_ok in H as ([g1 i1] & H1 & H).
  assert (E1 : g_id g1 = g_id g).
  { apply (res_fold_inv remove_rule (fun x => g_id (fst x) = g_id g) _) in H1; [done| |done].
    intros [b l] r [b' l'] _ Hb Hr. unfold remove_rule in Hr. apply res_bind_ok in Hr as ([g2 i2] & H2 & H3).
    injection H3 as -> <-. cbn in *.
    unfold removeRuleFromID in H2. apply res_bind_ok in H2 as (r' & _ & H2). destruct (erase_first _ _); [|done].
    by injection H2 as <- _. }
  rewrite <- E1. clear H1 E1.
  repeat (apply res_bind_ok in H as (? & ? & H)). injection H as <- _.
  repeat match goal with H : res_fold _ _ _ = Ok _ |- _ =>
    apply res_fold_id in H; [rewrite H; clear H|] end; [done|..]; intros b e b' E.
  all: unfold remove_vnf, removeEndPointVlan, removeEndPointInternal, removeEndPointGre, remove_interface,
         removeEndPointInterface in E.
  all: apply res_bind_ok in E as (l & _ & E).
  all: try (by injection E as <-).
  all: destruct l; [done|].
  all: first [by destruct (erase_first _ _); [injection E as <-|]|apply res_bind_ok in E as (l & _ & E); by injection E as <-].
Qed.

(** ** The graphs of the manager *)
Section laws.
Context {SW CC NODE : Type} `{!SwitchOps SW} `{!ComputeOps CC NODE}.
Context (stale : string -> string) (garbage : bool) (no_dpid : Z) (un_interface : string).
#[local] Abbreviation GM := (GM (SW := SW) (CC := CC) (NODE := NODE)).
#[local] Abbreviation GraphInfo := (GraphInfo (CC := CC)).

(** The identifier of each graph, by its key. *)
Definition ids (s : GM) : gmap string string := (fun gi : GraphInfo => g_id (gi_graph gi)) <$> gm_tenants s.
Definition with_ids (x : gmap string string) (s : GM) : Prop := ids s = x.

Lemma stays_iview {A} x (m : prog GM A) : keeps iview m -> stays (with_ids x) m.
Proof.
  intros Hk s Hs. specialize (Hk s). destruct (m s) as [s' o]. cbn in Hk. injection Hk as E _ _ _ _.
  destruct o; [|idtac|done]; unfold with_ids, ids; by rewrite E.
Qed.
Lemma stays_tenant {A} x gid (k : GraphInfo -> prog GM A) :
  (forall gi, x !! gid = Some (g_id (gi_graph gi)) -> stays (with_ids x) (k gi)) -> stays (with_ids x) (tenant gid ≫= k).
Proof.
  intros Hk s Hs. unfold mbind, prog_bind, tenant. destruct (gm_tenants s !! gid) as [gi|] eqn:E; [|done]. apply Hk; [|done].
  rewrite <- Hs. unfold ids. by rewrite lookup_fmap, E.
Qed.
Lemma stays_put x gid (gi : GraphInfo) : x !! gid = Some (g_id (gi_graph gi)) -> stays (with_ids x) (put_tenant gid gi : prog GM unit).
Proof.
  intros E s Hs. unfold put_tenant, modify, with_ids, ids. cbn. rewrite fmap_insert.
  rewrite <- Hs in *. by apply insert_id.
Qed.
Lemma stays_on_tenant {A} x gid (m : prog (vstate SW) A) : stays (with_ids x) (on_tenant gid m : prog GM A).
Proof.
  intros s Hs. unfold on_tenant. destruct (gm_tenants s !! gid) as [gi|] eqn:E; [|done]. unfold on_vstate.
  destruct (m _) as [v o]. cbn. assert (forall t, with_ids x (set_tenants (<[gid := {| gi_graph := gi_graph gi; gi_lsi := t;
    gi_ctl := gi_ctl gi; gi_cc := gi_cc gi |}]> (gm_tenants s)) s)).
  { intros t. unfold with_ids, ids. cbn. rewrite fmap_insert. rewrite <- Hs. apply insert_id. unfold ids. by rewrite lookup_fmap, E. }
  destruct o; [apply H|apply H|done].
Qed.
Lemma stays_on_cc {A} x gid (m : prog (CC * NODE) A) : stays (with_ids x) (on_cc gid m : prog GM A).
Proof.
  unfold on_cc. apply stays_tenant. intros gi E. apply stays_bind.
  - intros s Hs. by destruct (m (gi_cc gi, gm_node s)) as [[cc n] o].
  - intros [cc o]. apply stays_bind; [by apply stays_put|]. intros _. apply stays_of_out.
Qed.
Lemma stays_tenant_ctl x gid e : stays (with_ids x) (tenant_ctl garbage gid e : prog GM unit).
Proof. unfold tenant_ctl. apply stays_tenant. intros gi E. apply stays_bind; [apply stays_of_out|]. intros c. by apply stays_put. Qed.
Lemma stays_lsi0_ctl x e : stays (with_ids x) (lsi0_ctl garbage e : prog GM unit).
Proof. apply stays_iview, keeps_lsi0_ctl. Qed.
Lemma stays_on_sw {A} x (f : SW -> SW * out A) : stays (with_ids x) (on_sw f : prog GM A).
Proof. apply stays_iview, keeps_on_sw. Qed.
Lemma stays_with_cc {A} x cc (m : prog (CC * NODE) A) : stays (with_ids x) (with_cc cc m : prog GM (CC * A)).
Proof. apply stays_iview, keeps_with_cc. Qed.
Lemma stays_look {A} x (f : GM -> out A) : stays (with_ids x) (fun s => (s, f s)).
Proof. intros s Hs. by destruct (f s). Qed.
End laws.
#[export] Hint Resolve stays_on_tenant stays_on_cc stays_tenant_ctl stays_lsi0_ctl stays_on_sw stays_with_cc stays_look : stays.

Ltac ids_tac :=
  repeat first
    [ progress intros
    | solve [auto 2 with stays]
    | apply stays_tenant
    | apply stays_of_out_bind
    | apply stays_bind | apply stays_try | apply stays_for_each | apply stays_if | apply stays_option
    | apply stays_put; eassumption
    | apply stays_modify; by intros
    | match goal with |- stays _ (let '(_, _) := ?x in _) => destruct x end ].

Section update.
Context {SW CC NODE : Type} `{!SwitchOps SW} `{!ComputeOps CC NODE}.
Context (stale : string -> string) (garbage : bool) (no_dpid : Z) (un_interface : string).
#[local] Abbreviation GM := (GM (SW := SW) (CC := CC) (NODE := NODE)).
Implicit Types (x : gmap string string).

Lemma stays_add_nf x gid nf : stays (with_ids x) (add_nf_on_switch gid nf : prog GM unit).
Proof. unfold add_nf_on_switch. ids_tac. Qed.
Lemma stays_add_gre x gid e : stays (with_ids x) (add_gre_on_switch un_interface gid e : prog GM unit).
Proof. unfold add_gre_on_switch. ids_tac. Qed.
Lemma stays_start_or_update x gid nfs ok : stays (with_ids x) (start_or_update gid nfs ok : prog GM bool).
Proof. revert ok. induction nfs as [|nf nfs IH]; intros ok; cbn [start_or_update]; ids_tac. Qed.
Lemma stays_updateGraph_add x gid g : stays (with_ids x) (updateGraph_add un_interface gid g : prog GM Graph).
Proof.
  pose proof stays_add_nf. pose proof stays_add_gre. pose proof stays_start_or_update. unfold updateGraph_add.
  apply stays_bind; [apply stays_gets|]. intros known. apply stays_bind; [apply stays_assert|]. intros _.
  apply stays_tenant. intros gi Egi. cbn zeta. apply stays_bind; [apply stays_gets|]. intros phys.
  apply stays_bind; [auto with stays|]. intros valid. apply stays_if; [apply stays_throw|].
  apply stays_tenant. intros gi' Egi'. apply stays_bind; [apply stays_put; cbn; by rewrite addGraphToGraph_id|]. intros _.
  ids_tac.
Qed.
Lemma stays_remove_gre x gid e : stays (with_ids x) (remove_gre_on_switch gid e : prog GM unit).
Proof. unfold remove_gre_on_switch. ids_tac. Qed.
Lemma stays_remove_nf x gid nf : stays (with_ids x) (remove_nf_on_switch gid nf : prog GM unit).
Proof. unfold remove_nf_on_switch. ids_tac. Qed.
Lemma stays_remove_rule x gid r : stays (with_ids x) (remove_rule_on_switch garbage gid r : prog GM unit).
Proof. unfold remove_rule_on_switch. ids_tac. Qed.
Lemma stays_updateGraph_remove x gid g : stays (with_ids x) (updateGraph_remove garbage gid g : prog GM bool).
Proof.
  pose proof stays_remove_gre. pose proof stays_remove_nf. pose proof stays_remove_rule. unfold updateGraph_remove.
  apply stays_bind; [apply stays_gets|]. intros known. apply stays_bind; [apply stays_assert|]. intros _.
  apply stays_tenant. intros gi Egi. cbn zeta. apply stays_of_out_bind. intros [g' infos] E%of_res_ret%removeGraphFromGraph_id.
  apply stays_bind; [apply stays_put; cbn; by rewrite E|]. intros _. ids_tac.
Qed.
Lemma stays_updateGraph x gid g : stays (with_ids x) (updateGraph stale garbage un_interface gid g : prog GM bool).
Proof.
  pose proof stays_updateGraph_add. pose proof stays_updateGraph_remove. unfold updateGraph, updateGraph_add_rules. ids_tac.
Qed.

Lemma stays_set_internal x i cr t c :
  stays (with_ids x) (modify (fun s : GM => set_internal (i s) (cr s) (t s) (c s) s)).
Proof. apply stays_modify. by intros. Qed.
Lemma stays_handleController x g : stays (with_ids x) (handleControllerForInternalEndpoint g : prog GM unit).
Proof.
  unfold handleControllerForInternalEndpoint. apply stays_for_each. intros e. cbn zeta. apply stays_bind; [apply stays_gets|].
  intros b. apply stays_if; [apply stays_ret|]. apply stays_bind; [apply stays_iview, keeps_new_controller|]. ids_tac.
Qed.
Lemma stays_handleGraph x g : stays (with_ids x) (handleGraphForInternalEndpoint garbage no_dpid g : prog GM unit).
Proof.
  unfold handleGraphForInternalEndpoint, extend_internal, create_internal, internal_ctl. apply stays_for_each. intros e. cbn zeta.
  apply stays_bind; [apply stays_look|]. intros info. apply stays_bind; [apply stays_gets|]. intros b. apply stays_if.
  - apply stays_of_out_bind. intros l _. apply stays_bind; [apply stays_gets|]. intros d. apply stays_bind.
    + intros s Hs. unfold on_vstate. by destruct (new_internal_link d _) as [v o].
    + intros [l' o]. ids_tac.
  - ids_tac.
Qed.
Lemma stays_release x gid e : stays (with_ids x) (release_internal garbage gid e : prog GM unit).
Proof.
  unfold release_internal, destroy_internal, shrink_internal. cbn zeta. apply stays_bind; [apply stays_look|]. ids_tac.
Qed.
End update.

(** ** The laws *)
Section laws.
Context {SW CC NODE : Type} `{!SwitchOps SW} `{!ComputeOps CC NODE}.
Context (stale : string -> string) (garbage : bool) (no_dpid : Z) (un_interface : string).
#[local] Abbreviation GM := (GM (SW := SW) (CC := CC) (NODE := NODE)).
Implicit Types (x : gmap string string).

Lemma install_ends g l ctl cc x :
  ends (with_ids x) (fun _ => with_ids (<[g_id g := g_id g]> x)) (with_ids x)
    (install_graph stale garbage g l ctl cc : prog GM unit).
Proof.
  unfold install_graph. do 2 (eapply ends_bind; [apply ends_stays; [apply stays_gets|done]|intros ?]).
  apply ends_of_out; [done|]. intros t0 _.
  eapply ends_bind; [apply ends_stays; [apply (stays_modify (with_ids x)); by intros|done]|intros ?].
  apply ends_of_out; [done|]. intros t1 _. apply ends_of_out; [done|]. intros c _.
  intros s Hs. unfold mbind, prog_bind, put_tenant, modify, lsi0_ctl. destruct (step _ _ _); [|done].
  unfold with_ids, ids. cbn. rewrite fmap_insert. by rewrite <- Hs.
Qed.
Lemma undo_ends {A} g l cc x (Q : A -> GM -> Prop) : ends (with_ids x) Q (with_ids x) (undo_tenant g l cc : prog GM A).
Proof.
  unfold undo_tenant. eapply ends_bind; [apply ends_stays; [apply stays_with_cc|done]|intros ?].
  eapply ends_bind; [apply ends_stays; [apply stays_on_sw|done]|intros ?]. by intros s Hs.
Qed.
Lemma newGraph_ends g x :
  ends (with_ids x) (fun b : bool => with_ids (if b then <[g_id g := g_id g]> x else x)) (with_ids x)
    (newGraph stale garbage no_dpid un_interface g : prog GM bool).
Proof.
  assert (Hst : forall A (m : prog GM A), stays (with_ids x) m -> ends (with_ids x) (fun _ => with_ids x) (with_ids x) m).
  { intros. by apply ends_stays. }
  intros s0 Hs0. unfold newGraph. unfold mbind at 1, prog_bind at 1, gets at 1. unfold mbind at 1, prog_bind at 1, prog_assert at 1.
  destruct (has_key (gm_tenants s0) (g_id g)) eqn:Ek; [done|]. cbn [negb out_assert].
  assert (Hno : x !! g_id g = None).
  { rewrite <- Hs0. unfold ids. rewrite lookup_fmap. unfold has_key in Ek. apply bool_decide_eq_false, eq_None_not_Some in Ek.
    by rewrite Ek. }
  revert s0 Hs0 Ek. match goal with |- forall s0, _ -> _ -> match ?m s0 with _ => _ end =>
    assert (He : ends (with_ids x) (fun b : bool => with_ids (if b then <[g_id g := g_id g]> x else x)) (with_ids x) m);
    [|intros s0 Hs0 _; exact (He s0 Hs0)] end.
  eapply ends_bind; [apply Hst, stays_gets|intros ph]. eapply ends_bind; [apply Hst, stays_with_cc|intros [cc valid]].
  destruct valid; cbn [negb]; [|by apply ends_ret]. eapply ends_bind; [apply Hst, stays_iview, keeps_new_controller|intros ctl].
  eapply ends_bind; [apply Hst, stays_with_cc|intros [cc1 sel]]. destruct sel; cbn [negb]; [|by intros s Hs].
  eapply ends_bind; [apply Hst, stays_iview, keeps_new_vlinks|intros vls].
  apply ends_of_out; [done|]. intros [[types ports]|] _; [|by apply ends_ret].
  eapply ends_bind; [apply Hst, stays_iview, keeps_new_tenant_lsi|intros l].
  eapply ends_bind; [apply Hst, stays_with_cc|intros [cc2 st]]. destruct st; cbn [negb]; [|apply undo_ends].
  eapply ends_bind; [apply Hst, stays_handleController|intros ?].
  eapply ends_bind; [eapply ends_catch; [apply Hst, stays_handleGraph|apply undo_ends|done]|intros ?].
  eapply ends_bind; [eapply ends_catch; [apply install_ends| |done]|intros ?; by apply ends_ret].
  eapply ends_bind; [apply Hst, stays_with_cc|intros ?]. eapply ends_bind; [apply Hst, stays_on_sw|intros ?].
  intros s Hs. unfold mbind, prog_bind, modify, throw, with_ids, ids. cbn. rewrite fmap_delete.
  fold (ids s). rewrite Hs. by apply delete_id.
Qed.

Lemma deleteGraph_ends gid x :
  map_Forall eq x ->
  ends (with_ids x) (fun b : bool => with_ids (if b then delete gid x else x))
    (fun s => with_ids x s \/ with_ids (delete gid x) s) (GraphManager.deleteGraph garbage gid : prog GM bool).
Proof.
  intros Hx. assert (Hst : forall A (m : prog GM A), stays (with_ids x) m ->
    ends (with_ids x) (fun _ => with_ids x) (fun s => with_ids x s \/ with_ids (delete gid x) s) m).
  { intros A m H. apply ends_stays; auto. }
  unfold GraphManager.deleteGraph. eapply ends_bind; [apply Hst, stays_gets|intros known].
  destruct known; cbn [negb]; [|by apply ends_ret].
  intros s0 Hs0. unfold mbind at 1, prog_bind at 1, tenant at 1. destruct (gm_tenants s0 !! gid) as [gi|] eqn:Egi; [|done].
  cbn [deref]. cbn zeta. assert (Eid : g_id (gi_graph gi) = gid).
  { symmetry. apply (Hx gid). rewrite <- Hs0. unfold ids. by rewrite lookup_fmap, Egi. }
  rewrite Eid. revert s0 Hs0 Egi. match goal with |- forall s0, _ -> _ -> match ?m s0 with _ => _ end =>
    assert (He : ends (with_ids x) (fun b : bool => with_ids (if b then delete gid x else x))
      (fun s => with_ids x s \/ with_ids (delete gid x) s) m); [|intros s0 Hs0 _; exact (He s0 Hs0)] end.
  do 2 (eapply ends_bind; [apply Hst, stays_gets|intros ?]). apply ends_of_out; [auto|]. intros t0 _.
  eapply ends_bind; [apply Hst, stays_gets|intros low]. apply ends_of_out; [auto|]. intros low0 _.
  eapply ends_bind; [apply Hst, (stays_modify (with_ids x)); by intros|intros ?].
  eapply ends_bind; [apply Hst, stays_lsi0_ctl|intros ?]. eapply ends_bind; [apply Hst, stays_on_cc|intros ?].
  eapply ends_bind; [apply Hst, stays_try; [apply stays_on_sw|apply stays_throw]|intros ?].
  eapply ends_bind; [apply Hst, stays_look|intros gi'].
  eapply (ends_bind _ (fun _ => with_ids (delete gid x))).
  { intros s Hs. unfold modify, with_ids, ids. cbn. rewrite fmap_delete. by rewrite <- Hs. }
  intros ?. eapply ends_bind; [apply ends_stays; [apply stays_for_each; intros e; apply stays_release|by right]|intros ?].
  by apply ends_ret.
Qed.

Lemma exists_ids n (s : GM) : graphExists n s = bool_decide (is_Some (ids s !! n)).
Proof. unfold graphExists, has_key, ids. apply bool_decide_ext. by rewrite lookup_fmap, fmap_is_Some. Qed.
End laws.

(** The graph manager, as the server sees it. *)
#[export] Instance manager_laws {SW CC NODE} `{!SwitchOps SW} `{!ComputeOps CC NODE} stale garbage no_dpid un_interface :
  GraphLaws (GraphOps0 := manager_ops stale garbage no_dpid un_interface) (GM (SW := SW) (CC := CC) (NODE := NODE)).
Proof.
  refine {| gl_inv s := map_Forall eq (ids s) |}.
  - intros g s Hi. cbn. pose proof (newGraph_ends stale garbage no_dpid un_interface g (ids s) s eq_refl) as H.
    destruct (newGraph _ _ _ _ g s) as [s' [[]|e|f]]; [| | |done]; rewrite H.
    + split; [by apply map_Forall_insert_2|]. intros n. rewrite !exists_ids, H.
      destruct (decide (n = g_id g)) as [->|Hne].
      * rewrite lookup_insert_eq. by rewrite !bool_decide_true by eauto.
      * rewrite lookup_insert_ne by done. by rewrite (bool_decide_false (n = _)).
    + split; [done|]. intros n. by rewrite !exists_ids, H.
    + split; [done|]. intros n. by rewrite !exists_ids, H.
  - intros gid g s Hi. cbn. pose proof (stays_updateGraph stale garbage un_interface (ids s) gid g s eq_refl) as H.
    destruct (updateGraph _ _ _ gid g s) as [s' [b|e|f]]; [| |done]; rewrite H; (split; [done|]); intros n; by rewrite !exists_ids, H.
  - intros gid s Hi. cbn. pose proof (deleteGraph_ends garbage gid (ids s) Hi s eq_refl) as H.
    destruct (GraphManager.deleteGraph garbage gid s) as [s' [[]|e|f]]; [| | |done].
    + rewrite H. split; [by apply map_Forall_delete|]. intros n. rewrite !exists_ids, H.
      destruct (decide (n = gid)) as [->|Hne].
      * rewrite lookup_delete_eq. rewrite (bool_decide_true (gid = gid)) by done. by rewrite bool_decide_false by (by intros [? ?]).
      * rewrite lookup_delete_ne by done. by rewrite (bool_decide_false (n = _)).
    + rewrite H. split; [done|]. intros n. by rewrite !exists_ids, H.
    + destruct H as [H|H]; rewrite H; (split; [by try apply map_Forall_delete|]); intros n; rewrite !exists_ids, H; [done|].
      rewrite !bool_decide_eq_true. intros [y Hy]. apply lookup_delete_Some in Hy as [_ Hy]. eauto.
Defined.
