(* ===== verification/RestAuth.v ===== *)
(** * The REST server: clients, tokens and bodies

    What a client must show, what a token gives, what the permissions protect,
    and how the pieces of a body are put together. *)

From Stdlib Require Import ZArith Lia String Ascii.
From stdpp Require Import gmap strings numbers base list.
From S2P Require Import Prelude Cpp Json HighLevel HLGraph Lsi GraphParser UserDb UserDbOk RestServer RestOk.

(** ** Bodies *)

(** The calls for the pieces of a body, then the last one. *)
Definition receive_all (ps : list piece) (c : con_info) : out con_info := out_fold (fun c p => receive p c) c ps.

Lemma until_nul_app l l' : NUL ∉ l -> until_nul (l ++ l') = l ++ until_nul l'.
Proof.
  induction l as [|x l IH]; intros H; [done|]. cbn [until_nul app]. apply not_elem_of_cons in H as [Hx Hl].
  destruct (Ascii.eqb_spec x NUL) as [->|_]; [done|]. by rewrite IH.
Qed.
Lemma length_until_nul l : (length (until_nul l) <= length l)%nat.
Proof. induction l as [|x l IH]; [done|]. cbn. destruct (Ascii.eqb x NUL); cbn; lia. Qed.

(** [m] holds [l] from its first character on. *)
Definition holds (m : nat -> ascii) (l : list ascii) : Prop := forall i x, l !! i = Some x -> m i = x.

Lemma holds_write m l t : holds m l -> holds (write_at m (length l) t) (l ++ t).
Proof.
  intros H i x Hi. unfold write_at. destruct (i <? length l)%nat eqn:E.
  - apply Nat.ltb_lt in E. rewrite lookup_app_l in Hi by done. by apply H.
  - apply Nat.ltb_ge in E. rewrite lookup_app_r in Hi by done. by rewrite Hi.
Qed.
Lemma holds_prefix m l t : holds m (l ++ t) -> holds m l.
Proof. intros H i x Hi. apply H. rewrite lookup_app_l; [done|]. by eapply lookup_lt_Some. Qed.

Lemma read_holds m l l0 fuel :
  NUL ∉ l -> holds m (l0 ++ l ++ [NUL]) -> (length l < fuel)%nat -> read_message fuel m (length l0) = l.
Proof.
  revert l0 fuel. induction l as [|x l IH]; intros l0 [|fuel] Hn Hh Hf; cbn in Hf; try lia; cbn [read_message].
  - assert (m (length l0) = NUL) as -> by (apply Hh; by apply list_lookup_middle). done.
  - apply not_elem_of_cons in Hn as [Hx Hn]. assert (m (length l0) = x) as -> by (apply Hh; by apply list_lookup_middle).
    destruct (Ascii.eqb_spec x NUL) as [->|_]; [done|]. f_equal.
    replace (S (length l0)) with (length (l0 ++ [x])) by (rewrite length_app; cbn; lia). apply IH; [done| |lia].
    by rewrite <- app_assoc.
Qed.

Lemma receive_step p m n :
  NUL ∉ p_data p -> (N.of_nat (n + length (p_data p) + length (p_after p)) < REQ_SIZE)%N ->
  receive p {| ci_message := Some m; ci_length := n |}
    = Ret {| ci_message := Some (write_at m n ((p_data p ++ until_nul (p_after p)) ++ [NUL])); ci_length := n + length (p_data p) |}.
Proof.
  intros Hp Hf. unfold receive. cbn [ci_message ci_length]. rewrite (until_nul_app _ _ Hp).
  pose proof (length_until_nul (p_after p)) as Hu.
  by rewrite (proj2 (N.leb_le _ _)) by (rewrite !length_app; cbn [length]; lia).
Qed.

Definition bytes_of (ps : list piece) : list ascii := concat (p_data <$> ps).

Lemma receive_all_holds ps m l total :
  Forall (fun p => NUL ∉ p_data p) ps ->
  Forall (fun p => (N.of_nat (total + length (p_after p)) < REQ_SIZE)%N) ps ->
  (length l + length (bytes_of ps) <= total)%nat -> holds m l ->
  exists m', receive_all ps {| ci_message := Some m; ci_length := length l |}
    = Ret {| ci_message := Some m'; ci_length := length (l ++ bytes_of ps) |} /\ holds m' (l ++ bytes_of ps).
Proof.
  intros Hn. revert m l. induction Hn as [|p ps Hp _ IH]; intros m l Hf Ht Hm.
  { exists m. unfold bytes_of. cbn. by rewrite app_nil_r. }
  inversion Hf as [|? ? Hfp Hfps]; subst. unfold bytes_of in Ht. cbn in Ht. rewrite length_app in Ht.
  unfold receive_all. cbn [out_fold]. rewrite receive_step by (done || lia). cbn [mbind out_bind].
  destruct (IH (write_at m (length l) ((p_data p ++ until_nul (p_after p)) ++ [NUL])) (l ++ p_data p)) as (m' & E & H').
  - done.
  - rewrite length_app. unfold bytes_of. lia.
  - apply (holds_prefix _ _ (until_nul (p_after p) ++ [NUL])).
    replace ((l ++ p_data p) ++ until_nul (p_after p) ++ [NUL]) with (l ++ (p_data p ++ until_nul (p_after p)) ++ [NUL])
      by (by rewrite <- !app_assoc). by apply holds_write.
  - rewrite length_app in E. unfold receive_all in E. rewrite E. unfold bytes_of. cbn. rewrite <- app_assoc in *. by exists m'.
Qed.

(** C16: the pieces of a body that has no NUL are put together exactly,
    whatever the buffer held before: after the last call the message is the
    concatenation of the pieces. Every piece is copied with [strcpy], which
    goes on to the next NUL in memory; the condition is that the body and what
    lies behind a piece ([p_after]) together are shorter than the buffer, for
    every piece. What is behind a piece is otherwise arbitrary; when it does
    not fit the buffer is overrun. *)
Theorem message_reassembled junk method ps :
  method <> GET ->
  Forall (fun p => NUL ∉ p_data p) ps ->
  Forall (fun p => (N.of_nat (length (bytes_of ps) + length (p_after p)) < REQ_SIZE)%N) ps ->
  exists c c', receive_all ps (new_con junk method) = Ret c /\ terminate_message c = Ret c'
    /\ message c' = Ret (string_of_list_ascii (bytes_of ps)) /\ ci_length c' = length (bytes_of ps).
Proof.
  intros Hm Hn Hf. unfold new_con. rewrite bool_decide_false by done.
  destruct (receive_all_holds ps junk [] (length (bytes_of ps)) Hn Hf) as (m & E & Hh); [done|by intros [|i] x|].
  change (length []) with 0%nat in E. rewrite E. cbn [app] in *.
  assert (Hsize : (N.of_nat (length (bytes_of ps)) < REQ_SIZE)%N).
  { destruct ps as [|p ps]; [done|]. inversion Hf; subst. lia. }
  eexists _, _. split_and!; [done| | |].
  - unfold terminate_message. cbn [ci_message ci_length]. by rewrite (proj2 (N.ltb_lt _ _)).
  - unfold message. cbn [ci_message]. do 2 f_equal. apply (read_holds _ (bytes_of ps) []).
    + unfold bytes_of. clear -Hn. induction Hn as [|p ps Hp _ IH]; cbn; [apply not_elem_of_nil|].
      by apply not_elem_of_app.
    + cbn [app]. by apply holds_write.
    + lia.
  - done.
Qed.

Lemma message_reassembled_witness :
  "PUT" <> GET /\ exists c c',
    receive_all [ {| p_data := ["a"; "b"]; p_after := ["x"; NUL] |}; {| p_data := ["c"]; p_after := [] |} ]%char
      (new_con (fun _ => "z"%char) "PUT") = Ret c
    /\ terminate_message c = Ret c' /\ message c' = Ret "abc" /\ ci_length c' = 3%nat.
Proof.
  split; [done|].
  destruct (message_reassembled (fun _ => "z"%char) "PUT"
    [ {| p_data := ["a"; "b"]; p_after := ["x"; NUL] |}; {| p_data := ["c"]; p_after := [] |} ]%char) as (c & c' & H).
  - done.
  - repeat constructor; cbn; apply (bool_decide_unpack _); vm_compute; reflexivity.
  - repeat constructor; vm_compute; reflexivity.
  - exists c, c'. exact H.
Defined.

(** ** Clients *)
Section clients.
Context {M : Type} `{!GraphOps M}.
Context (scan : list row -> list row) (read : string -> json) (SHA256 : string -> list Z) (mem : memory).
Abbreviation server := (server (M := M)).
Implicit Types (s : server) (d : store).

Lemma secured_ok s d {A} (k : bool -> prog server A) : sv_db s = Some d -> (secured ≫= k) s = k true s.
Proof. intros E. unfold mbind, prog_bind, secured, gets. by rewrite E, bool_decide_true by eauto. Qed.
Lemma set_db_id s d : sv_db s = Some d -> set_db d s = s.
Proof. intros E. unfold set_db. rewrite <- E. by destruct s. Qed.
Lemma query_ok s d {A B} (f : store -> A) (k : A -> prog server B) : sv_db s = Some d -> (query f ≫= k) s = k (f d) s.
Proof. intros E. unfold mbind, prog_bind, query, on_db, gets. by rewrite E, (set_db_id _ _ E). Qed.
Lemma query_out_ok s d {A B} (f : store -> out A) (k : A -> prog server B) :
  sv_db s = Some d -> (query_out f ≫= k) s = match f d with Ret a => k a s | Throw e => (s, Throw e) | Halt e => (s, Halt e) end.
Proof. intros E. unfold mbind, prog_bind, query_out, on_db. rewrite E, (set_db_id _ _ E). by destruct (f d). Qed.

(** The parts of the URL of a request. *)
Definition parts (q : request) : string * string * string :=
  url_parts (String.substring 1 (String.length (q_url q) - 1) (q_url q)).

(** A request with a token is handed to [operate], for the user of the token. *)
Lemma doOperation_token q c random now s d token :
  sv_db s = Some d -> routine_checks q c = None -> isLoginRequest (q_method q) (q_url q) = false ->
  q_token q = Some token -> isAuthenticated token d = true -> String.prefix "/" (q_url q) = true ->
  doOperation scan read SHA256 mem q c random now s
    = operate scan read SHA256 mem q c (getUserByToken scan token d) s.
Proof.
  intros E Hc Hl Ht Ha Hp. unfold doOperation. rewrite Hc, (secured_ok _ _ _ E), Hl. cbn [andb].
  rewrite Ht, (query_ok _ _ _ _ E), Ha. cbn [negb]. unfold mbind at 1, prog_bind at 1, prog_assert. rewrite Hp. cbn [out_assert].
  by rewrite (query_ok _ _ _ _ E).
Qed.
Lemma operate_single q c usr gr r s :
  parts q = (gr, r, "") -> gr <> "" -> r <> "" ->
  operate scan read SHA256 mem q c usr s = operation_single scan read SHA256 mem q c usr (q_method q) gr r s.
Proof.
  intros Hp Hg Hr. unfold operate. unfold parts in Hp. rewrite Hp. cbn zeta. cbn beta.
  by rewrite (bool_decide_false (gr = "")), (bool_decide_false (r = "")) by done.
Qed.
End clients.

(** C12: with authentication on, a request other than a login whose token is
    missing or is not that of a login is answered with an error or refused, and
    changes neither the graphs nor the database. *)
Theorem unauthenticated_rejected {M} `{!GraphOps M} scan read SHA256 mem q c random now (s : server (M := M)) d :
  sv_db s = Some d -> isLoginRequest (q_method q) (q_url q) = false ->
  (forall token, q_token q = Some token -> isAuthenticated token d = false) ->
  exists a, doOperation scan read SHA256 mem q c random now s = (s, Ret a)
    /\ (a = Refused \/ exists code, a = Queued {| r_code := code; r_headers := []; r_body := Empty |}
                                  /\ code ∈ [MHD_HTTP_BAD_REQUEST; MHD_HTTP_UNSUPPORTED_MEDIA_TYPE; MHD_HTTP_UNAUTHORIZED]).
Proof.
  intros E Hl Ht. unfold doOperation. destruct (routine_checks q c) as [code|] eqn:Hc.
  - eexists. split; [done|]. right. exists code. split; [done|]. revert Hc. unfold routine_checks.
    repeat case_match; intros [=]; subst; repeat (first [left|right]); done.
  - rewrite (secured_ok _ _ _ E), Hl. cbn [andb]. destruct (q_token q) as [token|].
    + rewrite (query_ok _ _ _ _ E), (Ht token eq_refl). cbn [negb]. eexists. split; [done|]. right.
      eexists. split; [done|]. do 2 right. left.
    + eexists. split; [done|]. by left.
Qed.

(** ** Tokens *)
Section tokens.
Context (scan : list row -> list row) (Hscan : forall l, Permutation (scan l) l).

Definition user_row (x : row) (token : string) : user_info :=
  {| ui_user := column x 0; ui_group := column x 2; ui_pwd := column x 1; ui_token := Some token |}.

Lemma isAuthenticated_spec token d : db_ok d -> isAuthenticated token d = true <-> exists l, l ∈ rows LOGIN d /\ column l 0 = Some token.
Proof.
  intros Hok. unfold isAuthenticated. rewrite (count_pos LOGIN _ d Hok ltac:(done)). apply exist_proper. intros l.
  rewrite where_eq_spec, Forall_singleton. done.
Qed.
(** The users of a token: those with the name the login has. *)
Lemma token_users token d l u x :
  db_ok d -> l ∈ rows LOGIN d -> column l 0 = Some token -> column l 1 = Some u ->
  x ∈ select scan USERS (fun x => bool_decide (column x 0 ∈ ((fun l => column l 1) <$> matching LOGIN (where_eq [(0%nat, token)]) d))) d
  <-> x ∈ rows USERS d /\ column x 0 = Some u.
Proof.
  intros Hok Hl E0 E1. rewrite elem_of_select by done. apply and_iff_compat_l. rewrite bool_decide_eq_true, list_elem_of_fmap.
  split.
  - intros (l' & -> & [Hw Hl']%list_elem_of_filter).
    assert (l' = l) as ->; [|done]. apply (by_key [(0%nat, token)] LOGIN d); [done|done|left|done..|].
    by apply where_eq_spec, Forall_singleton.
  - intros Ex. exists l. split; [congruence|]. apply list_elem_of_filter. split; [|done]. apply where_eq_spec, Forall_singleton. done.
Qed.
Lemma getUserByToken_known token d l u x :
  db_ok d -> l ∈ rows LOGIN d -> column l 0 = Some token -> column l 1 = Some u ->
  x ∈ rows USERS d -> column x 0 = Some u -> getUserByToken scan token d = Some (user_row x token).
Proof.
  intros Hok Hl E0 E1 Hx Ex. unfold getUserByToken. rewrite !(prepare_names _ _ Hok), !bool_decide_true by done. cbn [andb].
  pose proof (fun x => token_users token d l u x Hok Hl E0 E1) as Hspec.
  revert Hspec. destruct (select _ _ _ _) as [|x' rs]; intros Hspec.
  - destruct (Hspec x) as [_ H]. exfalso. by eapply elem_of_nil, H.
  - cbn. destruct (Hspec x') as [H _]. destruct H as [Hx' Ex']; [left|].
    assert (x' = x) as ->; [|done]. apply (by_key [(0%nat, u)] USERS d); try done; [left|by apply where_eq_spec, Forall_singleton..].
Qed.
Lemma getUserByToken_unknown token d l u :
  db_ok d -> l ∈ rows LOGIN d -> column l 0 = Some token -> column l 1 = Some u ->
  (forall x, x ∈ rows USERS d -> column x 0 <> Some u) -> getUserByToken scan token d = None.
Proof.
  intros Hok Hl E0 E1 Hx. unfold getUserByToken. rewrite !(prepare_names _ _ Hok), !bool_decide_true by done. cbn [andb].
  pose proof (fun x => token_users token d l u x Hok Hl E0 E1) as Hspec.
  revert Hspec. destruct (select _ _ _ _) as [|x' rs]; intros Hspec; [done|]. destruct (Hspec x') as [H _]. destruct H as [Hx' Ex']; [left|].
  by destruct (Hx x' Hx').
Qed.

(** The fields of a user are there. *)
Lemma user_row_full x d token : db_ok d -> x ∈ rows USERS d ->
  exists u p g, x = [u; p; g] /\ user_row x token = {| ui_user := Some u; ui_pwd := Some p; ui_group := Some g; ui_token := Some token |}.
Proof.
  intros Hok Hx. destruct (table_lookup USERS d Hok ltac:(done)) as (tb & _ & Htb & Er). rewrite Er in Hx.
  pose proof (tok_arity _ _ Htb) as Ha. rewrite Forall_forall in Ha. specialize (Ha x Hx). vm_compute in Ha.
  destruct x as [|u [|p [|g [|]]]]; try done. by exists u, p, g.
Qed.
Lemma login_row_full l d : db_ok d -> l ∈ rows LOGIN d -> exists t u z, l = [t; u; z].
Proof.
  intros Hok Hx. destruct (table_lookup LOGIN d Hok ltac:(done)) as (tb & _ & Htb & Er). rewrite Er in Hx.
  pose proof (tok_arity _ _ Htb) as Ha. rewrite Forall_forall in Ha. specialize (Ha l Hx). vm_compute in Ha.
  destruct l as [|t [|u [|z [|]]]]; try done. by exists t, u, z.
Qed.

Lemma not_a_table : CURRENT_RESOURCE_PERMISSIONS ∉ table_names.
Proof. intros H%(bool_decide_pack _). vm_compute in H. done. Qed.
(** The query of [CURRENT_RESOURCE_PERMISSIONS] is never compiled. *)
Lemma isAuthorized_any d x token op gr r :
  db_ok d -> x ∈ rows USERS d -> op <> op_CREATE -> isAuthorized scan (Some (user_row x token)) op gr r d = Ret true.
Proof.
  intros Hok Hx Hop. destruct (user_row_full x d token Hok Hx) as (u & p & g & _ & ->). unfold isAuthorized.
  cbn [ui_user ui_pwd ui_group ui_token]. rewrite decide_False by done. by rewrite (first_row_none scan _ _ _ not_a_table Hok).
Qed.
End tokens.

(** ** What the permissions protect *)
Section single.
Context {M : Type} `{!GraphOps M}.
Context (scan : list row -> list row) (read : string -> json) (SHA256 : string -> list Z) (mem : memory).
Abbreviation server := (server (M := M)).

Lemma authorized_ok s d usr op gr r b {B} (k : bool -> prog server B) :
  sv_db s = Some d -> isAuthorized scan usr op gr r d = b -> (authorized scan usr op gr r ≫= k) s =
    match b with Ret a => k a s | Throw e => (s, Throw e) | Halt e => (s, Halt e) end.
Proof.
  intros E <-. unfold mbind at 1, prog_bind at 1. unfold authorized. rewrite (secured_ok _ _ _ E).
  unfold query_out, on_db. rewrite E, (set_db_id _ _ E). by destruct (isAuthorized _ _ _ _ _ _).
Qed.
End single.

(** C14: the permissions of single resources are not enforced: whoever is logged
    in, a GET or a DELETE of one graph, user or group reaches its handler, on
    every database of the schema. *)
Theorem permissions_not_enforced {M} `{!GraphOps M} scan read SHA256 mem q c random now (s : server (M := M)) d l x u token gr r :
  (forall l, Permutation (scan l) l) -> sv_db s = Some d -> db_ok d ->
  l ∈ rows LOGIN d -> column l 0 = Some token -> column l 1 = Some u -> x ∈ rows USERS d -> column x 0 = Some u ->
  routine_checks q c = None -> String.prefix "/" (q_url q) = true -> q_token q = Some token ->
  parts q = (gr, r, "") -> gr <> "" -> r <> "" ->
  (q_method q = GET -> doOperation scan read SHA256 mem q c random now s =
     (if bool_decide (gr = BASE_URL_GRAPH) then readGraph r
      else if bool_decide (gr = BASE_URL_USER) then readUser scan r else httpResponse MHD_HTTP_NOT_IMPLEMENTED) s)
  /\ (q_method q = DELETE -> doOperation scan read SHA256 mem q c random now s =
     (if bool_decide (gr = BASE_URL_GRAPH) then deleteGraph r
      else if bool_decide (gr = BASE_URL_USER) then deleteUser r
      else if bool_decide (gr = BASE_URL_GROUP) then deleteGroup r else httpResponse MHD_HTTP_NOT_IMPLEMENTED) s).
Proof.
  intros Hs E Hok Hl E0 E1 Hx Ex Hc Hp Ht Hparts Hg Hr.
  assert (Ha : isAuthenticated token d = true) by (apply isAuthenticated_spec; eauto).
  assert (Hop : forall m, q_method q = m -> m <> POST -> doOperation scan read SHA256 mem q c random now s =
    operation_single scan read SHA256 mem q c (Some (user_row x token)) m gr r s).
  { intros m Hm Hne. rewrite (doOperation_token scan read SHA256 mem q c random now s d token); try done.
    - rewrite (getUserByToken_known scan Hs token d l u x Hok Hl E0 E1 Hx Ex). rewrite (operate_single _ _ _ _ _ _ _ gr r) by done.
      by rewrite Hm.
    - unfold isLoginRequest. rewrite Hm. by rewrite bool_decide_false. }
  pose proof (fun op => isAuthorized_any scan d x token op gr r Hok Hx) as Hany.
  split; intros Hm; rewrite (Hop _ Hm) by done.
  - change (operation_single scan read SHA256 mem q c (Some (user_row x token)) GET gr r s) with
      ((ok ← authorized scan (Some (user_row x token)) op_READ gr r;
        if negb ok then httpResponse MHD_HTTP_UNAUTHORIZED
        else if bool_decide (gr = BASE_URL_GRAPH) then readGraph r
        else if bool_decide (gr = BASE_URL_USER) then readUser scan r else httpResponse MHD_HTTP_NOT_IMPLEMENTED) s).
    by rewrite (authorized_ok _ s d _ _ _ _ (Ret true) _ E (Hany op_READ ltac:(done))).
  - change (operation_single scan read SHA256 mem q c (Some (user_row x token)) DELETE gr r s) with
      ((ok ← authorized scan (Some (user_row x token)) op_DELETE gr r;
        if negb ok then httpResponse MHD_HTTP_UNAUTHORIZED
        else if bool_decide (gr = BASE_URL_GRAPH) then deleteGraph r
        else if bool_decide (gr = BASE_URL_USER) then deleteUser r
        else if bool_decide (gr = BASE_URL_GROUP) then deleteGroup r else httpResponse MHD_HTTP_NOT_IMPLEMENTED) s).
    by rewrite (authorized_ok _ s d _ _ _ _ (Ret true) _ E (Hany op_DELETE ltac:(done))).
Qed.

Lemma update_ok {M} `{!GraphOps M} (s : server (M := M)) d f {B} (k : Z -> prog server B) :
  sv_db s = Some d -> (update f ≫= k) s = k (snd (f d)) (set_db (fst (f d)) s).
Proof. intros E. unfold mbind, prog_bind, update, on_db, do_. rewrite E. by destruct (f d). Qed.

(** The database once a user is deleted: the login is still there. *)
Definition without_user (u : string) (d : store) : store :=
  fst (UserDb.deleteUser u (fst (deleteResource BASE_URL_USER u d))).
Lemma without_user_ok u d : db_ok d ->
  db_ok (without_user u d) /\ rows LOGIN (without_user u d) = rows LOGIN d
  /\ forall x, x ∈ rows USERS (without_user u d) -> column x 0 <> Some u.
Proof.
  intros Hok. unfold without_user, UserDb.deleteUser, deleteResource.
  pose proof (sql_delete_ok CURRENT_RESOURCES_PERMISSIONS (where_eq [(0%nat, BASE_URL_USER); (1%nat, u)]) d Hok) as H1.
  split_and!.
  - by apply sql_delete_ok.
  - rewrite !rows_sql_delete by done. by rewrite !decide_False by done.
  - intros x. rewrite rows_sql_delete by done. rewrite decide_True by done. intros [Hx _]%list_elem_of_filter E.
    cbn in Hx. rewrite E, bool_decide_true in Hx; done.
Qed.

(** deleting a user leaves its login behind: the token still passes the
    authentication, and the next GET, PUT or DELETE of a single resource that
    carries it ends the process on an assert. *)
Theorem deleted_user_token_aborts {M} `{!GraphOps M} scan read SHA256 mem (s : server (M := M)) d l u token :
  (forall l, Permutation (scan l) l) -> sv_db s = Some d -> db_ok d ->
  l ∈ rows LOGIN d -> column l 0 = Some token -> column l 1 = Some u -> resourceExists BASE_URL_USER u d = true ->
  exists s', deleteUser u s = (s', Ret (Queued {| r_code := MHD_HTTP_NO_CONTENT; r_headers := []; r_body := Empty |}))
    /\ forall q c random now gr r,
         routine_checks q c = None -> String.prefix "/" (q_url q) = true -> q_token q = Some token ->
         parts q = (gr, r, "") -> gr <> "" -> r <> "" -> q_method q ∈ [GET; PUT; DELETE] ->
         doOperation scan read SHA256 mem q c random now s' = (s', Halt Assert).
Proof.
  intros Hs E Hok Hl E0 E1 Hr. destruct (without_user_ok u d Hok) as (Hok' & Hlog & Hno).
  exists (set_db (without_user u d) s). split.
  - unfold deleteUser. rewrite (secured_ok _ _ _ E). unfold mbind at 1, prog_bind at 1, query, on_db, gets.
    rewrite E, (set_db_id _ _ E), Hr. cbn [negb]. unfold mbind at 1, prog_bind at 1.
    rewrite (update_ok _ _ _ _ E). rewrite (update_ok _ (fst (deleteResource BASE_URL_USER u d))) by done. done.
  - intros q c random now gr r Hc Hp Ht Hparts Hg Hrr Hm. rewrite <- Hlog in Hl.
    rewrite (doOperation_token scan read SHA256 mem q c random now _ (without_user u d) token); try done.
    + rewrite (getUserByToken_unknown scan Hs token _ l u Hok' Hl E0 E1 Hno). rewrite (operate_single _ _ _ _ _ _ _ gr r) by done.
      set (s' := set_db _ s). assert (Es : sv_db s' = Some (without_user u d)) by done.
      rewrite !elem_of_cons, elem_of_nil in Hm. destruct Hm as [->|[->|[->|[]]]]; unfold operation_single.
      * apply (authorized_ok scan s' _ None op_READ gr r (Halt Assert) _ Es). done.
      * apply (authorized_ok scan s' _ None op_CREATE gr r (Halt Assert) _ Es). done.
      * apply (authorized_ok scan s' _ None op_DELETE gr r (Halt Assert) _ Es). done.
    + unfold isLoginRequest. rewrite !elem_of_cons, elem_of_nil in Hm. by destruct Hm as [->|[->|[->|[]]]].
    + apply isAuthenticated_spec; eauto.
Qed.

(** without authentication, the list of the graphs ([GET /NF-FG]) cannot be
    read: the request ends the process on an assert. *)
Theorem listing_without_users_aborts {M} `{!GraphOps M} scan read SHA256 mem q c random now (s : server (M := M)) :
  sv_db s = None -> routine_checks q c = None -> String.prefix "/" (q_url q) = true -> q_method q = GET ->
  parts q = (BASE_URL_GRAPH, "", "") ->
  doOperation scan read SHA256 mem q c random now s = (s, Halt Assert).
Proof.
  intros E Hc Hp Hm Hparts. unfold doOperation. rewrite Hc. unfold mbind at 1, prog_bind at 1, secured, gets.
  rewrite E, bool_decide_false by (by intros [? ?]). cbn [andb]. unfold mbind at 1, prog_bind at 1, prog_assert.
  rewrite Hp. cbn [out_assert]. unfold operate. unfold parts in Hparts. rewrite Hparts, Hm. cbn zeta.
  change ((operation_generic scan None GET BASE_URL_GRAPH : prog server answer) s = (s, Halt Assert)).
  unfold operation_generic. unfold mbind at 1, prog_bind at 1, secured, gets.
  rewrite E, (bool_decide_false (is_Some None)) by (by intros [? ?]). done.
Qed.

(** ** Login *)
Section login.
Context (scan : list row -> list row) (Hscan : forall l, Permutation (scan l) l).

Lemma userExists_spec u p d : db_ok d -> userExists u p d = true -> exists g, [u; p; g] ∈ rows USERS d.
Proof.
  intros Hok H. unfold userExists in H. apply (count_pos USERS _ d Hok ltac:(done)) in H as (x & Hx & Hw).
  destruct (user_row_full x d "" Hok Hx) as (u' & p' & g & -> & _). apply where_eq_spec in Hw.
  inversion Hw as [|? ? H0 Hw']; subst. inversion Hw' as [|? ? H1 _]; subst. injection H0 as ->. injection H1 as ->. by exists g.
Qed.
Lemma isLogged_spec u d : db_ok d -> isLogged u d = true <-> exists t z, [t; u; z] ∈ rows LOGIN d.
Proof.
  intros Hok. unfold isLogged. rewrite (count_pos LOGIN _ d Hok ltac:(done)). split.
  - intros (l & Hl & Hw). destruct (login_row_full l d Hok Hl) as (t & u' & z & ->). apply where_eq_spec in Hw.
    inversion Hw as [|? ? H0 _]; subst. injection H0 as ->. eauto.
  - intros (t & z & Hl). exists [t; u; z]. split; [done|]. by apply where_eq_spec, Forall_singleton.
Qed.
Lemma getLoggedUserByName_spec u d p g t z :
  db_ok d -> [u; p; g] ∈ rows USERS d -> [t; u; z] ∈ rows LOGIN d ->
  getLoggedUserByName scan u d = Some (user_row [u; p; g] t).
Proof.
  intros Hok Hx Hl. unfold getLoggedUserByName. rewrite !(prepare_names _ _ Hok), !bool_decide_true by done. cbn [andb].
  match goal with |- context [scan ?j] => set (joined := j) end.
  assert (Hj : forall r, r ∈ joined <-> r = [u; p; g; t; u; z]).
  { intros r. unfold joined. rewrite list_elem_of_bind. split.
    - intros (x & Hr & [Hw Hx']%list_elem_of_filter).
      assert (x = [u; p; g]) as ->
        by (apply (by_key [(0%nat, u)] USERS d); [done|done|left|done..|by apply where_eq_spec, Forall_singleton]).
      apply list_elem_of_bind in Hr as (l & Hr & [Hw' Hl']%list_elem_of_filter). apply bool_decide_eq_true in Hw'.
      apply list_elem_of_singleton in Hr as ->.
      assert (l = [t; u; z]) as ->; [|done].
      apply (by_key [(1%nat, u)] LOGIN d); [done|done|right; left|done|done|by apply where_eq_spec, Forall_singleton..].
    - intros ->. exists [u; p; g]. split.
      + apply list_elem_of_bind. exists [t; u; z]. split; [left|]. apply list_elem_of_filter. split; [|done].
        by apply bool_decide_eq_true.
      + apply list_elem_of_filter. split; [|done]. by apply where_eq_spec, Forall_singleton. }
  destruct (scan joined) as [|r rs] eqn:Es.
  - destruct (Hj [u; p; g; t; u; z]) as [_ H]. specialize (H eq_refl). rewrite <- (Hscan joined), Es in H. by apply elem_of_nil in H.
  - assert (r ∈ joined) as ->%Hj by (rewrite <- (Hscan joined), Es; left). done.
Qed.
End login.

(** A new token, for a user that has none. *)
Lemma insertLogin_fresh u nonce stamp d :
  db_ok d -> isAuthenticated nonce d = false -> isLogged u d = false ->
  let d' := fst (insertLogin u nonce stamp d) in
  db_ok d' /\ [nonce; u; stamp] ∈ rows LOGIN d' /\ rows USERS d' = rows USERS d.
Proof.
  intros Hok Hfresh El. cbn zeta. unfold insertLogin. split_and!; [by apply sql_insert_ok|..]; rewrite rows_sql_insert by done.
  - rewrite decide_True by done.
    assert (existsb (clash (keys_of LOGIN) [nonce; u; stamp]) (rows LOGIN d) = false) as ->; [|apply elem_of_app; right; left].
    apply no_clash_spec. repeat constructor; intros (r & Er & Hr)%list_elem_of_fmap;
      destruct (login_row_full r d Hok Hr) as (t' & u' & z & ->); injection Er as <-.
    + apply not_true_iff_false in Hfresh. apply Hfresh, isAuthenticated_spec; [done|]. by exists [nonce; u'; z].
    + apply not_true_iff_false in El. apply El, isLogged_spec; eauto.
  - by rewrite decide_False.
Qed.
Lemma login_form u p :
  c_str u = u -> c_str p = p -> (N.of_nat (String.length u) < BUFFER_SIZE)%N -> (N.of_nat (String.length p) < BUFFER_SIZE)%N ->
  parseLoginForm (JObj [("password", JStr p); ("username", JStr u)]) = Ret (Some (u, p)).
Proof.
  intros Hu Hp Lu Lp. unfold parseLoginForm. cbn [getObject mbind out_bind out_fold login_member].
  assert (Hcp : strcpy_to BUFFER_SIZE p = Ret p) by (unfold strcpy_to; rewrite Hp; by rewrite (proj2 (N.ltb_lt _ _))).
  assert (Hcu : strcpy_to BUFFER_SIZE u = Ret u) by (unfold strcpy_to; rewrite Hu; by rewrite (proj2 (N.ltb_lt _ _))).
  rewrite (bool_decide_false ("password" = "username")), (bool_decide_true ("password" = "password")) by done.
  cbn [getString mbind out_bind]. rewrite Hcp. cbn [getString mbind out_bind login_member].
  rewrite (bool_decide_true ("username" = "username")) by done. cbn [getString mbind out_bind]. by rewrite Hcu.
Qed.

(** The hash of a password, when what SHA256 writes behind its array is harmless. *)
Lemma hash_ok {M A} `{!GraphOps M} SHA256 mem p (s : server (M := M)) (k : string -> prog (server (M := M)) A) :
  m_spill mem (drop HASH_SIZE (SHA256 p)) = false ->
  (h ← hash SHA256 mem p; k h) s = k (hash_pwd SHA256 p) s.
Proof.
  intros H. unfold hash, hash_token, of_out, mbind, prog_bind. rewrite H. cbn [mret prog_ret].
  unfold hash_pwd, hex_text. by rewrite take_take, Nat.min_id.
Qed.

(** C13: a login with the name and the password of a user is recorded, and its
    token authenticates for that user.  A user that is logged in already is
    answered with the token of that login, and the database is left as it is.
    Otherwise the random text becomes the token, provided it is not one
    already; what is sent then is [Dangling]: the answer points to the local
    array [nonce], which is gone when the library sends it, so the theorem says
    which token is recorded and not that the client receives it.  [m_spill]:
    the twelve bytes SHA256 writes behind [hash_token] overwrite nothing in
    use; otherwise every login is undefined behaviour. *)
Theorem login_authenticates {M} `{!GraphOps M} scan read SHA256 mem q c temp now (s : server (M := M)) d text u p :
  (forall l, Permutation (scan l) l) -> sv_db s = Some d -> db_ok d ->
  m_spill mem (drop HASH_SIZE (SHA256 p)) = false ->
  isLoginRequest (q_method q) (q_url q) = true -> routine_checks q c = None ->
  message c = Ret text -> read text = JObj [("password", JStr p); ("username", JStr u)] ->
  c_str u = u -> c_str p = p -> (N.of_nat (String.length u) < BUFFER_SIZE)%N -> (N.of_nat (String.length p) < BUFFER_SIZE)%N ->
  userExists u (hash_pwd SHA256 p) d = true -> isAuthenticated (hex_text temp) d = false ->
  exists token b s' d',
    doOperation scan read SHA256 mem q c (Some temp) now s = (s', Ret (token_answer b))
    /\ (if isLogged u d then b = Text token /\ d' = d else b = Dangling token /\ token = hex_text temp)
    /\ sv_gm s' = sv_gm s /\ sv_db s' = Some d' /\ db_ok d' /\ isAuthenticated token d' = true
    /\ exists usr, getUserByToken scan token d' = Some usr /\ ui_user usr = Some u /\ ui_token usr = Some token.
Proof.
  intros Hs E Hok Hsp Hl Hc Hm Hrd Hu Hp Lu Lp Hex Hfresh. destruct (userExists_spec _ _ _ Hok Hex) as (g & Hx).
  assert (Hhost : q_host q = true) by (revert Hc; unfold routine_checks; by destruct (q_host q)).
  unfold doOperation. rewrite Hc, (secured_ok _ _ _ E), Hl. cbn [andb]. unfold login. rewrite (secured_ok _ _ _ E), Hhost.
  cbn [negb]. unfold mbind at 1, prog_bind at 1, read_body, mbind at 1, prog_bind at 1, of_out. rewrite Hm. cbn [mret prog_ret].
  unfold mbind at 1, prog_bind at 1. rewrite Hrd, (login_form u p) by done. rewrite (hash_ok SHA256 mem p s _ Hsp).
  rewrite (query_ok _ _ _ _ E), Hex. cbn [negb].
  rewrite (query_ok _ _ _ _ E). destruct (isLogged u d) eqn:El.
  - apply isLogged_spec in El as (t & z & Hlog); [|done]. rewrite (query_ok _ _ _ _ E).
    rewrite (getLoggedUserByName_spec scan Hs u d _ g t z Hok Hx Hlog). exists t, (Text t), s, d. split; [done|]. split_and!; try done.
    + apply isAuthenticated_spec; [done|]. by exists [t; u; z].
    + exists (user_row [u; hash_pwd SHA256 p; g] t). split_and!; [|done..]. by eapply (getUserByToken_known scan Hs t d).
  - rewrite (update_ok _ _ _ _ E). set (nonce := hex_text temp) in *.
    destruct (insertLogin_fresh u nonce (timestamp now) d Hok Hfresh El) as (Hok' & Hin & Hother).
    set (d' := fst (insertLogin u nonce (timestamp now) d)) in *.
    exists nonce, (Dangling nonce), (set_db d' s), d'. split; [done|]. split_and!; try done.
    + apply isAuthenticated_spec; [done|]. by eexists.
    + exists (user_row [u; hash_pwd SHA256 p; g] nonce). split_and!; [|done..].
      eapply (getUserByToken_known scan Hs nonce); try done. by rewrite Hother.
Qed.
