(* ===== verification/RestSample.v ===== *)
(** * A server at work

    The graph manager on the sample switch and host, the database the initialiser
    leaves, and clients that log in, deploy and delete: the runs the theorems on
    the REST server are applied to. *)

From Stdlib Require Import ZArith Lia String Ascii.
From stdpp Require Import gmap strings numbers base list.
From S2P Require Import Prelude Cpp Json HighLevel HLGraph Lsi Vlinks NFManagers ComputeController GraphManager SwitchSample InternalOk GraphParser ParserOk UserDb UserDbOk RestServer RestOk RestManager RestAuth.

#[export] Instance sample_ops : GraphOps (GM (SW := toy_switch) (CC := CC) (NODE := node Z)) := manager_ops id false 0 "".
Abbreviation site := (server (M := GM (SW := toy_switch) (CC := CC) (NODE := node Z))).

(** A digest, and the texts the clients send. *)
Definition toy_sha (s : string) : list Z := (fun c => Z.of_nat (nat_of_ascii c)) <$> list_ascii_of_string s.
Definition graph_doc : json :=
  JObj [("forwarding-graph", JObj [
    ("big-switch", JObj [("flow-rules", JArr [
       JObj [("actions", JArr [JObj [("output_to_port", JStr "endpoint:f")]]); ("id", JStr "r1");
             ("match", JObj [("port_in", JStr "endpoint:e")]); ("priority", JInt 10)]])]);
    ("end-points", JArr [
       JObj [("id", JStr "e"); ("interface", JObj [("if-name", JStr "eth0")]); ("name", JStr ""); ("type", JStr "interface")];
       JObj [("id", JStr "f"); ("interface", JObj [("if-name", JStr "eth1")]); ("name", JStr ""); ("type", JStr "interface")]]);
    ("id", JStr "g"); ("name", JStr "a graph")])].
Definition login_doc (u p : string) : json := JObj [("password", JStr p); ("username", JStr u)].
Definition user_doc (p g : string) : json := JObj [("group", JStr g); ("password", JStr p)].
Definition toy_body (text : string) : json :=
  if bool_decide (text = "login admin") then login_doc ADMIN "secret"
  else if bool_decide (text = "login bob") then login_doc "bob" "bobpwd"
  else if bool_decide (text = "create bob") then user_doc "bobpwd" ADMIN
  else if bool_decide (text = "graph") then graph_doc else JNull.

(** Destroyed strings keep their text and [hash_token] is followed by padding. *)
Definition toy_mem : memory := {| m_stale := id; m_spill := fun _ => false |}.

Definition text_con (text : string) : con_info :=
  {| ci_message := Some (fun i => default NUL (list_ascii_of_string text !! i)); ci_length := String.length text |}.
Definition call (method url : string) (token : option string) : request :=
  {| q_method := method; q_url := url; q_host := true; q_type := Some JSON_C_TYPE; q_token := token |}.
Definition now : tm := {| tm_mday := 1; tm_mon := 0; tm_year := 100; tm_hour := 9; tm_min := 30 |}.

(** One request, complete. *)
Definition serve (q : request) (text : string) (random : list Z) (s : site) : site * out (con_info * option answer) :=
  answer_to_connection id toy_body toy_sha toy_mem (fun _ => NUL) q None (Some random) now (Some (text_con text)) s.
Definition answered (r : site * out (con_info * option answer)) : option answer :=
  match snd r with Ret (_, a) => a | _ => None end.

Definition site0 : site := {| sv_gm := sample_gm; sv_db := Some (admin_db toy_sha "secret") |}.
Definition site1 : site := Eval vm_compute in fst (init id toy_body true [] site0).
Definition login_admin : request := call "POST" "/login" None.
Definition token1 : string := Eval vm_compute in hex_text (replicate 20 7).
Definition site2 : site := Eval vm_compute in fst (serve login_admin "login admin" (replicate 20 7) site1).
Definition put_graph : request := call "PUT" "/NF-FG/g" (Some token1).
Definition site3 : site := Eval vm_compute in fst (serve put_graph "graph" [] site2).

Example site3_deployed :
  answered (serve put_graph "graph" [] site2) = Some (created BASE_URL_GRAPH "g") /\ go_exists "g" (sv_gm site3) = true.
Proof. vm_compute. split; reflexivity. Qed.

(** The administrator creates bob, bob logs in. *)
Definition post_bob : request := call "POST" "/users/bob" (Some token1).
Definition site4 : site := Eval vm_compute in fst (serve post_bob "create bob" [] site3).
Definition token2 : string := Eval vm_compute in hex_text (replicate 20 9).
Definition site5 : site := Eval vm_compute in fst (serve login_admin "login bob" (replicate 20 9) site4).
Definition db5 : store := Eval vm_compute in default ∅ (sv_db site5).
Example site5_logins : rows LOGIN db5 = [[token1; ADMIN; "1/1/2000 9:31"]; [token2; "bob"; "1/1/2000 9:31"]].
Proof. vm_compute. reflexivity. Qed.

Abbreviation serving_site := (serving id toy_body toy_sha toy_mem : site -> Prop).
Lemma serve_serving q text random s s' :
  serving_site s -> match serve q text random s with (s1, Ret _) => s1 = s' | _ => False end -> serving_site s'.
Proof.
  intros Hs H. destruct (serve q text random s) as [s1 [r|e|f]] eqn:E; [|done..]. subst s1.
  eapply serving_call; [exact Hs|exact E].
Qed.
Lemma site0_started : started site0.
Proof.
  exists (admin_db toy_sha "secret"). split_and!; [done| | |done].
  2: { change (map_Forall eq (ids sample_gm)). unfold ids. cbn [sample_gm gm_tenants]. rewrite fmap_empty. apply map_Forall_empty. }
  assert (E : snd (initDB id toy_sha (fun _ => false) "" "secret" ∅) = Ret true) by (vm_compute; reflexivity).
  pose proof (initDB_ok id toy_sha (fun _ => false) "" "secret") as H. unfold admin_db.
  destruct (initDB id toy_sha (fun _ => false) "" "secret" ∅) as [d o]. cbn [snd] in E. subst o. exact H.
Qed.
Lemma site5_serving : serving_site site5.
Proof.
  apply (serve_serving login_admin "login bob" (replicate 20 9) site4); [|vm_compute; reflexivity].
  apply (serve_serving post_bob "create bob" [] site3); [|vm_compute; reflexivity].
  apply (serve_serving put_graph "graph" [] site2); [|vm_compute; reflexivity].
  apply (serve_serving login_admin "login admin" (replicate 20 7) site1); [|vm_compute; reflexivity].
  apply (serving_init _ _ _ _ site0 []); [apply site0_started|vm_compute; reflexivity].
Qed.
Lemma db5_ok : db_ok db5.
Proof. destruct (serving_ok _ _ _ _ site5 site5_serving) as (d & E & Hok & _). injection E as <-. exact Hok. Qed.

Lemma deployed_graphs_registered_witness :
  serving_site site5 /\ go_exists "g" (sv_gm site5) = true /\ resourceExists BASE_URL_GRAPH "g" db5 = true.
Proof.
  split; [apply site5_serving|]. assert (Hg : go_exists "g" (sv_gm site5) = true) by (vm_compute; reflexivity). split; [exact Hg|].
  destruct (deployed_graphs_registered id toy_body toy_sha toy_mem site5 site5_serving) as (d & E & _ & H).
  injection E as <-. exact (H "g" Hg).
Defined.

Lemma unauthenticated_rejected_witness :
  exists a, doOperation id toy_body toy_sha toy_mem (call "DELETE" "/NF-FG/g" (Some "guess")) (text_con "") None now site5 = (site5, Ret a).
Proof.
  destruct (unauthenticated_rejected id toy_body toy_sha toy_mem (call "DELETE" "/NF-FG/g" (Some "guess")) (text_con "") None now site5 db5)
    as (a & H & _); [reflexivity|reflexivity| |exists a; exact H].
  intros token [= <-]. vm_compute. reflexivity.
Defined.

(** bob deletes the graph of the administrator. *)
Definition delete_graph : request := call "DELETE" "/NF-FG/g" (Some token2).
Lemma permissions_not_enforced_witness :
  doOperation id toy_body toy_sha toy_mem delete_graph (text_con "") None now site5 = deleteGraph "g" site5
  /\ go_exists "g" (sv_gm (fst (deleteGraph "g" site5))) = false.
Proof.
  split; [|vm_compute; reflexivity].
  refine (proj2 (permissions_not_enforced id toy_body toy_sha toy_mem delete_graph (text_con "") None now site5 db5
    [token2; "bob"; "1/1/2000 9:31"] ["bob"; hash_pwd toy_sha "bobpwd"; ADMIN] "bob" token2 BASE_URL_GRAPH "g"
    _ _ db5_ok _ _ _ _ _ _ _ _ _ _ _) _); try (vm_compute; reflexivity); try done.
  - change (rows LOGIN db5) with [[token1; ADMIN; "1/1/2000 9:31"]; [token2; "bob"; "1/1/2000 9:31"]]. right. left.
  - apply (bool_decide_unpack _). vm_compute. exact I.
Defined.
Lemma deleted_user_token_aborts_witness :
  exists s', fst (deleteUser "bob" site5) = s'
    /\ doOperation id toy_body toy_sha toy_mem delete_graph (text_con "") None now s' = (s', Halt Assert).
Proof.
  destruct (deleted_user_token_aborts id toy_body toy_sha toy_mem site5 db5 [token2; "bob"; "1/1/2000 9:31"] "bob" token2
    (fun l => reflexivity l) eq_refl db5_ok ltac:(right; left) eq_refl eq_refl ltac:(vm_compute; reflexivity)) as (s' & E & H).
  exists s'. rewrite E. split; [reflexivity|]. apply (H delete_graph (text_con "") None now BASE_URL_GRAPH "g");
    [vm_compute; reflexivity..|discriminate|discriminate|right; right; left].
Defined.
Lemma listing_without_users_aborts_witness :
  doOperation id toy_body toy_sha toy_mem (call "GET" "/NF-FG" None) (text_con "") None now
    ({| sv_gm := sample_gm; sv_db := None |} : site) = ({| sv_gm := sample_gm; sv_db := None |}, Halt Assert).
Proof. apply listing_without_users_aborts; vm_compute; reflexivity. Defined.

(** The administrator logs in again. *)
Lemma login_authenticates_witness :
  exists token b s' d',
    doOperation id toy_body toy_sha toy_mem login_admin (text_con "login admin") (Some (replicate 20 8)) now site5 = (s', Ret (token_answer b))
    /\ b = Text token /\ sv_db s' = Some d' /\ isAuthenticated token d' = true.
Proof.
  destruct (login_authenticates id toy_body toy_sha toy_mem login_admin (text_con "login admin") (replicate 20 8) now site5 db5 "login admin"
    ADMIN "secret" (fun l => reflexivity l) eq_refl db5_ok eq_refl eq_refl eq_refl ltac:(vm_compute; reflexivity) eq_refl eq_refl eq_refl
    ltac:(reflexivity) ltac:(reflexivity) ltac:(vm_compute; reflexivity) ltac:(vm_compute; reflexivity))
    as (token & b & s' & d' & E & Hb & _ & Ed & _ & Ha & _).
  assert (Hl : isLogged ADMIN db5 = true) by (vm_compute; reflexivity). rewrite Hl in Hb. destruct Hb as [Hb _].
  exists token, b, s', d'. split; [exact E|]. split; [exact Hb|]. split; [exact Ed|exact Ha].
Defined.

(** The groups, read by bob. *)
Definition bob : user_info := user_row ["bob"; hash_pwd toy_sha "bobpwd"; ADMIN] token2.
Lemma groups_ok : resources_ok BASE_URL_GROUP db5.
Proof.
  assert (E : matching CURRENT_RESOURCES_PERMISSIONS (where_eq [(0%nat, BASE_URL_GROUP)]) db5
    = [[BASE_URL_GROUP; ADMIN; ADMIN; "AAA"; "AAA"; "DDD"; "AAA"]]) by (vm_compute; reflexivity).
  intros r Hr Hw. assert (r ∈ matching CURRENT_RESOURCES_PERMISSIONS (where_eq [(0%nat, BASE_URL_GROUP)]) db5) as Hin
    by (by apply list_elem_of_filter).
  rewrite E in Hin. apply list_elem_of_singleton in Hin as ->. split.
  - exists ADMIN, [ADMIN; hash_pwd toy_sha "secret"; ADMIN], ADMIN. split_and!; try reflexivity.
    apply (bool_decide_unpack _). vm_compute. exact I.
  - assert (Ha : flags_ok "AAA") by (split; [reflexivity|intros [|[|[|i]]] Hi; [by left..|lia]]).
    assert (Hd : flags_ok "DDD") by (split; [reflexivity|intros [|[|[|i]]] Hi; [by right..|lia]]).
    intros i Hi. assert (i = 3 \/ i = 4 \/ i = 5 \/ i = 6)%nat as [->|[->|[->| ->]]] by lia; by eexists.
Qed.
Lemma listing_all_or_nothing_witness :
  exists names, getAllowedResourcesNames id (Some bob) op_READ BASE_URL_GROUP db5 = Ret names
    /\ Permutation names [ADMIN]
    /\ isAuthorized_generic id (Some bob) op_READ BASE_URL_GROUP db5 = Ret true.
Proof.
  destruct (listing_all_or_nothing id db5 bob "bob" ADMIN op_READ BASE_URL_GROUP (fun l => reflexivity l) db5_ok groups_ok
    ltac:(discriminate) eq_refl eq_refl) as (names & b & H1 & Hp & H2 & Hb & _).
  assert (Em : filter (fun r => may_do db5 "bob" ADMIN op_READ r = true) (resources_of BASE_URL_GROUP db5)
    = resources_of BASE_URL_GROUP db5) by (vm_compute; reflexivity).
  assert (En : name_of <$> resources_of BASE_URL_GROUP db5 = [ADMIN]) by (vm_compute; reflexivity).
  rewrite Em, En in Hp. exists names. split; [exact H1|]. split; [exact Hp|]. rewrite H2. f_equal. apply Hb.
  rewrite <- Em. apply Forall_forall. intros r Hr. apply list_elem_of_filter in Hr as [Hr _]. exact Hr.
Defined.
(** The group has the permissions of the owner, not its own. *)
Example group_gets_owner_permissions :
  isAuthorized_generic id (Some bob) op_DELETE BASE_URL_GROUP db5 = Ret true
  /\ select id DEFAULT_USAGE_PERMISSIONS (where_eq [(0%nat, BASE_URL_GROUP)]) db5 = [[BASE_URL_GROUP; "AAA"; "ADD"; "DDD"; "AAA"]].
Proof. vm_compute. split; reflexivity. Qed.
(** Once the user that owns a resource is deleted, listing is undefined for the
    other users. *)
Example deleted_owner :
  let d := fst (sql_delete USERS (where_eq [(0%nat, ADMIN)]) db5) in
  getAllowedResourcesNames id (Some bob) op_READ BASE_URL_GROUP d = Halt Undef.
Proof. vm_compute. reflexivity. Qed.
