(* ===== verification/Ovsdb.v ===== *)
(** * The OVSDB plugin (switch_manager/plugins/ovs-ovsdb/)

    The switch manager for Open vSwitch: LSIs are bridges, ports, GRE tunnels and
    patch ports are rows of the OVSDB server, which is asked with JSON
    transactions over a socket.  What the plugin knows of the switch is kept in
    global maps; a transaction on a bridge always names all the ports of the
    bridge, taken from these maps.  The build is the default one, without
    ENABLE_OVSDB_DPDK.  Counters are unbounded. *)

From Stdlib Require Import ZArith Lia String Ascii.
From stdpp Require Import gmap strings numbers base list functions sorting.
From S2P Require Import Prelude CString Cpp Json FlowMatch HighLevel HLGraph Lsi Vlinks NFManagers GraphManager.

(** ** The state *)

(** The global counters, and the global maps grouped by their type:
    [map<uint64_t, string>], [map<uint64_t, list<string> >] and
    [map<uint64_t, uint64_t>]. *)
Inductive counter := rnumber | dnumber | pnumber | gnumber | tid.
Inductive text_map := switch_id | switch_uuid | port_id.
Inductive list_map := port_l | endpoint_l | vport_l | port_uuid | vport_uuid | gport_uuid.
Inductive id_map := vl_PortIDtoSwitchID | vl_LocalPortIDtoRemotePortID.
#[export] Instance counter_eq_dec : EqDecision counter.
Proof. solve_decision. Defined.
#[export] Instance text_map_eq_dec : EqDecision text_map.
Proof. solve_decision. Defined.
#[export] Instance list_map_eq_dec : EqDecision list_map.
Proof. solve_decision. Defined.
#[export] Instance id_map_eq_dec : EqDecision id_map.
Proof. solve_decision. Defined.

Record commands := {
  ctr : counter -> Z;
  texts : text_map -> gmap Z string;
  lists : list_map -> gmap Z (list string);
  ids : id_map -> gmap Z Z;
  virtual_link_id : gmap string (list Z);
  peer_n : gmap string string;
  peersNames : gmap string string;
  ipsec_certificate : string
}.
Definition commands_init : commands :=
  {| ctr c := match c with rnumber | dnumber | pnumber => 1 | gnumber | tid => 0 end;
     texts _ := ∅; lists _ := ∅; ids _ := ∅; virtual_link_id := ∅; peer_n := ∅; peersNames := ∅;
     ipsec_certificate := EmptyString |}.

(** Assignments to one of the variables. *)
Definition with_ctr (c : counter) (x : Z) (s : commands) : commands :=
  {| ctr := <[c := x]> (ctr s); texts := texts s; lists := lists s; ids := ids s;
     virtual_link_id := virtual_link_id s; peer_n := peer_n s; peersNames := peersNames s; ipsec_certificate := ipsec_certificate s |}.
Definition with_texts (f : text_map) (x : gmap Z string) (s : commands) : commands :=
  {| ctr := ctr s; texts := <[f := x]> (texts s); lists := lists s; ids := ids s;
     virtual_link_id := virtual_link_id s; peer_n := peer_n s; peersNames := peersNames s; ipsec_certificate := ipsec_certificate s |}.
Definition with_lists (f : list_map) (x : gmap Z (list string)) (s : commands) : commands :=
  {| ctr := ctr s; texts := texts s; lists := <[f := x]> (lists s); ids := ids s;
     virtual_link_id := virtual_link_id s; peer_n := peer_n s; peersNames := peersNames s; ipsec_certificate := ipsec_certificate s |}.
Definition with_ids (f : id_map) (x : gmap Z Z) (s : commands) : commands :=
  {| ctr := ctr s; texts := texts s; lists := lists s; ids := <[f := x]> (ids s);
     virtual_link_id := virtual_link_id s; peer_n := peer_n s; peersNames := peersNames s; ipsec_certificate := ipsec_certificate s |}.
Definition with_links (x : gmap string (list Z)) (s : commands) : commands :=
  {| ctr := ctr s; texts := texts s; lists := lists s; ids := ids s;
     virtual_link_id := x; peer_n := peer_n s; peersNames := peersNames s; ipsec_certificate := ipsec_certificate s |}.
Definition with_peers (n p : gmap string string) (s : commands) : commands :=
  {| ctr := ctr s; texts := texts s; lists := lists s; ids := ids s;
     virtual_link_id := virtual_link_id s; peer_n := n; peersNames := p; ipsec_certificate := ipsec_certificate s |}.
Definition with_certificate (x : string) (s : commands) : commands :=
  {| ctr := ctr s; texts := texts s; lists := lists s; ids := ids s;
     virtual_link_id := virtual_link_id s; peer_n := peer_n s; peersNames := peersNames s; ipsec_certificate := x |}.

(** ** The server, and the scripts of the host

    [db_recv]: [None] when the socket fails, [Some None] when what was read is
    not JSON.  [run_script]: the status that [system] returns. *)
Class Ovsdb (W : Type) := {
  db_connect : W -> W * bool;
  db_close : W -> W * bool;
  db_send (request : json) : W -> W * bool;
  db_recv : W -> W * option (option json);
  run_script (command : string) : W -> W * Z
}.

Section plugin.
Context {W : Type} `{!Ovsdb W}.
(** The environment variable un_script_path, and the members of the description
    of an LSI that are the same in all calls of the graph manager. *)
Context (un_script_path controllerAddress local_ip certificate : string).

Record sys := { cmd : commands; net : W }.
#[local] Abbreviation P A := (prog sys A).

Definition on_net {A} (f : W -> W * A) : P A := fun s =>
  let '(w, a) := f (net s) in ({| cmd := cmd s; net := w |}, Ret a).
Definition upd (f : commands -> commands) : P unit := modify (fun s => {| cmd := f (cmd s); net := net s |}).
Definition set_ctr (c : counter) (x : Z) : P unit := upd (with_ctr c x).
Definition set_texts (f : text_map) (x : gmap Z string) : P unit := upd (with_texts f x).
Definition set_lists (f : list_map) (x : gmap Z (list string)) : P unit := upd (with_lists f x).
Definition set_ids (f : id_map) (x : gmap Z Z) : P unit := upd (with_ids f x).
Definition set_links (x : gmap string (list Z)) : P unit := upd (with_links x).
Definition set_peers (n p : gmap string string) : P unit := upd (with_peers n p).
Definition set_certificate (x : string) : P unit := upd (with_certificate x).

Definition rd {A} (f : commands -> A) : P A := gets (fun s => f (cmd s)).
Definition num (c : counter) : P Z := rd (fun s => ctr s c).
Definition incr (c : counter) : P unit := n ← num c; set_ctr c (n + 1).
(** The [operator[]] of the maps: a key that is not there is added. *)
Definition text_at (f : text_map) (k : Z) : P string :=
  m ← rd (fun s => texts s f);
  match m !! k with Some v => mret v | None => _ ← set_texts f (<[k := EmptyString]> m); mret EmptyString end.
Definition list_at (f : list_map) (k : Z) : P (list string) :=
  m ← rd (fun s => lists s f);
  match m !! k with Some v => mret v | None => _ ← set_lists f (<[k := []]> m); mret [] end.
Definition id_at (f : id_map) (k : Z) : P Z :=
  m ← rd (fun s => ids s f);
  match m !! k with Some v => mret v | None => _ ← set_ids f (<[k := 0]> m); mret 0 end.
Definition links_at (k : string) : P (list Z) :=
  m ← rd virtual_link_id;
  match m !! k with Some v => mret v | None => _ ← set_links (<[k := []]> m); mret [] end.
Definition put_text (f : text_map) (k : Z) (v : string) : P unit := m ← rd (fun s => texts s f); set_texts f (<[k := v]> m).
Definition put_id (f : id_map) (k v : Z) : P unit := m ← rd (fun s => ids s f); set_ids f (<[k := v]> m).
Definition put_list (f : list_map) (k : Z) (v : list string) : P unit := m ← rd (fun s => lists s f); set_lists f (<[k := v]> m).
Definition put_links (k : string) (v : list Z) : P unit := m ← rd virtual_link_id; set_links (<[k := v]> m).
Definition push (f : list_map) (k : Z) (x : string) : P unit := l ← list_at f k; put_list f k (l ++ [x]).
(** [list::remove]: all the elements equal to [x]. *)
Definition remove (f : list_map) (k : Z) (x : string) : P unit := l ← list_at f k; put_list f k (filter (fun y => y <> x) l).

(** ** Talking to the server *)
Definition cmd_connect : P unit := ok ← on_net db_connect; if ok : bool then mret tt else throw SwitchManagerException.
Definition cmd_disconnect : P unit := ok ← on_net db_close; if ok : bool then mret tt else throw SwitchManagerException.
(** A request is sent and an answer received; a text that is no JSON reads as null. *)
Definition exchange (request : json) : P json :=
  ok ← on_net (db_send request);
  if negb ok then throw SwitchManagerException
  else
    r ← on_net db_recv;
    match r with
    | None => throw SwitchManagerException
    | Some v => mret (default JNull v)
    end.
Definition script (command : string) : P Z := st ← on_net (run_script (un_script_path +:+ command)); mret (Z.shiftr st 8).

(** *** Requests: the members of an object are in the order of their keys. *)
Definition jset (l : list json) : json := JArr [JStr "set"; JArr l].
Definition jmap (l : list (string * string)) : json :=
  JArr [JStr "map"; JArr ((fun p => JArr [JStr (fst p); JStr (snd p)]) <$> l)].
Definition named_uuid (name : string) : json := JArr [JStr "named-uuid"; JStr name].
Definition uuid (u : string) : json := JArr [JStr "uuid"; JStr u].
Definition transaction (id : Z) (ops : list json) : json :=
  JObj [("id", JInt id); ("method", JStr "transact"); ("params", JArr (JStr "Open_vSwitch" :: ops))].
Definition insert_row (table : string) (row : list (string * json)) (name : string) : json :=
  JObj [("op", JStr "insert"); ("row", JObj row); ("table", JStr table); ("uuid-name", JStr name)].
Definition update_ports (bridge : string) (ports : list json) : json :=
  JObj [("op", JStr "update"); ("row", JObj [("ports", jset ports)]); ("table", JStr "Bridge");
        ("where", JArr [JArr [JStr "_uuid"; JStr "=="; uuid bridge]])].
Definition mutate (m : json) : json :=
  JObj [("mutations", JArr [m]); ("op", JStr "mutate"); ("table", JStr "Open_vSwitch"); ("where", JArr [])].
Definition next_cfg : json := mutate (JArr [JStr "next_cfg"; JStr "+="; JInt 1]).

Definition interface_row (name : string) (ofport : Z) (more : list (string * json)) : list (string * json) :=
  [("admin_state", JStr "up"); ("link_state", JStr "up"); ("name", JStr name); ("ofport", JInt ofport);
   ("ofport_request", JInt ofport)] ++ more.
Definition port_row (name iface : string) : list (string * json) :=
  [("interfaces", jset [named_uuid iface]); ("name", JStr name)].

(** The ports the plugin knows on a bridge: three loops on the lists of UUIDs. *)
Definition known_ports (dpi : Z) : P (list json) :=
  p ← list_at port_uuid dpi;
  v ← list_at vport_uuid dpi;
  g ← list_at gport_uuid dpi;
  mret (uuid <$> (p ++ v ++ g)).

(** *** Answers *)

(** The UUIDs of an answer are given to [f] with the index of their operation; an
    operation with details of an error ends the walk. *)
Definition read_member (f : nat -> json -> P unit) (i : nat) (member : string * json) : P unit :=
  let '(name, v) := member in
  if bool_decide (name = "uuid") then f i v
  else if bool_decide (name = "details") then _ ← of_out (getString v); throw SwitchManagerException
  else mret tt.
Fixpoint read_ops (f : nat -> json -> P unit) (i : nat) (ops : list json) : P unit :=
  match ops with
  | [] => mret tt
  | op :: ops =>
      members ← of_out (getObject op);
      _ ← for_each (read_member f i) members;
      read_ops f (S i) ops
  end.
Definition read_answer (f : nat -> json -> P unit) (answer : json) : P unit :=
  root ← of_out (getObject answer);
  for_each (fun '(name, node) =>
    if bool_decide (name = "result") then ops ← of_out (getArray node); read_ops f 0 ops else mret tt) root.

(** [stuff1[1].getString()] *)
Definition second_string (l : list json) : out string := v ← deref (l !! 1%nat); getString v.
(** The UUID of the second operation, the new port, goes to a list of the bridge. *)
Definition record_port (f : list_map) (dpi : Z) (i : nat) (v : json) : P unit :=
  stuff ← of_out (getArray v);
  if (i =? 1)%nat then u ← of_out (second_string stuff); push f dpi u else mret tt.

(** An interface and a port for it are inserted and the port is given to the
    bridge: what [add_port], [add_endpoint] and [cmd_add_virtual_link] have in
    common once they know the row of the interface. *)
Definition insert_port (f : list_map) (dpi : Z) (iface : string) (row : list (string * json))
    (port_name uuid_name : string) : P unit :=
  bridge ← text_at switch_uuid dpi;
  ports ← known_ports dpi;
  id ← num tid;
  answer ← exchange (transaction id
    [insert_row "Interface" row iface; insert_row "Port" (port_row port_name iface) uuid_name;
     update_ports bridge (ports ++ [named_uuid uuid_name]); next_cfg]);
  _ ← read_answer (record_port f dpi) answer;
  _ ← incr tid;
  _ ← incr rnumber;
  cmd_disconnect.

(** ** Ports *)

Definition map_chars (f : ascii -> ascii) (s : string) : string := string_of_list_ascii (f <$> txt s).
Definition tolower (c : ascii) : ascii :=
  if (65 <=? code c) && (code c <=? 90) then ascii_of_nat (nat_of_ascii c + 32) else c.
Definition replace_char (a b : ascii) (s : string) : string := map_chars (fun c => if Ascii.eqb c a then b else c) s.
(** It takes the number of the bridge, and uses the global counter. *)
Definition build_port_uuid_name (port_name : string) : P string :=
  d ← num dnumber;
  mret (replace_char "-" "s" (replace_char "_" "p" (map_chars tolower ("x" +:+ port_name) +:+ "b" +:+ show d))).

Definition ACTIVATE_INTERFACE : string := "./network_controller/switch_manager/plugins/ovs-ovsdb/scripts/activate_interface.sh".
Definition CREATE_VETH_PAIR : string := "./network_controller/switch_manager/plugins/ovs-ovsdb/scripts/create_veth_pair.sh".

(** The name of the port on the bridge and the type of the interface; a port that
    is an end of a veth pair is created here, and the other end is for the
    function. *)
Definition nf_port_on_switch (name : string) (t : PortType) : P (string * list (string * json)) :=
  match t with
  | IVSHMEM_PORT | DPDKR_PORT | USVHOST_PORT => of_out (Halt Assert)
  | VETH_PORT =>
      let peer := name +:+ ".d" in
      st ← script (CREATE_VETH_PAIR +:+ " " +:+ name +:+ " " +:+ peer);
      if st =? 0 then throw SwitchManagerException
      else
        n ← rd peer_n; p ← rd peersNames;
        _ ← set_peers n (<[name := peer]> p);
        mret (peer, [])
  | VHOST_PORT => mret (name, [("type", JStr "internal")])
  | _ => of_out (Halt Assert)
  end.
Definition add_port (p : string) (dpi : Z) (is_nf_port : bool) (t : PortType) : P string :=
  _ ← cmd_connect;
  r ← num rnumber;
  let iface := "iface" +:+ show r in
  if is_nf_port then
    uuid_name ← build_port_uuid_name p;
    let name_on_switch := show dpi +:+ "_" +:+ p in
    '(port_name, more) ← nf_port_on_switch name_on_switch t;
    _ ← push port_l dpi port_name;
    _ ← insert_port port_uuid dpi iface (interface_row port_name r more) port_name uuid_name;
    _ ← match t with
        | VHOST_PORT | VETH_PORT => st ← script (ACTIVATE_INTERFACE +:+ " " +:+ port_name); prog_assert (st =? 0)
        | _ => mret tt
        end;
    mret name_on_switch
  else
    let more := if String.prefix "dpdk" p then [("type", JStr "dpdk")] else [] in
    _ ← push port_l dpi p;
    _ ← insert_port port_uuid dpi iface (interface_row p r more) p (replace_char "-" "p" (replace_char "." "p" p));
    mret p.

(** ** GRE tunnels *)

(** [strcpy] into 64 bytes. *)
Definition BUF_SIZE : Z := 64.
Definition fits (s : string) : P unit := of_out (if Z.of_nat (String.length s) <? BUF_SIZE then Ret tt else Halt Oob).
Definition add_endpoint (dpi : Z) (local remote key port_name iface safe : string) : P unit :=
  _ ← cmd_connect;
  r ← num rnumber;
  cert ← rd ipsec_certificate;
  let secure := bool_decide (safe = "true") in
  let options := (if secure then [("certificate", cert); ("pmtud", "false"); ("psk", "test")] else [])
                 ++ [("local_ip", local); ("remote_ip", remote); ("key", key)] in
  insert_port gport_uuid dpi iface
    (interface_row port_name r [("options", jmap options); ("type", JStr (if secure then "ipsec_gre" else "gre"))])
    port_name port_name.
(** A tunnel is created with the next name and the next number, which is given back. *)
Definition new_endpoint (dpi : Z) (id local remote key safe : string) : P Z :=
  _ ← fits key; _ ← fits local; _ ← fits remote; _ ← fits safe;
  g ← num gnumber;
  r ← num rnumber;
  _ ← incr gnumber;
  _ ← add_endpoint dpi local remote key ("gre" +:+ show g) ("iface" +:+ show r) safe;
  _ ← push endpoint_l dpi id;
  r ← num rnumber;
  mret (r - 1).
Definition param (l : list string) (i : nat) : P string := of_out (deref (l !! i)).
Definition cmd_editconfig_endpoint (dpi : Z) (id : string) (params : list string) : P (string * Z) :=
  key ← param params 1; local ← param params 0; remote ← param params 2; safe ← param params 4;
  n ← new_endpoint dpi id local remote key safe;
  mret (id, n).

(** ** Virtual links *)
Definition cmd_add_virtual_link (vrt trv iface : string) (dpi : Z) : P unit :=
  _ ← cmd_connect;
  r ← num rnumber;
  insert_port vport_uuid dpi iface
    (interface_row vrt r [("options", jmap [("peer", trv)]); ("type", JStr "patch")]) vrt vrt.
Definition next_vport : P string := n ← num pnumber; mret ("vport" +:+ show n).
Definition next_iface : P string := n ← num rnumber; mret ("iface" +:+ show n).
Definition cmd_addVirtualLink (dpidA dpidB : Z) : P (Z * Z) :=
  vrt ← next_vport; _ ← incr pnumber;
  trv ← next_vport; _ ← incr pnumber;
  iface ← next_iface;
  _ ← cmd_add_virtual_link vrt trv iface dpidA;
  iface ← next_iface;
  _ ← cmd_add_virtual_link trv vrt iface dpidB;
  r ← num rnumber;
  sw ← text_at switch_id dpidA;
  l ← links_at sw;
  _ ← put_links sw (l ++ [r - 2]);
  _ ← put_text port_id (r - 2) vrt;
  _ ← put_text port_id (r - 1) trv;
  _ ← put_id vl_PortIDtoSwitchID (r - 2) dpidA;
  _ ← put_id vl_PortIDtoSwitchID (r - 1) dpidB;
  _ ← put_id vl_LocalPortIDtoRemotePortID (r - 2) (r - 1);
  _ ← push vport_l dpidA vrt;
  _ ← push vport_l dpidB trv;
  n ← rd peer_n; p ← rd peersNames;
  _ ← set_peers (<[vrt := trv]> (<[trv := vrt]> n)) p;
  mret (r - 2, r - 1).

(** The UUID at the place of a name in the list of names next to it; moving or
    reading past the end is undefined. *)
Fixpoint uuid_of (x : string) (names uuids : list string) : out (option string) :=
  match names with
  | [] => Ret None
  | n :: names =>
      if bool_decide (n = x) then match uuids with u :: _ => Ret (Some u) | [] => Halt Undef end
      else match uuids with _ :: uuids => uuid_of x names uuids | [] => Halt Undef end
  end.
(** The bridge is given the ports that are left; the answer is not looked at. *)
Definition restrict_ports (bridge : string) (dpi : Z) : P unit :=
  ports ← known_ports dpi;
  id ← num tid;
  _ ← exchange (transaction id [update_ports bridge ports; next_cfg]);
  _ ← incr tid;
  cmd_disconnect.
Definition cmd_delete_virtual_link (dpi idp : Z) : P unit :=
  _ ← cmd_connect;
  bridge ← text_at switch_uuid dpi;
  uuids ← list_at vport_uuid dpi;
  names ← list_at vport_l dpi;
  _ ← match names with
      | [] => mret tt
      | _ =>
          name ← text_at port_id idp;
          u ← of_out (uuid_of name names uuids);
          match u with
          | Some u => _ ← remove vport_uuid dpi u; remove vport_l dpi name
          | None => mret tt
          end
      end;
  restrict_ports bridge dpi.
Definition remove_link (dpi id : Z) : P unit :=
  sw ← text_at switch_id dpi;
  l ← links_at sw;
  put_links sw (filter (fun i => i <> id) l).
Definition forget_id (id : Z) : P unit := m ← rd (fun s => ids s vl_PortIDtoSwitchID); set_ids vl_PortIDtoSwitchID (delete id m).
(** The names removed from the lists at the end are empty buffers. *)
Definition cmd_destroyVirtualLink (dpidA idA dpidB idB : Z) : P unit :=
  _ ← cmd_delete_virtual_link dpidA idA;
  _ ← cmd_delete_virtual_link dpidB idB;
  _ ← forget_id idA;
  _ ← forget_id idB;
  _ ← remove vport_l dpidA "";
  _ ← remove vport_l dpidB "";
  _ ← remove_link dpidA idA;
  remove_link dpidB idB.

(** ** LSIs *)

(** The UUIDs of the answer to the creation of a bridge: [strr], and the number of
    operations [i]; the last "result" decides. *)
Fixpoint read_uuids (members : list (string * json)) (u : string) : out string :=
  match members with
  | [] => Ret u
  | (name, v) :: members =>
      if bool_decide (name = "uuid") then stuff ← getArray v; u ← second_string stuff; read_uuids members u
      else if bool_decide (name = "details") then _ ← getString v; Throw SwitchManagerException
      else read_uuids members u
  end.
Fixpoint read_strr (old : list string) (i : nat) (ops : list json) : out (list string) :=
  match ops with
  | [] => Ret []
  | op :: ops =>
      members ← getObject op;
      u ← read_uuids members (default EmptyString (old !! i));
      if (256 <=? i)%nat && bool_decide (Exists (fun m => fst m = "uuid") members) then Halt Oob
      else us ← read_strr old (S i) ops; Ret (u :: us)
  end.
(** [strr] as far as it is written, and [i]. *)
Definition read_created (answer : json) : out string :=
  root ← getObject answer;
  '(strr, i) ← out_fold (fun '(strr, i) '(name, node) =>
    if bool_decide (name = "result")
    then ops ← getArray node; us ← read_strr strr 0 ops; Ret (us ++ drop (length us) strr, length us)
    else Ret (strr, i)) ([], 0%nat) root;
  if (2 <=? i)%nat then Ret (default EmptyString (strr !! (i - 2)%nat)) else Halt Undef.

Definition hex_digit (n : Z) : string :=
  default EmptyString (["0"; "1"; "2"; "3"; "4"; "5"; "6"; "7"; "8"; "9"; "a"; "b"; "c"; "d"; "e"; "f"] !! Z.to_nat n).
(** [setw(16)], [setfill('0')], [hex] *)
Definition datapath_id (n : Z) : string :=
  foldr (fun i s => hex_digit (Z.shiftr n (4 * i) mod 16) +:+ s) EmptyString (reverse (seqZ 0 16)).
Definition OFP_VERSION : string := "OpenFlow12".

Definition create_bridge (port : string) (d : Z) (id : Z) : json :=
  let sw := "Bridge" +:+ show d in
  let ctrl := "ctrl" +:+ show d in
  transaction id
    [insert_row "Controller" [("connection_mode", JStr "out-of-band"); ("is_connected", JBool true);
       ("local_ip", JStr local_ip); ("target", JStr ("tcp:" +:+ controllerAddress +:+ ":" +:+ port))] ctrl;
     insert_row "Bridge" [("controller", jset [named_uuid ctrl]); ("name", JStr sw);
       ("other_config", jmap [("disable-in-band", "true"); ("datapath-id", datapath_id d)]);
       ("protocols", JStr OFP_VERSION)] sw;
     mutate (JArr [JStr "bridges"; JStr "insert"; jset [named_uuid sw]])].

(** Physical ports: their names enter [port_l] once more. *)
Fixpoint add_physical (d : Z) (ports : list string) (m : gmap string Z) : P (gmap string Z) :=
  match ports with
  | [] => mret m
  | p :: ports =>
      _ ← add_port p d false UNDEFINED_PORT;
      _ ← push port_l d p;
      r ← num rnumber;
      add_physical d ports (<[p := r - 1]> m)
  end.
(** The ports of a function: by name on the graph the number on the LSI, by name
    on the switch the number on the graph. *)
Fixpoint add_nf_ports (d : Z) (ports : list nf_port_info) (m : gmap string Z) (names : gmap string Z)
    : P (gmap string Z * gmap string Z) :=
  match ports with
  | [] => mret (m, names)
  | p :: ports =>
      name ← add_port (pi_name p) d true (pi_type p);
      r ← num rnumber;
      add_nf_ports d ports (<[pi_name p := r - 1]> m) (<[name := pi_id p]> names)
  end.
Fixpoint add_nfs (d : Z) (nfs : list string) (info : gmap string (list nf_port_info))
    (m names : gmap string (gmap string Z)) : P (gmap string (gmap string Z) * gmap string (gmap string Z)) :=
  match nfs with
  | [] => mret (m, names)
  | nf :: nfs =>
      '(p, n) ← add_nf_ports d (default [] (info !! nf)) ∅ ∅;
      add_nfs d nfs info (<[nf := p]> m) (<[nf := n]> names)
  end.
Fixpoint add_endpoints (d : Z) (eps : list (string * list string)) (m : gmap string Z) : P (gmap string Z) :=
  match eps with
  | [] => mret m
  | (id, params) :: eps =>
      key ← param params 0; local ← param params 1; remote ← param params 2; safe ← param params 4;
      n ← new_endpoint d id local remote key safe;
      add_endpoints d eps (<[id := n]> m)
  end.
(** The near ends of the [n] virtual links: the numbers of the far ends are those
    they will get. *)
Fixpoint add_near_ends (d : Z) (n : Z) (remotes : list Z) : P (list string * list (Z * Z)) :=
  match remotes with
  | [] => mret ([], [])
  | remote :: remotes =>
      vrt ← next_vport; _ ← incr pnumber;
      trv ← next_vport;
      nn ← rd peer_n; pp ← rd peersNames;
      _ ← set_peers (<[trv := vrt]> nn) pp;
      iface ← next_iface;
      _ ← cmd_add_virtual_link vrt trv iface d;
      r ← num rnumber;
      _ ← put_text port_id (r - 1) vrt;
      _ ← put_text port_id (r + n - 1) trv;
      l ← links_at ("Bridge" +:+ show d);
      _ ← put_links ("Bridge" +:+ show d) (l ++ [r - 1]);
      _ ← push vport_l d vrt;
      _ ← put_id vl_PortIDtoSwitchID (r - 1) d;
      _ ← put_id vl_PortIDtoSwitchID (r + n - 1) remote;
      _ ← put_id vl_LocalPortIDtoRemotePortID (r - 1) (r + n - 1);
      _ ← incr pnumber;
      '(rp, ls) ← add_near_ends d n remotes;
      mret (trv :: rp, (r - 1, r + n - 1) :: ls)
  end.
Fixpoint add_far_ends (rp : list string) (remotes : list Z) : P unit :=
  match rp, remotes with
  | trv :: rp, remote :: remotes =>
      _ ← cmd_connect;
      _ ← incr pnumber;
      iface ← next_iface;
      _ ← push vport_l remote trv;
      n ← rd peer_n;
      _ ← cmd_add_virtual_link trv (default EmptyString (n !! trv)) iface remote;
      _ ← incr pnumber;
      _ ← incr tid;
      _ ← cmd_disconnect;
      add_far_ends rp remotes
  | _, _ => mret tt
  end.

Definition cmd_editconfig_lsi (cli : CreateLsiIn) : P CreateLsiOut :=
  _ ← set_certificate certificate;
  _ ← cmd_connect;
  d ← num dnumber;
  _ ← put_text switch_id d ("Bridge" +:+ show d);
  _ ← fits ("tcp:" +:+ controllerAddress +:+ ":" +:+ cli_controller_port cli);
  id ← num tid;
  _ ← incr tid;
  answer ← exchange (create_bridge (cli_controller_port cli) d id);
  u ← of_out (read_created answer);
  _ ← put_text switch_uuid d u;
  physical ← add_physical d (cli_physical cli) ∅;
  '(nf_ports, names) ← add_nfs d (set_list (dom (cli_nf_types cli))) (cli_nfs_ports cli) ∅ ∅;
  endpoints ← add_endpoints d (map_list (cli_gre cli)) ∅;
  old ← num pnumber;
  '(rp, vlinks) ← add_near_ends d (Z.of_nat (length (cli_vlinks cli))) (cli_vlinks cli);
  _ ← set_ctr pnumber old;
  _ ← incr dnumber;
  _ ← cmd_disconnect;
  _ ← add_far_ends rp (cli_vlinks cli);
  mret {| clo_dpid := d; clo_physical := physical; clo_nfs_ports := nf_ports; clo_endpoints := endpoints;
          clo_nfs_names := names; clo_vlinks := vlinks |}.

(** *** Removal *)

(** The UUIDs of the bridges, by datapath. *)
Definition dpid_le (x y : Z * string) : Prop := fst x <= fst y.
#[local] Instance dpid_le_dec x y : Decision (dpid_le x y) := decide (fst x <= fst y).
Definition by_dpid (m : gmap Z string) : list string := snd <$> merge_sort dpid_le (map_to_list m).
Definition update_bridges (bridges : list string) : json :=
  JObj [("op", JStr "update"); ("row", JObj [("bridges", jset (uuid <$> bridges))]); ("table", JStr "Open_vSwitch");
        ("where", JArr [])].
Definition forget_list (f : list_map) (dpi : Z) : P unit := m ← rd (fun s => lists s f); set_lists f (delete dpi m).
Definition cmd_editconfig_lsi_delete (dpi : Z) : P unit :=
  sw ← text_at switch_id dpi;
  links ← links_at sw;
  _ ← for_each (fun i =>
    a ← id_at vl_PortIDtoSwitchID i;
    _ ← cmd_delete_virtual_link a i;
    j ← id_at vl_LocalPortIDtoRemotePortID i;
    b ← id_at vl_PortIDtoSwitchID j;
    cmd_delete_virtual_link b j) links;
  _ ← forget_list port_l dpi;
  _ ← forget_list vport_l dpi;
  _ ← forget_list port_uuid dpi;
  _ ← forget_list vport_uuid dpi;
  _ ← put_links sw [];
  _ ← cmd_connect;
  m ← rd (fun s => texts s switch_uuid);
  _ ← set_texts switch_uuid (delete dpi m);
  id ← num tid;
  _ ← exchange (transaction id [update_bridges (by_dpid (delete dpi m)); next_cfg]);
  _ ← incr tid;
  cmd_disconnect.

(** The numbers by name on the graph and by name on the switch are the same. *)
Definition cmd_editconfig_NFPorts (dpi : Z) (nf : string) (ports : list nf_port_info) : P (string * gmap string Z) :=
  '(m, _) ← add_nf_ports dpi ports ∅ ∅;
  mret (nf, m).

(** The names on the bridge of the ports of a function. *)
Definition names_on_bridge (peers : gmap string string) (ports : list string) : list string :=
  (fun p => default p (peers !! p)) <$> ports.
Definition cmd_editconfig_NFPorts_delete (dpi : Z) (ports : gset string) : P unit :=
  _ ← cmd_connect;
  if bool_decide (ports = ∅) then mret tt
  else
    peers ← rd peersNames;
    bridge ← text_at switch_uuid dpi;
    _ ← for_each (fun p =>
      uuids ← list_at port_uuid dpi;
      names ← list_at port_l dpi;
      u ← of_out (uuid_of p names uuids);
      match u with
      | Some u => _ ← remove port_l dpi p; remove port_uuid dpi u
      | None => mret tt
      end) (names_on_bridge peers (set_list ports));
    restrict_ports bridge dpi.

Definition cmd_editconfig_endpoint_delete (dpi : Z) (ep : string) : P unit :=
  _ ← cmd_connect;
  if bool_decide (ep = EmptyString) then mret tt
  else
    bridge ← text_at switch_uuid dpi;
    uuids ← list_at gport_uuid dpi;
    names ← list_at endpoint_l dpi;
    u ← of_out (uuid_of ep names uuids);
    _ ← match u with
        | Some u =>
            _ ← remove gport_uuid dpi u;
            put_list endpoint_l dpi (default names (erase_first (fun n => bool_decide (n = ep)) names))
        | None => mret tt
        end;
    restrict_ports bridge dpi.

(** ** The switch manager (ovsdb_manager.cc) *)
#[export] Instance ovsdb_links : LinkSwitch sys := {
  addVirtualLink := cmd_addVirtualLink;
  destroyVirtualLink := cmd_destroyVirtualLink
}.
#[export] Instance ovsdb_manager : SwitchOps sys := {
  sw_link := ovsdb_links;
  createLsi := cmd_editconfig_lsi;
  destroyLsi := cmd_editconfig_lsi_delete;
  addNFPorts dpid nf _ ports := cmd_editconfig_NFPorts dpid nf ports;
  destroyNFPorts dpid _ ports := cmd_editconfig_NFPorts_delete dpid ports;
  addEndpoint := cmd_editconfig_endpoint;
  destroyEndpoint := cmd_editconfig_endpoint_delete
}.
End plugin.
