(* ===== verification/OvsdbOk.v ===== *)
(** * What the OVSDB plugin knows and what the database holds

    The documented behaviour of the server ([OvsdbLaws]), and the agreement
    between the maps of the plugin and the bridges, ports and patch ports of the
    database, which the operations of the plugin keep as long as no error is
    reported.  From it, the plugin keeps what the graph manager relies on for
    virtual links ([VlinksOk.LinkSwitchLaws]). *)

From Stdlib Require Import ZArith Lia String Ascii.
From stdpp Require Import gmap strings numbers base list functions propset.
From S2P Require Import Prelude CString Cpp Json FlowMatch HighLevel HLGraph Lsi Vlinks VlinksOk NFManagers GraphManager Ovsdb.

(** ** The maps of the plugin, read

    A key that is not in a map reads as the default value, and reading it adds
    it: seen through these readings, a look-up changes nothing. *)
Definition tx (c : commands) (f : text_map) (k : Z) : string := default EmptyString (texts c f !! k).
Definition ls (c : commands) (f : list_map) (k : Z) : list string := default [] (lists c f !! k).
Definition di (c : commands) (f : id_map) (k : Z) : Z := default 0 (ids c f !! k).
Definition lk (c : commands) (k : string) : list Z := default [] (virtual_link_id c !! k).

Definition touch_text (f : text_map) (k : Z) (c : commands) : commands :=
  match texts c f !! k with Some _ => c | None => with_texts f (<[k := EmptyString]> (texts c f)) c end.
Definition touch_list (f : list_map) (k : Z) (c : commands) : commands :=
  match lists c f !! k with Some _ => c | None => with_lists f (<[k := []]> (lists c f)) c end.
Definition touch_id (f : id_map) (k : Z) (c : commands) : commands :=
  match ids c f !! k with Some _ => c | None => with_ids f (<[k := 0]> (ids c f)) c end.
Definition touch_links (k : string) (c : commands) : commands :=
  match virtual_link_id c !! k with Some _ => c | None => with_links (<[k := []]> (virtual_link_id c)) c end.
Definition c_text (f : text_map) (k : Z) (v : string) (c : commands) : commands := with_texts f (<[k := v]> (texts c f)) c.
Definition c_list (f : list_map) (k : Z) (v : list string) (c : commands) : commands := with_lists f (<[k := v]> (lists c f)) c.
Definition c_id (f : id_map) (k v : Z) (c : commands) : commands := with_ids f (<[k := v]> (ids c f)) c.
Definition c_links (k : string) (v : list Z) (c : commands) : commands := with_links (<[k := v]> (virtual_link_id c)) c.
Definition c_ctr (n : counter) (v : Z) (c : commands) : commands := with_ctr n v c.

(** Two states that read the same; the names of veth pairs and the certificate
    do not count. *)
Record same (c c' : commands) : Prop := {
  same_ctr n : ctr c' n = ctr c n;
  same_tx f k : tx c' f k = tx c f k;
  same_ls f k : ls c' f k = ls c f k;
  same_di f k : di c' f k = di c f k;
  same_lk k : lk c' k = lk c k;
  same_peer_n : peer_n c' = peer_n c
}.
#[export] Instance same_equivalence : Equivalence same.
Proof.
  split.
  - by intros c.
  - intros c c' []. split; intros; by symmetry.
  - intros a b c [] []. split; intros; etrans; eauto.
Qed.

Section lookups.
Context {F V : Type} `{EqDecision F} (m : F -> gmap Z V) (d : V).
Lemma put_lookup f k v f' k' :
  default d ((<[f := <[k := v]> (m f)]> m) f' !! k') = if decide (f' = f /\ k' = k) then v else default d (m f' !! k').
Proof.
  destruct (decide (f' = f)) as [->|Hf].
  - rewrite fn_lookup_insert. destruct (decide (k' = k)) as [->|Hk].
    + rewrite decide_True by done. by rewrite lookup_insert_eq.
    + rewrite decide_False by tauto. by rewrite lookup_insert_ne.
  - rewrite decide_False by tauto. by rewrite fn_lookup_insert_ne.
Qed.
Lemma touch_lookup f k f' k' :
  m f !! k = None -> default d ((<[f := <[k := d]> (m f)]> m) f' !! k') = default d (m f' !! k').
Proof. intros E. rewrite put_lookup. case_decide as Hk; [|done]. destruct Hk as [-> ->]. by rewrite E. Qed.
End lookups.

Lemma touch_text_same f k c : same c (touch_text f k c).
Proof.
  unfold touch_text. destruct (texts c f !! k) eqn:E; [done|]. split; try done. intros f' k'. by apply touch_lookup.
Qed.
Lemma touch_list_same f k c : same c (touch_list f k c).
Proof.
  unfold touch_list. destruct (lists c f !! k) eqn:E; [done|]. split; try done. intros f' k'. by apply touch_lookup.
Qed.
Lemma touch_id_same f k c : same c (touch_id f k c).
Proof.
  unfold touch_id. destruct (ids c f !! k) eqn:E; [done|]. split; try done. intros f' k'. by apply touch_lookup.
Qed.
Lemma touch_links_same k c : same c (touch_links k c).
Proof.
  unfold touch_links. destruct (virtual_link_id c !! k) eqn:E; [done|]. split; try done. intros k'. unfold lk. cbn.
  destruct (decide (k' = k)) as [->|]; [by rewrite lookup_insert_eq, E|by rewrite lookup_insert_ne].
Qed.

Lemma ctr_put n v c n' : ctr (c_ctr n v c) n' = if decide (n' = n) then v else ctr c n'.
Proof. cbn. destruct (decide (n' = n)) as [->|]; [apply fn_lookup_insert|by apply fn_lookup_insert_ne]. Qed.
Lemma tx_put f k v c f' k' : tx (c_text f k v c) f' k' = if decide (f' = f /\ k' = k) then v else tx c f' k'.
Proof. apply put_lookup. Qed.
Lemma ls_put f k v c f' k' : ls (c_list f k v c) f' k' = if decide (f' = f /\ k' = k) then v else ls c f' k'.
Proof. apply put_lookup. Qed.
Lemma di_put f k v c f' k' : di (c_id f k v c) f' k' = if decide (f' = f /\ k' = k) then v else di c f' k'.
Proof. apply put_lookup. Qed.
Lemma lk_put k v c k' : lk (c_links k v c) k' = if decide (k' = k) then v else lk c k'.
Proof.
  unfold lk. cbn. destruct (decide (k' = k)) as [->|]; [by rewrite lookup_insert_eq|by rewrite lookup_insert_ne].
Qed.

(** Readings of a map after assignments, and across maps that read the same. *)
Ltac view_step :=
  first [rewrite ls_put | rewrite tx_put | rewrite di_put | rewrite lk_put | rewrite ctr_put
        | match goal with
          | |- context [ls (?T ?c) ?f ?k] => change (ls (T c) f k) with (ls c f k)
          | |- context [tx (?T ?c) ?f ?k] => change (tx (T c) f k) with (tx c f k)
          | |- context [di (?T ?c) ?f ?k] => change (di (T c) f k) with (di c f k)
          | |- context [lk (?T ?c) ?k] => change (lk (T c) k) with (lk c k)
          | |- context [ctr (?T ?c) ?n] => change (ctr (T c) n) with (ctr c n)
          | H : same _ ?c |- context [ls ?c ?f ?k] => rewrite (same_ls _ _ H f k)
          | H : same _ ?c |- context [tx ?c ?f ?k] => rewrite (same_tx _ _ H f k)
          | H : same _ ?c |- context [di ?c ?f ?k] => rewrite (same_di _ _ H f k)
          | H : same _ ?c |- context [lk ?c ?k] => rewrite (same_lk _ _ H k)
          | H : same _ ?c |- context [ctr ?c ?n] => rewrite (same_ctr _ _ H n)
          | |- context [peer_n (?T ?c)] => change (peer_n (T c)) with (peer_n c)
          | H : same _ ?c |- context [peer_n ?c] => rewrite (same_peer_n _ _ H)
          end].
Ltac views := repeat view_step.
(** Two maps read the same when they do so reading by reading. *)
Ltac by_views := split; intros; views; repeat case_decide; naive_solver.

(** ** The server

    The part of the database that matters: the ports by UUID, with the name, the
    number and, for a patch port, the peer of their interface; the bridges by
    UUID, with their ports. *)
Record prow := { pr_name : string; pr_ofport : Z; pr_peer : option string }.
Record DB := { db_ports : gmap string prow; db_bridges : gmap string (gset string) }.

(** Answers to a transaction (RFC 7047, 4.1.3 and 5.2): the results of the
    operations; when one fails, or the whole when it is committed, an error takes
    its place. *)
Definition row_result (u : string) : json := JObj [("uuid", uuid u)].
Definition count_result (n : Z) : json := JObj [("count", JInt n)].
Definition error_result (error details : string) : json := JObj [("details", JStr details); ("error", JStr error)].
Definition answer (id : Z) (results : list json) : json :=
  JObj [("error", JNull); ("id", JInt id); ("result", JArr results)].
Definition is_result (r : json) : Prop := (exists u, r = row_result u) \/ (exists n, r = count_result n).
Definition refusal (v : option json) : Prop :=
  exists id good e t rest, v = Some (answer id (good ++ error_result e t :: rest)) /\ Forall is_result good.

(** The peer of a patch port, from the members of an interface. *)
Definition patch_peer (more : list (string * json)) : option string :=
  match more with
  | [(_, JArr [_; JArr [JArr [JStr k; JStr p]]]); (_, JStr t)] =>
      if bool_decide (k = "peer") && bool_decide (t = "patch") then Some p else None
  | _ => None
  end.
Definition insert_request (id : Z) (iface name uuid_name : string) (ofport : Z) (more : list (string * json))
    (bridge : string) (ports : list string) : json :=
  transaction id
    [insert_row "Interface" (interface_row name ofport more) iface; insert_row "Port" (port_row name iface) uuid_name;
     update_ports bridge ((uuid <$> ports) ++ [named_uuid uuid_name]); next_cfg].

(** Ports that a bridge refers to stay. *)
Definition ports_stay (a b : DB) : Prop :=
  forall bu ps u row, db_bridges b !! bu = Some ps -> u ∈ ps -> db_ports a !! u = Some row -> db_ports b !! u = Some row.

(** What is received for a request that is sent. *)
Definition exchanged {W} `{!Ovsdb W} (request : json) (w w' : W) (v : option json) : Prop :=
  exists w1, db_send request w = (w1, true) /\ db_recv w1 = (w', Some v).
Class OvsdbLaws (W : Type) `{!Ovsdb W} := {
  db : W -> DB;
  law_connect w : db (fst (db_connect w)) = db w;
  law_close w : db (fst (db_close w)) = db w;
  law_script c w : db (fst (run_script c w)) = db w;
  (** no bridge has an empty UUID *)
  law_uuid w : db_bridges (db w) !! EmptyString = None;
  (** an interface and its port, given to a bridge with ports it has already *)
  law_insert id iface name uuid_name ofport more bridge ports w w' v :
    exchanged (insert_request id iface name uuid_name ofport more bridge ports) w w' v ->
    refusal v
    \/ exists iu pu,
         v = Some (answer id [row_result iu; row_result pu; count_result 1; count_result 1])
         /\ bridge ∈ dom (db_bridges (db w)) /\ (pu ∉ dom (db_ports (db w)))
         /\ db_bridges (db w') = <[bridge := list_to_set (ports ++ [pu])]> (db_bridges (db w))
         /\ db_ports (db w') !! pu = Some {| pr_name := name; pr_ofport := ofport; pr_peer := patch_peer more |}
         /\ ports_stay (db w) (db w');
  (** a bridge is left with some of its ports *)
  law_restrict id bridge ports w w' v :
    exchanged (transaction id [update_ports bridge (uuid <$> ports); next_cfg]) w w' v ->
    match db_bridges (db w) !! bridge with
    | None => db w' = db w
    | Some ps =>
        list_to_set ports ⊆ ps ->
        db_bridges (db w') = <[bridge := list_to_set ports]> (db_bridges (db w)) /\ ports_stay (db w) (db w')
    end;
  (** a bridge and its controller *)
  law_create address local port d id w w' v :
    exchanged (create_bridge address local port d id) w w' v ->
    refusal v
    \/ exists cu bu,
         v = Some (answer id [row_result cu; row_result bu; count_result 1])
         /\ bu <> EmptyString /\ (bu ∉ dom (db_bridges (db w)))
         /\ db_bridges (db w') = <[bu := ∅]> (db_bridges (db w)) /\ ports_stay (db w) (db w');
  (** the bridges that are left; a UUID that is not one of a bridge is refused *)
  law_bridges id bridges w w' v :
    exchanged (transaction id [update_bridges bridges; next_cfg]) w w' v ->
    ports_stay (db w) (db w')
    /\ if decide (Forall (.∈ dom (db_bridges (db w))) bridges)
       then db_bridges (db w') = filter (fun p => fst p ∈ bridges) (db_bridges (db w))
       else db_bridges (db w') = db_bridges (db w)
}.

Section steps.
Context {W : Type} `{!Ovsdb W}.
#[local] Abbreviation sys := (sys (W := W)).
#[local] Abbreviation mk c w := ({| cmd := c; net := w |} : sys).
Implicit Types (s : sys) (c : commands) (w : W).

Lemma bind_step {A B} (m : prog sys A) (k : A -> prog sys B) s s' a Q E :
  m s = (s', Ret a) -> wp (k a) Q E s' -> wp (m ≫= k) Q E s.
Proof. intros Hm Hk. unfold wp, mbind, prog_bind. by rewrite Hm. Qed.

Lemma wp_num n (Q : sys -> Z -> Prop) E s : Q s (ctr (cmd s) n) -> wp (num n) Q E s.
Proof. done. Qed.
Lemma wp_rd {A} (f : commands -> A) (Q : sys -> A -> Prop) E s : Q s (f (cmd s)) -> wp (rd f) Q E s.
Proof. done. Qed.
Lemma wp_incr n (Q : sys -> unit -> Prop) E c w : Q (mk (c_ctr n (ctr c n + 1) c) w) tt -> wp (incr n) Q E (mk c w).
Proof. done. Qed.
Lemma text_at_run f k c w : text_at f k (mk c w) = (mk (touch_text f k c) w, Ret (tx c f k)).
Proof.
  unfold text_at, mbind, prog_bind, rd, gets, touch_text, tx. cbn [cmd]. by destruct (texts c f !! k).
Qed.
Lemma list_at_run f k c w : list_at f k (mk c w) = (mk (touch_list f k c) w, Ret (ls c f k)).
Proof.
  unfold list_at, mbind, prog_bind, rd, gets, touch_list, ls. cbn [cmd]. by destruct (lists c f !! k).
Qed.
Lemma id_at_run f k c w : id_at f k (mk c w) = (mk (touch_id f k c) w, Ret (di c f k)).
Proof. unfold id_at, mbind, prog_bind, rd, gets, touch_id, di. cbn [cmd]. by destruct (ids c f !! k). Qed.
Lemma links_at_run k c w : links_at k (mk c w) = (mk (touch_links k c) w, Ret (lk c k)).
Proof.
  unfold links_at, mbind, prog_bind, rd, gets, touch_links, lk. cbn [cmd]. by destruct (virtual_link_id c !! k).
Qed.

(** Look-ups: the maps read the same afterwards. *)
Lemma wp_text_at f k (Q : sys -> string -> Prop) E c w :
  (forall c', same c c' -> Q (mk c' w) (tx c f k)) -> wp (text_at f k) Q E (mk c w).
Proof. intros H. unfold wp. rewrite text_at_run. apply H, touch_text_same. Qed.
Lemma wp_list_at f k (Q : sys -> list string -> Prop) E c w :
  (forall c', same c c' -> Q (mk c' w) (ls c f k)) -> wp (list_at f k) Q E (mk c w).
Proof. intros H. unfold wp. rewrite list_at_run. apply H, touch_list_same. Qed.
Lemma wp_id_at f k (Q : sys -> Z -> Prop) E c w :
  (forall c', same c c' -> Q (mk c' w) (di c f k)) -> wp (id_at f k) Q E (mk c w).
Proof. intros H. unfold wp. rewrite id_at_run. apply H, touch_id_same. Qed.
Lemma wp_links_at k (Q : sys -> list Z -> Prop) E c w :
  (forall c', same c c' -> Q (mk c' w) (lk c k)) -> wp (links_at k) Q E (mk c w).
Proof. intros H. unfold wp. rewrite links_at_run. apply H, touch_links_same. Qed.
(** Assignments. *)
Lemma wp_put_text f k v (Q : sys -> unit -> Prop) E c w : Q (mk (c_text f k v c) w) tt -> wp (put_text f k v) Q E (mk c w).
Proof. done. Qed.
Lemma wp_put_list f k v (Q : sys -> unit -> Prop) E c w : Q (mk (c_list f k v c) w) tt -> wp (put_list f k v) Q E (mk c w).
Proof. done. Qed.
Lemma wp_put_id f k v (Q : sys -> unit -> Prop) E c w : Q (mk (c_id f k v c) w) tt -> wp (put_id f k v) Q E (mk c w).
Proof. done. Qed.
Lemma wp_put_links k v (Q : sys -> unit -> Prop) E c w : Q (mk (c_links k v c) w) tt -> wp (put_links k v) Q E (mk c w).
Proof. done. Qed.

#[export] Instance c_list_proper f k v : Proper (same ==> same) (c_list f k v).
Proof. intros c c' H. by_views. Qed.
#[export] Instance c_text_proper f k v : Proper (same ==> same) (c_text f k v).
Proof. intros c c' H. by_views. Qed.
#[export] Instance c_id_proper f k v : Proper (same ==> same) (c_id f k v).
Proof. intros c c' H. by_views. Qed.
#[export] Instance c_links_proper k v : Proper (same ==> same) (c_links k v).
Proof. intros c c' H. by_views. Qed.
#[export] Instance c_ctr_proper n v : Proper (same ==> same) (c_ctr n v).
Proof. intros c c' H. by_views. Qed.

Lemma wp_push f k x (Q : sys -> unit -> Prop) E c w :
  (forall c', same (c_list f k (ls c f k ++ [x]) c) c' -> Q (mk c' w) tt) -> wp (push f k x) Q E (mk c w).
Proof.
  intros H. unfold push. apply prog_wp_bind, wp_list_at. intros c1 H1. by apply wp_put_list, H, c_list_proper.
Qed.
Lemma wp_remove f k x (Q : sys -> unit -> Prop) E c w :
  (forall c', same (c_list f k (filter (fun y => y <> x) (ls c f k)) c) c' -> Q (mk c' w) tt) ->
  wp (remove f k x) Q E (mk c w).
Proof.
  intros H. unfold remove. apply prog_wp_bind, wp_list_at. intros c1 H1. by apply wp_put_list, H, c_list_proper.
Qed.
Lemma wp_forget_id i (Q : sys -> unit -> Prop) E c w :
  (forall c', same (c_id vl_PortIDtoSwitchID i 0 c) c' -> Q (mk c' w) tt) -> wp (forget_id i) Q E (mk c w).
Proof.
  intros H. apply H. split; try done. intros f k. views. unfold di. cbn.
  destruct (decide (f = vl_PortIDtoSwitchID)) as [->|]; [rewrite fn_lookup_insert|rewrite fn_lookup_insert_ne by done].
  - destruct (decide (k = i)) as [->|]; [rewrite decide_True by done; by rewrite lookup_delete_eq|].
    rewrite decide_False by tauto. by rewrite lookup_delete_ne.
  - by rewrite decide_False by tauto.
Qed.
Lemma wp_forget_list f d (Q : sys -> unit -> Prop) E c w :
  (forall c', same (c_list f d [] c) c' -> Q (mk c' w) tt) -> wp (forget_list f d) Q E (mk c w).
Proof.
  intros H. apply H. split; try done. intros f' k. views. unfold ls. cbn.
  destruct (decide (f' = f)) as [->|]; [rewrite fn_lookup_insert|rewrite fn_lookup_insert_ne by done].
  - destruct (decide (k = d)) as [->|]; [rewrite decide_True by done; by rewrite lookup_delete_eq|].
    rewrite decide_False by tauto. by rewrite lookup_delete_ne.
  - by rewrite decide_False by tauto.
Qed.

(** *** Talking to the server *)
Definition sme (s : sys) (e : exn) : Prop := e = SwitchManagerException.

Lemma wp_exchange r (Q : sys -> json -> Prop) c w :
  (forall w' v, exchanged r w w' v -> Q (mk c w') (default JNull v)) -> wp (exchange r) Q sme (mk c w).
Proof.
  intros H. unfold exchange, wp, mbind, prog_bind, on_net. cbn [net cmd].
  destruct (db_send r w) as [w1 [|]] eqn:E1; cbn; [|done]. destruct (db_recv w1) as [w2 [v|]] eqn:E2; cbn; [|done].
  apply H. by exists w1.
Qed.

(** An answer with an error is not survived. *)
Lemma read_good_ops f d i good rest (Q : sys -> unit -> Prop) c w :
  Forall is_result good ->
  (forall c', wp (read_ops (record_port f d) (i + length good) rest) Q sme (mk c' w)) ->
  wp (read_ops (record_port f d) i (good ++ rest)) Q sme (mk c w).
Proof.
  intros Hg. revert i c. induction Hg as [|r good Hr Hg IH]; intros i c H; cbn [app].
  - specialize (H c). by rewrite Nat.add_0_r in H.
  - assert (H' : forall c', wp (read_ops (record_port f d) (S i + length good) rest) Q sme (mk c' w)).
    { intros c'. specialize (H c'). cbn in H. by rewrite Nat.add_succ_r in H. }
    cbn [read_ops]. apply prog_wp_bind. destruct Hr as [[u ->]|[n ->]].
    + eapply wp_of_out; [done|]. apply prog_wp_bind. cbn [for_each]. apply prog_wp_bind.
      unfold read_member. rewrite bool_decide_true by done. unfold record_port. apply prog_wp_bind.
      eapply wp_of_out; [done|]. destruct (i =? 1)%nat.
      * apply prog_wp_bind. eapply wp_of_out; [done|]. apply wp_push. intros c' _. apply prog_wp_ret, IH, H'.
      * apply prog_wp_ret, prog_wp_ret, IH, H'.
    + eapply wp_of_out; [done|]. apply prog_wp_bind. cbn [for_each]. apply prog_wp_bind.
      unfold read_member. rewrite !bool_decide_false by done. apply prog_wp_ret, prog_wp_ret, IH, H'.
Qed.
Lemma read_refusal f d v (Q : sys -> unit -> Prop) c w :
  refusal v -> wp (read_answer (record_port f d) (default JNull v)) Q sme (mk c w).
Proof.
  intros (id & good & e & t & rest & -> & Hg). unfold read_answer. cbn [default]. apply prog_wp_bind.
  eapply wp_of_out; [done|]. cbn [for_each]. do 2 (apply prog_wp_bind; rewrite bool_decide_false by done; apply prog_wp_ret).
  apply prog_wp_bind. rewrite bool_decide_true by done. apply prog_wp_bind. eapply wp_of_out; [done|].
  apply read_good_ops; [done|]. intros c'. cbn [read_ops]. apply prog_wp_bind. eapply wp_of_out; [done|].
  apply prog_wp_bind. cbn [for_each]. apply prog_wp_bind. unfold read_member. rewrite bool_decide_false by done.
  rewrite bool_decide_true by done. apply prog_wp_bind. eapply wp_of_out; [done|]. by apply wp_throw.
Qed.
(** The new port is recorded. *)
Lemma read_insertion f d id iu pu (Q : sys -> unit -> Prop) c w :
  (forall c', same (c_list f d (ls c f d ++ [pu]) c) c' -> Q (mk c' w) tt) ->
  wp (read_answer (record_port f d) (answer id [row_result iu; row_result pu; count_result 1; count_result 1])) Q sme (mk c w).
Proof.
  intros H. unfold read_answer. apply prog_wp_bind. eapply wp_of_out; [done|]. cbn [for_each].
  do 2 (apply prog_wp_bind; rewrite bool_decide_false by done; apply prog_wp_ret).
  apply prog_wp_bind. rewrite bool_decide_true by done. apply prog_wp_bind. eapply wp_of_out; [done|].
  cbn [read_ops getObject row_result]. apply prog_wp_bind. eapply wp_of_out; [done|]. apply prog_wp_bind. cbn [for_each].
  apply prog_wp_bind. unfold read_member. rewrite bool_decide_true by done. unfold record_port. apply prog_wp_bind.
  eapply wp_of_out; [done|]. cbn [Nat.eqb]. apply prog_wp_ret, prog_wp_ret.
  apply prog_wp_bind. eapply wp_of_out; [done|]. apply prog_wp_bind. apply prog_wp_bind. apply prog_wp_bind.
  eapply wp_of_out; [done|]. cbn [Nat.eqb]. apply prog_wp_bind. eapply wp_of_out; [done|]. apply wp_push. intros c' Hc.
  apply prog_wp_ret. do 2 (apply prog_wp_bind; eapply wp_of_out; [done|]; apply prog_wp_bind; apply prog_wp_bind;
    rewrite !bool_decide_false by done; apply prog_wp_ret, prog_wp_ret). apply prog_wp_ret, prog_wp_ret. by apply H.
Qed.

Context `{!OvsdbLaws W}.

Lemma wp_connect (Q : sys -> unit -> Prop) c w :
  (forall w', db w' = db w -> Q (mk c w') tt) -> wp cmd_connect Q sme (mk c w).
Proof.
  intros H. unfold cmd_connect, wp, mbind, prog_bind, on_net. cbn [net cmd].
  pose proof (law_connect w). destruct (db_connect w) as [w1 [|]]; cbn; [by apply H|done].
Qed.
Lemma wp_disconnect (Q : sys -> unit -> Prop) c w :
  (forall w', db w' = db w -> Q (mk c w') tt) -> wp cmd_disconnect Q sme (mk c w).
Proof.
  intros H. unfold cmd_disconnect, wp, mbind, prog_bind, on_net. cbn [net cmd].
  pose proof (law_close w). destruct (db_close w) as [w1 [|]]; cbn; [by apply H|done].
Qed.
Lemma wp_known_ports d (Q : sys -> list json -> Prop) E c w :
  (forall c', same c c' -> Q (mk c' w) (uuid <$> (ls c port_uuid d ++ ls c vport_uuid d ++ ls c gport_uuid d))) ->
  wp (known_ports d) Q E (mk c w).
Proof.
  intros H. unfold known_ports. apply prog_wp_bind, wp_list_at. intros c1 H1. apply prog_wp_bind, wp_list_at. intros c2 H2.
  apply prog_wp_bind, wp_list_at. intros c3 H3. apply prog_wp_ret. views. apply H. by rewrite H1, H2.
Qed.

(** The ports of an LSI by UUID, and what an inserted port does to the database. *)
Definition known (c : commands) (d : Z) : list string := ls c port_uuid d ++ ls c vport_uuid d ++ ls c gport_uuid d.
Record inserted (d : Z) (c : commands) (u : string) (row : prow) (w w' : W) : Prop := {
  in_bridge : tx c switch_uuid d <> EmptyString;
  in_known : tx c switch_uuid d ∈ dom (db_bridges (db w));
  in_fresh : u ∉ dom (db_ports (db w));
  in_bridges : db_bridges (db w') = <[tx c switch_uuid d := list_to_set (known c d ++ [u])]> (db_bridges (db w));
  in_row : db_ports (db w') !! u = Some row;
  in_stay : ports_stay (db w) (db w')
}.
Definition after_insert (f : list_map) (d : Z) (u : string) (c : commands) : commands :=
  c_ctr rnumber (ctr c rnumber + 1) (c_ctr tid (ctr c tid + 1) (c_list f d (ls c f d ++ [u]) c)).

Lemma wp_insert_port f d iface name ofport more uuid_name (Q : sys -> unit -> Prop) c w :
  (forall c' w' u, same (after_insert f d u c) c' ->
     inserted d c u {| pr_name := name; pr_ofport := ofport; pr_peer := patch_peer more |} w w' -> Q (mk c' w') tt) ->
  wp (insert_port f d iface (interface_row name ofport more) name uuid_name) Q sme (mk c w).
Proof.
  intros H. unfold insert_port. apply prog_wp_bind, wp_text_at. intros c1 H1. apply prog_wp_bind, wp_known_ports. intros c2 H2.
  apply prog_wp_bind, wp_num. apply prog_wp_bind, wp_exchange. cbn [cmd]. views. intros w1 v Hv. apply prog_wp_bind.
  apply law_insert in Hv as [Hr|(iu & pu & -> & Hb & Hf & Hbs & Hrow & Hstay)]; [by apply read_refusal|].
  cbn [default]. apply read_insertion. intros c3 H3. apply prog_wp_bind, wp_incr. apply prog_wp_bind, wp_incr.
  apply wp_disconnect. intros w2 Hw2. apply (H _ _ pu).
  - unfold after_insert. by_views.
  - split; rewrite ?Hw2; try done. intros E. rewrite E in Hb. apply elem_of_dom in Hb as [? Hb]. by rewrite law_uuid in Hb.
Qed.

Lemma wp_restrict_ports d (Q : sys -> unit -> Prop) c0 c w :
  tx c0 switch_uuid d = tx c switch_uuid d ->
  (forall c' w',
     same (c_ctr tid (ctr c tid + 1) c) c' ->
     match db_bridges (db w) !! tx c switch_uuid d with
     | None => db w' = db w
     | Some ps =>
         list_to_set (known c d) ⊆ ps ->
         db_bridges (db w') = <[tx c switch_uuid d := list_to_set (known c d)]> (db_bridges (db w)) /\ ports_stay (db w) (db w')
     end -> Q (mk c' w') tt) ->
  wp (restrict_ports (tx c0 switch_uuid d) d) Q sme (mk c w).
Proof.
  intros -> H. unfold restrict_ports. apply prog_wp_bind, wp_known_ports. intros c1 H1. apply prog_wp_bind, wp_num.
  apply prog_wp_bind, wp_exchange. intros w1 v Hv. apply prog_wp_bind, wp_incr, wp_disconnect. intros w2 Hw2.
  apply H; [by_views|]. apply law_restrict in Hv. by rewrite Hw2.
Qed.
End steps.

(** ** Agreement *)

(** A patch port: its name, UUID, number and peer. *)
Record vp := { v_name : string; v_uuid : string; v_port : Z; v_peer : string }.
Definition vrow (v : vp) : prow := {| pr_name := v_name v; pr_ofport := v_port v; pr_peer := Some (v_peer v) |}.
Definition live (c : commands) (d : Z) : Prop := tx c switch_uuid d <> EmptyString.
Definition vport_name (k : Z) : string := "vport" +:+ show k.
Definition below (n : Z) (name : string) : Prop := exists k, k < n /\ name = vport_name k.

(** The LSIs the plugin knows are bridges of the database, with the ports of its
    lists; [g] are the patch ports of each, in the order of the lists, and no two
    of them have a name or a number in common; [rnumber] is beyond all numbers in
    use, and [n] beyond those of the names. *)
Record agrees (n : Z) (g : Z -> list vp) (c : commands) (D : DB) : Prop := {
  ag_bridge d : live c d -> db_bridges D !! tx c switch_uuid d = Some (list_to_set (known c d));
  ag_inj d d' : live c d -> tx c switch_uuid d = tx c switch_uuid d' -> d = d';
  ag_uuids d : live c d -> ls c vport_uuid d = v_uuid <$> g d;
  ag_rows d v : live c d -> v ∈ g d -> db_ports D !! v_uuid v = Some (vrow v);
  ag_others d u : live c d -> u ∈ ls c port_uuid d ++ ls c gport_uuid d ->
    exists row, db_ports D !! u = Some row /\ pr_peer row = None;
  ag_unique d d' v v' : live c d -> live c d' -> v ∈ g d -> v' ∈ g d' ->
    v_name v = v_name v' \/ v_port v = v_port v' -> d = d' /\ v = v';
  ag_nodup d : live c d -> NoDup (g d);
  ag_pos : 0 < ctr c rnumber;
  ag_below d v : live c d -> v ∈ g d ->
    0 < v_port v < ctr c rnumber /\ below n (v_name v) /\ below n (v_peer v);
  ag_l2r i : ctr c rnumber <= i -> di c vl_LocalPortIDtoRemotePortID i = 0;
  ag_order i : di c vl_LocalPortIDtoRemotePortID i = 0 \/ i < di c vl_LocalPortIDtoRemotePortID i
}.
(** The lists of names go with those of UUIDs. *)
Record named (g : Z -> list vp) (c : commands) : Prop := {
  na_names d : live c d -> ls c vport_l d = v_name <$> g d;
  na_ids d v : live c d -> v ∈ g d -> tx c port_id (v_port v) = v_name v;
  na_dead d : ~ live c d -> ls c vport_l d = []
}.
(** Nothing is known of the LSIs that do not exist yet. *)
Definition fresh (c : commands) : Prop :=
  forall d, ctr c dnumber <= d -> tx c switch_uuid d = EmptyString /\ forall f, ls c f d = [].
(** The names of patch ports go in pairs. *)
Definition mate (x y : string) : Prop :=
  exists k, x = vport_name (2 * k + 1) /\ y = vport_name (2 * k + 2) \/ x = vport_name (2 * k + 2) /\ y = vport_name (2 * k + 1).
Definition bridge_name (d : Z) : string := "Bridge" +:+ show d.
(** The links written down for an LSI are those of patch ports it had: the near
    end, if it is still there, is on the LSI. *)
Record linked (n : Z) (g : Z -> list vp) (c : commands) : Prop := {
  li_odd : exists k, n = 2 * k + 1;
  li_mate d v : live c d -> v ∈ g d -> mate (v_name v) (v_peer v);
  li_switch d : live c d -> tx c switch_id d = bridge_name d;
  li_new d : ctr c dnumber <= d -> lk c (bridge_name d) = [];
  li_ids d i : live c d -> i ∈ lk c (bridge_name d) ->
    i < ctr c rnumber /\ di c vl_LocalPortIDtoRemotePortID i < ctr c rnumber /\ below n (tx c port_id i)
    /\ mate (tx c port_id i) (tx c port_id (di c vl_LocalPortIDtoRemotePortID i))
    /\ forall e v, live c e -> v ∈ g e -> v_name v = tx c port_id i -> e = d
}.
Definition synced {W} `{OvsdbLaws W} (s : sys (W := W)) : Prop :=
  exists g, agrees (ctr (cmd s) pnumber) g (cmd s) (db (net s)) /\ named g (cmd s) /\ fresh (cmd s)
    /\ linked (ctr (cmd s) pnumber) g (cmd s).

Lemma live_same c c' d : same c c' -> live c' d <-> live c d.
Proof. intros H. unfold live. by views. Qed.
Lemma known_same c c' d : same c c' -> known c' d = known c d.
Proof. intros H. unfold known. by views. Qed.
Lemma agrees_same n g c c' D : agrees n g c D -> same c c' -> agrees n g c' D.
Proof. intros [] H. split; intros *; rewrite ?(live_same c c'), ?(known_same c c') by done; views; eauto. Qed.
Lemma fresh_same c c' : fresh c -> same c c' -> fresh c'.
Proof. intros Hf H d. views. intros Hd. destruct (Hf d Hd) as [? Hl]. split; [done|]. intros f. by views. Qed.
(** Patch ports and numbers of links may go. *)
Lemma linked_shrink n g g' c c' :
  linked n g c -> (forall d, live c' d -> live c d) -> (forall d v, live c' d -> v ∈ g' d -> v ∈ g d) ->
  (forall d, live c' d -> tx c' switch_id d = tx c switch_id d) -> (forall i, tx c' port_id i = tx c port_id i) ->
  (forall i, di c' vl_LocalPortIDtoRemotePortID i = di c vl_LocalPortIDtoRemotePortID i) ->
  ctr c rnumber <= ctr c' rnumber -> ctr c' dnumber = ctr c dnumber ->
  (forall k i, i ∈ lk c' k -> i ∈ lk c k) -> linked n g' c'.
Proof.
  intros [Ko Km Ks Kn Ki] HL Hg Hs Hp Hi Hr Hd Hk. split; try done.
  - intros d v Ld Hv. apply (Km d); auto.
  - intros d Ld. rewrite Hs; auto.
  - intros d. rewrite Hd. intros Hge. specialize (Kn d Hge). destruct (lk c' (bridge_name d)) as [|i l] eqn:E; [done|].
    specialize (Hk (bridge_name d) i). rewrite E, Kn in Hk. specialize (Hk ltac:(by left)). by apply elem_of_nil in Hk.
  - intros d i Ld Hin. rewrite Hi, !Hp. destruct (Ki d i (HL d Ld) (Hk _ _ Hin)) as (? & ? & ? & ? & Hu).
    split_and!; try done; try lia. intros e v Le Hv. apply Hu; auto.
Qed.
Lemma linked_same n g c c' : linked n g c -> same c c' -> linked n g c'.
Proof. intros Hl Hc. eapply linked_shrink; [exact Hl|..]; intros *; rewrite ?(live_same c c') by done; views; auto; lia. Qed.
Lemma named_same g c c' : named g c -> same c c' -> named g c'.
Proof. intros [] H. split; intros *; rewrite ?(live_same c c') by done; views; eauto. Qed.

Lemma agrees_ctr n g k x c D : k <> rnumber -> agrees n g c D -> agrees n g (c_ctr k x c) D.
Proof. intros Hk []. split; intros *; views; rewrite ?decide_False by done; eauto. Qed.
Lemma named_ctr g k x c : named g c -> named g (c_ctr k x c).
Proof. by intros []. Qed.
Lemma live_after c f d u d' : live (after_insert f d u c) d' <-> live c d'.
Proof. done. Qed.
Lemma ls_after c f d u f' d' :
  ls (after_insert f d u c) f' d' = if decide (f' = f /\ d' = d) then ls c f d ++ [u] else ls c f' d'.
Proof. unfold after_insert. by views. Qed.
Lemma rnumber_after c f d u : ctr (after_insert f d u c) rnumber = ctr c rnumber + 1.
Proof. done. Qed.
(** The bridges after an insertion have the ports the plugin then knows. *)
Lemma known_after c f d u d' :
  f ∈ [port_uuid; vport_uuid; gport_uuid] ->
  list_to_set (C := gset string) (known (after_insert f d u c) d')
  = if decide (d' = d) then list_to_set (known c d ++ [u]) else list_to_set (known c d').
Proof.
  intros Hf. unfold known. rewrite !ls_after. destruct (decide (d' = d)) as [->|Hd].
  - rewrite !elem_of_cons, elem_of_nil in Hf. destruct Hf as [->|[->|[->|[]]]]; repeat case_decide; simplify_eq; try tauto; set_solver.
  - by rewrite !decide_False by tauto.
Qed.

(** *** A port is inserted *)
Section inserting.
Context {W : Type} `{OvsdbLaws W}.
Context (n : Z) (g : Z -> list vp) (c : commands) (w w' : W) (d : Z) (u : string) (row : prow) (f : list_map).
Context (Ha : agrees n g c (db w)) (Hi : inserted d c u row w w') (Hf : f ∈ [port_uuid; vport_uuid; gport_uuid]).

Lemma inserted_bridge d' : live c d' ->
  db_bridges (db w') !! tx c switch_uuid d' = Some (list_to_set (known (after_insert f d u c) d')).
Proof.
  intros Hd. rewrite (in_bridges _ _ _ _ _ _ Hi), known_after by done. destruct (decide (d' = d)) as [->|Hne].
  - by rewrite lookup_insert_eq.
  - rewrite lookup_insert_ne; [by apply (ag_bridge _ _ _ _ Ha)|]. intros E. apply Hne. symmetry.
    by apply (ag_inj _ _ _ _ Ha); [apply (in_bridge _ _ _ _ _ _ Hi)|].
Qed.
Lemma inserted_stay d' x r : live c d' -> x ∈ known c d' -> db_ports (db w) !! x = Some r -> db_ports (db w') !! x = Some r.
Proof.
  intros Hd Hx. eapply (in_stay _ _ _ _ _ _ Hi); [by apply inserted_bridge|]. rewrite known_after by done.
  case_decide; subst; apply elem_of_list_to_set; [apply elem_of_app; by left|done].
Qed.
Lemma vport_known d' v : live c d' -> v ∈ g d' -> v_uuid v ∈ known c d'.
Proof.
  intros Hd Hv. unfold known. rewrite !elem_of_app, (ag_uuids _ _ _ _ Ha) by done. right. left. by apply list_elem_of_fmap_2.
Qed.
Lemma inserted_others d' x : live c d' -> x ∈ ls c port_uuid d' ++ ls c gport_uuid d' ->
  exists r, db_ports (db w') !! x = Some r /\ pr_peer r = None.
Proof.
  intros Hd Hx. destruct (ag_others _ _ _ _ Ha d' x Hd Hx) as (r & Hr & Hp). exists r. split; [|done].
  apply (inserted_stay d'); [done| |done]. unfold known. rewrite !elem_of_app in *. tauto.
Qed.
(** A port that is no patch port. *)
Lemma agrees_port : f <> vport_uuid -> pr_peer row = None -> agrees n g (after_insert f d u c) (db w').
Proof.
  intros Hfv Hp. pose proof (ag_pos _ _ _ _ Ha). split; try (intros *; rewrite live_after).
  - apply inserted_bridge.
  - apply (ag_inj _ _ _ _ Ha).
  - intros Hd. rewrite ls_after, decide_False by naive_solver. by apply (ag_uuids _ _ _ _ Ha).
  - intros Hd Hv. apply (inserted_stay d0); [done|by apply vport_known|by apply (ag_rows _ _ _ _ Ha d0)].
  - intros Hd Hx. rewrite !ls_after in Hx. destruct (decide (u0 = u)) as [->|Hu].
    + exists row. split; [apply (in_row _ _ _ _ _ _ Hi)|done].
    + apply (inserted_others d0); [done|]. repeat case_decide; destruct_and?; subst; try set_solver.
  - rewrite live_after. apply (ag_unique _ _ _ _ Ha).
  - apply (ag_nodup _ _ _ _ Ha).
  - rewrite rnumber_after. lia.
  - intros Hd Hv. destruct (ag_below _ _ _ _ Ha d0 v Hd Hv) as [? ?]. split; [|done]. rewrite rnumber_after. lia.
  - intros i Hge. rewrite rnumber_after in Hge. apply (ag_l2r _ _ _ _ Ha). lia.
  - apply (ag_order _ _ _ _ Ha).
Qed.
(** A patch port with a new name and the next number. *)
Lemma agrees_vport v :
  f = vport_uuid -> row = vrow v -> v_uuid v = u -> v_port v = ctr c rnumber ->
  below n (v_name v) -> below n (v_peer v) ->
  (forall d' v', live c d' -> v' ∈ g d' -> v_name v' <> v_name v) ->
  agrees n (<[d := g d ++ [v]]> g) (after_insert f d u c) (db w').
Proof.
  intros Hfv Hrow Hu Hport Hn Hp Hnew. pose proof (ag_pos _ _ _ _ Ha).
  assert (Hg : forall d' v', v' ∈ (<[d := g d ++ [v]]> g) d' <-> v' ∈ g d' \/ d' = d /\ v' = v).
  { intros d' v'. destruct (decide (d' = d)) as [->|]; [rewrite fn_lookup_insert|rewrite fn_lookup_insert_ne by done; naive_solver].
    rewrite elem_of_app, list_elem_of_singleton. naive_solver. }
  assert (Hold : forall d' v', live c d' -> v' ∈ g d' -> v_port v' < v_port v).
  { intros d' v' Hd Hv. rewrite Hport. by apply (ag_below _ _ _ _ Ha d'). }
  split; try (intros *; rewrite live_after).
  - apply inserted_bridge.
  - apply (ag_inj _ _ _ _ Ha).
  - intros Hd. rewrite ls_after. destruct (decide (d0 = d)) as [->|].
    + rewrite decide_True, fn_lookup_insert, fmap_app by done. subst. by rewrite (ag_uuids _ _ _ _ Ha).
    + rewrite decide_False, fn_lookup_insert_ne by naive_solver. by apply (ag_uuids _ _ _ _ Ha).
  - intros Hd [Hv|[-> ->]]%Hg.
    + apply (inserted_stay d0); [done|by apply vport_known|by apply (ag_rows _ _ _ _ Ha d0)].
    + rewrite Hu, (in_row _ _ _ _ _ _ Hi). by rewrite Hrow.
  - intros Hd Hx. rewrite !ls_after, !decide_False in Hx by naive_solver. by apply (inserted_others d0).
  - rewrite live_after. intros Hd Hd' [Hv|[-> ->]]%Hg [Hv'|[-> ->]]%Hg E.
    + by apply (ag_unique _ _ _ _ Ha).
    + destruct E as [E|E]; [by destruct (Hnew d0 v0 Hd Hv)|]. specialize (Hold d0 v0 Hd Hv). lia.
    + destruct E as [E|E]; [by destruct (Hnew d' v' Hd' Hv')|]. specialize (Hold d' v' Hd' Hv'). lia.
    + done.
  - intros Hd. destruct (decide (d0 = d)) as [->|]; [rewrite fn_lookup_insert|rewrite fn_lookup_insert_ne by done;
      by apply (ag_nodup _ _ _ _ Ha)]. apply NoDup_app. split; [by apply (ag_nodup _ _ _ _ Ha)|]. split; [|apply NoDup_singleton].
    intros x Hx ->%list_elem_of_singleton. by destruct (Hnew d v Hd Hx).
  - rewrite rnumber_after. lia.
  - rewrite rnumber_after. intros Hd [Hv|[-> ->]]%Hg; [|split; [lia|done]].
    destruct (ag_below _ _ _ _ Ha d0 v0 Hd Hv) as [? ?]. split; [lia|done].
  - intros i Hge. rewrite rnumber_after in Hge. apply (ag_l2r _ _ _ _ Ha). lia.
  - apply (ag_order _ _ _ _ Ha).
Qed.
End inserting.

(** *** Ports are taken from a bridge *)
Lemma agrees_shrink n g g' c c' D D' :
  agrees n g c D ->
  (forall d, tx c' switch_uuid d = tx c switch_uuid d) -> ctr c' rnumber = ctr c rnumber ->
  (forall i, di c' vl_LocalPortIDtoRemotePortID i = di c vl_LocalPortIDtoRemotePortID i) ->
  (forall d, live c d -> ls c' vport_uuid d = v_uuid <$> g' d) ->
  (forall d, live c d -> g' d `sublist_of` g d) ->
  (forall d u, live c d -> u ∈ ls c' port_uuid d ++ ls c' gport_uuid d -> u ∈ ls c port_uuid d ++ ls c gport_uuid d) ->
  (forall d, live c d -> db_bridges D' !! tx c switch_uuid d = Some (list_to_set (known c' d))) -> ports_stay D D' ->
  agrees n g' c' D'.
Proof.
  intros Ha Ht Hr Hl Hu Hg Ho Hb Hs.
  assert (HL : forall d, live c' d <-> live c d) by (intros d; unfold live; by rewrite Ht).
  assert (Hin : forall d v, live c d -> v ∈ g' d -> v ∈ g d) by (intros d v Hd Hv; eapply elem_of_sublist; eauto).
  split; try (intros *; rewrite !HL).
  - rewrite Ht. apply Hb.
  - rewrite !Ht. apply (ag_inj _ _ _ _ Ha).
  - apply Hu.
  - intros Hd Hv. eapply Hs; [by apply (Hb d)| |by apply (ag_rows _ _ _ _ Ha d); [|apply Hin]].
    apply elem_of_list_to_set. unfold known. rewrite Hu by done. rewrite !elem_of_app. right. left. by apply list_elem_of_fmap_2.
  - intros Hd Hx. destruct (ag_others _ _ _ _ Ha d u Hd (Ho _ _ Hd Hx)) as (r & Hr' & Hp). exists r. split; [|done].
    eapply Hs; [by apply (Hb d)| |done]. apply elem_of_list_to_set. unfold known. rewrite !elem_of_app in *. tauto.
  - intros Hd Hd' Hv Hv'. apply (ag_unique _ _ _ _ Ha); auto.
  - intros Hd. eapply sublist_NoDup; [by apply (ag_nodup _ _ _ _ Ha)|by apply Hg].
  - rewrite Hr. apply (ag_pos _ _ _ _ Ha).
  - rewrite Hr. intros Hd Hv. apply (ag_below _ _ _ _ Ha d); auto.
  - intros i. rewrite Hr, Hl. apply (ag_l2r _ _ _ _ Ha).
  - intros i. rewrite Hl. apply (ag_order _ _ _ _ Ha).
Qed.

Lemma uuid_of_fmap {A} (f h : A -> string) x (l : list A) :
  uuid_of x (f <$> l) (h <$> l) = Ret (h <$> head (filter (fun a => f a = x) l)).
Proof.
  induction l as [|a l IH]; [done|]. cbn [fmap list_fmap uuid_of]. rewrite filter_cons.
  destruct (decide (f a = x)); [by rewrite bool_decide_true|by rewrite bool_decide_false].
Qed.
Lemma filter_fmap_inj {A B} `{EqDecision B} (f : A -> B) (P : A -> Prop) `{!forall a, Decision (P a)} y (l : list A) :
  (forall a, a ∈ l -> P a <-> f a <> y) -> filter (fun b => b <> y) (f <$> l) = f <$> filter P l.
Proof.
  induction l as [|a l IH]; intros Hl; [done|]. cbn [fmap list_fmap]. rewrite !filter_cons.
  assert (IH' := IH ltac:(intros; apply Hl; by right)). pose proof (Hl a ltac:(by left)) as Ha.
  destruct (decide (P a)), (decide (f a <> y)); cbn [fmap list_fmap]; rewrite <- ?IH'; try done; tauto.
Qed.
(** The patch ports left when the one called [name] goes. *)
Definition without (d : Z) (name : string) (g : Z -> list vp) : Z -> list vp :=
  <[d := filter (fun v => v_name v <> name) (g d)]> g.
Lemma elem_of_without d name g d' v : v ∈ without d name g d' <-> v ∈ g d' /\ (d' = d -> v_name v <> name).
Proof.
  unfold without. destruct (decide (d' = d)) as [->|]; [rewrite fn_lookup_insert|rewrite fn_lookup_insert_ne by done; naive_solver].
  rewrite list_elem_of_filter. naive_solver.
Qed.
Lemma uuid_inj n g c D d v v' : agrees n g c D -> live c d -> v ∈ g d -> v' ∈ g d -> v_uuid v = v_uuid v' -> v = v'.
Proof.
  intros Ha Hd Hv Hv' E. pose proof (ag_rows _ _ _ _ Ha d v Hd Hv) as R. pose proof (ag_rows _ _ _ _ Ha d v' Hd Hv') as R'.
  rewrite E, R' in R. injection R as R1 _ _. symmetry. apply (ag_unique _ _ _ _ Ha d d); auto.
Qed.

(** What the removal of a virtual link leaves alone. *)
Record kept (d : Z) (c c' : commands) : Prop := {
  ke_tx f k : tx c' f k = tx c f k;
  ke_di f k : di c' f k = di c f k;
  ke_lk k : lk c' k = lk c k;
  ke_ctr n : n <> tid -> ctr c' n = ctr c n;
  ke_ls f k : f <> vport_uuid /\ f <> vport_l \/ k <> d -> ls c' f k = ls c f k;
  ke_nil f : ls c f d = [] -> ls c' f d = []
}.

Section deleting.
Context {W : Type} `{OvsdbLaws W}.
#[local] Abbreviation sys := (sys (W := W)).
#[local] Abbreviation mk c w := ({| cmd := c; net := w |} : sys).

(** The end of a link is taken from the lists of its LSI, and from its bridge. *)
Lemma delete_agrees n g c c1 d name D D' :
  agrees n g c D -> named g c -> live c d ->
  same (c_list vport_l d (v_name <$> without d name g d) (c_list vport_uuid d (v_uuid <$> without d name g d) c)) c1 ->
  db_bridges D' = <[tx c switch_uuid d := list_to_set (known c1 d)]> (db_bridges D) -> ports_stay D D' ->
  agrees n (without d name g) c1 D' /\ named (without d name g) c1.
Proof.
  intros Ha Hn Hd Hc Hb Hs.
  assert (HL : forall d', live c1 d' <-> live c d') by (intros d'; unfold live; by views).
  assert (Hne : forall d', d' <> d -> without d name g d' = g d') by (intros; unfold without; by rewrite fn_lookup_insert_ne).
  split.
  - eapply agrees_shrink; [exact Ha|..|exact Hs].
    + intros d'. by views.
    + by views.
    + intros i. by views.
    + intros d' Hd'. views. destruct (decide (d' = d)) as [->|Hx]; [by rewrite decide_False, decide_True by naive_solver|].
      rewrite !decide_False by naive_solver. rewrite Hne by done. by apply (ag_uuids _ _ _ _ Ha).
    + intros d' _. destruct (decide (d' = d)) as [->|Hx]; [|by rewrite Hne]. unfold without. rewrite fn_lookup_insert. apply sublist_filter.
    + intros d' u Hd'. views. rewrite !decide_False by naive_solver. done.
    + intros d' Hd'. rewrite Hb. destruct (decide (d' = d)) as [->|Hx]; [by rewrite lookup_insert_eq|].
      rewrite lookup_insert_ne.
      * rewrite (ag_bridge _ _ _ _ Ha) by done. do 2 f_equal. unfold known. views. by rewrite !decide_False by naive_solver.
      * intros E. apply Hx. symmetry. by apply (ag_inj _ _ _ _ Ha).
  - split; intros *; rewrite HL; views.
    + intros Hd'. destruct (decide (d0 = d)) as [->|Hx]; [by rewrite decide_True|].
      rewrite !decide_False by naive_solver. rewrite Hne by done. by apply (na_names _ _ Hn).
    + intros Hd' [Hv _]%elem_of_without. by apply (na_ids _ _ Hn d0).
    + intros Hd'. rewrite !decide_False by naive_solver. by apply (na_dead _ _ Hn).
Qed.

Lemma uuids_without n g c D d v :
  agrees n g c D -> live c d -> v ∈ g d ->
  filter (fun u => u <> v_uuid v) (v_uuid <$> g d) = v_uuid <$> without d (v_name v) g d.
Proof.
  intros Ha Hd Hv. unfold without. rewrite fn_lookup_insert. apply filter_fmap_inj. intros a Hin. split; intros E E'.
  - apply E. f_equal. by apply (uuid_inj n g c D d).
  - apply E. f_equal. apply (ag_unique _ _ _ _ Ha d d); auto.
Qed.
Lemma names_without d name g : filter (fun x => x <> name) (v_name <$> g d) = v_name <$> without d name g d.
Proof. unfold without. rewrite fn_lookup_insert. by apply filter_fmap_inj. Qed.
Lemma without_none d name g : head (filter (fun v => v_name v = name) (g d)) = None -> without d name g d = g d.
Proof.
  unfold without. rewrite fn_lookup_insert. intros Hh. destruct (filter (fun v => v_name v = name) (g d)) eqn:E; [|done].
  clear Hh. induction (g d) as [|v l IH]; [done|]. rewrite filter_cons in E |- *. destruct (decide (v_name v = name)); [done|].
  rewrite decide_True by done. f_equal. by apply IH.
Qed.

(** What is said of an LSI that is gone does not matter. *)
Lemma without_dead n g c D c' d name :
  ~ live c d -> (forall d', live c' d' <-> live c d') -> agrees n g c' D -> named g c' ->
  agrees n (without d name g) c' D /\ named (without d name g) c'.
Proof.
  intros Hd HL Ha Hn.
  assert (Hne : forall d', live c' d' -> without d name g d' = g d').
  { intros d' Hl. unfold without. rewrite fn_lookup_insert_ne; [done|]. intros ->. by apply Hd, HL. }
  split.
  - destruct Ha. split; try done.
    + intros d' Hl. rewrite Hne by done. auto.
    + intros d' v Hl. rewrite Hne by done. eauto.
    + intros d1 d2 v v' Hl Hl'. rewrite !Hne by done. eauto.
    + intros d' Hl. rewrite Hne by done. auto.
    + intros d' v Hl. rewrite Hne by done. eauto.
  - destruct Hn. split; [| |done].
    + intros d' Hl. rewrite Hne by done. auto.
    + intros d' v Hl. rewrite Hne by done. eauto.
Qed.

(** The lists are those without the port: the bridge is told. *)
Lemma restrict_ok n g d name c c4 w :
  agrees n g c (db w) -> named g c -> live c d ->
  same (c_list vport_l d (v_name <$> without d name g d) (c_list vport_uuid d (v_uuid <$> without d name g d) c)) c4 ->
  wp (restrict_ports (tx c switch_uuid d) d)
    (fun s' _ => agrees n (without d name g) (cmd s') (db (net s')) /\ named (without d name g) (cmd s') /\ kept d c (cmd s'))
    sme (mk c4 w).
Proof.
  intros Ha Hn Hd H4. apply wp_restrict_ports; [by views|]. intros c5 w5 H5.
  assert (Et : tx c4 switch_uuid d = tx c switch_uuid d) by by views. rewrite Et, (ag_bridge _ _ _ _ Ha d Hd).
  intros Hdb. destruct Hdb as [Hb Hs].
  { intros x. rewrite !elem_of_list_to_set. unfold known. views. rewrite !decide_False, decide_True by naive_solver.
    rewrite (ag_uuids _ _ _ _ Ha d Hd), !elem_of_app, !list_elem_of_fmap.
    intros [?|[(v & ? & [? ?]%elem_of_without)|?]]; eauto. }
  destruct (delete_agrees n g c c4 d name (db w) (db w5)) as [Ha' Hn']; [done..|]. cbn [cmd net]. split; [|split].
  - eapply agrees_same; [|exact H5]. by apply agrees_ctr.
  - eapply named_same; [|exact H5]. by apply named_ctr.
  - assert (Hnil : forall (h : vp -> string), h <$> g d = [] -> h <$> without d name g d = []).
    { intros h E. unfold without. rewrite fn_lookup_insert. by destruct (g d). }
    split; intros *; views; repeat case_decide; destruct_and?; subst; try done; try naive_solver.
    + rewrite (na_names _ _ Hn d Hd). apply Hnil.
    + rewrite (ag_uuids _ _ _ _ Ha d Hd). apply Hnil.
Qed.

(** Removing the patch port with a number: it is the one called as [port_id] says. *)
Lemma delete_virtual_link_ok n g d i c w :
  agrees n g c (db w) -> named g c ->
  wp (cmd_delete_virtual_link d i)
    (fun s' _ => agrees n (without d (tx c port_id i) g) (cmd s') (db (net s'))
       /\ named (without d (tx c port_id i) g) (cmd s') /\ kept d c (cmd s')) sme (mk c w).
Proof.
  intros Ha Hn. unfold cmd_delete_virtual_link. apply prog_wp_bind, wp_connect. intros w1 E1. rewrite <- E1 in Ha.
  apply prog_wp_bind, wp_text_at. intros c1 H1. apply prog_wp_bind, wp_list_at. intros c2 H2.
  apply prog_wp_bind, wp_list_at. intros c3 H3. views. set (name := tx c port_id i).
  destruct (decide (live c d)) as [Hd|Hd]; apply prog_wp_bind.
  - rewrite (na_names _ _ Hn d Hd), (ag_uuids _ _ _ _ Ha d Hd).
    assert (Hstay : forall c', same c3 c' -> without d name g d = g d ->
      same (c_list vport_l d (v_name <$> without d name g d) (c_list vport_uuid d (v_uuid <$> without d name g d) c)) c').
    { intros c' H' ->. rewrite <- (na_names _ _ Hn d Hd), <- (ag_uuids _ _ _ _ Ha d Hd). by_views. }
    destruct (v_name <$> g d) as [|x xs] eqn:Eg.
    { apply prog_wp_ret, restrict_ok; [done..|]. apply Hstay; [done|]. unfold without. rewrite fn_lookup_insert. by destruct (g d). }
    rewrite <- Eg. clear x xs Eg. apply prog_wp_bind, wp_text_at. intros c4 H4. views. fold name.
    apply prog_wp_bind. eapply wp_of_out; [apply uuid_of_fmap|].
    destruct (head (filter (fun v => v_name v = name) (g d))) as [v|] eqn:Ev; cbn [fmap option_fmap option_map];
      [|apply prog_wp_ret, restrict_ok; [done..|]; by apply Hstay, without_none].
    assert (Hv : v ∈ filter (fun v => v_name v = name) (g d)) by (destruct (filter _ (g d)); [done|injection Ev as ->; by left]).
    apply list_elem_of_filter in Hv as [Hvn Hv]. apply prog_wp_bind, wp_remove. intros c5 H5. apply wp_remove. intros c6 H6.
    apply restrict_ok; [done..|]. pose proof (uuids_without n g c (db w1) d v Ha Hd Hv) as Hu. rewrite Hvn in Hu.
    rewrite <- names_without, <- Hu.
    rewrite <- (na_names _ _ Hn d Hd), <- (ag_uuids _ _ _ _ Ha d Hd). by_views.
  - rewrite (na_dead _ _ Hn d Hd). apply prog_wp_ret, wp_restrict_ports; [by views|]. intros c4 w4 H4.
    assert (Et : tx c3 switch_uuid d = EmptyString) by (views; by apply dec_stable).
    rewrite Et, law_uuid. intros E4. cbn [cmd net]. rewrite E4. assert (H5 : same (c_ctr tid (ctr c tid + 1) c) c4) by by_views.
    destruct (without_dead n g c (db w1) (c_ctr tid (ctr c tid + 1) c) d name) as [Ha' Hn']; [done..|by apply agrees_ctr|by apply named_ctr|].
    split; [by eapply agrees_same|]. split; [by eapply named_same|].
    split; intros *; views; try case_decide; naive_solver.
Qed.
End deleting.
