(* ===== verification/OvsdbLinks.v ===== *)
(** * Virtual links on Open vSwitch

    A virtual link is a pair of patch ports of the database that name each other.
    The plugin creates and removes such pairs as the graph manager expects of a
    switch: it implements [VlinksOk.LinkSwitchLaws]. *)

From Stdlib Require Import ZArith Lia String Ascii.
From stdpp Require Import gmap strings numbers base list functions propset.
From S2P Require Import Prelude CString Cpp Json FlowMatch HighLevel HLGraph Lsi Vlinks VlinksOk NFManagers GraphManager Ovsdb OvsdbOk.

(** A row of the ports of an LSI in the database. *)
Definition row_on (c : commands) (D : DB) (d : Z) (row : prow) : Prop :=
  live c d /\ exists ps u, db_bridges D !! tx c switch_uuid d = Some ps /\ u ∈ ps /\ db_ports D !! u = Some row.
(** The pairs of patch ports, from the end on which the link was created. *)
Definition patch_link (c : commands) (D : DB) (x : Z * Z * (Z * Z)) : Prop :=
  let '(a, ia, (b, ib)) := x in
  di c vl_LocalPortIDtoRemotePortID ia = ib
  /\ exists ra rb, row_on c D a ra /\ row_on c D b rb /\ pr_ofport ra = ia /\ pr_ofport rb = ib
       /\ pr_peer ra = Some (pr_name rb) /\ pr_peer rb = Some (pr_name ra).

Lemma vport_name_inj k k' : vport_name k = vport_name k' -> k = k'.
Proof. unfold vport_name. intros E. apply show_inj. by apply (inj (String.append "vport")) in E. Qed.
Lemma below_mono n n' name : n <= n' -> below n name -> below n' name.
Proof. intros Hn (k & ? & ->). exists k. split; [lia|done]. Qed.
Lemma not_below n k : n <= k -> ~ below n (vport_name k).
Proof. intros Hk (k' & Hlt & E). apply vport_name_inj in E. lia. Qed.
Lemma agrees_mono n n' g c D : n <= n' -> agrees n g c D -> agrees n' g c D.
Proof.
  intros Hn []. split; try done. intros d v Hd Hv. destruct (ag_below d v Hd Hv) as (? & ? & ?). eauto using below_mono.
Qed.
(** Only some of the maps matter. *)
Lemma agrees_eq n g c c' D :
  agrees n g c D ->
  (forall d, tx c' switch_uuid d = tx c switch_uuid d) -> ctr c' rnumber = ctr c rnumber ->
  (forall f d, f ∈ [port_uuid; vport_uuid; gport_uuid] -> ls c' f d = ls c f d) ->
  (forall i, ctr c rnumber <= i -> di c' vl_LocalPortIDtoRemotePortID i = 0) ->
  (forall i, di c' vl_LocalPortIDtoRemotePortID i = 0 \/ i < di c' vl_LocalPortIDtoRemotePortID i) ->
  agrees n g c' D.
Proof.
  intros [] Ht Hr Hl Hi Ho. assert (HL : forall d, live c' d <-> live c d) by (intros d; unfold live; by rewrite Ht).
  assert (HK : forall d, known c' d = known c d) by (intros d; unfold known; by rewrite !Hl by set_solver).
  split; try done; intros *; rewrite ?HL, ?HK, ?Ht, ?Hr; eauto.
  - rewrite Hl by set_solver. auto.
  - rewrite !Hl by set_solver. eauto.
Qed.

(** A row with a peer is that of a patch port. *)
Lemma row_on_vport n g c D d row p : agrees n g c D -> row_on c D d row -> pr_peer row = Some p ->
  exists v, v ∈ g d /\ row = vrow v.
Proof.
  intros Ha (Hd & ps & u & Hb & Hu & Hr) Hp. rewrite (ag_bridge _ _ _ _ Ha) in Hb by done. injection Hb as <-.
  rewrite elem_of_list_to_set in Hu. unfold known in Hu. rewrite !elem_of_app in Hu.
  assert (Ho : u ∈ ls c port_uuid d ++ ls c gport_uuid d -> False).
  { intros (r & Hr' & Hn)%(ag_others _ _ _ _ Ha); [|done]. congruence. }
  rewrite elem_of_app in Ho. destruct Hu as [?|[Hu|?]]; [naive_solver| |naive_solver].
  rewrite (ag_uuids _ _ _ _ Ha) in Hu by done. apply list_elem_of_fmap in Hu as (v & -> & Hv). exists v. split; [done|].
  rewrite (ag_rows _ _ _ _ Ha d v) in Hr by done. by injection Hr.
Qed.
Lemma vport_row_on n g c D d v : agrees n g c D -> live c d -> v ∈ g d -> row_on c D d (vrow v).
Proof.
  intros Ha Hd Hv. split; [done|]. exists (list_to_set (known c d)), (v_uuid v). split; [by apply (ag_bridge _ _ _ _ Ha)|].
  split; [|by apply (ag_rows _ _ _ _ Ha d)]. apply elem_of_list_to_set. unfold known. rewrite !elem_of_app. right. left.
  rewrite (ag_uuids _ _ _ _ Ha) by done. by apply list_elem_of_fmap_2.
Qed.
(** The two ends of a link among the patch ports. *)
Definition joined (c : commands) (g : Z -> list vp) (a b : Z) (va vb : vp) : Prop :=
  (live c a /\ va ∈ g a) /\ (live c b /\ vb ∈ g b) /\ v_peer va = v_name vb /\ v_peer vb = v_name va
  /\ di c vl_LocalPortIDtoRemotePortID (v_port va) = v_port vb.
Lemma patch_link_joined n g c D a ia b ib : agrees n g c D ->
  patch_link c D (a, ia, (b, ib)) <-> exists va vb, joined c g a b va vb /\ v_port va = ia /\ v_port vb = ib.
Proof.
  intros Ha. split.
  - intros (Hl & ra & rb & Hra & Hrb & <- & <- & Hpa & Hpb).
    destruct (row_on_vport _ _ _ _ _ _ _ Ha Hra Hpa) as (va & Hva & ->).
    destruct (row_on_vport _ _ _ _ _ _ _ Ha Hrb Hpb) as (vb & Hvb & ->). injection Hpa as Hpa. injection Hpb as Hpb.
    exists va, vb. by destruct Hra as [? _], Hrb as [? _].
  - intros (va & vb & ((Hda & Hva) & (Hdb & Hvb) & Hpa & Hpb & Hl) & <- & <-). split; [done|].
    exists (vrow va), (vrow vb). cbn. rewrite Hpa, Hpb. repeat split; try done; by eapply vport_row_on.
Qed.
(** No port is an end of two links. *)
Lemma joined_inj n g c D a b va vb a' b' va' vb' : agrees n g c D ->
  joined c g a b va vb -> joined c g a' b' va' vb' ->
  va = va' /\ a = a' \/ vb = vb' /\ b = b' \/ va = vb' /\ a = b' \/ vb = va' /\ b = a' ->
  a = a' /\ va = va' /\ b = b' /\ vb = vb'.
Proof.
  intros Ha (Hva & Hvb & Hpa & Hpb & Hl) (Hva' & Hvb' & Hpa' & Hpb' & Hl').
  pose proof (fun d d' v v' '(conj A B) '(conj C E) X => ag_unique _ _ _ _ Ha d d' v v' A C B E (or_introl X)) as Hu.
  pose proof (ag_order _ _ _ _ Ha (v_port va)) as Ho. pose proof (ag_order _ _ _ _ Ha (v_port va')) as Ho'.
  assert (Hpos : forall d v, live c d /\ v ∈ g d -> 0 < v_port v) by (intros d v [? ?]; by apply (ag_below _ _ _ _ Ha d)).
  pose proof (Hpos _ _ Hva). pose proof (Hpos _ _ Hvb). pose proof (Hpos _ _ Hva'). pose proof (Hpos _ _ Hvb').
  intros [[-> ->]|[[-> ->]|[[-> ->]|[-> ->]]]].
  - destruct (Hu b b' vb vb') as [-> ->]; [done..|congruence|done].
  - destruct (Hu a a' va va') as [-> ->]; [done..|congruence|done].
  - destruct (Hu b a' vb va') as [-> ->]; [done..|congruence|]. lia.
  - destruct (Hu a b' va vb') as [-> ->]; [done..|congruence|]. lia.
Qed.

Section links.
Context {W : Type} `{OvsdbLaws W}.
#[local] Abbreviation sys := (sys (W := W)).
#[local] Abbreviation mk c w := ({| cmd := c; net := w |} : sys).

Lemma inserted_db d c u row w0 w w' : db w = db w0 -> inserted d c u row w w' -> inserted d c u row w0 w'.
Proof. intros E []. by split; rewrite <- ?E. Qed.
Lemma inserted_same d c c' u row w w' : same c c' -> inserted d c' u row w w' -> inserted d c u row w w'.
Proof.
  intros E []. pose proof (same_tx _ _ E switch_uuid d) as Et. rewrite (known_same c c' d E) in *. rewrite Et in *. by split.
Qed.
Lemma wp_add_virtual_link vrt trv iface d (Q : sys -> unit -> Prop) c w :
  (forall c' w' u, same (after_insert vport_uuid d u c) c' ->
     inserted d c u (vrow {| v_name := vrt; v_uuid := u; v_port := ctr c rnumber; v_peer := trv |}) w w' -> Q (mk c' w') tt) ->
  wp (cmd_add_virtual_link vrt trv iface d) Q sme (mk c w).
Proof.
  intros HQ. unfold cmd_add_virtual_link. apply prog_wp_bind, wp_connect. intros w1 E1. apply prog_wp_bind, wp_num.
  apply wp_insert_port. intros c2 w2 u H2 Hi. apply (HQ _ _ u); [done|]. by eapply inserted_db.
Qed.

(** A patch port with the next number on [d], added to those of the plugin. *)
Definition plus (d : Z) (v : vp) (g : Z -> list vp) : Z -> list vp := <[d := g d ++ [v]]> g.
Lemma elem_of_plus d v g d' v' : v' ∈ plus d v g d' <-> v' ∈ g d' \/ d' = d /\ v' = v.
Proof.
  unfold plus. destruct (decide (d' = d)) as [->|]; [rewrite fn_lookup_insert|rewrite fn_lookup_insert_ne by done; naive_solver].
  rewrite elem_of_app, list_elem_of_singleton. naive_solver.
Qed.
Lemma names_plus d v g d' : v_name <$> plus d v g d' = (v_name <$> g d') ++ if decide (d' = d) then [v_name v] else [].
Proof.
  unfold plus. case_decide as Hd; [subst; by rewrite fn_lookup_insert, fmap_app|]. by rewrite fn_lookup_insert_ne, app_nil_r.
Qed.

(** Both ends of a new link, before the plugin writes down what they are called. *)
Record two_ends (n : Z) (g : Z -> list vp) (c c' : commands) (a b : Z) (va vb : vp) (D' : DB) : Prop := {
  te_names : v_name va = vport_name n /\ v_name vb = vport_name (n + 1) /\ v_peer va = v_name vb /\ v_peer vb = v_name va;
  te_ports : v_port va = ctr c rnumber /\ v_port vb = ctr c rnumber + 1;
  te_live : live c a /\ live c b;
  te_rnumber : ctr c' rnumber = ctr c rnumber + 2;
  te_ctr k : k <> rnumber -> k <> tid -> k <> pnumber -> ctr c' k = ctr c k;
  te_pnumber : ctr c' pnumber = ctr c pnumber + 2;
  te_tx f k : tx c' f k = tx c f k;
  te_di f k : di c' f k = di c f k;
  te_ls f d : f <> vport_uuid -> ls c' f d = ls c f d;
  te_nil d : ~ live c d -> ls c' vport_uuid d = ls c vport_uuid d;
  te_agrees : agrees (n + 2) (plus b vb (plus a va g)) c' D';
  te_lk k : lk c' k = lk c k
}.

Lemma add_ends g c c0 a b (Q : sys -> Z * Z -> Prop) (k : prog sys (Z * Z)) w :
  agrees (ctr c pnumber) g c (db w) -> same (c_ctr pnumber (ctr c pnumber + 2) c) c0 ->
  (forall c' w' va vb, two_ends (ctr c pnumber) g c c' a b va vb (db w') -> wp k Q sme (mk c' w')) ->
  let vrt := vport_name (ctr c pnumber) in let trv := vport_name (ctr c pnumber + 1) in
  wp (iface ← next_iface;
      _ ← cmd_add_virtual_link vrt trv iface a;
      iface ← next_iface;
      _ ← cmd_add_virtual_link trv vrt iface b; k) Q sme (mk c0 w).
Proof.
  intros Ha H0 Hk vrt trv. set (n := ctr c pnumber) in *. set (r := ctr c rnumber) in *.
  apply prog_wp_bind, prog_wp_bind, wp_num, prog_wp_ret. apply prog_wp_bind, wp_add_virtual_link. intros c1 w1 u1 H1 Hi1.
  apply prog_wp_bind, prog_wp_bind, wp_num, prog_wp_ret. apply prog_wp_bind, wp_add_virtual_link. intros c2 w2 u2 H2 Hi2.
  set (va := {| v_name := vrt; v_uuid := u1; v_port := r; v_peer := trv |}).
  set (vb := {| v_name := trv; v_uuid := u2; v_port := r + 1; v_peer := vrt |}).
  assert (Hr0 : ctr c0 rnumber = r) by (views; by rewrite decide_False).
  assert (Hr1 : ctr c1 rnumber = r + 1) by (rewrite (same_ctr _ _ H1), rnumber_after; lia).
  assert (Hb : below (n + 2) vrt /\ below (n + 2) trv) by (split; [exists n|exists (n + 1)]; split; done || lia).
  assert (Ha0 : agrees (n + 2) g c0 (db w)).
  { eapply agrees_same; [|exact H0]. apply agrees_ctr; [done|]. eapply agrees_mono; [|exact Ha]. lia. }
  assert (Hold : forall d' v', live c d' -> v' ∈ g d' -> below n (v_name v')).
  { intros d' v' Hd Hv. apply (ag_below _ _ _ _ Ha d' v' Hd Hv). }
  assert (Ha1 : agrees (n + 2) (plus a va g) c1 (db w1)).
  { rewrite Hr0 in Hi1. eapply agrees_same; [|exact H1].
    eapply (agrees_vport _ _ _ _ _ _ _ _ _ Ha0 Hi1); try done; [set_solver|tauto|tauto|].
    intros d' v' Hd%(live_same _ _ _ H0) Hv E. apply (not_below n n); [lia|]. change (v_name v' = vport_name n) in E. rewrite <- E. by apply (Hold d'). }
  assert (Hl : live c a /\ live c b).
  { split; [destruct Hi1 as [Hb2 _]|destruct Hi2 as [Hb2 _]]; intros E; apply Hb2; by views. }
  apply (Hk c2 w2 va vb). split; try done.
  - rewrite (same_ctr _ _ H2), rnumber_after, Hr1. lia.
  - intros k' ? ? ?. unfold after_insert in *. views. by rewrite !decide_False by done.
  - unfold after_insert in *. views. by rewrite !decide_False, decide_True by done.
  - intros f k'. by views.
  - intros f k'. by views.
  - intros f d Hf. rewrite (same_ls _ _ H2), ls_after, decide_False by naive_solver.
    rewrite (same_ls _ _ H1), ls_after, decide_False by naive_solver. by views.
  - intros d Hd. assert (d <> a /\ d <> b) as [? ?] by (split; intros ->; tauto).
    rewrite (same_ls _ _ H2), ls_after, decide_False by tauto.
    rewrite (same_ls _ _ H1), ls_after, decide_False by tauto. by views.
  - eapply agrees_same; [|exact H2]. rewrite Hr1 in Hi2. eapply (agrees_vport _ _ _ _ _ _ _ _ _ Ha1 Hi2); try done; [set_solver|tauto|tauto|].
    intros d' v' Hd [Hv|[_ ->]]%elem_of_plus E.
    + apply (not_below n (n + 1)); [lia|]. change (v_name v' = vport_name (n + 1)) in E. rewrite <- E.
      apply (Hold d'); [|done]. unfold live in *. intros E'. apply Hd. by views.
    + apply vport_name_inj in E. lia.
  - intros k'. by views.
Qed.

(** What is written down for a new link. *)
Record noted (a b : Z) (vrt trv : string) (r : Z) (c c' : commands) : Prop := {
  no_ctr k : ctr c' k = ctr c k;
  no_uuid d : tx c' switch_uuid d = tx c switch_uuid d;
  no_port i : tx c' port_id i = if decide (i = r + 1) then trv else if decide (i = r) then vrt else tx c port_id i;
  no_l2r i : di c' vl_LocalPortIDtoRemotePortID i = if decide (i = r) then r + 1 else di c vl_LocalPortIDtoRemotePortID i;
  no_vport d : ls c' vport_l d
    = (ls c vport_l d ++ if decide (d = a) then [vrt] else []) ++ if decide (d = b) then [trv] else [];
  no_ls f d : f <> vport_l -> ls c' f d = ls c f d;
  no_switch d : tx c' switch_id d = tx c switch_id d;
  no_lk k : lk c' k = lk c k ++ if decide (k = tx c switch_id a) then [r] else []
}.

Section new_link.
Context (g : Z -> list vp) (c c1 c' : commands) (a b : Z) (va vb : vp) (D D' : DB).
Context (Ha : agrees (ctr c pnumber) g c D) (Hn : named g c) (Hf : fresh c).
Context (Ht : two_ends (ctr c pnumber) g c c1 a b va vb D').
Context (Hw : noted a b (v_name va) (v_name vb) (ctr c rnumber) c1 c').
#[local] Abbreviation g' := (plus b vb (plus a va g)).

Lemma live_link d : live c' d <-> live c d.
Proof. unfold live. by rewrite (no_uuid _ _ _ _ _ _ _ Hw), (te_tx _ _ _ _ _ _ _ _ _ Ht). Qed.
Lemma link_agrees : agrees (ctr c' pnumber) g' c' D'.
Proof.
  pose proof (ag_pos _ _ _ _ Ha). destruct Ht as [_ _ _ Hr _ Hp _ Hd _ _ Ha1]. destruct Hw as [Wc Wu _ Wl _ Ws].
  rewrite Wc, Hp. eapply agrees_eq; [exact Ha1|done|by rewrite Wc| |..].
  - intros f d Hin. apply Ws. intros ->. set_solver.
  - intros i Hi. rewrite Wl, decide_False, Hd by lia. apply (ag_l2r _ _ _ _ Ha). lia.
  - intros i. rewrite Wl. case_decide; [right; lia|]. rewrite Hd. apply (ag_order _ _ _ _ Ha).
Qed.
Lemma link_named : named g' c'.
Proof.
  destruct Ht as [_ [Hpa Hpb] [La Lb] _ _ _ Htx _ Hls _ _]. destruct Hw as [_ _ Wp _ Wv _]. split; intros *; rewrite live_link.
  - intros Hd. rewrite !names_plus, Wv, Hls by done. by rewrite (na_names _ _ Hn).
  - intros Hd Hv. rewrite Wp. apply elem_of_plus in Hv as [[Hv|[-> ->]]%elem_of_plus|[-> ->]].
    + destruct (ag_below _ _ _ _ Ha d v Hd Hv) as [? _]. rewrite !decide_False, Htx by lia. by apply (na_ids _ _ Hn d).
    + rewrite Hpa, decide_False, decide_True by lia. done.
    + rewrite Hpb, decide_True by lia. done.
  - intros Hd. rewrite Wv, Hls, (na_dead _ _ Hn) by done. by rewrite !decide_False by (intros ->; done).
Qed.
Lemma link_fresh : fresh c'.
Proof.
  destruct Ht as [_ _ _ _ Hc _ Htx _ Hls Hnil _]. destruct Hw as [Wc Wu _ _ Wv Ws].
  intros d. rewrite Wc, Hc by done. intros Hd. destruct (Hf d Hd) as [E Hl]. rewrite Wu, Htx. split; [done|].
  assert (Hdead : ~ live c d) by (unfold live; tauto). intros f. destruct (decide (f = vport_l)) as [->|Hv].
  - rewrite Wv, Hls, Hl by done. destruct (te_live _ _ _ _ _ _ _ _ _ Ht). by rewrite !decide_False by (intros ->; done).
  - rewrite Ws by done. destruct (decide (f = vport_uuid)) as [->|]; [by rewrite Hnil|by rewrite Hls].
Qed.

(** The new link is one of [a]'s. *)
Lemma bridge_name_inj d e : bridge_name d = bridge_name e -> d = e.
Proof. unfold bridge_name. intros E. apply show_inj. by apply (inj (String.append "Bridge")) in E. Qed.
Lemma link_linked : linked (ctr c pnumber) g c -> linked (ctr c' pnumber) g' c'.
Proof.
  intros [[k Ko] Km Ks Kn Ki]. destruct Ht as [(Na & Nb & Pa & Pb) [Ra Rb] [La Lb] Hr Hc Hp Htx Hdi _ _ _ Hlk].
  destruct Hw as [Wc _ Wp Wl _ _ Wsw Wk]. set (p := ctr c pnumber) in *. set (r := ctr c rnumber) in *.
  assert (Hlk' : forall d, lk c' (bridge_name d) = lk c (bridge_name d) ++ if decide (d = a) then [r] else []).
  { intros d. rewrite Wk, Hlk, Htx, Ks by done. f_equal. destruct (decide (d = a)) as [->|Hne]; [by rewrite decide_True|].
    rewrite decide_False; [done|]. intros E. by apply Hne, bridge_name_inj. }
  assert (Hm : mate (vport_name p) (vport_name (p + 1))).
  { exists k. left. rewrite Ko. split; f_equal; lia. }
  assert (Hm' : mate (vport_name (p + 1)) (vport_name p)).
  { exists k. right. rewrite Ko. split; f_equal; lia. }
  rewrite Wc, Hp. split; try (intros *; rewrite live_link).
  - exists (k + 1). fold p. lia.
  - intros Ld [[Hv|[-> ->]]%elem_of_plus|[-> ->]]%elem_of_plus; [by apply (Km d)|by rewrite Pa, Na, Nb|by rewrite Pb, Na, Nb].
  - intros Ld. rewrite Wsw, Htx. by apply Ks.
  - intros d. rewrite Wc, Hc by done. intros Hd. rewrite Hlk', Kn by done. rewrite decide_False; [done|]. intros ->. pose proof (Hf a Hd) as [E _]. done.
  - rewrite Wc, Hr, Hlk', elem_of_app, Wl, Hdi. fold r. intros Ld [Hin|Hin].
    + destruct (Ki d i Ld Hin) as (I1 & I2 & B & M & Hu). fold r p in I1, I2, B. rewrite decide_False by lia.
      rewrite !Wp, !decide_False, !Htx by lia. split_and!; [lia|lia|eapply below_mono; [|exact B]; lia|done|].
      intros e v. rewrite live_link. intros Le [[Hv|[-> ->]]%elem_of_plus|[-> ->]]%elem_of_plus E; [by apply (Hu e v)|..]; exfalso.
      * rewrite <- E, Na in B. apply not_below in B; [done|lia].
      * rewrite <- E, Nb in B. apply not_below in B; [done|lia].
    + case_decide as E; [|by apply elem_of_nil in Hin]. apply list_elem_of_singleton in Hin as ->. subst d.
      rewrite decide_True by done. rewrite !Wp, decide_False, decide_True, decide_True, Na, Nb by lia. split_and!; [lia|lia|exists p; split; [lia|done]|done|].
      intros e v. rewrite live_link. intros Le [[Hv|[-> ->]]%elem_of_plus|[-> ->]]%elem_of_plus E; [exfalso|done|exfalso].
      * destruct (ag_below _ _ _ _ Ha e v Le Hv) as (_ & B & _). rewrite E in B. apply not_below in B; [done|lia].
      * rewrite Nb in E. apply vport_name_inj in E. lia.
Qed.

Lemma joined_link d e v v' : joined c' g' d e v v' <-> d = a /\ v = va /\ e = b /\ v' = vb \/ joined c g d e v v'.
Proof.
  destruct Ht as [(Na & Nb & Pa & Pb) [Ra Rb] [La Lb] _ _ _ _ Hdi _ _ _]. unfold joined.
  rewrite !live_link, (no_l2r _ _ _ _ _ _ _ Hw), !elem_of_plus, Hdi.
  assert (Hold : forall d' v', live c d' -> v' ∈ g d' -> 0 < v_port v' < ctr c rnumber
    /\ v_name v' <> v_name va /\ v_name v' <> v_name vb /\ v_peer v' <> v_name va /\ v_peer v' <> v_name vb).
  { intros d' v1 Hd Hv. destruct (ag_below _ _ _ _ Ha d' v1 Hd Hv) as (? & Bn & Bp). rewrite Na, Nb. split; [done|].
    split_and!; intros E; rewrite E in *; (eapply not_below; [|eassumption]; lia). }
  pose proof (ag_pos _ _ _ _ Ha) as Hpos. split.
  - intros ((Hd & Hv) & (He & Hv') & E1 & E2 & El). destruct Hv as [[Hv|[-> ->]]|[-> ->]].
    + destruct (Hold d v Hd Hv) as (? & ? & ? & ? & ?). rewrite decide_False in El by lia.
      destruct Hv' as [[Hv'|[-> ->]]|[-> ->]]; [right; naive_solver|congruence|congruence].
    + rewrite decide_True in El by done. destruct Hv' as [[Hv'|[-> ->]]|[-> ->]]; [| |by left].
      * destruct (Hold e v' He Hv'). lia.
      * lia.
    + rewrite decide_False, (ag_l2r _ _ _ _ Ha) in El by lia. destruct Hv' as [[Hv'|[-> ->]]|[-> ->]]; [|lia|lia].
      destruct (Hold e v' He Hv'). lia.
  - intros [(-> & -> & -> & ->)|((Hd & Hv) & (He & Hv') & E1 & E2 & El)].
    + rewrite decide_True by done. naive_solver.
    + destruct (Hold d v Hd Hv). rewrite decide_False by lia. naive_solver.
Qed.
Lemma new_patch_link x : patch_link c' D' x <-> x = (a, ctr c rnumber, (b, ctr c rnumber + 1)) \/ patch_link c D x.
Proof.
  destruct Ht as [_ [Ra Rb] _ _ _ _ _ _ _ _ _]. destruct x as [[d i] [e j]].
  rewrite (patch_link_joined _ _ _ _ _ _ _ _ link_agrees), (patch_link_joined _ _ _ _ _ _ _ _ Ha). split.
  - intros (v & v' & [(-> & -> & -> & ->)|Hj]%joined_link & <- & <-); [left; congruence|right; eauto].
  - intros [E|(v & v' & Hj & <- & <-)].
    + injection E as -> -> -> ->. exists va, vb. rewrite joined_link. naive_solver.
    + exists v, v'. rewrite joined_link. naive_solver.
Qed.
End new_link.

(** A new link: the state agrees again, and the database has one pair of patch
    ports more, with the two numbers that come next. *)
Lemma add_link_ok a b c w :
  synced (mk c w) ->
  wp (cmd_addVirtualLink a b)
    (fun s' r => r = (ctr c rnumber, ctr c rnumber + 1) /\ live c a /\ live c b /\ synced s' /\ (forall d, live (cmd s') d <-> live c d)
       /\ forall x, patch_link (cmd s') (db (net s')) x
            <-> x = (a, ctr c rnumber, (b, ctr c rnumber + 1)) \/ patch_link c (db w) x) sme (mk c w).
Proof.
  intros (g & Ha & Hn & Hf & Hk). cbn [cmd net] in *. unfold cmd_addVirtualLink. pose proof (ag_pos _ _ _ _ Ha) as Hpos.
  apply prog_wp_bind, prog_wp_bind, wp_num, prog_wp_ret. apply prog_wp_bind, wp_incr.
  apply prog_wp_bind, prog_wp_bind, wp_num, prog_wp_ret. apply prog_wp_bind, wp_incr. cbn [cmd].
  rewrite ctr_put, decide_True by done. eapply (add_ends g c); [exact Ha|split; intros; views; try done; repeat case_decide; done || lia|].
  intros c1 w1 va vb Ht. pose proof Ht as [(Na & Nb & _) [Ra Rb] [La Lb] Hr _ _ _ _ _ _ _].
  apply prog_wp_bind, wp_num. cbn [cmd]. rewrite Hr. replace (ctr c rnumber + 2 - 2) with (ctr c rnumber) by lia.
  replace (ctr c rnumber + 2 - 1) with (ctr c rnumber + 1) by lia. apply prog_wp_bind, wp_text_at. intros c2 H2.
  apply prog_wp_bind, wp_links_at. intros c3 H3. apply prog_wp_bind, wp_put_links. do 2 apply prog_wp_bind, wp_put_text.
  do 3 apply prog_wp_bind, wp_put_id. apply prog_wp_bind, wp_push. intros c4 H4. apply prog_wp_bind, wp_push. intros c5 H5.
  apply prog_wp_bind, wp_rd, prog_wp_bind, wp_rd, prog_wp_bind. apply prog_wp_ret. cbn [cmd net].
  set (c' := with_peers _ _ c5).
  assert (Hw : noted a b (v_name va) (v_name vb) (ctr c rnumber) c1 c').
  { rewrite Na, Nb. unfold vport_name, c'. split; intros *; views; repeat case_decide; destruct_and?; subst; rewrite ?app_nil_r;
      done || naive_solver. }
  split; [done|]. split; [done|]. split; [done|]. split; [|split].
  - exists (plus b vb (plus a va g)). split; [by eapply link_agrees|].
    split; [by eapply link_named|]. split; [by eapply link_fresh|by eapply link_linked].
  - intros d. by eapply live_link.
  - intros x. by eapply new_patch_link.
Qed.

(** The maps that matter for agreement read the same. *)
Record settled (c c' : commands) : Prop := {
  se_ctr k : ctr c' k = ctr c k;
  se_tx f k : tx c' f k = tx c f k;
  se_ls f d : ls c' f d = ls c f d;
  se_l2r i : di c' vl_LocalPortIDtoRemotePortID i = di c vl_LocalPortIDtoRemotePortID i;
  se_lk k i : i ∈ lk c' k -> i ∈ lk c k
}.
Lemma settled_agrees n g c c' D : settled c c' -> agrees n g c D -> agrees n g c' D.
Proof.
  intros [Sc St Sl Si] Ha. eapply agrees_eq; [exact Ha|done|done|by intros; apply Sl|..]; intros i; rewrite Si.
  - apply (ag_l2r _ _ _ _ Ha).
  - apply (ag_order _ _ _ _ Ha).
Qed.
Lemma settled_named g c c' : settled c c' -> named g c -> named g c'.
Proof.
  intros [Sc St Sl Si] []. assert (HL : forall d, live c' d <-> live c d) by (intros d; unfold live; by rewrite St).
  split; intros *; rewrite HL, ?St, ?Sl; eauto.
Qed.
Lemma settled_fresh c c' : settled c c' -> fresh c -> fresh c'.
Proof.
  intros [Sc St Sl Si] Hf d. rewrite Sc, St. intros Hd. destruct (Hf d Hd) as [? Hl]. split; [done|]. intros f. by rewrite Sl.
Qed.
Lemma kept_fresh d c c' : kept d c c' -> fresh c -> fresh c'.
Proof.
  intros [] Hf d'. rewrite ke_ctr by done. intros Hd. destruct (Hf d' Hd) as [? Hl]. rewrite ke_tx. split; [done|].
  intros f. destruct (decide (d' = d)) as [->|]; [auto|]. rewrite ke_ls; auto.
Qed.

(** The names of patch ports are not empty. *)
Lemma no_empty_name n g c D d : agrees n g c D -> live c d -> filter (fun x => x <> "") (v_name <$> g d) = v_name <$> g d.
Proof.
  intros Ha Hd. apply filter_all_id. intros x (v & -> & Hv)%list_elem_of_fmap.
  destruct (ag_below _ _ _ _ Ha d v Hd Hv) as (_ & (k & _ & ->) & _). done.
Qed.

Lemma joined_without n g c c' D a b va vb d e v v' :
  agrees n g c D -> joined c g a b va vb ->
  (forall d, live c' d <-> live c d) ->
  (forall i, di c' vl_LocalPortIDtoRemotePortID i = di c vl_LocalPortIDtoRemotePortID i) ->
  joined c' (without b (v_name vb) (without a (v_name va) g)) d e v v'
  <-> joined c g d e v v' /\ ~ (d = a /\ v = va /\ e = b /\ v' = vb).
Proof.
  intros Ha Hj HL Hl. pose proof Hj as (Hva & Hvb & _).
  assert (Hu : forall d1 v1 d2 v2, live c d1 /\ v1 ∈ g d1 -> live c d2 /\ v2 ∈ g d2 -> v_name v1 = v_name v2 -> d1 = d2 /\ v1 = v2).
  { intros d1 v1 d2 v2 [? ?] [? ?] ?. apply (ag_unique _ _ _ _ Ha); auto. }
  unfold joined at 1. rewrite !HL, !elem_of_without, Hl. split.
  - intros ((Hd & (Hv & H1) & H2) & (He & (Hv' & H3) & H4) & Hp & Hp' & El). split; [done|]. intros (-> & -> & _). by apply H1.
  - intros [Hj' Hne]. pose proof Hj' as (Hv & Hv' & Hp & Hp' & El).
    assert (Hinj := joined_inj n g c D d e v v' a b va vb Ha Hj' Hj).
    split_and!; try tauto; intros E E'; apply Hne; subst.
    + destruct (Hu _ _ _ _ Hv Hva E') as [_ ->]. naive_solver.
    + destruct (Hu _ _ _ _ Hv Hvb E') as [_ ->]. naive_solver.
    + destruct (Hu _ _ _ _ Hv' Hva E') as [_ ->]. naive_solver.
    + destruct (Hu _ _ _ _ Hv' Hvb E') as [_ ->]. naive_solver.
Qed.

Lemma wp_remove_link d i (Q : sys -> unit -> Prop) c w :
  (forall c', settled c c' -> Q (mk c' w) tt) -> wp (remove_link d i) Q sme (mk c w).
Proof.
  intros HQ. unfold remove_link. apply prog_wp_bind, wp_text_at. intros c1 H1. apply prog_wp_bind, wp_links_at. intros c2 H2.
  apply wp_put_links, HQ. split; intros *; views; try done. case_decide; [|done]. subst. by intros [_ ?]%list_elem_of_filter.
Qed.
Lemma settled_trans c1 c2 c3 : settled c1 c2 -> settled c2 c3 -> settled c1 c3.
Proof. intros [] []. split; intros *; [congruence..|auto]. Qed.
(** The bookkeeping after the two ends are gone. *)
Lemma wp_unnote a ia b ib n g c w (Q : sys -> unit -> Prop) :
  agrees n g c (db w) -> named g c ->
  (forall c', settled c c' -> Q (mk c' w) tt) ->
  wp (_ ← forget_id ia; _ ← forget_id ib; _ ← remove vport_l a ""; _ ← remove vport_l b "";
      _ ← remove_link a ia; remove_link b ib) Q sme (mk c w).
Proof.
  intros Ha Hn HQ. apply prog_wp_bind, wp_forget_id. intros c1 H1. apply prog_wp_bind, wp_forget_id. intros c2 H2.
  apply prog_wp_bind, wp_remove. intros c3 H3. apply prog_wp_bind, wp_remove. intros c4 H4.
  apply prog_wp_bind, wp_remove_link. intros c5 H5. apply wp_remove_link. intros c6 H6. apply HQ.
  assert (Hs : settled c c4); [|by eapply settled_trans; [eapply settled_trans|]].
  assert (Hx : forall d, filter (fun x => x <> "") (ls c vport_l d) = ls c vport_l d).
  { intros d. destruct (decide (live c d)) as [Hd|Hd]; [rewrite (na_names _ _ Hn d Hd); by eapply no_empty_name|].
    by rewrite (na_dead _ _ Hn d Hd). }
  split; intros *; views; try done; repeat case_decide; destruct_and?; subst; by rewrite ?Hx; rewrite ?Hx.
Qed.

(** What is asked to be destroyed is destroyed: the state agrees again. *)
Record destroyed (g : Z -> list vp) (c : commands) (c' : commands) (D' : DB) : Prop := {
  ds_agrees : agrees (ctr c' pnumber) g c' D';
  ds_named : named g c';
  ds_fresh : fresh c';
  ds_linked : linked (ctr c' pnumber) g c';
  ds_live d : live c' d <-> live c d;
  ds_l2r i : di c' vl_LocalPortIDtoRemotePortID i = di c vl_LocalPortIDtoRemotePortID i
}.
Lemma destroy_ok a ia b ib g c w :
  agrees (ctr c pnumber) g c (db w) -> named g c -> fresh c -> linked (ctr c pnumber) g c ->
  wp (cmd_destroyVirtualLink a ia b ib)
    (fun s' _ => destroyed (without b (tx c port_id ib) (without a (tx c port_id ia) g)) c (cmd s') (db (net s'))) sme (mk c w).
Proof.
  intros Ha Hn Hf Hk. unfold cmd_destroyVirtualLink. apply prog_wp_bind.
  eapply prog_wp_mono; [eapply delete_virtual_link_ok; [exact Ha|exact Hn]| |done].
  intros [c1 w1] _ (Ha1 & Hn1 & K1). cbn [cmd net] in *. apply prog_wp_bind.
  eapply prog_wp_mono; [eapply delete_virtual_link_ok; [exact Ha1|exact Hn1]| |done].
  intros [c2 w2] _ (Ha2 & Hn2 & K2). cbn [cmd net] in *. rewrite (ke_tx _ _ _ K1) in *.
  assert (HL : forall d, live c2 d <-> live c d) by (intros d; unfold live; by rewrite (ke_tx _ _ _ K2), (ke_tx _ _ _ K1)).
  eapply wp_unnote; [done|done|]. intros c3 S. cbn [cmd net].
  assert (Hc : forall k, k <> tid -> ctr c3 k = ctr c k) by (intros k Hk'; by rewrite (se_ctr _ _ S), (ke_ctr _ _ _ K2), (ke_ctr _ _ _ K1)).
  assert (HL3 : forall d, live c3 d <-> live c d) by (intros d; rewrite <- HL; unfold live; by rewrite (se_tx _ _ S)).
  split; rewrite ?Hc by done.
  - by eapply settled_agrees.
  - by eapply settled_named.
  - by eapply settled_fresh, kept_fresh, kept_fresh.
  - eapply linked_shrink; [exact Hk|..].
    + intros d. apply HL3.
    + intros d v _ [[? _]%elem_of_without _]%elem_of_without. done.
    + intros d _. by rewrite (se_tx _ _ S), (ke_tx _ _ _ K2), (ke_tx _ _ _ K1).
    + intros i. by rewrite (se_tx _ _ S), (ke_tx _ _ _ K2), (ke_tx _ _ _ K1).
    + intros i. by rewrite (se_l2r _ _ S), (ke_di _ _ _ K2), (ke_di _ _ _ K1).
    + by rewrite Hc.
    + by rewrite Hc.
    + intros k i Hi%(se_lk _ _ S). by rewrite (ke_lk _ _ _ K2), (ke_lk _ _ _ K1) in Hi.
  - done.
  - intros i. by rewrite (se_l2r _ _ S), (ke_di _ _ _ K2), (ke_di _ _ _ K1).
Qed.
Lemma destroyed_synced g c c' w' : destroyed g c c' (db w') -> synced (mk c' w').
Proof. intros []. by exists g. Qed.

(** Links between patch ports that stay. *)
Lemma patch_link_sub n n' g g' c c' D D' x :
  agrees n g c D -> agrees n' g' c' D' ->
  (forall d v, live c' d -> v ∈ g' d -> live c d /\ v ∈ g d) ->
  (forall i, di c' vl_LocalPortIDtoRemotePortID i = di c vl_LocalPortIDtoRemotePortID i) ->
  patch_link c' D' x -> patch_link c D x.
Proof.
  intros Ha Ha' Hg Hi. destruct x as [[a ia] [b ib]].
  rewrite (patch_link_joined _ _ _ _ _ _ _ _ Ha'), (patch_link_joined _ _ _ _ _ _ _ _ Ha).
  intros (va & vb & ((La & Va) & (Lb & Vb) & E1 & E2 & El) & <- & <-). exists va, vb. split; [|done].
  rewrite Hi in El. by split; [apply Hg|split; [apply Hg|]].
Qed.
(** Whatever is asked to be destroyed, no link comes from it. *)
Lemma destroy_any_ok a ia b ib c w :
  synced (mk c w) ->
  wp (cmd_destroyVirtualLink a ia b ib)
    (fun s' _ => synced s' /\ (forall d, live (cmd s') d <-> live c d)
       /\ forall x, patch_link (cmd s') (db (net s')) x -> patch_link c (db w) x) sme (mk c w).
Proof.
  intros (g & Ha & Hn & Hf & Hk). cbn [cmd net] in *. eapply prog_wp_mono; [by apply (destroy_ok a ia b ib g)| |done].
  intros [c' w'] _ Hd. cbn [cmd net] in *. split; [by eapply destroyed_synced|]. split; [apply Hd|]. intros x.
  eapply patch_link_sub; [exact Ha|apply Hd| |apply Hd]. intros d v Ld%(ds_live _ _ _ _ Hd) [[? _]%elem_of_without _]%elem_of_without. done.
Qed.
(** A link is destroyed: the pair of patch ports, and no other, is gone from the
    database. *)
Lemma destroy_link_ok a ia b ib c w :
  synced (mk c w) -> patch_link c (db w) (a, ia, (b, ib)) ->
  wp (cmd_destroyVirtualLink a ia b ib)
    (fun s' _ => synced s'
       /\ forall x, patch_link (cmd s') (db (net s')) x <-> patch_link c (db w) x /\ x <> (a, ia, (b, ib))) sme (mk c w).
Proof.
  intros (g & Ha & Hn & Hf & Hk) Hx. cbn [cmd net] in *.
  apply (patch_link_joined _ _ _ _ _ _ _ _ Ha) in Hx as (va & vb & Hj & <- & <-). pose proof Hj as ((La & Va) & (Lb & Vb) & _).
  eapply prog_wp_mono; [by apply (destroy_ok a (v_port va) b (v_port vb) g)| |done].
  intros [c' w'] _ Hd. cbn [cmd net] in *. rewrite (na_ids _ _ Hn a va La Va), (na_ids _ _ Hn b vb Lb Vb) in Hd.
  split; [by eapply destroyed_synced|]. intros [[d i] [e j]].
  rewrite (patch_link_joined _ _ _ _ _ _ _ _ (ds_agrees _ _ _ _ Hd)), (patch_link_joined _ _ _ _ _ _ _ _ Ha).
  assert (Hjw := fun v v' => joined_without _ g c c' _ a b va vb d e v v' Ha Hj (ds_live _ _ _ _ Hd) (ds_l2r _ _ _ _ Hd)).
  split.
  - intros (v & v' & [Hv Hne]%Hjw & <- & <-). split; [eauto|]. intros E. injection E as -> Ev -> Ev'. apply Hne.
    destruct Hv as ((_ & Hv) & (_ & Hv') & _). split; [done|].
    split; [apply (ag_unique _ _ _ _ Ha a a); auto|]. split; [done|]. apply (ag_unique _ _ _ _ Ha b b); auto.
  - intros [(v & v' & Hv & <- & <-) Hne]. exists v, v'. rewrite Hjw. split; [|done]. split; [done|]. intros (-> & -> & -> & ->). by apply Hne.
Qed.

(** The plugin is the switch the graph manager expects. *)
#[export] Program Instance ovsdb_link_laws : LinkSwitchLaws sys :=
  { sw_inv := synced; sw_links s := {[ x | patch_link (cmd s) (db (net s)) x ]} }.
Next Obligation.
  intros a b [c w] Hs. pose proof (add_link_ok a b c w Hs) as Hw. unfold wp in Hw. cbn [addVirtualLink ovsdb_links].
  destruct (cmd_addVirtualLink a b _) as [s' [[ia ib]|e|]]; [|done|done]. destruct Hw as ([= -> ->] & La & Lb & Hs' & _ & Hx).
  pose proof Hs as (g & Ha & _). cbn [cmd net] in *. split; [done|]. split; [|split].
  - intros x. by rewrite !elem_of_PropSet, Hx.
  - intros [b' j]. rewrite elem_of_PropSet. intros (va & vb & ((? & ?) & _) & E & _)%(patch_link_joined _ _ _ _ _ _ _ _ Ha).
    destruct (ag_below _ _ _ _ Ha a va) as [? _]; [done..|]. lia.
  - intros [a' i]. rewrite elem_of_PropSet. intros (va & vb & (_ & (? & ?) & _) & _ & E)%(patch_link_joined _ _ _ _ _ _ _ _ Ha).
    destruct (ag_below _ _ _ _ Ha b vb) as [? _]; [done..|]. lia.
Qed.
Next Obligation.
  intros a ia b ib [c w] Hs Hl. rewrite elem_of_PropSet in Hl. pose proof (destroy_link_ok a ia b ib c w Hs Hl) as Hw.
  unfold wp in Hw. cbn [destroyVirtualLink ovsdb_links]. destruct (cmd_destroyVirtualLink a ia b ib _) as [s' [u|e|]]; [|done|done].
  destruct Hw as [Hs' Hx]. split; [done|]. intros x. by rewrite !elem_of_PropSet, Hx.
Qed.
End links.
