(* ===== verification/OvsdbSync.v ===== *)
(** * Every operation of the OVSDB plugin keeps it in step with the database

    LSIs with their ports, tunnels and virtual links are created and destroyed:
    as long as no error is reported, the maps of the plugin agree with the
    database, and the virtual links of a new LSI are the pairs of patch ports
    that the numbers given back say. *)

From Stdlib Require Import ZArith Lia String Ascii.
From stdpp Require Import gmap strings numbers base list functions propset sorting.
From S2P Require Import Prelude CString Cpp Json FlowMatch HighLevel HLGraph Lsi Vlinks VlinksOk NFManagers GraphManager Ovsdb OvsdbOk OvsdbLinks.

Lemma wp_post {S A} (m : prog S A) Q E s : wp m Q E s -> post m Q s.
Proof. unfold wp, post. by destruct (m s) as [s' [a|e|f]]. Qed.

(** Agreement while an LSI is being created: names up to [n] may be in use, and
    nothing is known of LSIs from [m] on. *)
Definition fresh_from (m : Z) (c : commands) : Prop :=
  forall d, m <= d -> tx c switch_uuid d = EmptyString /\ forall f, ls c f d = [].
Record in_sync (n m : Z) (g : Z -> list vp) (c : commands) (D : DB) : Prop := {
  sy_agrees : agrees n g c D;
  sy_named : named g c;
  sy_fresh : fresh_from m c
}.

Lemma fresh_from_same m c c' : same c c' -> fresh_from m c -> fresh_from m c'.
Proof. intros Hc Hf d Hd. destruct (Hf d Hd) as [? Hl]. views. split; [done|]. intros f. by views. Qed.
Lemma in_sync_same n m g c c' D : same c c' -> in_sync n m g c D -> in_sync n m g c' D.
Proof. intros Hc [? ? ?]. split; [by eapply agrees_same|by eapply named_same|by eapply fresh_from_same]. Qed.
Lemma in_sync_ctr n m g k x c D : k <> rnumber -> in_sync n m g c D -> in_sync n m g (c_ctr k x c) D.
Proof. intros Hk [? ? ?]. split; [by apply agrees_ctr|by apply named_ctr|done]. Qed.
(** Lists that no agreement is about, on an LSI that exists. *)
Lemma in_sync_list n m g f d l c D :
  f ∉ [port_uuid; vport_uuid; gport_uuid; vport_l] -> live c d ->
  in_sync n m g c D -> in_sync n m g (c_list f d l c) D.
Proof.
  intros Hf Hd [Ha Hn Hm].
  assert (Hl : forall f' d', f' ∈ [port_uuid; vport_uuid; gport_uuid; vport_l] -> ls (c_list f d l c) f' d' = ls c f' d').
  { intros f' d' Hin. views. rewrite decide_False; [done|]. intros [-> _]. by apply Hf. }
  split.
  - eapply agrees_eq; [exact Ha|done|done| |apply (ag_l2r _ _ _ _ Ha)|apply (ag_order _ _ _ _ Ha)].
    intros f' d' Hin. apply Hl. set_solver.
  - destruct Hn. split; intros *; [intros Hx; rewrite Hl by set_solver; by apply na_names|apply na_ids|intros Hx; rewrite Hl by set_solver; by apply na_dead].
  - intros d' Hd'. destruct (Hm d' Hd') as [E Hl']. split; [done|]. intros f'. views. rewrite decide_False; [apply Hl'|].
    intros [_ ->]. by apply Hd.
Qed.
(** The same for the other maps. *)
Lemma in_sync_eq n m g c c' D :
  (forall d, tx c' switch_uuid d = tx c switch_uuid d) -> (forall i, i < ctr c rnumber -> tx c' port_id i = tx c port_id i) ->
  ctr c' rnumber = ctr c rnumber -> (forall f d, ls c' f d = ls c f d) ->
  (forall i, ctr c rnumber <= i -> di c' vl_LocalPortIDtoRemotePortID i = 0) ->
  (forall i, di c' vl_LocalPortIDtoRemotePortID i = 0 \/ i < di c' vl_LocalPortIDtoRemotePortID i) ->
  in_sync n m g c D -> in_sync n m g c' D.
Proof.
  intros Hu Hp Hr Hl Hi Ho [Ha Hn Hm]. assert (HL : forall d, live c' d <-> live c d) by (intros d; unfold live; by rewrite Hu).
  split; [by eapply agrees_eq|..].
  - destruct Hn. split; intros *; rewrite HL, ?Hl; auto. intros Hd Hv. rewrite Hp; [eauto|]. by apply (ag_below _ _ _ _ Ha d).
  - intros d Hd. rewrite Hu. destruct (Hm d Hd) as [? Hl']. split; [done|]. intros f. by rewrite Hl.
Qed.

(** A port that is no patch port is inserted. *)
Lemma in_sync_insert {W} `{OvsdbLaws W} n m g f d u row c c' (w w' : W) :
  f ∈ [port_uuid; gport_uuid] -> pr_peer row = None -> same (after_insert f d u c) c' -> inserted d c u row w w' ->
  in_sync n m g c (db w) -> in_sync n m g c' (db w').
Proof.
  intros Hf Hp Hc Hi [Ha Hn Hm]. eapply in_sync_same; [exact Hc|].
  assert (Hfv : f <> vport_uuid /\ f <> vport_l) by (rewrite !elem_of_cons, elem_of_nil in Hf; naive_solver). split.
  - eapply (agrees_port _ _ _ _ _ _ _ _ _ Ha Hi); [set_solver|tauto|done].
  - destruct Hn. split; intros *; rewrite live_after; try rewrite ls_after, decide_False by naive_solver; auto. by apply na_ids.
  - intros d' Hd'. destruct (Hm d' Hd') as [E Hl]. split; [done|]. intros f'. rewrite ls_after, decide_False; [apply Hl|].
    intros [_ ->]. destruct Hi as [Hb _]. by apply Hb.
Qed.
(** A patch port is inserted and written down. *)
Lemma in_sync_vport {W} `{OvsdbLaws W} n m g d v c c' (w w' : W) :
  in_sync n m g c (db w) -> inserted d c (v_uuid v) (vrow v) w w' ->
  v_port v = ctr c rnumber -> below n (v_name v) -> below n (v_peer v) ->
  (forall d' v', live c d' -> v' ∈ g d' -> v_name v' <> v_name v) ->
  (forall f d', f <> vport_l -> ls c' f d' = ls (after_insert vport_uuid d (v_uuid v) c) f d') ->
  (forall d', ls c' vport_l d' = ls c vport_l d' ++ if decide (d' = d) then [v_name v] else []) ->
  (forall d', tx c' switch_uuid d' = tx c switch_uuid d') ->
  (forall i, i < ctr c rnumber -> tx c' port_id i = tx c port_id i) -> tx c' port_id (ctr c rnumber) = v_name v ->
  ctr c' rnumber = ctr c rnumber + 1 ->
  (forall i, ctr c' rnumber <= i -> di c' vl_LocalPortIDtoRemotePortID i = 0) ->
  (forall i, di c' vl_LocalPortIDtoRemotePortID i = 0 \/ i < di c' vl_LocalPortIDtoRemotePortID i) ->
  in_sync n m (plus d v g) c' (db w').
Proof.
  intros [Ha Hn Hm] Hi Hp Bn Bp Hnew Hl Hv Hu Hid Hid' Hr Hz Ho.
  assert (Hd : live c d) by by destruct Hi.
  assert (HL : forall d, live c' d <-> live c d) by (intros x; unfold live; by rewrite Hu).
  assert (Ha' : agrees n (plus d v g) (after_insert vport_uuid d (v_uuid v) c) (db w')).
  { eapply (agrees_vport _ _ _ _ _ _ _ _ _ Ha Hi); try done. set_solver. }
  split.
  - eapply agrees_eq; [exact Ha'|done|done| |by rewrite rnumber_after, <- Hr|done]. intros f d' Hf. apply Hl. intros ->. set_solver.
  - destruct Hn. split; intros *; rewrite HL.
    + intros Hd'. by rewrite Hv, names_plus, na_names.
    + intros Hd' [Hx|[-> ->]]%elem_of_plus; [|by rewrite Hp]. rewrite Hid; [eauto|]. by apply (ag_below _ _ _ _ Ha d0).
    + intros Hd'. rewrite Hv, na_dead, decide_False by (done || by intros ->). done.
  - intros d' Hd'. destruct (Hm d' Hd') as [E Hl']. rewrite Hu. split; [done|].
    assert (d' <> d) by (intros ->; by apply Hd). intros f. destruct (decide (f = vport_l)) as [->|Hf].
    + by rewrite Hv, Hl', decide_False by done.
    + by rewrite Hl, ls_after, decide_False by naive_solver.
Qed.

Section sync.
Context {W : Type} `{OvsdbLaws W}.
Context (un_script_path controllerAddress local_ip certificate : string).
#[local] Abbreviation sys := (sys (W := W)).
#[local] Abbreviation mk c w := ({| cmd := c; net := w |} : sys).

(** LSIs and links stay as they were. *)
Definition calm (c : commands) (w : W) (s' : sys) : Prop :=
  synced s' /\ (forall d, live (cmd s') d <-> live c d) /\ forall x, patch_link (cmd s') (db (net s')) x <-> patch_link c (db w) x.

(** What the insertion of a port leaves alone. *)
Record port_frame (c c' : commands) : Prop := {
  pf_ctr k : k <> rnumber -> k <> tid -> k <> gnumber -> ctr c' k = ctr c k;
  pf_tx f i : tx c' f i = tx c f i;
  pf_di f i : di c' f i = di c f i;
  pf_peer_n : peer_n c' = peer_n c;
  pf_lk k : lk c' k = lk c k
}.
Lemma port_frame_refl c : port_frame c c.
Proof. done. Qed.
Lemma port_frame_trans c1 c2 c3 : port_frame c1 c2 -> port_frame c2 c3 -> port_frame c1 c3.
Proof. intros [A1 B1 C1 D1 E1] [A2 B2 C2 D2 E2]. split; intros; [rewrite A2 by done; auto|by rewrite B2|by rewrite C2|by rewrite D2|by rewrite E2]. Qed.
Lemma port_frame_same c c' : same c c' -> port_frame c c'.
Proof. by intros []. Qed.
Lemma port_frame_insert f d u c c' : same (after_insert f d u c) c' -> port_frame c c'.
Proof. intros Hc. unfold after_insert in Hc. split; intros *; views; try done. intros. by rewrite !decide_False by done. Qed.
Lemma port_frame_live c c' d : port_frame c c' -> live c' d <-> live c d.
Proof. intros Hp. unfold live. by rewrite (pf_tx _ _ Hp). Qed.

Lemma post_script command (Q : sys -> Z -> Prop) c w :
  (forall w' st, db w' = db w -> Q (mk c w') st) -> post (script un_script_path command) Q (mk c w).
Proof.
  intros HQ. unfold script. apply post_bind. unfold post, on_net. cbn [net cmd].
  pose proof (law_script (un_script_path +:+ command) w). destruct (run_script _ w) as [w' st]. cbn. by apply HQ.
Qed.
Lemma post_connect (Q : sys -> unit -> Prop) c w :
  (forall w', db w' = db w -> Q (mk c w') tt) -> post cmd_connect Q (mk c w).
Proof. intros HQ. eapply wp_post, wp_connect, HQ. Qed.
Lemma post_disconnect (Q : sys -> unit -> Prop) c w :
  (forall w', db w' = db w -> Q (mk c w') tt) -> post cmd_disconnect Q (mk c w).
Proof. intros HQ. eapply wp_post, wp_disconnect, HQ. Qed.
Lemma post_insert_port f d iface name ofport more uuid_name (Q : sys -> unit -> Prop) c w :
  (forall c' w' u, same (after_insert f d u c) c' ->
     inserted d c u {| pr_name := name; pr_ofport := ofport; pr_peer := patch_peer more |} w w' -> Q (mk c' w') tt) ->
  post (insert_port f d iface (interface_row name ofport more) name uuid_name) Q (mk c w).
Proof. intros HQ. eapply wp_post, wp_insert_port, HQ. Qed.
Lemma post_push f d x (Q : sys -> unit -> Prop) c w :
  (forall c', same (c_list f d (ls c f d ++ [x]) c) c' -> Q (mk c' w) tt) -> post (push f d x) Q (mk c w).
Proof. intros HQ. eapply wp_post, wp_push, HQ. Unshelve. exact (fun _ _ => True). Qed.

Lemma post_num k (Q : sys -> Z -> Prop) s : Q s (ctr (cmd s) k) -> post (num k) Q s.
Proof. done. Qed.
Lemma post_rd {A} (f : commands -> A) (Q : sys -> A -> Prop) s : Q s (f (cmd s)) -> post (rd f) Q s.
Proof. done. Qed.
Lemma post_incr k (Q : sys -> unit -> Prop) c w : Q (mk (c_ctr k (ctr c k + 1) c) w) tt -> post (incr k) Q (mk c w).
Proof. done. Qed.

(** The name of a port and its type: no patch port, and nothing else is changed. *)
Lemma post_nf_port_on_switch name t (Q : sys -> string * list (string * json) -> Prop) c w :
  (forall c' w' x more, same c c' -> db w' = db w -> patch_peer more = None -> Q (mk c' w') (x, more)) ->
  post (nf_port_on_switch un_script_path name t) Q (mk c w).
Proof.
  intros HQ. unfold nf_port_on_switch. destruct t; try done.
  - by apply post_ret, HQ.
  - apply post_bind, post_script. intros w1 st E. destruct (st =? 0); [done|].
    apply post_bind. cbn. apply post_bind. cbn. apply post_bind. cbn. by apply HQ.
Qed.

(** One more port: the next number is taken, and the patch ports are the same. *)
Definition one_port (n m : Z) (g : Z -> list vp) (d : Z) (c : commands) (s' : sys) : Prop :=
  in_sync n m g (cmd s') (db (net s')) /\ port_frame c (cmd s') /\ ctr (cmd s') rnumber = ctr c rnumber + 1 /\ live c d.
Lemma add_port_ok p d nf t n m g c w :
  in_sync n m g c (db w) ->
  post (add_port un_script_path p d nf t) (fun s' _ => one_port n m g d c s') (mk c w).
Proof.
  intros Hs. unfold add_port. apply post_bind, post_connect. intros w1 E1. rewrite <- E1 in Hs. apply post_bind, post_num.
  assert (Hins : forall c1 w1 x iface name more k, in_sync n m g c (db w1) -> same c c1 -> patch_peer more = None ->
    (forall c' w', one_port n m g d c (mk c' w') -> post k (fun s' _ => one_port n m g d c s') (mk c' w')) ->
    post (_ ← push port_l d x;
          _ ← insert_port port_uuid d iface (interface_row x (ctr c rnumber) more) x name; k)
      (fun s' (_ : string) => one_port n m g d c s') (mk c1 w1)).
  { intros c1 w2 x iface name more k Hs2 H1 Hp Hk. apply post_bind, post_push. intros c2 H2.
    apply post_bind, post_insert_port. intros c3 w3 u H3 Hi. apply Hk.
    assert (Hl : live c d) by (destruct Hi as [Hb _]; intros E; apply Hb; by views).
    split; [|split; [|split; [|done]]].
    - eapply in_sync_insert; [| |exact H3|exact Hi|]; [set_solver|done|]. eapply in_sync_same; [exact H2|].
      apply in_sync_list; [set_solver|by apply (live_same _ _ _ H1)|]. by eapply in_sync_same.
    - cbn [cmd]. unfold after_insert in H3. split; intros *; views; try done. intros. by rewrite !decide_False by done.
    - cbn [cmd]. rewrite (same_ctr _ _ H3), rnumber_after. by views. }
  destruct nf.
  - unfold build_port_uuid_name. apply post_bind, post_bind, post_num, post_ret. apply post_bind.
    apply post_nf_port_on_switch. intros c2 w2 x more H2 E2 Hp. apply Hins; [by rewrite E2|done|done|].
    intros c' w' Hone. apply post_bind. destruct t; try (by apply post_ret, post_ret).
    all: apply post_bind, post_script; intros w3 st E3; apply post_assert; intros _; apply post_ret; cbn;
      unfold one_port in *; cbn [cmd net] in *; by rewrite E3.
  - apply Hins; [done|done|by destruct (String.prefix "dpdk" p)|]. intros c' w' Hone. by apply post_ret.
Qed.

Lemma one_port_same n m g d c c1 s' : same c c1 -> one_port n m g d c1 s' -> one_port n m g d c s'.
Proof.
  intros H1 (Hs & Hf & Hr & Hl). split; [done|]. split; [eapply port_frame_trans; [by apply port_frame_same|done]|].
  split; [rewrite Hr; by views|by apply (live_same _ _ _ H1)].
Qed.
Lemma new_endpoint_ok d id local remote key safe n m g c w :
  in_sync n m g c (db w) ->
  post (new_endpoint d id local remote key safe)
    (fun s' r => one_port n m g d c s' /\ r = ctr c rnumber) (mk c w).
Proof.
  intros Hs. unfold new_endpoint, fits. do 4 (apply post_bind, post_of_out; intros _ _). do 2 apply post_bind, post_num.
  apply post_bind, post_incr. set (c1 := c_ctr gnumber _ c). apply post_bind. unfold add_endpoint.
  apply post_bind, post_connect. intros w1 E1. apply post_bind, post_num. apply post_bind, post_rd.
  cbn zeta. apply post_insert_port. intros c2 w2 u H2 Hi. apply post_bind, post_push. intros c3 H3.
  apply post_bind, post_num, post_ret. unfold one_port. cbn [cmd net].
  assert (Hr : ctr c3 rnumber = ctr c rnumber + 1) by (rewrite (same_ctr _ _ H3); change (ctr c2 rnumber = ctr c rnumber + 1);
    by rewrite (same_ctr _ _ H2), rnumber_after).
  assert (Hl : live c d) by (by destruct Hi).
  split; [|lia]. split; [|split; [|done]].
  - eapply in_sync_same; [exact H3|]. apply in_sync_list; [set_solver|apply (live_same _ _ _ H2); by apply live_after|].
    eapply in_sync_insert; [| |exact H2|exact Hi|]; [set_solver|by case_bool_decide|]. rewrite E1. by apply in_sync_ctr.
  - unfold after_insert, c1 in *. split; intros *; views; try done. intros. by rewrite !decide_False by done.
Qed.

(** Lists of ports and tunnels: as many numbers are taken as there are ports. *)
Definition some_ports (n m : Z) (g : Z -> list vp) (k : nat) (c : commands) (s' : sys) : Prop :=
  in_sync n m g (cmd s') (db (net s')) /\ port_frame c (cmd s') /\ ctr (cmd s') rnumber = ctr c rnumber + Z.of_nat k.
Lemma some_ports_step n m g d k c s1 s' :
  one_port n m g d c s1 -> some_ports n m g k (cmd s1) s' -> some_ports n m g (S k) c s'.
Proof.
  intros (_ & F1 & R1 & _) (Hs & F2 & R2). split; [done|]. split; [by eapply port_frame_trans|]. lia.
Qed.
Lemma some_ports_app n m g k l c s1 s' :
  some_ports n m g k c s1 -> some_ports n m g l (cmd s1) s' -> some_ports n m g (k + l) c s'.
Proof. intros (_ & F1 & R1) (Hs & F2 & R2). split; [done|]. split; [by eapply port_frame_trans|]. lia. Qed.
Lemma no_ports n m g c w : in_sync n m g c (db w) -> some_ports n m g 0 c (mk c w).
Proof. intros Hs. split; [done|]. split; [done|]. cbn. lia. Qed.

Lemma add_physical_ok d ports M n m g c w :
  in_sync n m g c (db w) ->
  post (add_physical un_script_path d ports M) (fun s' _ => some_ports n m g (length ports) c s') (mk c w).
Proof.
  revert M c w. induction ports as [|p ports IH]; intros M c w Hs; cbn [add_physical length]; [by apply post_ret, no_ports|].
  apply post_bind. eapply post_mono; [by apply add_port_ok|]. intros [c1 w1] x Hone. apply post_bind, post_push. intros c2 H2.
  apply post_bind, post_num. destruct Hone as (Hs1 & F1 & R1 & L1). cbn [cmd net] in *.
  eapply post_mono; [apply IH; eapply in_sync_same; [exact H2|]; apply in_sync_list; [set_solver|by apply (port_frame_live _ _ _ F1)|done]|].
  intros s' M' Hp. apply (some_ports_step _ _ _ d _ _ (mk c2 w1)); [|done]. split; [by destruct Hp as [? _]; eapply in_sync_same; [exact H2|]; apply in_sync_list; [set_solver|by apply (port_frame_live _ _ _ F1)|done]|].
  split; [|split; [|done]]; cbn [cmd]; [|by views].
  eapply port_frame_trans; [exact F1|]. split; intros *; views; done.
Qed.
Lemma add_nf_ports_ok d ports M N n m g c w :
  in_sync n m g c (db w) ->
  post (add_nf_ports un_script_path d ports M N) (fun s' _ => some_ports n m g (length ports) c s') (mk c w).
Proof.
  revert M N c w. induction ports as [|p ports IH]; intros M N c w Hs; cbn [add_nf_ports length]; [by apply post_ret, no_ports|].
  apply post_bind. eapply post_mono; [by apply add_port_ok|]. intros [c1 w1] x Hone.
  apply post_bind, post_num. pose proof Hone as (Hs1 & _).
  eapply post_mono; [by apply IH|]. intros s' M' Hp. by eapply some_ports_step.
Qed.
Lemma add_nfs_ok d nfs info M N n m g c w :
  in_sync n m g c (db w) ->
  post (add_nfs un_script_path d nfs info M N)
    (fun s' _ => some_ports n m g (length (nfs ≫= fun nf => default [] (info !! nf))) c s') (mk c w).
Proof.
  revert M N c w. induction nfs as [|nf nfs IH]; intros M N c w Hs; cbn [add_nfs]; [by apply post_ret, no_ports|].
  apply post_bind. eapply post_mono; [by apply add_nf_ports_ok|]. intros [c1 w1] [P' N'] Hp. pose proof Hp as (Hs1 & _).
  eapply post_mono; [by apply IH|]. intros s' M' Hp'. cbn [mbind list_bind]. rewrite length_app. by eapply some_ports_app.
Qed.
Lemma add_endpoints_ok d eps M n m g c w :
  in_sync n m g c (db w) ->
  post (add_endpoints d eps M) (fun s' _ => some_ports n m g (length eps) c s') (mk c w).
Proof.
  revert M c w. induction eps as [|[id ps] eps IH]; intros M c w Hs; cbn [add_endpoints length]; [by apply post_ret, no_ports|].
  unfold param. do 4 (apply post_bind, post_of_out; intros ? _). apply post_bind.
  eapply post_mono; [by apply new_endpoint_ok|]. intros [c1 w1] r [Hone _]. pose proof Hone as (Hs1 & _).
  eapply post_mono; [by apply IH|]. intros s' M' Hp. by eapply some_ports_step.
Qed.
End sync.
