(* ===== verification/OvsdbLsi.v ===== *)
(** * Creation and removal of LSIs on Open vSwitch

    A new LSI comes with its ports, tunnels and virtual links; the near ends of
    the links are all created before the far ends, whose numbers are foretold.
    Creation and removal keep the plugin in step with the database
    ([OvsdbOk.synced]), and the links of a new LSI are the pairs of patch ports
    that the numbers given back say. *)

From Stdlib Require Import ZArith Lia String Ascii.
From stdpp Require Import gmap strings numbers base list functions propset sorting.
From S2P Require Import Prelude CString Cpp Json FlowMatch HighLevel HLGraph Lsi Vlinks VlinksOk NFManagers GraphManager Ovsdb OvsdbOk OvsdbLinks OvsdbSync.

Section lsi.
Context {W : Type} `{OvsdbLaws W}.
Context (un_script_path controllerAddress local_ip certificate : string).
#[local] Abbreviation sys := (sys (W := W)).
#[local] Abbreviation mk c w := ({| cmd := c; net := w |} : sys).

(** ** Near ends *)

Lemma post_set_peers a b (Q : sys -> unit -> Prop) c w : Q (mk (with_peers a b c) w) tt -> post (set_peers a b) Q (mk c w).
Proof. done. Qed.
Lemma post_put_text f k v (Q : sys -> unit -> Prop) c w : Q (mk (c_text f k v c) w) tt -> post (put_text f k v) Q (mk c w).
Proof. done. Qed.
Lemma post_put_id f k v (Q : sys -> unit -> Prop) c w : Q (mk (c_id f k v c) w) tt -> post (put_id f k v) Q (mk c w).
Proof. done. Qed.
Lemma post_put_links k v (Q : sys -> unit -> Prop) c w : Q (mk (c_links k v c) w) tt -> post (put_links k v) Q (mk c w).
Proof. done. Qed.
Lemma post_links_at k (Q : sys -> list Z -> Prop) c w :
  (forall c', same c c' -> Q (mk c' w) (lk c k)) -> post (links_at k) Q (mk c w).
Proof. intros HQ. eapply wp_post, wp_links_at, HQ. Unshelve. exact (fun _ _ => True). Qed.
Lemma post_add_virtual_link vrt trv iface d (Q : sys -> unit -> Prop) c w :
  (forall c' w' u, same (after_insert vport_uuid d u c) c' ->
     inserted d c u (vrow {| v_name := vrt; v_uuid := u; v_port := ctr c rnumber; v_peer := trv |}) w w' -> Q (mk c' w') tt) ->
  post (cmd_add_virtual_link vrt trv iface d) Q (mk c w).
Proof. intros HQ. eapply wp_post, wp_add_virtual_link, HQ. Qed.

(** What is written down for the near end of a link on [d], the far end being
    [n] numbers away. *)
Record near_end (d n : Z) (v : vp) (c c' : commands) : Prop := {
  ne_r : ctr c' rnumber = ctr c rnumber + 1;
  ne_p : ctr c' pnumber = ctr c pnumber + 2;
  ne_d : ctr c' dnumber = ctr c dnumber;
  ne_uuid x : tx c' switch_uuid x = tx c switch_uuid x;
  ne_v : v_port v = ctr c rnumber /\ v_name v = vport_name (ctr c pnumber) /\ v_peer v = vport_name (ctr c pnumber + 1);
  ne_id j : tx c' port_id j = if decide (j = ctr c rnumber + n) then v_peer v
                              else if decide (j = ctr c rnumber) then v_name v else tx c port_id j;
  ne_peer : peer_n c' = <[v_peer v := v_name v]> (peer_n c);
  ne_l2r j : di c' vl_LocalPortIDtoRemotePortID j
    = if decide (j = ctr c rnumber) then j + n else di c vl_LocalPortIDtoRemotePortID j;
  ne_switch x : tx c' switch_id x = tx c switch_id x;
  ne_lk k : lk c' k = lk c k ++ if decide (k = bridge_name d) then [ctr c rnumber] else []
}.
Lemma below_next k : below (k + 2) (vport_name k) /\ below (k + 2) (vport_name (k + 1)).
Proof. split; [exists k|exists (k + 1)]; split; done || lia. Qed.
Lemma in_sync_mono n n' m g c D : n <= n' -> in_sync n m g c D -> in_sync n' m g c D.
Proof. intros Hn []. split; try done. by eapply agrees_mono. Qed.

Lemma add_near_end_ok d n remote {A} (k : string -> Z -> Z -> prog sys A) Q m g c w :
  1 <= n -> in_sync (ctr c pnumber) m g c (db w) ->
  (forall c' w' v, in_sync (ctr c' pnumber) m (plus d v g) c' (db w') -> near_end d n v c c' -> live c d ->
     post (k (v_peer v) (v_port v) (v_port v + n)) Q (mk c' w')) ->
  post (vrt ← next_vport; _ ← incr pnumber;
      trv ← next_vport;
      nn ← rd peer_n; pp ← rd peersNames;
      _ ← set_peers (<[trv := vrt]> nn) pp;
      iface ← next_iface;
      _ ← cmd_add_virtual_link vrt trv iface d;
      r ← num rnumber;
      _ ← put_text port_id (r - 1) vrt;
      _ ← put_text port_id (r + n - 1) trv;
      l ← links_at ("Bridge" +:+ show d);
      _ ← put_links ("Bridge" +:+ show d) (l ++ [r - 1]);
      _ ← push vport_l d vrt;
      _ ← put_id vl_PortIDtoSwitchID (r - 1) d;
      _ ← put_id vl_PortIDtoSwitchID (r + n - 1) remote;
      _ ← put_id vl_LocalPortIDtoRemotePortID (r - 1) (r + n - 1);
      _ ← incr pnumber;
      k trv (r - 1) (r + n - 1)) Q (mk c w).
Proof.
  intros Hn Hs Hk. unfold next_vport, next_iface.
  apply post_bind, post_bind, post_num, post_ret. apply post_bind, post_incr. apply post_bind, post_bind, post_num, post_ret.
  apply post_bind, post_rd. apply post_bind, post_rd. apply post_bind, post_set_peers. apply post_bind, post_bind, post_num, post_ret.
  cbn [cmd]. change (ctr (c_ctr pnumber (ctr c pnumber + 1) c) pnumber) with (ctr c pnumber + 1).
  set (c1 := with_peers _ _ _). apply post_bind, post_add_virtual_link. intros c2 w2 u H2 Hi.
  apply post_bind, post_num. cbn [cmd].
  assert (R2 : ctr c2 rnumber = ctr c rnumber + 1) by by rewrite (same_ctr _ _ H2), rnumber_after.
  rewrite R2. replace (ctr c rnumber + 1 - 1) with (ctr c rnumber) by lia.
  replace (ctr c rnumber + 1 + n - 1) with (ctr c rnumber + n) by lia.
  do 2 apply post_bind, post_put_text. apply post_bind, post_links_at. intros c3 H3. apply post_bind, post_put_links.
  apply post_bind, post_push. intros c4 H4. do 3 apply post_bind, post_put_id. apply post_bind, post_incr. cbn [cmd].
  set (v := {| v_name := vport_name (ctr c pnumber); v_uuid := u; v_port := ctr c rnumber; v_peer := vport_name (ctr c pnumber + 1) |}).
  set (c' := c_ctr _ _ _).
  assert (Hl : live c d) by by destruct Hi.
  assert (Hend : near_end d n v c c').
  { subst c' c1 v. unfold after_insert in H2. split; intros *; views; unfold bridge_name; cbn [v_port v_name v_peer]; try done;
      repeat case_decide; destruct_and?; subst; rewrite ?app_nil_r; try done; lia || naive_solver. }
  apply (Hk c' w2 v); [|done|done]. rewrite (ne_p _ _ _ _ _ Hend). destruct (below_next (ctr c pnumber)) as [Bn Bp].
  assert (Hs1 : in_sync (ctr c pnumber + 2) m g c1 (db w)).
  { eapply in_sync_mono; [|eapply in_sync_eq; [..|exact Hs]]; try done; [lia|..]; apply (sy_agrees _ _ _ _ _ Hs). }
  eapply (in_sync_vport _ _ _ d v c1 c' w w2 Hs1); try done.
  - intros d' v' Hd Hv E. destruct (ag_below _ _ _ _ (sy_agrees _ _ _ _ _ Hs) d' v' Hd Hv) as (_ & B & _).
    rewrite E in B. by eapply not_below in B.
  - intros f d' Hf. subst c'. views. rewrite decide_False by naive_solver. by views.
  - intros d'. subst c'. views. unfold after_insert in H2. views. repeat case_decide; destruct_and?; subst; rewrite ?app_nil_r; done || naive_solver.
  - apply Hend.
  - intros i Hlt. change (i < ctr c rnumber) in Hlt. by rewrite (ne_id _ _ _ _ _ Hend), !decide_False by lia.
  - change (ctr c1 rnumber) with (ctr c rnumber). by rewrite (ne_id _ _ _ _ _ Hend), decide_False, decide_True by lia.
  - apply Hend.
  - intros i. rewrite (ne_r _ _ _ _ _ Hend), (ne_l2r _ _ _ _ _ Hend). intros Hge. rewrite decide_False by lia.
    apply (ag_l2r _ _ _ _ (sy_agrees _ _ _ _ _ Hs)). lia.
  - intros i. rewrite (ne_l2r _ _ _ _ _ Hend). case_decide; [lia|]. apply (ag_order _ _ _ _ (sy_agrees _ _ _ _ _ Hs)).
Qed.
(** The near ends [vs] of the [n] links. *)
Record near_done (d n : Z) (vs : list vp) (c c' : commands) : Prop := {
  nd_r : ctr c' rnumber = ctr c rnumber + Z.of_nat (length vs);
  nd_p : ctr c' pnumber = ctr c pnumber + 2 * Z.of_nat (length vs);
  nd_d : ctr c' dnumber = ctr c dnumber;
  nd_uuid x : tx c' switch_uuid x = tx c switch_uuid x;
  nd_v i v : vs !! i = Some v -> v_port v = ctr c rnumber + Z.of_nat i
    /\ v_name v = vport_name (ctr c pnumber + 2 * Z.of_nat i) /\ v_peer v = vport_name (ctr c pnumber + 2 * Z.of_nat i + 1)
    /\ tx c' port_id (ctr c rnumber + n + Z.of_nat i) = v_peer v /\ peer_n c' !! v_peer v = Some (v_name v);
  nd_id j : j < ctr c rnumber \/ ctr c rnumber + Z.of_nat (length vs) <= j < ctr c rnumber + n -> tx c' port_id j = tx c port_id j;
  nd_far j : ctr c rnumber + n + Z.of_nat (length vs) <= j -> tx c' port_id j = tx c port_id j;
  nd_peer k : k < ctr c pnumber -> peer_n c' !! vport_name k = peer_n c !! vport_name k;
  nd_l2r j : di c' vl_LocalPortIDtoRemotePortID j
    = if decide (ctr c rnumber <= j < ctr c rnumber + Z.of_nat (length vs)) then j + n else di c vl_LocalPortIDtoRemotePortID j;
  nd_switch x : tx c' switch_id x = tx c switch_id x;
  nd_lk k : lk c' k = lk c k ++ if decide (k = bridge_name d) then v_port <$> vs else []
}.
Lemma near_done_nil d n c : near_done d n [] c c.
Proof. split; intros *; cbn; try done; try lia; [by rewrite decide_False by lia|]. case_decide; by rewrite app_nil_r. Qed.
Lemma near_done_cons d n v vs c c1 c' :
  Z.of_nat (S (length vs)) <= n -> near_end d n v c c1 -> near_done d n vs c1 c' -> near_done d n (v :: vs) c c'.
Proof.
  intros Hn [Er Ep Ed Eu (Vp & Vn & Vr) Ei Eq El Es Ek] [Nr Np Nd Nu Nv Ni Nf Nq Nl Ns Nk]. split; cbn [length].
  - lia.
  - lia.
  - lia.
  - intros x. by rewrite Nu.
  - intros [|i] v' Hi.
    + injection Hi as <-. rewrite !Z.add_0_r, Ni by lia. rewrite Ei, decide_True by lia. split; [done|]. split; [done|]. split; [done|].
      split; [done|]. rewrite Vr, Nq, Eq, <- Vr by lia. by rewrite lookup_insert_eq.
    + destruct (Nv i v' Hi) as (? & N1 & N2 & N3 & N4). rewrite Er, Ep in *.
      replace (ctr c rnumber + n + Z.of_nat (S i)) with (ctr c rnumber + 1 + n + Z.of_nat i) by lia.
      replace (ctr c pnumber + 2 * Z.of_nat (S i)) with (ctr c pnumber + 2 + 2 * Z.of_nat i) by lia. split; [lia|done].
  - intros j Hj. rewrite Ni by lia. by rewrite Ei, !decide_False by lia.
  - intros j Hj. rewrite Nf by lia. by rewrite Ei, !decide_False by lia.
  - intros k Hk. rewrite Nq, Eq by lia. apply lookup_insert_ne. rewrite Vr. intros E%vport_name_inj. lia.
  - intros j. rewrite Nl, El, Er. repeat case_decide; done || lia.
  - intros x. by rewrite Ns.
  - intros k. rewrite Nk, Ek, <- app_assoc. case_decide; [|done]. cbn. by rewrite Vp.
Qed.

(** Patch ports and the LSIs they are added to. *)
Definition many (xs : list (Z * vp)) (g : Z -> list vp) : Z -> list vp := fold_left (fun g x => plus (fst x) (snd x) g) xs g.
Lemma elem_of_many xs g d v : v ∈ many xs g d <-> v ∈ g d \/ (d, v) ∈ xs.
Proof.
  revert g. induction xs as [|[d' v'] xs IH]; intros g; [cbn; set_solver|].
  change (v ∈ many xs (plus d' v' g) d <-> v ∈ g d \/ (d, v) ∈ (d', v') :: xs). rewrite IH, elem_of_plus, elem_of_cons. naive_solver.
Qed.
Lemma add_near_ends_ok d n remotes m g c w :
  Z.of_nat (length remotes) <= n -> in_sync (ctr c pnumber) m g c (db w) ->
  post (add_near_ends d n remotes) (fun s' r => exists vs, length vs = length remotes
      /\ in_sync (ctr (cmd s') pnumber) m (many (pair d <$> vs) g) (cmd s') (db (net s')) /\ near_done d n vs c (cmd s')
      /\ r = (v_peer <$> vs, (fun v => (v_port v, v_port v + n)) <$> vs)
      /\ (remotes <> [] -> live c d)) (mk c w).
Proof.
  revert g c w. induction remotes as [|remote remotes IH]; intros g c w Hn Hs; cbn [add_near_ends].
  - apply post_ret. exists []. cbn. split; [done|]. split; [done|]. split; [apply near_done_nil|done].
  - cbn [length] in Hn.
    pose proof (add_near_end_ok d n remote
      (fun x a b => '(rp, ls) ← add_near_ends d n remotes; mret (x :: rp, (a, b) :: ls))) as Hx. cbn beta in Hx. apply Hx with m g; [lia|done|]. clear Hx.
    intros c1 w1 v Hs1 He Hl. apply post_bind. eapply post_mono; [apply IH; [lia|exact Hs1]|].
    intros [c' w'] [rp l] (vs & Hlen & Hs' & Hd & [= -> ->] & _). apply post_ret. exists (v :: vs). cbn [length]. rewrite Hlen.
    split; [done|]. split; [done|]. split; [by eapply near_done_cons; [lia|..]|done].
Qed.

(** ** Far ends *)
Lemma inserted_eq d c c1 u row (w w' : W) :
  tx c1 switch_uuid d = tx c switch_uuid d -> known c1 d = known c d -> inserted d c1 u row w w' -> inserted d c u row w w'.
Proof. intros Et Ek []. rewrite Et, Ek in *. by split. Qed.

(** The far end of a link: its name, number and peer were written down with the
    near end. *)
Lemma add_far_end_ok trv vrt remote (k : prog sys unit) Q N m g c w :
  in_sync N m g c (db w) -> peer_n c !! trv = Some vrt -> tx c port_id (ctr c rnumber) = trv -> below N trv -> below N vrt ->
  (forall d' v', live c d' -> v' ∈ g d' -> v_name v' <> trv) ->
  (forall c' w' v, in_sync N m (plus remote v g) c' (db w') -> live c remote ->
     v_name v = trv -> v_peer v = vrt -> v_port v = ctr c rnumber ->
     ctr c' rnumber = ctr c rnumber + 1 -> ctr c' pnumber = ctr c pnumber + 2 -> ctr c' dnumber = ctr c dnumber ->
     (forall f i, tx c' f i = tx c f i) -> (forall f i, di c' f i = di c f i) -> peer_n c' = peer_n c -> (forall k, lk c' k = lk c k) ->
     post k Q (mk c' w')) ->
  post (_ ← cmd_connect;
      _ ← incr pnumber;
      iface ← next_iface;
      _ ← push vport_l remote trv;
      n ← rd peer_n;
      _ ← cmd_add_virtual_link trv (default EmptyString (n !! trv)) iface remote;
      _ ← incr pnumber;
      _ ← incr tid;
      _ ← cmd_disconnect; k) Q (mk c w).
Proof.
  intros Hs Hp Hid Bt Bv Hnew Hk. apply post_bind, post_connect. intros w1 E1. rewrite <- E1 in Hs.
  apply post_bind, post_incr. apply post_bind, post_bind, post_num, post_ret. apply post_bind, post_push. intros c1 H1.
  apply post_bind, post_rd. cbn [cmd]. rewrite (same_peer_n _ _ H1). cbn [peer_n c_list c_ctr with_lists with_ctr]. rewrite Hp. cbn [default].
  apply post_bind, post_add_virtual_link. intros c2 w2 u H2 Hi. do 2 apply post_bind, post_incr. apply post_bind, post_disconnect.
  intros w3 E3. assert (R1 : ctr c1 rnumber = ctr c rnumber) by by rewrite (same_ctr _ _ H1). rewrite R1 in Hi.
  set (v := {| v_name := trv; v_uuid := u; v_port := ctr c rnumber; v_peer := vrt |}). set (c' := c_ctr tid _ _).
  assert (Hi' : inserted remote c u (vrow v) w1 w2).
  { eapply inserted_eq; [| |exact Hi]; [by views|]. unfold known. by views. }
  assert (Hr : ctr c' rnumber = ctr c rnumber + 1) by (change (ctr c2 rnumber = ctr c rnumber + 1); by rewrite (same_ctr _ _ H2), rnumber_after, R1).
  unfold after_insert in H2. apply (Hk c' w3 v); try done; subst c'; try (intros; by views).
  - rewrite E3. eapply (in_sync_vport _ _ _ remote v c _ w1 w2 Hs Hi'); try done; intros *; views; try done.
    + unfold after_insert. views. intros. repeat case_decide; destruct_and?; subst; done || naive_solver.
    + repeat case_decide; destruct_and?; subst; rewrite ?app_nil_r; done || naive_solver.
    + intros Hge. apply (ag_l2r _ _ _ _ (sy_agrees _ _ _ _ _ Hs)). revert Hge. repeat case_decide; try done; lia.
    + apply (ag_order _ _ _ _ (sy_agrees _ _ _ _ _ Hs)).
  - by destruct Hi'.
  - views. repeat case_decide; try done; lia.
Qed.

(** The two ends of a link name each other. *)
Definition mates (v f : vp) : Prop := v_name f = v_peer v /\ v_peer f = v_name v.
Record far_done (k : nat) (c c' : commands) : Prop := {
  fd_r : ctr c' rnumber = ctr c rnumber + Z.of_nat k;
  fd_p : ctr c' pnumber = ctr c pnumber + 2 * Z.of_nat k;
  fd_d : ctr c' dnumber = ctr c dnumber;
  fd_tx f i : tx c' f i = tx c f i;
  fd_di f i : di c' f i = di c f i;
  fd_lk k : lk c' k = lk c k
}.
Lemma add_far_ends_ok vs remotes N m g c w :
  length vs = length remotes -> in_sync N m g c (db w) ->
  (forall i v, vs !! i = Some v -> tx c port_id (ctr c rnumber + Z.of_nat i) = v_peer v
     /\ peer_n c !! v_peer v = Some (v_name v) /\ below N (v_peer v) /\ below N (v_name v)
     /\ forall d' v', live c d' -> v' ∈ g d' -> v_name v' <> v_peer v) ->
  NoDup (v_peer <$> vs) ->
  post (add_far_ends (v_peer <$> vs) remotes) (fun s' _ => exists fs,
      in_sync N m (many (zip remotes fs) g) (cmd s') (db (net s')) /\ Forall2 mates vs fs
      /\ (forall i f, fs !! i = Some f -> v_port f = ctr c rnumber + Z.of_nat i)
      /\ Forall (live c) remotes /\ far_done (length vs) c (cmd s')) (mk c w).
Proof.
  revert remotes g c w. induction vs as [|v vs IH]; intros [|remote remotes] g c w Hlen Hs Hv Hnd; try done.
  - apply post_ret. exists []. split; [done|]. split; [done|]. split; [done|]. split; [done|]. split; cbn; done || lia.
  - destruct (Hv 0%nat v eq_refl) as (Hid & Hp & Bt & Bv & Hnew). rewrite Z.add_0_r in Hid.
    cbn [fmap list_fmap] in Hnd. apply NoDup_cons in Hnd as [Hin Hnd].
    apply (add_far_end_ok (v_peer v) (v_name v) remote _ _ N m g); try done.
    intros c1 w1 f Hs1 Hl N1 N2 N3 R1 P1 D1 T1 I1 Q1 K1. eapply post_mono; [apply (IH remotes _ _ _ ltac:(by injection Hlen) Hs1); [|done]|].
    + intros i v' Hi. destruct (Hv (S i) v' Hi) as (Hid' & Hp' & Bt' & Bv' & Hnew'). rewrite T1, Q1.
      replace (ctr c1 rnumber + Z.of_nat i) with (ctr c rnumber + Z.of_nat (S i)) by lia. split_and!; try done.
      intros d' x Hd [Hx|[-> ->]]%elem_of_plus; [apply (Hnew' d'); [|done]; unfold live in *; by rewrite T1 in Hd|].
      rewrite N1. intros E. apply Hin. rewrite E. apply list_elem_of_fmap. exists v'. split; [done|]. by eapply list_elem_of_lookup_2.
    + intros s' _ (fs & Hs' & Hm & Hf & HL & Hd). exists (f :: fs). split; [done|]. split; [by constructor|]. split; [|split].
      * intros [|i] x Hx; [injection Hx as <-; lia|]. rewrite (Hf i x Hx). lia.
      * constructor; [done|]. eapply Forall_impl; [exact HL|]. intros x. unfold live. by rewrite T1.
      * destruct Hd as [A B C D E F]. cbn [length]. split; intros *; rewrite ?D, ?E, ?F, ?T1, ?I1, ?K1; done || lia.
Qed.

(** ** The bridge *)
Lemma read_strr_refusal old i good e t rest us :
  Forall is_result good -> read_strr old i (good ++ error_result e t :: rest) <> Ret us.
Proof.
  intros Hg. revert i us. induction Hg as [|r good Hr Hg IH]; intros i us; cbn [app read_strr]; [done|].
  destruct Hr as [[u ->]|[k ->]]; cbn; (case_match; [done|]); destruct (read_strr _ _ _) as [us'| |] eqn:E; try done; by apply IH in E.
Qed.
Lemma read_created_refusal v u : refusal v -> read_created (default JNull v) <> Ret u.
Proof.
  intros (id & good & e & t & rest & -> & Hg). unfold read_created. cbn -[read_strr].
  do 2 (rewrite bool_decide_false by done; cbn -[read_strr]). rewrite bool_decide_true by done. cbn -[read_strr].
  destruct (read_strr [] 0 _) as [us| |] eqn:E; cbn; try done. by apply read_strr_refusal in E.
Qed.

Lemma uuid_known n g c D d v : agrees n g c D -> live c d -> v ∈ g d -> v_uuid v ∈ known c d.
Proof. intros Ha Hd Hv. unfold known. rewrite !elem_of_app, (ag_uuids _ _ _ _ Ha) by done. right. left. by apply list_elem_of_fmap_2. Qed.

(** A bridge without ports. *)
Section bridge.
Context (n : Z) (g : Z -> list vp) (c c' : commands) (d : Z) (bu : string) (D D' : DB).
Context (Hs : in_sync n d g c D) (Hb : bu <> EmptyString) (Hnew : bu ∉ dom (db_bridges D)).
Context (HD : db_bridges D' = <[bu := ∅]> (db_bridges D)) (Hstay : ports_stay D D').
Context (Hu : forall x, tx c' switch_uuid x = if decide (x = d) then bu else tx c switch_uuid x).
Context (Hp : forall i, tx c' port_id i = tx c port_id i) (Hr : ctr c' rnumber = ctr c rnumber).
Context (Hl : forall f x, ls c' f x = ls c f x) (Hi : forall f i, di c' f i = di c f i).
#[local] Abbreviation g' := (<[d := []]> g).

Lemma live_create x : live c' x <-> x = d \/ live c x.
Proof using Hu Hb.
  unfold live. rewrite Hu. case_decide; [subst; tauto|]. tauto.
Qed.
Lemma old_create x : x <> d -> live c' x -> live c x.
Proof using Hu Hb. rewrite live_create. tauto. Qed.
Lemma lists_create f : ls c' f d = [].
Proof using Hs Hl. rewrite Hl. by apply (sy_fresh _ _ _ _ _ Hs d). Qed.
Lemma ghost_create x v : v ∈ g' x <-> x <> d /\ v ∈ g x.
Proof using.
  clear. destruct (decide (x = d)) as [->|]; [rewrite fn_lookup_insert|rewrite fn_lookup_insert_ne by done]; set_solver.
Qed.
Lemma bridge_create x : live c' x -> db_bridges D' !! tx c' switch_uuid x = Some (list_to_set (known c' x)).
Proof using All.
  intros Hx. rewrite HD, Hu. case_decide as E.
  - subst. unfold known. by rewrite !lists_create, lookup_insert_eq.
  - apply old_create in Hx; [|done]. pose proof (ag_bridge _ _ _ _ (sy_agrees _ _ _ _ _ Hs) x Hx) as Hbr.
    unfold known. rewrite !Hl, lookup_insert_ne; [done|]. intros ->. apply Hnew, elem_of_dom. by eexists.
Qed.
Lemma stay_create x u row : live c x -> x <> d -> u ∈ known c x -> db_ports D !! u = Some row -> db_ports D' !! u = Some row.
Proof using All.
  intros Hx Hne Hk. eapply Hstay; [apply bridge_create; rewrite live_create; by right|]. unfold known in *. by rewrite !Hl, elem_of_list_to_set.
Qed.
Lemma agrees_create : agrees n g' c' D'.
Proof using All.
  destruct Hs as [Ha Hn Hf]. split; intros *; rewrite ?Hr, ?Hi, ?Hl.
  - apply bridge_create.
  - intros Hx. rewrite !Hu. assert (Hin : forall y, live c y -> tx c switch_uuid y <> bu).
    { intros y Hy <-. apply Hnew, elem_of_dom. rewrite (ag_bridge _ _ _ _ Ha y Hy). by eexists. }
    repeat case_decide; subst; try done.
    + intros E. destruct (decide (live c d')) as [?|Hx']; [by destruct (Hin d')|]. unfold live in Hx'. exfalso. apply Hx'. by rewrite <- E.
    + intros E. by destruct (Hin d0); [apply old_create|].
    + apply (ag_inj _ _ _ _ Ha). by apply old_create.
  - intros Hx. destruct (decide (d0 = d)) as [->|]; [rewrite fn_lookup_insert, <- Hl; apply lists_create|rewrite fn_lookup_insert_ne by done].
    apply (ag_uuids _ _ _ _ Ha). by apply old_create.
  - intros Hx [Hne Hv]%ghost_create. apply old_create in Hx; [|done]. apply (stay_create d0); [done|done|by eapply uuid_known|by apply (ag_rows _ _ _ _ Ha d0)].
  - intros Hx Hin. destruct (decide (d0 = d)) as [->|Hne].
    + rewrite <- !Hl, !lists_create in Hin. by apply elem_of_nil in Hin.
    + apply old_create in Hx; [|done]. destruct (ag_others _ _ _ _ Ha d0 u Hx Hin) as (r & ? & ?). exists r. split; [|done].
      apply (stay_create d0); [done..| |done]. unfold known. rewrite !elem_of_app in *. tauto.
  - intros Hx Hy [? ?]%ghost_create [? ?]%ghost_create. apply (ag_unique _ _ _ _ Ha); auto using old_create.
  - intros Hx. destruct (decide (d0 = d)) as [->|]; [rewrite fn_lookup_insert; constructor|rewrite fn_lookup_insert_ne by done].
    apply (ag_nodup _ _ _ _ Ha). by apply old_create.
  - apply (ag_pos _ _ _ _ Ha).
  - intros Hx [? ?]%ghost_create. apply (ag_below _ _ _ _ Ha d0); [by apply old_create|done].
  - apply (ag_l2r _ _ _ _ Ha).
  - apply (ag_order _ _ _ _ Ha).
Qed.
Lemma in_sync_create : in_sync n (d + 1) g' c' D'.
Proof using All.
  split; [apply agrees_create|split|]; destruct Hs as [Ha Hn Hf].
  - intros x Hx. destruct (decide (x = d)) as [->|]; [rewrite fn_lookup_insert; apply lists_create|rewrite fn_lookup_insert_ne, Hl by done].
    apply (na_names _ _ Hn). by apply old_create.
  - intros x v Hx [? ?]%ghost_create. rewrite Hp. apply (na_ids _ _ Hn x); [by apply old_create|done].
  - intros x Hx. rewrite Hl. apply (na_dead _ _ Hn). rewrite live_create in Hx. tauto.
  - intros x Hx. destruct (Hf x ltac:(lia)) as [? Hls]. rewrite Hu, decide_False by lia. split; [done|]. intros f. by rewrite Hl.
Qed.
Lemma joined_create a b va vb : joined c' g' a b va vb <-> joined c g a b va vb.
Proof using All.
  unfold joined. rewrite !ghost_create, !live_create, Hi.
  assert (Hdead : ~ live c d) by (intros Hx; apply Hx; by apply (sy_fresh _ _ _ _ _ Hs d)). naive_solver.
Qed.
Lemma linked_create :
  d = ctr c dnumber -> ctr c' dnumber = ctr c dnumber -> (forall k, lk c' k = lk c k) ->
  (forall x, tx c' switch_id x = if decide (x = d) then bridge_name d else tx c switch_id x) ->
  linked n g c -> linked n g' c'.
Proof using All.
  intros Hdd Hdn Hlk Hsw [Ko Km Ks Kn Ki]. split; try done.
  - intros x v Lx [Hx Hv]%ghost_create. apply (Km x); [by apply old_create|done].
  - intros x Lx. rewrite Hsw. case_decide as E; [by subst x|]. apply Ks. by apply old_create.
  - intros x. rewrite Hdn, Hlk. apply Kn.
  - intros x i Lx. rewrite Hlk. intros Hin. destruct (decide (x = d)) as [->|Hx].
    + rewrite Kn in Hin by lia. by apply elem_of_nil in Hin.
    + apply old_create in Lx; [|done]. destruct (Ki x i Lx Hin) as (? & ? & ? & ? & Hq). rewrite !Hp, Hi, Hr. split_and!; try done.
      intros e v Le [He Hv]%ghost_create. apply Hq; [by apply old_create|done].
Qed.
End bridge.

(** ** The new links *)

(** The links of the LSI [d] to the LSIs [remotes] with the numbers [l]. *)
Definition vlink (d : Z) (remotes : list Z) (l : list (Z * Z)) (x : Z * Z * (Z * Z)) : Prop :=
  exists i ia ib b, l !! i = Some (ia, ib) /\ remotes !! i = Some b /\ x = (d, ia, (b, ib)).
Section new_links.
Context (g : Z -> list vp) (c c1 c' : commands) (d : Z) (vs fs : list vp) (remotes : list Z) (D : DB).
#[local] Abbreviation n := (Z.of_nat (length vs)).
#[local] Abbreviation r := (ctr c rnumber).
#[local] Abbreviation p := (ctr c pnumber).
#[local] Abbreviation g' := (many (zip remotes fs) (many (pair d <$> vs) g)).
Context (Ha : agrees p g c D) (Hnear : near_done d n vs c c1) (Hlen : length vs = length remotes).
Context (Hm : Forall2 mates vs fs) (Hports : forall i f, fs !! i = Some f -> v_port f = r + n + Z.of_nat i).
Context (Hlive : forall x, live c' x <-> live c x) (Hd : remotes <> [] -> live c d) (Hr : Forall (live c) remotes).
Context (Hdi : forall i, di c' vl_LocalPortIDtoRemotePortID i = di c1 vl_LocalPortIDtoRemotePortID i).

(** The numbers, names and peers of the patch ports: old ones, near and far ends. *)
Definition port_like (v : vp) (i name peer : Z) : Prop := v_port v = i /\ v_name v = vport_name name /\ v_peer v = vport_name peer.
Definition old_port (x : Z) (v : vp) : Prop :=
  v ∈ g x /\ 0 < v_port v < r /\ below p (v_name v) /\ below p (v_peer v).
Definition near_port (i : nat) (x : Z) (v : vp) : Prop :=
  x = d /\ vs !! i = Some v /\ port_like v (r + Z.of_nat i) (p + 2 * Z.of_nat i) (p + 2 * Z.of_nat i + 1).
Definition far_port (i : nat) (x : Z) (v : vp) : Prop :=
  remotes !! i = Some x /\ fs !! i = Some v /\ port_like v (r + n + Z.of_nat i) (p + 2 * Z.of_nat i + 1) (p + 2 * Z.of_nat i).
Lemma near_port_intro i v : vs !! i = Some v -> near_port i d v.
Proof using Hnear. intros Hi. destruct (nd_v _ _ _ _ _ Hnear i v Hi) as (? & ? & ? & _). done. Qed.
Lemma far_port_intro i x f : remotes !! i = Some x -> fs !! i = Some f -> far_port i x f.
Proof using All.
  intros Hx Hf. destruct (Forall2_lookup_r _ _ _ _ _ Hm Hf) as (v & Hv & E1 & E2).
  destruct (nd_v _ _ _ _ _ Hnear i v Hv) as (? & N1 & N2 & _). split; [done|]. split; [done|]. split; [by apply Hports|]. by rewrite E1, E2.
Qed.
Lemma ports_cases x v : live c x -> v ∈ g' x <-> old_port x v \/ (exists i, near_port i x v) \/ (exists i, far_port i x v).
Proof using All.
  intros Hx. rewrite !elem_of_many. split.
  - intros [[Hv|Hv]|Hv].
    + left. split; [done|]. by apply (ag_below _ _ _ _ Ha x).
    + right. left. apply list_elem_of_fmap in Hv as (v' & [= -> ->] & [i Hi]%list_elem_of_lookup). exists i. by apply near_port_intro.
    + right. right. apply elem_of_lookup_zip_with in Hv as (i & y & f & [= -> ->] & Hy & Hf). exists i. by apply far_port_intro.
  - intros [[Hv _]|[(i & -> & Hv & _)|(i & Hy & Hf & _)]].
    + by left; left.
    + left. right. apply list_elem_of_fmap. exists v. split; [done|]. by eapply list_elem_of_lookup_2.
    + right. apply elem_of_lookup_zip_with. by exists i, x, v.
Qed.
Lemma joined_new a b v v' :
  joined c' g' a b v v' <-> joined c g a b v v'
    \/ exists i, a = d /\ vs !! i = Some v /\ remotes !! i = Some b /\ fs !! i = Some v'.
Proof using All.
  pose proof (ag_pos _ _ _ _ Ha) as Hpos. unfold joined. rewrite !Hlive. split.
  - intros ((La & Va) & (Lb & Vb) & E1 & E2 & El). rewrite Hdi, (nd_l2r _ _ _ _ _ Hnear) in El.
    apply ports_cases in Va as [Va|[[i Va]|[i Va]]]; [..|done]; apply ports_cases in Vb as [Vb|[[j Vb]|[j Vb]]]; try done.
    + destruct Va as (? & ? & _), Vb as (? & _). rewrite decide_False in El by lia. by left.
    + destruct Va as (_ & _ & _ & B), Vb as (_ & _ & _ & N1 & _). rewrite E1, N1 in B. apply not_below in B; [done|lia].
    + destruct Va as (_ & _ & _ & B), Vb as (_ & _ & _ & N1 & _). rewrite E1, N1 in B. apply not_below in B; [done|lia].
    + destruct Va as (_ & _ & _ & N1 & _), Vb as (_ & _ & _ & B). rewrite E2, N1 in B. apply not_below in B; [done|lia].
    + destruct Va as (_ & _ & _ & _ & N1), Vb as (_ & _ & _ & N2 & _). rewrite N1, N2 in E1. apply vport_name_inj in E1. lia.
    + destruct Va as (-> & Hi & _ & _ & N1), Vb as (Hb & Hf & _ & N2 & _). rewrite N1, N2 in E1. apply vport_name_inj in E1.
      assert (i = j) as -> by lia. right. by exists j.
    + exfalso. destruct Va as (_ & _ & P1 & _), Vb as (_ & ? & _). rewrite decide_False, (ag_l2r _ _ _ _ Ha) in El; lia.
    + exfalso. destruct Va as (_ & _ & P1 & _), Vb as (_ & _ & P2 & _). rewrite decide_False, (ag_l2r _ _ _ _ Ha) in El; lia.
    + exfalso. destruct Va as (_ & _ & P1 & _), Vb as (_ & _ & P2 & _). rewrite decide_False, (ag_l2r _ _ _ _ Ha) in El; lia.
  - intros [((La & Va) & (Lb & Vb) & E1 & E2 & El)|(i & -> & Hv & Hb & Hf)].
    + rewrite !elem_of_many. destruct (ag_below _ _ _ _ Ha a v La Va) as [? _].
      rewrite Hdi, (nd_l2r _ _ _ _ _ Hnear), decide_False by lia. split_and!; tauto.
    + assert (Ld : live c d) by (apply Hd; by intros ->). assert (Lb : live c b) by by eapply Forall_lookup_1.
      pose proof (near_port_intro i v Hv) as Hn. pose proof (far_port_intro i b v' Hb Hf) as Hfp.
      apply lookup_lt_Some in Hv as Hlt.
      split; [split; [done|]; apply ports_cases; eauto|]. split; [split; [done|]; apply ports_cases; eauto|].
      destruct Hn as (_ & _ & P1 & N1 & Q1), Hfp as (_ & _ & P2 & N2 & Q2). rewrite N1, N2, Q1, Q2. split; [done|]. split; [done|].
      rewrite Hdi, (nd_l2r _ _ _ _ _ Hnear), decide_True by lia. lia.
Qed.
Lemma patch_link_new N D' x : agrees N g' c' D' ->
  patch_link c' D' x <-> patch_link c D x \/ vlink d remotes ((fun v => (v_port v, v_port v + n)) <$> vs) x.
Proof using All.
  intros Ha'. destruct x as [[a ia] [b ib]].
  rewrite (patch_link_joined _ _ _ _ _ _ _ _ Ha'), (patch_link_joined _ _ _ _ _ _ _ _ Ha). split.
  - intros (v & v' & Hj & <- & <-). apply joined_new in Hj as [Hj|(i & -> & Hv & Hb & Hf)]; [left; eauto|].
    right. exists i, (v_port v), (v_port v'), b. split; [|done]. rewrite list_lookup_fmap, Hv. cbn.
    destruct (near_port_intro i v Hv) as (_ & _ & -> & _). rewrite (Hports i v' Hf). do 2 f_equal. lia.
  - intros [(v & v' & Hj & <- & <-)|(i & ja & jb & y & Hl & Hb & [= -> -> -> ->])].
    + exists v, v'. rewrite joined_new. eauto.
    + apply list_lookup_fmap_Some in Hl as (v & [= -> ->] & Hv). destruct (Forall2_lookup_l _ _ _ _ _ Hm Hv) as (f & Hf & _).
      exists v, f. rewrite joined_new. split; [right; by exists i|]. split; [done|]. rewrite (Hports i f Hf).
      destruct (near_port_intro i v Hv) as (_ & _ & -> & _). lia.
Qed.

(** The near ends are links of the new LSI. *)
Lemma near_mates i v : (exists k, p = 2 * k + 1) -> vs !! i = Some v -> mate (v_name v) (v_peer v) /\ mate (v_peer v) (v_name v).
Proof using Hnear.
  clear Hlen. intros [k Ko] Hv. destruct (near_port_intro i v Hv) as (_ & _ & _ & -> & ->).
  split; exists (k + Z.of_nat i); [left|right]; split; f_equal; lia.
Qed.
Lemma linked_new D' :
  agrees (p + 2 * n) g' c' D' -> named g' c' -> d = ctr c dnumber ->
  (forall f i, tx c' f i = tx c1 f i) -> (forall k, lk c' k = lk c1 k) ->
  ctr c' rnumber = r + 2 * n -> ctr c' dnumber = ctr c dnumber + 1 ->
  linked p g c -> linked (p + 2 * n) g' c'.
Proof using All.
  intros Ha' Hn' Hdd Htx Hlk Hrn Hdn [Ko Km Ks Kn Ki].
  assert (Hlk' : forall x, lk c' (bridge_name x) = lk c (bridge_name x) ++ if decide (x = d) then v_port <$> vs else []).
  { intros x. rewrite Hlk, (nd_lk _ _ _ _ _ Hnear). f_equal. destruct (decide (x = d)) as [->|Hne]; [by rewrite decide_True|].
    rewrite decide_False; [done|]. intros E. by apply Hne, bridge_name_inj. }
  split; try (intros *; rewrite Hlive).
  - destruct Ko as [k Ko]. exists (k + n). lia.
  - intros Lx Hv. apply ports_cases in Hv as [Hv|[[i Hv]|[i Hv]]]; [| | |done].
    + apply (Km d0); [done|]. apply Hv.
    + apply (near_mates i); [done|apply Hv].
    + destruct Hv as (_ & Hf & _). destruct (Forall2_lookup_r _ _ _ _ _ Hm Hf) as (v0 & Hv0 & E1 & E2).
      rewrite E1, E2. by apply (near_mates i).
  - intros Lx. rewrite Htx, (nd_switch _ _ _ _ _ Hnear). by apply Ks.
  - intros x. rewrite Hdn. intros Hx. rewrite Hlk', Kn, decide_False by lia. done.
  - rewrite Hlk', elem_of_app, Hrn, Hdi, (nd_l2r _ _ _ _ _ Hnear), !Htx. intros Lx [Hin|Hin].
    + destruct (Ki d0 i Lx Hin) as (I1 & I2 & B & M & Hu). rewrite decide_False by lia.
      rewrite !(nd_id _ _ _ _ _ Hnear) by lia. split_and!; [lia|lia|eapply below_mono; [|exact B]; lia|done|].
      intros e v Le%Hlive Hv E. apply ports_cases in Hv as [Hv|[[j Hv]|[j Hv]]]; [by apply (Hu e v); [..|apply Hv|]|..|done]; exfalso.
      * destruct Hv as (_ & _ & _ & N1 & _). rewrite <- E, N1 in B. apply not_below in B; [done|lia].
      * destruct Hv as (_ & _ & _ & N1 & _). rewrite <- E, N1 in B. apply not_below in B; [done|lia].
    + case_decide as E; [|by apply elem_of_nil in Hin]. subst d0. apply list_elem_of_fmap in Hin as (v & -> & [j Hj]%list_elem_of_lookup).
      pose proof (near_port_intro j v Hj) as Hnp. apply lookup_lt_Some in Hj as Hlt. destruct (nd_v _ _ _ _ _ Hnear j v Hj) as (P1 & N1 & Q1 & F1 & _).
      assert (Hv : v ∈ g' d) by (apply ports_cases; eauto).
      assert (T1 : tx c1 port_id (v_port v) = v_name v) by (rewrite <- Htx; by apply (na_ids _ _ Hn' d); [apply Hlive|]).
      rewrite decide_True by lia. replace (v_port v + n) with (r + n + Z.of_nat j) by lia. rewrite T1, F1.
      split_and!; [lia|lia|rewrite N1; eexists; split; [|done]; lia|by apply (near_mates j)|].
      intros e v' Le Hv' E. apply (ag_unique _ _ _ _ Ha' e d v' v); auto. by apply Hlive.
Qed.
End new_links.

(** ** Creation *)
Lemma post_exchange r (Q : sys -> json -> Prop) c w :
  (forall w' v, exchanged r w w' v -> Q (mk c w') (default JNull v)) -> post (exchange r) Q (mk c w).
Proof. intros HQ. eapply wp_post, wp_exchange, HQ. Qed.
Lemma joined_eq c c' g a b v v' :
  (forall x, live c' x <-> live c x) ->
  (forall i, di c' vl_LocalPortIDtoRemotePortID i = di c vl_LocalPortIDtoRemotePortID i) ->
  joined c' g a b v v' <-> joined c g a b v v'.
Proof. intros HL Hi. unfold joined. by rewrite !HL, Hi. Qed.

(** The bridge is created. *)
Record bridged (d : Z) (g : Z -> list vp) (c c' : commands) (D' : DB) : Prop := {
  br_sync : in_sync (ctr c' pnumber) (d + 1) (<[d := []]> g) c' D';
  br_d : ctr c' dnumber = d;
  br_live x : live c' x <-> x = d \/ live c x;
  br_joined a b v v' : joined c' (<[d := []]> g) a b v v' <-> joined c g a b v v';
  br_linked : linked (ctr c' pnumber) (<[d := []]> g) c';
  br_r : ctr c' rnumber = ctr c rnumber
}.
Lemma create_bridge_ok cli g c w {A} (k : Z -> prog sys A) Q :
  in_sync (ctr c pnumber) (ctr c dnumber) g c (db w) -> linked (ctr c pnumber) g c ->
  (forall c' w', bridged (ctr c dnumber) g c c' (db w') -> post (k (ctr c dnumber)) Q (mk c' w')) ->
  post (_ ← set_certificate certificate;
        _ ← cmd_connect;
        d ← num dnumber;
        _ ← put_text switch_id d ("Bridge" +:+ show d);
        _ ← fits ("tcp:" +:+ controllerAddress +:+ ":" +:+ cli_controller_port cli);
        id ← num tid;
        _ ← incr tid;
        answer ← exchange (create_bridge controllerAddress local_ip (cli_controller_port cli) d id);
        u ← of_out (read_created answer);
        _ ← put_text switch_uuid d u; k d) Q (mk c w).
Proof.
  intros Hs Hlk Hk. apply post_bind. change (post (set_certificate certificate) ?R (mk c w)) with (R (mk (with_certificate certificate c) w) tt).
  cbn beta. apply post_bind, post_connect. intros w1 E1. apply post_bind, post_num. apply post_bind, post_put_text.
  apply post_bind, post_of_out. intros _ _. apply post_bind, post_num. apply post_bind, post_incr. apply post_bind, post_exchange.
  intros w2 v Hv. apply post_bind, post_of_out. intros u Hu. apply post_bind, post_put_text. cbn [cmd] in *.
  apply law_create in Hv as [Hv|(cu & bu & -> & Hb & Hnew & HD & Hstay)]; [by apply read_created_refusal in Hu|].
  injection Hu as <-. rewrite E1 in *. set (d := ctr (with_certificate certificate c) dnumber) in *. set (c' := c_text switch_uuid d bu _).
  assert (Ht : forall x, tx c' switch_uuid x = if decide (x = d) then bu else tx c switch_uuid x).
  { intros x. subst c'. views. repeat case_decide; destruct_and?; subst; done || naive_solver. }
  assert (Hf : forall i, tx c' port_id i = tx c port_id i).
  { intros x. subst c'. views. by rewrite !decide_False by naive_solver. }
  apply Hk. split.
  - eapply (in_sync_create _ g c c' d bu (db w) (db w2)); done.
  - done.
  - intros x. unfold live. rewrite Ht. case_decide; [subst; tauto|tauto].
  - intros *. eapply (joined_create _ g c c' d bu (db w) (db w2)); done.
  - eapply (linked_create _ g c c' d bu (db w)); try done. intros x. subst c'. views.
    repeat case_decide; destruct_and?; subst; done || naive_solver.
  - done.
Qed.

Lemma peers_nodup d n vs c c' : near_done d n vs c c' -> NoDup (v_peer <$> vs).
Proof.
  intros Hd. apply NoDup_alt. intros i j x Hi Hj. apply list_lookup_fmap_Some in Hi as (v & -> & Hi), Hj as (v' & E & Hj).
  destruct (nd_v _ _ _ _ _ Hd i v Hi) as (_ & _ & Ev & _), (nd_v _ _ _ _ _ Hd j v' Hj) as (_ & _ & Ev' & _).
  rewrite Ev, Ev' in E. apply vport_name_inj in E. lia.
Qed.
Lemma near_numbers d n vs c c' : near_done d n vs c c' ->
  let l := (fun v => (v_port v, v_port v + Z.of_nat (length vs))) <$> vs in
  NoDup (l.*2) /\ Forall (fun x => ctr c rnumber <= snd x) l.
Proof.
  intros Hd l. subst l. rewrite <- list_fmap_compose. split.
  - apply NoDup_alt. intros i j x Hi Hj. apply list_lookup_fmap_Some in Hi as (v & -> & Hi), Hj as (v' & E & Hj). cbn in E.
    destruct (nd_v _ _ _ _ _ Hd i v Hi) as (P & _), (nd_v _ _ _ _ _ Hd j v' Hj) as (P' & _). lia.
  - apply Forall_fmap, Forall_lookup. intros i v Hi. destruct (nd_v _ _ _ _ _ Hd i v Hi) as (P & _). cbn. lia.
Qed.
Lemma add_links_ok d remotes m g c w {A} (k : list (Z * Z) -> prog sys A) Q :
  in_sync (ctr c pnumber) (ctr c dnumber + 1) g c (db w) -> linked (ctr c pnumber) g c -> d = ctr c dnumber ->
  (forall c' w' l, synced (mk c' w') -> (forall x, live c' x <-> live c x) -> length l = length remotes ->
     NoDup (l.*2) -> Forall (fun x => ctr c rnumber <= snd x) l ->
     (forall x, patch_link c' (db w') x <-> patch_link c (db w) x \/ vlink d remotes l x) -> post (k l) Q (mk c' w')) ->
  m = Z.of_nat (length remotes) ->
  post (old ← num pnumber;
        '(rp, vlinks) ← add_near_ends d m remotes;
        _ ← set_ctr pnumber old;
        _ ← incr dnumber;
        _ ← cmd_disconnect;
        _ ← add_far_ends rp remotes;
        k vlinks) Q (mk c w).
Proof.
  intros Hs Hlk Hdd Hk ->. apply post_bind, post_num. apply post_bind. cbn [cmd].
  eapply post_mono; [by apply (add_near_ends_ok d (Z.of_nat (length remotes)) remotes); [lia|exact Hs]|].
  intros [c1 w1] [rp l] (vs & Hlen & Hs1 & Hnear & [= -> ->] & Hd). cbn [cmd net] in *. rewrite <- Hlen in *.
  apply post_bind. change (post (set_ctr pnumber (ctr c pnumber)) ?R (mk c1 w1)) with (R (mk (c_ctr pnumber (ctr c pnumber) c1) w1) tt).
  cbn beta. apply post_bind, post_incr. apply post_bind, post_disconnect. intros w2 E2. set (c2 := c_ctr dnumber _ _).
  assert (Hs2 : in_sync (ctr c1 pnumber) (ctr c dnumber + 1) (many (pair d <$> vs) g) c2 (db w2)) by (rewrite E2; by apply in_sync_ctr, in_sync_ctr).
  assert (HL1 : forall x, live c1 x <-> live c x) by (intros x; unfold live; by rewrite (nd_uuid _ _ _ _ _ Hnear)).
  apply post_bind. eapply post_mono; [apply (add_far_ends_ok vs remotes _ _ _ _ _ Hlen Hs2)|].
  - intros i v Hi. destruct (nd_v _ _ _ _ _ Hnear i v Hi) as (Hp & Hn & Hpe & Hid & Hpn). apply lookup_lt_Some in Hi as Hlt.
    change (ctr c2 rnumber) with (ctr c1 rnumber). rewrite (nd_r _ _ _ _ _ Hnear), (nd_p _ _ _ _ _ Hnear). split_and!; [done|done|..].
    + rewrite Hpe. eexists. split; [|done]. lia.
    + rewrite Hn. eexists. split; [|done]. lia.
    + intros x v' Hx%HL1 [Hv'|Hv']%elem_of_many E; rewrite Hpe in E.
      * destruct (ag_below _ _ _ _ (sy_agrees _ _ _ _ _ Hs) x v' Hx Hv') as (_ & B & _). rewrite E in B. apply not_below in B; [done|lia].
      * apply list_elem_of_fmap in Hv' as (v0 & [= -> ->] & [j Hj]%list_elem_of_lookup).
        destruct (nd_v _ _ _ _ _ Hnear j v0 Hj) as (_ & N0 & _). rewrite N0 in E. apply vport_name_inj in E. lia.
  - by eapply peers_nodup.
  - intros [c3 w3] _ (fs & Hs3 & Hm & Hports & Hlive & Hfar). cbn [cmd net] in *.
    assert (HL3 : forall x, live c3 x <-> live c x) by (intros x; rewrite <- HL1; unfold live; by rewrite (fd_tx _ _ _ Hfar)).
    assert (P3 : ctr c3 pnumber = ctr c1 pnumber).
    { rewrite (fd_p _ _ _ Hfar), (nd_p _ _ _ _ _ Hnear). by change (ctr c2 pnumber) with (ctr c pnumber). }
    assert (D3 : ctr c3 dnumber = ctr c dnumber + 1).
    { rewrite (fd_d _ _ _ Hfar). change (ctr c1 dnumber + 1 = ctr c dnumber + 1). by rewrite (nd_d _ _ _ _ _ Hnear). }
    assert (R3 : ctr c3 rnumber = ctr c rnumber + 2 * Z.of_nat (length vs)).
    { rewrite (fd_r _ _ _ Hfar). change (ctr c2 rnumber) with (ctr c1 rnumber). rewrite (nd_r _ _ _ _ _ Hnear). lia. }
    assert (Hports' : forall i f, fs !! i = Some f -> v_port f = ctr c rnumber + Z.of_nat (length vs) + Z.of_nat i).
    { intros i f Hf. rewrite (Hports i f Hf). change (ctr c2 rnumber) with (ctr c1 rnumber). by rewrite (nd_r _ _ _ _ _ Hnear). }
    assert (Hlive' : Forall (live c) remotes) by (eapply Forall_impl; [exact Hlive|]; intros y Hy; by apply HL1).
    destruct Hfar as [_ _ _ Ftx Fdi Flk], Hs3 as [Ha3 Hn3 Hf3]. destruct (near_numbers _ _ _ _ _ Hnear) as [Hnd Hge].
    apply Hk; [|done|by rewrite length_fmap|done|done|].
    + eexists. cbn [cmd net]. rewrite P3. split; [exact Ha3|]. split; [exact Hn3|]. unfold fresh. rewrite D3. split; [exact Hf3|].
      rewrite (nd_p _ _ _ _ _ Hnear) in *. by eapply (linked_new g c c1 c3 d vs fs remotes (db w) (sy_agrees _ _ _ _ _ Hs)).
    + intros x. by eapply (patch_link_new g c c1 c3 d vs fs remotes (db w) (sy_agrees _ _ _ _ _ Hs)).
Qed.

(** Ports and tunnels do not touch the links. *)
Lemma patch_link_frame n m g c c' D D' x :
  in_sync n m g c D -> in_sync n m g c' D' -> port_frame c c' -> patch_link c' D' x <-> patch_link c D x.
Proof.
  intros Hs Hs' Hf. destruct x as [[a ia] [b ib]].
  rewrite (patch_link_joined _ _ _ _ _ _ _ _ (sy_agrees _ _ _ _ _ Hs')), (patch_link_joined _ _ _ _ _ _ _ _ (sy_agrees _ _ _ _ _ Hs)).
  assert (Hj : forall v v', joined c' g a b v v' <-> joined c g a b v v').
  { intros *. apply joined_eq; [intros y; by apply port_frame_live|apply (pf_di _ _ Hf)]. }
  split; intros (v & v' & ? & ?); exists v, v'; by rewrite Hj in *.
Qed.
Lemma synced_in_sync c w :
  synced (mk c w) <-> exists g, in_sync (ctr c pnumber) (ctr c dnumber) g c (db w) /\ linked (ctr c pnumber) g c.
Proof. split; intros (g & Hs); exists g; [destruct Hs as (? & ? & ? & ?)|destruct Hs as [[] ?]]; by split. Qed.
Lemma linked_frame n g c c' : port_frame c c' -> ctr c rnumber <= ctr c' rnumber -> linked n g c -> linked n g c'.
Proof.
  intros Hf Hr Hk. eapply linked_shrink; [exact Hk|..]; intros *.
  - by rewrite (port_frame_live _ _ _ Hf).
  - done.
  - intros _. apply Hf.
  - apply Hf.
  - apply Hf.
  - done.
  - by apply Hf.
  - by rewrite (pf_lk _ _ Hf).
Qed.

Lemma create_lsi_ok cli c w :
  synced (mk c w) ->
  post (cmd_editconfig_lsi un_script_path controllerAddress local_ip certificate cli)
    (fun s' clo => synced s' /\ clo_dpid clo = ctr c dnumber /\ live (cmd s') (clo_dpid clo)
       /\ length (clo_vlinks clo) = length (cli_vlinks cli) /\ (forall x, live (cmd s') x <-> x = ctr c dnumber \/ live c x)
       /\ NoDup ((clo_vlinks clo).*2) /\ Forall (fun x => ctr c rnumber <= snd x) (clo_vlinks clo)
       /\ forall x, patch_link (cmd s') (db (net s')) x
            <-> patch_link c (db w) x \/ vlink (clo_dpid clo) (cli_vlinks cli) (clo_vlinks clo) x) (mk c w).
Proof.
  intros (g & Hs & Hk)%synced_in_sync. unfold cmd_editconfig_lsi.
  eapply (create_bridge_ok cli g); [exact Hs|exact Hk|]. intros c1 w1 [Hs1 Ed Hl Hj Hk1 Hr1]. set (d := ctr c dnumber) in *. cbn beta.
  apply post_bind. eapply post_mono; [by apply add_physical_ok|]. intros [c2 w2] physical Hp2. pose proof Hp2 as (Hs2 & _).
  apply post_bind. eapply post_mono; [by apply add_nfs_ok|]. intros [c3 w3] [nfs names] Hp3. pose proof Hp3 as (Hs3 & _).
  apply post_bind. eapply post_mono; [by apply add_endpoints_ok|]. intros [c4 w4] eps Hp4. pose proof Hp4 as (Hs4 & _).
  assert (Hf : port_frame c1 c4).
  { destruct Hp2 as (_ & F2 & _), Hp3 as (_ & F3 & _), Hp4 as (_ & F4 & _). by eapply port_frame_trans, port_frame_trans. }
  assert (Hr4 : ctr c1 rnumber <= ctr c4 rnumber).
  { destruct Hp2 as (_ & _ & R2), Hp3 as (_ & _ & R3), Hp4 as (_ & _ & R4). cbn [cmd] in *. lia. }
  assert (Hk4 : linked (ctr c1 pnumber) (<[d := []]> g) c4) by by apply (linked_frame _ _ c1).
  cbn [cmd net] in *. rewrite <- (pf_ctr _ _ Hf pnumber) in Hs4, Hk4 by done.
  assert (D4 : ctr c4 dnumber = d) by by rewrite (pf_ctr _ _ Hf) by done.
  eapply (add_links_ok d (cli_vlinks cli) _ (<[d := []]> g)); [by rewrite D4|done|done| |done].
  intros c5 w5 l Hs5 HL5 Hlen Hnd Hge Hx. apply post_ret. cbn [clo_dpid clo_vlinks cmd net]. split; [done|]. split; [done|].
  assert (HL : forall x, live c5 x <-> x = d \/ live c x) by (intros x; rewrite HL5, (port_frame_live _ _ _ Hf); apply Hl).
  split; [apply HL; by left|]. split; [done|]. split; [exact HL|].
  split; [done|]. split; [eapply Forall_impl; [exact Hge|]; intros y; cbn; lia|]. intros x. rewrite Hx. apply or_iff_compat_r.
  rewrite <- (pf_ctr _ _ Hf pnumber) in Hs1 by done. rewrite (patch_link_frame _ _ _ _ _ _ _ x Hs1 Hs4 Hf). destruct x as [[a ia] [b ib]].
  rewrite (patch_link_joined _ _ _ _ _ _ _ _ (sy_agrees _ _ _ _ _ Hs1)), (patch_link_joined _ _ _ _ _ _ _ _ (sy_agrees _ _ _ _ _ Hs)).
  split; intros (v & v' & ? & ?); exists v, v'; by rewrite Hj in *.
Qed.
End lsi.
