(* ===== verification/OvsdbDelete.v ===== *)
(** * Removal of LSIs, ports and tunnels on Open vSwitch

    The removals keep the plugin in step with the database ([OvsdbOk.synced]).
    The removal of an LSI is never undefined; it takes no link away that is not
    one of the LSI's, and it leaves the bridge in the database exactly when the
    plugin knows some LSI without UUID. *)

From Stdlib Require Import ZArith Lia String Ascii.
From stdpp Require Import gmap strings numbers base list functions propset sorting.
From S2P Require Import Prelude CString Cpp Json FlowMatch HighLevel HLGraph Lsi Vlinks VlinksOk NFManagers GraphManager Ovsdb OvsdbOk OvsdbLinks OvsdbSync OvsdbLsi.

Section removal.
Context {W : Type} `{OvsdbLaws W}.
#[local] Abbreviation sys := (sys (W := W)).
#[local] Abbreviation mk c w := ({| cmd := c; net := w |} : sys).

(** Ends of links are removed one after the other: only patch ports go, and
    only those with certain names. *)
Record pruned (names : string -> Prop) (g : Z -> list vp) (c c' : commands) (D' : DB) : Prop := {
  pn_agrees : exists g', agrees (ctr c pnumber) g' c' D' /\ named g' c' /\ (forall d v, v ∈ g' d -> v ∈ g d)
    /\ (forall d v, v ∈ g d -> ~ names (v_name v) -> v ∈ g' d);
  pn_fresh : fresh c';
  pn_tx f k : tx c' f k = tx c f k;
  pn_di f k : di c' f k = di c f k;
  pn_lk k : lk c' k = lk c k;
  pn_ctr n : n <> tid -> ctr c' n = ctr c n
}.
Lemma pruned_refl names g c D : agrees (ctr c pnumber) g c D -> named g c -> fresh c -> pruned names g c c D.
Proof. intros Ha Hn Hf. split; try done. by exists g. Qed.
Lemma pruned_same names g c c1 c2 D : same c1 c2 -> pruned names g c c1 D -> pruned names g c c2 D.
Proof.
  intros Hc [(g' & Ha & Hn & Hg) Hf Ht Hi Hk Hr]. split.
  - exists g'. split; [by eapply agrees_same|]. split; [by eapply named_same|done].
  - by eapply fresh_same.
  - intros *. by views.
  - intros *. by views.
  - intros *. by views.
  - intros *. views. auto.
Qed.
Lemma delete_end_ok names g c d i c1 w1 (Q : sys -> unit -> Prop) :
  names (tx c port_id i) -> pruned names g c c1 (db w1) ->
  (forall c2 w2, pruned names g c c2 (db w2) -> Q (mk c2 w2) tt) ->
  wp (cmd_delete_virtual_link d i) Q sme (mk c1 w1).
Proof.
  intros Hname [(g' & Ha & Hn & Hg & Hg') Hf Ht Hi Hk Hr] HQ.
  eapply prog_wp_mono; [eapply delete_virtual_link_ok; [exact Ha|exact Hn]| |done].
  intros [c2 w2] [] (Ha2 & Hn2 & K). apply HQ. cbn [cmd net] in *. split.
  - eexists. split; [exact Ha2|]. split; [done|]. rewrite Ht. split; intros d' v.
    + intros [? _]%elem_of_without. by apply Hg.
    + intros Hv Hne. apply elem_of_without. split; [by apply Hg'|]. intros _ E. apply Hne. by rewrite E.
  - by eapply kept_fresh.
  - intros *. by rewrite (ke_tx _ _ _ K).
  - intros *. by rewrite (ke_di _ _ _ K).
  - intros *. by rewrite (ke_lk _ _ _ K).
  - intros *. intros ?. by rewrite (ke_ctr _ _ _ K), Hr.
Qed.
(** The names of the ends of the links [l]. *)
Definition end_names (c : commands) (l : list Z) (name : string) : Prop :=
  exists i, i ∈ l /\ (name = tx c port_id i \/ name = tx c port_id (di c vl_LocalPortIDtoRemotePortID i)).
Lemma delete_ends_ok g c all links w1 c1 (Q : sys -> unit -> Prop) :
  (forall i, i ∈ links -> i ∈ all) -> pruned (end_names c all) g c c1 (db w1) ->
  (forall c2 w2, pruned (end_names c all) g c c2 (db w2) -> Q (mk c2 w2) tt) ->
  wp (for_each (fun i =>
    a ← id_at vl_PortIDtoSwitchID i;
    _ ← cmd_delete_virtual_link a i;
    j ← id_at vl_LocalPortIDtoRemotePortID i;
    b ← id_at vl_PortIDtoSwitchID j;
    cmd_delete_virtual_link b j) links) Q sme (mk c1 w1).
Proof.
  intros Hin Hp HQ. revert c1 w1 Hp. induction links as [|i links IH]; intros c1 w1 Hp; cbn [for_each]; [by apply prog_wp_ret, HQ|].
  assert (Hi : i ∈ all) by (apply Hin; by left).
  apply prog_wp_bind, prog_wp_bind, wp_id_at. intros c2 H2. apply prog_wp_bind.
  eapply (delete_end_ok (end_names c all)); [exists i; eauto|by eapply pruned_same|]. intros c3 w3 Hp3. apply prog_wp_bind, wp_id_at. intros c4 H4.
  rewrite (pn_di _ _ _ _ _ Hp3). apply prog_wp_bind, wp_id_at. intros c5 H5.
  eapply (delete_end_ok (end_names c all)); [exists i; eauto|eapply pruned_same; [exact H5|]; by eapply pruned_same|].
  intros c6 w6 Hp6. apply IH; [|done]. intros j Hj. apply Hin. by right.
Qed.

(** An LSI is forgotten, and its bridge may go. *)
Lemma agrees_forget n g c c' D D' :
  agrees n g c D ->
  (forall x, live c' x -> live c x) -> (forall x, live c' x -> tx c' switch_uuid x = tx c switch_uuid x) ->
  ctr c' rnumber = ctr c rnumber -> (forall i, di c' vl_LocalPortIDtoRemotePortID i = di c vl_LocalPortIDtoRemotePortID i) ->
  (forall f x, live c' x -> ls c' f x = ls c f x) ->
  (forall x, live c' x -> db_bridges D' !! tx c switch_uuid x = db_bridges D !! tx c switch_uuid x) -> ports_stay D D' ->
  agrees n g c' D'.
Proof.
  intros Ha HL Ht Hr Hi Hl Hb Hs.
  assert (HB : forall x, live c' x -> db_bridges D' !! tx c switch_uuid x = Some (list_to_set (known c x))).
  { intros x Hx. rewrite Hb by done. by apply (ag_bridge _ _ _ _ Ha), HL. }
  split; intros *; rewrite ?Hr, ?Hi.
  - intros Hx. rewrite Ht by done. unfold known. rewrite !Hl by done. by apply HB.
  - intros Hx E. assert (Hx' : live c' d') by (unfold live in *; by rewrite <- E).
    rewrite !Ht in E by done. apply (ag_inj _ _ _ _ Ha); auto.
  - intros Hx. rewrite Hl by done. by apply (ag_uuids _ _ _ _ Ha), HL.
  - intros Hx Hv. eapply Hs; [by apply (HB d)| |by apply (ag_rows _ _ _ _ Ha d); [apply HL|]].
    apply elem_of_list_to_set. eapply uuid_known; [exact Ha|by apply HL|done].
  - intros Hx Hu. rewrite !Hl in Hu by done. destruct (ag_others _ _ _ _ Ha d u (HL _ Hx) Hu) as (r & ? & ?). exists r. split; [|done].
    eapply Hs; [by apply (HB d)| |done]. apply elem_of_list_to_set. unfold known. rewrite !elem_of_app in *. tauto.
  - intros Hx Hy. apply (ag_unique _ _ _ _ Ha); auto.
  - intros Hx. apply (ag_nodup _ _ _ _ Ha); auto.
  - apply (ag_pos _ _ _ _ Ha).
  - intros Hx. apply (ag_below _ _ _ _ Ha d); auto.
  - apply (ag_l2r _ _ _ _ Ha).
  - apply (ag_order _ _ _ _ Ha).
Qed.
Lemma elem_of_by_dpid m u : u ∈ by_dpid m <-> exists k, m !! k = Some u.
Proof.
  unfold by_dpid. rewrite list_elem_of_fmap. split.
  - intros ([k v] & -> & Hin). rewrite merge_sort_Permutation in Hin. exists k. by apply elem_of_map_to_list.
  - intros [k Hk]. exists (k, u). split; [done|]. rewrite merge_sort_Permutation. by apply elem_of_map_to_list.
Qed.
(** The UUIDs that are given to the server. *)
Definition all_known (m : gmap Z string) : Prop := map_Forall (fun _ u => u <> EmptyString) m.

(** All bridges are those of LSIs of the plugin. *)
Definition only_ours (c : commands) (D : DB) : Prop :=
  forall b, b ∈ dom (db_bridges D) -> exists e, live c e /\ tx c switch_uuid e = b.

(** The last transaction, when everything but the UUID of [d] is forgotten. *)
Lemma forget_bridge_ok d n g c c' c0 D w w' v id :
  agrees n g c D -> named g c -> db w = D ->
  (forall x, ~ live c x -> ls c vport_l x = []) ->
  settled (c_list vport_uuid d [] (c_list port_uuid d [] (c_list vport_l d [] (c_list port_l d [] c)))) c0 ->
  c' = with_texts switch_uuid (delete d (texts c0 switch_uuid)) c0 ->
  exchanged (transaction id [update_bridges (by_dpid (delete d (texts c0 switch_uuid))); next_cfg]) w w' v ->
  agrees n g c' (db w') /\ named g c' /\ ~ live c' d /\ (forall x, x <> d -> tx c' switch_uuid x = tx c switch_uuid x)
  /\ (live c d -> tx c switch_uuid d ∈ dom (db_bridges (db w')) <-> ~ all_known (texts c' switch_uuid))
  /\ (all_known (texts c' switch_uuid) -> only_ours c' (db w')).
Proof.
  intros Ha Hn <- Hdead Hc -> Hv. set (m := delete d (texts c0 switch_uuid)) in *. set (c' := with_texts switch_uuid m c0).
  assert (Ht : forall x, tx c' switch_uuid x = if decide (x = d) then EmptyString else tx c switch_uuid x).
  { intros x. unfold tx at 1. cbn. rewrite fn_lookup_insert. unfold m. case_decide as E; [subst; by rewrite lookup_delete_eq|].
    rewrite lookup_delete_ne by done. change (tx c0 switch_uuid x = tx c switch_uuid x). by rewrite (se_tx _ _ Hc). }
  assert (HL : forall x, live c' x <-> x <> d /\ live c x) by (intros x; unfold live; rewrite Ht; case_decide; naive_solver).
  assert (Hraw : forall k u, m !! k = Some u -> tx c' switch_uuid k = u).
  { intros k u E. unfold tx. cbn. by rewrite fn_lookup_insert, E. }
  assert (Hm : forall x, live c' x -> tx c switch_uuid x ∈ by_dpid m).
  { intros x Hx. apply elem_of_by_dpid. exists x. destruct (m !! x) as [u|] eqn:E.
    - f_equal. rewrite <- (Hraw _ _ E), Ht, decide_False; [done|]. by apply HL.
    - exfalso. apply Hx. unfold tx. cbn. by rewrite fn_lookup_insert, E. }
  assert (Hall : Forall (.∈ dom (db_bridges (db w))) (by_dpid m) <-> all_known m).
  { rewrite Forall_forall. split.
    - intros HF k u E ->. specialize (HF EmptyString ltac:(apply elem_of_by_dpid; eauto)). by rewrite elem_of_dom, law_uuid in HF; destruct HF.
    - intros HA u (k & E)%elem_of_by_dpid. pose proof (Hraw _ _ E) as <-. apply HA in E. apply HL in E as [Hk Lk].
      rewrite Ht, decide_False by done. apply elem_of_dom. rewrite (ag_bridge _ _ _ _ Ha) by done. by eexists. }
  apply law_bridges in Hv as [Hstay Hb].
  assert (HB : forall x, live c' x -> db_bridges (db w') !! tx c switch_uuid x = db_bridges (db w) !! tx c switch_uuid x).
  { intros x Hx. case_decide; rewrite Hb; [|done]. apply HL in Hx as Lx.
    rewrite (ag_bridge _ _ _ _ Ha x (proj2 Lx)). apply map_lookup_filter_Some_2; [apply (ag_bridge _ _ _ _ Ha), Lx|]. by apply Hm. }
  assert (Hd : ~ live c' d) by (rewrite HL; tauto).
  assert (Hls : forall f x, x <> d -> ls c' f x = ls c f x).
  { intros f x Hx. change (ls c' f x) with (ls c0 f x). rewrite (se_ls _ _ Hc). views. by rewrite !decide_False by naive_solver. }
  split_and!.
  - eapply agrees_forget; [exact Ha|..|exact HB|done].
    + intros x Hx. by apply HL.
    + intros x [Hx _]%HL. by rewrite Ht, decide_False.
    + apply (se_ctr _ _ Hc rnumber).
    + apply (se_l2r _ _ Hc).
    + intros f x [Hx _]%HL. by apply Hls.
  - split; intros x.
    + intros [Hx Lx]%HL. rewrite Hls by done. by apply (na_names _ _ Hn).
    + intros y [Hx Lx]%HL Hy. change (tx c0 port_id (v_port y) = v_name y). rewrite (se_tx _ _ Hc). by apply (na_ids _ _ Hn x).
    + intros Hx. destruct (decide (x = d)) as [->|Hne].
      * change (ls c0 vport_l d = []). rewrite (se_ls _ _ Hc). views. by rewrite decide_False, decide_False, decide_True by naive_solver.
      * rewrite Hls by done. apply Hdead. intros Lx. apply Hx, HL. done.
  - done.
  - intros x Hx. by rewrite Ht, decide_False.
  - intros Ld. change (texts c' switch_uuid) with (<[switch_uuid := m]> (texts c0) switch_uuid). rewrite fn_lookup_insert, <- Hall.
    case_decide as HF; rewrite Hb; [split; [|done]|split; [done|]].
    + intros (u & [_ Hin]%map_lookup_filter_Some)%elem_of_dom. cbn in Hin. apply elem_of_by_dpid in Hin as (k & E).
      pose proof (Hraw _ _ E) as Ek. rewrite Ht in Ek. case_decide; [subst; by destruct Ld|].
      symmetry in Ek. by apply (ag_inj _ _ _ _ Ha) in Ek.
    + intros _. apply elem_of_dom. rewrite (ag_bridge _ _ _ _ Ha) by done. by eexists.
  - change (texts c' switch_uuid) with (<[switch_uuid := m]> (texts c0) switch_uuid). rewrite fn_lookup_insert.
    intros HA b. rewrite decide_True in Hb by by apply Hall. rewrite Hb. intros (u & [_ Hin]%map_lookup_filter_Some)%elem_of_dom. cbn in Hin.
    apply elem_of_by_dpid in Hin as (k & E). exists k. pose proof (Hraw _ _ E) as <-. split; [|done]. by apply (HA k).
Qed.

Lemma fresh_forget d c c' :
  fresh c -> ctr c' dnumber = ctr c dnumber ->
  (forall x, x <> d -> tx c' switch_uuid x = tx c switch_uuid x) -> tx c' switch_uuid d = EmptyString ->
  (forall f x, ls c f x = [] -> ls c' f x = []) -> fresh c'.
Proof.
  intros Hf Hc Ht Hd Hl x. rewrite Hc. intros Hx. destruct (Hf x Hx) as [E Hls].
  split; [destruct (decide (x = d)) as [->|]; [done|by rewrite Ht]|]. intros f. by apply Hl.
Qed.
(** What goes with an LSI. *)
Definition touches (d : Z) (x : Z * Z * (Z * Z)) : Prop := let '(a, _, (b, _)) := x in a = d \/ b = d.
Record deleted (d : Z) (c : commands) (D : DB) (c' : commands) (D' : DB) : Prop := {
  de_gone : ~ live c' d;
  de_live x : x <> d -> live c' x <-> live c x;
  de_links x : live c d -> patch_link c' D' x <-> patch_link c D x /\ ~ touches d x;
  de_sub x : patch_link c' D' x -> patch_link c D x /\ ~ touches d x;
  de_bridge : live c d -> tx c switch_uuid d ∈ dom (db_bridges D') <-> ~ all_known (texts c' switch_uuid);
  de_others : all_known (texts c' switch_uuid) -> only_ours c' D'
}.
Lemma mate_inj x y z : mate x y -> mate z y -> x = z.
Proof.
  intros [k [[-> ->]|[-> ->]]] [l [[-> E]|[-> E]]]; apply vport_name_inj in E; f_equal; lia.
Qed.
Lemma mate_sym x y : mate x y -> mate y x.
Proof. intros [k [[-> ->]|[-> ->]]]; exists k; auto. Qed.
(** The ends of other links are not among those of the links of [d]. *)
Lemma others_stay n g c d a b va vb :
  linked n g c -> live c d -> joined c g a b va vb -> a <> d -> b <> d ->
  ~ end_names c (lk c (tx c switch_id d)) (v_name va) /\ ~ end_names c (lk c (tx c switch_id d)) (v_name vb).
Proof.
  intros Hk Ld ((La & Va) & (Lb & Vb) & E1 & E2 & _) Na Nb. rewrite (li_switch _ _ _ Hk d Ld).
  pose proof (li_mate _ _ _ Hk a va La Va) as Ma. pose proof (li_mate _ _ _ Hk b vb Lb Vb) as Mb.
  split; intros (i & Hi & [E|E]); destruct (li_ids _ _ _ Hk d i Ld Hi) as (_ & _ & _ & M & Hu).
  - by apply Na, (Hu a va).
  - rewrite <- E in M. apply Nb, (Hu b vb); try done. rewrite <- E1. by eapply mate_inj; [apply mate_sym|].
  - by apply Nb, (Hu b vb).
  - rewrite <- E in M. apply Na, (Hu a va); try done. rewrite <- E2. by eapply mate_inj; [apply mate_sym|].
Qed.
Lemma deleted_links n g g' c c' d D D' x :
  agrees n g c D -> agrees n g' c' D' -> linked n g c -> ~ live c' d -> (forall y, y <> d -> live c' y <-> live c y) ->
  (forall y v, v ∈ g' y -> v ∈ g y) ->
  (forall y v, v ∈ g y -> ~ end_names c (lk c (tx c switch_id d)) (v_name v) -> v ∈ g' y) ->
  (forall i, di c' vl_LocalPortIDtoRemotePortID i = di c vl_LocalPortIDtoRemotePortID i) ->
  (patch_link c' D' x -> patch_link c D x /\ ~ touches d x)
  /\ (live c d -> patch_link c D x -> ~ touches d x -> patch_link c' D' x).
Proof.
  intros Ha Ha' Hk Hd HL Hg Hg' Hi. destruct x as [[a ia] [b ib]]. unfold touches.
  rewrite (patch_link_joined _ _ _ _ _ _ _ _ Ha'), (patch_link_joined _ _ _ _ _ _ _ _ Ha). split.
  - intros (va & vb & ((La & Va) & (Lb & Vb) & E1 & E2 & El) & <- & <-).
    assert (Na : a <> d) by by intros ->. assert (Nb : b <> d) by by intros ->. rewrite Hi in El. split; [|tauto].
    exists va, vb. split; [|done]. split_and!; try done; [by apply HL|by apply Hg|by apply HL|by apply Hg].
  - intros Ld (va & vb & Hj & <- & <-) Hn. assert (Na : a <> d) by tauto. assert (Nb : b <> d) by tauto. exists va, vb. split; [|done].
    destruct (others_stay n g c d a b va vb) as [Oa Ob]; [done..|]. destruct Hj as ((La & Va) & (Lb & Vb) & E1 & E2 & El).
    rewrite <- Hi in El. split_and!; try done; [by apply HL|by apply Hg'|by apply HL|by apply Hg'].
Qed.
(** All is forgotten. *)
Lemma forgotten_ok d g g1 c c1 c6 c7 w w' k :
  agrees (ctr c pnumber) g c (db w) -> linked (ctr c pnumber) g c ->
  (forall y v, v ∈ g1 y -> v ∈ g y) ->
  (forall y v, v ∈ g y -> ~ end_names c (lk c (tx c switch_id d)) (v_name v) -> v ∈ g1 y) ->
  fresh c1 -> (forall f x, tx c1 f x = tx c f x) -> (forall f x, di c1 f x = di c f x) -> (forall x, lk c1 x = lk c x) ->
  (forall n, n <> tid -> ctr c1 n = ctr c n) ->
  settled (c_list vport_uuid d [] (c_list port_uuid d [] (c_list vport_l d [] (c_list port_l d [] c1)))) c6 ->
  c7 = with_texts switch_uuid (delete d (texts c6 switch_uuid)) c6 ->
  agrees (ctr c pnumber) g1 c7 (db w') -> named g1 c7 -> ~ live c7 d ->
  (forall x, x <> d -> tx c7 switch_uuid x = tx c1 switch_uuid x) ->
  (live c1 d -> tx c1 switch_uuid d ∈ dom (db_bridges (db w')) <-> ~ all_known (texts c7 switch_uuid)) ->
  (all_known (texts c7 switch_uuid) -> only_ours c7 (db w')) ->
  synced (mk (c_ctr tid k c7) w') /\ deleted d c (db w) (c_ctr tid k c7) (db w').
Proof.
  intros Ha Hk Hg Hg' Hf1 Ht1 Hi1 Hk1 Hr1 H6 E7 Ha7 Hn7 Hd7 Hx7 Hb7 Hb8.
  assert (HL : forall x, x <> d -> live c7 x <-> live c x) by (intros x Hx; unfold live; by rewrite Hx7, Ht1).
  assert (Hr : forall n, n <> tid -> ctr c7 n = ctr c n).
  { intros n Hn. subst c7. change (ctr c6 n = ctr c n). rewrite (se_ctr _ _ H6). by apply Hr1. }
  assert (Hi : forall i, di c7 vl_LocalPortIDtoRemotePortID i = di c vl_LocalPortIDtoRemotePortID i).
  { intros i. subst c7. change (di c6 vl_LocalPortIDtoRemotePortID i = di c vl_LocalPortIDtoRemotePortID i). by rewrite (se_l2r _ _ H6), <- Hi1. }
  assert (HL' : forall x, live c7 x -> live c x) by (intros x Hx; apply HL; [by intros ->|done]).
  assert (Ht : forall f x, f <> switch_uuid -> tx c7 f x = tx c f x).
  { intros f x Hne. subst c7. unfold tx at 1. cbn. rewrite fn_lookup_insert_ne by done. rewrite <- Ht1. apply (se_tx _ _ H6). }
  assert (Hlinks := fun x => deleted_links _ g g1 c c7 d _ _ x Ha Ha7 Hk Hd7 HL Hg Hg' Hi).
  split; [exists g1; cbn [cmd net]; rewrite ctr_put, decide_False, Hr by done; split_and!|split].
  - by apply agrees_ctr.
  - by apply named_ctr.
  - eapply (fresh_forget d c1); [done| |done|by apply dec_stable|].
    + change (ctr c7 dnumber = ctr c1 dnumber). by rewrite Hr, Hr1.
    + intros f x E. subst c7. change (ls c6 f x = []). rewrite (se_ls _ _ H6). views. repeat case_decide; destruct_and?; subst; done.
  - eapply linked_shrink; [exact Hk|exact HL'| | | |exact Hi| | |].
    + intros y v _. apply Hg.
    + intros y _. by apply Ht.
    + intros i. by apply Ht.
    + change (ctr c rnumber <= ctr c7 rnumber). by rewrite Hr.
    + change (ctr c7 dnumber = ctr c dnumber). by apply Hr.
    + intros x i Hx. change (i ∈ lk c7 x) in Hx. rewrite E7 in Hx. change (i ∈ lk c6 x) in Hx. apply (se_lk _ _ H6) in Hx. by rewrite <- Hk1.
  - done.
  - done.
  - intros x Ld. split; [apply Hlinks|]. intros [? ?]. by apply Hlinks.
  - apply Hlinks.
  - intros Ld. rewrite <- Ht1. apply Hb7. unfold live in *. by rewrite Ht1.
  - exact Hb8.
Qed.
Lemma delete_lsi_ok d c w :
  synced (mk c w) ->
  wp (cmd_editconfig_lsi_delete d) (fun s' _ => synced s' /\ deleted d c (db w) (cmd s') (db (net s'))) sme (mk c w).
Proof.
  intros (g & Ha & Hn & Hf & Hk). cbn [cmd net] in *. unfold cmd_editconfig_lsi_delete.
  apply prog_wp_bind, wp_text_at. intros c1 H1. apply prog_wp_bind, wp_links_at. intros c2 H2. apply prog_wp_bind. views.
  apply (delete_ends_ok g c (lk c (tx c switch_id d))); [done|eapply pruned_same; [exact H2|]; eapply pruned_same; [exact H1|]; by apply pruned_refl|].
  clear c1 H1 c2 H2. intros c1 w1 [(g1 & Ha1 & Hn1 & Hg & Hg') Hf1 Ht1 Hi1 Hk1 Hr1].
  apply prog_wp_bind, wp_forget_list. intros c2 H2. apply prog_wp_bind, wp_forget_list. intros c3 H3.
  apply prog_wp_bind, wp_forget_list. intros c4 H4. apply prog_wp_bind, wp_forget_list. intros c5 H5.
  apply prog_wp_bind, wp_put_links. apply prog_wp_bind, wp_connect. intros w2 E2. apply prog_wp_bind, wp_rd. apply prog_wp_bind.
  set (c6 := c_links _ _ c5). change (wp (set_texts ?f ?m) ?Q ?E (mk c6 w2)) with (Q (mk (with_texts f m c6) w2) tt). cbn beta. cbn [cmd].
  set (c7 := with_texts switch_uuid _ c6). apply prog_wp_bind, wp_num. apply prog_wp_bind, wp_exchange. intros w3 v Hv.
  apply prog_wp_bind, wp_incr. apply wp_disconnect. intros w4 E4. cbn [cmd net].
  assert (H6 : settled (c_list vport_uuid d [] (c_list port_uuid d [] (c_list vport_l d [] (c_list port_l d [] c1)))) c6).
  { subst c6. split; intros *; views; repeat case_decide; destruct_and?; subst; done || (by intros []%elem_of_nil) || naive_solver. }
  rewrite <- E2 in Ha1. destruct (forget_bridge_ok d _ g1 c1 c7 c6 _ w2 w3 v _ Ha1 Hn1 eq_refl (na_dead _ _ Hn1) H6 eq_refl Hv)
    as (Ha7 & Hn7 & Hd7 & Hx7 & Hb7 & Hb8). rewrite <- E4 in Ha7, Hb7, Hb8. by eapply (forgotten_ok d g g1 c c1 c6 c7).
Qed.

(** ** Ports and tunnels *)

(** Ports that are no patch ports leave the lists of [d]. *)
Record fewer (d : Z) (c c' : commands) : Prop := {
  fe_ctr k : k <> tid -> ctr c' k = ctr c k;
  fe_tx f k : tx c' f k = tx c f k;
  fe_di f k : di c' f k = di c f k;
  fe_vp f x : f ∈ [vport_uuid; vport_l] -> ls c' f x = ls c f x;
  fe_ls f x : x <> d -> ls c' f x = ls c f x;
  fe_sub f u : f ∈ [port_uuid; gport_uuid] -> u ∈ ls c' f d -> u ∈ ls c f d;
  fe_nil f x : ls c f x = [] -> ls c' f x = [];
  fe_lk k : lk c' k = lk c k
}.
Lemma fewer_refl d c : fewer d c c.
Proof. done. Qed.
Lemma fewer_trans d c1 c2 c3 : fewer d c1 c2 -> fewer d c2 c3 -> fewer d c1 c3.
Proof.
  intros [A1 B1 C1 D1 E1 F1 G1 H1] [A2 B2 C2 D2 E2 F2 G2 H2]. split; intros *; rewrite ?B2, ?C2, ?H2; auto.
  - intros ?. rewrite A2; auto.
  - intros ?. rewrite D2; auto.
  - intros ?. rewrite E2; auto.
Qed.
Lemma fewer_same d c c' : same c c' -> fewer d c c'.
Proof. intros Hc. split; intros *; by views. Qed.
Lemma fewer_list d f l c c' :
  same (c_list f d l c) c' -> f ∉ [vport_uuid; vport_l] -> (forall u, u ∈ l -> u ∈ ls c f d) -> fewer d c c'.
Proof.
  intros Hc Hf Hl. split; intros *; views; try done.
  - intros Hin. rewrite decide_False; [done|]. intros [-> _]. done.
  - intros Hx. by rewrite decide_False by naive_solver.
  - case_decide as E; [|done]. destruct E as [-> _]. auto.
  - case_decide as E; [|done]. destruct E as [-> ->]. intros E. destruct l as [|y l]; [done|].
    specialize (Hl y ltac:(by left)). rewrite E in Hl. by apply elem_of_nil in Hl.
Qed.
Lemma post_remove f d x (Q : sys -> unit -> Prop) c w :
  f ∉ [vport_uuid; vport_l] -> (forall c', fewer d c c' -> Q (mk c' w) tt) -> post (remove f d x) Q (mk c w).
Proof.
  intros Hf HQ. eapply wp_post, (wp_remove _ _ _ _ sme). intros c' Hc. apply HQ. eapply fewer_list; [exact Hc|done|].
  intros u [_ ?]%list_elem_of_filter. done.
Qed.
Lemma post_list_at f k (Q : sys -> list string -> Prop) c w :
  (forall c', same c c' -> Q (mk c' w) (ls c f k)) -> post (list_at f k) Q (mk c w).
Proof. intros HQ. by eapply wp_post, (wp_list_at _ _ _ sme). Qed.
Lemma post_text_at f k (Q : sys -> string -> Prop) c w :
  (forall c', same c c' -> Q (mk c' w) (tx c f k)) -> post (text_at f k) Q (mk c w).
Proof. intros HQ. by eapply wp_post, (wp_text_at _ _ _ sme). Qed.

Lemma known_fewer d c c' u : fewer d c c' -> u ∈ known c' d -> u ∈ known c d.
Proof.
  intros Hw. unfold known. rewrite !elem_of_app, (fe_vp _ _ _ Hw vport_uuid) by set_solver.
  intros [?|[?|?]]; [left|right; left|right; right]; try done; eapply (fe_sub _ _ _ Hw); done || set_solver.
Qed.
(** The bridge is given the ports that are left. *)
Lemma agrees_fewer d n g c c' D D' :
  agrees n g c D -> fewer d c c' ->
  (forall x, live c x -> db_bridges D' !! tx c switch_uuid x = Some (list_to_set (known c' x))) -> ports_stay D D' -> agrees n g c' D'.
Proof.
  intros Ha Hw Hb Hs. eapply agrees_shrink; [exact Ha|..|exact Hb|exact Hs].
  - intros. apply Hw.
  - by apply Hw.
  - intros. apply Hw.
  - intros x Hx. rewrite (fe_vp _ _ _ Hw) by set_solver. by apply (ag_uuids _ _ _ _ Ha).
  - done.
  - intros x u _. destruct (decide (x = d)) as [->|]; [|by rewrite !(fe_ls _ _ _ Hw)].
    rewrite !elem_of_app. intros [?|?]; [left|right]; eapply (fe_sub _ _ _ Hw); done || set_solver.
Qed.
Lemma restrict_bridges d n g c c1 c2 w w2 :
  agrees n g c (db w) -> fewer d c c2 -> known c1 d = known c2 d ->
  match db_bridges (db w) !! tx c switch_uuid d with
  | None => db w2 = db w
  | Some ps => list_to_set (known c1 d) ⊆ ps ->
      db_bridges (db w2) = <[tx c switch_uuid d := list_to_set (known c1 d)]> (db_bridges (db w)) /\ ports_stay (db w) (db w2)
  end ->
  (forall x, live c x -> db_bridges (db w2) !! tx c switch_uuid x = Some (list_to_set (known c2 x))) /\ ports_stay (db w) (db w2).
Proof.
  intros Ha Hw -> Hdb. assert (Hne : forall x, x <> d -> known c2 x = known c x).
  { intros x Hx. unfold known. by rewrite !(fe_ls _ _ _ Hw). }
  destruct (decide (live c d)) as [Ld|Ld].
  - rewrite (ag_bridge _ _ _ _ Ha d Ld) in Hdb. destruct Hdb as [Hb Hs].
    { intros u. rewrite !elem_of_list_to_set. by apply known_fewer. }
    split; [|done]. intros x Lx. rewrite Hb. destruct (decide (x = d)) as [->|Hx]; [by rewrite lookup_insert_eq|].
    rewrite lookup_insert_ne, Hne; [by apply (ag_bridge _ _ _ _ Ha)|done|]. intros E. apply Hx. symmetry. by apply (ag_inj _ _ _ _ Ha).
  - apply dec_stable in Ld. rewrite Ld, law_uuid in Hdb. rewrite Hdb. split; [|by intros ????].
    intros x Lx. rewrite Hne; [by apply (ag_bridge _ _ _ _ Ha)|]. intros ->. done.
Qed.
Lemma restrict_fewer_ok d c c1 w0 w :
  synced (mk c w0) -> db w = db w0 -> fewer d c c1 ->
  post (restrict_ports (tx c switch_uuid d) d)
    (fun s' _ => calm c w s') (mk c1 w).
Proof.
  intros (g & Ha & Hn & Hf & Hk) E Hw. cbn [cmd net] in *. rewrite <- E in Ha.
  eapply wp_post, wp_restrict_ports; [by rewrite (fe_tx _ _ _ Hw)|]. intros c2 w2 H2 Hdb. rewrite (fe_tx _ _ _ Hw) in Hdb.
  assert (Hw2 : fewer d c c2).
  { eapply fewer_trans; [exact Hw|]. split; intros *; views; try done. intros. by rewrite decide_False. }
  destruct (restrict_bridges d _ g c c1 c2 w w2 Ha Hw2) as [Hb Hs]; [unfold known; by views|done|].
  pose proof (agrees_fewer _ _ _ _ _ _ _ Ha Hw2 Hb Hs) as Ha2. cbn [cmd net].
  assert (HL : forall x, live c2 x <-> live c x) by (intros x; unfold live; by rewrite (fe_tx _ _ _ Hw2)).
  split; [exists g; cbn [cmd net]; split_and!|split; [exact HL|]].
  - by rewrite (fe_ctr _ _ _ Hw2).
  - destruct Hn as [N1 N2 N3]. split; intros *; rewrite HL; rewrite ?(fe_vp _ _ _ Hw2), ?(fe_tx _ _ _ Hw2) by set_solver; eauto.
  - intros x. rewrite (fe_ctr _ _ _ Hw2), (fe_tx _ _ _ Hw2) by done. intros Hx. destruct (Hf x Hx) as [? Hls]. split; [done|].
    intros f. by apply (fe_nil _ _ _ Hw2).
  - rewrite (fe_ctr _ _ _ Hw2) by done. eapply linked_shrink; [exact Hk|..]; intros *; rewrite ?HL, ?(fe_tx _ _ _ Hw2), ?(fe_di _ _ _ Hw2), ?(fe_lk _ _ _ Hw2), ?(fe_ctr _ _ _ Hw2) by done; done || lia.
  - intros x. split; (eapply patch_link_sub; [eassumption..| |intros i; by rewrite (fe_di _ _ _ Hw2)]); intros y v; by rewrite HL.
Qed.

Lemma delete_nf_ports_ok d ports c w :
  synced (mk c w) ->
  post (cmd_editconfig_NFPorts_delete d ports)
    (fun s' _ => calm c w s') (mk c w).
Proof.
  intros Hs. unfold cmd_editconfig_NFPorts_delete. apply post_bind, post_connect. intros w1 E1. case_bool_decide.
  { apply post_ret. split; cbn [cmd net]; rewrite ?E1; [|done]. destruct Hs as (g & Hs). exists g. cbn [cmd net] in *. by rewrite E1. }
  apply post_bind, post_rd. apply post_bind, post_text_at. intros c1 H1. apply post_bind.
  set (I (s' : sys) := exists c', s' = mk c' w1 /\ fewer d c c').
  eapply (post_mono _ (fun s' _ => I s')).
  - apply (post_for_each _ (fun _ => I)).
    + exists c1. split; [done|by apply fewer_same].
    + intros l1 p l2 s' _ (c2 & -> & F2). apply post_bind, post_list_at. intros c3 H3. apply post_bind, post_list_at. intros c4 H4.
      assert (F4 : fewer d c c4) by (eapply fewer_trans; [exact F2|]; by apply fewer_same; rewrite H3).
      apply post_bind, post_of_out. intros [u|] _; [|by apply post_ret; exists c4].
      apply post_bind, post_remove; [set_solver|]. intros c5 F5. apply post_remove; [set_solver|]. intros c6 F6.
      exists c6. split; [done|]. by eapply fewer_trans; [eapply fewer_trans|].
  - intros s' [] (c2 & -> & F2). unfold calm. rewrite <- E1. by eapply restrict_fewer_ok.
Qed.
Lemma erase_first_sub {A} (f : A -> bool) l u : u ∈ default l (erase_first f l) -> u ∈ l.
Proof.
  destruct (erase_first f l) as [l'|] eqn:E; cbn; [|done]. apply erase_first_Some in E as (l1 & x & l2 & -> & -> & _). set_solver.
Qed.
Lemma delete_endpoint_ok d ep c w :
  synced (mk c w) ->
  post (cmd_editconfig_endpoint_delete d ep)
    (fun s' _ => calm c w s') (mk c w).
Proof.
  intros Hs. unfold cmd_editconfig_endpoint_delete. apply post_bind, post_connect. intros w1 E1. case_bool_decide.
  { apply post_ret. split; cbn [cmd net]; rewrite ?E1; [|done]. destruct Hs as (g & Hs). exists g. cbn [cmd net] in *. by rewrite E1. }
  apply post_bind, post_text_at. intros c1 H1. apply post_bind, post_list_at. intros c2 H2. apply post_bind, post_list_at. intros c3 H3.
  apply post_bind, post_of_out. intros u _. assert (F3 : fewer d c c3) by (apply fewer_same; by rewrite H1, H2). apply post_bind.
  destruct u as [u|]; [|apply post_ret; unfold calm; rewrite <- E1; by eapply restrict_fewer_ok].
  apply post_bind, (wp_post _ _ sme), wp_remove. intros c4 H4.
  assert (F4 : fewer d c3 c4) by (eapply fewer_list; [exact H4|set_solver|]; intros ? [_ ?]%list_elem_of_filter; done).
  apply (wp_post _ _ sme), wp_put_list. unfold calm. rewrite <- E1. eapply restrict_fewer_ok; [exact Hs|done|].
  eapply fewer_trans; [exact F3|]. eapply fewer_trans; [exact F4|]. eapply fewer_list; [reflexivity|set_solver|].
  intros x Hx%erase_first_sub. revert Hx. views. by rewrite decide_False by naive_solver.
Qed.
End removal.
