(* ===== verification/OvsdbRuns.v ===== *)
(** * The switch the OVSDB plugin implements

    The calls of the switch manager, what they promise about LSIs and virtual
    links ([net_step]), and the proof that the plugin, together with the
    database, keeps the promise in any sequence of calls that return. *)

From Stdlib Require Import ZArith Lia String Ascii.
From stdpp Require Import gmap strings numbers base list functions propset sorting.
From S2P Require Import Prelude CString Cpp Json FlowMatch HighLevel HLGraph Lsi Vlinks VlinksOk NFManagers GraphManager Ovsdb OvsdbOk OvsdbLinks OvsdbSync OvsdbLsi OvsdbDelete.

(** ** What a switch promises *)

(** A link: an LSI and a port number, and the same for the other end. *)
Definition link : Type := Z * Z * (Z * Z).
Inductive call :=
  | CreateLsi (cli : CreateLsiIn)
  | DestroyLsi (dpid : Z)
  | AddLink (dpidA dpidB : Z)
  | DestroyLink (dpidA idA dpidB idB : Z)
  | AddPorts (dpid : Z) (nf : string) (ports : list nf_port_info)
  | DestroyPorts (dpid : Z) (ports : gset string)
  | AddTunnel (dpid : Z) (id : string) (params : list string)
  | DestroyTunnel (dpid : Z) (id : string).
Inductive reply :=
  | Created (clo : CreateLsiOut)
  | NewLink (idA idB : Z)
  | Done.

(** The LSIs and the links of a switch. *)
Record net_state := { lsis : propset Z; links : propset link }.

(** A new LSI has a link to each of the LSIs asked for; a new link has numbers
    that no link of its LSIs has; with an LSI go its links; nothing else changes
    the links.  When something that does not exist is destroyed, links may go but
    none appears. *)
Definition unused (d i : Z) (L : propset link) : Prop :=
  (forall y, (d, i, y) ∉ L) /\ (forall y, (y, (d, i)) ∉ L).
Inductive net_step (N : net_state) : call -> reply -> net_state -> Prop :=
  | step_create cli clo N' :
      clo_dpid clo ∉ lsis N -> lsis N' ≡ {[clo_dpid clo]} ∪ lsis N ->
      length (clo_vlinks clo) = length (cli_vlinks cli) -> NoDup ((clo_vlinks clo).*2) ->
      Forall (fun x => forall d, unused d (snd x) (links N)) (clo_vlinks clo) ->
      (forall x, x ∈ links N' <-> x ∈ links N \/ vlink (clo_dpid clo) (cli_vlinks cli) (clo_vlinks clo) x) ->
      net_step N (CreateLsi cli) (Created clo) N'
  | step_destroy d N' :
      d ∈ lsis N -> lsis N' ≡ lsis N ∖ {[d]} -> (forall x, x ∈ links N' <-> x ∈ links N /\ ~ touches d x) ->
      net_step N (DestroyLsi d) Done N'
  | step_destroy_none d N' :
      d ∉ lsis N -> lsis N' ≡ lsis N -> links N' ⊆ links N -> net_step N (DestroyLsi d) Done N'
  | step_link a b ia ib N' :
      a ∈ lsis N -> b ∈ lsis N -> unused a ia (links N) -> unused b ib (links N) ->
      lsis N' ≡ lsis N -> links N' ≡ {[(a, ia, (b, ib))]} ∪ links N ->
      net_step N (AddLink a b) (NewLink ia ib) N'
  | step_unlink a ia b ib N' :
      lsis N' ≡ lsis N -> links N' ⊆ links N ->
      ((a, ia, (b, ib)) ∈ links N -> links N' ≡ links N ∖ {[(a, ia, (b, ib))]}) ->
      net_step N (DestroyLink a ia b ib) Done N'
  | step_other c N' :
      match c with AddPorts _ _ _ | DestroyPorts _ _ | AddTunnel _ _ _ | DestroyTunnel _ _ => True | _ => False end ->
      lsis N' ≡ lsis N -> links N' ≡ links N -> net_step N c Done N'.
Inductive net_run (N : net_state) : list call -> list reply -> net_state -> Prop :=
  | run_nil N' : lsis N' ≡ lsis N -> links N' ≡ links N -> net_run N [] [] N'
  | run_cons c r N1 cs rs N' : net_step N c r N1 -> net_run N1 cs rs N' -> net_run N (c :: cs) (r :: rs) N'.

(** ** The plugin *)
Section runs.
Context {W : Type} `{OvsdbLaws W}.
Context (un_script_path controllerAddress local_ip certificate : string).
#[local] Abbreviation sys := (sys (W := W)).
#[local] Abbreviation mk c w := ({| cmd := c; net := w |} : sys).
#[local] Instance the_plugin : SwitchOps sys := ovsdb_manager un_script_path controllerAddress local_ip certificate.

Definition serve (c : call) : prog sys reply :=
  match c with
  | CreateLsi cli => clo ← createLsi cli; mret (Created clo)
  | DestroyLsi d => _ ← destroyLsi d; mret Done
  | AddLink a b => '(ia, ib) ← addVirtualLink a b; mret (NewLink ia ib)
  | DestroyLink a ia b ib => _ ← destroyVirtualLink a ia b ib; mret Done
  | AddPorts d nf ports => _ ← addNFPorts d nf NATIVE ports; mret Done
  | DestroyPorts d ports => _ ← destroyNFPorts d EmptyString ports; mret Done
  | AddTunnel d id params => _ ← addEndpoint d id params; mret Done
  | DestroyTunnel d id => _ ← destroyEndpoint d id; mret Done
  end.
Fixpoint serve_all (cs : list call) : prog sys (list reply) :=
  match cs with
  | [] => mret []
  | c :: cs => r ← serve c; rs ← serve_all cs; mret (r :: rs)
  end.

(** The LSIs the plugin knows, and the pairs of patch ports of the database. *)
Definition net_of (s : sys) : net_state :=
  {| lsis := {[ d | live (cmd s) d ]}; links := {[ x | patch_link (cmd s) (db (net s)) x ]} |}.

(** Each call. *)
Lemma some_ports_calm g k c w s' :
  in_sync (ctr c pnumber) (ctr c dnumber) g c (db w) -> linked (ctr c pnumber) g c ->
  some_ports (ctr c pnumber) (ctr c dnumber) g k c s' -> calm c w s'.
Proof.
  intros Hs Hk (Hs' & Hf & Hr). destruct s' as [c' w']. cbn [cmd net] in *. split; [|split].
  - apply synced_in_sync. exists g. rewrite !(pf_ctr _ _ Hf) by done. split; [done|]. eapply linked_frame; [done| |done]. lia.
  - intros d. by apply port_frame_live.
  - intros x. by eapply patch_link_frame.
Qed.
Lemma add_ports_ok d nf ports c w :
  synced (mk c w) -> post (cmd_editconfig_NFPorts un_script_path d nf ports) (fun s' _ => calm c w s') (mk c w).
Proof.
  intros (g & Hs & Hk)%synced_in_sync. unfold cmd_editconfig_NFPorts. apply post_bind.
  eapply post_mono; [by apply add_nf_ports_ok|]. intros s' [m names] Hp. apply post_ret. by eapply some_ports_calm.
Qed.
Lemma add_tunnel_ok d id params c w :
  synced (mk c w) -> post (cmd_editconfig_endpoint d id params) (fun s' _ => calm c w s') (mk c w).
Proof.
  intros (g & Hs & Hk)%synced_in_sync. unfold cmd_editconfig_endpoint, param. do 4 (apply post_bind, post_of_out; intros ? _).
  apply post_bind. eapply post_mono; [by apply new_endpoint_ok|]. intros s' n [(Hs' & Hf & Hr & _) _]. apply post_ret.
  apply (some_ports_calm g 1); [done|done|]. done.
Qed.
Lemma calm_step c0 s s' :
  match c0 with AddPorts _ _ _ | DestroyPorts _ _ | AddTunnel _ _ _ | DestroyTunnel _ _ => True | _ => False end ->
  calm (cmd s) (net s) s' -> synced s' /\ net_step (net_of s) c0 Done (net_of s').
Proof.
  intros Hc (Hs & HL & Hx). split; [done|]. apply step_other; [done|..]; intros y; cbn [lsis links net_of]; by rewrite !elem_of_PropSet.
Qed.

(** The numbers of a new link are beyond those in use. *)
Lemma next_unused d i s : synced s -> ctr (cmd s) rnumber <= i -> unused d i (links (net_of s)).
Proof.
  intros (g & Ha & _) Hi. destruct s as [c w]. cbn [cmd net] in *. split.
  - intros [b j]. cbn. rewrite elem_of_PropSet. intros (va & vb & ((La & Va) & _) & E & _)%(patch_link_joined _ _ _ _ _ _ _ _ Ha).
    destruct (ag_below _ _ _ _ Ha d va La Va) as [? _]. lia.
  - intros [a j]. cbn. rewrite elem_of_PropSet. intros (va & vb & (_ & (Lb & Vb) & _) & _ & E)%(patch_link_joined _ _ _ _ _ _ _ _ Ha).
    destruct (ag_below _ _ _ _ Ha d vb Lb Vb) as [? _]. lia.
Qed.
Lemma create_step cli s :
  synced s -> post (serve (CreateLsi cli)) (fun s' r => synced s' /\ net_step (net_of s) (CreateLsi cli) r (net_of s')) s.
Proof.
  destruct s as [c w]. intros Hs. apply post_bind. eapply post_mono; [by apply create_lsi_ok|].
  intros s' clo (Hs' & Ed & Ld & Hlen & HL & Hnd & Hge & Hx). apply post_ret. split; [done|]. apply step_create; [| |done|done| |].
  - cbn. rewrite elem_of_PropSet, Ed. intros L. apply L. by destruct Hs as (g & _ & _ & Hf & _); apply (Hf (ctr c dnumber)).
  - intros y. cbn. by rewrite elem_of_union, elem_of_singleton, !elem_of_PropSet, HL, Ed.
  - eapply Forall_impl; [exact Hge|]. intros y Hy d. by apply next_unused.
  - intros x. cbn. rewrite !elem_of_PropSet. apply Hx.
Qed.
Lemma destroy_step d s :
  synced s -> post (serve (DestroyLsi d)) (fun s' r => synced s' /\ net_step (net_of s) (DestroyLsi d) r (net_of s')) s.
Proof.
  destruct s as [c w]. intros Hs. apply post_bind. eapply post_mono; [by eapply wp_post, delete_lsi_ok|].
  intros s' [] (Hs' & [Dg Dl Dx Ds _ _]). apply post_ret. split; [done|]. destruct (decide (live c d)) as [Ld|Ld].
  - apply step_destroy; cbn.
    + done.
    + intros y. rewrite elem_of_difference, elem_of_singleton, !elem_of_PropSet. destruct (decide (y = d)) as [->|Hy]; [tauto|].
      rewrite (Dl y Hy). tauto.
    + intros x. rewrite !elem_of_PropSet. by apply Dx.
  - apply step_destroy_none; cbn.
    + done.
    + intros y. rewrite !elem_of_PropSet. destruct (decide (y = d)) as [->|Hy]; [tauto|]. by apply Dl.
    + intros x. rewrite !elem_of_PropSet. apply Ds.
Qed.
Lemma link_step a b s :
  synced s -> post (serve (AddLink a b)) (fun s' r => synced s' /\ net_step (net_of s) (AddLink a b) r (net_of s')) s.
Proof.
  destruct s as [c w]. intros Hs. apply post_bind. eapply post_mono; [by eapply wp_post, add_link_ok|].
  intros s' [ia ib] ([= -> ->] & La & Lb & Hs' & HL & Hx). apply post_ret. split; [done|]. apply step_link; cbn.
  - done.
  - done.
  - apply (next_unused _ _ (mk c w)); [done|]. done.
  - apply (next_unused _ _ (mk c w)); [done|]. cbn. lia.
  - intros y. rewrite !elem_of_PropSet. apply HL.
  - intros x. rewrite elem_of_union, elem_of_singleton, !elem_of_PropSet. apply Hx.
Qed.
Lemma post_and_imp {S A} (m : prog S A) Q (P : Prop) R s : post m Q s -> (P -> post m R s) -> post m (fun s' a => Q s' a /\ (P -> R s' a)) s.
Proof. unfold post. destruct (m s) as [s' [a|e|f]]; naive_solver. Qed.
Lemma unlink_step a ia b ib s :
  synced s -> post (serve (DestroyLink a ia b ib)) (fun s' r => synced s' /\ net_step (net_of s) (DestroyLink a ia b ib) r (net_of s')) s.
Proof.
  destruct s as [c w]. intros Hs. apply post_bind.
  eapply post_mono; [eapply (post_and_imp _ _ (patch_link c (db w) (a, ia, (b, ib))));
    [by eapply wp_post, destroy_any_ok|intros Hx; by eapply wp_post, destroy_link_ok]|].
  intros s' [] [(Hs' & HL & Hsub) Hx]. apply post_ret. split; [done|]. apply step_unlink; cbn.
  - intros y. rewrite !elem_of_PropSet. apply HL.
  - intros x. rewrite !elem_of_PropSet. apply Hsub.
  - rewrite elem_of_PropSet. intros [_ Hx']%Hx x. rewrite elem_of_difference, elem_of_singleton, !elem_of_PropSet. apply Hx'.
Qed.
Lemma serve_ok c s : synced s -> post (serve c) (fun s' r => synced s' /\ net_step (net_of s) c r (net_of s')) s.
Proof.
  intros Hs. destruct c; [by apply create_step|by apply destroy_step|by apply link_step|by apply unlink_step|..];
    destruct s as [c w]; apply post_bind.
  - eapply post_mono; [by apply add_ports_ok|]. intros s' r Hc. apply post_ret. by apply calm_step.
  - eapply post_mono; [by apply delete_nf_ports_ok|]. intros s' r Hc. apply post_ret. by apply calm_step.
  - eapply post_mono; [by apply add_tunnel_ok|]. intros s' r Hc. apply post_ret. by apply calm_step.
  - eapply post_mono; [by apply delete_endpoint_ok|]. intros s' r Hc. apply post_ret. by apply calm_step.
Qed.
Lemma serve_all_ok cs s : synced s -> post (serve_all cs) (fun s' rs => synced s' /\ net_run (net_of s) cs rs (net_of s')) s.
Proof.
  revert s. induction cs as [|c cs IH]; intros s Hs; cbn [serve_all]; [by apply post_ret; split; [|constructor]|].
  apply post_bind. eapply post_mono; [by apply serve_ok|]. intros s1 r [Hs1 H1].
  apply post_bind. eapply post_mono; [by apply IH|]. intros s2 rs [Hs2 H2]. apply post_ret. split; [done|]. by econstructor.
Qed.

(** Nothing is known at the start, whatever the database holds. *)
Definition plugin_start (w : W) : sys := mk commands_init w.
Lemma start_not_live d : ~ live commands_init d.
Proof. intros Hd. by apply Hd. Qed.
Lemma start_synced w : synced (plugin_start w).
Proof.
  exists (fun _ => []). split; [|split; [|split]].
  - split; intros; try (by exfalso; eapply start_not_live); try done. by left.
  - split; intros; try (by exfalso; eapply start_not_live); done.
  - by intros d _.
  - split; intros; try (by exfalso; eapply start_not_live); try done. by exists 0.
Qed.
Lemma start_net w : lsis (net_of (plugin_start w)) ≡ ∅ /\ links (net_of (plugin_start w)) ≡ ∅.
Proof.
  split; [intros d|intros [[a ia] [b ib]]]; cbn; rewrite elem_of_PropSet, elem_of_empty.
  - split; [apply start_not_live|done].
  - split; [|done]. by intros (_ & ra & rb & [L _] & _).
Qed.

(** ** Refused insertions *)
Lemma read_later_results f d i good rest (Q : sys -> unit -> Prop) E c w :
  (2 <= i)%nat -> Forall is_result good -> wp (read_ops (record_port f d) (i + length good) rest) Q E (mk c w) ->
  wp (read_ops (record_port f d) i (good ++ rest)) Q E (mk c w).
Proof.
  intros Hi Hg. revert i Hi. induction Hg as [|r good Hr Hg IH]; intros i Hi Hrest; cbn [app].
  - by rewrite Nat.add_0_r in Hrest.
  - assert (IH' : wp (read_ops (record_port f d) (S i) (good ++ rest)) Q E (mk c w)).
    { apply IH; [lia|]. cbn in *. by rewrite Nat.add_succ_r in Hrest. }
    cbn [read_ops]. apply prog_wp_bind. destruct Hr as [[u ->]|[n ->]]; (eapply wp_of_out; [done|]); apply prog_wp_bind; cbn [for_each];
      apply prog_wp_bind; unfold read_member.
    + rewrite bool_decide_true by done. unfold record_port. apply prog_wp_bind. eapply wp_of_out; [done|].
      destruct (Nat.eqb_spec i 1); [lia|]. by apply prog_wp_ret, prog_wp_ret.
    + rewrite !bool_decide_false by done. by apply prog_wp_ret, prog_wp_ret.
Qed.
Lemma read_refused_commit f d id iu pu good e t (Q : sys -> unit -> Prop) E c w :
  Forall is_result good ->
  (forall c', same (c_list f d (ls c f d ++ [pu]) c) c' -> E (mk c' w) SwitchManagerException) ->
  wp (read_answer (record_port f d) (answer id (row_result iu :: row_result pu :: good ++ [error_result e t]))) Q E (mk c w).
Proof.
  intros Hg HE. unfold read_answer. apply prog_wp_bind. eapply wp_of_out; [done|]. cbn [for_each].
  do 2 (apply prog_wp_bind; rewrite bool_decide_false by done; apply prog_wp_ret).
  apply prog_wp_bind. rewrite bool_decide_true by done. apply prog_wp_bind. eapply wp_of_out; [done|].
  cbn [read_ops]. apply prog_wp_bind. eapply wp_of_out; [done|]. apply prog_wp_bind. cbn [for_each].
  apply prog_wp_bind. unfold read_member at 1. rewrite bool_decide_true by done. unfold record_port at 1. apply prog_wp_bind.
  eapply wp_of_out; [done|]. cbn [Nat.eqb]. apply prog_wp_ret, prog_wp_ret.
  apply prog_wp_bind. eapply wp_of_out; [done|]. apply prog_wp_bind. apply prog_wp_bind. unfold read_member at 1.
  rewrite bool_decide_true by done. unfold record_port at 1. apply prog_wp_bind.
  eapply wp_of_out; [done|]. cbn [Nat.eqb]. apply prog_wp_bind. eapply wp_of_out; [done|]. apply wp_push. intros c' Hc.
  apply prog_wp_ret. apply read_later_results; [done|done|]. cbn [read_ops]. apply prog_wp_bind. eapply wp_of_out; [done|].
  apply prog_wp_bind. cbn [for_each]. apply prog_wp_bind. unfold read_member. rewrite bool_decide_false by done.
  rewrite bool_decide_true by done. apply prog_wp_bind. eapply wp_of_out; [done|]. by apply wp_throw, HE.
Qed.

(** ** The properties *)

(** C3: whatever the database holds at the start, after any sequence of calls of
    the switch manager that return (LSIs with their ports, tunnels and links,
    ports of functions, tunnels and virtual links created and destroyed in any
    order), the pairs of patch ports on the bridges of the database are exactly
    the virtual links that the calls and the numbers they gave back promise: the
    plugin together with the database implements the abstract switch
    [net_step]. *)
Theorem plugin_implements_switch cs w s rs :
  serve_all cs (plugin_start w) = (s, Ret rs) ->
  lsis (net_of (plugin_start w)) ≡ ∅ /\ links (net_of (plugin_start w)) ≡ ∅
  /\ net_run (net_of (plugin_start w)) cs rs (net_of s).
Proof.
  intros E. pose proof (serve_all_ok cs _ (start_synced w)) as Hp. unfold post in Hp. rewrite E in Hp.
  destruct (start_net w). by destruct Hp.
Qed.

(** C4: after any sequence of calls that return, the bridge of an LSI in the
    database has exactly the ports the plugin lists for it, two LSIs have
    different bridges, and the list of names of an LSI's patch ports goes with
    that of their UUIDs: the port at a place of one list is called as the other
    says. *)
Theorem lists_match_database cs w s rs d :
  serve_all cs (plugin_start w) = (s, Ret rs) -> live (cmd s) d ->
  db_bridges (db (net s)) !! tx (cmd s) switch_uuid d = Some (list_to_set (known (cmd s) d))
  /\ (forall e, tx (cmd s) switch_uuid e = tx (cmd s) switch_uuid d -> e = d)
  /\ Forall2 (fun name u => exists row, db_ports (db (net s)) !! u = Some row /\ pr_name row = name)
       (ls (cmd s) vport_l d) (ls (cmd s) vport_uuid d).
Proof.
  intros E Ld. pose proof (serve_all_ok cs _ (start_synced w)) as Hp. unfold post in Hp. rewrite E in Hp.
  destruct Hp as [(g & Ha & Hn & _) _]. split; [by apply (ag_bridge _ _ _ _ Ha)|]. split.
  - intros e Ee. symmetry. by apply (ag_inj _ _ _ _ Ha).
  - rewrite (na_names _ _ Hn d Ld), (ag_uuids _ _ _ _ Ha d Ld). apply Forall2_fmap, Forall_Forall2_diag, Forall_forall.
    intros v Hv. exists (vrow v). split; [by apply (ag_rows _ _ _ _ Ha d)|done].
Qed.

(** C5: after any sequence of calls that return, the removal of a known LSI is
    never undefined, reports nothing but a failure of the switch, and, when it
    returns, has removed the links of the LSI and no others.  But the bridge stays
    in the database if and only if the plugin then knows some LSI with an empty
    UUID, as a look-up of a removed LSI leaves it (the list of bridges it sends
    is refused, and the answer is not looked at); and otherwise all bridges go
    that are not those of LSIs of the plugin. *)
Theorem destroyed_lsi_bridge cs w s rs d :
  serve_all cs (plugin_start w) = (s, Ret rs) -> live (cmd s) d ->
  match destroyLsi d s with
  | (s', Ret _) =>
      (forall x, x ∈ links (net_of s') <-> x ∈ links (net_of s) /\ ~ touches d x)
      /\ (tx (cmd s) switch_uuid d ∈ dom (db_bridges (db (net s'))) <-> ~ all_known (texts (cmd s') switch_uuid))
      /\ (all_known (texts (cmd s') switch_uuid) -> only_ours (cmd s') (db (net s')))
  | (_, Throw e) => e = SwitchManagerException
  | (_, Halt _) => False
  end.
Proof.
  intros E Ld. pose proof (serve_all_ok cs _ (start_synced w)) as Hp. unfold post in Hp. rewrite E in Hp. destruct Hp as [Hs _].
  destruct s as [c w1]. pose proof (delete_lsi_ok d c w1 Hs) as Hd. unfold wp in Hd. cbn [destroyLsi the_plugin ovsdb_manager].
  destruct (cmd_editconfig_lsi_delete d _) as [s' [[]|e|]]; [|done|done]. destruct Hd as [_ Hd]. cbn [cmd net] in *. split; [|split; by apply Hd].
  intros x. cbn. rewrite !elem_of_PropSet. by apply Hd.
Qed.

(** C6: when the server refuses the insertion of a port at the commit, after it
    has given the UUIDs of the rows, the operation fails, yet the UUID of the row
    that does not exist is already in the list of the LSI's ports, from which
    every later transaction on the bridge is made. *)
Theorem refused_port_recorded f d iface row name uuid_name c w w' iu pu good e t :
  exchanged (transaction (ctr c tid)
      [insert_row "Interface" row iface; insert_row "Port" (port_row name iface) uuid_name;
       update_ports (tx c switch_uuid d) ((uuid <$> known c d) ++ [named_uuid uuid_name]); next_cfg]) w w'
    (Some (answer (ctr c tid) (row_result iu :: row_result pu :: good ++ [error_result e t]))) ->
  Forall is_result good ->
  exists c', insert_port f d iface row name uuid_name (mk c w) = (mk c' w', Throw SwitchManagerException)
    /\ ls c' f d = ls c f d ++ [pu] /\ ctr c' rnumber = ctr c rnumber.
Proof.
  intros Hx Hg.
  assert (Hw : wp (insert_port f d iface row name uuid_name) (fun _ _ => False)
    (fun s' x => exists c', s' = mk c' w' /\ x = SwitchManagerException /\ ls c' f d = ls c f d ++ [pu] /\ ctr c' rnumber = ctr c rnumber) (mk c w)).
  { unfold insert_port. apply prog_wp_bind, wp_text_at. intros c1 H1. apply prog_wp_bind, wp_known_ports. intros c2 H2.
    apply prog_wp_bind, wp_num. cbn [cmd]. views. apply prog_wp_bind. destruct Hx as (w1 & Ex & Er). unfold known in Ex.
    eapply (bind_step (on_net (db_send _))); [unfold on_net; cbn [net cmd]; by rewrite Ex|]. cbn [negb].
    eapply (bind_step (on_net db_recv)); [unfold on_net; cbn [net cmd]; by rewrite Er|]. apply prog_wp_ret. cbn [default].
    apply prog_wp_bind, read_refused_commit; [done|]. intros c3 H3. exists c3. split; [done|]. split; [done|]. views.
    by rewrite decide_True by done. }
  unfold wp in Hw. destruct (insert_port f d iface row name uuid_name (mk c w)) as [s' [[]|x|]]; [done| |done].
  destruct Hw as (c' & -> & -> & ?). by exists c'.
Qed.
End runs.
