(* ===== verification/OvsdbSample.v ===== *)
(** * A small OVSDB server

    An executable server that keeps bridges and ports, refuses a port whose name
    is taken or a reference to a row that does not exist, and answers as the laws
    say; runs of the plugin against it. *)

From Stdlib Require Import ZArith Lia String Ascii.
From stdpp Require Import gmap strings numbers base list functions propset sorting.
From S2P Require Import Prelude CString Cpp Json FlowMatch HighLevel HLGraph Lsi Vlinks VlinksOk NFManagers GraphManager Ovsdb OvsdbOk OvsdbLinks OvsdbSync OvsdbLsi OvsdbDelete OvsdbRuns.

(** A text longer than all in a set. *)
Definition longest (X : gset string) : nat := foldr (fun s m => Nat.max (String.length s) m) 0%nat (elements X).
Definition new_uuid (X : gset string) : string := string_of_list_ascii (repeat "u"%char (S (longest X))).
Lemma length_repeat_string n : String.length (string_of_list_ascii (repeat "u"%char n)) = n.
Proof. induction n as [|n IH]; cbn; [done|by rewrite IH]. Qed.
Lemma new_uuid_new X : new_uuid X ∉ X.
Proof.
  intros Hin. assert (Hlen : forall s, s ∈ X -> (String.length s <= longest X)%nat).
  { intros s Hs. apply elem_of_elements in Hs. unfold longest. induction Hs as [|s y l Hs IH]; cbn; [lia|]. lia. }
  specialize (Hlen _ Hin). unfold new_uuid in Hlen. rewrite length_repeat_string in Hlen. lia.
Qed.

Record server := { sv_ports : gmap string prow; sv_bridges : gmap string (gset string); sv_answer : json; sv_up : bool }.
Definition sv_db (w : server) : DB := {| db_ports := sv_ports w; db_bridges := delete EmptyString (sv_bridges w) |}.

Definition uuids (l : list json) : list string :=
  omap (fun j => match j with JArr [_; JStr u] => Some u | _ => None end) l.
Definition in_use (D : DB) (name : string) : bool :=
  existsb (fun b => existsb (fun u => match db_ports D !! u with Some r => bool_decide (pr_name r = name) | None => false end)
                      (elements (snd b))) (map_to_list (db_bridges D)).
Definition refuse (id : Z) (w : server) (good : list json) : server :=
  {| sv_ports := sv_ports w; sv_bridges := sv_bridges w; sv_up := sv_up w;
     sv_answer := answer id (good ++ [error_result "constraint violation" "the transaction is refused"]) |}.
Definition accept (id : Z) (w : server) (ports : gmap string prow) (bridges : gmap string (gset string)) (results : list json) : server :=
  {| sv_ports := ports; sv_bridges := bridges; sv_up := sv_up w; sv_answer := answer id results |}.

Definition sv_insert (id : Z) (name : string) (ofport : Z) (peer : option string) (bridge : string) (ports : list string) (w : server) : server :=
  let D := sv_db w in
  let iu := "interface" in
  let pu := new_uuid (dom (db_ports D)) in
  let results := [row_result iu; row_result pu; count_result 1; count_result 1] in
  if bool_decide (bridge ∈ dom (db_bridges D)) && bool_decide (Forall (.∈ dom (db_ports D)) ports) && negb (in_use D name)
  then accept id w (<[pu := {| pr_name := name; pr_ofport := ofport; pr_peer := peer |}]> (db_ports D))
         (<[bridge := list_to_set (ports ++ [pu])]> (db_bridges D)) results
  else refuse id w results.
Definition sv_restrict (id : Z) (bridge : string) (ports : list string) (w : server) : server :=
  let D := sv_db w in
  if bool_decide (bridge ∈ dom (db_bridges D))
  then accept id w (db_ports D) (<[bridge := list_to_set ports]> (db_bridges D)) [count_result 1; count_result 1]
  else refuse id w [count_result 0; count_result 1].
Definition sv_create (id : Z) (w : server) : server :=
  let D := sv_db w in
  let bu := new_uuid ({[EmptyString]} ∪ dom (db_bridges D)) in
  accept id w (db_ports D) (<[bu := ∅]> (db_bridges D)) [row_result "controller"; row_result bu; count_result 1].
Definition sv_keep (id : Z) (bridges : list string) (w : server) : server :=
  let D := sv_db w in
  if bool_decide (Forall (.∈ dom (db_bridges D)) bridges)
  then accept id w (db_ports D) (filter (fun p => fst p ∈ bridges) (db_bridges D)) [count_result 1; count_result 1]
  else refuse id w [].

(** The four transactions of the plugin, by their shape. *)
Definition handle (request : json) (w : server) : server :=
  match request with
  | JObj [(_, JInt id); _; (_, JArr (_ :: ops))] =>
      match ops with
      | [JObj [_; (_, JObj (_ :: _ :: (_, JStr name) :: (_, JInt ofport) :: _ :: more)); _; _]; _;
         JObj [_; (_, JObj [(_, JArr [_; JArr ports])]); _; (_, JArr [JArr [_; _; JArr [_; JStr bridge]]])]; _] =>
          sv_insert id name ofport (patch_peer more) bridge (removelast (uuids ports)) w
      | [_; _; _] => sv_create id w
      | [JObj [_; (_, JObj [(_, JArr [_; JArr l])]); _; (_, JArr [])]; _] => sv_keep id (uuids l) w
      | [JObj [_; (_, JObj [(_, JArr [_; JArr l])]); _; (_, JArr [JArr [_; _; JArr [_; JStr bridge]]])]; _] =>
          sv_restrict id bridge (uuids l) w
      | _ => w
      end
  | _ => w
  end.
#[export] Instance server_ovsdb : Ovsdb server := {
  db_connect w := (w, sv_up w);
  db_close w := (w, true);
  db_send request w := (handle request w, true);
  db_recv w := (w, Some (Some (sv_answer w)));
  run_script command w := (w, match String.index 0 "create_veth" command with Some _ => 256 | None => 0 end)
}.

Lemma uuids_fmap l : uuids (uuid <$> l) = l.
Proof. induction l as [|u l IH]; cbn; [done|]. by f_equal. Qed.
Lemma uuids_app l k : uuids (l ++ k) = uuids l ++ uuids k.
Proof. apply omap_app. Qed.
Lemma uuids_last l x : removelast (uuids ((uuid <$> l) ++ [named_uuid x])) = l.
Proof. rewrite uuids_app, uuids_fmap. apply removelast_last. Qed.
Lemma is_refused id w good : Forall is_result good -> refusal (Some (sv_answer (refuse id w good))).
Proof. intros Hg. by exists id, good, "constraint violation", "the transaction is refused", []. Qed.
Lemma row_is_result u : is_result (row_result u).
Proof. left. by exists u. Qed.
Lemma count_is_result n : is_result (count_result n).
Proof. right. by exists n. Qed.

Lemma sv_db_accept id w ports bridges results :
  bridges !! EmptyString = None -> sv_db (accept id w ports bridges results) = {| db_ports := ports; db_bridges := bridges |}.
Proof. intros E. unfold sv_db. cbn. by rewrite delete_id. Qed.
Lemma sv_db_refuse id w good : sv_db (refuse id w good) = sv_db w.
Proof. done. Qed.
Lemma sv_no_empty w : db_bridges (sv_db w) !! EmptyString = None.
Proof. apply lookup_delete_eq. Qed.
Lemma sv_bridge_nonempty w b : b ∈ dom (db_bridges (sv_db w)) -> b <> EmptyString.
Proof. intros Hb ->. apply elem_of_dom in Hb as [x Hx]. by rewrite sv_no_empty in Hx. Qed.

Lemma insert_law id iface name uuid_name ofport more bridge ports w w' v :
  exchanged (insert_request id iface name uuid_name ofport more bridge ports) w w' v ->
  refusal v
  \/ exists iu pu,
       v = Some (answer id [row_result iu; row_result pu; count_result 1; count_result 1])
       /\ bridge ∈ dom (db_bridges (sv_db w)) /\ (pu ∉ dom (db_ports (sv_db w)))
       /\ db_bridges (sv_db w') = <[bridge := list_to_set (ports ++ [pu])]> (db_bridges (sv_db w))
       /\ db_ports (sv_db w') !! pu = Some {| pr_name := name; pr_ofport := ofport; pr_peer := patch_peer more |}
       /\ ports_stay (sv_db w) (sv_db w').
Proof.
  intros (w1 & E1 & E2). injection E1 as <-. injection E2 as <- <-.
  unfold insert_request, transaction, update_ports, jset, insert_row, interface_row, next_cfg, mutate.
  cbn [handle app]. rewrite uuids_last. unfold sv_insert. set (pu := new_uuid _).
  assert (Hg : Forall is_result [row_result "interface"; row_result pu; count_result 1; count_result 1]).
  { repeat (apply Forall_cons_2; [apply row_is_result || apply count_is_result|]). apply Forall_nil_2. }
  case_bool_decide as Hb; [|left; by apply is_refused]. case_bool_decide; [|left; by apply is_refused].
  destruct (in_use _ name); [left; by apply is_refused|]. right. cbn [negb andb]. exists "interface", pu.
  assert (Hp : pu ∉ dom (db_ports (sv_db w))) by apply new_uuid_new.
  rewrite sv_db_accept by (rewrite lookup_insert_ne by (by apply (sv_bridge_nonempty w)); apply sv_no_empty). cbn [db_ports db_bridges].
  split; [done|]. split; [done|]. split; [done|]. split; [done|]. split; [by rewrite lookup_insert_eq|].
  intros bu ps u row _ _ Hu. cbn [db_ports]. rewrite lookup_insert_ne; [done|]. intros <-. apply Hp, elem_of_dom. by eexists.
Qed.
Lemma restrict_law id bridge ports w w' v :
  exchanged (transaction id [update_ports bridge (uuid <$> ports); next_cfg]) w w' v ->
  match db_bridges (sv_db w) !! bridge with
  | None => sv_db w' = sv_db w
  | Some ps =>
      list_to_set ports ⊆ ps ->
      db_bridges (sv_db w') = <[bridge := list_to_set ports]> (db_bridges (sv_db w)) /\ ports_stay (sv_db w) (sv_db w')
  end.
Proof.
  intros (w1 & E1 & E2). injection E1 as <-. injection E2 as <- <-. cbn [handle transaction update_ports jset next_cfg mutate uuid].
  change (uuids ((fun u => JArr [JStr "uuid"; JStr u]) <$> ports)) with (uuids (uuid <$> ports)). rewrite uuids_fmap. unfold sv_restrict.
  destruct (db_bridges (sv_db w) !! bridge) as [ps|] eqn:E.
  - intros _. assert (Hb : bridge ∈ dom (db_bridges (sv_db w))) by (apply elem_of_dom; by eexists). rewrite bool_decide_true by done.
    rewrite sv_db_accept by (rewrite lookup_insert_ne by (by apply (sv_bridge_nonempty w)); apply sv_no_empty). split; [done|]. by intros ?????.
  - by rewrite bool_decide_false by (by apply not_elem_of_dom).
Qed.
Lemma create_law address local port d id w w' v :
  exchanged (create_bridge address local port d id) w w' v ->
  refusal v
  \/ exists cu bu,
       v = Some (answer id [row_result cu; row_result bu; count_result 1])
       /\ bu <> EmptyString /\ (bu ∉ dom (db_bridges (sv_db w)))
       /\ db_bridges (sv_db w') = <[bu := ∅]> (db_bridges (sv_db w)) /\ ports_stay (sv_db w) (sv_db w').
Proof.
  intros (w1 & E1 & E2). injection E1 as <-. injection E2 as <- <-. right. cbn [handle create_bridge transaction]. unfold sv_create.
  set (bu := new_uuid _). assert (Hn : bu ∉ {[EmptyString]} ∪ dom (db_bridges (sv_db w))) by apply new_uuid_new.
  rewrite not_elem_of_union, elem_of_singleton in Hn. destruct Hn as [H1 H2]. exists "controller", bu.
  rewrite sv_db_accept by (rewrite lookup_insert_ne by done; apply sv_no_empty). split_and!; try done. by intros ?????.
Qed.
Lemma keep_law id bridges w w' v :
  exchanged (transaction id [update_bridges bridges; next_cfg]) w w' v ->
  ports_stay (sv_db w) (sv_db w')
  /\ if decide (Forall (.∈ dom (db_bridges (sv_db w))) bridges)
     then db_bridges (sv_db w') = filter (fun p => fst p ∈ bridges) (db_bridges (sv_db w))
     else db_bridges (sv_db w') = db_bridges (sv_db w).
Proof.
  intros (w1 & E1 & E2). injection E1 as <-. injection E2 as <- <-. cbn [handle transaction update_bridges jset next_cfg mutate].
  rewrite uuids_fmap. unfold sv_keep. case_decide as HF; [rewrite bool_decide_true by done|rewrite bool_decide_false by done; by split; [intros ?????|]].
  rewrite sv_db_accept; [split; [by intros ?????|done]|]. apply map_lookup_filter_None. left. apply sv_no_empty.
Qed.
#[export] Instance server_laws : OvsdbLaws server := {
  db := sv_db;
  law_connect w := eq_refl;
  law_close w := eq_refl;
  law_script c w := eq_refl;
  law_uuid := sv_no_empty;
  law_insert := insert_law;
  law_restrict := restrict_law;
  law_create := create_law;
  law_bridges := keep_law
}.

(** ** Runs *)
Definition server0 : server := {| sv_ports := ∅; sv_bridges := {[ "br0" := ∅ ]}; sv_answer := JNull; sv_up := true |}.
(** LSI-0 with a physical port; a tenant LSI with a function, a tunnel and two
    links to LSI-0. *)
Definition lsi0_in : CreateLsiIn :=
  {| cli_controller_port := "6653"; cli_physical := ["eth0"]; cli_nf_types := ∅; cli_nfs_ports := ∅; cli_gre := ∅; cli_vlinks := [] |}.
Definition tenant_in : CreateLsiIn :=
  {| cli_controller_port := "6654"; cli_physical := []; cli_nf_types := {[ "fw" := DOCKER ]};
     cli_nfs_ports := {[ "fw" := [{| pi_name := "fw_1"; pi_type := VETH_PORT; pi_id := 1 |}; {| pi_name := "fw_2"; pi_type := VHOST_PORT; pi_id := 2 |}] ]};
     cli_gre := {[ "gre1" := ["1"; "10.0.0.1"; "10.0.0.2"; "eth0"; "false"] ]}; cli_vlinks := [1; 1] |}.
Definition run_sample (cs : list call) : sys (W := server) * out (list reply) :=
  serve_all "/un/" "127.0.0.1" "127.0.0.1" "" cs (plugin_start server0).
Definition final (cs : list call) : sys (W := server) := fst (run_sample cs).
Definition replies (cs : list call) : list reply := match snd (run_sample cs) with Ret rs => rs | _ => [] end.
Definition returns (cs : list call) : bool := match snd (run_sample cs) with Ret _ => true | _ => false end.
Lemma run_returns cs : returns cs = true ->
  serve_all "/un/" "127.0.0.1" "127.0.0.1" "" cs (plugin_start server0) = (final cs, Ret (replies cs)).
Proof. unfold returns, final, replies, run_sample. by destruct (serve_all _ _ _ _ cs _) as [s [rs|e|h]]. Qed.

(** The numbers the calls give back, and what is left of a link that goes. *)
Definition busy : list call :=
  [CreateLsi lsi0_in; CreateLsi tenant_in; AddLink 2 1; DestroyLink 2 5 1 7; DestroyPorts 2 {[ "2_fw_1" ]};
   AddPorts 2 "fw" [{| pi_name := "fw_3"; pi_type := VHOST_PORT; pi_id := 3 |}]; AddTunnel 1 "gre2" ["10.0.0.1"; "1"; "10.0.0.3"; "eth0"; "true"];
   DestroyTunnel 2 "gre1"].
Example busy_returns : returns busy = true /\ clo_vlinks <$> (match replies busy with [_; Created clo; _; _; _; _; _; _] => Some clo | _ => None end) = Some [(5, 7); (6, 8)]
  /\ replies busy !! 2%nat = Some (NewLink 9 10).
Proof. vm_compute. done. Qed.

Lemma plugin_implements_switch_witness :
  returns busy = true /\ net_run (net_of (plugin_start server0)) busy (replies busy) (net_of (final busy)).
Proof.
  split; [vm_compute; reflexivity|].
  apply (plugin_implements_switch "/un/" "127.0.0.1" "127.0.0.1" "" busy server0 (final busy) (replies busy)).
  apply run_returns. vm_compute. reflexivity.
Defined.

Lemma lists_match_database_witness :
  live (cmd (final busy)) 2
  /\ db_bridges (db (net (final busy))) !! tx (cmd (final busy)) switch_uuid 2 = Some (list_to_set (known (cmd (final busy)) 2))
  /\ length (known (cmd (final busy)) 2) = 4%nat.
Proof.
  assert (L : live (cmd (final busy)) 2) by (intros E; vm_compute in E; discriminate). split; [exact L|]. split; [|vm_compute; reflexivity].
  apply (lists_match_database "/un/" "127.0.0.1" "127.0.0.1" "" busy server0 (final busy) (replies busy) 2); [|exact L].
  apply run_returns. vm_compute. reflexivity.
Defined.

(** LSI-0 goes first: the bridge of the tenant LSI stays, and so does a bridge of
    others, which goes when the tenant LSI goes first. *)
Definition zero_first : list call := [CreateLsi lsi0_in; CreateLsi tenant_in; DestroyLsi 1].
Lemma destroyed_lsi_bridge_witness :
  live (cmd (final zero_first)) 2
  /\ exists s', cmd_editconfig_lsi_delete 2 (final zero_first) = (s', Ret tt)
       /\ tx (cmd (final zero_first)) switch_uuid 2 ∈ dom (db_bridges (db (net s'))).
Proof.
  assert (L : live (cmd (final zero_first)) 2) by (intros E; vm_compute in E; discriminate). split; [exact L|].
  pose proof (destroyed_lsi_bridge "/un/" "127.0.0.1" "127.0.0.1" "" zero_first server0 (final zero_first) (replies zero_first) 2
    (run_returns zero_first ltac:(vm_compute; reflexivity)) L) as Hd.
  cbn [destroyLsi the_plugin ovsdb_manager] in Hd.
  assert (E1 : snd (cmd_editconfig_lsi_delete 2 (final zero_first)) = Ret tt) by (vm_compute; reflexivity).
  assert (E2 : texts (cmd (fst (cmd_editconfig_lsi_delete 2 (final zero_first)))) switch_uuid !! 1 = Some EmptyString) by (vm_compute; reflexivity).
  destruct (cmd_editconfig_lsi_delete 2 (final zero_first)) as [s' o]. cbn in E1, E2. subst o. destruct Hd as (_ & Hb & _).
  exists s'. split; [done|]. apply Hb. intros HA. by apply (HA 1 EmptyString E2).
Defined.

(** The name of a port is taken. *)
Definition one_lsi : list call := [CreateLsi lsi0_in].
Lemma refused_port_recorded_witness :
  exists c' w', insert_port port_uuid 1 "iface2" (interface_row "eth0" 2 []) "eth0" "eth0" (final one_lsi)
      = ({| cmd := c'; net := w' |}, Throw SwitchManagerException)
    /\ length (ls c' port_uuid 1) = 2%nat /\ size (db_ports (db w')) = 1%nat.
Proof.
  set (s := final one_lsi). set (w' := handle (insert_request (ctr (cmd s) tid) "iface2" "eth0" "eth0" 2 [] (tx (cmd s) switch_uuid 1) (known (cmd s) 1)) (net s)).
  destruct (refused_port_recorded port_uuid 1 "iface2" (interface_row "eth0" 2 []) "eth0" "eth0" (cmd s) (net s) w' "interface" "uu"
    [count_result 1; count_result 1] "constraint violation" "the transaction is refused") as (c' & E & El & _).
  - exists w'. split; [reflexivity|]. vm_compute. reflexivity.
  - apply Forall_cons_2; [apply count_is_result|]. apply Forall_cons_2; [apply count_is_result|apply Forall_nil_2].
  - exists c', w'. split; [|split; [|vm_compute; reflexivity]].
    + destruct s as [c w]. exact E.
    + rewrite El. vm_compute. reflexivity.
Defined.
